(* ===== verification/_CoqProject ===== *)
-Q . S2P
Prelude.v
BpfInsn.v
BpfFilter.v
BpfFilterProofs.v
BpfImage.v
Icode.v
Gencode.v
GencodeProofs.v
GencodeFilter.v
Layout.v
LayoutProofs.v
LayoutConvert.v
LayoutLoop.v
OptState.v
OptFlow.v
OptValue.v
OptBlock.v
OptBranch.v
OptLoop.v
OptGraph.v
OptIntern.v
OptLevels.v
OptLive.v
OptDead.v
OptValueProofs.v
OptNumbers.v
Compile.v
LinkType.v
UsbHeader.v
Pcap.v
SfPcap.v
SfPcapProofs.v
SfPcapNg.v
SfPcapNgProofs.v
Savefile.v
SavefileProofs.v
Datalink.v
PcapApi.v
GenConst.v
EtherEnt.v
GenState.v
Names.v
GenLoad.v
GenLink.v
GenHost.v
GenPort.v
GenArth.v
GenMisc.v
GenName.v
GenFinish.v
GenExpr.v
GenLogic.v
GenTriple.v
GenLoadProofs.v
GenLinkProofs.v
GenTestProofs.v
GenArithProofs.v
GenSem.v
GenCompile.v
GenTheorems.v
Iface.v
IfaceScan.v
IfaceProofs.v
LinuxFilter.v
LinuxRing.v
LinuxProofs.v
LinuxTheorems.v
BufRead.v
NacState.v
NacName.v
NacStream.v
NacTx.v
NacConfig.v
Qnf.v
NacProofs.v
NacTheorems.v
QnfProofs.v
QnfSession.v
QnfTheorems.v
