(* ===== verification/Prelude.v ===== *)
(** * libpcap 1.5.3: a verification development

    libpcap captures packets and reads and writes capture files. An application creates a
    handle ([pcap_t]), configures and activates it or opens a savefile, compiles a filter
    expression to a program for the BPF machine, attaches it, and asks for packets, which
    are passed to a callback when the program accepts them. This library models, from the
    sources under src/libpcap-1.5.3/, the BPF machine, the filter compiler with its code
    generator and its optimizer, the two savefile formats, the life of a handle, the list of
    interfaces on Linux, reading and filtering with packet sockets and their ring, reading
    the buffers of BPF and similar devices, and the capture module and library of the gap16g
    cards.

    ** Files

    - [Prelude]: C integers at their width, bytes and byte orders, indexing, tactics.
    - [BpfInsn] (pcap/bpf.h): instruction encoding and the instruction set.
      [BpfFilter], [BpfFilterProofs] (bpf/net/bpf_filter.c): the interpreter [bpf_filter]
      and the checker [bpf_validate]. [BpfImage] (bpf_image.c, bpf_dump.c): the
      disassembler.
    - [Icode] (gencode.h): statements, edges and blocks, a heap of blocks, and the meaning
      of a graph ([flow], a step relation with edges left open, and [graph_run], a
      function). It is the interface between the code generator and the layout.
    - [Gencode], [GencodeProofs], [GencodeFilter] (gencode.c): [backpatch], [merge],
      [gen_and], [gen_or], [gen_not], [close_parse] (the end of finish_parse), the end of
      [gen_ncmp], and their composition on a syntax of boolean expressions.
    - [Layout], [LayoutProofs], [LayoutConvert], [LayoutLoop] (optimize.c):
      [count_stmts], [convert_code_r] and [icode_to_fcode]; counting, the invariant of the
      conversion, the retry loop, and the simulation of the graph by the program.
      [Compile] (gencode.c): [pcap_compile] from parse tree to program.
    - The code generator (gencode.c). [GenConst]: constants of the headers it uses.
      [GenState]: its static variables as a record, the monad [G] its functions run in (the
      variables, the heap of blocks, [bpf_error] and [abort]), registers, [init_linktype].
      [GenLoad]: loads and comparisons at an offset of a header. [GenLink]: the tests of the
      link-layer type. [GenHost], [GenPort]: addresses; protocols, ports, [gen_protochain].
      [GenArth]: arithmetic. [GenMisc]: broadcast, multicast, lengths, VLAN, MPLS, PPPoE,
      802.11 and telephony. [GenName]: names, numbers and masks. [GenFinish]: the headers of
      variable length, [finish_parse], [pcap_compile_filter]. [GenExpr] (grammar.y):
      the parse tree and the calls the grammar makes on it. [Names] (nametoaddr.c): numeric
      addresses, ports and protocols. [EtherEnt] (etherent.c): the file of host addresses.
    - Proofs about it. [GenLogic]: predicates on packets, and the invariant of the heap (a
      list of live expressions in disjoint parts of it). [GenTriple]: triples over [G], with
      their rules. [GenLoadProofs], [GenLinkProofs], [GenTestProofs], [GenArithProofs]: what the functions make. [GenSem]: a meaning for the parse tree, and
      that the generator makes it. [GenCompile]: the same for [pcap_compile_filter];
      host and port filters on Ethernet. [GenTheorems]: the properties.
    - The optimizer (optimize.c). [OptState]: its tables and monad, [opt_init]. [OptFlow]:
      levels, dominators, closure, edge dominators, use and definition. [OptValue]: value
      numbers and the rewriting of statements. [OptBlock]: peephole rules and dead stores.
      [OptBranch]: [fold_edge], [opt_j], [or_pullup], [and_pullup]. [OptLoop]: the passes,
      [intern_blocks], [opt_root], [bpf_optimize]. Their proofs are in [OptGraph] (paths
      and a sample graph), [OptIntern], [OptLevels], [OptLive], [OptDead],
      [OptValueProofs] and [OptNumbers].
    - [LinkType], [UsbHeader] (pcap-common.c, pcap-common.h): LINKTYPE_ and DLT_ codes;
      byte swapping of USB pseudo-headers. [Datalink] (pcap.c): names of link-layer types,
      time stamp types and statuses.
    - [Pcap] (pcap-int.h, pcap/pcap.h): the handle, streams, allocation, the monad of the
      readers and its weakest preconditions. [SfPcap], [SfPcapProofs] (sf-pcap.c): the
      pcap format, read and written. [SfPcapNg], [SfPcapNgProofs] (sf-pcap-ng.c): the
      pcap-ng format. [Savefile], [SavefileProofs] (savefile.c, pcap.c): choice of the
      format, [pcap_offline_read], [pcap_loop], [pcap_next], [pcap_next_ex]. [PcapApi]
      (pcap.c, optimize.c for [install_bpf_program]): creation, configuration, activation
      and data calls.
    - The list of interfaces. [Iface] (inet.c): the list, its order, [pcap_add_if],
      [pcap_freealldevs], in a monad over the blocks of memory in use. [IfaceScan]
      (fad-getad.c, pcap-linux.c, pcap.c and the modules of other sources on Linux): what
      fills it, [pcap_findalldevs], [pcap_lookupdev], [pcap_lookupnet]. [IfaceProofs]: its
      order and its memory.
    - Linux (pcap-linux.c). [LinuxFilter]: the part of the handle that belongs to it,
      link-layer types of interfaces ([map_arphrd_to_dlt]), [fix_program] and the filter of
      the socket. [LinuxRing]: the frames shared with the kernel, waiting, handling a packet,
      [pcap_read_linux_mmap_v1], [_v2] and [_v3], [pcap_setfilter_linux_mmap], and
      [pcap_read_packet] without a ring. [LinuxProofs]: the ring as a list of filled and of
      free frames. [LinuxTheorems]: the properties.
    - [BufRead] (pcap-bpf.c, pcap-pf.c, pcap-nit.c, pcap-snit.c, dlpisubs.c, pcap-dlpi.c,
      pcap-libdlpi.c): the walk of a buffer of packets, common to these modules, what each
      takes from a header and how each fills the buffer; filters and counters; and that the
      packets of a BPF buffer are handed on once.
    - The gap16g cards. [NacState] (gap16g/include/nactypes.h, gap16g/lib/nacapi.c): streams,
      the entry of a card, registers and mappings, and the monad of the library.
      [NacStream], [NacTx] (gap16g/lib/nac_stream.c): receive and transmit streams.
      [NacConfig] (gap16g/lib/nac_stream.c, gap16g/lib/nacapi.c): the windows of the
      streams, opening and closing. [NacName]: card names. [Qnf] (pcap-gap16g.c): the
      capture module. [NacProofs]: weakest preconditions and the position of the card;
      [NacTheorems]: sending, waiting, windows, the flow table; [QnfProofs], [QnfSession], [QnfTheorems]: a session from activation to
      closing, and reading.

    ** How the parts interact

    The generator builds blocks in a heap and threads two lists of open edges through
    their successor fields; [finish_parse] closes the graph; [icode_to_fcode] lays it out
    as an array; [bpf_filter] runs the array on a packet. [pcap_compile_correct] composes
    the four for trees of comparisons, and [filter_compiles_correctly] for the parse trees of
    the language, with the generator in front. [install_bpf_program] keeps only programs [bpf_validate] accepts. With
    optimization [bpf_optimize] works on the heap between the generator and the layout.

    The tests of hosts, ports and protocols are built on the test of the link-layer type.
    The class [GenLinkProofs.LinkTests] is what they rely on: for given variables
    [gen_linktype] makes a test, and what it decides is known. Its instances are the
    link-layer types of [GenLinkProofs.families] (Ethernet, Linux cooked, PPP, the types with
    an LLC header, raw IP, BSD loopback); everything above them is proved from the class.

    On Linux the kernel fills the frames of a ring and the library hands them back. A program
    is installed in the handle ([install_bpf_program], which [bpf_validate] guards), rewritten
    and given to the kernel; the frames already in the ring were let through by the program
    before, so their number is counted and that many are filtered by [bpf_filter] as they are
    read. [LinuxProofs.ring_at] ties the position of the handle to that of the kernel.

    A card handle keeps the position it reads from; [nac_advance_stream] gives back to the
    card what lies before it and returns how far the card has written, and [qnf_read] walks
    the records between the two. [qnf_inject] asks the transmit stream for space, stores a
    record there and commits it.

    A savefile handle holds a stream, a buffer and the private state of its format. Both
    formats give the packet loop one operation, [next_packet_op]; the class
    [Pcap.NextPacket] says what it promises (an invariant, progress in the stream, at most
    the undefined behaviour listed), each format has its instance, and the theorems of the
    loop are proved against the class.

    ** What is modelled, and how

    The host is little-endian with 32-bit [int] and 64-bit [long], [size_t] and [time_t].
    Unsigned arithmetic wraps at its width. Accesses outside an object, divisions by zero,
    shifts out of range and the overflow of what is read from a file are values of the model
    and never defaults: [Fault] in the interpreter, [Undef] in the readers, [None] or
    [CvFault] in the compiler, [GStuck] in the generator, [NFault] in the card library. A
    theorem that an operation is safe says that it does not have that value. Signed counters
    of packets wrap; where it matters the theorems bound them.

    The build is the one for Linux, with INET6. Arguments that are calls are evaluated from
    left to right, which C leaves open; it fixes only the order of registers and blocks. A
    list of statements is the list of its nodes, each with the number of its allocation as
    its address, and blocks are shared through the heap.

    Parameters stand for what is not under src/: the resolver and the databases of services,
    protocols, networks and hosts ([getaddrinfo], [getservbyname] and so on, functions of
    their arguments, with no hypotheses); [Alloc], a [malloc] that fails or gives a
    block of the size asked for; the stream, bytes and an error condition of the C
    library; [DLT_PFSYNC], which other systems define themselves; the operations of a
    capture module in [PcapApi]; the card, the clock, [malloc] and [mmap] of a card session,
    which answer as a function of everything done before ([NacState.world]); what the system
    says of interfaces; and on Linux the kernel: a function from the time and the ring to the
    ring, of which the theorems ask that it only fills free frames in order
    ([LinuxProofs.fills] and [kernel_adds], the documented contract of a packet ring), and the answers of
    [setsockopt], [recvmsg] and [poll]; the layouts of the headers other systems put before
    packets. The callback of the packet loop is a function that may
    also ask to break the loop.

    ** Fuel

    The loop of [alloc_reg] tries each of the 16 registers once, as in the code. The readers
    of the host file have the bytes left as fuel ([next_etherent_terminates]).

    Reading a ring takes one round for each frame; [mmap_read_in_order] says that one more
    than the filled frames is enough when nothing is added. Waiting has the number of
    interrupted calls of [poll] as fuel.

    The walk of a buffer takes one round for each record and one more.

    [bpf_filter] and [graph_run] take a number of steps. [bpf_filter_terminates] gives the
    length of the program as enough for a validated program with forward jumps, and
    [pcap_compile_correct] that some number is enough for every compiled program, for all
    numbers from there on. Walks over the block heap have the number of blocks plus one or
    two as fuel, which is enough because each call marks a block or follows a link once
    (proved: the combinators and the layout succeed). [icode_to_fcode] makes at most two
    attempts per block and one more: a failed attempt gives one branch its jump. Readers
    have the bytes left in the stream as fuel, since each packet or block consumes some.
    The optimizer's passes have [rounds], the number of blocks or of values a pass can go
    through; the theorems show that it suffices for levels, liveness, merging and value
    numbering. Loops that wait for a card have [patience]: [NHang] says that the model has
    stopped waiting, and holds of the code as long as the card does not answer;
    [get_stream_space_returns] and [qnf_records_deliver] say when they end.

    ** The theorems

    - BPF machine: a validated program stays inside the program, the scratch memory and the
      packet but for listed exceptions ([bpf_filter_safe], [ld_abs_word_gap]), stops when
      its jumps go forward ([bpf_filter_terminates]), and depends on captured bytes only
      ([bpf_filter_reads_captured_only]). The checker admits programs that loop or abort.
    - Compiler: the combinators build short-circuit conjunction, disjunction and negation
      ([GencodeProofs]), whole expressions mean what they say
      ([gen_filter_correct]), layout preserves the graph ([icode_to_fcode_correct]), and
      the compiled program decides the filter ([pcap_compile_correct]).
    - Code generator: every parse tree with a meaning ([GenSem.expr_pred]: hosts, networks,
      ports, protocols, arithmetic, lengths, broadcast, names) compiles into a program that
      decides it ([filter_compiles_correctly]); on Ethernet the meaning of hosts, ports and
      protocols is that of the layout of the headers ([host_filter_on_ethernet],
      [port_filter_on_ethernet], [ether_proto_classifies]); registers run out exactly when
      16 are too few ([too_many_registers]); addresses and the host file read back
      ([atoin_roundtrip], [ether_aton_roundtrip], [ether_hostton_lookup]).
    - Optimizer: levels are longest paths ([find_levels_correct]), liveness decides the
      result ([find_ud_sound]), dead assignments may go ([opt_deadstores_sound]), value
      numbering keeps registers ([opt_stmts_sound]) and merging equal blocks keeps the
      meaning of the graph ([intern_blocks_correct]). Two rules change the verdict of a
      filter or lose a store ([optimize_changes_verdict], [vstore_unknown_deletes]).
    - Savefiles: any file of less than 2 GiB is read without leaving a buffer or table, under
      any filter [bpf_validate] accepts that jumps forward ([any_savefile_is_safe] and the
      theorems it rests on; what can still go wrong is listed there), what is written reads back
      ([savefile_roundtrip]), files of the other byte order read as on their writer
      ([foreign_savefile_read]), and the loop delivers exactly what
      passes the filter, and says how it ended ([pcap_offline_read_delivers],
      [pcap_loop_savefile]).
    - Handles: only activated handles do anything ([not_activated_is_safe]) and their
      configuration is fixed ([configuration_frozen]).
    - Interfaces: whichever allocations fail, the list is sorted and without duplicates and no
      block is lost or freed twice, and the only undefined behaviour is on names of USB buses
      that are misread ([interfaces_found]);
      [pcap_lookupdev] takes the first that is no loopback ([lookupdev_picks_first]).
    - Linux: after a new filter the packets handed on are those of the frames in the ring that
      it accepts and of the frames that have come through it in the kernel since
      ([mmap_new_filter_only], [mmap_v3_new_filter_only]); a ring is read in order, each frame
      once ([mmap_read_in_order]); a packet never leaves its frame and has its headers put
      together as they should be ([mmap_packet_contents]); the program for the kernel decides
      as the original ([fix_program_decides_same]). Three promises are not kept
      ([mmap_stale_block_count], [mmap_v3_exceeds_count], [mmap_cooked_filter_without_header]).
    - Buffers: [pcap_read_bpf] hands on each packet once, however the calls divide the buffer
      ([read_bpf_each_once]); on NIT a notice holds the loop for ever ([nit_notice_stuck]).
    - Cards: no sequence of calls leaves the tables and mappings ([qnf_session_safe]),
      reading delivers the records in order ([qnf_records_deliver]), the two ways of sending
      agree ([tx_paths_agree]), waiting for space ends ([get_stream_space_returns]), the windows are those intended when
      copying ([inline_msu_configure_windows]), and the flow table and names read back.
    - Tables: link-layer codes and names lead back to themselves, with one exception
      ([linktype_roundtrip], [datalink_name_roundtrip]).

    ** What the code does differently from its intention

    The check of a word load wraps for offsets from 0xfffffffc; [bpf_validate] accepts
    codes that abort the interpreter, and backward jumps, against its comment;
    [bpf_image] does not know "ldx #pktlen"; DLT_ATM_CLIP comes back from a file as 106;
    the snapshot length of a file in Kuznetzov's format can overflow;
    pcap-ng time stamps coarser than the user's resolution are scaled the wrong way, and
    resolutions of 10^-10 and finer wrap; a second pcap-ng interface is compared with the
    DLT_ code of the first instead of its LINKTYPE_ code; the message for an unknown
    status below -999999999 is cut. The optimizer takes jset #0xffffffff to be always true,
    and deletes stores of unknown values. On a card, a record of length 0 may be read for
    ever; the data given to the callback reach 16 bytes into the next record; the end of
    an overlapping transmit window goes to the wrong register; [pcap_breakloop] has no
    effect; closing leaves the card's entry opened; names such as eth5 are taken for cards.
    In the code generator, the byte tests with & and | load no byte; the protocol test of
    the second operand of an operator is lost; the step of protochain over an authentication
    header does not add to the index; one message names ah for esp; a
    mask length that is negative as an [int] is not rejected. In the host file, a line
    without a name takes the next line for it, and the end of the file can become a name;
    [pcap_ether_aton] stores past its six octets for longer arguments. Of interfaces, the
    digits of an alias are never read, the class test for a default mask takes the address in
    network byte order, and two names of USB buses are misread. On Linux, the count of
    blocks to filter survives a filter that stays in userland and then turns it off; a read
    of a TPACKET_V3 ring may hand on more packets than asked for; with a ring in cooked mode
    the filter in userland sees the packet without its header; the list of link-layer
    types of Fibre Channel is one too long for its block. With BPF a filter that the kernel
    refuses for want of something else leaves none at all; with NIT a notice is never passed
    over; and in four modules an early [pcap_breakloop] loses the buffer just read.

    ** Not modelled

    The scanner and the tables of the parser (the parse tree is where the model starts), the
    resolver behind the names, activation and interface lists on other operating systems than
    Linux, and the modules of Windows, DOS and other cards. On Linux, activation is left out (sockets, ioctls,
    monitor mode, the sizes of the ring), with injection, statistics and the modules of
    other sources than packet sockets; the order of the packets is stated for versions 1 and
    2 of the ring. In cooked mode the kernel reads the
    header of a packet through offsets of its own, so nothing is stated of the rewritten
    program there. All of the generator is modelled, but the meaning of
    the parse tree leaves out hardware addresses other than of Ethernet, DECnet, protochain,
    the tests that move the offsets (vlan, mpls, pppoe), and link-layer headers of variable
    length; nothing is stated of the programs for those. The memory the generator takes from
    its chunks is not limited. That the optimizer as a whole keeps the meaning of
    a filter is not stated, since two of its rules do not; the passes are proved one by
    one. Of the card library the I2C, MDIO and flash sequences and the kernel driver are
    left out. In the layout, failing allocations ([bpf_error]) are left out, and the
    correctness theorem covers blocks without block-local jumps, which the generator makes
    only for the protochain loop and the 802.11 header length. The order of extension would be
    activation on Linux, the tests that move the offsets, and [bpf_validate] on compiled
    programs. *)
From stdpp Require Import base numbers list.
From Stdlib Require Import ZArith Lia ZifyBool.
From Stdlib Require Import Strings.Byte.

Declare Scope cint_scope.
Delimit Scope cint_scope with cint.
Open Scope Z_scope.

Create HintDb cint.
Create Rewrite HintDb cint.
Create HintDb pcap.

(** ** C integers at their width

    A w-bit unsigned value is the [Z] in [0 .. 2^w - 1] that represents it; a conversion
    to an unsigned type reduces modulo [2^w]; a conversion to a signed type takes the
    two's-complement representative. *)

Definition u8 (z : Z) : Z := z mod 2 ^ 8.
Definition u16 (z : Z) : Z := z mod 2 ^ 16.
Definition u32 (z : Z) : Z := z mod 2 ^ 32.
Definition u64 (z : Z) : Z := z mod 2 ^ 64.
Definition s32 (z : Z) : Z := if z mod 2 ^ 32 <? 2 ^ 31 then z mod 2 ^ 32 else z mod 2 ^ 32 - 2 ^ 32.
Definition s64 (z : Z) : Z := if z mod 2 ^ 64 <? 2 ^ 63 then z mod 2 ^ 64 else z mod 2 ^ 64 - 2 ^ 64.

Definition is_u8 (z : Z) : bool := (0 <=? z) && (z <? 2 ^ 8).
Definition is_u16 (z : Z) : bool := (0 <=? z) && (z <? 2 ^ 16).
Definition is_u32 (z : Z) : bool := (0 <=? z) && (z <? 2 ^ 32).
Definition is_s32 (z : Z) : bool := (- 2 ^ 31 <=? z) && (z <? 2 ^ 31).

(** Unfold the conversions and close the goal by linear arithmetic with division. *)
Ltac cint :=
  unfold is_u8, is_u16, is_u32, is_s32, u8, u16, u32, u64, s32, s64 in *;
  repeat match goal with
         | |- context [if ?b then _ else _] => destruct b eqn:?
         | H : context [if ?b then _ else _] |- _ => destruct b eqn:?
         end;
  Z.div_mod_to_equations; lia.

(** Evaluate the tests on closed codes, [(code & mask) == constant], in a hypothesis or in
    the goal, and drop the branches they rule out. *)
Ltac eval_tests_in H :=
  repeat match type of H with
         | context [?a =? ?b] =>
             let v := eval vm_compute in (a =? b) in
             lazymatch v with true => idtac | false => idtac end;
             change (a =? b) with v in H
         end;
  cbn [andb orb negb] in H; cbv iota in H.

Ltac eval_tests :=
  repeat match goal with
         | |- context [?a =? ?b] =>
             let v := eval vm_compute in (a =? b) in
             lazymatch v with true => idtac | false => idtac end;
             change (a =? b) with v
         end;
  cbn [andb orb negb]; cbv iota.

Lemma u8_range z : 0 <= u8 z < 2 ^ 8.
Proof. cint. Qed.

Lemma u16_range z : 0 <= u16 z < 2 ^ 16.
Proof. cint. Qed.

Lemma u32_range z : 0 <= u32 z < 2 ^ 32.
Proof. cint. Qed.

Lemma u64_range z : 0 <= u64 z < 2 ^ 64.
Proof. cint. Qed.

Lemma s32_range z : - 2 ^ 31 <= s32 z < 2 ^ 31.
Proof. cint. Qed.

Lemma u8_id z : 0 <= z < 2 ^ 8 -> u8 z = z.
Proof. apply Z.mod_small. Qed.

Lemma u16_id z : 0 <= z < 2 ^ 16 -> u16 z = z.
Proof. apply Z.mod_small. Qed.

Lemma u32_id z : 0 <= z < 2 ^ 32 -> u32 z = z.
Proof. apply Z.mod_small. Qed.

Lemma u64_id z : 0 <= z < 2 ^ 64 -> u64 z = z.
Proof. apply Z.mod_small. Qed.

Lemma s32_id z : - 2 ^ 31 <= z < 2 ^ 31 -> s32 z = z.
Proof. cint. Qed.

Lemma u32_s32 z : u32 (s32 z) = u32 z.
Proof. cint. Qed.

Lemma s32_u32 z : s32 (u32 z) = s32 z.
Proof. cint. Qed.

Lemma u32_u32 z : u32 (u32 z) = u32 z.
Proof. cint. Qed.

Lemma u32_eq_mod a b : u32 a = u32 b <-> exists q, a = b + q * 2 ^ 32.
Proof.
  unfold u32; split.
  - intros H. exists (a / 2 ^ 32 - b / 2 ^ 32). Z.div_mod_to_equations; lia.
  - intros [q ->]. now rewrite Z.mod_add by lia.
Qed.

Lemma u32_add_l a b : u32 (u32 a + b) = u32 (a + b).
Proof. unfold u32. now rewrite Z.add_mod_idemp_l. Qed.

Lemma u32_add_r a b : u32 (a + u32 b) = u32 (a + b).
Proof. unfold u32. now rewrite Z.add_mod_idemp_r. Qed.

#[export] Hint Resolve u8_range u16_range u32_range u64_range s32_range : cint.
#[export] Hint Rewrite u32_s32 s32_u32 u32_u32 u32_add_l u32_add_r : cint.

(** ** Bytes *)

Definition b2z (b : byte) : Z := Z.of_N (Byte.to_N b).
#[export] Instance byte_eq_dec : EqDecision byte := Byte.byte_eq_dec.
Definition z2b (z : Z) : byte :=
  match Byte.of_N (Z.to_N (z mod 256)) with Some b => b | None => x00 end.

Lemma b2z_range b : 0 <= b2z b < 256.
Proof. destruct b; vm_compute; split; congruence. Qed.

Lemma z2b_b2z b : z2b (b2z b) = b.
Proof. now destruct b. Qed.

Lemma b2z_z2b z : b2z (z2b z) = u8 z.
Proof.
  unfold b2z, z2b, u8. change (2 ^ 8) with 256.
  pose proof (Z.mod_pos_bound z 256 ltac:(lia)) as Hr.
  destruct (Byte.of_N (Z.to_N (z mod 256))) as [b|] eqn:E.
  - apply Byte.to_of_N in E. rewrite E. lia.
  - apply Byte.of_N_None_iff in E. lia.
Qed.

#[export] Hint Resolve b2z_range : cint.
#[export] Hint Rewrite z2b_b2z b2z_z2b : cint.

(** Little-endian value of a byte string and its inverse: the representation an
    [fread] into, or an [fwrite] from, an integer object has on a little-endian host. *)

Fixpoint le_val (bs : list byte) : Z :=
  match bs with
  | [] => 0
  | b :: bs' => b2z b + 256 * le_val bs'
  end.

Fixpoint le_bytes (n : nat) (z : Z) : list byte :=
  match n with
  | O => []
  | S n' => z2b z :: le_bytes n' (z / 256)
  end.

(** Big-endian value: network byte order. *)
Definition be_val (bs : list byte) : Z := fold_left (fun acc b => acc * 256 + b2z b) bs 0.

Lemma length_le_bytes n z : length (le_bytes n z) = n.
Proof. revert z; induction n as [|n IH]; intros z; simpl; [|rewrite IH]; reflexivity. Qed.

Lemma le_val_bytes n z : le_val (le_bytes n z) = z mod 256 ^ Z.of_nat n.
Proof.
  revert z; induction n as [|n IH]; intros z; simpl le_bytes; simpl le_val.
  - now rewrite Z.mod_1_r.
  - rewrite IH, b2z_z2b. unfold u8. change (2 ^ 8) with 256.
    rewrite Nat2Z.inj_succ, Z.pow_succ_r by lia.
    rewrite (Z.rem_mul_r z 256 (256 ^ Z.of_nat n)) by lia. reflexivity.
Qed.

Lemma le_val_range bs : 0 <= le_val bs < 256 ^ Z.of_nat (length bs).
Proof.
  induction bs as [|b bs IH]; simpl le_val.
  - simpl. lia.
  - simpl length. rewrite Nat2Z.inj_succ, Z.pow_succ_r by lia. pose proof (b2z_range b). lia.
Qed.

Lemma le_bytes_val bs : le_bytes (length bs) (le_val bs) = bs.
Proof.
  induction bs as [|b bs IH]; simpl; [reflexivity|].
  pose proof (b2z_range b).
  replace ((b2z b + 256 * le_val bs) / 256) with (le_val bs) by (Z.div_mod_to_equations; lia).
  rewrite IH. f_equal. rewrite <- (z2b_b2z b) at 2. unfold z2b.
  replace ((b2z b + 256 * le_val bs) mod 256) with (b2z b mod 256); [reflexivity|].
  now rewrite Z.mul_comm, Z.mod_add by lia.
Qed.

Lemma be_val_app_acc bs acc :
  fold_left (fun a b => a * 256 + b2z b) bs acc = acc * 256 ^ Z.of_nat (length bs) + be_val bs.
Proof.
  unfold be_val. revert acc; induction bs as [|b bs IH]; intros acc; cbn [fold_left length].
  - rewrite Z.mul_1_r. lia.
  - rewrite IH, (IH (0 * 256 + b2z b)), Nat2Z.inj_succ, Z.pow_succ_r by lia. ring.
Qed.

Lemma be_val_range bs : 0 <= be_val bs < 256 ^ Z.of_nat (length bs).
Proof.
  induction bs as [|b bs IH]; [vm_compute; split; congruence|].
  unfold be_val. cbn [fold_left]. rewrite be_val_app_acc.
  cbn [length]. rewrite Nat2Z.inj_succ, Z.pow_succ_r by lia. pose proof (b2z_range b). nia.
Qed.

(** ** Indexing by a C integer: a negative index or one past the end has no element. *)

Definition at_Z {A} (l : list A) (i : Z) : option A :=
  if i <? 0 then None else l !! Z.to_nat i.

Lemma at_Z_Some {A} (l : list A) i :
  0 <= i < Z.of_nat (length l) -> exists x, at_Z l i = Some x.
Proof.
  intros H. unfold at_Z. destruct (Z.ltb_spec i 0); [lia|].
  destruct (lookup_lt_is_Some_2 l (Z.to_nat i)) as [x Hx]; [lia|]. eauto.
Qed.

Lemma at_Z_bound {A} (l : list A) i x : at_Z l i = Some x -> 0 <= i < Z.of_nat (length l).
Proof.
  unfold at_Z. destruct (Z.ltb_spec i 0); [discriminate|].
  intros Hl%lookup_lt_Some. lia.
Qed.

Lemma at_Z_In {A} (l : list A) i x : at_Z l i = Some x -> x ∈ l.
Proof.
  unfold at_Z. destruct (i <? 0); [discriminate|]. apply list_elem_of_lookup_2.
Qed.

Lemma at_Z_app_l {A} (l l' : list A) i :
  i < Z.of_nat (length l) -> at_Z (l ++ l') i = at_Z l i.
Proof.
  intros H. unfold at_Z. destruct (Z.ltb_spec i 0); [reflexivity|].
  apply lookup_app_l. lia.
Qed.

Lemma at_Z_app_r {A} (l l' : list A) i :
  0 <= i -> at_Z (l ++ l') (Z.of_nat (length l) + i) = at_Z l' i.
Proof.
  intros H. unfold at_Z. destruct (Z.ltb_spec (Z.of_nat (length l) + i) 0); [lia|].
  destruct (Z.ltb_spec i 0); [lia|].
  rewrite lookup_app_r by lia. f_equal. lia.
Qed.

Lemma at_Z_of_nat {A} (l : list A) i : at_Z l (Z.of_nat i) = l !! i.
Proof.
  unfold at_Z. destruct (Z.ltb_spec (Z.of_nat i) 0); [lia|]. now rewrite Nat2Z.id.
Qed.

#[export] Hint Resolve at_Z_In : pcap.
