(* ===== verification/BpfInsn.v ===== *)
(** * BPF instruction encodings (pcap/bpf.h)

    The constants of the instruction encoding, [struct bpf_insn], and the instruction set
    as an inductive type with one constructor per group of case labels of the switch in
    [bpf_filter] (bpf/net/bpf_filter.c).  [decode_op] and [encode_op] relate it to the 16-bit
    code field; [decode_encode_op] and [decode_op_Some] say they are inverse of each other. *)
From stdpp Require Import base numbers list.
From S2P Require Import Prelude.
Open Scope Z_scope.

(** ** Fields of the code *)

Definition BPF_CLASS (code : Z) : Z := Z.land code 0x07.
Definition BPF_LD := 0x00.
Definition BPF_LDX := 0x01.
Definition BPF_ST := 0x02.
Definition BPF_STX := 0x03.
Definition BPF_ALU := 0x04.
Definition BPF_JMP := 0x05.
Definition BPF_RET := 0x06.
Definition BPF_MISC := 0x07.

Definition BPF_SIZE (code : Z) : Z := Z.land code 0x18.
Definition BPF_W := 0x00.
Definition BPF_H := 0x08.
Definition BPF_B := 0x10.

Definition BPF_MODE (code : Z) : Z := Z.land code 0xe0.
Definition BPF_IMM := 0x00.
Definition BPF_ABS := 0x20.
Definition BPF_IND := 0x40.
Definition BPF_MEM := 0x60.
Definition BPF_LEN := 0x80.
Definition BPF_MSH := 0xa0.

Definition BPF_OP (code : Z) : Z := Z.land code 0xf0.
Definition BPF_ADD := 0x00.
Definition BPF_SUB := 0x10.
Definition BPF_MUL := 0x20.
Definition BPF_DIV := 0x30.
Definition BPF_OR := 0x40.
Definition BPF_AND := 0x50.
Definition BPF_LSH := 0x60.
Definition BPF_RSH := 0x70.
Definition BPF_NEG := 0x80.
Definition BPF_JA := 0x00.
Definition BPF_JEQ := 0x10.
Definition BPF_JGT := 0x20.
Definition BPF_JGE := 0x30.
Definition BPF_JSET := 0x40.

Definition BPF_SRC (code : Z) : Z := Z.land code 0x08.
Definition BPF_K := 0x00.
Definition BPF_X := 0x08.

Definition BPF_RVAL (code : Z) : Z := Z.land code 0x18.
Definition BPF_A := 0x10.

Definition BPF_MISCOP (code : Z) : Z := Z.land code 0xf8.
Definition BPF_TAX := 0x00.
Definition BPF_TXA := 0x80.

Definition BPF_MEMWORDS : Z := 16.

(** ** [struct bpf_insn]: [u_short code; u_char jt; u_char jf; bpf_u_int32 k]. *)

Record bpf_insn := mk_insn { i_code : Z; i_jt : Z; i_jf : Z; i_k : Z }.

#[export] Instance bpf_insn_eq_dec : EqDecision bpf_insn.
Proof. solve_decision. Defined.

Definition wf_insn (i : bpf_insn) : bool :=
  is_u16 (i_code i) && is_u8 (i_jt i) && is_u8 (i_jf i) && is_u32 (i_k i).

Definition BPF_STMT (c kk : Z) : bpf_insn := mk_insn (u16 c) 0 0 kk.
Definition BPF_JUMP (c kk t f : Z) : bpf_insn := mk_insn (u16 c) t f kk.

(** ** The instructions [bpf_filter] implements *)

Inductive bpf_size := SzW | SzH | SzB.
Inductive bpf_src := SrcK | SrcX.
Inductive alu_op := ADD | SUB | MUL | DIV | OR | AND | LSH | RSH.
Inductive jmp_op := JEQ | JGT | JGE | JSET.

Inductive opcode :=
| RET_K
| RET_A
| LD_ABS (s : bpf_size)
| LD_IND (s : bpf_size)
| LD_LEN
| LDX_LEN
| LDX_MSH
| LD_IMM
| LDX_IMM
| LD_MEM
| LDX_MEM
| ST
| STX
| JA
| JCOND (op : jmp_op) (src : bpf_src)
| ALU (op : alu_op) (src : bpf_src)
| NEG
| TAX
| TXA.

#[export] Instance bpf_size_eq_dec : EqDecision bpf_size.
Proof. solve_decision. Defined.
#[export] Instance bpf_src_eq_dec : EqDecision bpf_src.
Proof. solve_decision. Defined.
#[export] Instance alu_op_eq_dec : EqDecision alu_op.
Proof. solve_decision. Defined.
#[export] Instance jmp_op_eq_dec : EqDecision jmp_op.
Proof. solve_decision. Defined.
#[export] Instance opcode_eq_dec : EqDecision opcode.
Proof. solve_decision. Defined.

Definition size_bits (s : bpf_size) : Z :=
  match s with SzW => BPF_W | SzH => BPF_H | SzB => BPF_B end.
Definition src_bits (s : bpf_src) : Z := match s with SrcK => BPF_K | SrcX => BPF_X end.
Definition alu_bits (o : alu_op) : Z :=
  match o with
  | ADD => BPF_ADD | SUB => BPF_SUB | MUL => BPF_MUL | DIV => BPF_DIV
  | OR => BPF_OR | AND => BPF_AND | LSH => BPF_LSH | RSH => BPF_RSH
  end.
Definition jmp_bits (o : jmp_op) : Z :=
  match o with JEQ => BPF_JEQ | JGT => BPF_JGT | JGE => BPF_JGE | JSET => BPF_JSET end.

Notation "a ||| b" := (Z.lor a b) (at level 50, left associativity) : cint_scope.
Notation "a &&& b" := (Z.land a b) (at level 40, left associativity) : cint_scope.
Open Scope cint_scope.

(** The case label of each group. *)
Definition encode_op (o : opcode) : Z :=
  match o with
  | RET_K => BPF_RET ||| BPF_K
  | RET_A => BPF_RET ||| BPF_A
  | LD_ABS s => BPF_LD ||| size_bits s ||| BPF_ABS
  | LD_IND s => BPF_LD ||| size_bits s ||| BPF_IND
  | LD_LEN => BPF_LD ||| BPF_W ||| BPF_LEN
  | LDX_LEN => BPF_LDX ||| BPF_W ||| BPF_LEN
  | LDX_MSH => BPF_LDX ||| BPF_MSH ||| BPF_B
  | LD_IMM => BPF_LD ||| BPF_IMM
  | LDX_IMM => BPF_LDX ||| BPF_IMM
  | LD_MEM => BPF_LD ||| BPF_MEM
  | LDX_MEM => BPF_LDX ||| BPF_MEM
  | ST => BPF_ST
  | STX => BPF_STX
  | JA => BPF_JMP ||| BPF_JA
  | JCOND op s => BPF_JMP ||| jmp_bits op ||| src_bits s
  | ALU op s => BPF_ALU ||| alu_bits op ||| src_bits s
  | NEG => BPF_ALU ||| BPF_NEG
  | TAX => BPF_MISC ||| BPF_TAX
  | TXA => BPF_MISC ||| BPF_TXA
  end.

Definition all_opcodes : list opcode :=
  [RET_K; RET_A] ++ (LD_ABS <$> [SzW; SzH; SzB]) ++ [LD_LEN; LDX_LEN] ++ (LD_IND <$> [SzW; SzH; SzB]) ++
  [LDX_MSH; LD_IMM; LDX_IMM; LD_MEM; LDX_MEM; ST; STX; JA] ++
  ((fun o => JCOND o SrcK) <$> [JGT; JGE; JEQ; JSET]) ++
  ((fun o => JCOND o SrcX) <$> [JGT; JGE; JEQ; JSET]) ++
  ((fun o => ALU o SrcX) <$> [ADD; SUB; MUL; DIV; AND; OR; LSH; RSH]) ++
  ((fun o => ALU o SrcK) <$> [ADD; SUB; MUL; DIV; AND; OR; LSH; RSH]) ++
  [NEG; TAX; TXA].

(** [switch (pc->code)]: the case whose label equals the code, if any. *)
Definition decode_op (c : Z) : option opcode := List.find (fun o => encode_op o =? c) all_opcodes.

Lemma decode_encode_op o : decode_op (encode_op o) = Some o.
Proof. destruct o as [| |[]|[]| | | | | | | | | | |[] []|[] []| | |]; reflexivity. Qed.

Lemma decode_op_Some c o : decode_op c = Some o -> c = encode_op o.
Proof. intros [_ E]%List.find_some. lia. Qed.

Lemma encode_op_inj o1 o2 : encode_op o1 = encode_op o2 -> o1 = o2.
Proof.
  intros E. assert (Some o1 = Some o2) as [= ->]; [|reflexivity].
  now rewrite <- (decode_encode_op o1), <- (decode_encode_op o2), E.
Qed.

Lemma encode_op_range o : 0 <= encode_op o < 256.
Proof.
  destruct o as [| |[]|[]| | | | | | | | | | |[] []|[] []| | |]; vm_compute; split; congruence.
Qed.
