(* ===== verification/BpfFilter.v ===== *)
(** * The BPF interpreter and the program checker (bpf/net/bpf_filter.c, userland build)

    [bpf_filter] runs a filter program on a packet; [bpf_validate] checks a program before
    it is installed.  Everything C leaves undefined in the interpreter is an explicit
    [fault]: the program counter outside the program, a packet byte outside the buffer, a
    scratch-memory index outside [mem], a shift by 32 or more, a division by a constant 0.
    [abort()] on an unknown code is [Abort].  The scratch memory is not initialised by the
    C code, so its initial contents are an argument. The size of [size_t] is 64 bits (LP64),
    and the host is little-endian, so [ntohl]/[ntohs] of a load is the big-endian value. *)
From stdpp Require Import base numbers list.
From Stdlib Require Import Strings.Byte.
From S2P Require Import Prelude BpfInsn.
Open Scope Z_scope.

(** ** Machine state *)

Record regs := mk_regs { rA : Z; rX : Z; rmem : list Z }.

Definition set_A (v : Z) (r : regs) : regs := mk_regs v (rX r) (rmem r).
Definition set_X (v : Z) (r : regs) : regs := mk_regs (rA r) v (rmem r).
Definition set_mem (m : list Z) (r : regs) : regs := mk_regs (rA r) (rX r) m.

Inductive fault :=
| BadPc (pc : Z)
| BadRead (off : Z)
| BadMem (i : Z)
| BadShift (n : Z)
| DivZero.

Inductive outcome :=
| Return (v : Z)
| Abort
| Fault (f : fault)
| OutOfFuel.

(** One instruction either goes on, with the offset added to [pc] before the [++pc] of
    the next iteration, or leaves the loop. *)
Inductive step_result :=
| Next (d : Z) (r : regs)
| Stop (o : outcome).

(** ** Packet loads *)

(** The [n] bytes at [&p[k]], when they lie inside the buffer. *)
Definition bytes_at (p : list byte) (off : Z) (n : nat) : option (list byte) :=
  if (0 <=? off) && (off + Z.of_nat n <=? Z.of_nat (length p))
  then Some (take n (drop (Z.to_nat off) p)) else None.

Definition size_bytes (s : bpf_size) : nat :=
  match s with SzW => 4%nat | SzH => 2%nat | SzB => 1%nat end.

(** [EXTRACT_LONG(&p[k])], [EXTRACT_SHORT(&p[k])] and [p[k]]. *)
Definition extract (s : bpf_size) (p : list byte) (off : Z) : option Z :=
  be_val <$> bytes_at p off (size_bytes s).

(** The run-time length check. [k] is an [int]: [k + sizeof(int32)] is computed in
    [size_t], and [k >= buflen] compares as [u_int]. *)
Definition short_packet (s : bpf_size) (kk buflen : Z) : bool :=
  match s with
  | SzW => buflen <? u64 (u64 kk + 4)
  | SzH => buflen <? u64 (u64 kk + 2)
  | SzB => buflen <=? u32 kk
  end.

Definition load_packet (s : bpf_size) (p : list byte) (buflen kk : Z) (r : regs) : step_result :=
  if short_packet s kk buflen then Stop (Return 0)
  else match extract s p kk with
       | Some v => Next 0 (set_A v r)
       | None => Stop (Fault (BadRead kk))
       end.

Definition exec_ld_abs (s : bpf_size) (p : list byte) (buflen : Z) (i : bpf_insn) (r : regs) :=
  load_packet s p buflen (s32 (i_k i)) r.

Definition exec_ld_ind (s : bpf_size) (p : list byte) (buflen : Z) (i : bpf_insn) (r : regs) :=
  load_packet s p buflen (s32 (rX r + i_k i)) r.

(** [X = (p[pc->k] & 0xf) << 2], after the check on [k]. *)
Definition exec_ldx_msh (p : list byte) (buflen : Z) (i : bpf_insn) (r : regs) : step_result :=
  if buflen <=? u32 (s32 (i_k i)) then Stop (Return 0)
  else match extract SzB p (i_k i) with
       | Some v => Next 0 (set_X (Z.shiftl (v &&& 0xf) 2) r)
       | None => Stop (Fault (BadRead (i_k i)))
       end.

(** ** Registers and scratch memory *)

(** [mem] is an array of [int32]: a store converts to signed, a load back to unsigned. *)
Definition load_mem (m : list Z) (i : Z) : option Z := u32 <$> at_Z m i.

Definition store_mem (m : list Z) (i v : Z) : option (list Z) :=
  match at_Z m i with
  | Some _ => Some (<[Z.to_nat i := s32 v]> m)
  | None => None
  end.

Definition exec_reg (o : opcode) (wirelen : Z) (i : bpf_insn) (r : regs) : step_result :=
  match o with
  | LD_LEN => Next 0 (set_A wirelen r)
  | LDX_LEN => Next 0 (set_X wirelen r)
  | LD_IMM => Next 0 (set_A (i_k i) r)
  | LDX_IMM => Next 0 (set_X (i_k i) r)
  | LD_MEM => match load_mem (rmem r) (i_k i) with
              | Some v => Next 0 (set_A v r)
              | None => Stop (Fault (BadMem (i_k i)))
              end
  | LDX_MEM => match load_mem (rmem r) (i_k i) with
               | Some v => Next 0 (set_X v r)
               | None => Stop (Fault (BadMem (i_k i)))
               end
  | ST => match store_mem (rmem r) (i_k i) (rA r) with
          | Some m => Next 0 (set_mem m r)
          | None => Stop (Fault (BadMem (i_k i)))
          end
  | STX => match store_mem (rmem r) (i_k i) (rX r) with
           | Some m => Next 0 (set_mem m r)
           | None => Stop (Fault (BadMem (i_k i)))
           end
  | TAX => Next 0 (set_X (rA r) r)
  | TXA => Next 0 (set_A (rX r) r)
  | _ => Stop Abort
  end.

(** ** Jumps and arithmetic *)

Definition operand (s : bpf_src) (i : bpf_insn) (r : regs) : Z :=
  match s with SrcK => i_k i | SrcX => rX r end.

Definition jmp_test (op : jmp_op) (a b : Z) : bool :=
  match op with
  | JGT => b <? a
  | JGE => b <=? a
  | JEQ => a =? b
  | JSET => negb ((a &&& b) =? 0)
  end.

Definition exec_jmp (op : jmp_op) (s : bpf_src) (i : bpf_insn) (r : regs) : step_result :=
  Next (if jmp_test op (rA r) (operand s i r) then i_jt i else i_jf i) r.

(** [None] when C leaves the operation undefined. *)
Definition alu (op : alu_op) (a b : Z) : option Z :=
  match op with
  | ADD => Some (u32 (a + b))
  | SUB => Some (u32 (a - b))
  | MUL => Some (u32 (a * b))
  | DIV => if b =? 0 then None else Some (a / b)
  | AND => Some (a &&& b)
  | OR => Some (a ||| b)
  | LSH => if b <? 32 then Some (u32 (Z.shiftl a b)) else None
  | RSH => if b <? 32 then Some (Z.shiftr a b) else None
  end.

(** [BPF_DIV|BPF_X] tests [X == 0] and rejects the packet; the constant form does not. *)
Definition exec_alu (op : alu_op) (s : bpf_src) (i : bpf_insn) (r : regs) : step_result :=
  let b := operand s i r in
  match alu op (rA r) b with
  | Some v => Next 0 (set_A v r)
  | None => match op, s with
            | DIV, SrcX => Stop (Return 0)
            | DIV, SrcK => Stop (Fault DivZero)
            | _, _ => Stop (Fault (BadShift b))
            end
  end.

Definition exec_neg (r : regs) : step_result := Next 0 (set_A (u32 (- rA r)) r).

(** ** The dispatch and the loop *)

Definition exec_op (o : opcode) (p : list byte) (wirelen buflen : Z) (i : bpf_insn) (r : regs)
  : step_result :=
  match o with
  | RET_K => Stop (Return (i_k i))
  | RET_A => Stop (Return (rA r))
  | LD_ABS s => exec_ld_abs s p buflen i r
  | LD_IND s => exec_ld_ind s p buflen i r
  | LDX_MSH => exec_ldx_msh p buflen i r
  | JA => Next (s32 (i_k i)) r
  | JCOND op s => exec_jmp op s i r
  | ALU op s => exec_alu op s i r
  | NEG => exec_neg r
  | _ => exec_reg o wirelen i r
  end.

Definition exec_insn (p : list byte) (wirelen buflen : Z) (i : bpf_insn) (r : regs) : step_result :=
  match decode_op (i_code i) with
  | Some o => exec_op o p wirelen buflen i r
  | None => Stop Abort
  end.

Fixpoint run (fuel : nat) (f : list bpf_insn) (p : list byte) (wirelen buflen : Z)
    (pc : Z) (r : regs) : outcome :=
  match fuel with
  | O => OutOfFuel
  | S n =>
      match at_Z f pc with
      | None => Fault (BadPc pc)
      | Some i =>
          match exec_insn p wirelen buflen i r with
          | Next d r' => run n f p wirelen buflen (pc + d + 1) r'
          | Stop o => o
          end
      end
  end.

(** [pc == 0] (no filter) accepts everything: [(u_int)-1]. *)
Definition bpf_filter (fuel : nat) (mem : list Z) (pc : option (list bpf_insn)) (p : list byte)
    (wirelen buflen : Z) : outcome :=
  match pc with
  | None => Return (u32 (-1))
  | Some f => run fuel f p wirelen buflen 0 (mk_regs 0 0 mem)
  end.

(** ** [bpf_validate] *)

(** The body of the loop, [false] where it returns 0. The [u_int] comparisons convert
    [len] and wrap at 32 bits. *)
Definition validate_ld (i : bpf_insn) : bool :=
  let m := BPF_MODE (i_code i) in
  if m =? BPF_IMM then true
  else if (m =? BPF_ABS) || (m =? BPF_IND) || (m =? BPF_MSH) then true
  else if m =? BPF_MEM then i_k i <? BPF_MEMWORDS
  else m =? BPF_LEN.

Definition validate_alu (i : bpf_insn) : bool :=
  let o := BPF_OP (i_code i) in
  if (o =? BPF_ADD) || (o =? BPF_SUB) || (o =? BPF_MUL) || (o =? BPF_OR) || (o =? BPF_AND)
     || (o =? BPF_LSH) || (o =? BPF_RSH) || (o =? BPF_NEG) then true
  else if o =? BPF_DIV
  then negb ((BPF_SRC (i_code i) =? BPF_K) && (i_k i =? 0))
  else false.

Definition validate_jmp (len from : Z) (i : bpf_insn) : bool :=
  let o := BPF_OP (i_code i) in
  if o =? BPF_JA then u32 (from + i_k i) <? u32 len
  else if (o =? BPF_JEQ) || (o =? BPF_JGT) || (o =? BPF_JGE) || (o =? BPF_JSET)
  then negb ((u32 len <=? u32 (from + i_jt i)) || (u32 len <=? u32 (from + i_jf i)))
  else false.

Definition validate_insn (len idx : Z) (i : bpf_insn) : bool :=
  let c := BPF_CLASS (i_code i) in
  if (c =? BPF_LD) || (c =? BPF_LDX) then validate_ld i
  else if (c =? BPF_ST) || (c =? BPF_STX) then i_k i <? BPF_MEMWORDS
  else if c =? BPF_ALU then validate_alu i
  else if c =? BPF_JMP then validate_jmp len (u32 (idx + 1)) i
  else (c =? BPF_RET) || (c =? BPF_MISC).

Fixpoint validate_from (len idx : Z) (f : list bpf_insn) : bool :=
  match f with
  | [] => true
  | i :: f' => validate_insn len idx i && validate_from len (idx + 1) f'
  end.

Definition bpf_validate (f : list bpf_insn) : bool :=
  let len := Z.of_nat (length f) in
  if len <? 1 then false
  else validate_from len 0 f &&
       match last f with Some i => BPF_CLASS (i_code i) =? BPF_RET | None => false end.
