(* ===== verification/BpfFilterProofs.v ===== *)
(** * Safety and termination of the BPF interpreter on validated programs

    What [bpf_validate] guarantees of a run of [bpf_filter], what it leaves to the code
    generator (known opcodes, forward jumps), and the two gaps of the run-time checks:
    the sum in the word and half-word length check wraps, and codes the checker accepts
    reach [abort()]. *)
From stdpp Require Import base numbers list.
From Stdlib Require Import Strings.Byte.
From S2P Require Import Prelude BpfInsn BpfFilter.
Open Scope Z_scope.

(** ** What the checker establishes of one instruction *)

Definition op_checked (len idx : Z) (i : bpf_insn) (o : opcode) : Prop :=
  match o with
  | LD_MEM | LDX_MEM | ST | STX => i_k i < BPF_MEMWORDS
  | ALU DIV SrcK => i_k i <> 0
  | JA => u32 (u32 (idx + 1) + i_k i) < u32 len
  | JCOND _ _ => u32 (u32 (idx + 1) + i_jt i) < u32 len /\ u32 (u32 (idx + 1) + i_jf i) < u32 len
  | _ => True
  end.

Lemma validate_insn_op len idx i o :
  decode_op (i_code i) = Some o -> validate_insn len idx i = true -> op_checked len idx i o.
Proof.
  intros Hd Hv. apply decode_op_Some in Hd. destruct i as [c t f kk]; cbn [i_code i_k i_jt i_jf] in *.
  subst c. unfold validate_insn, validate_ld, validate_alu, validate_jmp in Hv.
  destruct o as [| |[]|[]| | | | | | | | | | |[] []|[] []| | |]; cbn [op_checked]; try exact I;
    cbn [i_code i_k i_jt i_jf] in Hv |- *; eval_tests_in Hv; lia.
Qed.

Lemma validate_from_at len idx f j i :
  validate_from len idx f = true -> at_Z f j = Some i -> validate_insn len (idx + j) i = true.
Proof.
  revert idx j; induction f as [|i' f IH]; intros idx j Hv Hj.
  - unfold at_Z in Hj. destruct (j <? 0); discriminate.
  - cbn in Hv. apply andb_prop in Hv as [Hi Hf].
    pose proof (at_Z_bound _ _ _ Hj) as Hb. unfold at_Z in Hj.
    destruct (Z.ltb_spec j 0); [discriminate|].
    destruct (decide (j = 0)) as [->|].
    + rewrite Z.add_0_r. change (Some i' = Some i) in Hj. congruence.
    + replace (idx + j) with (idx + 1 + (j - 1)) by lia. apply IH; [done|].
      unfold at_Z. destruct (Z.ltb_spec (j - 1) 0); [lia|].
      replace (Z.to_nat j) with (S (Z.to_nat (j - 1))) in Hj by lia. exact Hj.
Qed.

Lemma validate_checked f j i o :
  bpf_validate f = true -> at_Z f j = Some i -> decode_op (i_code i) = Some o ->
  op_checked (Z.of_nat (length f)) j i o.
Proof.
  unfold bpf_validate. destruct (Z.of_nat (length f) <? 1); [discriminate|].
  intros [Hv _]%andb_prop Hj Hd.
  eapply validate_insn_op; [done|]. exact (validate_from_at _ 0 _ _ _ Hv Hj).
Qed.

Lemma validate_last f j i :
  bpf_validate f = true -> at_Z f j = Some i -> j = Z.of_nat (length f) - 1 ->
  BPF_CLASS (i_code i) = BPF_RET.
Proof.
  unfold bpf_validate. destruct (Z.ltb_spec (Z.of_nat (length f)) 1); [discriminate|].
  intros [_ Hl]%andb_prop Hj ->. rewrite last_lookup in Hl.
  unfold at_Z in Hj. destruct (_ <? 0); [discriminate|].
  replace (Z.to_nat (Z.of_nat (length f) - 1)) with (Nat.pred (length f)) in Hj by lia.
  rewrite Hj in Hl. lia.
Qed.

Lemma validate_nonempty f : bpf_validate f = true -> 0 < Z.of_nat (length f).
Proof. unfold bpf_validate. destruct (Z.ltb_spec (Z.of_nat (length f)) 1); [discriminate|lia]. Qed.

(** ** Register well-formedness *)

Record wf_regs (r : regs) : Prop := {
  wf_A : 0 <= rA r < 2 ^ 32;
  wf_X : 0 <= rX r < 2 ^ 32;
  wf_mem : Z.of_nat (length (rmem r)) = BPF_MEMWORDS
}.

Lemma wf_set_A v r : wf_regs r -> 0 <= v < 2 ^ 32 -> wf_regs (set_A v r).
Proof. intros [] ?; now constructor. Qed.

Lemma wf_set_X v r : wf_regs r -> 0 <= v < 2 ^ 32 -> wf_regs (set_X v r).
Proof. intros [] ?; now constructor. Qed.

Lemma wf_set_mem m r :
  wf_regs r -> Z.of_nat (length m) = BPF_MEMWORDS -> wf_regs (set_mem m r).
Proof. intros [] ?; now constructor. Qed.

#[export] Hint Resolve wf_set_A wf_set_X wf_set_mem : pcap.

Lemma bytes_at_length p off n bs : bytes_at p off n = Some bs -> length bs = n.
Proof.
  unfold bytes_at. destruct (_ && _) eqn:E; [|discriminate]. intros [= <-].
  rewrite length_take, length_drop. lia.
Qed.

Lemma extract_range s p off v : extract s p off = Some v -> 0 <= v < 2 ^ 32.
Proof.
  unfold extract. destruct (bytes_at p off (size_bytes s)) as [bs|] eqn:E; [|discriminate].
  cbn. intros [= <-]. apply bytes_at_length in E. pose proof (be_val_range bs) as Hr.
  rewrite E in Hr. destruct s; cbn in Hr; lia.
Qed.

Lemma extract_None s p off :
  extract s p off = None -> off < 0 \/ Z.of_nat (length p) < off + Z.of_nat (size_bytes s).
Proof.
  unfold extract, bytes_at. destruct (_ && _) eqn:E; [discriminate|]. lia.
Qed.

Lemma land_range a b : 0 <= a < 2 ^ 32 -> 0 <= b < 2 ^ 32 -> 0 <= Z.land a b < 2 ^ 32.
Proof.
  intros Ha Hb. split; [apply Z.land_nonneg; lia|].
  destruct (Z.eq_dec (Z.land a b) 0) as [->|]; [lia|].
  apply Z.log2_lt_pow2; [assert (0 <= Z.land a b) by (apply Z.land_nonneg; lia); lia|].
  pose proof (Z.log2_land a b ltac:(lia) ltac:(lia)).
  destruct (Z.eq_dec a 0) as [->|]; [now rewrite Z.land_0_l in *|].
  pose proof (Z.log2_lt_pow2 a 32 ltac:(lia)). lia.
Qed.

Lemma lor_range a b : 0 <= a < 2 ^ 32 -> 0 <= b < 2 ^ 32 -> 0 <= Z.lor a b < 2 ^ 32.
Proof.
  intros Ha Hb. assert (0 <= Z.lor a b) by (apply Z.lor_nonneg; lia). split; [lia|].
  destruct (Z.eq_dec (Z.lor a b) 0) as [->|]; [lia|].
  apply Z.log2_lt_pow2; [lia|]. rewrite Z.log2_lor by lia.
  assert (Z.log2 a < 32) by (destruct (Z.eq_dec a 0) as [->|]; [cbn; lia|]; apply Z.log2_lt_pow2; lia).
  assert (Z.log2 b < 32) by (destruct (Z.eq_dec b 0) as [->|]; [cbn; lia|]; apply Z.log2_lt_pow2; lia).
  lia.
Qed.

Lemma shiftr_range a b : 0 <= a < 2 ^ 32 -> 0 <= b -> 0 <= Z.shiftr a b < 2 ^ 32.
Proof.
  intros Ha Hb. rewrite Z.shiftr_div_pow2 by lia.
  assert (0 < 2 ^ b) by (apply Z.pow_pos_nonneg; lia).
  split; [apply Z.div_pos; lia|]. apply Z.div_lt_upper_bound; nia.
Qed.

Lemma alu_range op a b v :
  0 <= a < 2 ^ 32 -> 0 <= b < 2 ^ 32 -> alu op a b = Some v -> 0 <= v < 2 ^ 32.
Proof.
  intros Ha Hb. destruct op; cbn; repeat case_match; intros [= <-]; try apply u32_range;
    auto using land_range, lor_range.
  - split; [apply Z.div_pos; lia|]. apply Z.div_lt_upper_bound; nia.
  - apply shiftr_range; lia.
Qed.

#[export] Hint Resolve u32_range extract_range land_range lor_range : pcap.

Lemma operand_range s i r :
  wf_insn i = true -> wf_regs r -> 0 <= operand s i r < 2 ^ 32.
Proof. unfold wf_insn. intros Hi []. destruct s; cbn; cint. Qed.

(** ** One step *)

Lemma short_packet_fault (p : list byte) buflen s kk :
  0 <= buflen <= Z.of_nat (length p) -> buflen < 2 ^ 31 ->
  - 2 ^ 31 <= kk < 2 ^ 31 -> short_packet s kk buflen = false -> extract s p kk = None ->
  -4 <= kk < 0.
Proof.
  intros Hbuf Hbuf32 Hk Hs He%extract_None. destruct s; cbn in Hs, He; unfold u32, u64 in Hs;
    destruct (Z.ltb_spec kk 0); try lia;
    rewrite ?(Z.mod_small kk) in Hs by lia;
    Z.div_mod_to_equations; lia.
Qed.

Section Step.
Context (p : list byte) (wirelen buflen : Z).
Context (Hwire : 0 <= wirelen < 2 ^ 32) (Hbuf : 0 <= buflen <= Z.of_nat (length p)).
Context (Hbuf32 : buflen < 2 ^ 31).

(** The outcomes a step of a checked instruction can stop with. *)
Definition stop_ok (o : outcome) : Prop :=
  match o with
  | Return v => 0 <= v < 2 ^ 32
  | Abort => False
  | Fault (BadRead off) => -4 <= off < 0
  | Fault (BadShift n) => 32 <= n
  | Fault _ => False
  | OutOfFuel => False
  end.

Lemma load_packet_ok s kk r :
  - 2 ^ 31 <= kk < 2 ^ 31 -> wf_regs r ->
  match load_packet s p buflen kk r with
  | Next d r' => wf_regs r' /\ d = 0
  | Stop o => stop_ok o
  end.
Proof.
  intros Hk Hr. unfold load_packet. destruct (short_packet s kk buflen) eqn:Es; [cbn; lia|].
  destruct (extract s p kk) eqn:Ee; [|cbn; eauto using short_packet_fault].
  split; eauto with pcap.
Qed.

Lemma exec_ldx_msh_ok i r :
  wf_insn i = true -> wf_regs r ->
  match exec_ldx_msh p buflen i r with
  | Next d r' => wf_regs r' /\ d = 0
  | Stop o => stop_ok o
  end.
Proof.
  intros Hi Hr. unfold exec_ldx_msh. rewrite u32_s32.
  assert (0 <= i_k i < 2 ^ 32) as Hk by (unfold wf_insn in Hi; cint).
  rewrite (u32_id (i_k i)) by lia.
  destruct (Z.leb_spec buflen (i_k i)); [cbn; lia|].
  destruct (extract SzB p (i_k i)) as [v|] eqn:Ee.
  - split; [|done]. apply wf_set_X; [done|]. rewrite Z.shiftl_mul_pow2 by lia.
    assert (0 <= Z.land v 15 < 2 ^ 4); [|lia].
    change 15 with (Z.ones 4). rewrite Z.land_ones by lia. apply Z.mod_pos_bound. lia.
  - apply extract_None in Ee. cbn in Ee. lia.
Qed.

Lemma mem_index_ok (m : list Z) i :
  Z.of_nat (length m) = BPF_MEMWORDS -> 0 <= i < BPF_MEMWORDS -> exists v, at_Z m i = Some v.
Proof. intros Hm Hi. apply at_Z_Some. lia. Qed.

Lemma exec_reg_ok o i r :
  wf_insn i = true -> wf_regs r ->
  match o with LD_MEM | LDX_MEM | ST | STX => i_k i < BPF_MEMWORDS | _ => True end ->
  match exec_reg o wirelen i r with
  | Next d r' => wf_regs r' /\ d = 0
  | Stop o' => o' = Abort
  end.
Proof.
  intros Hi Hr Ho. assert (0 <= i_k i < 2 ^ 32) as Hk by (unfold wf_insn in Hi; cint).
  pose proof (wf_A _ Hr). pose proof (wf_X _ Hr). pose proof (wf_mem _ Hr) as Hm.
  unfold exec_reg, load_mem, store_mem.
  destruct o; auto with pcap;
    destruct (mem_index_ok (rmem r) (i_k i) Hm ltac:(lia)) as [v ->]; cbn;
    split; auto with pcap; apply wf_set_mem; rewrite ?length_insert; auto.
Qed.

Lemma exec_alu_ok op s i r :
  wf_insn i = true -> wf_regs r -> (op = DIV -> s = SrcK -> i_k i <> 0) ->
  match exec_alu op s i r with
  | Next d r' => wf_regs r' /\ d = 0
  | Stop o => stop_ok o
  end.
Proof.
  intros Hi Hr Hd. pose proof (operand_range s i r Hi Hr) as Hb. unfold exec_alu.
  destruct (alu op (rA r) (operand s i r)) as [v|] eqn:E.
  - split; [|done]. apply wf_set_A; [done|]. exact (alu_range _ _ _ _ (wf_A _ Hr) Hb E).
  - destruct op; cbn in E; try discriminate E.
    + destruct (Z.eqb_spec (operand s i r) 0) as [E0|]; [|discriminate].
      destruct s; cbn in *; [exact (Hd eq_refl eq_refl E0)|lia].
    + destruct (Z.ltb_spec (operand s i r) 32); [discriminate|]. cbn. lia.
    + destruct (Z.ltb_spec (operand s i r) 32); [discriminate|]. cbn. lia.
Qed.

(** Where a step of opcode [o] may move the program counter, relative to the next one. *)
Definition moves (o : opcode) (i : bpf_insn) (d : Z) : Prop :=
  match o with
  | JA => d = s32 (i_k i)
  | JCOND _ _ => d = i_jt i \/ d = i_jf i
  | RET_K | RET_A => False
  | _ => d = 0
  end.

(** A step of a checked instruction: registers stay well formed, control moves by a
    branch offset of the instruction or by 0, and the only stops left are those of
    [stop_ok]. *)
Lemma exec_op_ok len idx o i r :
  wf_insn i = true -> wf_regs r -> op_checked len idx i o ->
  match exec_op o p wirelen buflen i r with
  | Next d r' => wf_regs r' /\ moves o i d
  | Stop o' => stop_ok o'
  end.
Proof.
  intros Hi Hr Ho. assert (0 <= i_k i < 2 ^ 32) as Hk by (unfold wf_insn in Hi; cint).
  pose proof (wf_A _ Hr) as HA. pose proof (wf_X _ Hr) as HX.
  destruct o as [| |s|s| | | | | | | | | | |op s|op s| | |]; cbn [exec_op moves];
    try exact Hk; try exact HA.
  all: try (apply load_packet_ok; now auto with cint).
  all: try now apply exec_ldx_msh_ok.
  all: try (match goal with
            | |- context [exec_reg ?o' _ _ _] => pose proof (exec_reg_ok o' i r Hi Hr Ho) as Hx
            end; destruct (exec_reg _ _ _ _) eqn:E; [exact Hx|];
            unfold exec_reg in E; repeat case_match; congruence || (subst; exfalso; congruence)).
  all: try (cbn in *; auto with pcap; fail).
  - unfold exec_jmp. split; [done|]. case_match; auto.
  - apply exec_alu_ok; [done..|]. intros -> ->. exact Ho.
Qed.
End Step.

(** ** Control stays inside the program *)

Lemma class_not_ret o i d :
  moves o i d -> BPF_CLASS (encode_op o) <> BPF_RET.
Proof. destruct o as [| |[]|[]| | | | | | | | | | |[] []|[] []| | |]; cbn; easy. Qed.

Lemma moves_inside f pc i o d :
  bpf_validate f = true -> Z.of_nat (length f) < 2 ^ 31 -> wf_insn i = true ->
  at_Z f pc = Some i -> decode_op (i_code i) = Some o -> moves o i d ->
  0 <= pc + d + 1 < Z.of_nat (length f).
Proof.
  intros Hv Hlen Hi Hpc Hd Hm. pose proof (at_Z_bound _ _ _ Hpc) as Hb.
  pose proof (validate_checked f pc i o Hv Hpc Hd) as Hc.
  assert (pc <> Z.of_nat (length f) - 1) as Hlast.
  { intros E. pose proof (validate_last f pc i Hv Hpc E) as Hr.
    rewrite (decode_op_Some _ _ Hd) in Hr. exact (class_not_ret o i d Hm Hr). }
  assert (0 <= i_k i < 2 ^ 32 /\ 0 <= i_jt i < 2 ^ 8 /\ 0 <= i_jf i < 2 ^ 8) as (Hk & Ht & Hf)
    by (unfold wf_insn in Hi; cint).
  destruct o; cbn in Hm, Hc; try lia.
  - subst d. rewrite u32_add_l in Hc. revert Hc. clear -Hb Hk Hlen. cint.
  - rewrite !u32_add_l in Hc. revert Hc Hm. clear -Hb Ht Hf Hlen. cint.
Qed.

(** An unconditional jump whose offset, read as signed, is not negative; the code
    generator emits no other one except for the protochain loop. *)
Definition forward_insn (i : bpf_insn) : bool :=
  if i_code i =? encode_op JA then i_k i <? 2 ^ 31 else true.

Definition known_insn (i : bpf_insn) : bool :=
  match decode_op (i_code i) with Some _ => true | None => false end.

Lemma moves_forward i o d :
  wf_insn i = true -> forward_insn i = true -> decode_op (i_code i) = Some o -> moves o i d -> 0 <= d.
Proof.
  intros Hi Hf Hd Hm.
  assert (0 <= i_k i < 2 ^ 32 /\ 0 <= i_jt i < 2 ^ 8 /\ 0 <= i_jf i < 2 ^ 8) as (Hk & Ht & Hjf)
    by (unfold wf_insn in Hi; cint).
  unfold forward_insn in Hf. rewrite (decode_op_Some _ _ Hd) in Hf.
  destruct o; cbn [moves] in Hm; try lia.
  rewrite Z.eqb_refl in Hf. subst d. cint.
Qed.

Section Run.
Context (f : list bpf_insn) (p : list byte) (wirelen buflen : Z).
Context (Hv : bpf_validate f = true) (Hlen : Z.of_nat (length f) < 2 ^ 31).
Context (Hwf : forallb wf_insn f = true).
Context (Hwire : 0 <= wirelen < 2 ^ 32) (Hbuf : 0 <= buflen <= Z.of_nat (length p)).
Context (Hbuf32 : buflen < 2 ^ 31).

Lemma at_Z_forallb (P : bpf_insn -> bool) (l : list bpf_insn) j i :
  forallb P l = true -> at_Z l j = Some i -> P i = true.
Proof.
  intros HP Hj%at_Z_In. rewrite forallb_forall in HP. apply HP. now apply list_elem_of_In.
Qed.

Lemma run_safe fuel pc r :
  0 <= pc < Z.of_nat (length f) -> wf_regs r ->
  match run fuel f p wirelen buflen pc r with
  | Abort | OutOfFuel => True
  | o => stop_ok o
  end.
Proof.
  revert pc r; induction fuel as [|n IH]; intros pc r Hpc Hr; [exact I|]. cbn [run].
  destruct (at_Z_Some f pc Hpc) as [i Hi]. rewrite Hi.
  pose proof (at_Z_forallb _ _ _ _ Hwf Hi) as Hwi.
  unfold exec_insn. destruct (decode_op (i_code i)) as [o|] eqn:Hd; [|exact I].
  pose proof (exec_op_ok p wirelen buflen Hwire Hbuf Hbuf32 (Z.of_nat (length f)) pc o i r Hwi Hr
                (validate_checked f pc i o Hv Hi Hd)) as Hx.
  destruct (exec_op o p wirelen buflen i r) as [d r'|o'].
  - destruct Hx as [Hr' Hm]. apply IH; [|done]. exact (moves_inside f pc i o d Hv Hlen Hwi Hi Hd Hm).
  - destruct o'; try exact I; exact Hx.
Qed.

Context (Hfwd : forallb forward_insn f = true) (Hknown : forallb known_insn f = true).

Lemma run_stops fuel pc r :
  0 <= pc < Z.of_nat (length f) -> wf_regs r -> Z.of_nat (length f) - pc <= Z.of_nat fuel ->
  stop_ok (run fuel f p wirelen buflen pc r).
Proof.
  revert pc r; induction fuel as [|n IH]; intros pc r Hpc Hr Hfuel; [lia|]. cbn [run].
  destruct (at_Z_Some f pc Hpc) as [i Hi]. rewrite Hi.
  pose proof (at_Z_forallb _ _ _ _ Hwf Hi) as Hwi.
  pose proof (at_Z_forallb _ _ _ _ Hknown Hi) as Hki. unfold known_insn in Hki.
  unfold exec_insn. destruct (decode_op (i_code i)) as [o|] eqn:Hd; [|discriminate].
  pose proof (exec_op_ok p wirelen buflen Hwire Hbuf Hbuf32 (Z.of_nat (length f)) pc o i r Hwi Hr
                (validate_checked f pc i o Hv Hi Hd)) as Hx.
  destruct (exec_op o p wirelen buflen i r) as [d r'|o']; [|exact Hx].
  destruct Hx as [Hr' Hm].
  pose proof (moves_forward i o d Hwi (at_Z_forallb _ _ _ _ Hfwd Hi) Hd Hm).
  apply IH; [exact (moves_inside f pc i o d Hv Hlen Hwi Hi Hd Hm)|done|lia].
Qed.
End Run.

Lemma wf_initial mem : Z.of_nat (length mem) = BPF_MEMWORDS -> wf_regs (mk_regs 0 0 mem).
Proof. intros Hm. constructor; cbn; lia. Qed.

(** C2: a program [bpf_validate] accepts never leaves the program, never indexes scratch
    memory outside its 16 words and never divides by a constant zero, whatever the packet,
    the uninitialised scratch memory and the number of steps; a shift fault is a shift by
    32 or more, a read fault is at an offset in -4..-1, and a returned value is a [u_int]. *)
Theorem bpf_filter_safe (fuel : nat) (f : list bpf_insn) (mem : list Z) (p : list byte)
    (wirelen buflen : Z) :
  bpf_validate f = true -> forallb wf_insn f = true -> Z.of_nat (length f) < 2 ^ 31 ->
  Z.of_nat (length mem) = BPF_MEMWORDS -> 0 <= wirelen < 2 ^ 32 ->
  0 <= buflen <= Z.of_nat (length p) -> buflen < 2 ^ 31 ->
  match bpf_filter fuel mem (Some f) p wirelen buflen with
  | Return v => 0 <= v < 2 ^ 32
  | Fault (BadRead off) => -4 <= off < 0
  | Fault (BadShift n) => 32 <= n
  | Fault _ => False
  | Abort | OutOfFuel => True
  end.
Proof.
  intros Hv Hwf Hlen Hm Hw Hb Hb32. cbn [bpf_filter].
  pose proof (run_safe f p wirelen buflen Hv Hlen Hwf Hw Hb Hb32 fuel 0 (mk_regs 0 0 mem)) as Hs.
  pose proof (validate_nonempty f Hv).
  specialize (Hs ltac:(lia) (wf_initial mem Hm)).
  destruct (run _ _ _ _ _ _ _) as [v| |[]|]; exact Hs.
Qed.

(** C27: on a validated program whose codes are all known and whose unconditional jumps go
    forward, the interpreter terminates within as many steps as the program has
    instructions: it returns a value, except for a read at an offset in -4..-1 or a shift
    by 32 or more. *)
Theorem bpf_filter_terminates (fuel : nat) (f : list bpf_insn) (mem : list Z) (p : list byte)
    (wirelen buflen : Z) :
  bpf_validate f = true -> forallb wf_insn f = true -> Z.of_nat (length f) < 2 ^ 31 ->
  forallb forward_insn f = true -> forallb known_insn f = true ->
  Z.of_nat (length mem) = BPF_MEMWORDS -> 0 <= wirelen < 2 ^ 32 ->
  0 <= buflen <= Z.of_nat (length p) -> buflen < 2 ^ 31 ->
  (length f <= fuel)%nat ->
  stop_ok (bpf_filter fuel mem (Some f) p wirelen buflen).
Proof.
  intros Hv Hwf Hlen Hfw Hk Hm Hw Hb Hb32 Hfuel. cbn [bpf_filter].
  pose proof (validate_nonempty f Hv).
  apply run_stops; auto using wf_initial; lia.
Qed.

(** ** The packet is read within [buflen] only *)

Lemma bytes_at_agree p1 p2 off n buflen :
  0 <= buflen <= Z.of_nat (length p1) -> 0 <= buflen <= Z.of_nat (length p2) ->
  take (Z.to_nat buflen) p1 = take (Z.to_nat buflen) p2 ->
  off < 0 \/ off + Z.of_nat n <= buflen -> bytes_at p1 off n = bytes_at p2 off n.
Proof.
  intros H1 H2 Ht Hoff. unfold bytes_at.
  destruct (Z.leb_spec 0 off); cbn [andb]; [|reflexivity].
  destruct (Z.leb_spec (off + Z.of_nat n) (Z.of_nat (length p1))); [|lia].
  destruct (Z.leb_spec (off + Z.of_nat n) (Z.of_nat (length p2))); [|lia].
  assert (forall p : list byte, take n (drop (Z.to_nat off) p) =
                    take n (drop (Z.to_nat off) (take (Z.to_nat buflen) p))) as Hsub.
  { intros p. rewrite skipn_firstn_comm, take_take. f_equal. lia. }
  rewrite (Hsub p1), (Hsub p2), Ht. reflexivity.
Qed.

Section Agree.
Context (p1 p2 : list byte) (wirelen buflen : Z).
Context (H1 : 0 <= buflen <= Z.of_nat (length p1)) (H2 : 0 <= buflen <= Z.of_nat (length p2)).
Context (Ht : take (Z.to_nat buflen) p1 = take (Z.to_nat buflen) p2).

Lemma load_packet_agree s kk r :
  - 2 ^ 31 <= kk < 2 ^ 31 ->
  load_packet s p1 buflen kk r = load_packet s p2 buflen kk r.
Proof.
  intros Hk. unfold load_packet. destruct (short_packet s kk buflen) eqn:E; [reflexivity|].
  unfold extract. rewrite (bytes_at_agree p1 p2 kk (size_bytes s) buflen); auto.
  revert E. destruct (Z.ltb_spec kk 0); [auto|]. intros E; right.
  destruct s; cbn in *; cint.
Qed.

Lemma exec_insn_agree i r :
  wf_insn i = true -> exec_insn p1 wirelen buflen i r = exec_insn p2 wirelen buflen i r.
Proof.
  intros Hi. unfold exec_insn. destruct (decode_op (i_code i)) as [o|]; [|reflexivity].
  assert (0 <= i_k i < 2 ^ 32) as Hk by (unfold wf_insn in Hi; cint).
  destruct o; cbn [exec_op]; try reflexivity; try (apply load_packet_agree; auto with cint).
  unfold exec_ldx_msh. rewrite u32_s32, (u32_id (i_k i)) by lia.
  destruct (Z.leb_spec buflen (i_k i)); [reflexivity|].
  unfold extract. rewrite (bytes_at_agree p1 p2 (i_k i) (size_bytes SzB) buflen); auto.
  cbn. lia.
Qed.
End Agree.

(** C37: the result does not depend on any byte at or beyond [buflen]: on two buffers that
    agree on their first [buflen] bytes every program has the same outcome, so a load
    never reads past the captured data. *)
Theorem bpf_filter_reads_captured_only (fuel : nat) (f : list bpf_insn) (mem : list Z)
    (p1 p2 : list byte) (wirelen buflen : Z) :
  forallb wf_insn f = true ->
  0 <= buflen <= Z.of_nat (length p1) -> 0 <= buflen <= Z.of_nat (length p2) ->
  take (Z.to_nat buflen) p1 = take (Z.to_nat buflen) p2 ->
  bpf_filter fuel mem (Some f) p1 wirelen buflen = bpf_filter fuel mem (Some f) p2 wirelen buflen.
Proof.
  intros Hwf H1 H2 Ht. cbn [bpf_filter]. generalize (mk_regs 0 0 mem).
  generalize 0 as pc. induction fuel as [|n IH]; intros pc r; [reflexivity|].
  cbn [run]. destruct (at_Z f pc) as [i|] eqn:Hi; [|reflexivity].
  rewrite (exec_insn_agree p1 p2 wirelen buflen H1 H2 Ht i r (at_Z_forallb _ _ _ _ Hwf Hi)).
  destruct (exec_insn _ _ _ _ _); [apply IH|reflexivity].
Qed.

(** ** What the checks let through *)

(** The run-time check of the word load at a constant offset is [k + sizeof(int32) >
    buflen] with [k] an [int]: the sum wraps, and exactly the offsets 0xfffffffc to
    0xffffffff pass it without lying inside the packet; the load then reads [p] before
    its start. *)
Theorem ld_abs_word_gap (p : list byte) (buflen : Z) (i : bpf_insn) (r : regs) :
  wf_insn i = true -> 0 <= buflen <= Z.of_nat (length p) -> buflen < 2 ^ 31 ->
  ((exists off, exec_ld_abs SzW p buflen i r = Stop (Fault (BadRead off))) <->
   (2 ^ 32 - 4 <= i_k i /\ i_k i + 4 - 2 ^ 32 <= buflen)).
Proof.
  intros Hi Hb Hb32. assert (0 <= i_k i < 2 ^ 32) as Hk by (unfold wf_insn in Hi; cint).
  unfold exec_ld_abs, load_packet. split.
  - intros [off E]. destruct (short_packet _ _ _) eqn:Es; [discriminate|].
    destruct (extract SzW p _) eqn:Ee; [discriminate|]. clear E.
    pose proof (short_packet_fault p buflen SzW _ Hb Hb32 (s32_range (i_k i)) Es Ee).
    cbn in Es. cint.
  - intros [Hlo Hhi]. exists (s32 (i_k i)).
    replace (s32 (i_k i)) with (i_k i - 2 ^ 32) by cint.
    replace (short_packet SzW (i_k i - 2 ^ 32) buflen) with false by (cbn; cint).
    destruct (extract SzW p (i_k i - 2 ^ 32)) as [v|] eqn:Ee; [|reflexivity].
    unfold extract, bytes_at in Ee. destruct (Z.leb_spec 0 (i_k i - 2 ^ 32)); [lia|discriminate].
Qed.

(** A validated program need not terminate: the program checker accepts a backward
    unconditional jump, and the interpreter then runs for ever. *)
Theorem validated_program_may_loop :
  exists f, bpf_validate f = true /\ forallb wf_insn f = true /\ forallb known_insn f = true /\
    forall fuel mem p wirelen buflen,
      bpf_filter fuel mem (Some f) p wirelen buflen = OutOfFuel.
Proof.
  exists [mk_insn (encode_op JA) 0 0 (2 ^ 32 - 1); mk_insn (encode_op RET_K) 0 0 0].
  do 3 (split; [vm_compute; reflexivity|]). intros fuel mem p wirelen buflen. cbn [bpf_filter].
  generalize (mk_regs 0 0 mem). induction fuel as [|n IH]; intros r; [reflexivity|].
  exact (IH r).
Qed.

(** The program checker accepts codes the interpreter does not implement, and running
    such a program calls [abort()]: here [ret x] (the return register field is not
    checked) on any packet. *)
Theorem validated_program_may_abort :
  exists f, bpf_validate f = true /\ forallb wf_insn f = true /\
    forall fuel mem p wirelen buflen,
      bpf_filter (S fuel) mem (Some f) p wirelen buflen = Abort.
Proof.
  exists [mk_insn (BPF_RET ||| BPF_X) 0 0 0].
  do 2 (split; [vm_compute; reflexivity|]). reflexivity.
Qed.

(** ** Witnesses: the filter "ip" on an Ethernet frame *)

Definition prog_ip : list bpf_insn :=
  [ BPF_STMT (encode_op (LD_ABS SzH)) 12;
    BPF_JUMP (encode_op (JCOND JEQ SrcK)) 0x800 0 1;
    BPF_STMT (encode_op RET_K) 65535;
    BPF_STMT (encode_op RET_K) 0 ].

Definition frame_ip : list byte := replicate 12 x00 ++ [x08; x00; x45].

Example prog_ip_accepts :
  bpf_filter 4 (replicate 16 0) (Some prog_ip) frame_ip 60 15 = Return 65535.
Proof. reflexivity. Qed.

Lemma bpf_filter_safe_witness :
  match bpf_filter 4 (replicate 16 0) (Some prog_ip) frame_ip 60 15 with
  | Return v => 0 <= v < 2 ^ 32
  | Fault (BadRead off) => -4 <= off < 0
  | Fault (BadShift n) => 32 <= n
  | Fault _ => False
  | Abort | OutOfFuel => True
  end.
Proof. apply bpf_filter_safe; vm_compute; (reflexivity || split; congruence). Defined.

Lemma bpf_filter_terminates_witness :
  stop_ok (bpf_filter 4 (replicate 16 0) (Some prog_ip) frame_ip 60 15).
Proof. apply bpf_filter_terminates; vm_compute; (reflexivity || split; congruence || lia). Defined.

Lemma bpf_filter_reads_captured_only_witness :
  bpf_filter 4 (replicate 16 0) (Some prog_ip) frame_ip 60 14 =
  bpf_filter 4 (replicate 16 0) (Some prog_ip) (replicate 12 x00 ++ [x08; x00; xff; xff]) 60 14.
Proof.
  apply bpf_filter_reads_captured_only; vm_compute; (reflexivity || split; congruence).
Defined.

Lemma ld_abs_word_gap_witness :
  (exists off, exec_ld_abs SzW (replicate 4 x00) 4 (BPF_STMT (encode_op (LD_ABS SzW)) (2 ^ 32 - 1))
                 (mk_regs 0 0 []) = Stop (Fault (BadRead off))) <->
  (2 ^ 32 - 4 <= 2 ^ 32 - 1 /\ 2 ^ 32 - 1 + 4 - 2 ^ 32 <= 4).
Proof.
  apply (ld_abs_word_gap (replicate 4 x00) 4 (BPF_STMT (encode_op (LD_ABS SzW)) (2 ^ 32 - 1)));
    vm_compute; (reflexivity || split; congruence).
Defined.
