(* ===== verification/BpfImage.v ===== *)
(** * The BPF disassembler (bpf_image.c, bpf_dump.c)

    [bpf_image] prints one instruction. The part of [snprintf] it uses (the conversions
    %d, %x, %s, with a field width) is written out; a result longer than the buffer is
    cut, as [snprintf] does. The theorems show that the buffers are large enough, that the
    printed number reads back as the value printed, and which instructions print as
    "unimp". *)
From stdpp Require Import base numbers list.
From Stdlib Require Import Strings.String Strings.Ascii.
From S2P Require Import Prelude BpfInsn.
Open Scope string_scope.
Open Scope Z_scope.

(** ** Numbers *)

(** Digits of a non-negative number in base [b], least significant first, as produced by
    repeated division; [fuel] digits at most. *)
Fixpoint digits (fuel : nat) (b n : Z) : list Z :=
  match fuel with
  | O => []
  | S f => if n <? b then [n] else n mod b :: digits f b (n / b)
  end.

Definition digit_char (d : Z) : ascii :=
  ascii_of_N (Z.to_N (if d <? 10 then 48 + d else 87 + d)).

Fixpoint string_of_digits (ds : list Z) (acc : string) : string :=
  match ds with
  | [] => acc
  | d :: ds' => string_of_digits ds' (String (digit_char d) acc)
  end.

(** An [int] has at most 10 decimal digits, an [unsigned] at most 8 hexadecimal ones. *)
Definition print_u (b : Z) (n : Z) : string := string_of_digits (digits 10 b n) "".
Definition print_d (v : Z) : string :=
  if v <? 0 then String "-" (print_u 10 (- v)) else print_u 10 v.
Definition print_x (v : Z) : string := print_u 16 (u32 v).

(** ** Field widths and [snprintf] *)

Fixpoint spaces (c : ascii) (n : nat) : string :=
  match n with O => "" | S m => String c (spaces c m) end.

(** %03d: zero-padded on the left, after the sign. *)
Definition pad0 (w : nat) (v : Z) : string :=
  if v <? 0
  then let s := print_u 10 (- v) in String "-" (spaces "0" (w - 1 - String.length s) ++ s)
  else let s := print_u 10 v in spaces "0" (w - String.length s) ++ s.

(** %-8s: left-justified. *)
Definition padr (w : nat) (s : string) : string := s ++ spaces " " (w - String.length s).

(** [snprintf(buf, size, ...)] stores at most [size - 1] characters. *)
Definition snprintf (size : nat) (s : string) : string := String.substring 0 (size - 1) s.

(** The operand formats of [bpf_image], each with at most one conversion. *)
Inductive operand_fmt :=
| FmtLit (s : string)
| FmtD (pre post : string)
| FmtX (pre post : string).

Definition format_operand (f : operand_fmt) (v : Z) : string :=
  match f with
  | FmtLit s => s
  | FmtD pre post => pre ++ print_d v ++ post
  | FmtX pre post => pre ++ print_x v ++ post
  end.

(** ** [bpf_image] *)

Definition load_name (s : bpf_size) : string :=
  match s with SzW => "ld" | SzH => "ldh" | SzB => "ldb" end.

Definition jmp_name (o : jmp_op) : string :=
  match o with JGT => "jgt" | JGE => "jge" | JEQ => "jeq" | JSET => "jset" end.

Definition alu_name (o : alu_op) : string :=
  match o with
  | ADD => "add" | SUB => "sub" | MUL => "mul" | DIV => "div"
  | AND => "and" | OR => "or" | LSH => "lsh" | RSH => "rsh"
  end.

(** The loads, stores and returns of the switch: [op] and [fmt] of each case; the value
    printed is [p->k] in all of them. *)
Definition image_load_store (o : opcode) : option (string * operand_fmt) :=
  match o with
  | RET_K => Some ("ret", FmtD "#" "")
  | RET_A => Some ("ret", FmtLit "")
  | LD_ABS s => Some (load_name s, FmtD "[" "]")
  | LD_LEN => Some ("ld", FmtLit "#pktlen")
  | LD_IND s => Some (load_name s, FmtD "[x + " "]")
  | LD_IMM => Some ("ld", FmtX "#0x" "")
  | LDX_IMM => Some ("ldx", FmtX "#0x" "")
  | LDX_MSH => Some ("ldxb", FmtD "4*([" "]&0xf)")
  | LD_MEM => Some ("ld", FmtD "M[" "]")
  | LDX_MEM => Some ("ldx", FmtD "M[" "]")
  | ST => Some ("st", FmtD "M[" "]")
  | STX => Some ("stx", FmtD "M[" "]")
  | _ => None
  end.

(** The jumps and the arithmetic instructions. *)
Definition image_jmp_alu (o : opcode) : option (string * operand_fmt) :=
  match o with
  | JA => Some ("ja", FmtD "" "")
  | JCOND op SrcK => Some (jmp_name op, FmtX "#0x" "")
  | JCOND op SrcX => Some (jmp_name op, FmtLit "x")
  | ALU op SrcX => Some (alu_name op, FmtLit "x")
  | ALU op SrcK => Some (alu_name op, match op with AND | OR => FmtX "#0x" "" | _ => FmtD "#" "" end)
  | NEG => Some ("neg", FmtLit "")
  | TAX => Some ("tax", FmtLit "")
  | TXA => Some ("txa", FmtLit "")
  | _ => None
  end.

(** The switch: operation name, operand format and the value [v] it prints. *)
Definition image_case (i : bpf_insn) (n : Z) : string * operand_fmt * Z :=
  match decode_op (i_code i) with
  | None => ("unimp", FmtX "0x" "", i_code i)
  | Some o =>
      match image_load_store o with
      | Some (op, fmt) => (op, fmt, s32 (i_k i))
      | None =>
          match image_jmp_alu o with
          | Some (op, fmt) => (op, fmt, match o with JA => s32 (n + 1 + i_k i) | _ => s32 (i_k i) end)
          | None => ("unimp", FmtX "0x" "", i_code i)
          end
      end
  end.

Definition image_operand (i : bpf_insn) (n : Z) : string :=
  let '(_, fmt, v) := image_case i n in format_operand fmt v.

(** The two final formats, before truncation. *)
Definition image_line (i : bpf_insn) (n : Z) (operand : string) : string :=
  let '(op, _, _) := image_case i n in
  if (BPF_CLASS (i_code i) =? BPF_JMP) && negb (BPF_OP (i_code i) =? BPF_JA)
  then "(" ++ pad0 3 n ++ ") " ++ padr 8 op ++ " " ++ padr 16 operand ++ " jt "
       ++ print_d (n + 1 + i_jt i) ++ String "009" "jf " ++ print_d (n + 1 + i_jf i)
  else "(" ++ pad0 3 n ++ ") " ++ padr 8 op ++ " " ++ operand.

Definition bpf_image (i : bpf_insn) (n : Z) : string :=
  snprintf 256 (image_line i n (snprintf 64 (image_operand i n))).

(** [bpf_dump(p, option)]: what it writes with [puts]/[printf] for the three options, one
    line per element. *)
Fixpoint dump_images (f : list bpf_insn) (n : Z) : list string :=
  match f with
  | [] => []
  | i :: f' => bpf_image i n :: dump_images f' (n + 1)
  end.

Definition bpf_dump (f : list bpf_insn) (option : Z) : list string :=
  if 2 <? option then
    print_d (Z.of_nat (List.length f)) ::
    map (fun i => print_u 10 (i_code i) ++ " " ++ print_u 10 (i_jt i) ++ " " ++ print_u 10 (i_jf i)
                  ++ " " ++ print_u 10 (i_k i)) f
  else if 1 <? option then
    map (fun i => "{ 0x" ++ print_x (i_code i) ++ ", " ++ print_d (i_jt i) ++ ", "
                  ++ print_d (i_jf i) ++ ", 0x"
                  ++ spaces "0" (8 - String.length (print_x (i_k i))) ++ print_x (i_k i) ++ " },") f
  else dump_images f 0.

(** ** Lengths *)

Lemma digits_length fuel b n : (List.length (digits fuel b n) <= fuel)%nat.
Proof.
  revert n; induction fuel as [|f IH]; intros n; simpl; [lia|].
  destruct (n <? b); simpl; [lia|]. specialize (IH (n / b)). lia.
Qed.

Lemma string_of_digits_length ds acc :
  String.length (string_of_digits ds acc) = (List.length ds + String.length acc)%nat.
Proof.
  revert acc; induction ds as [|d ds IH]; intros acc; simpl; [reflexivity|].
  rewrite IH. simpl. lia.
Qed.

Lemma append_length s1 s2 :
  String.length (s1 ++ s2) = (String.length s1 + String.length s2)%nat.
Proof. induction s1 as [|c s1 IH]; simpl; [reflexivity|]. now rewrite IH. Qed.

Lemma spaces_length c n : String.length (spaces c n) = n.
Proof. induction n as [|n IH]; simpl; congruence. Qed.

Lemma print_u_length b n : (String.length (print_u b n) <= 10)%nat.
Proof.
  unfold print_u. rewrite string_of_digits_length. pose proof (digits_length 10 b n). cbn [String.length]. lia.
Qed.

Lemma print_d_length v : (String.length (print_d v) <= 11)%nat.
Proof.
  unfold print_d. destruct (v <? 0); cbn [String.length].
  - pose proof (print_u_length 10 (- v)). lia.
  - pose proof (print_u_length 10 v). lia.
Qed.

Lemma pad0_length v : (String.length (pad0 3 v) <= 11)%nat.
Proof.
  unfold pad0. cbv zeta. destruct (v <? 0); cbn [String.length]; rewrite append_length, spaces_length.
  - pose proof (print_u_length 10 (- v)). lia.
  - pose proof (print_u_length 10 v). lia.
Qed.

Lemma padr_length w s : String.length (padr w s) = Nat.max w (String.length s).
Proof. unfold padr. rewrite append_length, spaces_length. lia. Qed.

Lemma substring_all s n : (String.length s <= n)%nat -> String.substring 0 n s = s.
Proof.
  revert n; induction s as [|c s IH]; intros n Hn; destruct n; simpl in *; try lia; [done..|].
  rewrite IH by lia. reflexivity.
Qed.

Lemma snprintf_fits size s : (String.length s < size)%nat -> snprintf size s = s.
Proof. intros Hs. unfold snprintf. apply substring_all. lia. Qed.

Definition fmt_fits (f : operand_fmt) : bool :=
  match f with
  | FmtLit s => Nat.leb (String.length s) 30
  | FmtD pre post | FmtX pre post => Nat.leb (String.length pre + String.length post) 30
  end.

Lemma format_operand_length f v : fmt_fits f = true -> (String.length (format_operand f v) <= 41)%nat.
Proof.
  destruct f; simpl; rewrite ?append_length; intros Hf%Nat.leb_le; try lia.
  - pose proof (print_d_length v). lia.
  - unfold print_x. pose proof (print_u_length 16 (u32 v)). lia.
Qed.

Lemma image_case_fits i n :
  let '(op, fmt, _) := image_case i n in
  (String.length op <= 8)%nat /\ fmt_fits fmt = true.
Proof.
  unfold image_case. destruct (decode_op (i_code i)) as [o|]; [|simpl; auto with lia].
  destruct o as [| |[]|[]| | | | | | | | | | |[] []|[] []| | |]; simpl; split; (lia || reflexivity).
Qed.

Lemma image_operand_length i n : (String.length (image_operand i n) <= 41)%nat.
Proof.
  unfold image_operand. pose proof (image_case_fits i n) as Hc.
  destruct (image_case i n) as [[op fmt] v]. now apply format_operand_length.
Qed.

Lemma image_line_length i n s :
  (String.length s <= 41)%nat -> (String.length (image_line i n s) <= 127)%nat.
Proof.
  intros Hs. unfold image_line. pose proof (image_case_fits i n) as Hc.
  destruct (image_case i n) as [[op fmt] v]. destruct Hc as [Hop _].
  pose proof (pad0_length n). pose proof (print_d_length (n + 1 + i_jt i)).
  pose proof (print_d_length (n + 1 + i_jf i)).
  destruct (_ && _); cbn [String.length append]; rewrite ?append_length, ?padr_length;
    cbn [String.length append]; rewrite ?append_length; cbn [String.length append];
    rewrite ?append_length, ?padr_length; cbn [String.length append];
    rewrite ?append_length, ?padr_length; cbn [String.length append];
    rewrite ?append_length, ?padr_length; cbn [String.length append];
    rewrite ?append_length; lia.
Qed.

(** Neither [snprintf] of [bpf_image] cuts its output: the 64-byte operand and the
    256-byte image hold the whole text of every instruction at every index. *)
Theorem bpf_image_not_truncated (i : bpf_insn) (n : Z) :
  bpf_image i n = image_line i n (image_operand i n).
Proof.
  unfold bpf_image. pose proof (image_operand_length i n).
  rewrite (snprintf_fits 64) by lia. apply snprintf_fits.
  pose proof (image_line_length i n (image_operand i n) ltac:(lia)). lia.
Qed.

(** ** Reading the printed number back *)

Definition char_digit (c : ascii) : Z :=
  let n := Z.of_N (N_of_ascii c) in if n <? 58 then n - 48 else n - 87.

Fixpoint read_u (b acc : Z) (s : string) : Z :=
  match s with
  | EmptyString => acc
  | String c s' => read_u b (acc * b + char_digit c) s'
  end.

Definition read_d (s : string) : Z :=
  match s with
  | String c s' => if Ascii.eqb c "-" then - read_u 10 0 s' else read_u 10 0 s
  | EmptyString => 0
  end.

Lemma digit_cases (P : Z -> Prop) :
  Forall P [0; 1; 2; 3; 4; 5; 6; 7; 8; 9; 10; 11; 12; 13; 14; 15] -> forall d, 0 <= d < 16 -> P d.
Proof.
  intros HP d Hd. rewrite List.Forall_forall in HP. apply HP. simpl. lia.
Qed.

Lemma char_digit_char d : 0 <= d < 16 -> char_digit (digit_char d) = d.
Proof. revert d. apply digit_cases. repeat constructor. Qed.

Lemma digit_char_not_minus d : 0 <= d < 16 -> Ascii.eqb (digit_char d) "-" = false.
Proof. revert d. apply digit_cases. repeat constructor. Qed.

Lemma read_string_of_digits b ds acc :
  1 < b <= 16 -> Forall (fun d => 0 <= d < b) ds ->
  forall a, read_u b a (string_of_digits ds acc) =
            read_u b (a * b ^ Z.of_nat (List.length ds)
                      + fold_right (fun d v => d + b * v) 0 ds) acc.
Proof.
  intros Hb Hds. revert acc. induction Hds as [|d ds Hd Hds IH]; intros acc a;
    cbn [string_of_digits fold_right List.length].
  - f_equal. change (Z.of_nat 0) with 0. lia.
  - rewrite IH. cbn [read_u]. rewrite char_digit_char by lia.
    f_equal. rewrite Nat2Z.inj_succ, Z.pow_succ_r by lia. ring.
Qed.

Lemma digits_value fuel b n :
  1 < b -> 0 <= n < b ^ Z.of_nat fuel ->
  Forall (fun d => 0 <= d < b) (digits fuel b n) /\
  fold_right (fun d v => d + b * v) 0 (digits fuel b n) = n.
Proof.
  intros Hb. revert n; induction fuel as [|f IH]; intros n Hn; [simpl in *; split; [constructor|lia]|].
  cbn [digits]. destruct (Z.ltb_spec n b); cbn [fold_right].
  - split; [repeat constructor; lia|lia].
  - rewrite Nat2Z.inj_succ, Z.pow_succ_r in Hn by lia.
    destruct (IH (n / b)) as [Hf Hv].
    { split; [apply Z.div_pos; lia|]. apply Z.div_lt_upper_bound; lia. }
    rewrite Hv. split; [constructor; [apply Z.mod_pos_bound; lia|done]|].
    pose proof (Z.div_mod n b). lia.
Qed.

Lemma read_print_u b n : 1 < b <= 16 -> 0 <= n < b ^ 10 -> read_u b 0 (print_u b n) = n.
Proof.
  intros Hb Hn. unfold print_u. destruct (digits_value 10 b n) as [Hf Hv]; [lia|exact Hn|].
  rewrite read_string_of_digits by done. rewrite Hv. cbn [read_u]. lia.
Qed.

Lemma print_u_first b n :
  1 < b <= 16 -> 0 <= n < b ^ 10 ->
  exists c s, print_u b n = String c s /\ Ascii.eqb c "-" = false.
Proof.
  intros Hb Hn. unfold print_u. destruct (digits_value 10 b n) as [Hf _]; [lia|exact Hn|].
  assert (digits 10 b n <> []) as Hne by (cbn [digits]; destruct (n <? b); discriminate).
  assert (forall ds c s, Forall (fun d => 0 <= d < b) ds -> Ascii.eqb c "-" = false ->
    exists c' s', string_of_digits ds (String c s) = String c' s' /\ Ascii.eqb c' "-" = false) as Hgen.
  { intros ds. induction ds as [|d ds IH]; intros c s Hds Hc; simpl; [eauto|].
    inversion Hds; subst. apply IH; [done|]. apply digit_char_not_minus. lia. }
  destruct (digits 10 b n) as [|d ds]; [done|]. inversion Hf; subst. cbn [string_of_digits].
  apply Hgen; [done|]. apply digit_char_not_minus. lia.
Qed.

(** The decimal rendering of an [int] by the disassembler reads back as that number,
    so the operand, the branch targets and the program length it prints are exact. *)
Theorem read_print_d (v : Z) : - 2 ^ 31 <= v < 2 ^ 31 -> read_d (print_d v) = v.
Proof.
  intros Hv. unfold print_d. destruct (Z.ltb_spec v 0).
  - cbn [read_d]. change (Ascii.eqb "-" "-") with true. cbv iota.
    rewrite read_print_u by lia. lia.
  - destruct (print_u_first 10 v ltac:(lia) ltac:(lia)) as (c & s & E & Hc).
    unfold read_d. rewrite E, Hc, <- E. apply read_print_u; lia.
Qed.

Lemma read_print_d_witness : read_d (print_d (-17)) = -17.
Proof. apply read_print_d. vm_compute. split; congruence. Defined.

(** The disassembler prints "unimp" for exactly the codes the interpreter does not
    implement, and for one it does implement, [ldx #pktlen]. *)
Theorem image_unimp_iff (i : bpf_insn) (n : Z) :
  (image_case i n).1.1 = "unimp" <->
  decode_op (i_code i) = None \/ decode_op (i_code i) = Some LDX_LEN.
Proof.
  unfold image_case. destruct (decode_op (i_code i)) as [o|]; [|simpl; intuition].
  destruct o as [| |[]|[]| | | | | | | | | | |[] []|[] []| | |]; simpl; intuition congruence.
Qed.
