(* ===== verification/Icode.v ===== *)
(** * The flow-graph intermediate code (gencode.h)

    Statements, edges and blocks as the code generator builds them and the optimizer
    rewrites them. A block is referred to by its address, an edge by its block and side
    ([&b->et] or [&b->ef]); the heap maps addresses to blocks. A statement list is the
    list of its nodes, each with its address, because block-local jumps refer to nodes.

    The second half gives the meaning of the graph: what executing a block does, and where
    control leaves a set of blocks. It is the specification the code generator, the
    optimizer and the layout pass are proved against. *)
From stdpp Require Import base numbers list gmap.
From Stdlib Require Import Strings.Byte.
From S2P Require Import Prelude BpfInsn BpfFilter.
Open Scope Z_scope.

(** ** Data *)

(** [struct stmt]: [code] is an [int], [NOP] (-1) for a deleted statement; [k] is a
    [bpf_int32]. *)
Record stmt := mk_stmt { s_code : Z; s_jt : option nat; s_jf : option nat; s_k : Z }.

Definition NOP : Z := -1.

(** [struct slist] *)
Record snode := mk_snode { sn_addr : nat; sn_s : stmt }.
Abbreviation slist := (list snode).

(** [N_ATOMS], [A_ATOM], [X_ATOM], [AX_ATOM]: scratch words, accumulator, index register. *)
Definition N_ATOMS : Z := BPF_MEMWORDS + 2.
Definition A_ATOM : Z := BPF_MEMWORDS.
Definition X_ATOM : Z := BPF_MEMWORDS + 1.
Definition AX_ATOM : Z := N_ATOMS.

(** [atomset], a bit vector of 32 bits. *)
Definition ATOMMASK (n : Z) : Z := Z.shiftl 1 n.
Definition ATOMELEM (d n : Z) : bool := negb (Z.land d (ATOMMASK n) =? 0).

(** The two edges of a block: [true] is [et], [false] is [ef]. *)
Abbreviation edge_ref := (nat * bool)%type.

(** [struct edge]; [pred] and the side are the reference itself. *)
Record edge := mk_edge {
  e_id : Z;
  e_code : Z;
  e_edom : list Z;
  e_succ : option nat;
  e_next : option edge_ref
}.

(** [struct block] *)
Record block := mk_block {
  b_id : Z;
  b_stmts : slist;
  b_s : stmt;
  b_mark : Z;
  b_longjt : Z;
  b_longjf : Z;
  b_level : Z;
  b_offset : Z;
  b_sense : bool;
  b_et : edge;
  b_ef : edge;
  b_head : nat;
  b_link : option nat;
  b_dom : list Z;
  b_closure : list Z;
  b_in_edges : option edge_ref;
  b_def : Z;
  b_kill : Z;
  b_in_use : Z;
  b_out_use : Z;
  b_oval : Z;
  b_val : list Z
}.

Abbreviation heap := (gmap nat block).

(** [JT(b)] and [JF(b)] *)
Definition JT (b : block) : option nat := e_succ (b_et b).
Definition JF (b : block) : option nat := e_succ (b_ef b).
Definition succ_of (side : bool) (b : block) : option nat := if side then JT b else JF b.

(** Field updates. *)
Definition with_succ (q : option nat) (e : edge) : edge :=
  mk_edge (e_id e) (e_code e) (e_edom e) q (e_next e).
Definition with_et (e : edge) (b : block) : block :=
  mk_block (b_id b) (b_stmts b) (b_s b) (b_mark b) (b_longjt b) (b_longjf b) (b_level b)
    (b_offset b) (b_sense b) e (b_ef b) (b_head b) (b_link b) (b_dom b) (b_closure b)
    (b_in_edges b) (b_def b) (b_kill b) (b_in_use b) (b_out_use b) (b_oval b) (b_val b).
Definition with_ef (e : edge) (b : block) : block :=
  mk_block (b_id b) (b_stmts b) (b_s b) (b_mark b) (b_longjt b) (b_longjf b) (b_level b)
    (b_offset b) (b_sense b) (b_et b) e (b_head b) (b_link b) (b_dom b) (b_closure b)
    (b_in_edges b) (b_def b) (b_kill b) (b_in_use b) (b_out_use b) (b_oval b) (b_val b).
Definition set_succ (side : bool) (q : option nat) (b : block) : block :=
  if side then with_et (with_succ q (b_et b)) b else with_ef (with_succ q (b_ef b)) b.
Definition set_sense (v : bool) (b : block) : block :=
  mk_block (b_id b) (b_stmts b) (b_s b) (b_mark b) (b_longjt b) (b_longjf b) (b_level b)
    (b_offset b) v (b_et b) (b_ef b) (b_head b) (b_link b) (b_dom b) (b_closure b)
    (b_in_edges b) (b_def b) (b_kill b) (b_in_use b) (b_out_use b) (b_oval b) (b_val b).
Definition set_head (v : nat) (b : block) : block :=
  mk_block (b_id b) (b_stmts b) (b_s b) (b_mark b) (b_longjt b) (b_longjf b) (b_level b)
    (b_offset b) (b_sense b) (b_et b) (b_ef b) v (b_link b) (b_dom b) (b_closure b)
    (b_in_edges b) (b_def b) (b_kill b) (b_in_use b) (b_out_use b) (b_oval b) (b_val b).
Definition set_code (ss : slist) (s : stmt) (b : block) : block :=
  mk_block (b_id b) ss s (b_mark b) (b_longjt b) (b_longjf b) (b_level b)
    (b_offset b) (b_sense b) (b_et b) (b_ef b) (b_head b) (b_link b) (b_dom b) (b_closure b)
    (b_in_edges b) (b_def b) (b_kill b) (b_in_use b) (b_out_use b) (b_oval b) (b_val b).
Definition set_layout (mark offset longjt longjf : Z) (b : block) : block :=
  mk_block (b_id b) (b_stmts b) (b_s b) mark longjt longjf (b_level b)
    offset (b_sense b) (b_et b) (b_ef b) (b_head b) (b_link b) (b_dom b) (b_closure b)
    (b_in_edges b) (b_def b) (b_kill b) (b_in_use b) (b_out_use b) (b_oval b) (b_val b).

Lemma succ_of_set_succ_eq side q b : succ_of side (set_succ side q b) = q.
Proof. now destruct side. Qed.

Lemma succ_of_set_succ_ne side side' q b :
  side <> side' -> succ_of side' (set_succ side q b) = succ_of side' b.
Proof. destruct side, side'; easy. Qed.

(** ** Meaning of statements and blocks *)

(** The instruction a statement becomes: [(u_short)code] and [k] as [bpf_u_int32]. *)
Definition insn_of_stmt (s : stmt) : bpf_insn := mk_insn (u16 (s_code s)) 0 0 (u32 (s_k s)).

Section Semantics.
Context (p : list byte) (wirelen buflen : Z).

(** A statement list executes in sequence; deleted statements do nothing. A jump in the
    list (the generator makes one only for the protochain loop and the 802.11 header
    length) has no meaning here. *)
Fixpoint exec_stmts (ss : slist) (r : regs) : regs + outcome :=
  match ss with
  | [] => inl r
  | n :: ss' =>
      if s_code (sn_s n) =? NOP then exec_stmts ss' r
      else match exec_insn p wirelen buflen (insn_of_stmt (sn_s n)) r with
           | Next d r' => if d =? 0 then exec_stmts ss' r' else inr (Fault (BadPc d))
           | Stop o => inr o
           end
  end.

(** What the branch statement of a block decides. *)
Inductive exit_result :=
| Leave (side : bool) (r : regs)
| Done (o : outcome).

Definition exec_branch (s : stmt) (r : regs) : exit_result :=
  match decode_op (u16 (s_code s)) with
  | Some RET_K => Done (Return (u32 (s_k s)))
  | Some RET_A => Done (Return (rA r))
  | Some (JCOND op src) => Leave (jmp_test op (rA r) (operand src (insn_of_stmt s) r)) r
  | _ => Done Abort
  end.

Definition exec_block (b : block) (r : regs) : exit_result :=
  match exec_stmts (b_stmts b) r with
  | inl r' => exec_branch (b_s b) r'
  | inr o => Done o
  end.

(** Control flow through the graph: from block [q] on, until execution is done or leaves
    along one of the edges of [E]. *)
Inductive flow_result :=
| Out (e : edge_ref) (r : regs)
| Final (o : outcome).

Inductive flow (h : heap) (E : list edge_ref) : nat -> regs -> flow_result -> Prop :=
| flow_done q b r o :
    h !! q = Some b -> exec_block b r = Done o -> flow h E q r (Final o)
| flow_out q b r side r' :
    h !! q = Some b -> exec_block b r = Leave side r' -> (q, side) ∈ E ->
    flow h E q r (Out (q, side) r')
| flow_step q b r side r' q' res :
    h !! q = Some b -> exec_block b r = Leave side r' -> (q, side) ∉ E ->
    succ_of side b = Some q' -> flow h E q' r' res ->
    flow h E q r res.

(** The same as a function, for a graph with no edges left open. *)
Fixpoint graph_run (fuel : nat) (h : heap) (q : nat) (r : regs) : option outcome :=
  match fuel with
  | O => None
  | S n =>
      match h !! q with
      | None => None
      | Some b =>
          match exec_block b r with
          | Done o => Some o
          | Leave side r' =>
              match succ_of side b with
              | Some q' => graph_run n h q' r'
              | None => None
              end
          end
      end
  end.
End Semantics.

Lemma graph_run_flow p wirelen buflen fuel h q r o :
  graph_run p wirelen buflen fuel h q r = Some o -> flow p wirelen buflen h [] q r (Final o).
Proof.
  revert q r; induction fuel as [|n IH]; intros q r; cbn [graph_run]; [discriminate|].
  destruct (h !! q) as [b|] eqn:Hq; [|discriminate].
  destruct (exec_block p wirelen buflen b r) as [side r'|o'] eqn:Hx.
  - destruct (succ_of side b) as [q'|] eqn:Hs; [|discriminate]. intros Hr.
    eapply flow_step; eauto. apply not_elem_of_nil.
  - intros [= ->]. eapply flow_done; eauto.
Qed.

Lemma flow_graph_run p wirelen buflen h q r o :
  flow p wirelen buflen h [] q r (Final o) ->
  exists fuel, graph_run p wirelen buflen fuel h q r = Some o.
Proof.
  intros Hf. remember [] as E eqn:HE. remember (Final o) as res eqn:Hres.
  induction Hf as [q b r o' Hq Hx | q b r side r' Hq Hx HinE | q b r side r' q' res Hq Hx Hni Hs _ IH];
    subst.
  - injection Hres as ->. exists 1%nat. cbn. now rewrite Hq, Hx.
  - discriminate.
  - destruct (IH eq_refl) as [n Hn]. exists (S n). cbn. now rewrite Hq, Hx, Hs.
Qed.

Lemma exec_stmts_app p wirelen buflen s1 s2 r :
  exec_stmts p wirelen buflen (s1 ++ s2) r =
  match exec_stmts p wirelen buflen s1 r with
  | inl r' => exec_stmts p wirelen buflen s2 r'
  | inr o => inr o
  end.
Proof.
  revert r; induction s1 as [|n s1 IH]; intros r; [reflexivity|].
  cbn [exec_stmts app]. destruct (s_code (sn_s n) =? NOP); [apply IH|]. destruct (exec_insn _ _ _ _ _) as [d r'|o]; [|reflexivity].
  destruct (d =? 0); [apply IH|reflexivity].
Qed.
