(* ===== verification/Gencode.v ===== *)
(** * The boolean combinators of the code generator (gencode.c)

    An expression is a block pointer. Two lists of unresolved edges are threaded through
    the successor fields of the blocks: the one that starts at the block on the side its
    [sense] selects is patched to the target of "true", the other one to the target of
    "false"; the [sense] of the other blocks of a list says which of their successors is
    the link. [backpatch], [merge], [gen_and], [gen_or], [gen_not] and [close_parse] are
    modelled on the heap of blocks; a loop over a list has the number of blocks as fuel,
    and [None] stands for a dereferenced null or dangling pointer or exhausted fuel. *)
From stdpp Require Import base numbers list gmap.
From Stdlib Require Import Strings.Byte.
From S2P Require Import Prelude BpfInsn BpfFilter Icode.
Open Scope Z_scope.

(** ** Operations *)

Definition null_edge : edge := mk_edge 0 0 [] None None.

(** [new_block(code)]: zeroed memory, [head] set to the block itself. *)
Definition new_block (c : Z) (h : heap) : nat * heap :=
  let a := fresh (dom h) in
  (a, <[a := mk_block 0 [] (mk_stmt c None None 0) 0 0 0 0 0 false null_edge null_edge a None
               [] [] None 0 0 0 0 0 (replicate (Z.to_nat N_ATOMS) 0)]> h).

(** [gen_retblk(v)] *)
Definition gen_retblk (v : Z) (h : heap) : nat * heap :=
  let '(a, h1) := new_block (BPF_RET ||| BPF_K) h in
  (a, alter (set_code [] (mk_stmt (BPF_RET ||| BPF_K) None None v)) a h1).

(** [backpatch(list, target)] *)
Fixpoint backpatch (fuel : nat) (h : heap) (l : option nat) (target : nat) : option heap :=
  match l with
  | None => Some h
  | Some a =>
      match fuel with
      | O => None
      | S n =>
          b ← h !! a;
          if negb (b_sense b)
          then backpatch n (<[a := set_succ true (Some target) b]> h) (JT b) target
          else backpatch n (<[a := set_succ false (Some target) b]> h) (JF b) target
      end
  end.

(** [merge(b0, b1)] for a non-null [b0]: find the last link of the list of [b0] and store
    [b1] there. *)
Fixpoint merge (fuel : nat) (h : heap) (b0 b1 : nat) : option heap :=
  match fuel with
  | O => None
  | S n =>
      b ← h !! b0;
      let side := negb (b_sense b) in
      match succ_of side b with
      | Some a => merge n h a b1
      | None => Some (<[b0 := set_succ side (Some b1) b]> h)
      end
  end.

(** [b->sense = !b->sense] *)
Definition flip_sense (a : nat) (h : heap) : heap :=
  alter (fun b => set_sense (negb (b_sense b)) b) a h.

Definition loop_fuel (h : heap) : nat := S (size h).

(** [gen_and(b0, b1)] *)
Definition gen_and (h : heap) (b0 b1 : nat) : option heap :=
  B1 ← h !! b1;
  h ← backpatch (loop_fuel h) h (Some b0) (b_head B1);
  let h := flip_sense b0 h in
  let h := flip_sense b1 h in
  h ← merge (loop_fuel h) h b1 b0;
  let h := flip_sense b1 h in
  B0 ← h !! b0;
  Some (alter (set_head (b_head B0)) b1 h).

(** [gen_or(b0, b1)] *)
Definition gen_or (h : heap) (b0 b1 : nat) : option heap :=
  B1 ← h !! b1;
  let h := flip_sense b0 h in
  h ← backpatch (loop_fuel h) h (Some b0) (b_head B1);
  let h := flip_sense b0 h in
  h ← merge (loop_fuel h) h b1 b0;
  B0 ← h !! b0;
  Some (alter (set_head (b_head B0)) b1 h).

(** [gen_not(b)] *)
Definition gen_not (h : heap) (b : nat) : heap := flip_sense b h.

(** The end of finish_parse(p), from the calls of [backpatch] on: the root of the finished
    graph. The steps before them, for link types with headers of variable length and the
    check for PPI, are in [GenFinish.finish_parse], which calls this. *)
Definition close_parse (h : heap) (p : nat) (snaplen : Z) : option (nat * heap) :=
  let '(rt, h) := gen_retblk snaplen h in
  h ← backpatch (loop_fuel h) h (Some p) rt;
  let h := flip_sense p h in
  let '(rf, h) := gen_retblk 0 h in
  h ← backpatch (loop_fuel h) h (Some p) rf;
  P ← h !! p;
  Some (b_head P, h).

(** ** Link lists *)

Inductive chain (h : heap) : option nat -> list edge_ref -> Prop :=
| chain_nil : chain h None []
| chain_cons a b es :
    h !! a = Some b -> chain h (succ_of (negb (b_sense b)) b) es ->
    chain h (Some a) ((a, negb (b_sense b)) :: es).

Lemma chain_elem h l es q side :
  chain h l es -> (q, side) ∈ es -> exists b, h !! q = Some b /\ side = negb (b_sense b).
Proof.
  induction 1 as [|a b es Hb _ IH]; intros Hin; [now apply elem_of_nil in Hin|].
  apply elem_of_cons in Hin as [[= -> ->]|Hin]; eauto.
Qed.

Lemma chain_NoDup_fst h l es : chain h l es -> NoDup es -> NoDup es.*1.
Proof.
  intros Hc Hnd. induction Hc as [|a b es Hb Hc IH]; [constructor|].
  inversion Hnd as [|x l' Hx Hnd']; subst. cbn. constructor; [|auto].
  intros [[q side] [-> Hin]]%list_elem_of_fmap. apply Hx.
  destruct (chain_elem _ _ _ _ _ Hc Hin) as (b' & Hb' & ->). cbn in Hb.
  rewrite Hb in Hb'. injection Hb' as <-. exact Hin.
Qed.

Lemma chain_dom_length h l es : chain h l es -> NoDup es.*1 -> (length es <= size h)%nat.
Proof.
  intros Hc Hnd. pose proof (length_fmap fst es) as Hl.
  assert (list_to_set es.*1 ⊆@{gset nat} dom h) as Hsub.
  { intros q Hq%elem_of_list_to_set. apply list_elem_of_fmap in Hq as [[q' side] [-> Hin]].
    destruct (chain_elem _ _ _ _ _ Hc Hin) as (b & Hb & _). now apply elem_of_dom_2 in Hb. }
  apply subseteq_size in Hsub. rewrite size_list_to_set, size_dom in Hsub by done. lia.
Qed.

(** A list survives any change that keeps the senses and the links of its blocks. *)
Lemma chain_preserved h h' l es :
  chain h l es ->
  (forall q side b, (q, side) ∈ es -> h !! q = Some b ->
     exists b', h' !! q = Some b' /\ b_sense b' = b_sense b /\ succ_of side b' = succ_of side b) ->
  chain h' l es.
Proof.
  induction 1 as [|a b es Hb Hc IH]; intros Hsame; [constructor|].
  destruct (Hsame a (negb (b_sense b)) b) as (b' & Hb' & Hs & Hl); [now left|done|].
  rewrite <- Hs. rewrite <- Hs in Hl. econstructor; [done|]. rewrite Hl, Hs.
  apply IH. intros q side b0 Hin. apply Hsame. now right.
Qed.

(** ** [backpatch] and [merge] on a list *)

Definition patched (es : list edge_ref) (t : nat) (h h' : heap) : Prop :=
  (forall q, q ∉ es.*1 -> h' !! q = h !! q) /\
  (forall q side b, (q, side) ∈ es -> h !! q = Some b ->
     h' !! q = Some (set_succ side (Some t) b)).

Lemma backpatch_step n h a t b :
  h !! a = Some b ->
  backpatch (S n) h (Some a) t =
  backpatch n (<[a := set_succ (negb (b_sense b)) (Some t) b]> h) (succ_of (negb (b_sense b)) b) t.
Proof. intros Hb. cbn. rewrite Hb. cbn. now destruct (b_sense b). Qed.

Lemma backpatch_patched fuel h l es t :
  chain h l es -> NoDup es.*1 -> (length es <= fuel)%nat ->
  exists h', backpatch fuel h l t = Some h' /\ patched es t h h'.
Proof.
  revert h l es; induction fuel as [|n IH]; intros h l es Hc Hnd Hlen;
    destruct Hc as [|a b es Hb Hc]; cbn in Hlen.
  1,3: exists h; split; [reflexivity|]; split; [easy|]; intros q side b Hin;
       now apply elem_of_nil in Hin.
  - lia.
  - cbn in Hnd. apply NoDup_cons in Hnd as [Ha Hnd].
    rewrite (backpatch_step n h a t b Hb).
    set (h1 := <[a := set_succ (negb (b_sense b)) (Some t) b]> h).
    destruct (IH h1 (succ_of (negb (b_sense b)) b) es) as (h' & Hbp & Hsame & Hpat);
      [|done|lia|].
    { eapply chain_preserved; [exact Hc|]. intros q side b' Hin Hq. exists b'.
      unfold h1. rewrite lookup_insert_ne; [done|]. intros <-. apply Ha.
      apply list_elem_of_fmap. now exists (a, side). }
    exists h'. split; [done|]. split.
    + intros q Hq. cbn in Hq. apply not_elem_of_cons in Hq as [Hne Hq].
      rewrite (Hsame q Hq). unfold h1. now rewrite lookup_insert_ne.
    + intros q side b' Hin Hq. apply elem_of_cons in Hin as [[= -> ->]|Hin].
      * rewrite (Hsame a Ha). unfold h1. rewrite lookup_insert_eq. congruence.
      * apply (Hpat q side); [done|]. unfold h1. rewrite lookup_insert_ne; [done|].
        intros <-. apply Ha. apply list_elem_of_fmap. now exists (a, side).
Qed.

Lemma merge_last fuel h a b1 es :
  chain h (Some a) es -> (length es <= fuel)%nat ->
  exists q side b es', es = es' ++ [(q, side)] /\ h !! q = Some b /\ side = negb (b_sense b) /\
    merge fuel h a b1 = Some (<[q := set_succ side (Some b1) b]> h).
Proof.
  revert a es; induction fuel as [|n IH]; intros a es Hc Hlen;
    inversion Hc as [|a' b es' Hb Hc']; subst; cbn in Hlen; [lia|].
  cbn. rewrite Hb. cbn.
  destruct (succ_of (negb (b_sense b)) b) as [a'|] eqn:Hs.
  - destruct (IH a' es' Hc' ltac:(lia)) as (q & side & bq & es1 & -> & Hq & Hside & ->).
    exists q, side, bq, ((a, negb (b_sense b)) :: es1). auto.
  - inversion Hc'; subst. exists a, (negb (b_sense b)), b, []. auto.
Qed.
