(* ===== verification/GencodeProofs.v ===== *)
(** * Correctness of the boolean combinators

    An expression denotes a function from the registers at its head to the side it leaves
    by. [gen_and], [gen_or] and [gen_not] build the short-circuit conjunction, the
    disjunction and the negation of what their arguments denote, and [close_parse] turns
    an expression into a closed graph that returns the snapshot length when the expression
    is true and 0 when it is false. *)
From stdpp Require Import base numbers list gmap.
From Stdlib Require Import Strings.Byte.
From S2P Require Import Prelude BpfInsn BpfFilter Icode Gencode.
Open Scope Z_scope.

Definition same_code (b b' : block) : Prop := b_stmts b' = b_stmts b /\ b_s b' = b_s b.

Lemma same_code_refl b : same_code b b.
Proof. now split. Qed.

Lemma same_code_trans b1 b2 b3 : same_code b1 b2 -> same_code b2 b3 -> same_code b1 b3.
Proof. intros [H1 H2] [H3 H4]. split; congruence. Qed.

Lemma same_code_set_succ side q b : same_code b (set_succ side q b).
Proof. now destruct side. Qed.

Lemma same_code_set_sense v b : same_code b (set_sense v b).
Proof. now split. Qed.

Lemma same_code_set_head v b : same_code b (set_head v b).
Proof. now split. Qed.

#[export] Hint Resolve same_code_refl same_code_set_succ same_code_set_sense same_code_set_head : pcap.

Lemma set_succ_sense side q b : b_sense (set_succ side q b) = b_sense b.
Proof. now destruct side. Qed.

Lemma set_succ_head side q b : b_head (set_succ side q b) = b_head b.
Proof. now destruct side. Qed.

Lemma succ_of_set_sense side v b : succ_of side (set_sense v b) = succ_of side b.
Proof. now destruct side. Qed.

Lemma succ_of_set_head side v b : succ_of side (set_head v b) = succ_of side b.
Proof. now destruct side. Qed.

#[export] Hint Rewrite set_succ_sense set_succ_head succ_of_set_sense succ_of_set_head : cint.

Lemma flip_lookup_ne a q h : q <> a -> flip_sense a h !! q = h !! q.
Proof. intros Hne. unfold flip_sense. now rewrite lookup_alter_ne. Qed.

Lemma flip_lookup_eq a h b :
  h !! a = Some b -> flip_sense a h !! a = Some (set_sense (negb (b_sense b)) b).
Proof. intros Hb. unfold flip_sense. now rewrite lookup_alter_eq, Hb. Qed.

Lemma set_sense_back b v : set_sense (b_sense b) (set_sense v b) = b.
Proof. now destruct b. Qed.

Lemma flip_flip a h : flip_sense a (flip_sense a h) = h.
Proof.
  apply map_eq. intros q. destruct (decide (q = a)) as [->|Hne].
  - destruct (h !! a) as [b|] eqn:Hb.
    + rewrite (flip_lookup_eq a _ (set_sense (negb (b_sense b)) b)) by now apply flip_lookup_eq.
      cbn. now rewrite negb_involutive, set_sense_back.
    + unfold flip_sense. now rewrite !lookup_alter_eq, Hb.
  - now rewrite !flip_lookup_ne.
Qed.

Lemma flip_size a h : size (flip_sense a h) = size h.
Proof. unfold flip_sense. rewrite <- !size_dom. f_equal. apply dom_alter_L. Qed.

Section Denotation.
Context (p : list byte) (wirelen buflen : Z).
#[local] Abbreviation flow := (flow p wirelen buflen).
#[local] Abbreviation exec_block := (exec_block p wirelen buflen).

Lemma exec_block_same b b' r : same_code b b' -> exec_block b' r = exec_block b r.
Proof. intros [Hs Hb]. unfold Icode.exec_block. now rewrite Hs, Hb. Qed.

(** ** Moving an execution to a changed heap *)

Definition resumes (h : heap) (E : list edge_ref) (e : edge_ref) (r : regs) (res : flow_result) :=
  (e ∈ E /\ res = Out e r) \/
  ((e ∉ E) /\ exists b t, h !! e.1 = Some b /\ succ_of e.2 b = Some t /\ flow h E t r res).

Definition keeps (h : heap) (E : list edge_ref) (h' : heap) (E' : list edge_ref) (S : gset nat) :=
  forall a b, a ∈ S -> h !! a = Some b ->
    exists b', h' !! a = Some b' /\ same_code b b' /\
      forall side, (a, side) ∉ E ->
        ((a, side) ∉ E') /\ succ_of side b' = succ_of side b /\
        forall q, succ_of side b = Some q -> q ∈ S.

Lemma flow_transfer h E h' E' S q r res :
  flow h E q r res -> q ∈ S -> keeps h E h' E' S ->
  match res with
  | Final o => flow h' E' q r (Final o)
  | Out e r' => forall res', resumes h' E' e r' res' -> flow h' E' q r res'
  end.
Proof.
  intros Hf HS Hk.
  induction Hf as [q b r o Hq Hx | q b r side r' Hq Hx Hin | q b r side r' q' res Hq Hx Hni Hs Hf IH];
    destruct (Hk q b HS Hq) as (b' & Hb' & Hsc & He).
  - eapply flow_done; [done|]. now rewrite (exec_block_same b b').
  - intros res' [[Hin' ->]|(Hni & b2 & t & Hb2 & Ht & Hf)]; cbn in *.
    + eapply flow_out; [done| |done]. now rewrite (exec_block_same b b').
    + rewrite Hb' in Hb2. injection Hb2 as <-.
      eapply flow_step; [done| |done|done|done]. now rewrite (exec_block_same b b').
  - destruct (He side Hni) as (Hni' & Hs' & HinS).
    assert (forall res', flow h' E' q' r' res' -> flow h' E' q r res') as Hstep.
    { intros res' Hf'. eapply flow_step; [done| |done| |done].
      - now rewrite (exec_block_same b b').
      - congruence. }
    specialize (IH (HinS _ Hs)). destruct res; auto.
Qed.

(** ** Expressions *)

(** The resolved edges inside [S] go down: control cannot loop. *)
Definition acyclic (h : heap) (S : gset nat) (E : list edge_ref) : Prop :=
  exists rank n, forall q b, q ∈ S -> h !! q = Some b ->
    (rank q < n)%nat /\
    forall (side : bool) q', (q, side) ∉ E -> succ_of side b = Some q' -> (rank q' < rank q)%nat.

Lemma acyclic_change h E h' E' (S : gset nat) :
  acyclic h S E ->
  (forall q b', q ∈ S -> h' !! q = Some b' -> exists b, h !! q = Some b /\
     forall side, (q, side) ∉ E' -> ((q, side) ∉ E) /\ succ_of side b' = succ_of side b) ->
  acyclic h' S E'.
Proof.
  intros (rank & n & Hr) Hc. exists rank, n. intros q b' Hq Hb'.
  destruct (Hc q b' Hq Hb') as (b & Hb & Hs). destruct (Hr q b Hq Hb) as [Hn Hd]. split; [done|].
  intros side q' Hni Ht. destruct (Hs side Hni) as [Hni0 Ht0]. apply (Hd side q' Hni0). congruence.
Qed.

Record bool_expr (h : heap) (a : nat) (S : gset nat) (T F : list edge_ref) (hd : nat) : Prop := {
  ex_lists : exists b T' F', h !! a = Some b /\ b_head b = hd /\
    T = (a, negb (b_sense b)) :: T' /\ F = (a, b_sense b) :: F' /\
    chain h (succ_of (negb (b_sense b)) b) T' /\ chain h (succ_of (b_sense b) b) F';
  ex_nodup : NoDup (T ++ F);
  ex_in : a ∈ S;
  ex_head : hd ∈ S;
  ex_edges : forall e, e ∈ T ++ F -> e.1 ∈ S;
  ex_closed : forall q, q ∈ S -> exists b, h !! q = Some b /\
    forall side, (q, side) ∉ T ++ F -> exists q', succ_of side b = Some q' /\ q' ∈ S;
  ex_acyclic : acyclic h S (T ++ F)
}.

(** The registers at the head of the expression, to the side it leaves by. *)
Definition meaning := regs -> exit_result.

Definition denotes (h : heap) (a : nat) (S : gset nat) (T F : list edge_ref) (D : meaning) : Prop :=
  exists hd, bool_expr h a S T F hd /\
    forall r, match D r with
              | Leave true r' => exists e, e ∈ T /\ flow h (T ++ F) hd r (Out e r')
              | Leave false r' => exists e, e ∈ F /\ flow h (T ++ F) hd r (Out e r')
              | Done o => flow h (T ++ F) hd r (Final o)
              end.

Definition m_not (D : meaning) : meaning := fun r =>
  match D r with Leave side r' => Leave (negb side) r' | Done o => Done o end.
Definition m_and (D0 D1 : meaning) : meaning := fun r =>
  match D0 r with
  | Leave true r' => D1 r'
  | Leave false r' => Leave false r'
  | Done o => Done o
  end.
Definition m_or (D0 D1 : meaning) : meaning := fun r =>
  match D0 r with
  | Leave true r' => Leave true r'
  | Leave false r' => D1 r'
  | Done o => Done o
  end.

Lemma expr_chain h a S T F hd : bool_expr h a S T F hd -> chain h (Some a) T.
Proof. intros [(b & T' & F' & Hb & _ & -> & _ & HT & _) _ _ _ _ _]. now constructor. Qed.

Lemma expr_own_not_in h a b l es :
  h !! a = Some b -> chain h l es -> (a, negb (b_sense b)) ∉ es -> a ∉ es.*1.
Proof.
  intros Hb Hc Hni [[q side] [-> Hin]]%list_elem_of_fmap. cbn in *.
  destruct (chain_elem _ _ _ _ _ Hc Hin) as (b' & Hb' & ->). congruence.
Qed.

(** Lists that avoid [a] survive a flip of [a]. *)
Lemma chain_flip h a l es : chain h l es -> a ∉ es.*1 -> chain (flip_sense a h) l es.
Proof.
  intros Hc Ha. eapply chain_preserved; [exact Hc|]. intros q side b Hin Hq. exists b.
  rewrite flip_lookup_ne; [done|]. intros ->. apply Ha. apply list_elem_of_fmap.
  now exists (a, side).
Qed.

Lemma expr_flip h a S T F hd : bool_expr h a S T F hd -> bool_expr (flip_sense a h) a S F T hd.
Proof.
  intros [(b & T' & F' & Hb & Hhd & -> & -> & HT & HF) Hnd Ha Hh He Hcl Hac].
  assert ((a, negb (b_sense b)) ∉ T' ++ (a, b_sense b) :: F') as Hni
    by (now apply NoDup_cons in Hnd as [? _]).
  apply not_elem_of_app in Hni as [HnT Hni]. apply not_elem_of_cons in Hni as [_ HnF].
  constructor; auto.
  - exists (set_sense (negb (b_sense b)) b), F', T'. cbn. rewrite negb_involutive.
    rewrite !succ_of_set_sense. repeat split; auto using flip_lookup_eq.
    + apply chain_flip; [done|]. eapply expr_own_not_in; eauto.
    + apply chain_flip; [done|]. eapply expr_own_not_in; eauto.
  - apply NoDup_app in Hnd as (H1 & H2 & H3). apply NoDup_app. repeat split; auto.
    intros x Hx Hx'. exact (H2 x Hx' Hx).
  - intros e Hin. apply He. rewrite elem_of_app in *. tauto.
  - intros q Hq. destruct (Hcl q Hq) as (bq & Hbq & Hs).
    destruct (decide (q = a)) as [->|Hne].
    + rewrite Hb in Hbq. injection Hbq as <-. eexists. split; [exact (flip_lookup_eq a h b Hb)|].
      intros side Hside. rewrite succ_of_set_sense. apply Hs. rewrite elem_of_app in *. tauto.
    + exists bq. rewrite flip_lookup_ne by done. split; [done|].
      intros side Hside. apply Hs. rewrite elem_of_app in *. tauto.
  - eapply acyclic_change; [exact Hac|]. intros q b' Hq Hb'. unfold flip_sense in Hb'.
    apply lookup_alter_Some in Hb' as [(-> & b0 & Hb0 & ->)|[_ Hb']]; eexists; (split; [eassumption|]);
      intros side Hni; rewrite ?succ_of_set_sense; (split; [|done]); intros Hin; apply Hni; rewrite elem_of_app in *; tauto.
Qed.

Lemma flip_keeps h a S T F hd :
  bool_expr h a S T F hd -> keeps h (T ++ F) (flip_sense a h) (F ++ T) S.
Proof.
  intros Hex q b Hq Hb. destruct (ex_closed _ _ _ _ _ _ Hex q Hq) as (b0 & Hb0 & Hs).
  rewrite Hb in Hb0. injection Hb0 as <-.
  exists (if decide (q = a) then set_sense (negb (b_sense b)) b else b). split; [|split].
  - case_decide; [subst; now apply flip_lookup_eq|now rewrite flip_lookup_ne].
  - case_decide; auto with pcap.
  - intros side Hside. split; [rewrite elem_of_app in *; tauto|]. split.
    + case_decide; [apply succ_of_set_sense|done].
    + intros q' Hq'. destruct (Hs side Hside) as (q2 & Hq2 & HqS). congruence.
Qed.

(** Flipping the sense of the block negates the expression. *)
Lemma denotes_flip h a S T F D :
  denotes h a S T F D -> denotes (flip_sense a h) a S F T (m_not D).
Proof.
  intros (hd & Hex & HD). exists hd. split; [now apply expr_flip|].
  intros r. specialize (HD r). pose proof (flip_keeps _ _ _ _ _ _ Hex) as Hk.
  pose proof (ex_head _ _ _ _ _ _ Hex) as Hh. unfold m_not.
  destruct (D r) as [[] r'|o].
  1,2: destruct HD as (e & He & Hf); exists e; split; [done|];
       apply (flow_transfer _ _ _ _ _ _ _ _ Hf Hh Hk); left; split; [|done];
       rewrite elem_of_app; auto.
  exact (flow_transfer _ _ _ _ _ _ _ _ HD Hh Hk).
Qed.

(** An expression does not see changes outside its blocks. *)
Lemma expr_frame h h' a S T F hd :
  bool_expr h a S T F hd -> (forall q, q ∈ S -> h' !! q = h !! q) -> bool_expr h' a S T F hd.
Proof.
  intros Hex Hsame.
  assert (forall l es, chain h l es -> (forall e, e ∈ es -> e.1 ∈ S) -> chain h' l es) as Hch.
  { intros l es Hc He. eapply chain_preserved; [exact Hc|]. intros q side b Hin Hq. exists b.
    rewrite Hsame; [done|]. exact (He _ Hin). }
  destruct Hex as [(b & T' & F' & Hb & Hhd & -> & -> & HT & HF) Hnd Ha Hh He Hcl Hac].
  constructor; auto.
  - exists b, T', F'. rewrite Hsame by done. repeat split; auto.
    + apply Hch; [done|]. intros e Hin. apply He. rewrite elem_of_app. left. now right.
    + apply Hch; [done|]. intros e Hin. apply He. rewrite elem_of_app. right. now right.
  - intros q Hq. rewrite Hsame by done. auto.
  - eapply acyclic_change; [exact Hac|]. intros q b' Hq Hb'. exists b'. now rewrite <- (Hsame q Hq).
Qed.

Lemma denotes_frame h h' a S T F D :
  denotes h a S T F D -> (forall q, q ∈ S -> h' !! q = h !! q) -> denotes h' a S T F D.
Proof.
  intros (hd & Hex & HD) Hsame.
  assert (keeps h (T ++ F) h' (T ++ F) S) as Hk.
  { intros q b Hq Hb. exists b. rewrite Hsame by done. split; [done|]. split; [auto with pcap|].
    intros side Hside. split; [done|]. split; [done|]. intros q' Hq'.
    destruct (ex_closed _ _ _ _ _ _ Hex q Hq) as (b0 & Hb0 & Hs).
    destruct (Hs side Hside) as (q2 & Hq2 & ?). congruence. }
  exists hd. split; [now apply (expr_frame h)|].
  pose proof (ex_head _ _ _ _ _ _ Hex) as Hh. intros r. specialize (HD r).
  destruct (D r) as [[] r'|o].
  1,2: destruct HD as (e & He & Hf); exists e; split; [done|];
       apply (flow_transfer _ _ _ _ _ _ _ _ Hf Hh Hk); left; split; [|done];
       rewrite elem_of_app; auto.
  exact (flow_transfer _ _ _ _ _ _ _ _ HD Hh Hk).
Qed.

(** ** Joining two expressions

    The common core of [gen_and] and [gen_or]: the own list of [b0] is patched to the head
    of [b1], then the own list of [b1] is continued with the other list of [b0]. *)
Definition splice (h : heap) (b0 b1 hd1 : nat) : option heap :=
  h ← backpatch (loop_fuel h) h (Some b0) hd1;
  let h := flip_sense b0 h in
  h ← merge (loop_fuel h) h b1 b0;
  B0 ← h !! b0;
  Some (alter (set_head (b_head B0)) b1 h).

Definition m_splice (D0 D1 : meaning) : meaning := fun r =>
  match D0 r with
  | Leave true r' => D1 r'
  | Leave false r' => Leave true r'
  | Done o => Done o
  end.

Lemma expr_block h a S T F hd :
  bool_expr h a S T F hd -> exists b, h !! a = Some b /\ b_head b = hd.
Proof. intros [(b & T' & F' & Hb & Hhd & _)]; eauto. Qed.

Lemma expr_own_nodup h a S T F hd : bool_expr h a S T F hd -> NoDup T.*1.
Proof.
  intros Hex. eapply chain_NoDup_fst; [exact (expr_chain _ _ _ _ _ _ Hex)|].
  now apply ex_nodup, NoDup_app in Hex as (? & _).
Qed.

Lemma expr_own_in h a S T F hd q : bool_expr h a S T F hd -> q ∈ T.*1 -> q ∈ S.
Proof.
  intros Hex [[q' side] [-> Hin]]%list_elem_of_fmap.
  apply (ex_edges _ _ _ _ _ _ Hex (q', side)). rewrite elem_of_app. now left.
Qed.

Lemma patched_succ es t h h' q b :
  patched es t h h' -> NoDup es.*1 -> h !! q = Some b ->
  exists b', h' !! q = Some b' /\ same_code b b' /\ b_sense b' = b_sense b /\ b_head b' = b_head b /\
    forall side, succ_of side b' = (if decide ((q, side) ∈ es) then Some t else succ_of side b).
Proof.
  intros [Hsame Hpat] Hnd Hq. destruct (decide (q ∈ es.*1)) as [Hin|Hni].
  - apply list_elem_of_fmap in Hin as [[q' s'] [E Hin]]. cbn in E. subst q'.
    exists (set_succ s' (Some t) b). split; [now apply Hpat|].
    rewrite set_succ_sense, set_succ_head. repeat split; try apply same_code_set_succ.
    intros side. case_decide as Hd.
    + assert (s' = side) as ->; [|apply succ_of_set_succ_eq].
      destruct (decide (s' = side)); [done|exfalso].
      apply elem_of_Permutation in Hin as [es' Hp]. rewrite Hp in Hnd, Hd. cbn in Hnd.
      apply NoDup_cons in Hnd as [Hnn _]. apply elem_of_cons in Hd as [[=]|Hd]; [congruence|].
      apply Hnn. apply list_elem_of_fmap. now exists (q, side).
    + apply succ_of_set_succ_ne. intros ->. now apply Hd.
  - exists b. rewrite Hsame by done. repeat split; auto. intros side.
    case_decide as Hd; [|done]. exfalso. apply Hni. apply list_elem_of_fmap. now exists (q, side).
Qed.

Lemma flip_succ h c q b :
  h !! q = Some b ->
  exists b', flip_sense c h !! q = Some b' /\ same_code b b' /\
    b_sense b' = (if decide (q = c) then negb (b_sense b) else b_sense b) /\ b_head b' = b_head b /\
    forall side, succ_of side b' = succ_of side b.
Proof.
  intros Hq. case_decide as Hd.
  - subst c. eexists. split; [exact (flip_lookup_eq q h b Hq)|].
    repeat split; intros side; apply succ_of_set_sense.
  - exists b. rewrite flip_lookup_ne by done. auto with pcap.
Qed.

Lemma chain_continue g g' l es lst c es2 :
  chain g l (es ++ [lst]) -> NoDup (es ++ [lst]).*1 ->
  (forall q side b, (q, side) ∈ es ++ [lst] -> g !! q = Some b ->
     exists b', g' !! q = Some b' /\ b_sense b' = b_sense b /\
       succ_of side b' = (if decide ((q, side) = lst) then Some c else succ_of side b)) ->
  chain g' (Some c) es2 -> chain g' l ((es ++ [lst]) ++ es2).
Proof.
  revert l; induction es as [|e es IH]; intros l Hc Hnd Hk Hc2; cbn [app] in *;
    inversion Hc as [|a b es' Hb Hc' El]; subst.
  - destruct (Hk a (negb (b_sense b)) b) as (b' & Hb' & Hs & Hl); [now left|done|].
    rewrite decide_True in Hl by done. rewrite <- Hs in Hl |- *.
    econstructor; [done|]. now rewrite Hl.
  - destruct (Hk a (negb (b_sense b)) b) as (b' & Hb' & Hs & Hl); [now left|done|].
    cbn in Hnd. apply NoDup_cons in Hnd as [Ha Hnd].
    rewrite decide_False in Hl.
    + rewrite <- Hs. econstructor; [done|]. rewrite Hs, Hl. apply IH; auto.
      intros q side b0 Hin. apply Hk. now right.
    + intros <-. apply Ha. rewrite fmap_app, elem_of_app. right. now left.
Qed.

Section Splice.
Context (h : heap) (b0 b1 : nat) (S0 S1 : gset nat) (P Q M N : list edge_ref) (hd0 hd1 : nat).
Context (H0 : bool_expr h b0 S0 P Q hd0) (H1 : bool_expr h b1 S1 M N hd1) (Hdis : S0 ## S1).

(** The heap after the join, block by block. *)
Lemma splice_pointwise :
  exists h' M' lst, splice h b0 b1 hd1 = Some h' /\ M = M' ++ [lst] /\
    (forall q, q ∉ S0 ∪ S1 -> h' !! q = h !! q) /\
    (forall q b, q ∈ S0 -> h !! q = Some b ->
       exists b', h' !! q = Some b' /\ same_code b b' /\
         b_sense b' = (if decide (q = b0) then negb (b_sense b) else b_sense b) /\
         forall side, succ_of side b' = (if decide ((q, side) ∈ P) then Some hd1 else succ_of side b)) /\
    (forall q b, q ∈ S1 -> h !! q = Some b ->
       exists b', h' !! q = Some b' /\ same_code b b' /\ b_sense b' = b_sense b /\
         b_head b' = (if decide (q = b1) then hd0 else b_head b) /\
         forall side, succ_of side b' = (if decide ((q, side) = lst) then Some b0 else succ_of side b)).
Proof.
  pose proof (expr_chain _ _ _ _ _ _ H0) as Hc0. pose proof (expr_chain _ _ _ _ _ _ H1) as Hc1.
  pose proof (expr_own_nodup _ _ _ _ _ _ H0) as Hn0.
  pose proof (expr_own_nodup _ _ _ _ _ _ H1) as Hn1.
  pose proof (ex_in _ _ _ _ _ _ H0) as Hb0S. pose proof (ex_in _ _ _ _ _ _ H1) as Hb1S.
  assert (b0 <> b1) as Hne by set_solver.
  pose proof (chain_dom_length _ _ _ Hc0 Hn0) as Hl0.
  destruct (backpatch_patched (loop_fuel h) h (Some b0) P hd1 Hc0 Hn0) as (h1 & Hbp & Hp1);
    [unfold loop_fuel; lia|].
  assert (forall q, q ∈ S1 -> flip_sense b0 h1 !! q = h !! q) as HS1.
  { intros q Hq. rewrite flip_lookup_ne by set_solver. apply (proj1 Hp1).
    intros Hin%(expr_own_in _ _ _ _ _ _ _ H0). set_solver. }
  assert (chain (flip_sense b0 h1) (Some b1) M) as Hc1'.
  { eapply chain_preserved; [exact Hc1|]. intros q side b Hin Hq. exists b.
    rewrite HS1; [done|]. apply (ex_edges _ _ _ _ _ _ H1 (q, side)). rewrite elem_of_app. now left. }
  destruct (merge_last (loop_fuel (flip_sense b0 h1)) _ b1 b0 M Hc1')
    as (q & side & b & M' & HM & Hq & Hside & Hm).
  { pose proof (chain_dom_length _ _ _ Hc1' Hn1). unfold loop_fuel. lia. }
  assert (q ∈ S1) as HqS1.
  { apply (ex_edges _ _ _ _ _ _ H1 (q, side)). rewrite HM, !elem_of_app. left. right. now left. }
  destruct (expr_block _ _ _ _ _ _ H0) as (B0 & HB0 & Hhd0).
  destruct (patched_succ P hd1 h h1 b0 B0 Hp1 Hn0 HB0) as (B1 & HB1 & _ & _ & Hh1 & _).
  destruct (flip_succ h1 b0 b0 B1 HB1) as (B2 & HB2 & _ & _ & Hh2 & _).
  set (h2 := <[q := set_succ side (Some b0) b]> (flip_sense b0 h1)) in *.
  assert (h2 !! b0 = Some B2) as HB3 by (unfold h2; rewrite lookup_insert_ne by set_solver; done).
  exists (alter (set_head (b_head B2)) b1 h2), M', (q, side).
  split; [|split; [done|]].
  { unfold splice. rewrite Hbp. cbv [mbind option_bind]. rewrite Hm, HB3. reflexivity. }
  assert (b_head B2 = hd0) as -> by congruence.
  repeat split.
  - intros x Hx. rewrite lookup_alter_ne by set_solver. unfold h2.
    rewrite lookup_insert_ne by set_solver. rewrite flip_lookup_ne by set_solver.
    apply (proj1 Hp1). intros Hin%(expr_own_in _ _ _ _ _ _ _ H0). set_solver.
  - intros x bx Hx Hbx. rewrite lookup_alter_ne by set_solver. unfold h2.
    rewrite lookup_insert_ne by set_solver.
    destruct (patched_succ P hd1 h h1 x bx Hp1 Hn0 Hbx) as (c1 & Hc1x & Hsc1 & Hse1 & _ & Hsu1).
    destruct (flip_succ h1 b0 x c1 Hc1x) as (c2 & Hc2x & Hsc2 & Hse2 & _ & Hsu2).
    exists c2. split; [done|]. split; [exact (same_code_trans _ _ _ Hsc1 Hsc2)|].
    split; [rewrite Hse2; case_decide; congruence|]. intros sd. now rewrite Hsu2.
  - intros x bx Hx Hbx.
    assert (flip_sense b0 h1 !! x = Some bx) as Hx1 by now rewrite HS1.
    assert (exists c, h2 !! x = Some c /\ same_code bx c /\ b_sense c = b_sense bx /\
              b_head c = b_head bx /\
              forall sd, succ_of sd c = (if decide ((x, sd) = (q, side)) then Some b0 else succ_of sd bx))
      as (c & Hcx & Hsc & Hse & Hhe & Hsu).
    { unfold h2. destruct (decide (x = q)) as [->|Hxq].
      - rewrite Hx1 in Hq. injection Hq as ->.
        exists (set_succ side (Some b0) b). rewrite lookup_insert_eq, set_succ_sense, set_succ_head.
        repeat split; try apply same_code_set_succ. intros sd. case_decide as Hd.
        + injection Hd as ->. apply succ_of_set_succ_eq.
        + apply succ_of_set_succ_ne. congruence.
      - exists bx. rewrite lookup_insert_ne by done. repeat split; auto. intros sd.
        case_decide; [congruence|done]. }
    destruct (decide (x = b1)) as [->|Hxb].
    + exists (set_head hd0 c). rewrite lookup_alter_eq, Hcx. repeat split; try apply Hsc; auto.
      all: intros sd; now rewrite succ_of_set_head.
    + exists c. rewrite lookup_alter_ne by done. auto.
Qed.

Lemma P_Q_disjoint e : e ∈ P -> e ∈ Q -> False.
Proof. intros HP HQ. apply ex_nodup, NoDup_app in H0 as (_ & Hd & _). exact (Hd e HP HQ). Qed.

Lemma S0_edge q side : q ∈ S0 -> (q, side) ∈ (M ++ Q) ++ N -> (q, side) ∈ Q.
Proof.
  intros Hq. rewrite !elem_of_app. intros [[HM|HQ]|HN]; [|done|];
    pose proof (ex_edges _ _ _ _ _ _ H1 (q, side)) as He; rewrite elem_of_app in He; cbn in He;
    set_solver.
Qed.

Lemma S1_edge q side : q ∈ S1 -> (q, side) ∈ (M ++ Q) ++ N -> (q, side) ∈ M ++ N.
Proof.
  intros Hq. rewrite !elem_of_app. intros [[HM|HQ]|HN]; [auto| |auto];
    pose proof (ex_edges _ _ _ _ _ _ H0 (q, side)) as He; rewrite elem_of_app in He; cbn in He;
    set_solver.
Qed.

Lemma splice_nodup : NoDup ((M ++ Q) ++ N).
Proof.
  pose proof (ex_nodup _ _ _ _ _ _ H0) as Hn0. pose proof (ex_nodup _ _ _ _ _ _ H1) as Hn1.
  apply NoDup_app in Hn0 as (_ & _ & HQ). apply NoDup_app in Hn1 as (HM & Hd & HN).
  pose proof (ex_edges _ _ _ _ _ _ H0) as He0. pose proof (ex_edges _ _ _ _ _ _ H1) as He1.
  assert (forall e, e ∈ Q -> e ∈ M ++ N -> False) as Hsep.
  { intros e Hq Hmn. specialize (He0 e). pose proof (He1 e Hmn) as Hin. rewrite elem_of_app in He0.
    clear Hmn He1. set_solver. }
  apply NoDup_app. repeat split; [apply NoDup_app; repeat split|..]; auto.
  - intros e Hm Hq. apply (Hsep e Hq). rewrite elem_of_app. now left.
  - intros e Hmq Hn. apply elem_of_app in Hmq as [Hm|Hq]; [exact (Hd e Hm Hn)|].
    apply (Hsep e Hq). rewrite elem_of_app. now right.
Qed.

Section Result.
Context (h' : heap) (M' : list edge_ref) (lst : edge_ref) (HM : M = M' ++ [lst]).
Context (HS0 : forall q b, q ∈ S0 -> h !! q = Some b ->
  exists b', h' !! q = Some b' /\ same_code b b' /\
    b_sense b' = (if decide (q = b0) then negb (b_sense b) else b_sense b) /\
    forall side, succ_of side b' = (if decide ((q, side) ∈ P) then Some hd1 else succ_of side b)).
Context (HS1 : forall q b, q ∈ S1 -> h !! q = Some b ->
  exists b', h' !! q = Some b' /\ same_code b b' /\ b_sense b' = b_sense b /\
    b_head b' = (if decide (q = b1) then hd0 else b_head b) /\
    forall side, succ_of side b' = (if decide ((q, side) = lst) then Some b0 else succ_of side b)).

Lemma lst_in_M : lst ∈ M.
Proof. rewrite HM, elem_of_app. right. now left. Qed.

Lemma splice_chain_Q : chain h' (Some b0) Q.
Proof.
  pose proof (ex_edges _ _ _ _ _ _ H0) as He. pose proof (ex_in _ _ _ _ _ _ H0) as Hin.
  destruct (ex_lists _ _ _ _ _ _ H0) as (B0 & P' & Q' & HB0 & _ & EP & EQ & _ & HQ).
  destruct (HS0 b0 B0 Hin HB0) as (b' & Hb' & _ & Hs & Hsu).
  rewrite decide_True in Hs by done.
  assert ((b0, b_sense B0) ∉ P) as HnP.
  { intros HinP. apply (P_Q_disjoint (b0, b_sense B0) HinP). rewrite EQ. now left. }
  assert (b0 ∉ Q'.*1) as HnQ.
  { eapply expr_own_not_in; [exact HB0|exact HQ|]. intros HinQ.
    apply (P_Q_disjoint (b0, negb (b_sense B0))); [rewrite EP; now left|rewrite EQ; now right]. }
  rewrite EQ. replace (b_sense B0) with (negb (b_sense b')) by (rewrite Hs; apply negb_involutive).
  constructor; [done|]. rewrite Hs, negb_involutive, Hsu, decide_False by done.
  eapply chain_preserved; [exact HQ|]. intros q side b Hq Hb.
  assert (q ∈ S0) as HqS by (apply (He (q, side)); rewrite EQ, elem_of_app; right; now right).
  destruct (HS0 q b HqS Hb) as (c & Hc & _ & Hcs & Hcu). exists c. split; [done|].
  assert (q <> b0) as Hqb.
  { intros ->. apply HnQ. apply list_elem_of_fmap. now exists (b0, side). }
  assert ((q, side) ∉ P) as HqP.
  { intros HinP. apply (P_Q_disjoint (q, side) HinP). rewrite EQ. now right. }
  rewrite decide_False in Hcs by done. now rewrite Hcu, decide_False.
Qed.

Lemma splice_lists : exists b T' F', h' !! b1 = Some b /\ b_head b = hd0 /\
    M ++ Q = (b1, negb (b_sense b)) :: T' /\ N = (b1, b_sense b) :: F' /\
    chain h' (succ_of (negb (b_sense b)) b) T' /\ chain h' (succ_of (b_sense b) b) F'.
Proof.
  pose proof (ex_edges _ _ _ _ _ _ H1) as He. pose proof (ex_in _ _ _ _ _ _ H1) as Hin.
  pose proof (ex_nodup _ _ _ _ _ _ H1) as Hnd. apply NoDup_app in Hnd as (_ & Hd & _).
  assert (chain h' (Some b1) (M ++ Q)) as HMQ.
  { rewrite HM. eapply chain_continue with (g := h).
    - rewrite <- HM. exact (expr_chain _ _ _ _ _ _ H1).
    - rewrite <- HM. exact (expr_own_nodup _ _ _ _ _ _ H1).
    - intros q side b Hq Hb. rewrite <- HM in Hq.
      assert (q ∈ S1) as HqS by (apply (He (q, side)); rewrite elem_of_app; now left).
      destruct (HS1 q b HqS Hb) as (c & Hc & _ & Hs & _ & Hu). eauto.
    - exact splice_chain_Q. }
  destruct (ex_lists _ _ _ _ _ _ H1) as (B1 & M0 & N0 & HB1 & _ & EM & EN & _ & HN).
  destruct (HS1 b1 B1 Hin HB1) as (c & Hc & _ & Hs & Hh & Hu).
  rewrite decide_True in Hh by done.
  inversion HMQ as [|a b es Hb Hes Ea EMQ]; subst a. rewrite Hc in Hb. injection Hb as <-.
  exists c, es, N0. rewrite Hs in EMQ, Hes |- *. repeat split; auto.
  rewrite Hu, decide_False.
  - eapply chain_preserved; [exact HN|]. intros q side b Hq Hb.
    assert (q ∈ S1) as HqS by (apply (He (q, side)); rewrite EN, elem_of_app; right; now right).
    destruct (HS1 q b HqS Hb) as (d & Hd' & _ & Hds & _ & Hdu). exists d. repeat split; auto.
    rewrite Hdu, decide_False; [done|]. intros E. apply (Hd lst lst_in_M). rewrite <- E, EN. now right.
  - intros E. apply (Hd lst lst_in_M). rewrite <- E, EN. now left.
Qed.

Lemma splice_keeps0 : keeps h (P ++ Q) h' ((M ++ Q) ++ N) S0.
Proof.
  intros q b Hq Hb. destruct (HS0 q b Hq Hb) as (b' & Hb' & Hsc & _ & Hu).
  exists b'. split; [done|]. split; [done|]. intros side Hni.
  apply not_elem_of_app in Hni as [HnP HnQ]. split; [|split].
  - intros Hin. exact (HnQ (S0_edge q side Hq Hin)).
  - now rewrite Hu, decide_False.
  - intros q' Hq'. destruct (ex_closed _ _ _ _ _ _ H0 q Hq) as (c & Hc & Hs).
    destruct (Hs side) as (q2 & Hq2 & ?); [now rewrite not_elem_of_app|]. congruence.
Qed.

Lemma splice_keeps1 : keeps h (M ++ N) h' ((M ++ Q) ++ N) S1.
Proof.
  intros q b Hq Hb. destruct (HS1 q b Hq Hb) as (b' & Hb' & Hsc & _ & _ & Hu).
  exists b'. split; [done|]. split; [done|]. intros side Hni. split; [|split].
  - intros Hin. exact (Hni (S1_edge q side Hq Hin)).
  - rewrite Hu, decide_False; [done|]. intros E. apply Hni. rewrite E, elem_of_app. left.
    exact lst_in_M.
  - intros q' Hq'. destruct (ex_closed _ _ _ _ _ _ H1 q Hq) as (c & Hc & Hs).
    destruct (Hs side Hni) as (q2 & Hq2 & ?). congruence.
Qed.

Lemma splice_acyclic : acyclic h' (S0 ∪ S1) ((M ++ Q) ++ N).
Proof.
  destruct (ex_acyclic _ _ _ _ _ _ H0) as (rank0 & n0 & Hr0).
  destruct (ex_acyclic _ _ _ _ _ _ H1) as (rank1 & n1 & Hr1). pose proof (ex_head _ _ _ _ _ _ H1) as Hh.
  exists (fun q => if decide (q ∈ S0) then (n1 + rank0 q)%nat else rank1 q), (n0 + n1)%nat.
  intros q b' Hq Hb'. destruct (decide (q ∈ S0)) as [Hq0|Hn0].
  - destruct (ex_closed _ _ _ _ _ _ H0 q Hq0) as (b & Hb & Hcl). destruct (Hr0 q b Hq0 Hb) as [Hlt Hd].
    destruct (HS0 q b Hq0 Hb) as (c & Hc & _ & _ & Hu). replace c with b' in * by congruence.
    split; [lia|]. intros side q' Hni. rewrite Hu. case_decide as HP.
    + intros [= <-]. rewrite decide_False by (intros Hin; exact (Hdis _ Hin Hh)).
      destruct (ex_closed _ _ _ _ _ _ H1 hd1 Hh) as (bh & Hbh & _). destruct (Hr1 hd1 bh Hh Hbh). lia.
    + intros Hs. assert ((q, side) ∉ P ++ Q) as HPQ by (rewrite !not_elem_of_app in *; tauto).
      destruct (Hcl side HPQ) as (q2 & Hq2 & Hin). replace q2 with q' in * by congruence.
      rewrite decide_True by done. specialize (Hd side q' HPQ Hs). lia.
  - assert (q ∈ S1) as Hq1 by (apply elem_of_union in Hq; tauto).
    destruct (ex_closed _ _ _ _ _ _ H1 q Hq1) as (b & Hb & Hcl). destruct (Hr1 q b Hq1 Hb) as [Hlt Hd].
    destruct (splice_keeps1 q b Hq1 Hb) as (c & Hc & _ & Hu). replace c with b' in * by congruence.
    split; [lia|]. intros side q' Hni Hs.
    assert ((q, side) ∉ M ++ N) as Hmn by (rewrite !not_elem_of_app in *; tauto).
    destruct (Hu side Hmn) as (_ & Hs' & _). destruct (Hcl side Hmn) as (q2 & Hq2 & Hin).
    replace q2 with q' in * by congruence. rewrite decide_False by (intros Hin0; exact (Hdis _ Hin0 Hin)). apply (Hd side q' Hmn). congruence.
Qed.

Lemma splice_expr : bool_expr h' b1 (S0 ∪ S1) (M ++ Q) N hd0.
Proof.
  pose proof (ex_edges _ _ _ _ _ _ H0) as He0. pose proof (ex_edges _ _ _ _ _ _ H1) as He1.
  pose proof (ex_in _ _ _ _ _ _ H1). pose proof (ex_head _ _ _ _ _ _ H0).
  constructor; [exact splice_lists|exact splice_nodup|set_solver|set_solver| | |exact splice_acyclic].
  - intros e Hin. specialize (He0 e). specialize (He1 e). rewrite !elem_of_app in *.
    rewrite elem_of_union. tauto.
  - intros q [Hq|Hq]%elem_of_union.
    + destruct (ex_closed _ _ _ _ _ _ H0 q Hq) as (b & Hb & Hs).
      destruct (HS0 q b Hq Hb) as (b' & Hb' & _ & _ & Hu). exists b'. split; [done|].
      intros side Hni. rewrite Hu. case_decide as HP.
      * exists hd1. split; [done|]. pose proof (ex_head _ _ _ _ _ _ H1). set_solver.
      * destruct (Hs side) as (q' & Hq' & Hin).
        { rewrite !not_elem_of_app in *. tauto. }
        exists q'. rewrite elem_of_union. auto.
    + destruct (ex_closed _ _ _ _ _ _ H1 q Hq) as (b & Hb & Hs).
      destruct (splice_keeps1 q b Hq Hb) as (b' & Hb' & _ & Hu). exists b'. split; [done|].
      intros side Hni. assert ((q, side) ∉ M ++ N) as Hmn
        by (rewrite !not_elem_of_app in *; tauto).
      destruct (Hu side Hmn) as (_ & -> & _). destruct (Hs side Hmn) as (q' & Hq' & Hin).
      exists q'. rewrite elem_of_union. auto.
Qed.

Lemma splice_flow1 D1 r :
  (match D1 r with
   | Leave true r' => exists e, e ∈ M /\ flow h (M ++ N) hd1 r (Out e r')
   | Leave false r' => exists e, e ∈ N /\ flow h (M ++ N) hd1 r (Out e r')
   | Done o => flow h (M ++ N) hd1 r (Final o)
   end) ->
  match D1 r with
  | Leave true r' => exists e, e ∈ M ++ Q /\ flow h' ((M ++ Q) ++ N) hd1 r (Out e r')
  | Leave false r' => exists e, e ∈ N /\ flow h' ((M ++ Q) ++ N) hd1 r (Out e r')
  | Done o => flow h' ((M ++ Q) ++ N) hd1 r (Final o)
  end.
Proof.
  intros HD. pose proof (ex_head _ _ _ _ _ _ H1) as Hh. pose proof splice_keeps1 as Hk.
  destruct (D1 r) as [[] r'|o].
  1,2: destruct HD as (e & He & Hf); exists e; split; [rewrite ?elem_of_app; tauto|];
       apply (flow_transfer _ _ _ _ _ _ _ _ Hf Hh Hk); left; rewrite !elem_of_app; tauto.
  exact (flow_transfer _ _ _ _ _ _ _ _ HD Hh Hk).
Qed.
End Result.
End Splice.

(** The join denotes: leave [b0] through its own list into [b1], through its other list
    as [b1] leaves through its own. *)
Lemma splice_denotes h b0 b1 B1 S0 S1 P Q M N D0 D1 :
  denotes h b0 S0 P Q D0 -> denotes h b1 S1 M N D1 -> S0 ## S1 -> h !! b1 = Some B1 ->
  exists h', splice h b0 b1 (b_head B1) = Some h' /\
    denotes h' b1 (S0 ∪ S1) (M ++ Q) N (m_splice D0 D1) /\
    forall q, q ∉ S0 ∪ S1 -> h' !! q = h !! q.
Proof.
  intros (hd0 & H0 & HD0) (hd1 & H1 & HD1) Hdis HB1.
  destruct (expr_block _ _ _ _ _ _ H1) as (B & HB & Hhd).
  assert (b_head B1 = hd1) as -> by congruence.
  destruct (splice_pointwise h b0 b1 S0 S1 P Q M N hd0 hd1 H0 H1 Hdis)
    as (h' & M' & lst & Hsp & HM & Hfr & HS0 & HS1).
  exists h'. split; [done|]. split; [|done]. exists hd0. split.
  { exact (splice_expr h b0 b1 S0 S1 P Q M N hd0 hd1 H0 H1 Hdis h' M' lst HM HS0 HS1). }
  intros r. specialize (HD0 r). unfold m_splice.
  pose proof (ex_head _ _ _ _ _ _ H0) as Hh0.
  pose proof (splice_keeps0 h b0 b1 S0 S1 P Q M N hd0 hd1 H0 H1 Hdis h' HS0) as Hk0.
  destruct (D0 r) as [[] r'|o].
  - destruct HD0 as (e & He & Hf).
    pose proof (splice_flow1 h b0 b1 S0 S1 P Q M N hd0 hd1 H0 H1 Hdis h' M' lst HM HS1 D1 r' (HD1 r')) as HF.
    assert (forall res, flow h' ((M ++ Q) ++ N) hd1 r' res -> flow h' ((M ++ Q) ++ N) hd0 r res) as Hgo.
    { intros res Hres. apply (flow_transfer _ _ _ _ _ _ _ _ Hf Hh0 Hk0). right.
      destruct e as [q side]. cbn.
      assert (q ∈ S0) as Hq.
      { apply (ex_edges _ _ _ _ _ _ H0 (q, side)). rewrite elem_of_app. now left. }
      split.
      - intros Hin. apply (P_Q_disjoint h b0 S0 P Q hd0 H0 (q, side) He).
        eapply S0_edge; [exact H0|exact H1|exact Hdis|exact Hq|exact Hin].
      - destruct (ex_closed _ _ _ _ _ _ H0 q Hq) as (b & Hb & _).
        destruct (HS0 q b Hq Hb) as (b' & Hb' & _ & _ & Hu). exists b', hd1.
        rewrite Hu, decide_True by done. auto. }
    destruct (D1 r') as [[] r2|o]; [destruct HF as (e2 & He2 & HF); eauto..|eauto].
  - destruct HD0 as (e & He & Hf). exists e. rewrite elem_of_app. split; [now right|].
    apply (flow_transfer _ _ _ _ _ _ _ _ Hf Hh0 Hk0). left. rewrite !elem_of_app. tauto.
  - exact (flow_transfer _ _ _ _ _ _ _ _ HD0 Hh0 Hk0).
Qed.

Lemma flip_insert_ne c a b h :
  a <> c -> flip_sense c (<[a := b]> h) = <[a := b]> (flip_sense c h).
Proof. intros Hne. unfold flip_sense. now rewrite alter_insert_ne. Qed.

Lemma flip_comm a c h : a <> c -> flip_sense a (flip_sense c h) = flip_sense c (flip_sense a h).
Proof. intros Hne. unfold flip_sense. now rewrite alter_alter_ne. Qed.

Lemma flip_set_head a v h :
  flip_sense a (alter (set_head v) a h) = alter (set_head v) a (flip_sense a h).
Proof.
  unfold flip_sense. rewrite !alter_alter_eq. apply map_eq. intros q.
  destruct (decide (q = a)) as [->|]; [|now rewrite !lookup_alter_ne].
  rewrite !lookup_alter_eq. now destruct (h !! a).
Qed.

Lemma backpatch_flip c fuel h l es t :
  chain h l es -> NoDup es.*1 -> c ∉ es.*1 ->
  backpatch fuel (flip_sense c h) l t = flip_sense c <$> backpatch fuel h l t.
Proof.
  revert h l es; induction fuel as [|n IH]; intros h l es Hc Hnd Hni;
    destruct Hc as [|a b es Hb Hc]; try reflexivity.
  cbn in Hni, Hnd. apply not_elem_of_cons in Hni as [Hne Hni]. apply NoDup_cons in Hnd as [Ha Hnd].
  assert (a <> c) by auto.
  rewrite (backpatch_step n h a t b Hb).
  rewrite (backpatch_step n (flip_sense c h) a t b) by now rewrite flip_lookup_ne.
  rewrite <- flip_insert_ne by done. apply (IH _ _ es); auto.
  eapply chain_preserved; [exact Hc|]. intros q side b' Hin Hq. exists b'.
  rewrite lookup_insert_ne; [done|]. intros <-. apply Ha. apply list_elem_of_fmap.
  now exists (a, side).
Qed.

Lemma gen_and_splice h b0 b1 B1 S0 S1 P Q M N hd0 hd1 :
  bool_expr h b0 S0 P Q hd0 -> bool_expr h b1 S1 M N hd1 -> S0 ## S1 -> h !! b1 = Some B1 ->
  gen_and h b0 b1 = flip_sense b1 <$> splice (flip_sense b1 h) b0 b1 (b_head B1).
Proof.
  intros H0 H1 Hdis HB1. pose proof (expr_chain _ _ _ _ _ _ H0) as Hc.
  pose proof (expr_own_nodup _ _ _ _ _ _ H0) as Hnd.
  assert (b1 ∉ P.*1) as Hni.
  { intros Hin%(expr_own_in _ _ _ _ _ _ _ H0). pose proof (ex_in _ _ _ _ _ _ H1). set_solver. }
  assert (b0 <> b1) as Hne.
  { pose proof (ex_in _ _ _ _ _ _ H0). pose proof (ex_in _ _ _ _ _ _ H1). set_solver. }
  unfold gen_and, splice. rewrite HB1. cbv [mbind option_bind].
  unfold loop_fuel at 3. rewrite flip_size.
  rewrite (backpatch_flip b1 _ _ _ P) by done. fold (loop_fuel h).
  destruct (backpatch (loop_fuel h) h (Some b0) (b_head B1)) as [h1|]; cbn [fmap option_fmap option_map];
    [|reflexivity].
  rewrite (flip_comm b0 b1) by done.
  destruct (merge _ _ b1 b0) as [h4|]; [|reflexivity].
  rewrite flip_lookup_ne by done. destruct (h4 !! b0) as [B0|]; [|reflexivity].
  cbn. now rewrite flip_set_head.
Qed.

Lemma m_not_not D r : m_not (m_not D) r = D r.
Proof. unfold m_not. destruct (D r) as [[] r'|o]; reflexivity. Qed.

Lemma denotes_ext h a S T F D D' :
  (forall r, D r = D' r) -> denotes h a S T F D -> denotes h a S T F D'.
Proof.
  intros He (hd & Hex & HD). exists hd. split; [done|]. intros r. rewrite <- He. apply HD.
Qed.

Lemma flip_expr_frame h a b S' T F D :
  denotes h b S' T F D -> a ∉ S' -> denotes (flip_sense a h) b S' T F D.
Proof.
  intros HD Ha. eapply denotes_frame; [exact HD|]. intros q Hq. apply flip_lookup_ne.
  intros ->. contradiction.
Qed.

Lemma gen_and_ok (h : heap) (b0 b1 : nat) (S0 S1 : gset nat) (T0 F0 T1 F1 : list edge_ref)
    (D0 D1 : meaning) :
  denotes h b0 S0 T0 F0 D0 -> denotes h b1 S1 T1 F1 D1 -> S0 ## S1 ->
  exists h', gen_and h b0 b1 = Some h' /\
    denotes h' b1 (S0 ∪ S1) T1 (F1 ++ F0) (m_and D0 D1) /\
    forall q, q ∉ S0 ∪ S1 -> h' !! q = h !! q.
Proof.
  intros HD0 HD1 Hdis. pose proof HD0 as (hd0 & H0 & _). pose proof HD1 as (hd1 & H1 & _).
  pose proof (ex_in _ _ _ _ _ _ H1) as Hb1.
  destruct (expr_block _ _ _ _ _ _ H1) as (B1 & HB1 & _).
  rewrite (gen_and_splice _ _ _ _ _ _ _ _ _ _ _ _ H0 H1 Hdis HB1).
  change (b_head B1) with (b_head (set_sense (negb (b_sense B1)) B1)).
  destruct (splice_denotes (flip_sense b1 h) b0 b1 (set_sense (negb (b_sense B1)) B1)
              S0 S1 T0 F0 F1 T1 D0 (m_not D1)) as (h' & -> & HD & Hfr);
    [eapply flip_expr_frame; [exact HD0|set_solver]|now apply denotes_flip|done
    |now apply flip_lookup_eq|].
  exists (flip_sense b1 h'). split; [reflexivity|]. split.
  - eapply denotes_ext; [|apply denotes_flip; exact HD]. intros r.
    unfold m_not, m_splice, m_and. destruct (D0 r) as [[] r'|o]; try reflexivity.
    destruct (D1 r') as [[] r2|o]; reflexivity.
  - intros q Hq. rewrite flip_lookup_ne by set_solver. rewrite Hfr by done.
    apply flip_lookup_ne. set_solver.
Qed.

(** C18: [gen_and(b0, b1)] always succeeds on two expressions with separate blocks, leaves
    every other block alone, and makes [b1] the short-circuit conjunction: run [b0]; if it
    leaves by true run [b1], if it leaves by false leave by false, and stop where it stops. *)
Theorem gen_and_denotes (h : heap) (b0 b1 : nat) (S0 S1 : gset nat) (T0 F0 T1 F1 : list edge_ref)
    (D0 D1 : meaning) :
  denotes h b0 S0 T0 F0 D0 -> denotes h b1 S1 T1 F1 D1 -> S0 ## S1 ->
  exists h', gen_and h b0 b1 = Some h' /\
    denotes h' b1 (S0 ∪ S1) T1 (F1 ++ F0) (m_and D0 D1) /\
    forall q, q ∉ S0 ∪ S1 -> h' !! q = h !! q.
Proof. apply gen_and_ok. Qed.

Lemma gen_or_ok (h : heap) (b0 b1 : nat) (S0 S1 : gset nat) (T0 F0 T1 F1 : list edge_ref)
    (D0 D1 : meaning) :
  denotes h b0 S0 T0 F0 D0 -> denotes h b1 S1 T1 F1 D1 -> S0 ## S1 ->
  exists h', gen_or h b0 b1 = Some h' /\
    denotes h' b1 (S0 ∪ S1) (T1 ++ T0) F1 (m_or D0 D1) /\
    forall q, q ∉ S0 ∪ S1 -> h' !! q = h !! q.
Proof.
  intros HD0 HD1 Hdis. pose proof HD0 as (hd0 & H0 & _). pose proof HD1 as (hd1 & H1 & _).
  pose proof (ex_in _ _ _ _ _ _ H1) as Hb1. pose proof (ex_in _ _ _ _ _ _ H0) as Hb0.
  destruct (expr_block _ _ _ _ _ _ H1) as (B1 & HB1 & _).
  unfold gen_or. rewrite HB1. cbv [mbind option_bind].
  destruct (splice_denotes (flip_sense b0 h) b0 b1 B1 S0 S1 F0 T0 T1 F1 (m_not D0) D1)
    as (h' & Hsp & HD & Hfr);
    [now apply denotes_flip|eapply flip_expr_frame; [exact HD1|set_solver]|done
    |rewrite flip_lookup_ne by set_solver; exact HB1|].
  exists h'. split; [exact Hsp|]. split.
  - eapply denotes_ext; [|exact HD]. intros r. unfold m_not, m_splice, m_or.
    destruct (D0 r) as [[] r'|o]; reflexivity.
  - intros q Hq. rewrite Hfr by done. apply flip_lookup_ne. set_solver.
Qed.

(** C19: [gen_or(b0, b1)] likewise makes [b1] the short-circuit disjunction. *)
Theorem gen_or_denotes (h : heap) (b0 b1 : nat) (S0 S1 : gset nat) (T0 F0 T1 F1 : list edge_ref)
    (D0 D1 : meaning) :
  denotes h b0 S0 T0 F0 D0 -> denotes h b1 S1 T1 F1 D1 -> S0 ## S1 ->
  exists h', gen_or h b0 b1 = Some h' /\
    denotes h' b1 (S0 ∪ S1) (T1 ++ T0) F1 (m_or D0 D1) /\
    forall q, q ∉ S0 ∪ S1 -> h' !! q = h !! q.
Proof. apply gen_or_ok. Qed.
End Denotation.
