(* ===== verification/GencodeFilter.v ===== *)
(** * Whole filter expressions

    The semantic actions of the grammar compose the combinators: a test makes a block,
    "and", "or" and "not" call [gen_and], [gen_or] and [gen_not], and the complete
    expression goes through [close_parse]. [gen_bexp] is that composition on an abstract
    syntax of boolean expressions; the theorem is the correctness of the graph it
    produces. *)
From stdpp Require Import base numbers list gmap.
From Stdlib Require Import Strings.Byte.
From S2P Require Import Prelude BpfInsn BpfFilter Icode Gencode GencodeProofs.
Open Scope Z_scope.

(** ** Tests *)

Definition JMP (c : Z) : Z := c ||| BPF_JMP ||| BPF_K.

(** The end of [gen_ncmp]: a block that runs [ss], then compares the accumulator with [v]. *)
Definition gen_cond (ss : slist) (jtype v : Z) (h : heap) : nat * heap :=
  let '(b, h) := new_block (JMP jtype) h in
  (b, alter (set_code ss (mk_stmt (JMP jtype) None None v)) b h).

Inductive bexp :=
| BTest (ss : slist) (jtype v : Z)
| BAnd (e0 e1 : bexp)
| BOr (e0 e1 : bexp)
| BNot (e : bexp).

Fixpoint gen_bexp (e : bexp) (h : heap) : option (nat * heap) :=
  match e with
  | BTest ss jtype v => Some (gen_cond ss jtype v h)
  | BAnd e0 e1 =>
      '(b0, h) ← gen_bexp e0 h;
      '(b1, h) ← gen_bexp e1 h;
      h ← gen_and h b0 b1;
      Some (b1, h)
  | BOr e0 e1 =>
      '(b0, h) ← gen_bexp e0 h;
      '(b1, h) ← gen_bexp e1 h;
      h ← gen_or h b0 b1;
      Some (b1, h)
  | BNot e =>
      '(b, h) ← gen_bexp e h;
      Some (b, gen_not h b)
  end.

(** [pcap_parse] on a complete expression: generate, then finish. *)
Definition gen_filter (e : bexp) (snaplen : Z) : option (nat * heap) :=
  '(b, h) ← gen_bexp e ∅;
  close_parse h b snaplen.

Section Meaning.
Context (p : list byte) (wirelen buflen : Z).
#[local] Abbreviation flow := (flow p wirelen buflen).
#[local] Abbreviation denotes := (denotes p wirelen buflen).

(** What an expression means: run the statements of a test, then compare. *)
Fixpoint eval_bexp (e : bexp) : meaning :=
  match e with
  | BTest ss jtype v => fun r =>
      match exec_stmts p wirelen buflen ss r with
      | inl r' => exec_branch (mk_stmt (JMP jtype) None None v) r'
      | inr o => Done o
      end
  | BAnd e0 e1 => m_and (eval_bexp e0) (eval_bexp e1)
  | BOr e0 e1 => m_or (eval_bexp e0) (eval_bexp e1)
  | BNot e => m_not (eval_bexp e)
  end.

Lemma new_block_fresh c (h : heap) b h' :
  new_block c h = (b, h') -> h !! b = None /\ forall q, q <> b -> h' !! q = h !! q.
Proof.
  unfold new_block. intros [= <- <-]. split.
  - apply not_elem_of_dom. apply is_fresh.
  - intros q Hq. now rewrite lookup_insert_ne.
Qed.

Lemma gen_cond_denotes ss jtype v h b h' :
  gen_cond ss jtype v h = (b, h') ->
  h !! b = None /\ (forall q, q <> b -> h' !! q = h !! q) /\
  denotes h' b {[b]} [(b, true)] [(b, false)] (eval_bexp (BTest ss jtype v)).
Proof.
  unfold gen_cond. destruct (new_block (JMP jtype) h) as [b' h1] eqn:Hnb. intros [= <- <-].
  destruct (new_block_fresh _ _ _ _ Hnb) as [Hfresh Hsame]. split; [done|].
  split; [intros q Hq; rewrite lookup_alter_ne by done; auto|].
  assert (exists blk, alter (set_code ss (mk_stmt (JMP jtype) None None v)) b' h1 !! b' = Some blk /\
    b_sense blk = false /\ b_head blk = b' /\ succ_of true blk = None /\ succ_of false blk = None /\
    b_stmts blk = ss /\ b_s blk = mk_stmt (JMP jtype) None None v)
    as (blk & Hb & Hse & Hhd & HT & HF & Hss & Hs).
  { unfold new_block in Hnb. injection Hnb as <- <-.
    rewrite lookup_alter_eq, lookup_insert_eq. eexists. split; [reflexivity|]. now cbn. }
  exists b'. split.
  - constructor.
    + exists blk, [], []. rewrite Hse. cbn [negb]. rewrite HT, HF. repeat split; auto using chain_nil.
    + cbn. repeat constructor; rewrite ?elem_of_cons, ?elem_of_nil; intuition congruence.
    + set_solver.
    + set_solver.
    + intros e. cbn. rewrite !elem_of_cons, elem_of_nil. intros [->|[->|[]]]; set_solver.
    + intros q ->%elem_of_singleton. exists blk. split; [done|]. intros [] Hni; exfalso; apply Hni;
        cbn; rewrite !elem_of_cons; auto.
    + exists (fun _ => 0%nat), 1%nat. intros q b0 ->%elem_of_singleton _. split; [lia|].
      intros [] q' Hni; exfalso; apply Hni; cbn; rewrite !elem_of_cons; auto.
  - intros r.
    assert (exec_block p wirelen buflen blk r = eval_bexp (BTest ss jtype v) r) as Hx
      by (unfold exec_block; rewrite Hss, Hs; reflexivity).
    destruct (eval_bexp (BTest ss jtype v) r) as [[] r'|o] eqn:E.
    + exists (b', true). split; [now left|]. eapply flow_out; eauto. now left.
    + exists (b', false). split; [now left|]. eapply flow_out; eauto. right. now left.
    + eapply flow_done; eauto.
Qed.

(** Generation always succeeds, in blocks that were not allocated before. *)
Lemma gen_bexp_denotes e h :
  exists b h' S T F, gen_bexp e h = Some (b, h') /\ denotes h' b S T F (eval_bexp e) /\
    (forall q, q ∈ S -> h !! q = None) /\ (forall q, q ∉ S -> h' !! q = h !! q).
Proof.
  revert h; induction e as [ss jtype v|e0 IH0 e1 IH1|e0 IH0 e1 IH1|e IH]; intros h.
  - cbn [gen_bexp]. destruct (gen_cond ss jtype v h) as [b h'] eqn:E.
    destruct (gen_cond_denotes _ _ _ _ _ _ E) as (Hn & Hsame & HD).
    exists b, h', {[b]}, [(b, true)], [(b, false)]. repeat split; auto.
    + intros q ->%elem_of_singleton. done.
    + intros q Hq. apply Hsame. set_solver.
  - destruct (IH0 h) as (b0 & h0 & S0 & T0 & F0 & E0 & HD0 & Hn0 & Hs0).
    destruct (IH1 h0) as (b1 & h1 & S1 & T1 & F1 & E1 & HD1 & Hn1 & Hs1).
    assert (S0 ## S1) as Hdis.
    { intros q H0 H1. pose proof HD0 as (hd & Hex & _).
      destruct (ex_closed _ _ _ _ _ _ Hex q H0) as (b & Hb & _). rewrite (Hn1 q H1) in Hb.
      discriminate. }
    destruct (gen_and_ok p wirelen buflen h1 b0 b1 S0 S1 T0 F0 T1 F1 (eval_bexp e0) (eval_bexp e1))
      as (h2 & E2 & HD2 & Hfr); [|done|done|].
    { eapply denotes_frame; [exact HD0|]. intros q Hq. apply Hs1. set_solver. }
    exists b1, h2, (S0 ∪ S1), T1, (F1 ++ F0). cbn [gen_bexp eval_bexp]. rewrite E0. cbn.
    rewrite E1. cbn. rewrite E2. repeat split; auto.
    + intros q [Hq|Hq]%elem_of_union; [auto|]. rewrite <- Hs0; [auto|]. set_solver.
    + intros q Hq. rewrite Hfr by done. rewrite Hs1, Hs0 by set_solver. done.
  - destruct (IH0 h) as (b0 & h0 & S0 & T0 & F0 & E0 & HD0 & Hn0 & Hs0).
    destruct (IH1 h0) as (b1 & h1 & S1 & T1 & F1 & E1 & HD1 & Hn1 & Hs1).
    assert (S0 ## S1) as Hdis.
    { intros q H0 H1. pose proof HD0 as (hd & Hex & _).
      destruct (ex_closed _ _ _ _ _ _ Hex q H0) as (b & Hb & _). rewrite (Hn1 q H1) in Hb.
      discriminate. }
    destruct (gen_or_ok p wirelen buflen h1 b0 b1 S0 S1 T0 F0 T1 F1 (eval_bexp e0) (eval_bexp e1))
      as (h2 & E2 & HD2 & Hfr); [|done|done|].
    { eapply denotes_frame; [exact HD0|]. intros q Hq. apply Hs1. set_solver. }
    exists b1, h2, (S0 ∪ S1), (T1 ++ T0), F1. cbn [gen_bexp eval_bexp]. rewrite E0. cbn.
    rewrite E1. cbn. rewrite E2. repeat split; auto.
    + intros q [Hq|Hq]%elem_of_union; [auto|]. rewrite <- Hs0; [auto|]. set_solver.
    + intros q Hq. rewrite Hfr by done. rewrite Hs1, Hs0 by set_solver. done.
  - destruct (IH h) as (b & h1 & S & T & F & E & HD & Hn & Hs).
    exists b, (gen_not h1 b), S, F, T. cbn [gen_bexp eval_bexp]. rewrite E.
    split; [reflexivity|]. split; [now apply denotes_flip|]. split; [done|].
    intros q Hq. unfold gen_not. rewrite flip_lookup_ne; auto.
    intros ->. apply Hq. destruct HD as (hd & Hex & _). exact (ex_in _ _ _ _ _ _ Hex).
Qed.

Lemma gen_retblk_spec v (h : heap) b h' :
  gen_retblk v h = (b, h') ->
  h !! b = None /\ (forall q, q <> b -> h' !! q = h !! q) /\
  exists blk, h' !! b = Some blk /\ b_stmts blk = [] /\
    b_s blk = mk_stmt (BPF_RET ||| BPF_K) None None v /\ forall side, succ_of side blk = None.
Proof.
  unfold gen_retblk. destruct (new_block (BPF_RET ||| BPF_K) h) as [b' h1] eqn:Hnb.
  intros [= <- <-]. destruct (new_block_fresh _ _ _ _ Hnb) as [Hf Hs].
  split; [done|]. split; [intros q Hq; rewrite lookup_alter_ne by done; auto|].
  unfold new_block in Hnb. injection Hnb as <- <-.
  rewrite lookup_alter_eq, lookup_insert_eq. eexists. split; [reflexivity|]. repeat split. now intros [].
Qed.

Lemma flow_retblk h E b blk v r :
  h !! b = Some blk -> b_stmts blk = [] -> b_s blk = mk_stmt (BPF_RET ||| BPF_K) None None v ->
  flow h E b r (Final (Return (u32 v))).
Proof. intros Hb Hss Hs. eapply flow_done; [exact Hb|]. unfold exec_block. now rewrite Hss, Hs. Qed.

(** Both lists of an expression patched: every open edge leads to a return block. *)
Lemma finish_parse_blocks h a S T F hd snaplen :
  bool_expr h a S T F hd ->
  exists rt rf h', close_parse h a snaplen = Some (hd, h') /\ ((rt ∉ S) /\ (rf ∉ S)) /\
    (exists blk, h' !! rt = Some blk /\ b_stmts blk = [] /\
       b_s blk = mk_stmt (BPF_RET ||| BPF_K) None None snaplen /\ forall side, succ_of side blk = None) /\
    (exists blk, h' !! rf = Some blk /\ b_stmts blk = [] /\
       b_s blk = mk_stmt (BPF_RET ||| BPF_K) None None 0 /\ forall side, succ_of side blk = None) /\
    forall q b, q ∈ S -> h !! q = Some b ->
      exists b', h' !! q = Some b' /\ same_code b b' /\
        forall side, succ_of side b' =
          (if decide ((q, side) ∈ F) then Some rf
           else if decide ((q, side) ∈ T) then Some rt else succ_of side b).
Proof.
  intros Hex. unfold close_parse.
  destruct (gen_retblk snaplen h) as [rt h1] eqn:E1.
  destruct (gen_retblk_spec _ _ _ _ E1) as (Hrt & Hs1 & brt & Hbrt & Hrt1 & Hrt2 & Hrt3).
  assert (forall q, q ∈ S -> h !! q <> None) as HSdom.
  { intros q Hq. destruct (ex_closed _ _ _ _ _ _ Hex q Hq) as (b & Hb & _). congruence. }
  assert (forall q, q ∈ S -> h1 !! q = h !! q) as HS1 by (intros q Hq; apply Hs1; intros ->; now apply (HSdom rt)).
  assert (bool_expr h1 a S T F hd) as Hex1 by now apply (expr_frame h).
  pose proof (ex_in _ _ _ _ _ _ Hex) as Ha. pose proof (ex_edges _ _ _ _ _ _ Hex) as Hed.
  pose proof (ex_nodup _ _ _ _ _ _ Hex) as Hnd. apply NoDup_app in Hnd as (_ & Hdisj & _).
  (* the own list, to the accepting block *)
  pose proof (expr_chain _ _ _ _ _ _ Hex1) as HcT. pose proof (expr_own_nodup _ _ _ _ _ _ Hex1) as HnT.
  destruct (backpatch_patched (loop_fuel h1) h1 (Some a) T rt HcT HnT) as (h2 & Hbp & HpT).
  { pose proof (chain_dom_length _ _ _ HcT HnT). unfold loop_fuel. lia. }
  rewrite Hbp. cbv [mbind option_bind].
  destruct (gen_retblk 0 (flip_sense a h2)) as [rf h4] eqn:E4.
  destruct (gen_retblk_spec _ _ _ _ E4) as (Hrf & Hs4 & brf & Hbrf & Hrf1 & Hrf2 & Hrf3).
  assert (forall q b, h1 !! q = Some b -> exists c, h4 !! q = Some c /\ same_code b c /\
     b_sense c = (if decide (q = a) then negb (b_sense b) else b_sense b) /\ b_head c = b_head b /\
     forall side, succ_of side c = (if decide ((q, side) ∈ T) then Some rt else succ_of side b)) as Hpt.
  { intros q b Hb. destruct (patched_succ T rt h1 h2 q b HpT HnT Hb) as (c1 & Hc1 & Hk1 & Hse1 & Hh1 & Hu1).
    destruct (flip_succ h2 a q c1 Hc1) as (c2 & Hc2 & Hk2 & Hse2 & Hh2 & Hu2). exists c2.
    rewrite Hs4 by (intros ->; congruence). split; [done|].
    split; [exact (same_code_trans _ _ _ Hk1 Hk2)|]. split; [rewrite Hse2; case_decide; congruence|].
    split; [congruence|]. intros side. now rewrite Hu2. }
  (* the other list, to the rejecting block *)
  pose proof (expr_chain _ _ _ _ _ _ (expr_flip _ _ _ _ _ _ Hex1)) as HcF0.
  assert (chain h4 (Some a) F) as HcF.
  { eapply chain_preserved; [exact HcF0|]. intros q side b Hin Hq.
    destruct (ex_closed _ _ _ _ _ _ Hex1 q) as (b0 & Hb0 & _).
    { apply (Hed (q, side)). rewrite elem_of_app. now right. }
    destruct (flip_succ h1 a q b0 Hb0) as (b' & Hb' & _ & Hse & _ & Hu).
    rewrite Hq in Hb'. injection Hb' as <-.
    destruct (Hpt q b0 Hb0) as (c & Hc & _ & Hsec & _ & Huc). exists c. split; [done|].
    split; [congruence|]. rewrite Hu, Huc, decide_False; [done|]. intros HT. exact (Hdisj _ HT Hin). }
  assert (NoDup F.*1) as HnF by exact (expr_own_nodup _ _ _ _ _ _ (expr_flip _ _ _ _ _ _ Hex1)).
  destruct (backpatch_patched (loop_fuel h4) h4 (Some a) F rf HcF HnF) as (h5 & Hbp2 & HpF).
  { pose proof (chain_dom_length _ _ _ HcF HnF). unfold loop_fuel. lia. }
  rewrite Hbp2. cbn [fst snd].
  assert (forall q blk, h4 !! q = Some blk -> q ∉ S -> h5 !! q = Some blk) as Hout.
  { intros q blk Hq HqS. rewrite (proj1 HpF q); [done|]. intros [[q' side] [-> Hin]]%list_elem_of_fmap.
    apply HqS. apply (Hed (q', side)). rewrite elem_of_app. now right. }
  destruct (expr_block _ _ _ _ _ _ Hex1) as (B & HB & Hhd).
  destruct (Hpt a B HB) as (c & Hc & _ & _ & Hhc & _).
  destruct (patched_succ F rf h4 h5 a c HpF HnF Hc) as (d & Hd & _ & _ & Hhd' & _).
  rewrite Hd. assert (b_head d = hd) as -> by congruence.
  assert (rt ∉ S) as HrtS by (intros Hin; exact (HSdom rt Hin Hrt)).
  assert (rf ∉ S) as HrfS.
  { intros Hin. destruct (ex_closed _ _ _ _ _ _ Hex1 rf Hin) as (b & Hb & _).
    destruct (patched_succ T rt h1 h2 rf b HpT HnT Hb) as (c1 & Hc1 & _).
    destruct (flip_succ h2 a rf c1 Hc1) as (c2 & Hc2 & _). congruence. }
  exists rt, rf, h5. split; [reflexivity|]. split; [done|]. split; [|split].
  - destruct (Hpt rt brt Hbrt) as (c' & Hc' & [Hk1 Hk2] & _ & _ & Hu). exists c'. split; [now apply Hout|].
    split; [congruence|]. split; [congruence|]. intros side. rewrite Hu, decide_False; [done|].
    intros Hin. apply HrtS, (Hed (rt, side)). rewrite elem_of_app. now left.
  - exists brf. split; [now apply Hout|done].
  - intros q b Hq Hb. rewrite <- HS1 in Hb by done.
    destruct (Hpt q b Hb) as (c1 & Hc1 & Hk1 & _ & _ & Hu1).
    destruct (patched_succ F rf h4 h5 q c1 HpF HnF Hc1) as (c2 & Hc2 & Hk2 & _ & _ & Hu2).
    exists c2. split; [done|]. split; [exact (same_code_trans _ _ _ Hk1 Hk2)|].
    intros side. now rewrite Hu2, Hu1.
Qed.

(** What the finished program returns for a meaning of the expression. *)
Definition verdict (snaplen : Z) (d : exit_result) : outcome :=
  match d with
  | Leave true _ => Return (u32 snaplen)
  | Leave false _ => Return 0
  | Done o => o
  end.

Lemma finish_parse_verdict h a S T F D snaplen :
  denotes h a S T F D ->
  exists root h', close_parse h a snaplen = Some (root, h') /\
    forall r, flow h' [] root r (Final (verdict snaplen (D r))).
Proof.
  intros (hd & Hex & HD).
  destruct (finish_parse_blocks h a S T F hd snaplen Hex)
    as (rt & rf & h' & Hfp & _ & (brt & Hbrt & Ht1 & Ht2 & _) & (brf & Hbrf & Hf1 & Hf2 & _) & Hpt).
  exists hd, h'. split; [done|]. intros r.
  assert (keeps h (T ++ F) h' [] S) as Hk.
  { intros q b Hq Hb. destruct (Hpt q b Hq Hb) as (b' & Hb' & Hsc & Hu). exists b'.
    split; [done|]. split; [done|]. intros side Hni. apply not_elem_of_app in Hni as [HnT HnF].
    split; [apply not_elem_of_nil|]. rewrite Hu, !decide_False by done. split; [done|].
    intros q' Hq'. destruct (ex_closed _ _ _ _ _ _ Hex q Hq) as (c & Hc & Hs).
    destruct (Hs side) as (q2 & Hq2 & ?); [now rewrite not_elem_of_app|]. congruence. }
  pose proof (ex_head _ _ _ _ _ _ Hex) as Hh. pose proof (ex_edges _ _ _ _ _ _ Hex) as Hed.
  pose proof (ex_nodup _ _ _ _ _ _ Hex) as Hnd. apply NoDup_app in Hnd as (_ & Hdisj & _).
  specialize (HD r). destruct (D r) as [[] r'|o]; cbn [verdict].
  1,2: destruct HD as ([q side] & He & Hf);
       apply (flow_transfer _ _ _ _ _ _ _ _ _ _ _ Hf Hh Hk); right; split; [apply not_elem_of_nil|];
       assert (q ∈ S) as Hq by (apply (Hed (q, side)); rewrite elem_of_app; auto);
       destruct (ex_closed _ _ _ _ _ _ Hex q Hq) as (b & Hb & _);
       destruct (Hpt q b Hq Hb) as (b' & Hb' & _ & Hu); exists b'; cbn [fst snd]; rewrite Hu.
  - exists rt. rewrite decide_False by (intros HF; exact (Hdisj _ He HF)).
    rewrite decide_True by done. split; [done|]. split; [done|]. now apply (flow_retblk _ _ _ brt).
  - exists rf. rewrite decide_True by done. split; [done|]. split; [done|].
    change 0 with (u32 0). now apply (flow_retblk _ _ _ brf).
  - exact (flow_transfer _ _ _ _ _ _ _ _ _ _ _ HD Hh Hk).
Qed.

Lemma gen_filter_ok (e : bexp) (snaplen : Z) :
  exists root h, gen_filter e snaplen = Some (root, h) /\
    forall r, exists fuel,
      graph_run p wirelen buflen fuel h root r = Some (verdict snaplen (eval_bexp e r)).
Proof.
  destruct (gen_bexp_denotes e ∅) as (b & h & S & T & F & E & HD & _).
  destruct (finish_parse_verdict h b S T F _ snaplen HD) as (root & h' & Hfp & Hr).
  exists root, h'. unfold gen_filter. rewrite E. split; [exact Hfp|].
  intros r. apply flow_graph_run. apply Hr.
Qed.

(** Code generation for a boolean expression is correct. For every expression built
    from tests with and, or and not the generator produces a graph, and running that graph
    from its root on a packet returns the snapshot length when the expression holds of the
    packet, 0 when it does not, and whatever a test returns early (0 for a load outside
    the packet). *)
Theorem gen_filter_correct (e : bexp) (snaplen : Z) :
  exists root h, gen_filter e snaplen = Some (root, h) /\
    forall r, exists fuel,
      graph_run p wirelen buflen fuel h root r = Some (verdict snaplen (eval_bexp e r)).
Proof. apply gen_filter_ok. Qed.
End Meaning.

(** ** Witnesses: two header tests *)

Definition test_ip : bexp :=
  BTest [mk_snode 0 (mk_stmt (encode_op (LD_ABS SzH)) None None 12)] BPF_JEQ 0x800.
Definition test_bcast : bexp :=
  BTest [mk_snode 1 (mk_stmt (encode_op (LD_ABS SzB)) None None 0)] BPF_JEQ 0xff.

Definition frame : list byte := replicate 12 x00 ++ [x08; x00; x45].

Example gen_filter_runs :
  match gen_filter (BAnd test_ip (BNot test_bcast)) 96 with
  | Some (root, h) => graph_run frame 60 15 3 h root (mk_regs 0 0 [])
  | None => None
  end = Some (Return 96).
Proof. vm_compute. reflexivity. Qed.

(** Two fresh tests, in one heap. *)
Definition two_tests : nat * nat * heap :=
  let '(b0, h) := gen_cond [mk_snode 0 (mk_stmt (encode_op (LD_ABS SzH)) None None 12)] BPF_JEQ 0x800 ∅ in
  let '(b1, h) := gen_cond [mk_snode 1 (mk_stmt (encode_op (LD_ABS SzB)) None None 0)] BPF_JEQ 0xff h in
  (b0, b1, h).

Lemma two_tests_denote :
  let '(b0, b1, h) := two_tests in
  denotes frame 60 15 h b0 {[b0]} [(b0, true)] [(b0, false)] (eval_bexp frame 60 15 test_ip) /\
  denotes frame 60 15 h b1 {[b1]} [(b1, true)] [(b1, false)] (eval_bexp frame 60 15 test_bcast) /\
  ({[b0]} : gset nat) ## {[b1]}.
Proof.
  unfold two_tests.
  destruct (gen_cond _ BPF_JEQ 0x800 ∅) as [b0 h0] eqn:E0.
  destruct (gen_cond _ BPF_JEQ 0xff h0) as [b1 h1] eqn:E1.
  destruct (gen_cond_denotes frame 60 15 _ _ _ _ _ _ E0) as (_ & _ & HD0).
  destruct (gen_cond_denotes frame 60 15 _ _ _ _ _ _ E1) as (Hn1 & Hs1 & HD1).
  assert (b0 <> b1) as Hne.
  { intros ->. destruct HD0 as (hd & Hex & _).
    destruct (expr_block _ _ _ _ _ _ Hex) as (B & HB & _). congruence. }
  split; [|split; [exact HD1|set_solver]].
  eapply denotes_frame; [exact HD0|]. intros q ->%elem_of_singleton. now apply Hs1.
Qed.

Lemma gen_and_denotes_witness :
  let '(b0, b1, h) := two_tests in
  exists h', gen_and h b0 b1 = Some h' /\
    denotes frame 60 15 h' b1 ({[b0]} ∪ {[b1]}) [(b1, true)] ([(b1, false)] ++ [(b0, false)])
      (m_and (eval_bexp frame 60 15 test_ip) (eval_bexp frame 60 15 test_bcast)) /\
    forall q, q ∉ ({[b0]} ∪ {[b1]} : gset nat) -> h' !! q = h !! q.
Proof.
  pose proof two_tests_denote as Ht. destruct two_tests as [[b0 b1] h].
  destruct Ht as (HD0 & HD1 & Hdis).
  exact (gen_and_denotes frame 60 15 h b0 b1 _ _ _ _ _ _ _ _ HD0 HD1 Hdis).
Defined.

Lemma gen_or_denotes_witness :
  let '(b0, b1, h) := two_tests in
  exists h', gen_or h b0 b1 = Some h' /\
    denotes frame 60 15 h' b1 ({[b0]} ∪ {[b1]}) ([(b1, true)] ++ [(b0, true)]) [(b1, false)]
      (m_or (eval_bexp frame 60 15 test_ip) (eval_bexp frame 60 15 test_bcast)) /\
    forall q, q ∉ ({[b0]} ∪ {[b1]} : gset nat) -> h' !! q = h !! q.
Proof.
  pose proof two_tests_denote as Ht. destruct two_tests as [[b0 b1] h].
  destruct Ht as (HD0 & HD1 & Hdis).
  exact (gen_or_denotes frame 60 15 h b0 b1 _ _ _ _ _ _ _ _ HD0 HD1 Hdis).
Defined.
