(* ===== verification/Layout.v ===== *)
(** * Laying out the graph as a program (optimize.c)

    [count_stmts], [convert_code_r] and [icode_to_fcode]. The program is an array filled
    from its end; [ftail] is the index of the last block placed. A block is converted once,
    which its mark records. *)
From stdpp Require Import base numbers list gmap.
From Stdlib Require Import Strings.Byte.
From S2P Require Import Prelude BpfInsn BpfFilter Icode.
Open Scope Z_scope.

(** Statements that are not deleted. *)
Definition live_node (n : snode) : bool := negb (s_code (sn_s n) =? NOP).

Definition slength (ss : slist) : Z := Z.of_nat (length (List.filter live_node ss)).

(** Slots a block takes: its statements, its branch, and the jumps its branch needs. *)
Definition block_size (b : block) : Z := slength (b_stmts b) + 1 + b_longjt b + b_longjf b.

Definition set_mark (m : Z) (b : block) : block := set_layout m (b_offset b) (b_longjt b) (b_longjf b) b.
Definition set_offset (o : Z) (b : block) : block := set_layout (b_mark b) o (b_longjt b) (b_longjf b) b.

(** The array, the number of its elements not yet filled, and the heap. *)
Record cv_state := mk_cv { cv_heap : heap; cv_code : list bpf_insn; ftail : Z }.

(** What a conversion does: [ok] is its return value; [bpf_error] leaves by [longjmp]; a
    null or wild pointer, or a write outside the array, is [CvFault], and so is running
    out of the model's fuel. Allocation succeeds here: when it does not, the code leaves
    by [bpf_error] without touching the graph. *)
Inductive cv_result :=
| CvDone (ok : bool) (st : cv_state)
| CvError
| CvFault.

Section Marked.
(** [cur_mark], after [unMarkAll]. *)
Context (cur_mark : Z).

Definition isMarked (b : block) : bool := b_mark b =? cur_mark.
Definition Mark (q : nat) (h : heap) : heap := alter (set_mark cur_mark) q h.

Fixpoint count_stmts (fuel : nat) (h : heap) (p : option nat) : option (Z * heap) :=
  match p with
  | None => Some (0, h)
  | Some q =>
      match fuel with
      | O => None
      | S fuel' =>
          b ← h !! q;
          if isMarked b then Some (0, h)
          else
            '(n1, h) ← count_stmts fuel' (Mark q h) (JT b);
            '(n2, h) ← count_stmts fuel' h (JF b);
            Some (u32 (slength (b_stmts b) + u32 (n1 + n2) + 1 + b_longjt b + b_longjf b), h)
      end
  end.

(** ** Statements *)

(** Position [i] of [offset[]] with [offset[i] == target]; two of them, or none, is an
    error. *)
Fixpoint positions (i : Z) (offset : list nat) (target : nat) : list Z :=
  match offset with
  | [] => []
  | a :: offset' => (if decide (a = target) then [i] else []) ++ positions (i + 1) offset' target
  end.

Definition local_jump (offset : list nat) (off : Z) (target : nat) : option Z :=
  match positions 0 offset target with
  | [i] => Some (u8 (i - off - 1))
  | _ => None
  end.

(** The instruction of the statement [src], the [off]-th of [slen]; [None] is [bpf_error]. *)
Definition convert_stmt (offset : list nat) (slen off : Z) (src : stmt) : option bpf_insn :=
  let i := insn_of_stmt src in
  if negb (BPF_CLASS (s_code src) =? BPF_JMP) || (s_code src =? (BPF_JMP ||| BPF_JA)) then Some i
  else if off =? u32 (slen - 2) then Some i
  else
    jt ← s_jt src;
    jf ← s_jf src;
    jt ← local_jump offset off jt;
    jf ← local_jump offset off jf;
    Some (mk_insn (i_code i) jt jf (i_k i)).

Fixpoint convert_stmts (offset : list nat) (slen off : Z) (ss : slist) : option (list bpf_insn) :=
  match ss with
  | [] => Some []
  | src :: ss' =>
      if live_node src then
        i ← convert_stmt offset slen off (sn_s src);
        insns ← convert_stmts offset slen (off + 1) ss';
        Some (i :: insns)
      else convert_stmts offset slen off ss'
  end.

(** ** The branch *)

(** The branch displacement to a successor, or the jump it has to go through: the value of
    the branch field, how many jumps there are now, and the jump. [None]: the block has no
    slot for the jump yet. *)
Definition convert_edge (off longj extrajmps : Z) : option (Z * Z * list bpf_insn) :=
  if 256 <=? off then
    if longj =? 0 then None
    else let x := extrajmps + 1 in
         Some (u8 extrajmps, x, [mk_insn (BPF_JMP ||| BPF_JA) 0 0 (u32 (off - x))])
  else Some (u8 off, extrajmps, []).

(** Distance from the branch at index [at_] to the block at [target]. *)
Definition branch_off (target at_ : Z) : Z := u32 (target - at_ - 1).

Inductive branch_result :=
| BrCode (insns : list bpf_insn)
| BrRetry (side : bool).

Definition convert_branch (b : block) (at_ t f : Z) : branch_result :=
  let i := insn_of_stmt (b_s b) in
  match convert_edge (branch_off t at_) (b_longjt b) 0 with
  | None => BrRetry true
  | Some (jt, x, ja1) =>
      match convert_edge (branch_off f at_) (b_longjf b) x with
      | None => BrRetry false
      | Some (jf, _, ja2) => BrCode (mk_insn (i_code i) jt jf (i_k i) :: ja1 ++ ja2)
      end
  end.

(** [p->longjt++] or [p->longjf++] *)
Definition need_jump (side : bool) (b : block) : block :=
  if side then set_layout (b_mark b) (b_offset b) (b_longjt b + 1) (b_longjf b) b
  else set_layout (b_mark b) (b_offset b) (b_longjt b) (b_longjf b + 1) b.

(** Store the instructions at an index; [None] outside the array. *)
Definition store_insns (code : list bpf_insn) (pos : Z) (insns : list bpf_insn) : option (list bpf_insn) :=
  if (0 <=? pos) && (pos + Z.of_nat (length insns) <=? Z.of_nat (length code)) then
    Some (take (Z.to_nat pos) code ++ insns ++ drop (Z.to_nat pos + length insns) code)
  else None.

(** Once both successors are placed: take the slots, record the offset, fill them in. *)
Definition place_block (q : nat) (st : cv_state) : cv_result :=
  match cv_heap st !! q with
  | None => CvFault
  | Some b =>
      let slen := slength (b_stmts b) in
      let tail := ftail st - block_size b in
      let h := alter (set_offset (s32 tail)) q (cv_heap st) in
      let offset := sn_addr <$> take (Z.to_nat slen) (b_stmts b) in
      match convert_stmts offset slen 0 (b_stmts b) with
      | None => CvError
      | Some body =>
          let finish br :=
            match store_insns (cv_code st) tail (body ++ br) with
            | None => CvFault
            | Some code => CvDone true (mk_cv h code tail)
            end in
          match JT b, JF b with
          | None, _ => finish [insn_of_stmt (b_s b)]
          | Some t, Some f =>
              match h !! t, h !! f with
              | Some bt, Some bf =>
                  match convert_branch b (tail + slen) (b_offset bt) (b_offset bf) with
                  | BrRetry side => CvDone false (mk_cv (alter (need_jump side) q h) (cv_code st) tail)
                  | BrCode br => finish br
                  end
              | _, _ => CvFault
              end
          | Some _, None => CvFault
          end
      end
  end.

Definition cv_and (r : cv_result) (k : cv_state -> cv_result) : cv_result :=
  match r with CvDone true st => k st | r => r end.

Fixpoint convert_code_r (fuel : nat) (p : option nat) (st : cv_state) : cv_result :=
  match p with
  | None => CvDone true st
  | Some q =>
      match fuel with
      | O => CvFault
      | S fuel' =>
          match cv_heap st !! q with
          | None => CvFault
          | Some b =>
              if isMarked b then CvDone true st
              else
                let st := mk_cv (Mark q (cv_heap st)) (cv_code st) (ftail st) in
                cv_and (convert_code_r fuel' (JF b) st) (fun st =>
                cv_and (convert_code_r fuel' (JT b) st) (fun st =>
                place_block q st))
          end
      end
  end.
End Marked.

(** Fuel for a walk over the graph: every call but the first level of a null or marked
    successor marks a block. *)
Definition walk_fuel (h : heap) : nat := S (S (size h)).

(** [icode_to_fcode]: convert until no branch is too long. A failed attempt gives one more
    branch its jump, so there are at most two attempts per block and one more. *)
Fixpoint icode_loop (fuel : nat) (cur_mark : Z) (h : heap) (root : nat) : option (list bpf_insn * heap) :=
  match fuel with
  | O => None
  | S fuel' =>
      '(n, h) ← count_stmts (cur_mark + 1) (walk_fuel h) h (Some root);
      let code := replicate (Z.to_nat n) (mk_insn 0 0 0 0) in
      match convert_code_r (cur_mark + 2) (walk_fuel h) (Some root) (mk_cv h code n) with
      | CvDone true st => Some (cv_code st, cv_heap st)
      | CvDone false st => icode_loop fuel' (cur_mark + 2) (cv_heap st) root
      | _ => None
      end
  end.

Definition icode_to_fcode (cur_mark : Z) (h : heap) (root : nat) : option (list bpf_insn * heap) :=
  icode_loop (S (2 * size h)) cur_mark h root.
