(* ===== verification/LayoutProofs.v ===== *)
(** * The laid-out program does what the graph does

    [icode_to_fcode] succeeds on a closed acyclic graph without block-local jumps, however
    often it has to start again for a branch that is too long, and running the program
    from its first instruction gives the outcome of the graph from its root. *)
From stdpp Require Import base numbers list gmap.
From Stdlib Require Import Strings.Byte.
From S2P Require Import Prelude BpfInsn BpfFilter Icode Layout.
Open Scope Z_scope.

(** ** Sums over lists of blocks *)

Fixpoint zsum {A} (f : A -> Z) (l : list A) : Z :=
  match l with [] => 0 | x :: l' => f x + zsum f l' end.

Section Sums.
Context {A : Type}.
Implicit Types (f g : A -> Z) (l : list A).

Lemma zsum_app f l1 l2 : zsum f (l1 ++ l2) = zsum f l1 + zsum f l2.
Proof. induction l1 as [|x l1 IH]; cbn; [reflexivity|]. rewrite IH. ring. Qed.

Lemma zsum_le f g l : (forall x, x ∈ l -> f x <= g x) -> zsum f l <= zsum g l.
Proof.
  induction l as [|x l IH]; cbn; intros H; [lia|].
  pose proof (H x ltac:(now left)). specialize (IH (fun y Hy => H y ltac:(now right))). lia.
Qed.

Lemma zsum_lt f g l :
  (forall x, x ∈ l -> f x <= g x) -> (exists x, x ∈ l /\ f x < g x) -> zsum f l < zsum g l.
Proof.
  induction l as [|x l IH]; cbn; intros H (y & Hy & Hlt); [now apply elem_of_nil in Hy|].
  pose proof (H x ltac:(now left)). pose proof (zsum_le f g l (fun y Hy => H y ltac:(now right))).
  apply elem_of_cons in Hy as [->|Hy]; [lia|].
  pose proof (IH (fun y Hy => H y ltac:(now right)) ltac:(eauto)). lia.
Qed.

Lemma zsum_ext f g l : (forall x, x ∈ l -> f x = g x) -> zsum f l = zsum g l.
Proof.
  intros H. apply Z.le_antisymm; apply zsum_le; intros x Hx; rewrite (H x Hx); lia.
Qed.

Lemma zsum_const c l : zsum (fun _ => c) l = c * Z.of_nat (length l).
Proof. induction l as [|x l IH]; cbn [zsum length]; [lia|]. rewrite IH. lia. Qed.

Lemma zsum_nonneg f l : (forall x, x ∈ l -> 0 <= f x) -> 0 <= zsum f l.
Proof.
  intros H. replace 0 with (zsum (fun _ => 0) l) by (rewrite zsum_const; lia). now apply zsum_le.
Qed.

#[export] Instance zsum_perm f : Proper ((≡ₚ) ==> (=)) (zsum f).
Proof. induction 1; cbn; lia. Qed.

Lemma zsum_subset f l1 l2 :
  (forall x, x ∈ l2 -> 0 <= f x) -> NoDup l1 -> (forall x, x ∈ l1 -> x ∈ l2) -> zsum f l1 <= zsum f l2.
Proof.
  intros Hf Hnd Hin. pose proof (NoDup_submseteq l1 l2 Hnd Hin) as [k Hk]%submseteq_Permutation.
  rewrite Hk, zsum_app. pose proof (zsum_nonneg f k) as H.
  assert (forall x, x ∈ k -> 0 <= f x) as Hfk.
  { intros x Hx. apply Hf. rewrite Hk, elem_of_app. now right. }
  specialize (H Hfk). lia.
Qed.
End Sums.

(** ** What the layout leaves alone *)

(** Blocks that differ in nothing but their mark and their offset. *)
Definition same_shape (b b' : block) : Prop :=
  b_stmts b' = b_stmts b /\ b_s b' = b_s b /\ JT b' = JT b /\ JF b' = JF b /\
  b_longjt b' = b_longjt b /\ b_longjf b' = b_longjf b.

Definition relayout (h h' : heap) : Prop := forall q, option_Forall2 same_shape (h !! q) (h' !! q).

#[export] Instance same_shape_equiv : Equivalence same_shape.
Proof. split; [now repeat split|intros b b'|intros b b' b'']; unfold same_shape; intuition congruence. Qed.

#[export] Instance relayout_equiv : Equivalence relayout.
Proof.
  split.
  - intros h q. reflexivity.
  - intros h h' H q. symmetry. apply H.
  - intros h h' h'' H1 H2 q. etransitivity; [apply H1|apply H2].
Qed.

Lemma relayout_Some h h' q b :
  relayout h h' -> h !! q = Some b -> exists b', h' !! q = Some b' /\ same_shape b b'.
Proof. intros H Hb. specialize (H q). rewrite Hb in H. inversion H; subst; eauto. Qed.

Lemma relayout_alter f q h : (forall b, same_shape b (f b)) -> relayout h (alter f q h).
Proof.
  intros Hf a. destruct (decide (a = q)) as [->|Hne].
  - rewrite lookup_alter_eq. destruct (h !! q); cbn; constructor. apply Hf.
  - rewrite lookup_alter_ne by done. reflexivity.
Qed.

Lemma relayout_Mark cm q h : relayout h (Mark cm q h).
Proof. apply relayout_alter. intros b. now repeat split. Qed.

Lemma relayout_set_offset o q h : relayout h (alter (set_offset o) q h).
Proof. apply relayout_alter. intros b. now repeat split. Qed.

Lemma same_shape_size b b' : same_shape b b' -> block_size b' = block_size b.
Proof. unfold same_shape, block_size. intros (-> & _ & _ & _ & -> & ->). reflexivity. Qed.

(** Slots the block at [q] takes. *)
Definition size_at (h : heap) (q : nat) : Z := match h !! q with Some b => block_size b | None => 0 end.

Lemma size_at_relayout h h' q : relayout h h' -> size_at h' q = size_at h q.
Proof.
  intros H. unfold size_at. specialize (H q). destruct H; [now apply same_shape_size|reflexivity].
Qed.

(** ** Marks *)

Definition marked (cm : Z) (h : heap) (q : nat) : bool :=
  match h !! q with Some b => isMarked cm b | None => false end.

Lemma marked_Mark cm h q x :
  is_Some (h !! q) -> marked cm (Mark cm q h) x = bool_decide (x = q) || marked cm h x.
Proof.
  intros [b Hb]. unfold marked, Mark. destruct (decide (x = q)) as [->|Hne].
  - rewrite lookup_alter_eq, Hb, bool_decide_true by done. cbn. unfold isMarked. cbn. apply Z.eqb_refl.
  - rewrite lookup_alter_ne, bool_decide_false by done. reflexivity.
Qed.

Lemma marked_set_offset cm h q o x : marked cm (alter (set_offset o) q h) x = marked cm h x.
Proof.
  unfold marked. destruct (decide (x = q)) as [->|Hne]; [|now rewrite lookup_alter_ne].
  rewrite lookup_alter_eq. now destruct (h !! q).
Qed.

Section Walk.
Context (cm : Z) (h0 : heap) (C : gset nat).

(** The successors of a block are both null or both in [C]. *)
Definition closed_block (b : block) : Prop :=
  (JT b = None /\ JF b = None) \/ exists t f, JT b = Some t /\ JF b = Some f /\ t ∈ C /\ f ∈ C.

Context (Hclosed : forall q, q ∈ C -> exists b, h0 !! q = Some b /\ closed_block b).

Definition unmarked (h : heap) : gset nat := filter (fun q => marked cm h q = false) C.

Lemma unmarked_mono h h' :
  (forall x, marked cm h x = true -> marked cm h' x = true) -> (size (unmarked h') <= size (unmarked h))%nat.
Proof.
  intros H. apply subseteq_size. intros x. unfold unmarked. rewrite !elem_of_filter.
  intros [Hm Hx]. split; [|done]. destruct (marked cm h x) eqn:E; [|done]. rewrite (H x E) in Hm. discriminate.
Qed.

Lemma unmarked_Mark h q :
  q ∈ C -> is_Some (h !! q) -> marked cm h q = false -> (size (unmarked (Mark cm q h)) < size (unmarked h))%nat.
Proof.
  intros Hq Hs Hm. apply subset_size. split.
  - intros x. unfold unmarked. rewrite !elem_of_filter, marked_Mark by done.
    intros [[_ ?]%orb_false_iff Hx]. done.
  - intros Hsub. assert (q ∈ unmarked h) as Hin by (unfold unmarked; now rewrite elem_of_filter).
    apply Hsub in Hin. unfold unmarked in Hin.
    rewrite elem_of_filter, marked_Mark, bool_decide_true in Hin by done. now destruct Hin.
Qed.

Lemma closed_at h q : relayout h0 h -> q ∈ C -> exists b, h !! q = Some b /\ closed_block b.
Proof.
  intros Hr Hq. destruct (Hclosed q Hq) as (b & Hb & Hc).
  destruct (relayout_Some _ _ _ _ Hr Hb) as (b' & Hb' & (_ & _ & HT & HF & _)). exists b'.
  split; [done|]. unfold closed_block. now rewrite HT, HF.
Qed.

(** Marks after a walk: those of before and the blocks of [L]. *)
Definition marks_added (h h' : heap) (L : list nat) : Prop :=
  forall x, marked cm h' x = true <-> marked cm h x = true \/ x ∈ L.

Lemma marks_added_mono h h' L x : marks_added h h' L -> marked cm h x = true -> marked cm h' x = true.
Proof. intros H Hx. apply H. now left. Qed.

Definition in_C (p : option nat) : Prop := match p with Some q => q ∈ C | None => True end.

Lemma closed_block_succ b side : closed_block b -> in_C (succ_of side b).
Proof. intros [[HT HF]|(t & f & HT & HF & ? & ?)]; destruct side; cbn; rewrite ?HT, ?HF; cbn; auto. Qed.

(** A heap on the way: the graph of [h0], with marks up to the current one. *)
Definition on_track (h : heap) : Prop :=
  relayout h0 h /\ forall q b, h !! q = Some b -> b_mark b <= cm.

Lemma on_track_Mark h q : on_track h -> on_track (Mark cm q h).
Proof.
  intros [Hr Hm]. split; [etransitivity; [exact Hr|apply relayout_Mark]|]. intros x b.
  unfold Mark. rewrite lookup_alter_Some. intros [(-> & b' & _ & ->)|[_ Hx]]; [cbn; lia|eauto].
Qed.

Lemma on_track_set_offset h q o : on_track h -> on_track (alter (set_offset o) q h).
Proof.
  intros [Hr Hm]. split; [etransitivity; [exact Hr|apply relayout_set_offset]|]. intros x b.
  rewrite lookup_alter_Some. intros [(-> & b' & Hb' & ->)|[_ Hx]]; [cbn; eauto|eauto].
Qed.

(** ** [count_stmts] *)

Definition succs_marked (h : heap) (q : nat) : Prop :=
  forall b side t, h0 !! q = Some b -> succ_of side b = Some t -> marked cm h t = true.

Definition counted (h : heap) (p : option nat) (n : Z) (h' : heap) (L : list nat) : Prop :=
  on_track h' /\ marks_added h h' L /\ NoDup L /\
  (forall q, q ∈ L -> q ∈ C /\ marked cm h q = false /\ succs_marked h' q) /\
  n = u32 (zsum (size_at h0) L) /\ (forall q, p = Some q -> marked cm h' q = true).

Lemma counted_nothing h p :
  on_track h -> (forall q, p = Some q -> marked cm h q = true) -> counted h p 0 h [].
Proof.
  intros Hr Hp. split; [done|]. split; [intros x; rewrite elem_of_nil; tauto|].
  split; [constructor|]. split; [intros q Hq; now apply elem_of_nil in Hq|]. split; [reflexivity|done].
Qed.

(** A block and its two successors. *)
Lemma counted_block h q b n1 h1 L1 n2 h2 L2 :
  on_track h -> q ∈ C -> h !! q = Some b -> marked cm h q = false ->
  counted (Mark cm q h) (JT b) n1 h1 L1 -> counted h1 (JF b) n2 h2 L2 ->
  counted h (Some q) (u32 (slength (b_stmts b) + u32 (n1 + n2) + 1 + b_longjt b + b_longjf b)) h2
    (q :: L1 ++ L2).
Proof.
  intros Hr Hq Hb Hm (Hr1 & Hm1 & Hn1 & Hl1 & -> & Hp1) (Hr2 & Hm2 & Hn2 & Hl2 & -> & Hp2).
  assert (forall x, marked cm (Mark cm q h) x = true <-> x = q \/ marked cm h x = true) as Hmq.
  { intros x. rewrite marked_Mark by eauto. rewrite orb_true_iff, bool_decide_eq_true. tauto. }
  assert (marked cm h1 q = true) as Hq1 by (apply Hm1; left; apply Hmq; auto).
  assert (q ∉ L1) as HqL1.
  { intros Hin. destruct (Hl1 q Hin) as (_ & Hf & _). rewrite (proj2 (Hmq q)) in Hf; [done|auto]. }
  assert (q ∉ L2) as HqL2 by (intros Hin; destruct (Hl2 q Hin) as (_ & Hf & _); congruence).
  split; [done|]. split.
  { intros x. unfold marks_added in Hm1, Hm2. rewrite Hm2, Hm1, Hmq, elem_of_cons, elem_of_app. tauto. }
  split.
  { constructor; [rewrite elem_of_app; tauto|]. apply NoDup_app. split; [done|]. split; [|done].
    intros x Hx Hx2. destruct (Hl2 x Hx2) as (_ & Hf & _). rewrite (proj2 (Hm1 x)) in Hf; [done|auto]. }
  assert (forall x, marked cm h x = false -> x <> q -> marked cm (Mark cm q h) x = false) as Hback.
  { intros x Hx Hne. destruct (marked cm (Mark cm q h) x) eqn:E; [|done].
    apply Hmq in E as [?|?]; congruence. }
  split; [|split].
  - intros x [->|[Hx|Hx]%elem_of_app]%elem_of_cons.
    + split; [done|]. split; [done|]. intros b0 side t Hb0 Hs.
      destruct (relayout_Some _ _ _ _ (proj1 Hr) Hb0) as (b' & Hb' & (_ & _ & HT & HF & _)).
      rewrite Hb in Hb'. injection Hb' as <-. destruct side; cbn in Hs.
      * apply (marks_added_mono _ _ _ _ Hm2), Hp1. congruence.
      * apply Hp2. congruence.
    + destruct (Hl1 x Hx) as (HC & Hf & Hs). split; [done|]. split.
      * destruct (marked cm h x) eqn:E; [|done]. rewrite (proj2 (Hmq x)) in Hf; [done|auto].
      * intros b0 side t Hb0 Ht. exact (marks_added_mono _ _ _ _ Hm2 (Hs b0 side t Hb0 Ht)).
    + destruct (Hl2 x Hx) as (HC & Hf & Hs). split; [done|]. split; [|done].
      destruct (marked cm h x) eqn:E; [|done].
      rewrite (proj2 (Hm1 x)) in Hf; [done|]. left. apply Hmq. auto.
  - cbn [zsum]. rewrite zsum_app.
    assert (size_at h0 q = block_size b) as ->.
    { rewrite <- (size_at_relayout _ _ q (proj1 Hr)). unfold size_at. now rewrite Hb. }
    unfold block_size. cint.
  - intros x [= <-]. exact (marks_added_mono _ _ _ _ Hm2 Hq1).
Qed.

Lemma count_stmts_ok fuel h p :
  on_track h -> in_C p -> (size (unmarked h) < fuel)%nat ->
  exists n h' L, count_stmts cm fuel h p = Some (n, h') /\ counted h p n h' L.
Proof.
  revert h p; induction fuel as [|fuel IH]; intros h [q|] Hr Hp Hf; try lia.
  2: { exists 0, h, []. split; [reflexivity|]. now apply counted_nothing. }
  destruct (closed_at h q (proj1 Hr) Hp) as (b & Hb & Hc). cbn [count_stmts]. rewrite Hb. cbn.
  destruct (isMarked cm b) eqn:Hm.
  - exists 0, h, []. split; [reflexivity|]. apply counted_nothing; [done|].
    intros x [= <-]. unfold marked. now rewrite Hb.
  - assert (marked cm h q = false) as Hmq by (unfold marked; now rewrite Hb).
    pose proof (unmarked_Mark h q Hp ltac:(eauto) Hmq) as Hlt.
    destruct (IH (Mark cm q h) (JT b)) as (n1 & h1 & L1 & E1 & H1);
      [now apply on_track_Mark|exact (closed_block_succ b true Hc)|lia|].
    pose proof (unmarked_mono (Mark cm q h) h1 (fun x => marks_added_mono _ _ _ x (proj1 (proj2 H1)))).
    destruct (IH h1 (JF b)) as (n2 & h2 & L2 & E2 & H2);
      [exact (proj1 H1)|exact (closed_block_succ b false Hc)|lia|].
    rewrite E1. cbn. rewrite E2. do 3 eexists. split; [reflexivity|].
    now apply (counted_block h q b n1 h1 L1 n2 h2 L2).
Qed.

(** From an unmarked heap, the blocks counted are closed under successors. *)
Lemma counted_closed h p n h' L q b side t :
  counted h p n h' L -> (forall x, marked cm h x = false) ->
  q ∈ L -> h0 !! q = Some b -> succ_of side b = Some t -> t ∈ L.
Proof.
  intros (_ & Hm & _ & Hl & _) Hnone Hq Hb Hs. destruct (Hl q Hq) as (_ & _ & Hsm).
  pose proof (Hsm b side t Hb Hs) as Ht. apply Hm in Ht as [Ht|Ht]; [|done].
  rewrite Hnone in Ht. discriminate.
Qed.
End Walk.
