(* ===== verification/LayoutConvert.v ===== *)
(** * Conversion places every block it walks

    The invariant of [convert_code_r]: the blocks placed so far fill the array from its
    end, each with its statements, its branch and its jumps, its successors placed before
    it. A conversion ends with one more block placed, or with one more branch known to need
    a jump; so [icode_to_fcode] ends. *)
From stdpp Require Import base numbers list gmap.
From Stdlib Require Import Strings.Byte.
From S2P Require Import Prelude BpfInsn BpfFilter Icode Layout LayoutProofs.
Open Scope Z_scope.

(** ** Instructions in the array *)

Definition code_at (code : list bpf_insn) (pos : Z) (l : list bpf_insn) : Prop :=
  forall i x, l !! i = Some x -> at_Z code (pos + Z.of_nat i) = Some x.

Lemma code_at_app code pos l1 l2 :
  code_at code pos (l1 ++ l2) -> code_at code pos l1 /\ code_at code (pos + Z.of_nat (length l1)) l2.
Proof.
  intros H. split; intros i x Hx.
  - apply H. now apply lookup_app_l_Some.
  - specialize (H (length l1 + i)%nat x). rewrite Nat2Z.inj_add, Z.add_assoc in H. apply H.
    rewrite lookup_app_r by lia. now rewrite Nat.add_comm, Nat.add_sub.
Qed.

Lemma code_at_head code pos x l : code_at code pos (x :: l) -> at_Z code pos = Some x.
Proof. intros H. specialize (H 0%nat x eq_refl). now rewrite Z.add_0_r in H. Qed.

Lemma code_at_kept code code' tail pos l :
  (forall j, tail <= j -> at_Z code' j = at_Z code j) -> tail <= pos -> code_at code pos l -> code_at code' pos l.
Proof. intros Hk Hp H i x Hx. rewrite Hk by lia. now apply H. Qed.

Lemma store_insns_ok code pos l :
  0 <= pos -> pos + Z.of_nat (length l) <= Z.of_nat (length code) ->
  exists code', store_insns code pos l = Some code' /\ length code' = length code /\ code_at code' pos l /\
    forall j, pos + Z.of_nat (length l) <= j -> at_Z code' j = at_Z code j.
Proof.
  intros H0 H1. unfold store_insns.
  destruct (Z.leb_spec 0 pos); [|lia]. destruct (Z.leb_spec (pos + Z.of_nat (length l)) (Z.of_nat (length code))); [|lia].
  cbn. eexists. split; [reflexivity|].
  assert (length (take (Z.to_nat pos) code) = Z.to_nat pos) as Ht by (rewrite length_take; lia).
  split; [|split].
  - rewrite !length_app, Ht, length_drop. lia.
  - intros i x Hx. pose proof (lookup_lt_Some _ _ _ Hx). unfold at_Z. destruct (Z.ltb_spec (pos + Z.of_nat i) 0); [lia|].
    rewrite lookup_app_r by (rewrite Ht; lia). rewrite Ht.
    rewrite lookup_app_l by lia. rewrite <- Hx. f_equal. lia.
  - intros j Hj. unfold at_Z. destruct (Z.ltb_spec j 0); [done|].
    rewrite lookup_app_r by (rewrite Ht; lia). rewrite Ht.
    rewrite lookup_app_r by lia. rewrite lookup_drop. f_equal. lia.
Qed.

(** ** One block *)

(** No statement of the list jumps. *)
Definition linear (ss : slist) : bool :=
  forallb (fun n => negb (live_node n) || negb (BPF_CLASS (s_code (sn_s n)) =? BPF_JMP)) ss.

Definition body (ss : slist) : list bpf_insn := (fun n => insn_of_stmt (sn_s n)) <$> List.filter live_node ss.

Lemma length_body ss : Z.of_nat (length (body ss)) = slength ss.
Proof. unfold body. now rewrite length_fmap. Qed.

Lemma convert_stmts_linear offset slen off ss :
  linear ss = true -> convert_stmts offset slen off ss = Some (body ss).
Proof.
  revert off; induction ss as [|n ss IH]; intros off; [reflexivity|].
  cbn [linear forallb]. rewrite andb_true_iff. intros [Hn Hss]. unfold body. cbn [convert_stmts List.filter].
  destruct (live_node n); [|now apply IH]. cbn in Hn. unfold convert_stmt. rewrite Hn. cbn.
  rewrite IH by done. reflexivity.
Qed.

Definition long_of (side : bool) (b : block) : Z := if side then b_longjt b else b_longjf b.

Lemma convert_edge_length off longj x j x' ja :
  0 <= longj -> convert_edge off longj x = Some (j, x', ja) -> Z.of_nat (length ja) <= longj.
Proof.
  unfold convert_edge. intros H0. destruct (256 <=? off); [|intros [= _ _ <-]; cbn; lia].
  destruct (Z.eqb_spec longj 0); [done|]. intros [= _ _ <-]. cbn. lia.
Qed.

Lemma convert_branch_length b at_ t f br :
  0 <= b_longjt b -> 0 <= b_longjf b -> convert_branch b at_ t f = BrCode br ->
  Z.of_nat (length br) <= 1 + b_longjt b + b_longjf b.
Proof.
  intros Ht Hf. unfold convert_branch.
  destruct (convert_edge _ (b_longjt b) _) as [[[jt x] ja1]|] eqn:E1; [|done].
  destruct (convert_edge _ (b_longjf b) _) as [[[jf x'] ja2]|] eqn:E2; [|done].
  intros [= <-]. apply convert_edge_length in E1, E2; try done. cbn [length]. rewrite length_app. lia.
Qed.

Lemma convert_branch_retry b at_ t f side :
  convert_branch b at_ t f = BrRetry side -> long_of side b = 0.
Proof.
  unfold convert_branch, convert_edge.
  repeat match goal with
         | |- context [if ?c then _ else _] => destruct c eqn:?
         end; try discriminate; intros [= <-]; cbn; lia.
Qed.

(** What a conversion sees of a block. *)
Lemma convert_branch_shape b b' at_ t f :
  same_shape b b' -> convert_branch b' at_ t f = convert_branch b at_ t f.
Proof. intros (_ & Hs & _ & _ & Ht & Hf). unfold convert_branch. now rewrite Hs, Ht, Hf. Qed.

Lemma relayout_need_jump side q h h' :
  relayout h h' -> relayout (alter (need_jump side) q h) (alter (need_jump side) q h').
Proof.
  intros H x. destruct (decide (x = q)) as [->|Hne]; [|now rewrite !lookup_alter_ne].
  rewrite !lookup_alter_eq. specialize (H q). destruct H as [b b' (H1 & H2 & H3 & H4 & H5 & H6)|]; cbn; constructor.
  unfold same_shape. destruct side; cbn; rewrite ?H1, ?H2, ?H5, ?H6; now repeat split.
Qed.

Definition offset_at (h : heap) (q : nat) : Z := match h !! q with Some b => b_offset b | None => 0 end.

Lemma offset_at_Mark cm q h x : offset_at (Mark cm q h) x = offset_at h x.
Proof.
  unfold offset_at, Mark. destruct (decide (x = q)) as [->|Hne]; [|now rewrite lookup_alter_ne].
  rewrite lookup_alter_eq. now destruct (h !! q).
Qed.

Lemma offset_at_set h q o x : x <> q -> offset_at (alter (set_offset o) q h) x = offset_at h x.
Proof. intros Hne. unfold offset_at. now rewrite lookup_alter_ne. Qed.

Lemma offset_at_set_eq h q o : is_Some (h !! q) -> offset_at (alter (set_offset o) q h) q = o.
Proof. intros [b Hb]. unfold offset_at. now rewrite lookup_alter_eq, Hb. Qed.

Section Convert.
Context (cm : Z) (h0 : heap) (C : gset nat) (N : Z) (rank : nat -> nat).

(** What conversion needs of a block: no jumps among its statements, successors in [C]
    and below it. *)
Definition placeable (q : nat) (b : block) : Prop :=
  linear (b_stmts b) = true /\ 0 <= b_longjt b /\ 0 <= b_longjf b /\ closed_block C b /\
  forall side t, succ_of side b = Some t -> (rank t < rank q)%nat.

Context (Hblocks : forall q, q ∈ C -> exists b, h0 !! q = Some b /\ placeable q b).
Context (Hroom : forall L, NoDup L -> (forall q, q ∈ L -> q ∈ C) -> zsum (size_at h0) L <= N).
Context (HN : N < 2 ^ 31).

(** The branch of a block at [o], and the jumps after it. *)
Definition branch_code (h : heap) (L : list nat) (b : block) (o : Z) (br : list bpf_insn) : Prop :=
  (JT b = None /\ br = [insn_of_stmt (b_s b)]) \/
  exists t f, JT b = Some t /\ JF b = Some f /\ t ∈ L /\ f ∈ L /\
    o + block_size b <= offset_at h t < N /\ o + block_size b <= offset_at h f < N /\
    convert_branch b (o + slength (b_stmts b)) (offset_at h t) (offset_at h f) = BrCode br.

Definition placed (h : heap) (code : list bpf_insn) (tail : Z) (L : list nat) (q : nat) : Prop :=
  exists b br, h0 !! q = Some b /\ marked cm h q = true /\ 0 <= tail <= offset_at h q /\ offset_at h q < N /\
    code_at code (offset_at h q) (body (b_stmts b) ++ br) /\ branch_code h L b (offset_at h q) br.

Definition inv (st : cv_state) (L : list nat) : Prop :=
  on_track cm h0 (cv_heap st) /\ NoDup L /\ (forall q, q ∈ L -> q ∈ C) /\
  ftail st = N - zsum (size_at h0) L /\ Z.of_nat (length (cv_code st)) = N /\
  forall q, q ∈ L -> placed (cv_heap st) (cv_code st) (ftail st) L q.

Lemma placed_kept h code tail L h' code' tail' L' q :
  placed h code tail L q -> q ∈ L -> (forall x, x ∈ L -> offset_at h' x = offset_at h x /\ x ∈ L') ->
  (forall x, marked cm h x = true -> marked cm h' x = true) ->
  (forall j, tail <= j -> at_Z code' j = at_Z code j) -> 0 <= tail' <= tail ->
  placed h' code' tail' L' q.
Proof.
  intros (b & br & Hb & Hm & Ht & HqN & Hc & Hbr) Hq Hsame Hmarks Hcode Htail.
  exists b, br. rewrite (proj1 (Hsame q Hq)). split; [done|]. split; [auto|]. split; [lia|]. split; [lia|].
  split; [eapply code_at_kept; [exact Hcode|lia|done]|].
  destruct Hbr as [?|(t & f & HT & HF & HtL & HfL & Ho1 & Ho2 & Hbr)]; [now left|right].
  exists t, f. rewrite (proj1 (Hsame t HtL)), (proj1 (Hsame f HfL)).
  destruct (Hsame t HtL), (Hsame f HfL). auto 10.
Qed.

Lemma inv_Mark st L q :
  inv st L -> marked cm (cv_heap st) q = false -> q ∈ C ->
  inv (mk_cv (Mark cm q (cv_heap st)) (cv_code st) (ftail st)) L.
Proof.
  intros (Hon & Hnd & HC & Hft & Hlen & Hpl) Hm Hq.
  destruct (Hblocks q Hq) as (b & Hb & _). destruct (relayout_Some _ _ _ _ (proj1 Hon) Hb) as (b' & Hb' & _).
  split; [now apply on_track_Mark|]. split; [done|]. split; [done|]. split; [done|]. split; [done|].
  intros x Hx. pose proof (Hpl x Hx) as Hpx. eapply placed_kept; [exact Hpx|done| | |done|].
  - intros y Hy. cbn [cv_heap]. now rewrite offset_at_Mark.
  - intros y Hy. cbn [cv_heap]. rewrite marked_Mark by eauto. rewrite Hy. apply orb_true_r.
  - destruct Hpx as (? & ? & _ & _ & ? & _). cbn. lia.
Qed.

(** ** Placing a block *)

Lemma zsum_size_nonneg L : (forall x, x ∈ L -> x ∈ C) -> 0 <= zsum (size_at h0) L.
Proof.
  induction L as [|x L IH]; cbn; intros HC; [lia|].
  destruct (Hblocks x (HC x ltac:(now left))) as (b & Hb & (_ & ? & ? & _)).
  pose proof (IH (fun y Hy => HC y ltac:(now right))). unfold size_at at 1. rewrite Hb.
  unfold block_size, slength. lia.
Qed.

Definition too_long (h : heap) : Prop :=
  exists q b side, q ∈ C /\ h0 !! q = Some b /\ long_of side b = 0 /\
    relayout (alter (need_jump side) q h0) h /\ forall x bx, h !! x = Some bx -> b_mark bx <= cm.

Lemma too_long_intro h q b o side :
  on_track cm h0 h -> q ∈ C -> h0 !! q = Some b -> long_of side b = 0 ->
  too_long (alter (need_jump side) q (alter (set_offset o) q h)).
Proof.
  intros Hon Hq Hb Hl. exists q, b, side. split; [done|]. split; [done|]. split; [done|].
  pose proof (on_track_set_offset cm h0 h q o Hon) as [Hr Hm]. split; [now apply relayout_need_jump|].
  intros x bx. rewrite lookup_alter_Some. intros [(-> & b' & Hb' & ->)|[_ Hx]]; [|eauto].
  destruct side; cbn; eauto.
Qed.

Section Place.
Context (st : cv_state) (L : list nat) (q : nat) (b : block).
Context (Hinv : inv st L) (Hq : q ∈ C) (HqL : q ∉ L) (Hb : h0 !! q = Some b) (Hpl : placeable q b).
Context (Hm : marked cm (cv_heap st) q = true).
#[local] Abbreviation tail := (ftail st - block_size b).

Lemma size_at_q : size_at h0 q = block_size b.
Proof. unfold size_at. now rewrite Hb. Qed.

Lemma tail_room : 0 <= tail.
Proof.
  destruct Hinv as (_ & Hnd & HC & Hft & _). rewrite Hft.
  assert (zsum (size_at h0) (q :: L) <= N) as Hle.
  { apply Hroom; [now constructor|]. intros x [->|Hx]%elem_of_cons; auto. }
  cbn [zsum] in Hle. rewrite size_at_q in Hle. lia.
Qed.

Lemma block_size_pos : slength (b_stmts b) + 1 <= block_size b /\ 0 <= slength (b_stmts b).
Proof. destruct Hpl as (_ & ? & ? & _). unfold block_size. split; [lia|]. unfold slength. lia. Qed.

Lemma ftail_le : ftail st <= N.
Proof.
  destruct Hinv as (_ & _ & HC & Hft & _). pose proof (zsum_size_nonneg L HC). lia.
Qed.

Lemma tail_s32 : s32 tail = tail.
Proof.
  pose proof tail_room. pose proof ftail_le. pose proof block_size_pos. apply s32_id. lia.
Qed.
#[local] Abbreviation h' := (alter (set_offset (s32 tail)) q (cv_heap st)).

Lemma heap_at_q : exists b', cv_heap st !! q = Some b' /\ same_shape b b'.
Proof. exact (relayout_Some _ _ _ _ (proj1 (proj1 Hinv)) Hb). Qed.

Lemma offset_at_other x : x ∈ L -> offset_at h' x = offset_at (cv_heap st) x.
Proof. intros Hx. apply offset_at_set. intros ->. contradiction. Qed.

(** A stored block is placed, and the others stay so. *)
Lemma store_block br :
  Z.of_nat (length br) <= 1 + b_longjt b + b_longjf b -> branch_code h' (q :: L) b tail br ->
  exists code, store_insns (cv_code st) tail (body (b_stmts b) ++ br) = Some code /\
    inv (mk_cv h' code tail) (q :: L).
Proof.
  intros Hbr Hcode. pose proof tail_room. pose proof ftail_le. pose proof block_size_pos as [Hpos Hsl].
  destruct Hinv as (Hon & Hnd & HC & Hft & Hlen & Hplaced). destruct heap_at_q as (b' & Hb' & _).
  pose proof (length_body (b_stmts b)) as Hbody.
  assert (Z.of_nat (length (body (b_stmts b) ++ br)) <= block_size b) as Hfit.
  { rewrite length_app. unfold block_size. lia. }
  destruct (store_insns_ok (cv_code st) tail (body (b_stmts b) ++ br)) as (code & E & Hlc & Hat & Hkeep); [lia|lia|].
  exists code. split; [done|]. cbn [cv_heap cv_code ftail].
  split; [now apply on_track_set_offset|]. split; [now constructor|].
  split; [intros x [->|Hx]%elem_of_cons; auto|].
  split; [cbn [ftail zsum]; rewrite size_at_q; lia|]. split; [cbn [cv_code]; lia|].
  intros x [->|Hx]%elem_of_cons.
  - exists b, br. cbn [cv_heap cv_code ftail]. rewrite offset_at_set_eq, tail_s32 by eauto.
    rewrite tail_s32 in Hcode. rewrite marked_set_offset. repeat split; auto; lia.
  - eapply placed_kept; [exact (Hplaced x Hx)|done| | | |cbn; lia].
    + intros y Hy. split; [now apply offset_at_other|now right].
    + intros y Hy. cbn [cv_heap]. now rewrite marked_set_offset.
    + intros j Hj. apply Hkeep. lia.
Qed.

Lemma store_block_result br :
  Z.of_nat (length br) <= 1 + b_longjt b + b_longjf b -> branch_code h' (q :: L) b tail br ->
  match match store_insns (cv_code st) tail (body (b_stmts b) ++ br) with
        | None => CvFault
        | Some code => CvDone true (mk_cv h' code tail)
        end with
  | CvDone true st' =>
      inv st' (q :: L) /\ offset_at (cv_heap st') q = ftail st' /\
      forall x, marked cm (cv_heap st') x = marked cm (cv_heap st) x
  | CvDone false st' => too_long (cv_heap st')
  | _ => False
  end.
Proof.
  intros Hbr Hcode. destruct (store_block br Hbr Hcode) as (code & -> & Hi). split; [done|].
  destruct heap_at_q as (b' & Hb' & _). cbn [cv_heap ftail].
  split; [rewrite offset_at_set_eq, tail_s32 by eauto; done|]. intros x. apply marked_set_offset.
Qed.

Context (Hsucc : forall side t, succ_of side b = Some t -> t ∈ L).

(** A successor: its block, and where it is. *)
Lemma successor_at side t :
  succ_of side b = Some t ->
  exists bt, h' !! t = Some bt /\ b_offset bt = offset_at h' t /\ tail + block_size b <= offset_at h' t < N.
Proof.
  intros Ht. pose proof (Hsucc side t Ht) as HtL.
  destruct Hinv as (Hon & _ & _ & _ & _ & Hplaced). destruct (Hplaced t HtL) as (bt0 & _ & Hbt0 & _ & Hto & HtN & _).
  destruct (relayout_Some _ _ _ _ (proj1 (on_track_set_offset cm h0 _ q (s32 tail) Hon)) Hbt0) as (bt & Hbt & _).
  exists bt. split; [done|]. rewrite <- offset_at_other in Hto, HtN by done.
  split; [unfold offset_at; now rewrite Hbt|lia].
Qed.

Lemma place_block_ok :
  match place_block q st with
  | CvDone true st' =>
      inv st' (q :: L) /\ offset_at (cv_heap st') q = ftail st' /\
      forall x, marked cm (cv_heap st') x = marked cm (cv_heap st) x
  | CvDone false st' => too_long (cv_heap st')
  | _ => False
  end.
Proof.
  destruct heap_at_q as (b' & Hb' & Hsh). pose proof Hsh as (Hss & Hs & HT & HF & _).
  pose proof Hpl as (Hlin & Hlt & Hlf & Hcl & _).
  unfold place_block. rewrite Hb', HT, HF, Hs, Hss, (same_shape_size _ _ Hsh), convert_stmts_linear by done.
  destruct Hcl as [[EJT EJF]|(t & f & EJT & EJF & _ & _)]; rewrite EJT; [|rewrite EJF].
  - apply store_block_result; [cbn; lia|]. now left.
  - destruct (successor_at true t EJT) as (bt & -> & -> & Hto).
    destruct (successor_at false f EJF) as (bf & -> & -> & Hfo).
    rewrite (convert_branch_shape b b') by done.
    destruct (convert_branch b _ _ _) as [br|side] eqn:E.
    + apply store_block_result; [exact (convert_branch_length _ _ _ _ _ Hlt Hlf E)|].
      right. exists t, f. repeat split; try lia; try done; right; [exact (Hsucc true t EJT)|exact (Hsucc false f EJF)].
    + eapply too_long_intro; [exact (proj1 Hinv)|done|exact Hb|exact (convert_branch_retry _ _ _ _ _ E)].
Qed.
End Place.

(** ** [convert_code_r] *)

Definition converted (st : cv_state) (L : list nat) (p : option nat) (r : cv_result) : Prop :=
  match r with
  | CvDone true st' =>
      exists L', inv st' (L' ++ L) /\ marks_added cm (cv_heap st) (cv_heap st') L' /\
        (forall x, x ∈ L' -> marked cm (cv_heap st) x = false) /\
      (forall q, p = Some q -> q ∈ L' ++ L /\
         (marked cm (cv_heap st) q = false -> offset_at (cv_heap st') q = ftail st'))
  | CvDone false st' => too_long (cv_heap st')
  | _ => False
  end.

(** The blocks that are marked but not placed are being walked: they are above. *)
Definition pending_above (st : cv_state) (L : list nat) (p : option nat) : Prop :=
  forall x q, p = Some q -> marked cm (cv_heap st) x = true -> x ∉ L -> (rank q < rank x)%nat.

Lemma in_placed_marked st L x : inv st L -> x ∈ L -> marked cm (cv_heap st) x = true.
Proof. intros (_ & _ & _ & _ & _ & H) Hx. now destruct (H x Hx) as (? & ? & _ & ? & _). Qed.

Lemma converted_nothing st L p :
  inv st L -> (forall q, p = Some q -> q ∈ L) -> converted st L p (CvDone true st).
Proof.
  intros Hi Hp. exists []. split; [done|]. split; [intros x; rewrite elem_of_nil; tauto|].
  split; [intros x Hx; now apply elem_of_nil in Hx|]. intros q Hq. specialize (Hp q Hq).
  split; [done|]. rewrite (in_placed_marked _ _ _ Hi Hp). discriminate.
Qed.

(** Both successors converted, then the block. *)
Lemma converted_block st L q b st1 st2 L1 L2 :
  let st0 := mk_cv (Mark cm q (cv_heap st)) (cv_code st) (ftail st) in
  inv st L -> q ∈ C -> h0 !! q = Some b -> placeable q b -> marked cm (cv_heap st) q = false ->
  inv st1 (L1 ++ L) -> marks_added cm (cv_heap st0) (cv_heap st1) L1 ->
  (forall x, x ∈ L1 -> marked cm (cv_heap st0) x = false) -> (forall t, JF b = Some t -> t ∈ L1 ++ L) ->
  inv st2 (L2 ++ L1 ++ L) -> marks_added cm (cv_heap st1) (cv_heap st2) L2 ->
  (forall x, x ∈ L2 -> marked cm (cv_heap st1) x = false) -> (forall t, JT b = Some t -> t ∈ L2 ++ L1 ++ L) ->
  converted st L (Some q) (place_block q st2).
Proof.
  intros st0 Hi Hq Hb Hpl Hm Hi1 Ha1 Hf1 HF1 Hi2 Ha2 Hf2 HT2. subst st0; cbn [cv_heap] in *.
  assert (is_Some (cv_heap st !! q)) as Hsq.
  { destruct (relayout_Some _ _ _ _ (proj1 (proj1 Hi)) Hb) as (b' & Hb' & _). eauto. }
  assert (forall x, marked cm (Mark cm q (cv_heap st)) x = true <-> x = q \/ marked cm (cv_heap st) x = true) as Hmq.
  { intros x. rewrite marked_Mark by done. rewrite orb_true_iff, bool_decide_eq_true. tauto. }
  assert (marked cm (cv_heap st1) q = true) as Hq1 by (apply Ha1; left; apply Hmq; auto).
  assert (marked cm (cv_heap st2) q = true) as Hq2 by (apply Ha2; auto).
  assert (forall x, x ∈ L1 -> x <> q /\ marked cm (cv_heap st) x = false) as Hnew1.
  { intros x Hx. specialize (Hf1 x Hx). rewrite marked_Mark in Hf1 by done.
    apply orb_false_iff in Hf1 as [?%bool_decide_eq_false ?]. done. }
  assert (forall x, x ∈ L2 -> x <> q /\ marked cm (cv_heap st) x = false) as Hnew2.
  { intros x Hx. specialize (Hf2 x Hx). split; [intros ->; congruence|].
    destruct (marked cm (cv_heap st) x) eqn:E; [|done]. rewrite (proj2 (Ha1 x)) in Hf2; [done|].
    left. apply Hmq. auto. }
  assert (q ∉ L2 ++ L1 ++ L) as HqL.
  { rewrite !elem_of_app. intros [Hx|[Hx|Hx]]; [now apply Hnew2 in Hx|now apply Hnew1 in Hx|].
    apply (in_placed_marked _ _ _ Hi) in Hx. congruence. }
  pose proof (place_block_ok st2 (L2 ++ L1 ++ L) q b Hi2 Hq HqL Hb Hpl Hq2) as Hpb.
  destruct (place_block q st2) as [[] st'| |]; cbn [converted]; try (apply Hpb).
  all: try (intros [] t Ht; [exact (HT2 t Ht)|]; rewrite elem_of_app; right; exact (HF1 t Ht)).
  destruct Hpb as (Hi' & Ho' & Hm').
  { intros [] t Ht; [exact (HT2 t Ht)|]. rewrite elem_of_app. right. exact (HF1 t Ht). }
  exists (q :: L2 ++ L1). cbn [app]. rewrite <- app_assoc. split; [done|]. split; [|split].
  - intros x. rewrite Hm'. unfold marks_added in Ha1, Ha2. rewrite Ha2, Ha1, Hmq, elem_of_cons, elem_of_app. tauto.
  - intros x [->|[Hx|Hx]%elem_of_app]%elem_of_cons; [done|now apply Hnew2|now apply Hnew1].
  - intros x [= <-]. split; [now left|done].
Qed.

Lemma pending_Mark st L q p :
  pending_above st L (Some q) -> is_Some (cv_heap st !! q) ->
  (forall t, p = Some t -> (rank t < rank q)%nat) ->
  pending_above (mk_cv (Mark cm q (cv_heap st)) (cv_code st) (ftail st)) L p.
Proof.
  intros Hab Hs Hr x t Ht. cbn [cv_heap]. rewrite marked_Mark by done. specialize (Hr t Ht).
  intros [Hx%bool_decide_eq_true|Hx]%orb_true_iff Hni; [now subst x|].
  specialize (Hab x q eq_refl Hx Hni). lia.
Qed.

Lemma pending_after st L st1 L1 p :
  pending_above st L p -> marks_added cm (cv_heap st) (cv_heap st1) L1 -> pending_above st1 (L1 ++ L) p.
Proof.
  intros Hab Ha x t Ht Hx Hni. rewrite elem_of_app in Hni. apply Ha in Hx as [Hx|Hx]; [|tauto].
  apply (Hab x t Ht Hx). tauto.
Qed.

Lemma convert_code_r_ok fuel p st L :
  inv st L -> in_C C p -> (size (unmarked cm C (cv_heap st)) < fuel)%nat -> pending_above st L p ->
  converted st L p (convert_code_r cm fuel p st).
Proof.
  revert p st L; induction fuel as [|fuel IH]; intros [q|] st L Hi Hp Hf Hab; try lia.
  2: now apply converted_nothing.
  destruct (Hblocks q Hp) as (b & Hb & Hpl). pose proof Hpl as (_ & _ & _ & Hcl & Hrank).
  destruct (relayout_Some _ _ _ _ (proj1 (proj1 Hi)) Hb) as (b' & Hb' & Hsh).
  pose proof Hsh as (_ & _ & HT & HF & _).
  cbn [convert_code_r]. rewrite Hb'. destruct (isMarked cm b') eqn:Hm.
  - apply converted_nothing; [done|]. intros x [= <-]. destruct (decide (q ∈ L)) as [|Hni]; [done|].
    assert (marked cm (cv_heap st) q = true) as Hq by (unfold marked; now rewrite Hb').
    specialize (Hab q q eq_refl Hq Hni). lia.
  - assert (marked cm (cv_heap st) q = false) as Hmq by (unfold marked; now rewrite Hb').
    pose proof (unmarked_Mark cm C (cv_heap st) q Hp ltac:(eauto) Hmq) as Hlt.
    rewrite HT, HF. set (st0 := mk_cv (Mark cm q (cv_heap st)) (cv_code st) (ftail st)).
    assert (inv st0 L) as Hi0 by now apply inv_Mark.
    assert (forall side, pending_above st0 L (succ_of side b)) as Hab0.
    { intros side. apply pending_Mark; eauto. }
    pose proof (IH (JF b) st0 L Hi0 (closed_block_succ C b false Hcl) ltac:(cbn; lia) (Hab0 false)) as H1.
    destruct (convert_code_r cm fuel (JF b) st0) as [[] st1| |]; cbn [cv_and]; try exact H1.
    destruct H1 as (L1 & Hi1 & Ha1 & Hf1 & HF1).
    pose proof (unmarked_mono cm C _ _ (fun x => marks_added_mono cm _ _ _ x Ha1)) as Hle. cbn [cv_heap st0] in Hle.
    pose proof (IH (JT b) st1 (L1 ++ L) Hi1 (closed_block_succ C b true Hcl) ltac:(lia)
                  (pending_after _ _ _ _ _ (Hab0 true) Ha1)) as H2.
    destruct (convert_code_r cm fuel (JT b) st1) as [[] st2| |]; cbn [cv_and]; try exact H2.
    destruct H2 as (L2 & Hi2 & Ha2 & Hf2 & HT2).
    exact (converted_block st L q b st1 st2 L1 L2 Hi Hp Hb Hpl Hmq Hi1 Ha1 Hf1 (fun t Ht => proj1 (HF1 t Ht))
             Hi2 Ha2 Hf2 (fun t Ht => proj1 (HT2 t Ht))).
Qed.
End Convert.
