(* ===== verification/LayoutLoop.v ===== *)
(** * [icode_to_fcode] ends with every block placed

    Each attempt either places the blocks reachable from the root, with the root first, or
    gives one more branch its jump; a branch needs at most one. *)
From stdpp Require Import base numbers list gmap.
From Stdlib Require Import Strings.Byte.
From S2P Require Import Prelude BpfInsn BpfFilter Icode Layout LayoutProofs LayoutConvert.
Open Scope Z_scope.

(** ** Graphs that can be laid out *)

Definition same_insns (b b' : block) : Prop :=
  b_stmts b' = b_stmts b /\ b_s b' = b_s b /\ JT b' = JT b /\ JF b' = JF b.

(** The same program, whatever the state of its layout. *)
Definition same_prog (h h' : heap) : Prop := forall q, option_Forall2 same_insns (h !! q) (h' !! q).

#[export] Instance same_insns_preorder : PreOrder same_insns.
Proof. split; [now repeat split|intros b b' b'']; unfold same_insns; intuition congruence. Qed.

#[export] Instance same_prog_preorder : PreOrder same_prog.
Proof. split; [intros h q; reflexivity|intros h h' h'' H1 H2 q; etransitivity; [apply H1|apply H2]]. Qed.

Lemma same_prog_Some h h' q b :
  same_prog h h' -> h !! q = Some b -> exists b', h' !! q = Some b' /\ same_insns b b'.
Proof. intros H Hb. specialize (H q). rewrite Hb in H. inversion H; subst; eauto. Qed.

Lemma same_prog_dom h h' : same_prog h h' -> dom h' = dom h.
Proof.
  intros H. apply set_eq. intros q. rewrite !elem_of_dom. specialize (H q).
  destruct H; [|done]. split; eauto.
Qed.

Lemma relayout_same_prog h h' : relayout h h' -> same_prog h h'.
Proof. intros H q. specialize (H q). destruct H as [b b' (? & ? & ? & ? & _)|]; constructor. now repeat split. Qed.

Lemma need_jump_same_prog side q h : same_prog h (alter (need_jump side) q h).
Proof.
  intros x. destruct (decide (x = q)) as [->|Hne]; [|rewrite lookup_alter_ne by done; reflexivity].
  rewrite lookup_alter_eq. destruct (h !! q) as [b|]; cbn; constructor. now destruct side.
Qed.

(** A branch statement: a comparison or a return. *)
Definition is_branch (s : stmt) : bool :=
  match decode_op (u16 (s_code s)) with Some RET_K | Some RET_A | Some (JCOND _ _) => true | _ => false end.

(** Slots the blocks could take in all, with every jump. *)
Definition slots_at (h : heap) (q : nat) : Z :=
  match h !! q with Some b => slength (b_stmts b) + 3 | None => 0 end.
Definition graph_size (h : heap) : Z := zsum (slots_at h) (elements (dom h)).

Record layable (cur_mark : Z) (h : heap) (C : gset nat) (rank : nat -> nat) : Prop := {
  lay_block : forall q, q ∈ C -> exists b, h !! q = Some b /\ linear (b_stmts b) = true /\
    is_branch (b_s b) = true /\ closed_block C b /\
    forall side t, succ_of side b = Some t -> (rank t < rank q)%nat;
  lay_long : forall q b, h !! q = Some b -> 0 <= b_longjt b <= 1 /\ 0 <= b_longjf b <= 1;
  lay_mark : forall q b, h !! q = Some b -> b_mark b <= cur_mark;
  lay_size : graph_size h < 2 ^ 31
}.

Lemma graph_size_same_prog h h' : same_prog h h' -> graph_size h' = graph_size h.
Proof.
  intros H. unfold graph_size. rewrite (same_prog_dom _ _ H). apply zsum_ext. intros q _.
  unfold slots_at. specialize (H q). destruct H as [b b' (-> & _)|]; reflexivity.
Qed.

(** Jumps the branches could still get. *)
Definition slack_at (h : heap) (q : nat) : Z :=
  match h !! q with Some b => (1 - b_longjt b) + (1 - b_longjf b) | None => 0 end.
Definition slack (h : heap) : Z := zsum (slack_at h) (elements (dom h)).

Lemma slack_bound cm h C rank : layable cm h C rank -> 0 <= slack h <= 2 * Z.of_nat (size h).
Proof.
  intros [_ Hl _ _]. unfold slack. split.
  - apply zsum_nonneg. intros q _. unfold slack_at. destruct (h !! q) eqn:E; [|lia]. pose proof (Hl _ _ E). lia.
  - replace (2 * Z.of_nat (size h)) with (zsum (fun _ : nat => 2) (elements (dom h))).
    + apply zsum_le. intros q _. unfold slack_at. destruct (h !! q) eqn:E; [|lia]. pose proof (Hl _ _ E). lia.
    + rewrite zsum_const. change (length (elements (dom h))) with (size (dom h)). now rewrite size_dom.
Qed.

(** What a failed attempt changes. *)
Lemma failed_attempt cm cm' h C rank C' h' :
  layable cm h C rank -> too_long cm' h C' h' ->
  layable cm' h' C rank /\ slack h' < slack h /\ same_prog h h'.
Proof.
  intros [Hb Hl Hm Hs] (q & b & side & _ & Hq & Hlong & Hr & Hm').
  assert (same_prog h h') as Hsp.
  { etransitivity; [apply need_jump_same_prog|apply relayout_same_prog; exact Hr]. }
  assert (forall x bx, h' !! x = Some bx -> exists bx0, h !! x = Some bx0 /\
    (if decide (x = q) then
       b_longjt bx = b_longjt bx0 + (if side then 1 else 0) /\ b_longjf bx = b_longjf bx0 + (if side then 0 else 1)
     else b_longjt bx = b_longjt bx0 /\ b_longjf bx = b_longjf bx0)) as Hback.
  { intros x bx Hx. specialize (Hr x). rewrite Hx in Hr. inversion Hr as [b1 b2 (_ & _ & _ & _ & H1 & H2) E|]; subst.
    symmetry in E. rewrite lookup_alter_Some in E. destruct E as [(-> & b0 & Hb0 & ->)|[Hne E]].
    - exists b0. rewrite decide_True by done. split; [done|]. destruct side; cbn in *; lia.
    - exists b1. rewrite decide_False by done. done. }
  split; [constructor|split; [|done]].
  - intros x Hx. destruct (Hb x Hx) as (bx & Hbx & Hrest).
    destruct (same_prog_Some _ _ _ _ Hsp Hbx) as (bx' & Hbx' & (E1 & E2 & E3 & E4)). exists bx'.
    split; [done|]. unfold closed_block in *. rewrite E1, E2, E3, E4. destruct Hrest as (? & ? & ? & Hrank).
    repeat split; auto. intros s t Ht. apply (Hrank s t). destruct s; cbn in *; congruence.
  - intros x bx Hx. destruct (Hback x bx Hx) as (bx0 & Hx0 & Hd). pose proof (Hl x bx0 Hx0).
    case_decide; [subst x|lia]. replace bx0 with b in * by congruence. destruct side; cbn in Hlong; lia.
  - exact Hm'.
  - now rewrite (graph_size_same_prog _ _ Hsp).
  - unfold slack. rewrite (same_prog_dom _ _ Hsp).
    assert (forall x, slack_at h' x = slack_at h x - (if decide (x = q) then 1 else 0)) as Hsl.
    { intros x. unfold slack_at. destruct (h' !! x) as [bx|] eqn:Hx.
      - destruct (Hback x bx Hx) as (bx0 & -> & Hd). case_decide; [destruct side|]; lia.
      - pose proof (Hsp x) as Hn. rewrite Hx in Hn. inversion Hn as [|E]. rewrite decide_False; [lia|]. intros ->. congruence. }
    apply zsum_lt.
    + intros x _. rewrite Hsl. case_decide; lia.
    + exists q. split; [apply elem_of_elements, elem_of_dom; eauto|]. rewrite Hsl, decide_True by done. lia.
Qed.

(** ** One attempt *)

Definition well_laid (b : block) : Prop :=
  linear (b_stmts b) = true /\ is_branch (b_s b) = true /\
  slength (b_stmts b) + 1 <= block_size b /\ (JT b = None -> JF b = None).

(** The blocks of [L] lie in the program, in their order, the root first. *)
Definition laid_out (h : heap) (root : nat) (code : list bpf_insn) (h' : heap) : Prop :=
  exists cm h0 N L, same_prog h h0 /\ N < 2 ^ 31 /\
    (forall q, q ∈ L -> placed cm h0 N h' code 0 L q /\
       exists b, h0 !! q = Some b /\ well_laid b) /\
    root ∈ L /\ offset_at h' root = 0.

Section Attempt.
Context (cm : Z) (h : heap) (C : gset nat) (rank : nat -> nat) (root : nat).
Context (Hlay : layable cm h C rank) (Hroot : root ∈ C).

Lemma size_at_bounds q : 0 <= size_at h q <= slots_at h q.
Proof.
  unfold size_at, slots_at. destruct (h !! q) as [b|] eqn:E; [|lia].
  pose proof (lay_long _ _ _ _ Hlay q b E). unfold block_size, slength. lia.
Qed.

Lemma C_dom q : q ∈ C -> q ∈ dom h.
Proof. intros Hq. destruct (lay_block _ _ _ _ Hlay q Hq) as (b & Hb & _). apply elem_of_dom. eauto. Qed.

Lemma total_bound L : NoDup L -> (forall q, q ∈ L -> q ∈ C) -> 0 <= zsum (size_at h) L < 2 ^ 31.
Proof.
  intros Hnd HC. pose proof (lay_size _ _ _ _ Hlay). split.
  - apply zsum_nonneg. intros q _. apply size_at_bounds.
  - eapply Z.le_lt_trans; [|exact H]. etransitivity.
    + apply (zsum_subset (size_at h) L (elements (dom h))); [|done|].
      * intros q _. apply size_at_bounds.
      * intros q Hq. apply elem_of_elements, C_dom. auto.
    + apply zsum_le. intros q _. apply size_at_bounds.
Qed.

Lemma no_marks m h1 x : (forall q b, h1 !! q = Some b -> b_mark b <= m) -> marked (m + 1) h1 x = false.
Proof.
  intros Hm. unfold marked. destruct (h1 !! x) as [b|] eqn:E; [|done]. specialize (Hm x b E).
  unfold isMarked. lia.
Qed.

Lemma on_track_start m : cm <= m -> on_track m h h.
Proof. intros Hm. split; [reflexivity|]. intros q b Hb. pose proof (lay_mark _ _ _ _ Hlay q b Hb). lia. Qed.

(** [walk_fuel] is enough for a walk over blocks of the heap. *)
Lemma walk_fuel_enough m D h1 :
  dom h1 = dom h -> (forall q, q ∈ D -> q ∈ dom h) -> (size (unmarked m D h1) < walk_fuel h1)%nat.
Proof.
  intros Hd HD. unfold walk_fuel. rewrite <- (size_dom (D := gset nat) h1), Hd.
  assert (size (unmarked m D h1) <= size (dom h))%nat; [|lia].
  apply subseteq_size. intros q. unfold unmarked. rewrite elem_of_filter. intros [_ Hq]. auto.
Qed.

Lemma count_on D :
  root ∈ D -> (forall q, q ∈ D -> exists b, h !! q = Some b /\ closed_block D b) ->
  exists n h1 L, count_stmts (cm + 1) (walk_fuel h) h (Some root) = Some (n, h1) /\
    counted (cm + 1) h D h (Some root) n h1 L.
Proof.
  intros Hr HD. apply count_stmts_ok; [exact HD|apply on_track_start; lia|exact Hr|].
  apply walk_fuel_enough; [done|]. intros q Hq. destruct (HD q Hq) as (b & Hb & _). apply elem_of_dom. eauto.
Qed.

Lemma counted_in D n h1 L x :
  counted (cm + 1) h D h (Some root) n h1 L -> marked (cm + 1) h1 x = true <-> x ∈ L.
Proof.
  intros (_ & Hm & _). unfold marks_added in Hm. rewrite Hm. split; [|now right].
  intros [Hx|?]; [|done]. rewrite no_marks in Hx; [done|]. exact (lay_mark _ _ _ _ Hlay).
Qed.

Section Counted.
Context (n : Z) (h1 : heap) (L : list nat) (Hc : counted (cm + 1) h C h (Some root) n h1 L).

Lemma counted_total : n = zsum (size_at h) L.
Proof.
  destruct Hc as (_ & _ & Hnd & Hl & -> & _). apply u32_id. pose proof (total_bound L Hnd) as Hb.
  assert (forall q, q ∈ L -> q ∈ C) as HC by (intros q Hq; now apply Hl). specialize (Hb HC). lia.
Qed.

Lemma counted_block_ok q :
  q ∈ L -> exists b, h !! q = Some b /\ placeable (list_to_set L) rank q b /\ is_branch (b_s b) = true.
Proof.
  intros Hq. pose proof Hc as (_ & _ & _ & Hl & _). destruct (Hl q Hq) as (HqC & _ & _).
  destruct (lay_block _ _ _ _ Hlay q HqC) as (b & Hb & Hlin & Hbr & Hcl & Hrank). exists b.
  pose proof (lay_long _ _ _ _ Hlay q b Hb). split; [done|]. split; [|done].
  split; [done|]. split; [lia|]. split; [lia|]. split; [|done].
  assert (forall side t, succ_of side b = Some t -> t ∈ (list_to_set L : gset nat)) as Hin.
  { intros side t Ht. apply elem_of_list_to_set. eapply counted_closed; [exact Hc| |exact Hq|exact Hb|exact Ht].
    intros x. apply no_marks. exact (lay_mark _ _ _ _ Hlay). }
  destruct Hcl as [?|(t & f & HT & HF & _)]; [now left|right]. exists t, f.
  split; [done|]. split; [done|]. split; [exact (Hin true t HT)|exact (Hin false f HF)].
Qed.

Let start : cv_state := mk_cv h1 (replicate (Z.to_nat n) (mk_insn 0 0 0 0)) n.

Lemma attempt_start : inv (cm + 2) h (list_to_set L) n start [].
Proof.
  pose proof Hc as ((Hr & Hm) & _ & Hnd & Hl & _).
  assert (forall q, q ∈ L -> q ∈ C) as HC by (intros q Hq; now apply Hl).
  pose proof (total_bound L Hnd HC) as Hb. rewrite <- counted_total in Hb.
  split; [split; [exact Hr|intros q b Hq; specialize (Hm q b Hq); lia]|].
  split; [constructor|]. split; [intros q Hq; now apply elem_of_nil in Hq|].
  split; [cbn; lia|]. split; [cbn; rewrite length_replicate; lia|]. intros q Hq. now apply elem_of_nil in Hq.
Qed.

Lemma attempt_converted :
  converted (cm + 2) h (list_to_set L) n start [] (Some root)
    (convert_code_r (cm + 2) (walk_fuel h1) (Some root) start).
Proof.
  pose proof Hc as ((Hr & Hm) & Hma & Hnd & Hl & _ & Hp).
  assert (forall q, q ∈ L -> q ∈ C) as HC by (intros q Hq; now apply Hl).
  assert (forall x, marked (cm + 2) h1 x = false) as Hnone.
  { intros x. replace (cm + 2) with (cm + 1 + 1) by lia. now apply no_marks. }
  apply (convert_code_r_ok (cm + 2) h (list_to_set L) n rank).
  - intros q Hq%elem_of_list_to_set. destruct (counted_block_ok q Hq) as (b & Hb & Hpl & _). eauto.
  - intros L' Hnd' HL'. rewrite counted_total. apply zsum_subset; [intros q _; apply size_at_bounds|done|].
    intros q Hq. apply HL' in Hq. now apply elem_of_list_to_set in Hq.
  - rewrite counted_total. now apply total_bound.
  - exact attempt_start.
  - cbn. apply elem_of_list_to_set, (counted_in _ _ _ _ _ Hc). auto.
  - apply walk_fuel_enough.
    + apply same_prog_dom. now apply relayout_same_prog.
    + intros q Hq%elem_of_list_to_set. apply C_dom. auto.
  - intros x q _ Hx. cbn in Hx. rewrite Hnone in Hx. discriminate.
Qed.

(** Every block counted is placed: the array is full. *)
Lemma placed_all st L' :
  count_stmts (cm + 1) (walk_fuel h) h (Some root) = Some (n, h1) ->
  inv (cm + 2) h (list_to_set L) n st L' -> root ∈ L' -> ftail st = 0.
Proof.
  intros HE (_ & Hnd' & HC' & Hft & _ & Hpl) Hr'. rewrite Hft, counted_total.
  assert (forall q, q ∈ L' -> q ∈ L) as Hsub by (intros q Hq; now apply HC', elem_of_list_to_set in Hq).
  destruct (count_on (list_to_set L')) as (n2 & h2 & L2 & E2 & H2).
  { now apply elem_of_list_to_set. }
  { intros q Hq%elem_of_list_to_set. destruct (Hpl q Hq) as (b & br & Hb & _ & _ & _ & _ & Hbr). exists b.
    split; [done|]. destruct Hbr as [[HT _]|(t & f & HT & HF & Ht & Hf & _)].
    - left. destruct (counted_block_ok q (Hsub q Hq)) as (b' & Hb' & (_ & _ & _ & Hcl & _) & _).
      rewrite Hb in Hb'. injection Hb' as <-. destruct Hcl as [?|(t & f & HT' & _)]; [done|congruence].
    - right. exists t, f. rewrite !elem_of_list_to_set. auto. }
  rewrite HE in E2. injection E2 as <- <-. pose proof Hc as (_ & _ & Hnd & _).
  assert (forall q, q ∈ L -> q ∈ L') as Hsup.
  { intros q Hq. apply (counted_in _ _ _ _ _ Hc), (counted_in _ _ _ _ _ H2) in Hq.
    destruct H2 as (_ & _ & _ & Hl2 & _). destruct (Hl2 q Hq) as (HqD & _). now apply elem_of_list_to_set in HqD. }
  pose proof (zsum_subset (size_at h) L L' (fun x _ => proj1 (size_at_bounds x)) Hnd Hsup).
  pose proof (zsum_subset (size_at h) L' L (fun x _ => proj1 (size_at_bounds x)) Hnd' Hsub). lia.
Qed.
End Counted.

(** An attempt lays the graph out, or brings it closer to what can be. *)
Lemma attempt_ok :
  exists n h1, count_stmts (cm + 1) (walk_fuel h) h (Some root) = Some (n, h1) /\
    match convert_code_r (cm + 2) (walk_fuel h1) (Some root)
            (mk_cv h1 (replicate (Z.to_nat n) (mk_insn 0 0 0 0)) n) with
    | CvDone true st => laid_out h root (cv_code st) (cv_heap st)
    | CvDone false st =>
        layable (cm + 2) (cv_heap st) C rank /\ slack (cv_heap st) < slack h /\ same_prog h (cv_heap st)
    | _ => False
    end.
Proof.
  destruct (count_on C Hroot) as (n & h1 & L & HE & Hc).
  { intros q Hq. destruct (lay_block _ _ _ _ Hlay q Hq) as (b & Hb & _ & _ & Hcl & _). eauto. }
  exists n, h1. split; [exact HE|]. pose proof (attempt_converted n h1 L Hc) as Hcv.
  destruct (convert_code_r _ _ _ _) as [[] st| |]; try exact Hcv.
  2: { eapply failed_attempt; [exact Hlay|exact Hcv]. }
  destruct Hcv as (L' & Hi & _ & _ & Hr). rewrite app_nil_r in Hi, Hr. destruct (Hr root eq_refl) as [HrL Ho].
  pose proof (placed_all n h1 L Hc st L' HE Hi HrL) as Hft. pose proof Hi as (_ & _ & HC' & _ & _ & Hpl).
  exists (cm + 2), h, n, L'. split; [reflexivity|]. split; [|split; [|split; [done|]]].
  - rewrite (counted_total n h1 L Hc). destruct Hc as (_ & _ & Hnd & Hl & _). apply total_bound; [done|].
    intros q Hq. now apply Hl.
  - intros q Hq. split; [rewrite <- Hft; auto|].
    specialize (HC' q Hq). apply elem_of_list_to_set in HC'.
    destruct (counted_block_ok n h1 L Hc q HC') as (b & Hb & (Hlin & ? & ? & Hcl & _) & Hbr).
    exists b. split; [done|]. split; [done|]. split; [done|]. split; [unfold block_size; lia|].
    intros HT. destruct Hcl as [[_ ?]|(t & f & HT' & _)]; [done|congruence].
  - rewrite Ho; [done|]. cbn. replace (cm + 2) with (cm + 1 + 1) by lia. apply no_marks. now destruct Hc as ((_ & ?) & _).
Qed.
End Attempt.

(** ** The loop *)

Lemma laid_out_same_prog h h' root code h2 : same_prog h h' -> laid_out h' root code h2 -> laid_out h root code h2.
Proof.
  intros Hs (cm & h0 & N & L & Hs' & Hrest). exists cm, h0, N, L. split; [etransitivity; eauto|done].
Qed.

Lemma icode_loop_ok fuel cm h C rank root :
  layable cm h C rank -> root ∈ C -> slack h < Z.of_nat fuel ->
  exists code h', icode_loop fuel cm h root = Some (code, h') /\ laid_out h root code h'.
Proof.
  revert cm h; induction fuel as [|fuel IH]; intros cm h Hlay Hroot Hf.
  { pose proof (slack_bound _ _ _ _ Hlay). lia. }
  destruct (attempt_ok cm h C rank root Hlay Hroot) as (n & h1 & E & Hcv).
  cbn [icode_loop]. rewrite E. cbn [mbind option_bind].
  destruct (convert_code_r _ _ _ _) as [[] st| |]; try contradiction; [eauto|].
  destruct Hcv as (Hlay' & Hsl & Hsp). destruct (IH (cm + 2) (cv_heap st) Hlay' Hroot ltac:(lia)) as (code & h' & E' & Hl).
  exists code, h'. split; [done|]. eapply laid_out_same_prog; eauto.
Qed.

(** [icode_to_fcode] always ends, with the graph laid out. *)
Lemma icode_to_fcode_laid_out cm h C rank root :
  layable cm h C rank -> root ∈ C ->
  exists code h', icode_to_fcode cm h root = Some (code, h') /\ laid_out h root code h'.
Proof.
  intros Hlay Hroot. apply icode_loop_ok with (C := C) (rank := rank); [done|done|].
  pose proof (slack_bound _ _ _ _ Hlay). lia.
Qed.

(** * Running the laid-out program

    The interpreter on the array follows the graph block by block: the statements in
    sequence, the branch, and a jump when the target is more than 255 instructions away. *)


Section Sim.
Context (p : list byte) (wirelen buflen : Z) (code : list bpf_insn).
#[local] Abbreviation runs fuel pc r := (run fuel code p wirelen buflen pc r).

Definition runs_to (pc : Z) (r : regs) (pc' : Z) (r' : regs) : Prop :=
  exists m, forall fuel, runs (m + fuel) pc r = runs fuel pc' r'.

Definition stops (pc : Z) (r : regs) (o : outcome) : Prop :=
  exists m, forall fuel, (m <= fuel)%nat -> runs fuel pc r = o.

Lemma runs_to_refl pc r : runs_to pc r pc r.
Proof. now exists 0%nat. Qed.

Lemma runs_to_trans pc1 r1 pc2 r2 pc3 r3 : runs_to pc1 r1 pc2 r2 -> runs_to pc2 r2 pc3 r3 -> runs_to pc1 r1 pc3 r3.
Proof.
  intros [m1 H1] [m2 H2]. exists (m1 + m2)%nat. intros fuel. now rewrite <- Nat.add_assoc, H1, H2.
Qed.

Lemma runs_to_stops pc1 r1 pc2 r2 o : runs_to pc1 r1 pc2 r2 -> stops pc2 r2 o -> stops pc1 r1 o.
Proof.
  intros [m1 H1] [m2 H2]. exists (m1 + m2)%nat. intros fuel Hf.
  replace fuel with (m1 + (fuel - m1))%nat by lia. rewrite H1. apply H2. lia.
Qed.

Lemma step_next pc i r d r' :
  at_Z code pc = Some i -> exec_insn p wirelen buflen i r = Next d r' -> runs_to pc r (pc + d + 1) r'.
Proof. intros Hi Hx. exists 1%nat. intros fuel. cbn. now rewrite Hi, Hx. Qed.

Lemma step_stop pc i r o : at_Z code pc = Some i -> exec_insn p wirelen buflen i r = Stop o -> stops pc r o.
Proof. intros Hi Hx. exists 1%nat. intros [|fuel] Hf; [lia|]. cbn. now rewrite Hi, Hx. Qed.

(** Only a jump moves the program counter. *)
Lemma exec_op_moves o i r d r' :
  exec_op o p wirelen buflen i r = Next d r' -> d = 0 \/ BPF_CLASS (encode_op o) = BPF_JMP.
Proof.
  destruct o; cbn [exec_op]; try (intros _; right; first [reflexivity|destruct op, src; reflexivity]);
    unfold exec_ld_abs, exec_ld_ind, load_packet, exec_ldx_msh, exec_reg, exec_alu, exec_neg; cbv zeta;
    intros H; left;
    repeat match type of H with
           | context [if ?b then _ else _] => destruct b
           | context [match ?x with _ => _ end] => destruct x
           end; congruence.
Qed.

Lemma exec_stmt_moves s r d r' :
  BPF_CLASS (s_code s) <> BPF_JMP -> exec_insn p wirelen buflen (insn_of_stmt s) r = Next d r' -> d = 0.
Proof.
  intros Hc. unfold exec_insn. cbn [insn_of_stmt i_code].
  destruct (decode_op (u16 (s_code s))) as [o|] eqn:E; [|done]. intros Hx.
  apply exec_op_moves in Hx as [|Hx]; [done|]. apply decode_op_Some in E. rewrite <- E in Hx.
  exfalso. apply Hc. rewrite <- Hx. unfold BPF_CLASS, u16.
  change 7 with (Z.ones 3). rewrite !Z.land_ones by lia.
  symmetry. apply Z.mod_mod_divide. exists (2 ^ 13). reflexivity.
Qed.

Lemma stmts_follow ss pos r :
  linear ss = true -> code_at code pos (body ss) ->
  match exec_stmts p wirelen buflen ss r with
  | inl r' => runs_to pos r (pos + slength ss) r'
  | inr o => stops pos r o
  end.
Proof.
  revert pos r; induction ss as [|n ss IH]; intros pos r.
  { intros _ _. cbn. rewrite Z.add_0_r. apply runs_to_refl. }
  cbn [linear forallb]. rewrite andb_true_iff. intros [Hn Hss] Hat. cbn [exec_stmts].
  unfold live_node in Hn. unfold body in Hat. cbn [List.filter] in Hat. unfold slength. cbn [List.filter].
  unfold live_node at 1 in Hat. unfold live_node at 1.
  destruct (s_code (sn_s n) =? NOP); cbn [negb] in *; [now apply IH|].
  cbn [orb] in Hn. apply negb_true_iff, Z.eqb_neq in Hn. cbn [fmap list_fmap] in Hat.
  pose proof (code_at_head _ _ _ _ Hat) as Hi. apply (code_at_app _ _ [_]) in Hat as [_ Hat].
  destruct (exec_insn p wirelen buflen (insn_of_stmt (sn_s n)) r) as [d r'|o] eqn:Hx.
  - assert (d = 0) as -> by exact (exec_stmt_moves _ _ _ _ Hn Hx). cbn [Z.eqb].
    pose proof (step_next _ _ _ _ _ Hi Hx) as Hstep. rewrite Z.add_0_r in Hstep.
    specialize (IH (pos + 1) r' Hss Hat). unfold slength in IH.
    destruct (exec_stmts p wirelen buflen ss r') as [r2|o].
    + cbn [length]. rewrite Nat2Z.inj_succ. replace (pos + Z.succ _) with (pos + 1 + Z.of_nat (length (List.filter live_node ss))) by lia.
      eapply runs_to_trans; eauto.
    + eapply runs_to_stops; eauto.
  - eapply step_stop; eauto.
Qed.

(** ** The branch *)

(** An edge leads to its target: directly, or through its jump. *)
Lemma edge_lands off longj x j x' ja at_ r :
  0 <= off < 2 ^ 31 -> 0 <= x <= 1 -> convert_edge off longj x = Some (j, x', ja) ->
  code_at code (at_ + 1 + x) ja -> runs_to (at_ + j + 1) r (at_ + 1 + off) r.
Proof.
  intros Hoff Hx. unfold convert_edge. destruct (Z.leb_spec 256 off) as [Hge|Hlt].
  - destruct (longj =? 0); [done|]. intros [= <- <- <-] Hat. apply code_at_head in Hat.
    rewrite u8_id by lia. replace (at_ + x + 1) with (at_ + 1 + x) by lia.
    pose proof (step_next _ _ r (off - (x + 1)) r Hat) as Hs.
    replace (at_ + 1 + off) with (at_ + 1 + x + (off - (x + 1)) + 1) by lia. apply Hs.
    unfold exec_insn. change (decode_op (i_code _)) with (Some JA). cbn [exec_op i_k].
    rewrite s32_u32, s32_id by lia. reflexivity.
  - intros [= <- <- <-] _. rewrite u8_id by lia. replace (at_ + off + 1) with (at_ + 1 + off) by lia.
    apply runs_to_refl.
Qed.

Lemma convert_edge_count off longj x j x' ja :
  convert_edge off longj x = Some (j, x', ja) -> x' = x + Z.of_nat (length ja) /\ (length ja <= 1)%nat.
Proof.
  unfold convert_edge. destruct (256 <=? off); [destruct (longj =? 0); [done|]|];
    intros [= _ <- <-]; cbn; lia.
Qed.

Lemma exec_branch_stops s i pos r o :
  is_branch s = true -> i_code i = u16 (s_code s) -> i_k i = u32 (s_k s) ->
  at_Z code pos = Some i -> exec_branch s r = Done o -> stops pos r o.
Proof.
  intros Hb Hc Hk Hi. unfold exec_branch, is_branch in *.
  destruct (decode_op (u16 (s_code s))) as [op|] eqn:E; [|done].
  destruct op; try done; intros [= <-]; eapply step_stop; try exact Hi;
    unfold exec_insn; rewrite Hc, E; cbn [exec_op]; now rewrite ?Hk.
Qed.

Lemma exec_branch_leaves s i pos r side r' :
  i_code i = u16 (s_code s) -> i_k i = u32 (s_k s) ->
  at_Z code pos = Some i -> exec_branch s r = Leave side r' ->
  r' = r /\ runs_to pos r (pos + (if side then i_jt i else i_jf i) + 1) r.
Proof.
  intros Hc Hk Hi. unfold exec_branch.
  destruct (decode_op (u16 (s_code s))) as [op|] eqn:E; [|done].
  destruct op as [| | | | | | | | | | | | | |op src| | | |]; try done. intros [= <- <-]. split; [done|].
  eapply step_next; [exact Hi|]. unfold exec_insn. rewrite Hc, E. cbn [exec_op]. unfold exec_jmp.
  replace (operand src i r) with (operand src (insn_of_stmt s) r) by (destruct src; cbn; congruence). reflexivity.
Qed.

Lemma branch_follows b at_ t f br side r r' :
  convert_branch b at_ t f = BrCode br -> code_at code at_ br ->
  0 <= t - at_ - 1 < 2 ^ 31 -> 0 <= f - at_ - 1 < 2 ^ 31 ->
  exec_branch (b_s b) r = Leave side r' -> runs_to at_ r (if side then t else f) r'.
Proof.
  unfold convert_branch, branch_off. intros Hbr Hat Ht Hf. rewrite !u32_id in Hbr by lia.
  destruct (convert_edge (t - at_ - 1) _ _) as [[[jt x] ja1]|] eqn:E1; [|done].
  destruct (convert_edge (f - at_ - 1) _ _) as [[[jf x'] ja2]|] eqn:E2; [|done]. injection Hbr as <-.
  pose proof (code_at_head _ _ _ _ Hat) as Hi. apply (code_at_app _ _ [_]) in Hat as [_ Hat].
  apply code_at_app in Hat as [Hat1 Hat2]. pose proof (convert_edge_count _ _ _ _ _ _ E1) as [Hx Hl].
  intros Hx'. pose proof (exec_branch_leaves (b_s b) (mk_insn (u16 (s_code (b_s b))) jt jf (u32 (s_k (b_s b)))) at_ r side r'
    eq_refl eq_refl Hi Hx') as [-> Hrun].
  cbn [i_jt i_jf length] in *. eapply runs_to_trans; [exact Hrun|]. destruct side.
  - replace t with (at_ + 1 + (t - at_ - 1)) at 1 by lia.
    eapply edge_lands; [lia| |exact E1|]; [lia|]. rewrite Z.add_0_r. exact Hat1.
  - replace f with (at_ + 1 + (f - at_ - 1)) at 1 by lia.
    eapply edge_lands; [lia| |exact E2|]; [lia|]. replace (at_ + 1 + x) with (at_ + 1 + Z.of_nat (length ja1)) by lia. exact Hat2.
Qed.

(** ** The program *)

Lemma laid_out_stops cm h h0 N L h' :
  same_prog h h0 -> N < 2 ^ 31 ->
  (forall q, q ∈ L -> placed cm h0 N h' code 0 L q /\
     exists b, h0 !! q = Some b /\ well_laid b) ->
  forall fuel q r o, q ∈ L -> graph_run p wirelen buflen fuel h q r = Some o -> stops (offset_at h' q) r o.
Proof.
  intros Hsp HN Hall. induction fuel as [|fuel IH]; intros q r o Hq; cbn [graph_run]; [done|].
  destruct (Hall q Hq) as ((b & br & Hb & _ & Hpos & HqN & Hat & Hbr) & b0 & Hb0 & Hlin & Hisb & Hsz & HJ).
  rewrite Hb in Hb0. injection Hb0 as <-.
  destruct (h !! q) as [bh|] eqn:Hbh; [|done].
  destruct (same_prog_Some _ _ _ _ Hsp Hbh) as (b' & Hb' & (Hss & Hs & HT & HF)).
  rewrite Hb in Hb'. injection Hb' as <-. unfold exec_block. rewrite <- Hss, <- Hs.
  apply code_at_app in Hat as [Hbody Hbranch]. rewrite length_body in Hbranch.
  pose proof (stmts_follow _ _ r Hlin Hbody) as Hst.
  destruct (exec_stmts p wirelen buflen (b_stmts b) r) as [r1|o1].
  2: { intros [= <-]. exact Hst. }
  assert (0 <= slength (b_stmts b)) as Hsl by (unfold slength; lia).
  assert (exists i, at_Z code (offset_at h' q + slength (b_stmts b)) = Some i /\
    i_code i = u16 (s_code (b_s b)) /\ i_k i = u32 (s_k (b_s b))) as (i & Hi & Hc & Hk).
  { destruct Hbr as [[_ ->]|(t & f & _ & _ & _ & _ & _ & _ & Hcb)].
    - apply code_at_head in Hbranch. eauto.
    - unfold convert_branch in Hcb.
      destruct (convert_edge _ (b_longjt b) _) as [[[jt x] ja1]|]; [|done].
      destruct (convert_edge _ (b_longjf b) _) as [[[jf x'] ja2]|]; [|done]. injection Hcb as <-.
      apply code_at_head in Hbranch. eauto. }
  destruct (exec_branch (b_s b) r1) as [side r2|o2] eqn:Hx.
  2: { intros [= <-]. eapply runs_to_stops; [exact Hst|]. eapply exec_branch_stops; eauto. }
  destruct (succ_of side bh) as [t'|] eqn:Ht'; [|done]. intros Hrun.
  destruct Hbr as [[HTn _]|(t & f & HT0 & HF0 & HtL & HfL & Hto & Hfo & Hcb)].
  { specialize (HJ HTn). destruct side; cbn in Ht'; congruence. }
  assert (t' ∈ L /\ offset_at h' t' = if side then offset_at h' t else offset_at h' f) as [Ht'L Hoff].
  { destruct side; cbn in Ht'; [replace t' with t by congruence|replace t' with f by congruence]; done. }
  eapply runs_to_stops; [exact Hst|]. eapply runs_to_stops; [|exact (IH t' r2 o Ht'L Hrun)]. rewrite Hoff.
  eapply branch_follows; [exact Hcb|exact Hbranch|lia|lia|exact Hx].
Qed.
End Sim.
