(* ===== verification/OptState.v ===== *)
(** * State of the optimizer (optimize.c)

    The globals of the file, the field updates of blocks and edges the passes make, bit
    vectors as arrays of 32-bit words, and the sets of registers a statement uses and
    defines. [bpf_error] leaves the optimizer, as in the layout pass; a null pointer or an
    index outside an array is [OFault]; [OFuel] is an iteration the model cut off. *)
From stdpp Require Import base numbers list gmap.
From S2P Require Import Prelude BpfInsn BpfFilter Icode.
Open Scope Z_scope.

(** ** Results *)

Inductive oresult (A : Type) :=
| ODone (a : A)
| OError
| OAbort
| OFault
| OFuel.
Arguments ODone {A} a.
Arguments OError {A}.
Arguments OAbort {A}.
Arguments OFault {A}.
Arguments OFuel {A}.

#[export] Instance oresult_ret : MRet oresult := fun A => ODone.
#[export] Instance oresult_bind : MBind oresult := fun A B f r =>
  match r with
  | ODone a => f a
  | OError => OError
  | OAbort => OAbort
  | OFault => OFault
  | OFuel => OFuel
  end.

(** A read through a pointer or at an index. *)
Definition oget {A} (o : option A) : oresult A :=
  match o with Some a => ODone a | None => OFault end.

(** A loop over a list. *)
Fixpoint ofold {A B} (f : A -> B -> oresult A) (a : A) (l : list B) : oresult A :=
  match l with
  | [] => ODone a
  | x :: l' => a ← f a x; ofold f a l'
  end.

(** ** Field updates *)

Definition set_id (v : Z) (b : block) : block :=
  mk_block v (b_stmts b) (b_s b) (b_mark b) (b_longjt b) (b_longjf b) (b_level b) (b_offset b)
    (b_sense b) (b_et b) (b_ef b) (b_head b) (b_link b) (b_dom b) (b_closure b) (b_in_edges b)
    (b_def b) (b_kill b) (b_in_use b) (b_out_use b) (b_oval b) (b_val b).
Definition set_stmts (v : slist) (b : block) : block :=
  mk_block (b_id b) v (b_s b) (b_mark b) (b_longjt b) (b_longjf b) (b_level b) (b_offset b)
    (b_sense b) (b_et b) (b_ef b) (b_head b) (b_link b) (b_dom b) (b_closure b) (b_in_edges b)
    (b_def b) (b_kill b) (b_in_use b) (b_out_use b) (b_oval b) (b_val b).
Definition set_s (v : stmt) (b : block) : block :=
  mk_block (b_id b) (b_stmts b) v (b_mark b) (b_longjt b) (b_longjf b) (b_level b) (b_offset
    b) (b_sense b) (b_et b) (b_ef b) (b_head b) (b_link b) (b_dom b) (b_closure b) (b_in_edges
    b) (b_def b) (b_kill b) (b_in_use b) (b_out_use b) (b_oval b) (b_val b).
Definition set_blk_mark (v : Z) (b : block) : block :=
  mk_block (b_id b) (b_stmts b) (b_s b) v (b_longjt b) (b_longjf b) (b_level b) (b_offset b)
    (b_sense b) (b_et b) (b_ef b) (b_head b) (b_link b) (b_dom b) (b_closure b) (b_in_edges b)
    (b_def b) (b_kill b) (b_in_use b) (b_out_use b) (b_oval b) (b_val b).
Definition set_level (v : Z) (b : block) : block :=
  mk_block (b_id b) (b_stmts b) (b_s b) (b_mark b) (b_longjt b) (b_longjf b) v (b_offset b)
    (b_sense b) (b_et b) (b_ef b) (b_head b) (b_link b) (b_dom b) (b_closure b) (b_in_edges b)
    (b_def b) (b_kill b) (b_in_use b) (b_out_use b) (b_oval b) (b_val b).
Definition set_link (v : option nat) (b : block) : block :=
  mk_block (b_id b) (b_stmts b) (b_s b) (b_mark b) (b_longjt b) (b_longjf b) (b_level b)
    (b_offset b) (b_sense b) (b_et b) (b_ef b) (b_head b) v (b_dom b) (b_closure b)
    (b_in_edges b) (b_def b) (b_kill b) (b_in_use b) (b_out_use b) (b_oval b) (b_val b).
Definition set_dom (v : list Z) (b : block) : block :=
  mk_block (b_id b) (b_stmts b) (b_s b) (b_mark b) (b_longjt b) (b_longjf b) (b_level b)
    (b_offset b) (b_sense b) (b_et b) (b_ef b) (b_head b) (b_link b) v (b_closure b)
    (b_in_edges b) (b_def b) (b_kill b) (b_in_use b) (b_out_use b) (b_oval b) (b_val b).
Definition set_closure (v : list Z) (b : block) : block :=
  mk_block (b_id b) (b_stmts b) (b_s b) (b_mark b) (b_longjt b) (b_longjf b) (b_level b)
    (b_offset b) (b_sense b) (b_et b) (b_ef b) (b_head b) (b_link b) (b_dom b) v (b_in_edges
    b) (b_def b) (b_kill b) (b_in_use b) (b_out_use b) (b_oval b) (b_val b).
Definition set_in_edges (v : option edge_ref) (b : block) : block :=
  mk_block (b_id b) (b_stmts b) (b_s b) (b_mark b) (b_longjt b) (b_longjf b) (b_level b)
    (b_offset b) (b_sense b) (b_et b) (b_ef b) (b_head b) (b_link b) (b_dom b) (b_closure b) v
    (b_def b) (b_kill b) (b_in_use b) (b_out_use b) (b_oval b) (b_val b).
Definition set_ud (def use kill : Z) (b : block) : block :=
  mk_block (b_id b) (b_stmts b) (b_s b) (b_mark b) (b_longjt b) (b_longjf b) (b_level b)
    (b_offset b) (b_sense b) (b_et b) (b_ef b) (b_head b) (b_link b) (b_dom b) (b_closure b)
    (b_in_edges b) def kill use (b_out_use b) (b_oval b) (b_val b).
Definition set_in_use (v : Z) (b : block) : block :=
  mk_block (b_id b) (b_stmts b) (b_s b) (b_mark b) (b_longjt b) (b_longjf b) (b_level b)
    (b_offset b) (b_sense b) (b_et b) (b_ef b) (b_head b) (b_link b) (b_dom b) (b_closure b)
    (b_in_edges b) (b_def b) (b_kill b) v (b_out_use b) (b_oval b) (b_val b).
Definition set_out_use (v : Z) (b : block) : block :=
  mk_block (b_id b) (b_stmts b) (b_s b) (b_mark b) (b_longjt b) (b_longjf b) (b_level b)
    (b_offset b) (b_sense b) (b_et b) (b_ef b) (b_head b) (b_link b) (b_dom b) (b_closure b)
    (b_in_edges b) (b_def b) (b_kill b) (b_in_use b) v (b_oval b) (b_val b).
Definition set_oval (v : Z) (b : block) : block :=
  mk_block (b_id b) (b_stmts b) (b_s b) (b_mark b) (b_longjt b) (b_longjf b) (b_level b)
    (b_offset b) (b_sense b) (b_et b) (b_ef b) (b_head b) (b_link b) (b_dom b) (b_closure b)
    (b_in_edges b) (b_def b) (b_kill b) (b_in_use b) (b_out_use b) v (b_val b).
Definition set_val (v : list Z) (b : block) : block :=
  mk_block (b_id b) (b_stmts b) (b_s b) (b_mark b) (b_longjt b) (b_longjf b) (b_level b)
    (b_offset b) (b_sense b) (b_et b) (b_ef b) (b_head b) (b_link b) (b_dom b) (b_closure b)
    (b_in_edges b) (b_def b) (b_kill b) (b_in_use b) (b_out_use b) (b_oval b) v.
(** An edge, by its block and side. *)
Definition edge_of (side : bool) (b : block) : edge := if side then b_et b else b_ef b.
Definition set_edge (side : bool) (e : edge) (b : block) : block := if side then with_et e b else with_ef e b.

Definition set_e_id (v : Z) (e : edge) : edge := mk_edge v (e_code e) (e_edom e) (e_succ e) (e_next e).
Definition set_e_code (v : Z) (e : edge) : edge := mk_edge (e_id e) v (e_edom e) (e_succ e) (e_next e).
Definition set_edom (v : list Z) (e : edge) : edge := mk_edge (e_id e) (e_code e) v (e_succ e) (e_next e).
Definition set_e_next (v : option edge_ref) (e : edge) : edge :=
  mk_edge (e_id e) (e_code e) (e_edom e) (e_succ e) v.

Definition upd_edge (f : edge -> edge) (side : bool) (b : block) : block := set_edge side (f (edge_of side b)) b.

(** ** Bit vectors *)

Abbreviation uset := (list Z).

Definition BITS_PER_WORD : Z := 32.
Definition word_of (a : Z) : nat := Z.to_nat (a / BITS_PER_WORD).
Definition bit_of (a : Z) : Z := a mod BITS_PER_WORD.

Definition SET_MEMBER (p : uset) (a : Z) : option bool :=
  w ← p !! word_of a; Some (negb (w &&& Z.shiftl 1 (bit_of a) =? 0)).

Definition SET_INSERT (p : uset) (a : Z) : option uset :=
  w ← p !! word_of a; Some (<[word_of a := w ||| Z.shiftl 1 (bit_of a)]> p).

Definition set_words (f : Z -> Z -> Z) (a b : uset) (n : Z) : uset :=
  let n := Z.to_nat n in zip_with f (take n a) (take n b) ++ drop n a.

Definition SET_INTERSECT (a b : uset) (n : Z) : uset := set_words Z.land a b n.
Definition SET_UNION (a b : uset) (n : Z) : uset := set_words Z.lor a b n.

(** All bits of a word, [~0]. *)
Definition all_ones : Z := 2 ^ 32 - 1.

(** ** Registers a statement uses and defines *)

(** -1 for none. *)
Definition atomuse (s : stmt) : Z :=
  let c := s_code s in
  if c =? NOP then -1
  else
    let cls := BPF_CLASS c in
    if cls =? BPF_RET then
      if BPF_RVAL c =? BPF_A then A_ATOM else if BPF_RVAL c =? BPF_X then X_ATOM else -1
    else if (cls =? BPF_LD) || (cls =? BPF_LDX) then
      if BPF_MODE c =? BPF_IND then X_ATOM else if BPF_MODE c =? BPF_MEM then s_k s else -1
    else if cls =? BPF_ST then A_ATOM
    else if cls =? BPF_STX then X_ATOM
    else if (cls =? BPF_JMP) || (cls =? BPF_ALU) then
      if BPF_SRC c =? BPF_X then AX_ATOM else A_ATOM
    else if BPF_MISCOP c =? BPF_TXA then X_ATOM else A_ATOM.

Definition atomdef (s : stmt) : Z :=
  let c := s_code s in
  if c =? NOP then -1
  else
    let cls := BPF_CLASS c in
    if (cls =? BPF_LD) || (cls =? BPF_ALU) then A_ATOM
    else if cls =? BPF_LDX then X_ATOM
    else if (cls =? BPF_ST) || (cls =? BPF_STX) then s_k s
    else if cls =? BPF_MISC then if BPF_MISCOP c =? BPF_TAX then X_ATOM else A_ATOM
    else -1.

(** ** The globals *)

(** A node of the value table. *)
Record valnode := mk_valnode { v_code : Z; v_v0 : Z; v_v1 : Z; v_val : Z }.
Record vmapinfo := mk_vmapinfo { is_const : bool; const_val : Z }.

(** [hashtbl], [curval], [maxval] and [vmap]; nodes are allocated one per value. *)
Record vtable := mk_vtable {
  hashtbl : list (list valnode);
  curval : Z;
  maxval : Z;
  vmap : list vmapinfo
}.

(** [blocks] and [edges] with their counts, [levels], the set sizes, the value table,
    [cur_mark] and [done]; the blocks themselves are the heap. *)
Record opt := mk_opt {
  o_heap : heap;
  blocks : list nat;
  edges : list edge_ref;
  levels : list (option nat);
  nodewords : Z;
  edgewords : Z;
  vtab : vtable;
  cur_mark : Z;
  done : bool
}.

Definition n_blocks (o : opt) : Z := Z.of_nat (length (blocks o)).
Definition n_edges (o : opt) : Z := Z.of_nat (length (edges o)).

Definition set_heap (h : heap) (o : opt) : opt :=
  mk_opt h (blocks o) (edges o) (levels o) (nodewords o) (edgewords o) (vtab o) (cur_mark o) (done o).
Definition set_levels (l : list (option nat)) (o : opt) : opt :=
  mk_opt (o_heap o) (blocks o) (edges o) l (nodewords o) (edgewords o) (vtab o) (cur_mark o) (done o).
Definition set_vtab (v : vtable) (o : opt) : opt :=
  mk_opt (o_heap o) (blocks o) (edges o) (levels o) (nodewords o) (edgewords o) v (cur_mark o) (done o).
Definition set_cur_mark (m : Z) (o : opt) : opt :=
  mk_opt (o_heap o) (blocks o) (edges o) (levels o) (nodewords o) (edgewords o) (vtab o) m (done o).
Definition set_done (d : bool) (o : opt) : opt :=
  mk_opt (o_heap o) (blocks o) (edges o) (levels o) (nodewords o) (edgewords o) (vtab o) (cur_mark o) d.

Definition upd_heap (f : heap -> heap) (o : opt) : opt := set_heap (f (o_heap o)) o.
Definition upd_block (f : block -> block) (q : nat) (o : opt) : opt := upd_heap (alter f q) o.

(** [blocks[i]->...] for a pointer that must not be null. *)
Definition deref (h : heap) (p : option nat) : oresult (nat * block) :=
  q ← oget p; b ← oget (h !! q); ODone (q, b).
