(* ===== verification/OptFlow.v ===== *)
(** * Data flow over the levelled graph (optimize.c)

    [find_levels] puts the blocks on lists by level; the other passes walk these lists from
    the root's level down, or up, and compute sets for each block or edge: its dominators,
    the blocks that reach it, the edges that dominate it, and the registers live at its
    entry and exit. *)
From stdpp Require Import base numbers list gmap.
From S2P Require Import Prelude BpfInsn BpfFilter Icode OptState Layout.
Open Scope Z_scope.

(** ** Levels *)

Definition level_of (o : opt) (p : option nat) : oresult Z := '(_, b) ← deref (o_heap o) p; ODone (b_level b).

Fixpoint find_levels_r (fuel : nat) (o : opt) (q : nat) : oresult opt :=
  match fuel with
  | O => OFuel
  | S fuel' =>
      b ← oget (o_heap o !! q);
      if isMarked (cur_mark o) b then ODone o
      else
        let o := upd_block (fun b => set_link None (set_blk_mark (cur_mark o) b)) q o in
        '(o, level) ←
          match JT b with
          | Some t =>
              o ← find_levels_r fuel' o t;
              f ← oget (JF b);
              o ← find_levels_r fuel' o f;
              lt ← level_of o (Some t);
              lf ← level_of o (Some f);
              ODone (o, Z.max lt lf + 1)
          | None => ODone (o, 0)
          end;
        head ← oget (at_Z (levels o) level);
        let o := upd_block (fun b => set_link head (set_level level b)) q o in
        ODone (set_levels (<[Z.to_nat level := Some q]> (levels o)) o)
  end.

(** Recursion visits each block once, and returns at once at a marked one. *)
Definition graph_fuel (o : opt) : nat := S (S (size (o_heap o))).

Definition find_levels (o : opt) (root : nat) : oresult opt :=
  let o := set_levels (replicate (length (blocks o)) None) o in
  let o := set_cur_mark (cur_mark o + 1) o in
  find_levels_r (graph_fuel o) o root.

(** The list that starts at [p], through the [link] fields. *)
Fixpoint follow_link (fuel : nat) (h : heap) (p : option nat) : oresult (list nat) :=
  match p with
  | None => ODone []
  | Some q =>
      match fuel with
      | O => OFuel
      | S fuel' => b ← oget (h !! q); l ← follow_link fuel' h (b_link b); ODone (q :: l)
      end
  end.

Definition level_list (o : opt) (i : Z) : oresult (list nat) :=
  p ← oget (at_Z (levels o) i); follow_link (S (size (o_heap o))) (o_heap o) p.

(** The blocks of [n] levels, upwards from level [i]. *)
Fixpoint levels_from (o : opt) (i : Z) (n : nat) : oresult (list (list nat)) :=
  match n with
  | O => ODone []
  | S n' => l ← level_list o i; ls ← levels_from o (i + 1) n'; ODone (l :: ls)
  end.

(** [for (i = lo; i <= hi; ++i) for (b = levels[i]; b; b = b->link)], and the same with [i]
    going down from [hi] to [lo]. No loop body changes a link. *)
Definition blocks_up (o : opt) (lo hi : Z) : oresult (list nat) :=
  ls ← levels_from o lo (Z.to_nat (hi - lo + 1)); ODone (concat ls).
Definition blocks_down (o : opt) (hi lo : Z) : oresult (list nat) :=
  ls ← levels_from o lo (Z.to_nat (hi - lo + 1)); ODone (concat (rev ls)).

(** ** Dominators *)

Definition upd_all (f : block -> block) (o : opt) : opt :=
  fold_left (fun o q => upd_block f q o) (blocks o) o.

Definition with_dom (v : uset) (q : nat) : opt -> opt := upd_block (set_dom v) q.

Definition dom_block (o : opt) (q : nat) : oresult opt :=
  b ← oget (o_heap o !! q);
  d ← oget (SET_INSERT (b_dom b) (b_id b));
  let o := with_dom d q o in
  match JT b with
  | None => ODone o
  | Some t =>
      '(t, bt) ← deref (o_heap o) (Some t);
      let o := with_dom (SET_INTERSECT (b_dom bt) d (nodewords o)) t o in
      '(f, bf) ← deref (o_heap o) (JF b);
      ODone (with_dom (SET_INTERSECT (b_dom bf) d (nodewords o)) f o)
  end.

Definition find_dom (o : opt) (root : nat) : oresult opt :=
  let o := upd_all (set_dom (replicate (Z.to_nat (nodewords o)) all_ones)) o in
  let o := with_dom (replicate (Z.to_nat (nodewords o)) 0) root o in
  level ← level_of o (Some root);
  l ← blocks_down o level 0;
  ofold dom_block o l.

(** ** The blocks that reach a block *)

Definition with_closure (v : uset) (q : nat) : opt -> opt := upd_block (set_closure v) q.

Definition closure_block (o : opt) (q : nat) : oresult opt :=
  b ← oget (o_heap o !! q);
  d ← oget (SET_INSERT (b_closure b) (b_id b));
  let o := with_closure d q o in
  match JT b with
  | None => ODone o
  | Some t =>
      '(t, bt) ← deref (o_heap o) (Some t);
      let o := with_closure (SET_UNION (b_closure bt) d (nodewords o)) t o in
      '(f, bf) ← deref (o_heap o) (JF b);
      ODone (with_closure (SET_UNION (b_closure bf) d (nodewords o)) f o)
  end.

Definition find_closure (o : opt) (root : nat) : oresult opt :=
  let o := upd_all (set_closure (replicate (Z.to_nat (nodewords o)) 0)) o in
  level ← level_of o (Some root);
  l ← blocks_down o level 0;
  ofold closure_block o l.

(** ** Edge dominators *)

Definition with_edom (v : uset) (side : bool) (q : nat) : opt -> opt :=
  upd_block (upd_edge (set_edom v) side) q.

Definition propedom (o : opt) (ep : edge_ref) : oresult opt :=
  let (q, side) := ep in
  b ← oget (o_heap o !! q);
  d ← oget (SET_INSERT (e_edom (edge_of side b)) (e_id (edge_of side b)));
  let o := with_edom d side q o in
  match e_succ (edge_of side b) with
  | None => ODone o
  | Some t =>
      bt ← oget (o_heap o !! t);
      let o := with_edom (SET_INTERSECT (e_edom (b_et bt)) d (edgewords o)) true t o in
      ODone (with_edom (SET_INTERSECT (e_edom (b_ef bt)) d (edgewords o)) false t o)
  end.

Definition edom_block (o : opt) (q : nat) : oresult opt :=
  o ← propedom o (q, true); propedom o (q, false).

Definition find_edom (o : opt) (root : nat) : oresult opt :=
  let ones := replicate (Z.to_nat (edgewords o)) all_ones in
  let zeros := replicate (Z.to_nat (edgewords o)) 0 in
  let o := upd_all (fun b => upd_edge (set_edom ones) true (upd_edge (set_edom ones) false b)) o in
  let o := with_edom zeros false root (with_edom zeros true root o) in
  level ← level_of o (Some root);
  l ← blocks_down o level 0;
  ofold edom_block o l.

(** ** Live registers *)

(** The sets defined, used and killed so far. *)
Record ud := mk_ud { u_def : Z; u_use : Z; u_kill : Z }.

Definition use_unless_def (u : ud) (atom : Z) : ud :=
  if ATOMELEM (u_def u) atom then u else mk_ud (u_def u) (u_use u ||| ATOMMASK atom) (u_kill u).

Definition ud_use (u : ud) (atom : Z) : oresult ud :=
  if atom <? 0 then ODone u
  else if atom =? AX_ATOM then ODone (use_unless_def (use_unless_def u X_ATOM) A_ATOM)
  else if atom <? N_ATOMS then ODone (use_unless_def u atom)
  else OAbort.

(** A shift by 32 or more is undefined. *)
Definition ud_def (u : ud) (atom : Z) : oresult ud :=
  if atom <? 0 then ODone u
  else if 32 <=? atom then OFault
  else
    let kill := if ATOMELEM (u_use u) atom then u_kill u else u_kill u ||| ATOMMASK atom in
    ODone (mk_ud (u_def u ||| ATOMMASK atom) (u_use u) kill).

Definition ud_stmt (u : ud) (n : snode) : oresult ud :=
  if s_code (sn_s n) =? NOP then ODone u
  else u ← ud_use u (atomuse (sn_s n)); ud_def u (atomdef (sn_s n)).

Definition compute_local_ud (b : block) : oresult block :=
  u ← ofold ud_stmt (mk_ud 0 0 0) (b_stmts b);
  u ← (if BPF_CLASS (s_code (b_s b)) =? BPF_JMP then ud_use u (atomuse (b_s b)) else ODone u);
  ODone (set_ud (u_def u) (u_use u) (u_kill u) b).

(** [~x] on 32 bits. *)
Definition lnot32 (x : Z) : Z := Z.lxor x all_ones.

Definition local_ud_block (o : opt) (q : nat) : oresult opt :=
  b ← oget (o_heap o !! q);
  b ← compute_local_ud b;
  ODone (upd_heap <[q := set_out_use 0 b]> o).

Definition ud_block (o : opt) (q : nat) : oresult opt :=
  b ← oget (o_heap o !! q);
  '(_, bt) ← deref (o_heap o) (JT b);
  '(_, bf) ← deref (o_heap o) (JF b);
  let out_use := b_out_use b ||| (b_in_use bt ||| b_in_use bf) in
  let in_use := b_in_use b ||| (out_use &&& lnot32 (b_kill b)) in
  ODone (upd_block (fun b => set_in_use in_use (set_out_use out_use b)) q o).

Definition find_ud (o : opt) (root : nat) : oresult opt :=
  maxlevel ← level_of o (Some root);
  l ← blocks_down o maxlevel 0;
  o ← ofold local_ud_block o l;
  l ← blocks_up o 1 maxlevel;
  ofold ud_block o l.
