(* ===== verification/OptValue.v ===== *)
(** * Value numbering (optimize.c)

    [F] gives equal numbers to equal computations: it looks the operation and the numbers
    of its operands up in a hash table and makes a new number when they are not there.
    [opt_stmt] computes the numbers a statement leaves in the registers and, when it may
    [alter] the statement, replaces it by a cheaper one or deletes it. *)
From stdpp Require Import base numbers list gmap.
From S2P Require Import Prelude BpfInsn BpfFilter Icode OptState.
Open Scope Z_scope.

Definition MODULUS : Z := 213.

(** [init_val]; [vmap] has [maxval] entries. *)
Definition init_val (maxval : Z) : vtable :=
  mk_vtable (replicate (Z.to_nat MODULUS) []) 0 maxval (replicate (Z.to_nat maxval) (mk_vmapinfo false 0)).

Definition F_hash (code v0 v1 : Z) : Z :=
  Z.lxor (Z.lxor (u32 code) (u32 (Z.shiftl v0 4))) (u32 (Z.shiftl v1 8)) mod MODULUS.

Definition node_is (code v0 v1 : Z) (p : valnode) : bool :=
  (v_code p =? code) && (v_v0 p =? v0) && (v_v1 p =? v1).

(** A constant: the value a load immediate has. *)
Definition is_imm (code : Z) : bool :=
  (BPF_MODE code =? BPF_IMM) && ((BPF_CLASS code =? BPF_LD) || (BPF_CLASS code =? BPF_LDX)).

Definition F (code v0 v1 : Z) (t : vtable) : oresult (Z * vtable) :=
  let hash := Z.to_nat (F_hash code v0 v1) in
  chain ← oget (hashtbl t !! hash);
  match List.find (node_is code v0 v1) chain with
  | Some p => ODone (v_val p, t)
  | None =>
      let val := curval t + 1 in
      vm ← (if is_imm code then
              if val <? maxval t then ODone (<[Z.to_nat val := mk_vmapinfo true v0]> (vmap t)) else OFault
            else ODone (vmap t));
      if curval t <? maxval t then
        ODone (val, mk_vtable (<[hash := mk_valnode code v0 v1 val :: chain]> (hashtbl t)) val (maxval t) vm)
      else OFault
  end.

(** [K(i)] *)
Definition K (i : Z) (t : vtable) : oresult (Z * vtable) := F (BPF_LD ||| BPF_IMM ||| BPF_W) i 0 t.

(** [vmap[v]] *)
Definition vmap_at (t : vtable) (v : Z) : oresult vmapinfo := oget (at_Z (vmap t) v).

(** [alter && vmap[v].is_const], with the constant. *)
Definition const_at (alter : bool) (t : vtable) (v : Z) : oresult (option Z) :=
  if alter then m ← vmap_at t v; ODone (if is_const m then Some (const_val m) else None)
  else ODone None.

(** ** Statements *)

(** The statement, the numbers in the registers, the table, and [done]. *)
Record sst := mk_sst { x_s : stmt; x_val : list Z; x_t : vtable; x_done : bool }.

Definition set_code_k (c k : Z) (s : stmt) : stmt := mk_stmt c (s_jt s) (s_jf s) k.
Definition x_stmt (s : stmt) (x : sst) : sst := mk_sst s (x_val x) (x_t x) (x_done x).
Definition x_not_done (x : sst) : sst := mk_sst (x_s x) (x_val x) (x_t x) false.
Definition x_table (t : vtable) (x : sst) : sst := mk_sst (x_s x) (x_val x) t (x_done x).

(** [val[a]], and the store to it. *)
Definition val_at (x : sst) (a : Z) : oresult Z := oget (at_Z (x_val x) a).
Definition val_set (a v : Z) (x : sst) : oresult sst :=
  _ ← val_at x a; ODone (mk_sst (x_s x) (<[Z.to_nat a := v]> (x_val x)) (x_t x) (x_done x)).

(** [s->code = NOP] *)
Definition s_nop (s : stmt) : stmt := set_code_k NOP (s_k s) s.

Definition vstore (alter : bool) (a newval : Z) (x : sst) : oresult sst :=
  v ← val_at x a;
  if alter && (v =? newval) then ODone (x_stmt (s_nop (x_s x)) x) else val_set a newval x.

(** The table is threaded through [F] and [K]. *)
Definition x_F (code v0 v1 : Z) (x : sst) : oresult (Z * sst) :=
  '(v, t) ← F code v0 v1 (x_t x); ODone (v, x_table t x).
Definition x_K (i : Z) (x : sst) : oresult (Z * sst) := '(v, t) ← K i (x_t x); ODone (v, x_table t x).

(** Constant folding; a shift by 32 or more is undefined. *)
Definition fold_alu (op : alu_op) (a b : Z) : oresult Z :=
  match op with
  | DIV => if b =? 0 then OError else ODone (a / b)
  | _ => oget (alu op a b)
  end.

Definition fold_op (op : alu_op) (v0 v1 : Z) (x : sst) : oresult sst :=
  m0 ← vmap_at (x_t x) v0;
  m1 ← vmap_at (x_t x) v1;
  a ← fold_alu op (u32 (const_val m0)) (u32 (const_val m1));
  ODone (x_not_done (x_stmt (set_code_k (BPF_LD ||| BPF_IMM) (s32 a) (x_s x)) x)).

(** ** [opt_stmt], by case of the switch *)

Definition opt_ld_abs (alter : bool) (x : sst) : oresult sst :=
  '(v, x) ← x_F (s_code (x_s x)) (s_k (x_s x)) 0 x; vstore alter A_ATOM v x.

Definition opt_ld_ind (alter : bool) (x : sst) : oresult sst :=
  v ← val_at x X_ATOM;
  c ← const_at alter (x_t x) v;
  match c with
  | Some c =>
      let s := x_s x in
      let s := set_code_k (BPF_LD ||| BPF_ABS ||| BPF_SIZE (s_code s)) (s32 (s_k s + c)) s in
      '(v, x) ← x_F (s_code s) (s_k s) 0 (x_stmt s x);
      vstore alter A_ATOM v (x_not_done x)
  | None =>
      '(v, x) ← x_F (s_code (x_s x)) (s_k (x_s x)) v x;
      vstore alter A_ATOM v x
  end.

Definition opt_neg (alter : bool) (x : sst) : oresult sst :=
  va ← val_at x A_ATOM;
  c ← const_at alter (x_t x) va;
  match c with
  | Some c =>
      let k := s32 (- c) in
      '(v, x) ← x_K k (x_stmt (set_code_k (BPF_LD ||| BPF_IMM) k (x_s x)) x);
      val_set A_ATOM v x
  | None =>
      '(v, x) ← x_F (s_code (x_s x)) va 0 x;
      val_set A_ATOM v x
  end.

(** The value of an arithmetic statement that stays. *)
Definition opt_alu_k_value (x : sst) : oresult sst :=
  va ← val_at x A_ATOM;
  '(vk, x) ← x_K (s_k (x_s x)) x;
  '(v, x) ← x_F (s_code (x_s x)) va vk x;
  val_set A_ATOM v x.

Definition opt_alu_k (alter : bool) (op : alu_op) (x : sst) : oresult sst :=
  let s := x_s x in
  if alter && (s_k s =? 0) && bool_decide (op ∈ [ADD; LSH; RSH; OR]) then ODone (x_stmt (s_nop s) x)
  else if alter && (s_k s =? 0) && bool_decide (op ∈ [MUL; AND]) then
    '(v, x) ← x_K (s_k s) (x_stmt (set_code_k (BPF_LD ||| BPF_IMM) (s_k s) s) x);
    val_set A_ATOM v x
  else
    va ← val_at x A_ATOM;
    c ← const_at alter (x_t x) va;
    match c with
    | Some _ =>
        '(vk, x) ← x_K (s_k s) x;
        x ← fold_op op va vk x;
        '(v, x) ← x_K (s_k (x_s x)) x;
        val_set A_ATOM v x
    | None => opt_alu_k_value x
    end.

Definition opt_alu_x (alter : bool) (op : alu_op) (x : sst) : oresult sst :=
  let s := x_s x in
  va ← val_at x A_ATOM;
  vx ← val_at x X_ATOM;
  cx ← const_at alter (x_t x) vx;
  ca ← const_at alter (x_t x) va;
  match cx, ca with
  | Some _, Some _ =>
      x ← fold_op op va vx x;
      '(v, x) ← x_K (s_k (x_s x)) x;
      val_set A_ATOM v x
  | Some c, None =>
      opt_alu_k_value (x_not_done (x_stmt (set_code_k (BPF_ALU ||| BPF_K ||| alu_bits op) c s) x))
  | None, Some 0 =>
      if bool_decide (op ∈ [ADD; OR]) then
        vstore alter A_ATOM vx (x_stmt (set_code_k (BPF_MISC ||| BPF_TXA) (s_k s) s) x)
      else if bool_decide (op ∈ [MUL; DIV; AND; LSH; RSH]) then
        '(v, x) ← x_K 0 (x_stmt (set_code_k (BPF_LD ||| BPF_IMM) 0 s) x);
        vstore alter A_ATOM v x
      else
        '(v, x) ← x_F (s_code s) va vx x;
        val_set A_ATOM v x
  | None, _ =>
      '(v, x) ← x_F (s_code s) va vx x;
      val_set A_ATOM v x
  end.

(** [LD|MEM] and [LDX|MEM]: [imm] is the immediate load of the register [a]. *)
Definition opt_load_mem (alter : bool) (a imm : Z) (x : sst) : oresult sst :=
  v ← val_at x (s_k (x_s x));
  c ← const_at alter (x_t x) v;
  let x := match c with Some c => x_not_done (x_stmt (set_code_k imm c (x_s x)) x) | None => x end in
  vstore alter a v x.

Definition opt_stmt (alter : bool) (x : sst) : oresult sst :=
  match decode_op (s_code (x_s x)) with
  | Some (LD_ABS _) => opt_ld_abs alter x
  | Some (LD_IND _) => opt_ld_ind alter x
  | Some LD_LEN => '(v, x) ← x_F (s_code (x_s x)) 0 0 x; vstore alter A_ATOM v x
  | Some LD_IMM => '(v, x) ← x_K (s_k (x_s x)) x; vstore alter A_ATOM v x
  | Some LDX_IMM => '(v, x) ← x_K (s_k (x_s x)) x; vstore alter X_ATOM v x
  | Some LDX_MSH => '(v, x) ← x_F (s_code (x_s x)) (s_k (x_s x)) 0 x; vstore alter X_ATOM v x
  | Some NEG => opt_neg alter x
  | Some (ALU op SrcK) => opt_alu_k alter op x
  | Some (ALU op SrcX) => opt_alu_x alter op x
  | Some TXA => v ← val_at x X_ATOM; vstore alter A_ATOM v x
  | Some LD_MEM => opt_load_mem alter A_ATOM (BPF_LD ||| BPF_IMM) x
  | Some TAX => v ← val_at x A_ATOM; vstore alter X_ATOM v x
  | Some LDX_MEM => opt_load_mem alter X_ATOM (BPF_LDX ||| BPF_IMM) x
  | Some ST => v ← val_at x A_ATOM; vstore alter (s_k (x_s x)) v x
  | Some STX => v ← val_at x X_ATOM; vstore alter (s_k (x_s x)) v x
  | _ => ODone x
  end.
