(* ===== verification/OptBlock.v ===== *)
(** * Optimizing a block (optimize.c)

    [opt_blk] numbers the values of a block from those of its predecessors, then rewrites
    short instruction sequences ([opt_peep]) and deletes assignments no one uses
    ([opt_deadstores]). A pointer to a statement is its position in the block. *)
From stdpp Require Import base numbers list gmap.
From S2P Require Import Prelude BpfInsn BpfFilter Icode OptState OptValue.
Open Scope Z_scope.

(** ** Peephole rules *)

(** The first statement from [i] on that is not deleted. *)
Fixpoint this_op_from (i : nat) (ss : slist) : option nat :=
  match ss with
  | [] => None
  | n :: ss' => if s_code (sn_s n) =? NOP then this_op_from (S i) ss' else Some i
  end.
Definition this_op (ss : slist) (i : nat) : option nat := this_op_from i (drop i ss).

Definition code_of (ss : slist) (i : nat) : Z := match ss !! i with Some n => s_code (sn_s n) | None => NOP end.
Definition k_of (ss : slist) (i : nat) : Z := match ss !! i with Some n => s_k (sn_s n) | None => 0 end.

Definition upd_stmt (f : stmt -> stmt) (i : nat) (ss : slist) : slist :=
  alter (fun n => mk_snode (sn_addr n) (f (sn_s n))) i ss.
Definition put_code (c : Z) (i : nat) : slist -> slist := upd_stmt (fun s => set_code_k c (s_k s) s) i.
Definition put_k (k : Z) (i : nat) : slist -> slist := upd_stmt (fun s => set_code_k (s_code s) k s) i.

(** Statements and [done]. *)
Abbreviation peep_state := (slist * bool)%type.

(** st M[k]; ldx M[k]  -->  st M[k]; tax *)
Definition peep_st_ldx (i j : nat) (p : peep_state) : peep_state :=
  let (ss, d) := p in
  if (code_of ss i =? BPF_ST) && (code_of ss j =? (BPF_LDX ||| BPF_MEM)) && (k_of ss i =? k_of ss j)
  then (put_code (BPF_MISC ||| BPF_TAX) j ss, false) else p.

(** ld #k; tax  -->  ldx #k; txa *)
Definition peep_ld_tax (i j : nat) (p : peep_state) : peep_state :=
  let (ss, d) := p in
  if (code_of ss i =? (BPF_LD ||| BPF_IMM)) && (code_of ss j =? (BPF_MISC ||| BPF_TAX))
  then (put_code (BPF_MISC ||| BPF_TXA) j (put_code (BPF_LDX ||| BPF_IMM) i ss), false) else p.

(** ld #k; (ldx 4*([m]&0xf);) add x; tax; ld [x+n]  -->  (ldx 4*([m]&0xf);) ld [x+n+k] *)
Definition peep_ld_add_tax (out_use : Z) (i j : nat) (p : peep_state) : peep_state :=
  let (ss, d) := p in
  let new :=
    if negb (code_of ss i =? (BPF_LD ||| BPF_IMM)) || ATOMELEM out_use X_ATOM then None
    else
      add ← (if negb (code_of ss j =? (BPF_LDX ||| BPF_MSH ||| BPF_B)) then Some j else this_op ss (S j));
      if negb (code_of ss add =? (BPF_ALU ||| BPF_ADD ||| BPF_X)) then None
      else
        tax ← this_op ss (S add);
        if negb (code_of ss tax =? (BPF_MISC ||| BPF_TAX)) then None
        else
          ild ← this_op ss (S tax);
          if negb (BPF_CLASS (code_of ss ild) =? BPF_LD) || negb (BPF_MODE (code_of ss ild) =? BPF_IND) then None
          else
            let ss := put_k (s32 (k_of ss ild + k_of ss i)) ild ss in
            Some (put_code NOP tax (put_code NOP add (put_code NOP i ss))) in
  match new with Some ss => (ss, false) | None => p end.

(** The loop over pairs of statements: the statements, the position of [last], [done]. *)
Fixpoint peep_loop (fuel : nat) (out_use : Z) (s last : nat) (p : peep_state) : oresult (peep_state * nat) :=
  match fuel with
  | O => OFuel
  | S fuel' =>
      match this_op p.1 s with
      | None => ODone (p, last)
      | Some i =>
          match this_op p.1 (S i) with
          | None => ODone (p, last)
          | Some j => peep_loop fuel' out_use j j (peep_ld_add_tax out_use i j (peep_ld_tax i j (peep_st_ldx i j p)))
          end
      end
  end.

Definition block_state : Type := block * bool.

Definition upd_s (c k : Z) (b : block) : block := set_s (set_code_k c k (b_s b)) b.

(** [opt_not] *)
Definition opt_not (b : block) : block :=
  set_succ true (JF b) (set_succ false (JT b) b).

(** The comparison at the end, and the arithmetic before it. *)
Definition peep_compare (t : vtable) (last : nat) (x : block_state) : oresult block_state :=
  let (b, d) := x in
  let ss := b_stmts b in
  let k := s_k (b_s b) in
  let without := set_stmts (put_code NOP last ss) b in
  if (s_code (b_s b) =? (BPF_JMP ||| BPF_JEQ ||| BPF_K)) && negb (ATOMELEM (b_out_use b) A_ATOM) then
    if code_of ss last =? (BPF_ALU ||| BPF_SUB ||| BPF_X) then
      v ← oget (at_Z (b_val b) X_ATOM);
      m ← vmap_at t v;
      if is_const m then ODone (upd_s (s_code (b_s b)) (s32 (k + const_val m)) without, false)
      else if k =? 0 then ODone (upd_s (BPF_JMP ||| BPF_JEQ ||| BPF_X) k without, false)
      else ODone x
    else if code_of ss last =? (BPF_ALU ||| BPF_SUB ||| BPF_K) then
      ODone (upd_s (s_code (b_s b)) (s32 (k + k_of ss last)) without, false)
    else if (code_of ss last =? (BPF_ALU ||| BPF_AND ||| BPF_K)) && (k =? 0) then
      ODone (opt_not (upd_s (BPF_JMP ||| BPF_K ||| BPF_JSET) (k_of ss last) without), false)
    else ODone x
  else ODone x.

(** jset #0: never; jset #ffffffff: always *)
Definition peep_jset (b : block) : block :=
  if s_code (b_s b) =? (BPF_JMP ||| BPF_K ||| BPF_JSET) then
    let b := if s_k (b_s b) =? 0 then set_succ true (JF b) b else b in
    if u32 (s_k (b_s b)) =? 0xffffffff then set_succ false (JT b) b else b
  else b.

(** A comparison with an index register that is a known constant. *)
Definition peep_const_x (t : vtable) (b : block) : oresult block :=
  v ← oget (at_Z (b_val b) X_ATOM);
  m ← vmap_at t v;
  ODone (if is_const m && (BPF_SRC (s_code (b_s b)) =? BPF_X)
         then upd_s (s_code (b_s b) &&& Z.lnot BPF_X) (const_val m) b else b).

(** A comparison of a known constant. *)
Definition peep_const_a (t : vtable) (x : block_state) : oresult block_state :=
  let (b, d) := x in
  v ← oget (at_Z (b_val b) A_ATOM);
  m ← vmap_at t v;
  if is_const m && (BPF_SRC (s_code (b_s b)) =? BPF_K) then
    let v := const_val m in
    let k := s_k (b_s b) in
    let op := BPF_OP (s_code (b_s b)) in
    r ← (if op =? BPF_JEQ then ODone (v =? k)
         else if op =? BPF_JGT then ODone (u32 k <? u32 v)
         else if op =? BPF_JGE then ODone (u32 k <=? u32 v)
         else if op =? BPF_JSET then ODone (negb (v &&& k =? 0))
         else OAbort);
    let d := if bool_decide (JF b = JT b) then d else false in
    ODone (if (r : bool) then set_succ false (JT b) b else set_succ true (JF b) b, d)
  else ODone x.

Definition opt_peep (t : vtable) (x : block_state) : oresult block_state :=
  let (b, d) := x in
  match b_stmts b with
  | [] => ODone x
  | ss =>
      '((ss, d), last) ← peep_loop (S (length ss)) (b_out_use b) 0 0 (ss, d);
      '(b, d) ← peep_compare t last (set_stmts ss b, d);
      b ← peep_const_x t (peep_jset b);
      peep_const_a t (b, d)
  end.

(** ** Dead assignments *)

(** [last]: for each register the assignment no one has used yet. The statements are those
    of the block with the branch at the end. *)
Record dead := mk_dead { d_ss : list stmt; d_last : list (option nat); d_done : bool }.

Definition last_at (a : Z) (x : dead) : oresult (option nat) := oget (at_Z (d_last x) a).
Definition last_set (a : Z) (v : option nat) (x : dead) : oresult dead :=
  _ ← last_at a x; ODone (mk_dead (d_ss x) (<[Z.to_nat a := v]> (d_last x)) (d_done x)).
Definition delete_stmt (i : nat) (x : dead) : dead := mk_dead (alter s_nop i (d_ss x)) (d_last x) false.

Definition dead_use (atom : Z) (x : dead) : oresult dead :=
  if atom <? 0 then ODone x
  else if atom =? AX_ATOM then x ← last_set X_ATOM None x; last_set A_ATOM None x
  else last_set atom None x.

Definition dead_def (atom : Z) (i : nat) (x : dead) : oresult dead :=
  if atom <? 0 then ODone x
  else
    l ← last_at atom x;
    let x := match l with Some j => delete_stmt j x | None => x end in
    last_set atom (Some i) x.

Definition deadstmt (x : dead) (i : nat) : oresult dead :=
  s ← oget (d_ss x !! i);
  x ← dead_use (atomuse s) x;
  dead_def (atomdef s) i x.

Definition dead_at_exit (out_use : Z) (x : dead) (atom : nat) : oresult dead :=
  l ← last_at (Z.of_nat atom) x;
  ODone (match l with
         | Some i => if ATOMELEM out_use (Z.of_nat atom) then x else delete_stmt i x
         | None => x
         end).

(** Put the codes back: the branch is the last one. *)
Definition put_codes (ss : list stmt) (b : block) : block :=
  let n := length (b_stmts b) in
  set_s (default (b_s b) (ss !! n))
    (set_stmts (zip_with (fun n s => mk_snode (sn_addr n) s) (b_stmts b) (take n ss)) b).

Definition opt_deadstores (x : block_state) : oresult block_state :=
  let (b, d) := x in
  let ss := (sn_s <$> b_stmts b) ++ [b_s b] in
  let y := mk_dead ss (replicate (Z.to_nat N_ATOMS) None) d in
  y ← ofold deadstmt y (seq 0 (length ss));
  y ← ofold (dead_at_exit (b_out_use b)) y (seq 0 (Z.to_nat N_ATOMS));
  ODone (put_codes (d_ss y) b, d_done y).

(** ** A block *)

(** Registers in which the numbers differ become unknown. *)
Definition merge_vals (v1 v2 : list Z) : list Z := zip_with (fun a b => if a =? b then a else 0) v1 v2.

Fixpoint merge_preds (fuel : nat) (h : heap) (p : option edge_ref) (val : list Z) : oresult (list Z) :=
  match p with
  | None => ODone val
  | Some (q, side) =>
      match fuel with
      | O => OFuel
      | S fuel' =>
          b ← oget (h !! q);
          merge_preds fuel' h (e_next (edge_of side b)) (merge_vals val (b_val b))
      end
  end.

(** The numbers at the entry of a block. *)
Definition entry_vals (h : heap) (b : block) : oresult (list Z) :=
  match b_in_edges b with
  | None => ODone (replicate (Z.to_nat N_ATOMS) 0)
  | Some (q, side) =>
      bp ← oget (h !! q);
      merge_preds (S (2 * size h)) h (e_next (edge_of side bp)) (b_val bp)
  end.

Fixpoint opt_stmts (alter : bool) (ss : slist) (val : list Z) (t : vtable) (d : bool)
  : oresult (slist * list Z * vtable * bool) :=
  match ss with
  | [] => ODone ([], val, t, d)
  | n :: ss' =>
      x ← opt_stmt alter (mk_sst (sn_s n) val t d);
      '(ss'', val, t, d) ← opt_stmts alter ss' (x_val x) (x_t x) (x_done x);
      ODone (mk_snode (sn_addr n) (x_s x) :: ss'', val, t, d)
  end.

(** The special case: nothing of the block is used, or it is a return. *)
Definition drops_stmts (do_stmts : bool) (b : block) (aval xval : Z) : oresult bool :=
  a ← oget (at_Z (b_val b) A_ATOM);
  x ← oget (at_Z (b_val b) X_ATOM);
  ODone (do_stmts &&
         (((b_out_use b =? 0) && negb (aval =? 0) && (a =? aval) && negb (xval =? 0) && (x =? xval))
          || (BPF_CLASS (s_code (b_s b)) =? BPF_RET))).

Definition set_codes (b : block) : block :=
  upd_edge (set_e_code (s_code (b_s b))) true (upd_edge (set_e_code (- s_code (b_s b))) false b).

Definition opt_blk (do_stmts : bool) (o : opt) (q : nat) : oresult opt :=
  b ← oget (o_heap o !! q);
  val ← entry_vals (o_heap o) b;
  aval ← oget (at_Z val A_ATOM);
  xval ← oget (at_Z val X_ATOM);
  '(ss, val, t, d) ← opt_stmts do_stmts (b_stmts b) val (vtab o) (done o);
  let b := set_val val (set_stmts ss b) in
  drop ← drops_stmts do_stmts b aval xval;
  '(b, d) ←
    (if (drop : bool) then ODone (set_stmts [] b, match ss with [] => d | _ => false end)
     else x ← opt_peep t (b, d); opt_deadstores x);
  '(oval, t) ← (if BPF_SRC (s_code (b_s b)) =? BPF_K then K (s_k (b_s b)) t
                else v ← oget (at_Z val X_ATOM); ODone (v, t));
  ODone (set_done d (set_vtab t (upd_heap <[q := set_codes (set_oval oval b)]> o))).
