(* ===== verification/OptBranch.v ===== *)
(** * Moving branches (optimize.c)

    [opt_j] redirects an edge past a test whose result is already decided where the edge
    leads from; [or_pullup] and [and_pullup] move a test up a chain of tests so that tests
    of the same value follow each other. [opt_blks] is one round of all optimizations. *)
From stdpp Require Import base numbers list gmap.
From S2P Require Import Prelude BpfInsn BpfFilter Icode OptState OptFlow OptValue OptBlock.
Open Scope Z_scope.

(** ** Data dependencies *)

(** Some register live at the exit of [succ] has another value number there than in [b]. *)
Definition use_conflict (b succ : block) : bool :=
  let use := b_out_use succ in
  if use =? 0 then false
  else existsb (fun atom => ATOMELEM use (Z.of_nat atom) &&
                            negb (bool_decide (b_val b !! atom = b_val succ !! atom)))
         (seq 0 (Z.to_nat N_ATOMS)).

(** The successor of [child] that is taken when control came along the edge, if known. *)
Definition fold_edge (o : opt) (child : block) (ep : edge_ref) : oresult (option nat) :=
  pred ← oget (o_heap o !! ep.1);
  let code := e_code (edge_of ep.2 pred) in
  let sense := 0 <=? code in
  let code := Z.abs code in
  if negb (s_code (b_s child) =? code) then ODone None
  else
    aval0 ← oget (at_Z (b_val child) A_ATOM);
    aval1 ← oget (at_Z (b_val pred) A_ATOM);
    if negb (aval0 =? aval1) then ODone None
    else if b_oval child =? b_oval pred then ODone (if sense then JT child else JF child)
    else if sense && (code =? (BPF_JMP ||| BPF_JEQ ||| BPF_K)) then ODone (JF child)
    else ODone None.

(** ** [opt_j] *)

(** The elements of a set, in increasing order. *)
Definition word_bits (w : Z) : list nat := List.filter (fun i => Z.testbit w (Z.of_nat i)) (seq 0 32).
Fixpoint set_elems (base : nat) (p : uset) : list nat :=
  match p with
  | [] => []
  | w :: p' => (Nat.add base <$> word_bits w) ++ set_elems (base + 32) p'
  end.

Definition get_edge (o : opt) (ep : edge_ref) : oresult (block * nat * block) :=
  b ← oget (o_heap o !! ep.1);
  s ← oget (e_succ (edge_of ep.2 b));
  bs ← oget (o_heap o !! s);
  ODone (b, s, bs).

Definition set_edge_succ (ep : edge_ref) (t : option nat) : opt -> opt := upd_block (set_succ ep.2 t) ep.1.

(** The first edge dominator that decides the branch of the successor, with the target. *)
Fixpoint find_target (o : opt) (pred child : block) (ks : list nat) : oresult (option (nat * block)) :=
  match ks with
  | [] => ODone None
  | k :: ks' =>
      e ← oget (edges o !! k);
      target ← fold_edge o child e;
      match target with
      | None => find_target o pred child ks'
      | Some t =>
          bt ← oget (o_heap o !! t);
          if use_conflict pred bt then find_target o pred child ks' else ODone (Some (t, bt))
      end
  end.

(** From the label [top]: each turn moves the edge to a successor of its target. *)
Fixpoint opt_j_top (fuel : nat) (o : opt) (ep : edge_ref) : oresult opt :=
  match fuel with
  | O => OFuel
  | S fuel' =>
      '(b, _, child) ← get_edge o ep;
      target ← find_target o b child (set_elems 0 (e_edom (edge_of ep.2 b)));
      match target with
      | None => ODone o
      | Some (t, bt) =>
          let o := set_done false (set_edge_succ ep (Some t) o) in
          match JT bt with
          | Some _ => opt_j_top fuel' o ep
          | None => ODone o
          end
      end
  end.

Definition opt_j (o : opt) (ep : edge_ref) : oresult opt :=
  '(b, s, bs) ← get_edge o ep;
  match JT bs with
  | None => ODone o
  | Some t =>
      o ← (if bool_decide (JT bs = JF bs) then
             bt ← oget (o_heap o !! t);
             if use_conflict b bt then ODone o
             else ODone (set_done false (set_edge_succ ep (Some t) o))
           else ODone o);
      opt_j_top (graph_fuel o) o ep
  end.

(** ** [or_pullup] and [and_pullup] *)

(** The edges in the list of in-edges that starts at [p]. *)
Fixpoint in_edge_list (fuel : nat) (h : heap) (p : option edge_ref) : oresult (list edge_ref) :=
  match p with
  | None => ODone []
  | Some (q, side) =>
      match fuel with
      | O => OFuel
      | S fuel' =>
          b ← oget (h !! q);
          l ← in_edge_list fuel' h (e_next (edge_of side b));
          ODone ((q, side) :: l)
      end
  end.

Definition in_edges_of (o : opt) (b : block) : oresult (list edge_ref) :=
  in_edge_list (S (2 * size (o_heap o))) (o_heap o) (b_in_edges b).

Definition a_val (b : block) : oresult Z := oget (at_Z (b_val b) A_ATOM).

(** A pointer to a successor field, [diffp] or [samep], and what it points to. *)
Definition read_succ (o : opt) (ptr : edge_ref) : oresult (option nat) :=
  b ← oget (o_heap o !! ptr.1); ODone (succ_of ptr.2 b).

Section Pullup.
(** [true]: a chain of "or", along the false branches, whose true branches agree;
    [false]: a chain of "and". *)
Context (is_or : bool) (b : block) (val : Z).

(** Walk the chain until the accumulator's number [stops]; [None] where the code returns. *)
Fixpoint walk_chain (stops : Z -> bool) (fuel : nat) (o : opt) (ptr : edge_ref) (at_top : bool)
  : oresult (option (edge_ref * nat * bool)) :=
  match fuel with
  | O => OFuel
  | S fuel' =>
      d ← read_succ o ptr;
      match d with
      | None => ODone None
      | Some d =>
          bd ← oget (o_heap o !! d);
          if negb (bool_decide (succ_of is_or bd = succ_of is_or b)) then ODone None
          else
            m ← oget (SET_MEMBER (b_dom bd) (b_id b));
            if negb m then ODone None
            else
              v ← a_val bd;
              if stops v then ODone (Some (ptr, d, at_top))
              else walk_chain stops fuel' o (d, negb is_or) false
      end
  end.

(** Every predecessor loads the same value. *)
Fixpoint preds_agree (o : opt) (l : list edge_ref) : oresult bool :=
  match l with
  | [] => ODone true
  | e :: l' =>
      p ← oget (o_heap o !! e.1);
      v ← a_val p;
      if v =? val then preds_agree o l' else ODone false
  end.
End Pullup.

Definition repoint (q pull : nat) (o : opt) (e : edge_ref) : oresult opt :=
  p ← oget (o_heap o !! e.1);
  ODone (upd_block (set_succ (bool_decide (JT p = Some q)) (Some pull)) e.1 o).

Definition pullup (is_or : bool) (o : opt) (q : nat) : oresult opt :=
  b ← oget (o_heap o !! q);
  ins ← in_edges_of o b;
  match ins with
  | [] => ODone o
  | e :: rest =>
      p ← oget (o_heap o !! e.1);
      val ← a_val p;
      agree ← preds_agree val o rest;
      if negb agree then ODone o
      else
        let ptr := (e.1, bool_decide (JT p = Some q)) in
        found ← walk_chain is_or b (fun v => negb (v =? val)) (graph_fuel o) o ptr true;
        match found with
        | None => ODone o
        | Some (diffp, d, at_top) =>
            found ← walk_chain is_or b (fun v => v =? val) (graph_fuel o) o (d, negb is_or) false;
            match found with
            | None => ODone o
            | Some (samep, pull, _) =>
                bp ← oget (o_heap o !! pull);
                let o := upd_block (set_succ samep.2 (succ_of (negb is_or) bp)) samep.1 o in
                let o := upd_block (set_succ (negb is_or) (Some d)) pull o in
                o ← (if (at_top : bool) then ofold (repoint q pull) o ins
                     else ODone (upd_block (set_succ diffp.2 (Some pull)) diffp.1 o));
                ODone (set_done false o)
            end
        end
  end.

Definition or_pullup : opt -> nat -> oresult opt := pullup true.
Definition and_pullup : opt -> nat -> oresult opt := pullup false.

(** ** One round *)

Definition link_inedge (parent : edge_ref) (child : option nat) (o : opt) : oresult opt :=
  '(c, bc) ← deref (o_heap o) child;
  let o := upd_block (upd_edge (set_e_next (b_in_edges bc)) parent.2) parent.1 o in
  ODone (upd_block (set_in_edges (Some parent)) c o).

Definition inedges_block (o : opt) (q : nat) : oresult opt :=
  b ← oget (o_heap o !! q);
  o ← link_inedge (q, true) (JT b) o;
  link_inedge (q, false) (JF b) o.

Definition find_inedges (o : opt) (root : nat) : oresult opt :=
  let o := upd_all (set_in_edges None) o in
  level ← level_of o (Some root);
  l ← blocks_down o level 1;
  ofold inedges_block o l.

Definition opt_j_block (o : opt) (q : nat) : oresult opt :=
  o ← opt_j o (q, true); opt_j o (q, false).

Definition pullup_block (o : opt) (q : nat) : oresult opt :=
  o ← or_pullup o q; and_pullup o q.

Definition opt_blks (do_stmts : bool) (o : opt) (root : nat) : oresult opt :=
  let o := set_vtab (init_val (maxval (vtab o))) o in
  maxlevel ← level_of o (Some root);
  o ← find_inedges o root;
  down ← blocks_down o maxlevel 0;
  o ← ofold (opt_blk do_stmts) o down;
  if do_stmts then ODone o
  else
    up ← blocks_up o 1 maxlevel;
    o ← ofold opt_j_block o up;
    o ← find_inedges o root;
    ofold pullup_block o up.
