(* ===== verification/OptLoop.v ===== *)
(** * The optimizer's rounds (optimize.c)

    [opt_init] numbers the blocks and sizes the tables; [opt_loop] repeats a round until
    none of its passes changes the graph; [intern_blocks] merges equal blocks and
    [opt_root] drops tests at the root that decide nothing. [bpf_optimize] is all of them. *)
From stdpp Require Import base numbers list gmap.
From S2P Require Import Prelude BpfInsn BpfFilter Icode Layout.
From S2P Require Import OptState OptFlow OptValue OptBlock OptBranch.
Open Scope Z_scope.

(** ** Setting up *)

(** The blocks reachable from [p] that are not marked; it marks them. *)
Fixpoint count_blocks (fuel : nat) (cur_mark : Z) (h : heap) (p : option nat) : oresult (Z * heap) :=
  match p with
  | None => ODone (0, h)
  | Some q =>
      match fuel with
      | O => OFuel
      | S fuel' =>
          b ← oget (h !! q);
          if isMarked cur_mark b then ODone (0, h)
          else
            let h := alter (set_blk_mark cur_mark) q h in
            '(nt, h) ← count_blocks fuel' cur_mark h (JT b);
            '(nf, h) ← count_blocks fuel' cur_mark h (JF b);
            ODone (nt + nf + 1, h)
      end
  end.

(** [blocks] has [n] elements, the first of which are filled. *)
Fixpoint number_blks_r (fuel : nat) (cur_mark n : Z) (h : heap) (bs : list nat) (p : option nat)
  : oresult (heap * list nat) :=
  match p with
  | None => ODone (h, bs)
  | Some q =>
      match fuel with
      | O => OFuel
      | S fuel' =>
          b ← oget (h !! q);
          if isMarked cur_mark b then ODone (h, bs)
          else if n <=? Z.of_nat (length bs) then OFault
          else
            let h := alter (fun b => set_id (Z.of_nat (length bs)) (set_blk_mark cur_mark b)) q h in
            '(h, bs) ← number_blks_r fuel' cur_mark n h (bs ++ [q]) (JT b);
            number_blks_r fuel' cur_mark n h bs (JF b)
      end
  end.

(** Room for the sets of a block and of its edges, and the edges' numbers. What the sets
    hold is not set: the passes write before they read. *)
Definition init_block (n nodewords edgewords i : Z) (b : block) : block :=
  let node := replicate (Z.to_nat nodewords) 0 in
  let edge := replicate (Z.to_nat edgewords) 0 in
  let b := set_closure node (set_dom node b) in
  let b := upd_edge (fun e => set_e_id i (set_edom edge e)) true b in
  upd_edge (fun e => set_e_id (n + i) (set_edom edge e)) false b.

Fixpoint init_blocks (n nodewords edgewords i : Z) (bs : list nat) (h : heap) : heap :=
  match bs with
  | [] => h
  | q :: bs' =>
      init_blocks n nodewords edgewords (i + 1) bs' (alter (init_block n nodewords edgewords i) q h)
  end.

(** [slength(blocks[i]->stmts) + 1], summed. *)
Definition max_stmts (h : heap) (bs : list nat) : oresult Z :=
  ofold (fun n q => b ← oget (h !! q); ODone (n + (slength (b_stmts b) + 1))) 0 bs.

(** [cm] is [cur_mark] before. *)
Definition opt_init (cm : Z) (h : heap) (root : nat) : oresult opt :=
  let fuel := S (S (size h)) in
  '(n, h) ← count_blocks fuel (cm + 1) h (Some root);
  '(h, bs) ← number_blks_r fuel (cm + 2) n h [] (Some root);
  let n_blocks := Z.of_nat (length bs) in
  let n_edges := 2 * n_blocks in
  let edgewords := n_edges / 32 + 1 in
  let nodewords := n_blocks / 32 + 1 in
  let h := init_blocks n_blocks nodewords edgewords 0 bs h in
  max ← max_stmts h bs;
  ODone (mk_opt h bs (((., true) <$> bs) ++ ((., false) <$> bs)) [] nodewords edgewords (init_val (3 * max)) (cm + 2) true).

(** ** Rounds *)

Definition opt_round (do_stmts : bool) (o : opt) (root : nat) : oresult opt :=
  let o := set_done true o in
  o ← find_levels o root;
  o ← find_dom o root;
  o ← find_closure o root;
  o ← find_ud o root;
  o ← find_edom o root;
  opt_blks do_stmts o root.

(** At most [fuel] rounds. *)
Fixpoint opt_loop (fuel : nat) (do_stmts : bool) (o : opt) (root : nat) : oresult opt :=
  match fuel with
  | O => OFuel
  | S fuel' =>
      o ← opt_round do_stmts o root;
      if done o then ODone o else opt_loop fuel' do_stmts o root
  end.

(** ** Merging equal blocks *)

Fixpoint make_marks (fuel : nat) (o : opt) (q : nat) : oresult opt :=
  match fuel with
  | O => OFuel
  | S fuel' =>
      b ← oget (o_heap o !! q);
      if isMarked (cur_mark o) b then ODone o
      else
        let o := upd_block (set_blk_mark (cur_mark o)) q o in
        if BPF_CLASS (s_code (b_s b)) =? BPF_RET then ODone o
        else
          t ← oget (JT b);
          o ← make_marks fuel' o t;
          f ← oget (JF b);
          make_marks fuel' o f
  end.

Definition mark_code (o : opt) (root : nat) : oresult opt :=
  let o := set_cur_mark (cur_mark o + 1) o in
  make_marks (graph_fuel o) o root.

Definition eq_stmt (s t : stmt) : bool := (s_code s =? s_code t) && (s_k s =? s_k t).

Fixpoint eq_live (x y : slist) : bool :=
  match x, y with
  | [], [] => true
  | n :: x', m :: y' => eq_stmt (sn_s n) (sn_s m) && eq_live x' y'
  | _, _ => false
  end.

(** Deleted statements are skipped on both sides. *)
Definition eq_slist (x y : slist) : bool :=
  eq_live (List.filter live_node x) (List.filter live_node y).

Definition eq_blk (b0 b1 : block) : bool :=
  eq_stmt (b_s b0) (b_s b1) && bool_decide (JT b0 = JT b1) && bool_decide (JF b0 = JF b1)
  && eq_slist (b_stmts b0) (b_stmts b1).

(** The inner loop: the first marked block of [js] that equals the block at [q]. *)
Fixpoint link_equal (o : opt) (q : nat) (b : block) (js : list nat) : oresult opt :=
  match js with
  | [] => ODone o
  | j :: js' =>
      bj ← oget (o_heap o !! j);
      if isMarked (cur_mark o) bj && eq_blk b bj
      then ODone (upd_block (set_link (Some (default j (b_link bj)))) q o)
      else link_equal o q b js'
  end.

(** The loop over [i], from the last block but one down to the first; the last block has
    none to be compared with. *)
Fixpoint link_blocks (o : opt) (bs : list nat) : oresult opt :=
  match bs with
  | [] => ODone o
  | q :: js =>
      o ← link_blocks o js;
      b ← oget (o_heap o !! q);
      if isMarked (cur_mark o) b then link_equal o q b js else ODone o
  end.

(** Redirect one edge of the block at [q] to the block its target is linked to; the flag
    is [done1]. *)
Definition relink_edge (side : bool) (q : nat) (x : opt * bool) : oresult (opt * bool) :=
  let (o, done1) := x in
  b ← oget (o_heap o !! q);
  '(_, bt) ← deref (o_heap o) (succ_of side b);
  ODone (match b_link bt with
         | Some l => (upd_block (set_succ side (Some l)) q o, false)
         | None => (o, done1)
         end).

Definition relink_block (x : opt * bool) (q : nat) : oresult (opt * bool) :=
  b ← oget (o_heap x.1 !! q);
  match JT b with
  | None => ODone x
  | Some _ => x ← relink_edge true q x; relink_edge false q x
  end.

(** From the label [top]. *)
Fixpoint intern_blocks (fuel : nat) (o : opt) (root : nat) : oresult opt :=
  match fuel with
  | O => OFuel
  | S fuel' =>
      let o := upd_all (set_link None) o in
      o ← mark_code o root;
      o ← link_blocks o (blocks o);
      '(o, all_done) ← ofold relink_block (o, true) (blocks o);
      if (all_done : bool) then ODone o else intern_blocks fuel' o root
  end.

(** ** The root *)

(** [sappend] of lists that may be empty: it writes through its first argument. *)
Definition sappend_stmts (s0 s1 : slist) : oresult slist :=
  match s0 with [] => OFault | _ => ODone (s0 ++ s1) end.

(** Past the tests with one successor. *)
Fixpoint skip_root (fuel : nat) (h : heap) (q : nat) : oresult nat :=
  match fuel with
  | O => OFuel
  | S fuel' =>
      b ← oget (h !! q);
      if (BPF_CLASS (s_code (b_s b)) =? BPF_JMP) && bool_decide (JT b = JF b)
      then t ← oget (JT b); skip_root fuel' h t
      else ODone q
  end.

(** The new root and heap. *)
Definition opt_root (h : heap) (root : nat) : oresult (nat * heap) :=
  b ← oget (h !! root);
  let s := b_stmts b in
  let h := alter (set_stmts []) root h in
  root ← skip_root (S (size h)) h root;
  b ← oget (h !! root);
  ss ← (match b_stmts b with [] => ODone s | tmp => sappend_stmts s tmp end);
  let h := alter (set_stmts ss) root h in
  ODone (root, if BPF_CLASS (s_code (b_s b)) =? BPF_RET then alter (set_stmts []) root h else h).

(** ** [bpf_optimize] *)

(** [rounds] bounds the rounds of each [opt_loop]. The result is the root, the graph and
    [cur_mark]. *)
Definition bpf_optimize (rounds : nat) (cm : Z) (h : heap) (root : nat) : oresult (nat * heap * Z) :=
  o ← opt_init cm h root;
  o ← opt_loop rounds false o root;
  o ← opt_loop rounds true o root;
  o ← intern_blocks (S (length (blocks o))) o root;
  '(root, h) ← opt_root (o_heap o) root;
  ODone (root, h, cur_mark o).
