(* ===== verification/OptGraph.v ===== *)
(** * The graph under the optimizer's annotations

    Most passes change no statement and no edge, only the fields they compute: the graph
    stays the same. [dag] is what all passes rely on, a set of blocks closed under
    successors without cycles. The lemmas here are shared by the proofs of all passes. *)
From stdpp Require Import base numbers list gmap.
From Stdlib Require Import Strings.Byte.
From S2P Require Import Prelude BpfInsn BpfFilter Icode Layout LayoutProofs OptState OptFlow OptLoop.
From S2P Require Import Gencode GencodeFilter.
Open Scope Z_scope.

(** ** Results *)

Lemma obind_ODone {A B} (m : oresult A) (k : A -> oresult B) b :
  m ≫= k = ODone b -> exists a, m = ODone a /\ k a = ODone b.
Proof. destruct m; cbn; [|discriminate..]. eauto. Qed.

Lemma oget_ODone {A} (o : option A) a : oget o = ODone a <-> o = Some a.
Proof. destruct o; cbn; split; congruence. Qed.

(** Take an [ODone] hypothesis apart, one step of the monad at a time. *)
Ltac odone H :=
  match type of H with
  | _ ≫= _ = ODone _ =>
      let a := fresh "a" in let H1 := fresh "H1" in
      apply obind_ODone in H; destruct H as (a & H1 & H); try (apply oget_ODone in H1)
  end.

(** A loop whose body succeeds; the invariant is about the elements already done. *)
Lemma ofold_prefix {A B} (I : list B -> A -> Prop) (f : A -> B -> oresult A) l a :
  I [] a ->
  (forall l1 x l2 a, l = l1 ++ x :: l2 -> I l1 a -> exists a', f a x = ODone a' /\ I (l1 ++ [x]) a') ->
  exists a', ofold f a l = ODone a' /\ I l a'.
Proof.
  intros Ha Hf. assert (forall l1 l2 a, l = l1 ++ l2 -> I l1 a -> exists a', ofold f a l2 = ODone a' /\ I l a') as H.
  { intros l1 l2. revert l1. induction l2 as [|x l2 IH]; intros l1 a' -> Hl1; cbn [ofold].
    - exists a'. now rewrite app_nil_r.
    - destruct (Hf l1 x l2 a' eq_refl Hl1) as (a1 & -> & H1). cbn. apply (IH (l1 ++ [x])); [|done].
      now rewrite <- app_assoc. }
  exact (H [] l a eq_refl Ha).
Qed.

(** ** Blocks with the same code *)

Definition same_code (b b' : block) : Prop :=
  b_stmts b' = b_stmts b /\ b_s b' = b_s b /\ JT b' = JT b /\ JF b' = JF b.

Definition same_graph (h h' : heap) : Prop := forall q, option_Forall2 same_code (h !! q) (h' !! q).

#[export] Instance same_code_equiv : Equivalence same_code.
Proof. split; [now repeat split|intros b b'|intros b b' b'']; unfold same_code; intuition congruence. Qed.

#[export] Instance same_graph_equiv : Equivalence same_graph.
Proof.
  split.
  - intros h q. reflexivity.
  - intros h h' H q. symmetry. apply H.
  - intros h h' h'' H1 H2 q. etransitivity; [apply H1|apply H2].
Qed.

Lemma same_graph_Some h h' q b :
  same_graph h h' -> h !! q = Some b -> exists b', h' !! q = Some b' /\ same_code b b'.
Proof. intros H Hb. specialize (H q). rewrite Hb in H. inversion H; subst; eauto. Qed.

Lemma same_graph_alter f q h : (forall b, same_code b (f b)) -> same_graph h (alter f q h).
Proof.
  intros Hf a. destruct (decide (a = q)) as [->|Hne].
  - rewrite lookup_alter_eq. destruct (h !! q); cbn; constructor. apply Hf.
  - rewrite lookup_alter_ne by done. reflexivity.
Qed.

Lemma same_graph_insert q b b' h : h !! q = Some b -> same_code b b' -> same_graph h (<[q := b']> h).
Proof.
  intros Hq Hb a. destruct (decide (a = q)) as [->|Hne].
  - rewrite lookup_insert_eq, Hq. now constructor.
  - now rewrite lookup_insert_ne.
Qed.

(** The field updates of the analyses leave the code alone. *)
Create HintDb same_code.
Ltac same_code := intros; now repeat split.
Lemma same_code_mark v b : same_code b (set_blk_mark v b). Proof. same_code. Qed.
Lemma same_code_level v b : same_code b (set_level v b). Proof. same_code. Qed.
Lemma same_code_link v b : same_code b (set_link v b). Proof. same_code. Qed.
Lemma same_code_dom v b : same_code b (set_dom v b). Proof. same_code. Qed.
Lemma same_code_closure v b : same_code b (set_closure v b). Proof. same_code. Qed.
Lemma same_code_in_edges v b : same_code b (set_in_edges v b). Proof. same_code. Qed.
Lemma same_code_in_use v b : same_code b (set_in_use v b). Proof. same_code. Qed.
Lemma same_code_out_use v b : same_code b (set_out_use v b). Proof. same_code. Qed.
Lemma same_code_ud d u k b : same_code b (set_ud d u k b). Proof. same_code. Qed.
Lemma same_code_edge f side b : (forall e, e_succ (f e) = e_succ e) -> same_code b (upd_edge f side b).
Proof. intros Hf. destruct side; repeat split; cbn; apply Hf. Qed.
#[export] Hint Resolve same_code_mark same_code_level same_code_link same_code_dom same_code_closure
  same_code_in_edges same_code_in_use same_code_out_use same_code_ud same_code_edge : same_code.

Lemma same_code_succ b b' side : same_code b b' -> succ_of side b' = succ_of side b.
Proof. intros (_ & _ & Ht & Hf). now destruct side. Qed.

Lemma same_code_exec p wirelen buflen b b' r :
  same_code b b' -> exec_block p wirelen buflen b' r = exec_block p wirelen buflen b r.
Proof. unfold exec_block. now intros (-> & -> & _). Qed.

Lemma same_graph_run p wirelen buflen fuel h h' q r :
  same_graph h h' -> graph_run p wirelen buflen fuel h' q r = graph_run p wirelen buflen fuel h q r.
Proof.
  intros H. revert q r. induction fuel as [|fuel IH]; intros q r; cbn [graph_run]; [reflexivity|].
  pose proof (H q) as Hq. destruct Hq as [b b' Hb|]; [|reflexivity].
  rewrite (same_code_exec _ _ _ _ _ _ Hb). destruct (exec_block _ _ _ _ _) as [side r'|]; [|reflexivity].
  rewrite (same_code_succ _ _ _ Hb). destruct (succ_of side b); [apply IH|reflexivity].
Qed.

(** ** Closed graphs without cycles *)

(** [rank] decreases along the edges; a leaf has no successor, any other block has two. *)
Definition dag (h : heap) (C : gset nat) (rank : nat -> nat) : Prop :=
  forall q, q ∈ C -> exists b, h !! q = Some b /\ closed_block C b /\
    forall side t, succ_of side b = Some t -> (rank t < rank q)%nat.

Lemma closed_block_same C b b' : same_code b b' -> closed_block C b -> closed_block C b'.
Proof. intros (_ & _ & Ht & Hf). unfold closed_block. now rewrite Ht, Hf. Qed.

Lemma dag_same h h' C rank : same_graph h h' -> dag h C rank -> dag h' C rank.
Proof.
  intros H Hd q Hq. destruct (Hd q Hq) as (b & Hb & Hc & Hr).
  destruct (same_graph_Some _ _ _ _ H Hb) as (b' & Hb' & Hs). exists b'. split; [done|].
  split; [now apply (closed_block_same C b)|]. intros side t. rewrite (same_code_succ _ _ _ Hs). apply Hr.
Qed.

(** The successors of a block of a closed graph. *)
Lemma closed_succ C b side t : closed_block C b -> succ_of side b = Some t -> t ∈ C.
Proof. intros [[Ht Hf]|(t' & f' & Ht & Hf & ? & ?)] Hs; destruct side; cbn in Hs; congruence. Qed.

(** ** Heights *)

(** The length of the longest path from a block. *)
Definition height_of (rank : nat -> nat) (b : block) : nat :=
  match JT b, JF b with Some t, Some f => S (Nat.max (rank t) (rank f)) | _, _ => O end.

Definition is_height (h : heap) (C : gset nat) (rank : nat -> nat) : Prop :=
  forall q b, q ∈ C -> h !! q = Some b -> rank q = height_of rank b.

Fixpoint height (n : nat) (h : heap) (q : nat) : nat :=
  match n, h !! q with S n', Some b => height_of (height n' h) b | _, _ => O end.

Lemma height_stable h C rank n m q :
  dag h C rank -> q ∈ C -> (rank q < n)%nat -> (rank q < m)%nat -> height n h q = height m h q.
Proof.
  intros Hd. revert m q. induction n as [|n IH]; intros [|m] q Hq Hn Hm; try lia. cbn [height].
  destruct (Hd q Hq) as (b & -> & [[Ht _]|(t & f & Ht & Hf & HtC & HfC)] & Hr); unfold height_of; rewrite Ht; [done|].
  pose proof (Hr true t Ht). pose proof (Hr false f Hf).
  rewrite Hf, (IH m t), (IH m f) by (done || lia). done.
Qed.

Lemma dag_height h C rank : dag h C rank -> exists rank', is_height h C rank'.
Proof.
  intros Hd. set (N := S (list_max (rank <$> elements C))).
  assert (forall q, q ∈ C -> (rank q < N)%nat) as HN.
  { intros q Hq. unfold N. apply Nat.lt_succ_r.
    pose proof (proj1 (list_max_le (rank <$> elements C) _) (Nat.le_refl _)) as Hmax.
    rewrite List.Forall_forall in Hmax. apply Hmax. apply list_elem_of_In, list_elem_of_fmap. exists q.
    split; [done|]. now apply elem_of_elements. }
  exists (height N h). intros q b Hq Hb. destruct (Hd q Hq) as (b' & Hb' & Hc & Hr). simplify_eq.
  rewrite (height_stable h C rank N (S N) q Hd Hq) by (pose proof (HN q Hq); lia). cbn [height]. now rewrite Hb.
Qed.

(** The blocks of a closed set, each with both successors or none. *)
Definition closed (h : heap) (C : gset nat) : Prop :=
  forall q, q ∈ C -> exists b, h !! q = Some b /\ closed_block C b.

Lemma dag_closed h C rank : dag h C rank -> closed h C.
Proof. intros Hd q Hq. destruct (Hd q Hq) as (b & ? & ? & _). eauto. Qed.

Lemma closed_size h C : closed h C -> (size C <= size h)%nat.
Proof.
  intros Hc. rewrite <- (size_dom (D := gset nat) h). apply subseteq_size. intros q Hq.
  destruct (Hc q Hq) as (b & Hb & _). apply elem_of_dom. eauto.
Qed.

(** The fuel of the walks is enough. *)
Lemma unmarked_fuel cm o C : closed (o_heap o) C -> (size (unmarked cm C (o_heap o)) < graph_fuel o)%nat.
Proof.
  intros Hc. apply closed_size in Hc. assert (size (unmarked cm C (o_heap o)) <= size C)%nat.
  { apply subseteq_size. intros x Hx. unfold unmarked in Hx. now rewrite elem_of_filter in Hx. }
  unfold graph_fuel. lia.
Qed.

Lemma closed_same h h' C : same_graph h h' -> closed h C -> closed h' C.
Proof.
  intros H Hc q Hq. destruct (Hc q Hq) as (b & Hb & Hcb).
  destruct (same_graph_Some _ _ _ _ H Hb) as (b' & Hb' & Hs). exists b'.
  split; [done|]. now apply (closed_block_same C b).
Qed.

Lemma height_succ C rank b side t :
  closed_block C b -> succ_of side b = Some t -> (rank t < height_of rank b)%nat.
Proof.
  intros Hc Ht. unfold height_of.
  destruct Hc as [[HT HF]|(t' & f' & HT & HF & _)]; destruct side; cbn in Ht; rewrite ?HT, ?HF in *; simplify_eq; lia.
Qed.

Lemma height_dag h C rank : closed h C -> is_height h C rank -> dag h C rank.
Proof.
  intros Hc Hh q Hq. destruct (Hc q Hq) as (b & Hb & Hcb). exists b. split; [done|]. split; [done|].
  intros side t Ht. rewrite (Hh q b Hq Hb). now apply (height_succ C rank b side).
Qed.

Lemma is_height_same h h' C rank : same_graph h h' -> is_height h C rank -> is_height h' C rank.
Proof.
  intros H Hh q b' Hq Hb'. destruct (same_graph_Some _ _ _ _ (symmetry H) Hb') as (b & Hb & _ & _ & Ht & Hf).
  rewrite (Hh q b Hq Hb). unfold height_of. now rewrite Ht, Hf.
Qed.

(** [C] is what is reachable from the root. *)
Definition reachable (h : heap) (C : gset nat) (root : nat) : Prop :=
  root ∈ C /\ forall M, root ∈ M -> closed h M -> C ⊆ M.

(** ** Updates of all blocks *)

Lemma upd_all_eq f o : upd_all f o = upd_heap (fun h => fold_left (fun h q => alter f q h) (blocks o) h) o.
Proof.
  unfold upd_all. generalize (blocks o) as l. intros l. revert o.
  induction l as [|q l IH]; intros o; cbn [fold_left]; [now destruct o|]. rewrite IH. reflexivity.
Qed.

Lemma upd_all_same f o : (forall b, same_code b (f b)) -> same_graph (o_heap o) (o_heap (upd_all f o)).
Proof.
  intros Hf. rewrite upd_all_eq. cbn. generalize (o_heap o) as h.
  induction (blocks o) as [|q l IH]; intros h; cbn [fold_left]; [reflexivity|].
  rewrite <- IH. now apply same_graph_alter.
Qed.

(** An update that is idempotent up to [P] establishes [P] on all blocks. *)
Lemma upd_all_Forall f (P : block -> Prop) o q b :
  (forall b, P (f b)) -> q ∈ blocks o -> o_heap (upd_all f o) !! q = Some b -> P b.
Proof.
  intros Hf. rewrite upd_all_eq. cbn. generalize (o_heap o) as h.
  assert (forall l (h : heap) b, (forall b, h !! q = Some b -> P b) ->
            fold_left (fun h q => alter f q h) l h !! q = Some b -> P b) as Hkeep.
  { induction l as [|x l IH]; intros h b' Hh Hb'; [now apply Hh|]. revert Hb'. apply IH. intros b1.
    destruct (decide (q = x)) as [->|]; [|rewrite lookup_alter_ne by done; apply Hh].
    rewrite lookup_alter_eq. destruct (h !! x); [|discriminate]. intros [= <-]. apply Hf. }
  induction (blocks o) as [|x l IH]; intros h Hin; cbn [fold_left]; [now apply elem_of_nil in Hin|].
  destruct (decide (q = x)) as [->|Hne]; [|apply IH; now apply elem_of_cons in Hin as [|]].
  apply Hkeep. intros b1. rewrite lookup_alter_eq. destruct (h !! x); [|discriminate].
  intros [= <-]. apply Hf.
Qed.

(** ** A sample graph *)

(** [dag] as a test, for concrete graphs. *)
Definition dag_check (h : heap) (bs : list nat) (rank : nat -> nat) : bool :=
  forallb (fun q =>
    match h !! q with
    | Some b =>
        match JT b, JF b with
        | None, None => true
        | Some t, Some f =>
            bool_decide (t ∈ bs) && bool_decide (f ∈ bs) && (rank t <? rank q)%nat && (rank f <? rank q)%nat
        | _, _ => false
        end
    | None => false
    end) bs.

Lemma dag_check_ok h bs rank : dag_check h bs rank = true -> dag h (list_to_set bs) rank.
Proof.
  intros Hc q Hq. rewrite elem_of_list_to_set in Hq. unfold dag_check in Hc.
  rewrite forallb_forall in Hc. specialize (Hc q (proj1 (list_elem_of_In _ _) Hq)).
  destruct (h !! q) as [b|]; [|discriminate]. exists b. split; [done|]. unfold closed_block.
  destruct (JT b) as [t|] eqn:Ht, (JF b) as [f|] eqn:Hf; try discriminate.
  - rewrite !andb_true_iff, !bool_decide_eq_true, !Nat.ltb_lt in Hc. destruct Hc as [[[? ?] ?] ?].
    split; [right; exists t, f; now rewrite !elem_of_list_to_set|].
    intros [] u; cbn; congruence.
  - split; [now left|]. intros [] u; cbn; congruence.
Qed.

(** Every block of [rest] has a predecessor before it. *)
Fixpoint reach_check (h : heap) (seen rest : list nat) : bool :=
  match rest with
  | [] => true
  | x :: rest' =>
      existsb (fun y => match h !! y with
        | Some b => bool_decide (JT b = Some x) || bool_decide (JF b = Some x) | None => false end) seen
      && reach_check h (seen ++ [x]) rest'
  end.

Lemma reach_check_in h M seen rest :
  closed h M -> reach_check h seen rest = true -> (forall x, x ∈ seen -> x ∈ M) -> forall x, x ∈ rest -> x ∈ M.
Proof.
  intros HM. revert seen. induction rest as [|z rest IH]; intros seen Hc Hs x Hx; [now apply elem_of_nil in Hx|].
  cbn [reach_check] in Hc. apply andb_true_iff in Hc as [(y & Hy & Hb)%existsb_exists Hc].
  assert (z ∈ M) as HzM.
  { apply list_elem_of_In in Hy. destruct (HM y (Hs y Hy)) as (b & Eb & Hcb). rewrite Eb in Hb.
    apply orb_true_iff in Hb as [Hb|Hb]; apply bool_decide_eq_true in Hb;
      [apply (closed_succ M b true)|apply (closed_succ M b false)]; done. }
  apply elem_of_cons in Hx as [->|Hx]; [done|]. apply (IH (seen ++ [z]) Hc); [|done].
  intros w [Hw| ->%list_elem_of_singleton]%elem_of_app; auto.
Qed.

Lemma reach_check_ok h root rest :
  reach_check h [root] rest = true -> reachable h (list_to_set (root :: rest)) root.
Proof.
  intros Hc. split; [rewrite elem_of_list_to_set; left|]. intros M Hr HM x. rewrite elem_of_list_to_set.
  intros [->|Hx]%elem_of_cons; [done|]. apply (reach_check_in h M [root] rest HM Hc); [|done].
  intros y ->%list_elem_of_singleton. done.
Qed.

(** Two tests with equal code, and the optimizer's state when it starts on them. *)
Definition sample_filter : bexp := BOr (BAnd test_ip test_bcast) (BAnd test_ip test_bcast).

Definition no_opt : opt := mk_opt ∅ [] [] [] 0 0 (mk_vtable [] 0 0 []) 0 true.

Definition opt_of (e : bexp) : opt :=
  match gen_filter e 96 with
  | Some (root, h) => match opt_init 0 h root with ODone o => o | _ => no_opt end
  | None => no_opt
  end.

Definition sample_opt : opt := opt_of sample_filter.
Definition sample_root : nat := default O (head (blocks sample_opt)).
Definition sample_rank : nat -> nat := height 10 (o_heap sample_opt).

Lemma sample_dag : dag (o_heap sample_opt) (list_to_set (blocks sample_opt)) sample_rank.
Proof. apply dag_check_ok. vm_compute. reflexivity. Qed.

Lemma sample_blocks : blocks sample_opt = sample_root :: tail (blocks sample_opt).
Proof. vm_compute. reflexivity. Qed.

Lemma sample_reachable : reachable (o_heap sample_opt) (list_to_set (blocks sample_opt)) sample_root.
Proof. rewrite sample_blocks. apply reach_check_ok. vm_compute. reflexivity. Qed.

Lemma sample_marks : forall q b, o_heap sample_opt !! q = Some b -> b_mark b <= OptState.cur_mark sample_opt.
Proof.
  change (map_Forall (fun _ b => b_mark b <= OptState.cur_mark sample_opt) (o_heap sample_opt)).
  apply (bool_decide_unpack _). vm_compute. exact I.
Qed.
