(* ===== verification/OptIntern.v ===== *)
(** * Merging equal blocks keeps the meaning of the graph (optimize.c)

    [intern_blocks] ends, and on every packet the graph it leaves runs exactly as the graph
    it was given. Each round that redirects an edge takes a block away from those reachable
    from the root, so there are no more rounds than blocks. *)
From stdpp Require Import base numbers list gmap.
From Stdlib Require Import Strings.Byte.
From S2P Require Import Prelude BpfInsn BpfFilter Icode Layout LayoutProofs.
From S2P Require Import OptState OptFlow OptLoop OptGraph.
Open Scope Z_scope.

(** ** [eq_blk] *)

Lemma exec_stmts_live p wirelen buflen ss r :
  exec_stmts p wirelen buflen (List.filter live_node ss) r = exec_stmts p wirelen buflen ss r.
Proof.
  revert r. induction ss as [|n ss IH]; intros r; [reflexivity|]. cbn [List.filter exec_stmts].
  unfold live_node. destruct (s_code (sn_s n) =? NOP) eqn:E; cbn [negb]; [apply IH|].
  cbn [exec_stmts]. rewrite E. destruct (exec_insn _ _ _ _ _) as [d r'|]; [|reflexivity].
  destruct (d =? 0); [apply IH|reflexivity].
Qed.

Lemma eq_stmt_insn s t : eq_stmt s t = true -> s_code s = s_code t /\ insn_of_stmt s = insn_of_stmt t.
Proof.
  unfold eq_stmt, insn_of_stmt. rewrite andb_true_iff, !Z.eqb_eq. intros [-> ->]. done.
Qed.

Lemma eq_live_exec p wirelen buflen x y r :
  eq_live x y = true -> exec_stmts p wirelen buflen x r = exec_stmts p wirelen buflen y r.
Proof.
  revert y r. induction x as [|n x IH]; intros [|m y] r; cbn [eq_live]; [done..|].
  rewrite andb_true_iff. intros [[Hc Hi]%eq_stmt_insn Hl]. cbn [exec_stmts]. rewrite Hc, Hi, (IH y r Hl).
  destruct (s_code (sn_s m) =? NOP); [reflexivity|].
  destruct (exec_insn _ _ _ _ _) as [d r'|]; [|reflexivity]. now rewrite (IH y r' Hl).
Qed.

Lemma eq_blk_exec p wirelen buflen b0 b1 r :
  eq_blk b0 b1 = true ->
  exec_block p wirelen buflen b0 r = exec_block p wirelen buflen b1 r /\ JT b0 = JT b1 /\ JF b0 = JF b1.
Proof.
  unfold eq_blk. rewrite !andb_true_iff, !bool_decide_eq_true. intros [[[Hs Ht] Hf] Hl].
  split; [|done]. unfold exec_block.
  rewrite <- (exec_stmts_live p wirelen buflen (b_stmts b0)), (eq_live_exec _ _ _ _ _ r Hl), exec_stmts_live.
  destruct (exec_stmts _ _ _ _ _) as [r'|]; [|reflexivity].
  unfold eq_stmt in Hs. rewrite andb_true_iff, !Z.eqb_eq in Hs. destruct Hs as [Hc Hk].
  unfold exec_branch, operand, insn_of_stmt. now rewrite Hc, Hk.
Qed.

(** Equal blocks run the same. *)
Lemma eq_blk_run p wirelen buflen fuel h q0 q1 b0 b1 r :
  h !! q0 = Some b0 -> h !! q1 = Some b1 -> eq_blk b0 b1 = true ->
  graph_run p wirelen buflen fuel h q0 r = graph_run p wirelen buflen fuel h q1 r.
Proof.
  intros H0 H1 He. destruct (eq_blk_exec p wirelen buflen b0 b1 r He) as (Hx & Ht & Hf).
  destruct fuel as [|fuel]; [reflexivity|]. cbn [graph_run]. rewrite H0, H1, Hx.
  destruct (exec_block p wirelen buflen b1 r) as [side r'|]; [|reflexivity].
  assert (succ_of side b0 = succ_of side b1) as -> by (now destruct side). reflexivity.
Qed.

(** ** [mark_code] *)

(** Returns are the blocks without successors. *)
Definition rets (h : heap) (C : gset nat) : Prop :=
  forall q b, q ∈ C -> h !! q = Some b -> BPF_CLASS (s_code (b_s b)) = BPF_RET <-> JT b = None.

Lemma rets_same h h' C : same_graph h h' -> rets h C -> rets h' C.
Proof.
  intros H Hr q b' Hq Hb'. destruct (same_graph_Some _ _ _ _ (symmetry H) Hb') as (b & Hb & Hs).
  destruct Hs as (_ & Hs & Ht & _). rewrite <- Hs, <- Ht. now apply (Hr q).
Qed.

(** Blocks that differ in nothing but the mark, which is [cm] if it is new. *)
Definition remark (cm : Z) (b b' : block) : Prop :=
  same_code b b' /\ b_link b' = b_link b /\ (b_mark b' = b_mark b \/ b_mark b' = cm).
Definition remarked (cm : Z) (h h' : heap) : Prop := forall q, option_Forall2 (remark cm) (h !! q) (h' !! q).

#[export] Instance remarked_preorder cm : PreOrder (remarked cm).
Proof.
  split.
  - intros h q. destruct (h !! q); constructor. split; [reflexivity|auto].
  - intros h1 h2 h3 H12 H23 q. specialize (H12 q). specialize (H23 q).
    destruct H12 as [b1 b2 (H1 & L1 & M1)|]; inversion H23 as [? b3 (H2 & L2 & M2)|]; subst; constructor.
    split; [etransitivity; eassumption|]. split; [congruence|]. destruct M1, M2; auto with congruence.
Qed.

Lemma remarked_same cm h h' : remarked cm h h' -> same_graph h h'.
Proof. intros H q. destruct (H q) as [b b' [Hb _]|]; now constructor. Qed.

Lemma remarked_Mark cm q h : remarked cm h (alter (set_blk_mark cm) q h).
Proof.
  intros a. destruct (decide (a = q)) as [->|Hne].
  - rewrite lookup_alter_eq. destruct (h !! q); constructor. split; [auto with same_code|auto].
  - rewrite lookup_alter_ne by done. destruct (h !! a); constructor. split; [reflexivity|auto].
Qed.

(** [x] was marked before, or it is a block of [C] whose successors are marked. *)
Definition mark_ok (cm : Z) (C : gset nat) (h h' : heap) (x : nat) : Prop :=
  marked cm h x = true \/
  (x ∈ C /\ forall b side t, h !! x = Some b -> succ_of side b = Some t -> marked cm h' t = true).

Definition marks (cm : Z) (C : gset nat) (h h' : heap) : Prop :=
  remarked cm h h' /\ (forall x, marked cm h x = true -> marked cm h' x = true) /\
  (forall x, marked cm h' x = true -> mark_ok cm C h h' x).

Lemma marks_refl cm C h : marks cm C h h.
Proof. split; [reflexivity|]. split; [done|]. intros x Hx. now left. Qed.

(** A marked block and its successors. *)
Lemma marks_block cm C h q b h1 h2 :
  h !! q = Some b -> q ∈ C -> marks cm C (alter (set_blk_mark cm) q h) h1 -> marks cm C h1 h2 ->
  (forall side t, succ_of side b = Some t -> marked cm h2 t = true) -> marks cm C h h2.
Proof.
  intros Hb Hq (R1 & M1 & N1) (R2 & M2 & N2) Hs.
  assert (forall x, marked cm (alter (set_blk_mark cm) q h) x = true <-> x = q \/ marked cm h x = true) as Hmq.
  { intros x. change (alter (set_blk_mark cm) q h) with (Mark cm q h). rewrite marked_Mark by eauto.
    rewrite orb_true_iff, bool_decide_eq_true. tauto. }
  pose proof (remarked_Mark cm q h) as R0. split; [etransitivity; [exact R0|etransitivity; eassumption]|].
  split; [intros x Hx; apply M2, M1, Hmq; now right|]. intros x [Hx|[Hx Hxs]]%N2.
  - destruct (N1 x Hx) as [[->|Hx']%Hmq|[Hx' Hxs]]; [right|now left|right].
    + split; [done|]. intros b0 side t Hb0. rewrite Hb in Hb0. injection Hb0 as <-. apply Hs.
    + split; [done|]. intros b0 side t Hb0 Ht. apply M2.
      destruct (same_graph_Some _ _ _ _ (remarked_same _ _ _ R0) Hb0) as (b1 & Hb1 & S1).
      apply (Hxs b1 side t Hb1). now rewrite (same_code_succ _ _ _ S1).
  - right. split; [done|]. intros b0 side t Hb0 Ht.
    destruct (same_graph_Some _ _ _ _ (transitivity (remarked_same _ _ _ R0) (remarked_same _ _ _ R1)) Hb0)
      as (b1 & Hb1 & S1). apply (Hxs b1 side t Hb1). now rewrite (same_code_succ _ _ _ S1).
Qed.

Lemma make_marks_ok fuel o q C :
  closed (o_heap o) C -> rets (o_heap o) C -> q ∈ C ->
  (size (unmarked (cur_mark o) C (o_heap o)) < fuel)%nat ->
  exists h', make_marks fuel o q = ODone (set_heap h' o) /\ marks (cur_mark o) C (o_heap o) h' /\
    marked (cur_mark o) h' q = true.
Proof.
  revert o q. induction fuel as [|fuel IH]; intros o q Hd Hr Hq Hf; [lia|].
  destruct (Hd q Hq) as (b & Hb & Hc). cbn [make_marks]. rewrite Hb. cbn [oget mbind oresult_bind].
  destruct (isMarked (cur_mark o) b) eqn:Em.
  { exists (o_heap o). split; [now destruct o|]. split; [apply marks_refl|]. unfold marked. now rewrite Hb. }
  assert (marked (cur_mark o) (o_heap o) q = false) as Hmq by (unfold marked; now rewrite Hb).
  set (o1 := upd_block (set_blk_mark (cur_mark o)) q o).
  assert (marked (cur_mark o) (o_heap o1) q = true) as Hq1.
  { unfold marked, o1. cbn. rewrite lookup_alter_eq, Hb. cbn. unfold isMarked. cbn. apply Z.eqb_refl. }
  pose proof (unmarked_Mark (cur_mark o) C (o_heap o) q Hq ltac:(eauto) Hmq) as Hlt.
  change (Mark (cur_mark o) q (o_heap o)) with (o_heap o1) in Hlt.
  pose proof (remarked_Mark (cur_mark o) q (o_heap o)) as R1. change (alter _ _ _) with (o_heap o1) in R1.
  pose proof (remarked_same _ _ _ R1) as G1. pose proof (Hr q b Hq Hb) as Hret.
  destruct Hc as [[Ht Hfn]|(t & f & Ht & Hfn & HtC & HfC)].
  - rewrite (proj2 (Z.eqb_eq _ _) (proj2 Hret Ht)). exists (o_heap o1). split; [reflexivity|].
    split; [|done]. eapply marks_block; [exact Hb|done|apply marks_refl|apply marks_refl|].
    intros [] t; cbn; congruence.
  - rewrite (proj2 (Z.eqb_neq _ _)) by (intros E; apply Hret in E; congruence).
    rewrite Ht, Hfn. cbn [oget mbind oresult_bind].
    destruct (IH o1 t (closed_same _ _ _ G1 Hd) (rets_same _ _ _ G1 Hr) HtC ltac:(cbn in *; lia))
      as (h2 & -> & M2 & Ht2). cbn [mbind oresult_bind].
    pose proof (remarked_same _ _ _ (proj1 M2)) as G2.
    pose proof (unmarked_mono (cur_mark o) C (o_heap o1) h2 (proj1 (proj2 M2))) as Hle.
    destruct (IH (set_heap h2 o1) f (closed_same _ _ _ G2 (closed_same _ _ _ G1 Hd))
      (rets_same _ _ _ G2 (rets_same _ _ _ G1 Hr)) HfC ltac:(cbn in *; lia)) as (h3 & -> & M3 & Hf3).
    exists h3. split; [reflexivity|]. split; [|apply M3, M2, Hq1].
    eapply marks_block; [exact Hb|done|exact M2|exact M3|].
    intros [] x; cbn; intros Hx; simplify_eq; [apply M3, Ht2|exact Hf3].
Qed.

(** ** [eq_blk] is an equivalence on code *)

Lemma eq_stmt_spec s t : eq_stmt s t = true <-> s_code s = s_code t /\ s_k s = s_k t.
Proof. unfold eq_stmt. now rewrite andb_true_iff, !Z.eqb_eq. Qed.

Lemma eq_live_trans x y z : eq_live x y = true -> eq_live y z = true -> eq_live x z = true.
Proof.
  revert y z. induction x as [|n x IH]; intros [|m y] [|o z]; cbn [eq_live]; try done.
  rewrite !andb_true_iff, !eq_stmt_spec. intros [[] ?] [[] ?]. split; [|eauto]. split; congruence.
Qed.

Lemma eq_blk_spec b0 b1 :
  eq_blk b0 b1 = true <->
  eq_stmt (b_s b0) (b_s b1) = true /\ JT b0 = JT b1 /\ JF b0 = JF b1 /\ eq_slist (b_stmts b0) (b_stmts b1) = true.
Proof. unfold eq_blk. rewrite !andb_true_iff, !bool_decide_eq_true. tauto. Qed.

Lemma eq_blk_trans b0 b1 b2 : eq_blk b0 b1 = true -> eq_blk b1 b2 = true -> eq_blk b0 b2 = true.
Proof.
  rewrite !eq_blk_spec, !eq_stmt_spec. unfold eq_slist.
  intros ([] & ? & ? & E1) ([] & ? & ? & E2). pose proof (eq_live_trans _ _ _ E1 E2).
  repeat split; congruence.
Qed.

Lemma eq_blk_same b0 b1 b0' b1' : same_code b0 b0' -> same_code b1 b1' -> eq_blk b0' b1' = eq_blk b0 b1.
Proof.
  unfold same_code, eq_blk. intros (E1 & E2 & E3 & E4) (F1 & F2 & F3 & F4).
  now rewrite E1, E2, E3, E4, F1, F2, F3, F4.
Qed.

Definition twin (h : heap) (x y : nat) : Prop :=
  exists bx bl, h !! x = Some bx /\ h !! y = Some bl /\ eq_blk bx bl = true.

Lemma twin_trans h x y z : twin h x y -> twin h y z -> twin h x z.
Proof.
  intros (bx & bl & ? & ? & ?) (bl' & bz & ? & ? & ?). simplify_eq. exists bx, bz.
  eauto using eq_blk_trans.
Qed.

Lemma twin_same h h' x y : same_graph h h' -> twin h x y -> twin h' x y.
Proof.
  intros H (bx & bl & Hx & Hy & He).
  destruct (same_graph_Some _ _ _ _ H Hx) as (bx' & ? & S1), (same_graph_Some _ _ _ _ H Hy) as (bl' & ? & S2).
  exists bx', bl'. split; [done|]. split; [done|]. now rewrite (eq_blk_same _ _ _ _ S1 S2).
Qed.

(** ** The links *)

(** [lnk h t]: the link of the block at [t]. *)
Definition lnk (h : heap) (t : nat) : option nat := h !! t ≫= b_link.

Definition same_marks (h h' : heap) : Prop := forall x, b_mark <$> h' !! x = b_mark <$> h !! x.

Lemma same_marks_marked cm h h' x : same_marks h h' -> marked cm h' x = marked cm h x.
Proof.
  intros H. specialize (H x). unfold marked, isMarked. destruct (h' !! x), (h !! x); cbn in H; congruence.
Qed.

(** The links of the blocks of [bs] are right: from a marked block to an equal marked one
    further down the array, that has no link itself. *)
Definition links_ok (cm : Z) (h : heap) (bs : list nat) : Prop :=
  forall x l, x ∈ bs -> lnk h x = Some l ->
    marked cm h x = true /\ marked cm h l = true /\ twin h x l /\ lnk h l = None /\ l ∈ tail bs.

(** [link_blocks] only sets links of the blocks it goes over. *)
Definition linked (h h' : heap) (bs : list nat) : Prop :=
  same_graph h h' /\ same_marks h h' /\ (forall x, x ∉ bs -> lnk h' x = lnk h x).

Lemma lnk_set_link h q v x : lnk (alter (set_link v) q h) x = if decide (x = q) then (h !! q) ≫= (fun _ => v) else lnk h x.
Proof.
  unfold lnk. destruct (decide (x = q)) as [->|Hne]; [|now rewrite lookup_alter_ne].
  rewrite lookup_alter_eq. now destruct (h !! q).
Qed.

Lemma same_marks_set_link h q v : same_marks h (alter (set_link v) q h).
Proof.
  intros x. destruct (decide (x = q)) as [->|Hne]; [|now rewrite lookup_alter_ne].
  rewrite lookup_alter_eq. now destruct (h !! q).
Qed.

Lemma marked_set_link cm h q v x : marked cm (alter (set_link v) q h) x = marked cm h x.
Proof. apply same_marks_marked, same_marks_set_link. Qed.

Lemma linked_set_link h q v js : linked h (alter (set_link v) q h) (q :: js).
Proof.
  split; [apply same_graph_alter; auto with same_code|]. split; [apply same_marks_set_link|].
  intros x Hx. rewrite lnk_set_link, decide_False; [done|]. set_solver.
Qed.

Lemma linked_refl h bs : linked h h bs.
Proof. split; [reflexivity|]. now split. Qed.

Lemma linked_trans h1 h2 h3 bs : linked h1 h2 bs -> linked h2 h3 bs -> linked h1 h3 bs.
Proof.
  intros (G1 & M1 & L1) (G2 & M2 & L2). split; [now transitivity h2|].
  split; [intros x; now rewrite M2|]. intros x Hx. now rewrite L2, L1.
Qed.

Lemma linked_cons h h' q js : linked h h' js -> linked h h' (q :: js).
Proof. intros (G & M & L). split; [done|]. split; [done|]. intros x Hx. apply L. set_solver. Qed.

(** Setting the link of a new block of the list. *)
Lemma links_ok_set cm h q l js :
  q ∉ js -> links_ok cm h js -> marked cm h q = true -> marked cm h l = true -> twin h q l ->
  lnk h l = None -> l ∈ js -> links_ok cm (alter (set_link (Some l)) q h) (q :: js).
Proof.
  intros Hq Hok Hmq Hml Htw Hl Hin x l' Hx. rewrite lnk_set_link, !marked_set_link.
  assert (same_graph h (alter (set_link (Some l)) q h)) as G by (apply same_graph_alter; auto with same_code).
  assert (forall y, y ∈ js -> y <> q) as Hne by (intros y Hy ->; done). cbn [tail].
  destruct (decide (x = q)) as [->|Hxq].
  - destruct Htw as (bq & bl & Hbq & Hbl & He). rewrite Hbq. intros [= <-].
    split; [done|]. split; [done|]. split; [apply (twin_same _ _ _ _ G); now exists bq, bl|].
    rewrite lnk_set_link, decide_False by auto. done.
  - apply elem_of_cons in Hx as [|Hx]; [done|]. intros Hlx. destruct (Hok x l' Hx Hlx) as (? & ? & ? & Hl' & Hin').
    assert (l' ∈ js) by (destruct js; [done|now right]).
    split; [done|]. split; [done|]. split; [now apply (twin_same _ _ _ _ G)|].
    rewrite lnk_set_link, decide_False by auto. done.
Qed.

Lemma links_ok_skip cm h q js : q ∉ js -> links_ok cm h js -> lnk h q = None -> links_ok cm h (q :: js).
Proof.
  intros Hq Hok Hn x l [->|Hx]%elem_of_cons Hl; [congruence|].
  destruct (Hok x l Hx Hl) as (? & ? & ? & ? & Hin). repeat split; try done. destruct js; [done|now right].
Qed.

Lemma link_equal_ok o q b js1 js2 :
  (forall j, j ∈ js1 ++ js2 -> is_Some (o_heap o !! j)) -> q ∉ js1 ++ js2 -> o_heap o !! q = Some b ->
  marked (cur_mark o) (o_heap o) q = true -> lnk (o_heap o) q = None -> links_ok (cur_mark o) (o_heap o) (js1 ++ js2) ->
  exists h', link_equal o q b js2 = ODone (set_heap h' o) /\ linked (o_heap o) h' (q :: js1 ++ js2) /\
    links_ok (cur_mark o) h' (q :: js1 ++ js2).
Proof.
  revert js1. induction js2 as [|j js2 IH]; intros js1 Hex Hq Hb Hmq Hlq Hok; cbn [link_equal].
  { exists (o_heap o). split; [now destruct o|]. split; [apply linked_refl|]. now apply links_ok_skip. }
  destruct (Hex j ltac:(set_solver)) as [bj Hbj]. rewrite Hbj. cbn [oget mbind oresult_bind].
  destruct (isMarked (cur_mark o) bj && eq_blk b bj) eqn:E.
  - apply andb_true_iff in E as [Em Ee]. set (l := default j (b_link bj)).
    exists (alter (set_link (Some l)) q (o_heap o)). split; [reflexivity|]. split; [apply linked_set_link|].
    assert (marked (cur_mark o) (o_heap o) j = true) as Hmj by (unfold marked; now rewrite Hbj).
    assert (lnk (o_heap o) j = b_link bj) as Hlj by (unfold lnk; now rewrite Hbj).
    assert (twin (o_heap o) q j) as Htw by (now exists b, bj).
    destruct (b_link bj) as [l'|] eqn:El; cbn in l; subst l.
    + destruct (Hok j l' ltac:(set_solver) Hlj) as (_ & Hml & Htl & Hl & Hin).
      apply links_ok_set; try done; [now apply twin_trans with j|].
      destruct (js1 ++ j :: js2); [done|now right].
    + apply links_ok_set; try done. set_solver.
  - replace (js1 ++ j :: js2) with ((js1 ++ [j]) ++ js2) in * by now rewrite <- app_assoc.
    now apply IH.
Qed.

Lemma link_blocks_ok o bs :
  (forall q, q ∈ bs -> is_Some (o_heap o !! q) /\ lnk (o_heap o) q = None) -> NoDup bs ->
  exists h', link_blocks o bs = ODone (set_heap h' o) /\ linked (o_heap o) h' bs /\
    links_ok (cur_mark o) h' bs.
Proof.
  induction bs as [|q js IH]; intros Hex Hnd; cbn [link_blocks].
  { exists (o_heap o). split; [now destruct o|]. split; [apply linked_refl|]. intros x l Hx. now apply elem_of_nil in Hx. }
  apply NoDup_cons in Hnd as [Hq Hnd].
  destruct IH as (h1 & -> & L1 & K1); [intros x Hx; apply Hex; now right|done|]. cbn [mbind oresult_bind o_heap set_heap].
  pose proof L1 as (G1 & M1 & N1). destruct (Hex q ltac:(left)) as [[b Hb] Hlq].
  destruct (same_graph_Some _ _ _ _ G1 Hb) as (b1 & Hb1 & S1). rewrite Hb1. cbn [oget mbind oresult_bind].
  assert (lnk h1 q = None) as Hlq1 by (rewrite N1; done). cbn [cur_mark set_heap].
  destruct (isMarked (cur_mark o) b1) eqn:Em.
  - destruct (link_equal_ok (set_heap h1 o) q b1 [] js) as (h2 & E2 & L2 & K2); cbn [o_heap set_heap cur_mark app]; try done.
    + intros j Hj. destruct (Hex j ltac:(now right)) as [[bj Hbj] _].
      destruct (same_graph_Some _ _ _ _ G1 Hbj) as (? & ? & _). eauto.
    + unfold marked. now rewrite Hb1.
    + exists h2. split; [exact E2|]. split; [|exact K2].
      eapply linked_trans; [apply linked_cons; exact L1|exact L2].
  - exists h1. split; [reflexivity|]. split; [now apply linked_cons|]. now apply links_ok_skip.
Qed.

(** ** Redirecting the edges *)

Definition redirect (h : heap) (t : nat) : nat := default t (lnk h t).

Definition redir (h : heap) (b : block) : block :=
  set_succ false (redirect h <$> JF b) (set_succ true (redirect h <$> JT b) b).

(** No successor has a link. *)
Definition settled (h : heap) (b : block) : bool :=
  bool_decide (JT b ≫= lnk h = None) && bool_decide (JF b ≫= lnk h = None).

Lemma set_succ_id side b : set_succ side (succ_of side b) b = b.
Proof. destruct b as [? ? ? ? ? ? ? ? ? [] [] ? ? ? ? ? ? ? ? ? ? ?], side; reflexivity. Qed.

Lemma succ_of_redir h b side : succ_of side (redir h b) = redirect h <$> succ_of side b.
Proof. destruct side; reflexivity. Qed.

Lemma settled_redir h b : settled h b = true -> redir h b = b.
Proof.
  unfold settled. rewrite andb_true_iff, !bool_decide_eq_true. intros [Ht Hf].
  assert (forall side, redirect h <$> succ_of side b = succ_of side b) as Hs.
  { intros side. assert (succ_of side b ≫= lnk h = None) as E by (now destruct side). unfold redirect.
    destruct (succ_of side b); cbn in *; [now rewrite E|reflexivity]. }
  unfold redir. change (JF b) with (succ_of false b). change (JT b) with (succ_of true b).
  rewrite !Hs, (set_succ_id true). apply (set_succ_id false).
Qed.

Lemma relink_edge_eq side q o d b t :
  o_heap o !! q = Some b -> succ_of side b = Some t -> is_Some (o_heap o !! t) ->
  relink_edge side q (o, d) =
  ODone (upd_block (set_succ side (Some (redirect (o_heap o) t))) q o, d && bool_decide (lnk (o_heap o) t = None)).
Proof.
  intros Hb Ht [bt Hbt]. unfold relink_edge. rewrite Hb. cbn [oget mbind oresult_bind].
  rewrite Ht. cbn [deref oget mbind oresult_bind]. rewrite Hbt. cbn [oget mbind oresult_bind].
  assert (lnk (o_heap o) t = b_link bt) as El by (unfold lnk; now rewrite Hbt). unfold redirect. rewrite El.
  destruct (b_link bt); cbn [default]; [rewrite bool_decide_false by done; now rewrite andb_false_r|].
  rewrite bool_decide_true, andb_true_r by done. f_equal. f_equal.
  rewrite <- Ht. unfold upd_block, upd_heap. rewrite (alter_id _ _ q); [now destruct o|].
  intros b' Hb'. rewrite Hb in Hb'. injection Hb' as <-. apply set_succ_id.
Qed.

Lemma lnk_set_succ h q side v x : lnk (alter (set_succ side v) q h) x = lnk h x.
Proof.
  unfold lnk. destruct (decide (x = q)) as [->|Hne]; [|now rewrite lookup_alter_ne].
  rewrite lookup_alter_eq. destruct (h !! q); [|done]. now destruct side.
Qed.

Lemma relink_block_eq C o d q b :
  closed (o_heap o) C -> q ∈ C -> o_heap o !! q = Some b ->
  relink_block (o, d) q = ODone (upd_block (redir (o_heap o)) q o, d && settled (o_heap o) b).
Proof.
  intros Hcl Hq Hb. unfold relink_block. cbn [fst]. rewrite Hb. cbn [oget mbind oresult_bind].
  destruct (Hcl q Hq) as (b' & Hb' & Hc). rewrite Hb in Hb'. injection Hb' as <-.
  destruct Hc as [[Ht Hf]|(t & f & Ht & Hf & HtC & HfC)].
  - rewrite Ht. unfold settled. rewrite Ht, Hf. cbn. rewrite andb_true_r. f_equal. f_equal.
    unfold upd_block, upd_heap. rewrite (alter_id _ _ q); [now destruct o|].
    intros b' Hb'. rewrite Hb in Hb'. injection Hb' as <-. apply settled_redir.
    unfold settled. now rewrite Ht, Hf.
  - rewrite Ht. destruct (Hcl t HtC) as (bt & Hbt & _), (Hcl f HfC) as (bf & Hbf & _).
    rewrite (relink_edge_eq true q o d b t Hb Ht) by eauto. cbn [mbind oresult_bind].
    set (o1 := upd_block _ q o).
    assert (o_heap o1 !! q = Some (set_succ true (Some (redirect (o_heap o) t)) b)) as Hb1.
    { unfold o1. cbn. now rewrite lookup_alter_eq, Hb. }
    assert (is_Some (o_heap o1 !! f)) as Hsf.
    { unfold o1. cbn. rewrite lookup_alter_is_Some. eauto. }
    rewrite (relink_edge_eq false q o1 _ _ f Hb1 Hf Hsf). unfold o1. cbn [o_heap upd_block upd_heap set_heap].
    unfold redirect. rewrite !lnk_set_succ. unfold settled. rewrite Ht, Hf. cbn [mbind option_bind].
    rewrite andb_assoc. f_equal. f_equal. unfold upd_block, upd_heap, set_heap. cbn. f_equal.
    rewrite alter_alter_eq. apply alter_ext. intros b' Hb'. rewrite Hb in Hb'. injection Hb' as <-.
    unfold redir, compose. rewrite Ht, Hf. reflexivity.
Qed.

(** The heap after the blocks of [bs] have been redirected. *)
Definition redirected (h1 h2 : heap) (bs : list nat) : Prop :=
  forall x, h2 !! x = (if decide (x ∈ bs) then redir h1 else id) <$> h1 !! x.

Lemma redirected_lnk h1 h2 bs x : redirected h1 h2 bs -> lnk h2 x = lnk h1 x.
Proof.
  intros H. unfold lnk. rewrite H. destruct (h1 !! x); [|done]. cbn. now case_decide.
Qed.

Lemma settled_ext h h' b : (forall x, lnk h' x = lnk h x) -> settled h' b = settled h b.
Proof.
  intros H. unfold settled. destruct (JT b), (JF b); cbn [mbind option_bind]; now rewrite ?H.
Qed.

Lemma redir_ext h h' b : (forall x, lnk h' x = lnk h x) -> redir h' b = redir h b.
Proof.
  intros H. unfold redir, redirect. destruct (JT b), (JF b); cbn; now rewrite ?H.
Qed.

(** A link stays in the set. *)
Definition links_in (h : heap) (C : gset nat) : Prop := forall x l, lnk h x = Some l -> x ∈ C -> l ∈ C.

Lemma redirect_in h C t : links_in h C -> t ∈ C -> redirect h t ∈ C.
Proof. intros Hl Ht. unfold redirect. destruct (lnk h t) eqn:E; cbn; eauto. Qed.

Lemma closed_redir h C b : links_in h C -> closed_block C b -> closed_block C (redir h b).
Proof.
  intros Hl Hc. unfold closed_block. change (JT (redir h b)) with (succ_of true (redir h b)).
  change (JF (redir h b)) with (succ_of false (redir h b)). rewrite !succ_of_redir. cbn [succ_of].
  destruct Hc as [[-> ->]|(t & f & -> & -> & ? & ?)]; [now left|].
  right. exists (redirect h t), (redirect h f). repeat split; try done; now apply redirect_in.
Qed.

Lemma closed_redirected h1 h2 bs C : links_in h1 C -> closed h1 C -> redirected h1 h2 bs -> closed h2 C.
Proof.
  intros Hl Hcl H q Hq. destruct (Hcl q Hq) as (b & Hb & Hc). rewrite H, Hb. cbn. eexists. split; [reflexivity|].
  case_decide; [now apply closed_redir|done].
Qed.

Definition all_settled (h : heap) (bs : list nat) : bool :=
  forallb (fun q => match h !! q with Some b => settled h b | None => true end) bs.

Lemma relink_ok C o bs1 bs2 h2 d :
  closed (o_heap o) C -> links_in (o_heap o) C -> (forall q, q ∈ bs1 ++ bs2 -> q ∈ C) -> NoDup (bs1 ++ bs2) ->
  redirected (o_heap o) h2 bs1 ->
  exists h3, ofold relink_block (set_heap h2 o, d) bs2 = ODone (set_heap h3 o, d && all_settled (o_heap o) bs2) /\
    redirected (o_heap o) h3 (bs1 ++ bs2).
Proof.
  intros Hcl Hl. revert bs1 h2 d. induction bs2 as [|q bs2 IH]; intros bs1 h2 d HC Hnd Hr; cbn [ofold].
  { exists h2. rewrite app_nil_r. cbn. now rewrite andb_true_r. }
  destruct (Hcl q (HC q ltac:(set_solver))) as (b & Hb & Hc).
  assert (q ∉ bs1) as Hq1 by (apply NoDup_app in Hnd as (_ & Hd & _); intros Hin; apply (Hd q Hin); left).
  assert (h2 !! q = Some b) as Hb2 by (rewrite Hr, Hb, decide_False by done; done).
  pose proof (closed_redirected _ _ _ _ Hl Hcl Hr) as Hcl2.
  rewrite (relink_block_eq C (set_heap h2 o) d q b Hcl2 (HC q ltac:(set_solver)) Hb2).
  cbn [mbind oresult_bind o_heap set_heap].
  pose proof (fun x => redirected_lnk _ _ _ x Hr) as El. rewrite (settled_ext _ _ _ El).
  change (upd_block (redir h2) q (set_heap h2 o)) with (set_heap (alter (redir h2) q h2) o).
  destruct (IH (bs1 ++ [q]) (alter (redir h2) q h2) (d && settled (o_heap o) b)) as (h3 & -> & Hr3).
  - intros x. rewrite <- app_assoc. apply HC.
  - now rewrite <- app_assoc.
  - intros x. destruct (decide (x = q)) as [->|Hne].
    + rewrite lookup_alter_eq, Hb2, Hb, decide_True by set_solver. cbn [fmap option_fmap option_map]. now rewrite (redir_ext _ _ b El).
    + rewrite lookup_alter_ne, Hr by done. f_equal. apply decide_ext.
      rewrite elem_of_app, list_elem_of_singleton. tauto.
  - exists h3. split; [|now rewrite <- app_assoc in Hr3]. f_equal. f_equal. cbn [all_settled forallb].
    rewrite Hb, andb_assoc. reflexivity.
Qed.

(** ** A round *)

Section Rounds.
Context (root : nat) (rest : list nat) (rank : nat -> nat).

Let C : gset nat := list_to_set (root :: rest).

(** What a round relies on and keeps: [blocks] starts with the root, to which no edge
    leads, and no block has the mark the round will use. *)
Record internable (o : opt) : Prop := {
  in_blocks : blocks o = root :: rest;
  in_closed : closed (o_heap o) C;
  in_rets : rets (o_heap o) C;
  in_height : is_height (o_heap o) C rank;
  in_entry : forall q b side, q ∈ C -> o_heap o !! q = Some b -> succ_of side b <> Some root;
  in_marks : forall q b, o_heap o !! q = Some b -> b_mark b <= cur_mark o
}.

Context (Hnd : NoDup (root :: rest)).

Lemma root_in_C : root ∈ C.
Proof. unfold C. set_solver. Qed.

Lemma rest_in_C q : q ∈ rest -> q ∈ C.
Proof. unfold C. set_solver. Qed.

(** The marks and links when the edges are about to be redirected. *)
Record round_state (M : gset nat) (o o3 : opt) : Prop := {
  rs_blocks : blocks o3 = root :: rest;
  rs_same : same_graph (o_heap o) (o_heap o3);
  rs_cm : cur_mark o3 = cur_mark o + 1;
  rs_marks : forall q b, o_heap o3 !! q = Some b -> b_mark b <= cur_mark o3;
  rs_links : links_ok (cur_mark o3) (o_heap o3) (root :: rest);
  rs_M : forall x, marked (cur_mark o3) (o_heap o3) x = true -> x ∈ M;
  rs_root : marked (cur_mark o3) (o_heap o3) root = true;
  rs_succ : forall x b side t, marked (cur_mark o3) (o_heap o3) x = true -> o_heap o3 !! x = Some b ->
    succ_of side b = Some t -> marked (cur_mark o3) (o_heap o3) t = true
}.

(** The first half of a round. *)
Definition prepare (o : opt) : oresult opt :=
  let o := upd_all (set_link None) o in
  o ← mark_code o root; link_blocks o (blocks o).

Lemma upd_all_fields f o : blocks (upd_all f o) = blocks o /\ cur_mark (upd_all f o) = cur_mark o.
Proof. now rewrite upd_all_eq. Qed.

Lemma upd_all_marks f o cm :
  (forall b, b_mark (f b) = b_mark b) -> (forall q b, o_heap o !! q = Some b -> b_mark b <= cm) ->
  forall q b, o_heap (upd_all f o) !! q = Some b -> b_mark b <= cm.
Proof.
  intros Hf. rewrite upd_all_eq. cbn. generalize (o_heap o) as h.
  induction (blocks o) as [|x l IH]; intros h Hh; cbn [fold_left]; [done|]. apply IH. intros q b.
  rewrite lookup_alter_Some. intros [(-> & b' & Hb' & ->)|[_ Hb]]; [rewrite Hf|]; eauto.
Qed.

(** No block has the mark that is about to be used, and no block has a link. *)
Lemma cleared_ok o :
  internable o ->
  let o1 := set_cur_mark (cur_mark o + 1) (upd_all (set_link None) o) in
  same_graph (o_heap o) (o_heap o1) /\ blocks o1 = root :: rest /\
  (forall q b, o_heap o1 !! q = Some b -> b_mark b < cur_mark o1) /\
  (forall x, marked (cur_mark o1) (o_heap o1) x = false) /\ (forall x, x ∈ C -> lnk (o_heap o1) x = None).
Proof.
  intros [Hbl _ _ _ _ Hmk] o1. pose proof (upd_all_marks (set_link None) o _ ltac:(done) Hmk) as Hmk1.
  assert (forall q b, o_heap o1 !! q = Some b -> b_mark b < cur_mark o1) as Hlt.
  { intros q b Hb. specialize (Hmk1 q b Hb). cbn. lia. }
  split; [apply upd_all_same; auto with same_code|].
  split; [cbn; now rewrite (proj1 (upd_all_fields _ _))|]. split; [done|]. split.
  - intros x. unfold marked. destruct (o_heap o1 !! x) as [b|] eqn:Hb; [|done].
    apply Z.eqb_neq. specialize (Hlt x b Hb). lia.
  - intros x Hx. unfold lnk. destruct (o_heap o1 !! x) as [b|] eqn:Hb; [|done].
    apply (upd_all_Forall (set_link None) (fun b => b_link b = None) o x b); [done| |done].
    rewrite Hbl. unfold C in Hx. now rewrite elem_of_list_to_set in Hx.
Qed.

Lemma mark_code_ok o M :
  closed (o_heap o) M -> rets (o_heap o) M -> root ∈ M ->
  exists h', make_marks (graph_fuel o) o root = ODone (set_heap h' o) /\ marks (cur_mark o) M (o_heap o) h' /\
    marked (cur_mark o) h' root = true.
Proof.
  intros Hcl Hr HM. apply make_marks_ok; [done..|]. now apply unmarked_fuel.
Qed.

Lemma remarked_lnk cm h h' x : remarked cm h h' -> lnk h' x = lnk h x.
Proof. intros R. unfold lnk. destruct (R x) as [b b' (_ & Hl & _)|]; cbn; congruence. Qed.

Lemma remarked_le cm h h' :
  remarked cm h h' -> (forall q b, h !! q = Some b -> b_mark b < cm) ->
  forall q b, h' !! q = Some b -> b_mark b <= cm.
Proof.
  intros R H q b' Hb'. specialize (R q). rewrite Hb' in R. inversion R as [b ? (_ & _ & Hm) Hb|]; subst.
  specialize (H q b (eq_sym Hb)). lia.
Qed.

Lemma same_marks_le h h' cm :
  same_marks h h' -> (forall q b, h !! q = Some b -> b_mark b <= cm) ->
  forall q b, h' !! q = Some b -> b_mark b <= cm.
Proof.
  intros S H q b' Hb'. specialize (S q). rewrite Hb' in S. destruct (h !! q) as [b|] eqn:Hb; [|discriminate].
  injection S as ->. eauto.
Qed.

Lemma prepare_ok o M :
  internable o -> root ∈ M -> M ⊆ C -> closed (o_heap o) M ->
  exists o3, prepare o = ODone o3 /\ round_state M o o3.
Proof.
  intros Hi HrM HMC HclM. destruct (cleared_ok o Hi) as (G1 & Hbl1 & Hlt & Hnone & Hlk1).
  pose proof Hi as [_ Hcl Hrets _ _ _].
  unfold prepare, mark_code. rewrite (proj2 (upd_all_fields (set_link None) o)).
  set (o1 := set_cur_mark (cur_mark o + 1) (upd_all (set_link None) o)) in *.
  pose proof (closed_same _ _ _ G1 HclM) as HclM1.
  destruct (mark_code_ok o1 M HclM1) as (h2 & -> & (R2 & _ & N2) & Hr2); [|done|].
  { apply (rets_same _ _ _ G1). intros q b Hq. apply Hrets. now apply HMC. }
  cbn [mbind oresult_bind blocks set_heap]. rewrite Hbl1. pose proof (remarked_same _ _ _ R2) as G2.
  destruct (link_blocks_ok (set_heap h2 o1) (root :: rest)) as (h3 & E3 & (G3 & M3 & _) & K3); [|done|].
  { intros q Hq. assert (q ∈ C) as HqC by (unfold C; now rewrite elem_of_list_to_set). cbn.
    split; [|rewrite (remarked_lnk _ _ _ q R2); auto].
    destruct (closed_same _ _ _ (transitivity G1 G2) Hcl q HqC) as (b & Hb & _). eauto. }
  exists (set_heap h3 (set_heap h2 o1)). split; [exact E3|].
  pose proof (fun x => same_marks_marked (cur_mark o1) _ _ x M3) as M3'. cbn [o_heap set_heap] in M3'.
  assert (forall x, marked (cur_mark o1) h3 x = true -> x ∈ M /\ forall b side t,
            o_heap o1 !! x = Some b -> succ_of side b = Some t -> marked (cur_mark o1) h2 t = true) as Hin.
  { intros x. rewrite M3'. intros [Hx|Hx]%N2; [rewrite Hnone in Hx; discriminate|done]. }
  split; cbn [blocks cur_mark set_heap o_heap]; try done.
  - transitivity (o_heap o1); [done|]. now transitivity h2.
  - exact (same_marks_le _ _ _ M3 (remarked_le _ _ _ R2 Hlt)).
  - intros x Hx. now apply Hin.
  - now rewrite M3'.
  - intros x b side t Hx Hb Ht. rewrite M3'. destruct (Hin x Hx) as [_ Hs].
    assert (same_graph (o_heap o1) h3) as G by (now transitivity h2).
    destruct (same_graph_Some _ _ _ _ (symmetry G) Hb) as (b1 & Hb1 & S1).
    apply (Hs b1 side t Hb1). now rewrite (same_code_succ _ _ _ S1).
Qed.

Lemma intern_blocks_S fuel o :
  intern_blocks (S fuel) o root =
  (o3 ← prepare o; '(o4, d) ← ofold relink_block (o3, true) (blocks o3);
   if (d : bool) then ODone o4 else intern_blocks fuel o4 root).
Proof. cbn [intern_blocks]. unfold prepare. now destruct (mark_code _ _). Qed.

(** *** Redirecting keeps the meaning and the invariant *)

Section Redirected.
Context (o o3 : opt) (M : gset nat) (h4 : heap).
Context (Hi : internable o) (Hs : round_state M o o3) (Hr : redirected (o_heap o3) h4 (root :: rest)).

Lemma rs_closed : closed (o_heap o3) C.
Proof. exact (closed_same _ _ _ (rs_same _ _ _ Hs) (in_closed _ Hi)). Qed.

Lemma links_rest x l : x ∈ C -> lnk (o_heap o3) x = Some l -> l ∈ rest.
Proof.
  unfold C. rewrite elem_of_list_to_set. intros Hx Hl.
  destruct (rs_links _ _ _ Hs x l Hx Hl) as (_ & _ & _ & _ & Hin). exact Hin.
Qed.

Lemma links_stay : links_in (o_heap o3) C.
Proof. intros x l Hl Hx. apply rest_in_C. now apply (links_rest x). Qed.

Lemma redirected_at q b : q ∈ C -> o_heap o3 !! q = Some b -> h4 !! q = Some (redir (o_heap o3) b).
Proof.
  intros Hq Hb. rewrite Hr, Hb, decide_True; [done|]. unfold C in Hq. now rewrite elem_of_list_to_set in Hq.
Qed.

Lemma twin_redirect t : t ∈ C -> redirect (o_heap o3) t = t \/ twin (o_heap o3) t (redirect (o_heap o3) t).
Proof.
  intros Ht. unfold redirect. destruct (lnk (o_heap o3) t) as [l|] eqn:El; [right|now left].
  unfold C in Ht. rewrite elem_of_list_to_set in Ht. cbn. now destruct (rs_links _ _ _ Hs t l Ht El) as (_ & _ & ? & _).
Qed.

Lemma redirected_run p wirelen buflen fuel q r :
  q ∈ C -> graph_run p wirelen buflen fuel h4 q r = graph_run p wirelen buflen fuel (o_heap o3) q r.
Proof.
  revert q r. induction fuel as [|fuel IH]; intros q r Hq; [reflexivity|].
  destruct (rs_closed q Hq) as (b & Hb & Hc). cbn [graph_run]. rewrite (redirected_at q b Hq Hb), Hb.
  change (exec_block p wirelen buflen (redir (o_heap o3) b) r) with (exec_block p wirelen buflen b r).
  destruct (exec_block p wirelen buflen b r) as [side r'|]; [|reflexivity]. rewrite succ_of_redir.
  destruct (succ_of side b) as [t|] eqn:Ht; [|reflexivity]. cbn [fmap option_fmap option_map].
  pose proof (closed_succ C b side t Hc Ht) as HtC.
  rewrite IH by exact (redirect_in _ _ _ links_stay HtC).
  destruct (twin_redirect t HtC) as [->|(bx & bl & Hx & Hl & He)]; [reflexivity|].
  symmetry. now apply (eq_blk_run _ _ _ _ _ _ _ bx bl).
Qed.

Lemma redirect_height t : t ∈ C -> rank (redirect (o_heap o3) t) = rank t.
Proof.
  intros Ht. pose proof (is_height_same _ _ _ _ (rs_same _ _ _ Hs) (in_height _ Hi)) as Hh.
  destruct (twin_redirect t Ht) as [->|(bx & bl & Hx & Hl & He)]; [reflexivity|].
  apply eq_blk_spec in He as (_ & E1 & E2 & _).
  rewrite (Hh t bx Ht Hx), (Hh _ bl (redirect_in _ _ _ links_stay Ht) Hl). unfold height_of. now rewrite E1, E2.
Qed.

Lemma redirected_inv : internable (set_heap h4 o3).
Proof.
  pose proof (rs_same _ _ _ Hs) as G. pose proof rs_closed as Hcl.
  assert (forall q b, q ∈ C -> h4 !! q = Some b -> exists b0, o_heap o3 !! q = Some b0 /\ b = redir (o_heap o3) b0) as Hinv.
  { intros q b Hq Hb. destruct (Hcl q Hq) as (b0 & Hb0 & _). exists b0. split; [done|].
    rewrite (redirected_at q b0 Hq Hb0) in Hb. now injection Hb. }
  split; cbn [o_heap set_heap].
  - exact (rs_blocks _ _ _ Hs).
  - exact (closed_redirected _ _ _ _ links_stay Hcl Hr).
  - intros q b Hq Hb. destruct (Hinv q b Hq Hb) as (b0 & Hb0 & ->).
    rewrite (rets_same _ _ _ G (in_rets _ Hi) q b0 Hq Hb0). change (JT (redir _ b0)) with (succ_of true (redir (o_heap o3) b0)).
    rewrite succ_of_redir. cbn [succ_of]. now destruct (JT b0).
  - intros q b Hq Hb. destruct (Hinv q b Hq Hb) as (b0 & Hb0 & ->).
    destruct (Hcl q Hq) as (b1 & Hb1 & Hc). simplify_eq.
    rewrite (is_height_same _ _ _ _ G (in_height _ Hi) q b0 Hq Hb0). unfold height_of.
    change (JT (redir _ b0)) with (redirect (o_heap o3) <$> JT b0). change (JF (redir _ b0)) with (redirect (o_heap o3) <$> JF b0).
    destruct Hc as [[-> ->]|(t & f & -> & -> & Ht & Hf)]; cbn; [done|]. now rewrite !redirect_height.
  - intros q b side Hq Hb. destruct (Hinv q b Hq Hb) as (b0 & Hb0 & ->). rewrite succ_of_redir.
    destruct (succ_of side b0) as [t|] eqn:Ht; [cbn; intros [= E]|done].
    destruct (Hcl q Hq) as (b1 & Hb1 & Hc). simplify_eq. pose proof (closed_succ C _ side t Hc Ht) as HtC.
    unfold redirect in E. destruct (lnk (o_heap o3) t) as [l|] eqn:El; cbn in E; subst.
    + apply NoDup_cons in Hnd as [Hn _]. apply Hn. exact (links_rest t root HtC El).
    + destruct (same_graph_Some _ _ _ _ (symmetry G) Hb0) as (b' & Hb' & S').
      apply (in_entry _ Hi q b' side Hq Hb'). now rewrite (same_code_succ _ _ _ S').
  - intros q b Hb. rewrite Hr in Hb. destruct (o_heap o3 !! q) as [b0|] eqn:Hb0; [|discriminate].
    injection Hb as <-. cbn [cur_mark]. change (cur_mark (set_heap h4 o3)) with (cur_mark o3).
    pose proof (rs_marks _ _ _ Hs q b0 Hb0). now case_decide.
Qed.

(** A block that was merged into another is reached no more. *)
Lemma redirected_smaller x b side t l :
  x ∈ C -> o_heap o3 !! x = Some b -> succ_of side b = Some t -> lnk (o_heap o3) t = Some l ->
  M ⊆ C -> exists M', root ∈ M' /\ M' ⊆ C /\ closed h4 M' /\ (size M' < size M)%nat.
Proof.
  intros Hx Hb Ht Hl HMC. set (cm := cur_mark o3).
  destruct (rs_closed x Hx) as (b' & Hb' & Hc). simplify_eq. set (h3 := o_heap o3) in *. pose proof (closed_succ C _ side t Hc Ht) as HtC.
  assert (forall y l', y ∈ C -> lnk h3 y = Some l' -> marked cm h3 y = true /\ marked cm h3 l' = true /\ lnk h3 l' = None) as Hlk.
  { intros y l' Hy Hly. unfold C in Hy. rewrite elem_of_list_to_set in Hy.
    destruct (rs_links _ _ _ Hs y l' Hy Hly) as (? & ? & _ & ? & _). done. }
  exists (filter (fun y => marked cm h3 y = true /\ y <> t) M).
  assert (t ∈ M) as HtM by (apply (rs_M _ _ _ Hs); now apply (Hlk t l)).
  split; [|split; [|split]].
  - rewrite elem_of_filter. split; [split; [apply (rs_root _ _ _ Hs)|]|apply (rs_M _ _ _ Hs), (rs_root _ _ _ Hs)].
    intros E. destruct (same_graph_Some _ _ _ _ (symmetry (rs_same _ _ _ Hs)) Hb) as (b0 & Hb0 & S0).
    apply (in_entry _ Hi x b0 side Hx Hb0). rewrite (same_code_succ _ _ _ S0). congruence.
  - intros y. rewrite elem_of_filter. intros [_ Hy]. now apply HMC.
  - intros y. rewrite elem_of_filter. intros [[Hm _] Hy]. pose proof (HMC y Hy) as HyC.
    destruct (rs_closed y HyC) as (by' & Hby & Hcy). exists (redir h3 by'). split; [now apply redirected_at|].
    assert (forall side u, succ_of side by' = Some u -> redirect h3 u ∈ filter (fun y => marked cm h3 y = true /\ y <> t) M) as Hin.
    { intros side' u Hu. pose proof (closed_succ C by' side' u Hcy Hu) as HuC.
      pose proof (rs_succ _ _ _ Hs y by' side' u Hm Hby Hu) as Hmu. unfold redirect.
      destruct (lnk h3 u) as [l'|] eqn:El; cbn; rewrite elem_of_filter.
      - destruct (Hlk u l' HuC El) as (_ & Hml & Hn). split; [split; [done|congruence]|]. now apply (rs_M _ _ _ Hs).
      - split; [split; [done|congruence]|]. now apply (rs_M _ _ _ Hs). }
    destruct Hcy as [[E1 E2]|(u & f & E1 & E2 & _ & _)].
    + left. unfold redir. now rewrite E1, E2.
    + right. exists (redirect h3 u), (redirect h3 f). unfold redir. rewrite E1, E2.
      repeat split; [now apply (Hin true)|now apply (Hin false)].
  - apply subset_size. split; [intros y; rewrite elem_of_filter; tauto|]. intros Hsub. apply Hsub in HtM.
    rewrite elem_of_filter in HtM. tauto.
Qed.
End Redirected.

Lemma not_settled h bs :
  all_settled h bs = false ->
  exists q b side t l, q ∈ bs /\ h !! q = Some b /\ succ_of side b = Some t /\ lnk h t = Some l.
Proof.
  induction bs as [|q bs IH]; cbn [all_settled forallb]; [done|]. rewrite andb_false_iff. intros [Hq|Hr].
  - destruct (h !! q) as [b|] eqn:Hb; [|discriminate]. unfold settled in Hq.
    rewrite andb_false_iff, !bool_decide_eq_false in Hq.
    destruct Hq as [Hq|Hq]; [exists q, b, true|exists q, b, false]; cbn [succ_of];
      [destruct (JT b) as [t|]|destruct (JF b) as [t|]]; cbn in Hq; try done;
      destruct (lnk h t) as [l|] eqn:El; [|done|..|done]; exists t, l; (split; [left|done]).
  - destruct (IH Hr) as (x & b & side & t & l & Hx & ?). exists x, b, side, t, l. split; [now right|done].
Qed.

Lemma intern_blocks_rounds fuel o M :
  internable o -> root ∈ M -> M ⊆ C -> closed (o_heap o) M -> (size M <= fuel)%nat ->
  exists o', intern_blocks fuel o root = ODone o' /\ internable o' /\
    forall p wirelen buflen n q r, q ∈ C ->
      graph_run p wirelen buflen n (o_heap o') q r = graph_run p wirelen buflen n (o_heap o) q r.
Proof.
  revert o M. induction fuel as [|fuel IH]; intros o M Hi HrM HMC HclM Hf.
  { assert (M = ∅) as -> by (apply leibniz_equiv, size_empty_iff; lia). now apply elem_of_empty in HrM. }
  destruct (prepare_ok o M Hi HrM HMC HclM) as (o3 & E3 & Hs).
  rewrite intern_blocks_S, E3. cbn [mbind oresult_bind]. rewrite (rs_blocks _ _ _ Hs).
  destruct (relink_ok C o3 [] (root :: rest) (o_heap o3) true) as (h4 & E4 & Hr).
  { now apply (rs_closed o o3 M). } { now apply (links_stay o o3 M). }
  { intros q Hq. unfold C. now rewrite elem_of_list_to_set. } { done. }
  { intros x. rewrite decide_False by apply not_elem_of_nil. now destruct (o_heap o3 !! x). }
  cbn [app] in Hr. assert (set_heap (o_heap o3) o3 = o3) as Hid by now destruct o3. rewrite Hid in E4.
  rewrite E4. cbn [mbind oresult_bind andb]. pose proof (redirected_inv o o3 M h4 Hi Hs Hr) as Hi4.
  assert (forall p wirelen buflen n q r, q ∈ C ->
    graph_run p wirelen buflen n h4 q r = graph_run p wirelen buflen n (o_heap o) q r) as Hrun.
  { intros p wirelen buflen n q r Hq. rewrite (redirected_run o o3 M h4 Hi Hs Hr) by done.
    apply same_graph_run, (rs_same _ _ _ Hs). }
  destruct (all_settled (o_heap o3) (root :: rest)) eqn:Ea; [eauto|].
  destruct (not_settled _ _ Ea) as (x & b & side & t & l & Hx & Hb & Ht & Hl).
  destruct (redirected_smaller o o3 M h4 Hi Hs Hr x b side t l) as (M' & HrM' & HMC' & Hcl' & Hlt); try done.
  { unfold C. now rewrite elem_of_list_to_set. }
  destruct (IH (set_heap h4 o3) M' Hi4 HrM' HMC' Hcl' ltac:(lia)) as (o' & -> & Hi' & Hrun').
  exists o'. split; [done|]. split; [done|]. intros p wirelen buflen n q r Hq. rewrite Hrun' by done. now apply Hrun.
Qed.
End Rounds.

(** C24: merging equal blocks ends and keeps the meaning of the graph. When [blocks] lists a
    closed graph without cycles from a root no edge leads to, whose leaves are the returns,
    [intern_blocks] ends within as many rounds as there are blocks, the graph is still closed
    and without cycles, and on every packet it runs from each block as it did before. *)
Theorem intern_blocks_correct (o : opt) (root : nat) (rest : list nat) (rank : nat -> nat) :
  blocks o = root :: rest -> NoDup (root :: rest) -> dag (o_heap o) (list_to_set (root :: rest)) rank ->
  rets (o_heap o) (list_to_set (root :: rest)) ->
  (forall q b side, q ∈ root :: rest -> o_heap o !! q = Some b -> succ_of side b <> Some root) ->
  (forall q b, o_heap o !! q = Some b -> b_mark b <= OptState.cur_mark o) ->
  exists o', intern_blocks (S (length (blocks o))) o root = ODone o' /\
    (exists rank', dag (o_heap o') (list_to_set (root :: rest)) rank') /\
    forall p wirelen buflen fuel q r, q ∈ root :: rest ->
      graph_run p wirelen buflen fuel (o_heap o') q r = graph_run p wirelen buflen fuel (o_heap o) q r.
Proof.
  intros Hbl Hnd Hd Hr He Hm. destruct (dag_height _ _ _ Hd) as (rk & Hh).
  destruct (intern_blocks_rounds root rest rk Hnd (S (length (blocks o))) o (list_to_set (root :: rest)))
    as (o' & -> & Hi' & Hrun).
  - split; try done; [exact (dag_closed _ _ _ Hd)|]. intros q b side Hq.
    rewrite elem_of_list_to_set in Hq. now apply He.
  - rewrite elem_of_list_to_set. left.
  - done.
  - exact (dag_closed _ _ _ Hd).
  - rewrite size_list_to_set by done. rewrite Hbl. cbn. lia.
  - exists o'. split; [done|]. split; [exists rk; apply height_dag; apply Hi'|].
    intros p wirelen buflen fuel q r Hq. apply Hrun. now rewrite elem_of_list_to_set.
Qed.

(** [rets] and the rest of the premises as tests, for concrete graphs. *)
Definition rets_check (h : heap) (bs : list nat) : bool :=
  forallb (fun q => match h !! q with
    | Some b => Bool.eqb (BPF_CLASS (s_code (b_s b)) =? BPF_RET) (bool_decide (JT b = None))
    | None => true end) bs.

Definition entry_check (h : heap) (root : nat) (bs : list nat) : bool :=
  forallb (fun q => match h !! q with
    | Some b => negb (bool_decide (JT b = Some root)) && negb (bool_decide (JF b = Some root))
    | None => true end) bs.

Lemma rets_check_ok h bs : rets_check h bs = true -> rets h (list_to_set bs).
Proof.
  intros Hc q b Hq Hb. rewrite elem_of_list_to_set in Hq. unfold rets_check in Hc. rewrite forallb_forall in Hc.
  specialize (Hc q (proj1 (list_elem_of_In _ _) Hq)). rewrite Hb in Hc. apply eqb_prop in Hc.
  rewrite <- Z.eqb_eq, Hc. apply bool_decide_eq_true.
Qed.

Lemma entry_check_ok h root bs :
  entry_check h root bs = true -> forall q b side, q ∈ bs -> h !! q = Some b -> succ_of side b <> Some root.
Proof.
  intros Hc q b side Hq Hb. unfold entry_check in Hc. rewrite forallb_forall in Hc.
  specialize (Hc q (proj1 (list_elem_of_In _ _) Hq)). rewrite Hb, andb_true_iff, !negb_true_iff, !bool_decide_eq_false in Hc.
  destruct Hc, side; done.
Qed.

Lemma intern_blocks_correct_witness :
  exists o', intern_blocks (S (length (blocks sample_opt))) sample_opt sample_root = ODone o' /\
    (exists rank', dag (o_heap o') (list_to_set (sample_root :: tail (blocks sample_opt))) rank') /\
    forall p wirelen buflen fuel q r, q ∈ sample_root :: tail (blocks sample_opt) ->
      graph_run p wirelen buflen fuel (o_heap o') q r = graph_run p wirelen buflen fuel (o_heap sample_opt) q r.
Proof.
  apply (intern_blocks_correct sample_opt sample_root (tail (blocks sample_opt)) sample_rank).
  - vm_compute. reflexivity.
  - apply (bool_decide_unpack _). vm_compute. exact I.
  - exact sample_dag.
  - apply rets_check_ok. vm_compute. reflexivity.
  - apply entry_check_ok. vm_compute. reflexivity.
  - exact sample_marks.
Defined.
