(* ===== verification/OptLevels.v ===== *)
(** * The levels of the graph (optimize.c)

    [find_levels] gives every block reachable from the root the length of its longest path,
    and lists the blocks of each level. Walking the lists up, every block comes after its
    successors; walking them down, after its predecessors. The other passes rest on this. *)
From stdpp Require Import base numbers list gmap.
From Stdlib Require Import Sorted.
From S2P Require Import Prelude BpfInsn BpfFilter Icode Layout LayoutProofs.
From S2P Require Import OptState OptFlow OptLoop OptGraph.
Open Scope Z_scope.

(** ** Heights are below the number of blocks *)

Lemma height_below h C rank q i :
  closed h C -> is_height h C rank -> q ∈ C -> (i <= rank q)%nat -> exists x, x ∈ C /\ rank x = i.
Proof.
  intros Hc Hh. remember (rank q) as n eqn:Hn. revert q Hn.
  induction n as [|n IH]; intros q Hn Hq Hi; [exists q; split; [done|lia]|].
  destruct (decide (i = S n)) as [->|Hne]; [eauto|].
  destruct (Hc q Hq) as (b & Hb & Hcb). rewrite (Hh q b Hq Hb) in Hn. unfold height_of in Hn.
  destruct Hcb as [[Ht Hf]|(t & f & Ht & Hf & HtC & HfC)]; rewrite Ht, ?Hf in Hn; [lia|].
  destruct (Nat.max_spec (rank t) (rank f)) as [[_ E]|[_ E]]; rewrite E in Hn;
    [apply (IH f)|apply (IH t)]; done || lia.
Qed.

Lemma height_bound h C rank q : closed h C -> is_height h C rank -> q ∈ C -> (rank q < size C)%nat.
Proof.
  intros Hc Hh Hq. assert (seq 0 (S (rank q)) ⊆+ (rank <$> elements C)) as Hsub.
  { apply NoDup_submseteq; [apply NoDup_seq|]. intros i Hi. rewrite elem_of_seq in Hi.
    destruct (height_below h C rank q i Hc Hh Hq ltac:(lia)) as (x & Hx & <-).
    apply list_elem_of_fmap. exists x. split; [done|]. now apply elem_of_elements. }
  apply submseteq_length in Hsub. rewrite length_seq, length_fmap in Hsub. unfold size, set_size in *. cbn in *. lia.
Qed.

(** ** What [find_levels] changes *)

(** Everything but the mark, the level and the link. *)
Definition unlevel (b : block) : block := set_level 0 (set_link None (set_blk_mark 0 b)).
Definition relevelled (h h' : heap) : Prop := forall q, unlevel <$> h' !! q = unlevel <$> h !! q.

#[export] Instance relevelled_equiv : Equivalence relevelled.
Proof. split; unfold relevelled; [easy|intros ? ? H q; now rewrite H|intros ? ? ? H1 H2 q; now rewrite H2, H1]. Qed.

Lemma relevelled_alter f q h : (forall b, unlevel (f b) = unlevel b) -> relevelled h (alter f q h).
Proof.
  intros Hf a. destruct (decide (a = q)) as [->|Hne].
  - rewrite lookup_alter_eq. destruct (h !! q); cbn; [now rewrite Hf|done].
  - now rewrite lookup_alter_ne.
Qed.

Lemma unlevel_same_code b b' : unlevel b' = unlevel b -> same_code b b'.
Proof. destruct b, b'. unfold unlevel, same_code. cbn. intros [=]. subst. now repeat split. Qed.

Lemma relevelled_same h h' : relevelled h h' -> same_graph h h'.
Proof.
  intros H q. specialize (H q). destruct (h' !! q), (h !! q); cbn in H; try discriminate; constructor.
  apply unlevel_same_code. congruence.
Qed.

(** ** Lists through the links *)

Fixpoint chain (h : heap) (p : option nat) (l : list nat) : Prop :=
  match l with
  | [] => p = None
  | q :: l' => p = Some q /\ exists b, h !! q = Some b /\ chain h (b_link b) l'
  end.

Lemma chain_follow fuel h p l : chain h p l -> (length l <= fuel)%nat -> follow_link (S fuel) h p = ODone l.
Proof.
  revert fuel p. induction l as [|q l IH]; intros fuel p; cbn [chain].
  - intros ->. reflexivity.
  - intros (-> & b & Hb & Hc) Hf. destruct fuel as [|fuel]; cbn in Hf; [lia|].
    change (follow_link (S (S fuel)) h (Some q)) with
      (b ← oget (h !! q); l ← follow_link (S fuel) h (b_link b); ODone (q :: l)).
    rewrite Hb. cbn [oget mbind oresult_bind]. rewrite (IH fuel) by (done || lia). reflexivity.
Qed.

Lemma chain_alter h p l f q : q ∉ l -> chain h p l -> chain (alter f q h) p l.
Proof.
  revert p. induction l as [|x l IH]; intros p Hq; cbn [chain]; [done|].
  apply not_elem_of_cons in Hq as [Hne Hq]. intros (-> & b & Hb & Hc). split; [done|]. exists b.
  rewrite lookup_alter_ne by done. split; [done|]. now apply IH.
Qed.

(** ** The recursion *)

Definition level_is (h : heap) (x : nat) (n : nat) : Prop := exists b, h !! x = Some b /\ b_level b = Z.of_nat n.

Section Levels.
Context (C : gset nat) (rank : nat -> nat) (h0 : heap) (n : nat).
Context (Hcl : closed h0 C) (Hh : is_height h0 C rank) (Hn : (size C <= n)%nat).

(** [D]: the blocks done; [S]: those the recursion is in; [L]: the lists. *)
Record on_level (o : opt) (D S : gset nat) (L : nat -> list nat) : Prop := {
  ol_same : relevelled h0 (o_heap o);
  ol_len : length (levels o) = n;
  ol_marks : forall x, marked (cur_mark o) (o_heap o) x = true <-> x ∈ D \/ x ∈ S;
  ol_DC : D ⊆ C;
  ol_SC : S ⊆ C;
  ol_disj : forall x, x ∈ D -> x ∉ S;
  ol_chain : forall i p, levels o !! i = Some p -> chain (o_heap o) p (L i);
  ol_list : forall i x, x ∈ L i <-> x ∈ D /\ rank x = i;
  ol_nodup : forall i, NoDup (L i);
  ol_level : forall x, x ∈ D -> level_is (o_heap o) x (rank x);
  ol_closed : forall x b side t, x ∈ D -> h0 !! x = Some b -> succ_of side b = Some t -> t ∈ D
}.

Lemma at_h o q : relevelled h0 (o_heap o) -> q ∈ C -> exists b, o_heap o !! q = Some b /\ closed_block C b /\
  rank q = height_of rank b.
Proof.
  intros R Hq. pose proof (relevelled_same _ _ R) as G. destruct (Hcl q Hq) as (b0 & Hb0 & Hc).
  destruct (same_graph_Some _ _ _ _ G Hb0) as (b & Hb & Hs). exists b. split; [done|].
  split; [now apply (closed_block_same C b0)|]. rewrite (Hh q b0 Hq Hb0). unfold height_of.
  destruct Hs as (_ & _ & -> & ->). done.
Qed.

(** Entering a block. *)
Lemma on_level_enter o D S L q :
  on_level o D S L -> q ∈ C -> marked (cur_mark o) (o_heap o) q = false ->
  on_level (upd_block (fun b => set_link None (set_blk_mark (cur_mark o) b)) q o) D (S ∪ {[q]}) L.
Proof.
  intros I Hq Hm. pose proof I as [R Hl Hmk HD HS Hdj Hch Hli Hnd Hlv Hcd].
  destruct (at_h o q R Hq) as (b & Hb & _).
  assert (q ∉ D) as HqD by (intros Hin; rewrite (proj2 (Hmk q)) in Hm; [done|now left]).
  split; cbn [upd_block upd_heap set_heap o_heap levels cur_mark]; try done.
  - transitivity (o_heap o); [done|]. now apply relevelled_alter.
  - intros x. unfold marked. destruct (decide (x = q)) as [->|Hne].
    + rewrite lookup_alter_eq, Hb. cbn. unfold isMarked. cbn. rewrite Z.eqb_refl.
      rewrite elem_of_union, elem_of_singleton. tauto.
    + rewrite lookup_alter_ne by done. fold (marked (cur_mark o) (o_heap o) x). rewrite Hmk.
      rewrite elem_of_union, elem_of_singleton. tauto.
  - intros x [Hx| ->%elem_of_singleton]%elem_of_union; auto.
  - intros x Hx [HxS| ->%elem_of_singleton]%elem_of_union; [now apply (Hdj x)|done].
  - intros i p Hp. apply chain_alter; [rewrite Hli; tauto|eauto].
  - intros x Hx. destruct (Hlv x Hx) as (bx & Hbx & Hl'). exists bx. split; [|done].
    rewrite lookup_alter_ne; [done|]. intros ->. done.
Qed.

(** Leaving it: it goes to the front of its list. *)
Lemma on_level_leave o D S L q head :
  on_level o D (S ∪ {[q]}) L -> q ∉ S -> q ∈ C -> levels o !! rank q = Some head ->
  (forall b side t, h0 !! q = Some b -> succ_of side b = Some t -> t ∈ D) ->
  on_level (set_levels (<[rank q := Some q]> (levels o))
              (upd_block (fun b => set_link head (set_level (Z.of_nat (rank q)) b)) q o))
    (D ∪ {[q]}) S (fun i => if decide (i = rank q) then q :: L i else L i).
Proof.
  intros I HqS Hq Hhd Hsq. pose proof I as [R Hl Hmk HD HS Hdj Hch Hli Hnd Hlv Hcd].
  destruct (at_h o q R Hq) as (b & Hb & _).
  assert (q ∈ S ∪ {[q]}) as HqS' by (apply elem_of_union; right; now apply elem_of_singleton).
  assert (q ∉ D) as HqD by (intros Hin; exact (Hdj q Hin HqS')).
  assert (forall i, q ∉ L i) as HqL by (intros i; rewrite Hli; tauto).
  split; cbn [upd_block upd_heap set_heap set_levels o_heap levels cur_mark].
  - transitivity (o_heap o); [done|]. now apply relevelled_alter.
  - now rewrite length_insert.
  - intros x. rewrite elem_of_union, elem_of_singleton. unfold marked. destruct (decide (x = q)) as [->|Hne].
    + rewrite lookup_alter_eq, Hb. cbn. change (isMarked _ _) with (isMarked (cur_mark o) b).
      assert (marked (cur_mark o) (o_heap o) q = true) as Hmq by (apply Hmk; now right).
      unfold marked in Hmq. rewrite Hb in Hmq. tauto.
    + rewrite lookup_alter_ne by done. fold (marked (cur_mark o) (o_heap o) x). rewrite Hmk.
      rewrite elem_of_union, elem_of_singleton. tauto.
  - intros x [Hx| ->%elem_of_singleton]%elem_of_union; auto.
  - intros x Hx. apply HS, elem_of_union. now left.
  - intros x [Hx| ->%elem_of_singleton]%elem_of_union HxS; [apply (Hdj x Hx), elem_of_union; now left|done].
  - intros i p. destruct (decide (i = rank q)) as [->|Hne].
    + rewrite list_lookup_insert_eq by (apply lookup_lt_Some in Hhd; done). intros [= <-]. cbn [chain].
      split; [done|]. eexists. rewrite lookup_alter_eq, Hb. split; [reflexivity|].
      apply chain_alter; [done|]. now apply Hch.
    + rewrite list_lookup_insert_ne by done. intros Hp. apply chain_alter; [done|now apply Hch].
  - intros i x. rewrite elem_of_union, elem_of_singleton. destruct (decide (i = rank q)) as [->|Hne].
    + rewrite elem_of_cons, Hli. split; [intros [->|[? ?]]; auto|intros [[?| ->] ?]; auto].
    + rewrite Hli. split; [tauto|]. intros [[?| ->] ?]; [done|congruence].
  - intros i. case_decide; [constructor; [done|]|]; apply Hnd.
  - intros x [Hx| ->%elem_of_singleton]%elem_of_union.
    + destruct (Hlv x Hx) as (bx & Hbx & Hl'). exists bx. split; [|done].
      rewrite lookup_alter_ne; [done|]. intros ->. done.
    + eexists. rewrite lookup_alter_eq, Hb. split; reflexivity.
  - intros x b0 side t [Hx| ->%elem_of_singleton]%elem_of_union Hb0 Ht; apply elem_of_union; left; eauto.
Qed.

Lemma level_of_done o D S L t :
  on_level o D S L -> t ∈ D -> level_of o (Some t) = ODone (Z.of_nat (rank t)).
Proof.
  intros I Ht. destruct (ol_level _ _ _ _ I t Ht) as (b & Hb & Hl).
  unfold level_of, deref. cbn. rewrite Hb. cbn. now rewrite Hl.
Qed.

(** Fields [find_levels] does not touch. *)
Definition same_tables (o o' : opt) : Prop :=
  blocks o' = blocks o /\ cur_mark o' = cur_mark o /\ nodewords o' = nodewords o /\ edgewords o' = edgewords o /\
  edges o' = edges o /\ vtab o' = vtab o /\ done o' = done o.

#[export] Instance same_tables_preorder : PreOrder same_tables.
Proof. split; [now repeat split|]. intros o1 o2 o3. unfold same_tables. intuition congruence. Qed.

Definition reached (o : opt) (q : nat) (D S : gset nat) (r : oresult opt) : Prop :=
  exists o' D' L', r = ODone o' /\ on_level o' D' S L' /\ same_tables o o' /\ D ⊆ D' /\ q ∈ D'.

(** The blocks the recursion is in are above the ones it goes to. *)
Definition above (S : gset nat) (q : nat) : Prop := forall s, s ∈ S -> (rank q < rank s)%nat.

Lemma above_succ S q b side t :
  above S q -> height_of rank b = rank q -> closed_block C b -> succ_of side b = Some t -> above (S ∪ {[q]}) t.
Proof.
  intros Ha Hr Hc Ht. pose proof (height_succ C rank b side t Hc Ht).
  intros s [Hs| ->%elem_of_singleton]%elem_of_union; [|lia]. specialize (Ha s Hs). lia.
Qed.

(** The level computed at a block, once its successors are done. *)
Lemma leave_reached o o2 q b D D2 S L2 :
  on_level o2 D2 (S ∪ {[q]}) L2 -> q ∈ C -> q ∉ S -> h0 !! q = Some b ->
  same_tables o o2 -> D ⊆ D2 -> (forall side t, succ_of side b = Some t -> t ∈ D2) ->
  reached o q D S
    (head ← oget (at_Z (levels o2) (Z.of_nat (rank q)));
     let o := upd_block (fun b => set_link head (set_level (Z.of_nat (rank q)) b)) q o2 in
     ODone (set_levels (<[Z.to_nat (Z.of_nat (rank q)) := Some q]> (levels o)) o)).
Proof.
  intros I2 Hq HqS Hb Ht HD Hs. pose proof (height_bound h0 C rank q Hcl Hh Hq) as Hlt.
  destruct (lookup_lt_is_Some_2 (levels o2) (rank q)) as [head Hhd]; [rewrite (ol_len _ _ _ _ I2); lia|].
  rewrite at_Z_of_nat, Hhd.
  cbn [oget mbind oresult_bind]. rewrite Nat2Z.id.
  eexists _, (D2 ∪ {[q]}), _. split; [reflexivity|]. split.
  - apply (on_level_leave o2 D2 S L2 q head I2 HqS Hq Hhd). intros b0 side t Hb0. simplify_eq. apply Hs.
  - split; [exact Ht|]. split; [intros x Hx; apply elem_of_union; left; now apply HD|].
    apply elem_of_union. right. now apply elem_of_singleton.
Qed.

Lemma find_levels_r_ok fuel o q D S L :
  on_level o D S L -> q ∈ C -> above S q -> (size (unmarked (cur_mark o) C (o_heap o)) < fuel)%nat ->
  reached o q D S (find_levels_r fuel o q).
Proof.
  revert o q D S L. induction fuel as [|fuel IH]; intros o q D S L I Hq Ha Hf; [lia|].
  destruct (at_h o q (ol_same _ _ _ _ I) Hq) as (b & Hb & Hc & Hr).
  assert (q ∉ S) as HqS by (intros Hin; specialize (Ha q Hin); lia).
  cbn [find_levels_r]. rewrite Hb. cbn [oget mbind oresult_bind].
  destruct (isMarked (cur_mark o) b) eqn:Em.
  { exists o, D, L. split; [done|]. split; [done|]. split; [reflexivity|]. split; [done|].
    destruct (proj1 (ol_marks _ _ _ _ I q)); [|done|done]. unfold marked. now rewrite Hb. }
  assert (marked (cur_mark o) (o_heap o) q = false) as Hmq by (unfold marked; now rewrite Hb).
  pose proof (on_level_enter o D S L q I Hq Hmq) as I1. set (o1 := upd_block _ q o) in *.
  assert (size (unmarked (cur_mark o) C (o_heap o1)) < size (unmarked (cur_mark o) C (o_heap o)))%nat as Hlt.
  { eapply Nat.le_lt_trans; [|apply (unmarked_Mark (cur_mark o) C (o_heap o) q Hq ltac:(eauto) Hmq)].
    apply unmarked_mono. intros x. rewrite marked_Mark by eauto. rewrite orb_true_iff, bool_decide_eq_true.
    pose proof (ol_marks _ _ _ _ I1 x) as M1. change (cur_mark o1) with (cur_mark o) in M1.
    rewrite M1, (ol_marks _ _ _ _ I), elem_of_union, elem_of_singleton. tauto. }
  destruct (same_graph_Some _ _ _ _ (symmetry (relevelled_same _ _ (ol_same _ _ _ _ I))) Hb) as (b0 & Hb0 & S0).
  pose proof (fun side => same_code_succ _ _ side S0) as Hs0.
  destruct Hc as [[Ht Hfn]|(t & f & Ht & Hfn & HtC & HfC)].
  - rewrite Ht. cbn [mbind oresult_bind]. assert (0 = Z.of_nat (rank q)) as -> by (rewrite Hr; unfold height_of; now rewrite Ht).
    apply (leave_reached o o1 q b0 D D S L I1 Hq HqS Hb0); [now repeat split|done|].
    intros side t0. rewrite Hs0. destruct side; cbn; congruence.
  - rewrite Ht, Hfn. destruct (IH o1 t D (S ∪ {[q]}) L I1 HtC) as (o2 & D2 & L2 & -> & I2 & T2 & HD2 & Ht2);
      [apply (above_succ S q b true t); try done; right; eauto 6|cbn in *; lia|].
    pose proof (proj1 (proj2 T2)) as Hcm2. cbn [oget mbind oresult_bind].
    assert (size (unmarked (cur_mark o) C (o_heap o2)) <= size (unmarked (cur_mark o) C (o_heap o1)))%nat as Hle.
    { apply unmarked_mono. intros x. change (cur_mark o) with (cur_mark o1).
      rewrite (ol_marks _ _ _ _ I1), <- Hcm2, (ol_marks _ _ _ _ I2).
      intros [Hx|Hx]; [left; now apply HD2|now right]. }
    destruct (IH o2 f D2 (S ∪ {[q]}) L2 I2 HfC) as (o3 & D3 & L3 & -> & I3 & T3 & HD3 & Hf3);
      [apply (above_succ S q b false f); try done; right; eauto 6|rewrite Hcm2; cbn in *; lia|].
    cbn [mbind oresult_bind].
    rewrite (level_of_done _ _ _ _ t I3 (HD3 t Ht2)), (level_of_done _ _ _ _ f I3 Hf3). cbn [mbind oresult_bind].
    assert (Z.max (Z.of_nat (rank t)) (Z.of_nat (rank f)) + 1 = Z.of_nat (rank q)) as ->
      by (rewrite Hr; unfold height_of; rewrite Ht, Hfn; lia).
    apply (leave_reached o o3 q b0 D D3 S L3 I3 Hq HqS Hb0).
    + transitivity o2; [|done]. transitivity o1; [now repeat split|done].
    + intros x Hx. now apply HD3, HD2.
    + intros side t0. rewrite Hs0. destruct side; cbn; intros E; simplify_eq; [now apply HD3|done].
Qed.
End Levels.

(** ** The result *)

(** The graph below [root] has levels. *)
Record levelled (o : opt) (C : gset nat) (rank : nat -> nat) (root : nat) : Prop := {
  lv_closed : closed (o_heap o) C;
  lv_height : is_height (o_heap o) C rank;
  lv_root : root ∈ C;
  lv_top : forall x, x ∈ C -> (rank x <= rank root)%nat;
  lv_level : forall x, x ∈ C -> level_is (o_heap o) x (rank x);
  lv_lists : forall i, (i <= rank root)%nat ->
    exists p l, levels o !! i = Some p /\ chain (o_heap o) p l /\ NoDup l /\ forall x, x ∈ l <-> x ∈ C /\ rank x = i
}.

Lemma closed_below h C rank n :
  closed h C -> is_height h C rank -> closed h (filter (fun x => (rank x <= n)%nat) C).
Proof.
  intros Hc Hh x. rewrite elem_of_filter. intros [Hr Hx]. destruct (Hc x Hx) as (b & Hb & Hcb).
  exists b. split; [done|]. rewrite (Hh x b Hx Hb) in Hr. unfold height_of in Hr.
  destruct Hcb as [|(t & f & Ht & Hf & HtC & HfC)]; [now left|]. right. exists t, f. rewrite Ht, Hf in Hr.
  rewrite !elem_of_filter. repeat split; done || lia.
Qed.

Lemma reachable_top h C rank root :
  reachable h C root -> closed h C -> is_height h C rank -> forall x, x ∈ C -> (rank x <= rank root)%nat.
Proof.
  intros [Hr Hmin] Hc Hh x Hx.
  assert (root ∈ filter (fun x => (rank x <= rank root)%nat) C) as Hin by (rewrite elem_of_filter; split; [lia|done]).
  pose proof (Hmin _ Hin (closed_below h C rank (rank root) Hc Hh) x Hx) as Hf. now rewrite elem_of_filter in Hf.
Qed.

Lemma find_levels_levelled o C rank root :
  closed (o_heap o) C -> is_height (o_heap o) C rank -> reachable (o_heap o) C root ->
  (size C <= length (blocks o))%nat -> (forall q b, o_heap o !! q = Some b -> b_mark b <= cur_mark o) ->
  exists o', find_levels o root = ODone o' /\ relevelled (o_heap o) (o_heap o') /\ levelled o' C rank root /\
    same_tables (set_cur_mark (cur_mark o + 1) o) o' /\ length (levels o') = length (blocks o).
Proof.
  intros Hc Hh [Hr Hmin] Hn Hm. unfold find_levels.
  set (o1 := set_cur_mark _ (set_levels (replicate (length (blocks o)) None) o)).
  assert (forall x, marked (cur_mark o1) (o_heap o1) x = false) as Hnone.
  { intros x. unfold marked. cbn. destruct (o_heap o !! x) as [b|] eqn:Hb; [|done].
    apply Z.eqb_neq. specialize (Hm x b Hb). lia. }
  destruct (find_levels_r_ok C rank (o_heap o) (length (blocks o)) Hc Hh Hn (graph_fuel o1) o1 root ∅ ∅ (fun _ => []))
    as (o' & D & L & E & I & T & _ & HrD).
  - split; cbn [o_heap o1 set_cur_mark set_levels levels]; try done.
    + now rewrite length_replicate.
    + intros x. change (o_heap o) with (o_heap o1). rewrite Hnone.
      split; [done|]. now intros [?%elem_of_empty|?%elem_of_empty].
    + intros i p [-> _]%lookup_replicate. reflexivity.
    + intros i x. rewrite elem_of_nil. split; [done|]. now intros [?%elem_of_empty _].
    + intros i. constructor.
  - done.
  - intros s Hs. now apply elem_of_empty in Hs.
  - now apply unmarked_fuel.
  - rewrite E. exists o'. split; [done|]. split; [apply (ol_same _ _ _ _ _ _ _ _ I)|].
    pose proof (relevelled_same _ _ (ol_same _ _ _ _ _ _ _ _ I)) as G.
    assert (C ⊆ D) as HCD.
    { apply Hmin; [done|]. intros x Hx. pose proof (ol_DC _ _ _ _ _ _ _ _ I x Hx) as HxC.
      destruct (Hc x HxC) as (b & Hb & Hcb). exists b. split; [done|].
      destruct Hcb as [|(t & f & Ht & Hf & _)]; [now left|]. right. exists t, f.
      split; [done|]. split; [done|]. split; [apply (ol_closed _ _ _ _ _ _ _ _ I x b true)|apply (ol_closed _ _ _ _ _ _ _ _ I x b false)]; done. }
    split; [|split; [exact T|exact (ol_len _ _ _ _ _ _ _ _ I)]]. split.
    + now apply (closed_same (o_heap o)).
    + now apply (is_height_same (o_heap o)).
    + done.
    + exact (reachable_top _ _ _ _ (conj Hr Hmin) Hc Hh).
    + intros x Hx. apply (ol_level _ _ _ _ _ _ _ _ I). now apply HCD.
    + intros i Hi. pose proof (height_bound _ _ _ _ Hc Hh Hr).
      destruct (lookup_lt_is_Some_2 (levels o') i) as [p Hp]; [rewrite (ol_len _ _ _ _ _ _ _ _ I); lia|].
      exists p, (L i). split; [done|]. split; [now apply (ol_chain _ _ _ _ _ _ _ _ I)|].
      split; [apply (ol_nodup _ _ _ _ _ _ _ _ I)|]. intros x. rewrite (ol_list _ _ _ _ _ _ _ _ I).
      split; [intros [? ?]; split; [now apply (ol_DC _ _ _ _ _ _ _ _ I)|done]|intros [? ?]; split; [now apply HCD|done]].
Qed.

(** ** Walking the levels *)

Lemma sorted_app {A} (R : A -> A -> Prop) l1 l2 :
  StronglySorted R l1 -> StronglySorted R l2 -> (forall x y, x ∈ l1 -> y ∈ l2 -> R x y) -> StronglySorted R (l1 ++ l2).
Proof.
  intros H1 H2. induction H1 as [|x l1 H1 IH Hx]; intros Hc; [done|]. cbn. constructor.
  - apply IH. intros y z Hy Hz. apply Hc; [now right|done].
  - rewrite List.Forall_app. split; [done|]. rewrite List.Forall_forall. intros y Hy%list_elem_of_In. apply Hc; [left|done].
Qed.

(** In a list sorted by rank, what is below an element comes before it. *)
Lemma sorted_before {A} (R : A -> A -> Prop) l1 x l2 y :
  StronglySorted R (l1 ++ x :: l2) -> y ∈ l1 ++ x :: l2 -> ~ R x y -> y <> x -> y ∈ l1.
Proof.
  intros Hs [Hy|[->|Hy]%elem_of_cons]%elem_of_app Hn Hne; [done..|]. exfalso. apply Hn.
  clear Hne. induction l1 as [|z l1 IH]; cbn in Hs; apply StronglySorted_inv in Hs as [Hs Hf]; [|now apply IH].
  rewrite List.Forall_forall in Hf. now apply Hf, list_elem_of_In.
Qed.

Lemma sorted_prefix {A} (R : A -> A -> Prop) l1 x l2 y :
  StronglySorted R (l1 ++ x :: l2) -> y ∈ l1 -> R y x.
Proof.
  intros Hs Hy. induction l1 as [|z l1 IH]; [now apply elem_of_nil in Hy|].
  cbn in Hs. apply StronglySorted_inv in Hs as [Hs Hf]. apply elem_of_cons in Hy as [->|Hy]; [|auto].
  rewrite List.Forall_forall in Hf. apply Hf, list_elem_of_In, elem_of_app. right. left.
Qed.

Section Walk.
Context (o : opt) (C : gset nat) (rank : nat -> nat) (root : nat) (Hl : levelled o C rank root).

Lemma level_of_levelled x : x ∈ C -> level_of o (Some x) = ODone (Z.of_nat (rank x)).
Proof.
  intros Hx. destruct (lv_level _ _ _ _ Hl x Hx) as (b & Hb & E). unfold level_of, deref. cbn. rewrite Hb. cbn. now rewrite E.
Qed.

Lemma level_list_ok i :
  (i <= rank root)%nat -> exists l, level_list o (Z.of_nat i) = ODone l /\ NoDup l /\ forall x, x ∈ l <-> x ∈ C /\ rank x = i.
Proof.
  intros Hi. destruct (lv_lists _ _ _ _ Hl i Hi) as (p & l & Hp & Hc & Hnd & Hin). exists l. split; [|done].
  unfold level_list. rewrite at_Z_of_nat, Hp. cbn [oget mbind oresult_bind]. apply chain_follow; [done|].
  rewrite <- (size_list_to_set (C := gset nat) l) by done.
  rewrite <- (size_dom (D := gset nat)). apply subseteq_size. intros x. rewrite elem_of_list_to_set.
  intros [Hx _]%Hin. destruct (lv_closed _ _ _ _ Hl x Hx) as (b & Hb & _). apply elem_of_dom. eauto.
Qed.

Lemma levels_from_ok i n :
  (i + n <= S (rank root))%nat -> exists ls, levels_from o (Z.of_nat i) n = ODone ls /\ length ls = n /\
    forall k l, ls !! k = Some l -> NoDup l /\ forall x, x ∈ l <-> x ∈ C /\ rank x = (i + k)%nat.
Proof.
  revert i. induction n as [|n IH]; intros i Hi; cbn [levels_from]; [exists []; split; [done|]; split; done|].
  destruct (level_list_ok i ltac:(lia)) as (l & -> & Hnd & Hin). cbn [mbind oresult_bind].
  replace (Z.of_nat i + 1) with (Z.of_nat (S i)) by lia.
  destruct (IH (S i) ltac:(lia)) as (ls & -> & Hlen & Hls). cbn [mbind oresult_bind]. exists (l :: ls).
  split; [done|]. split; [cbn; lia|]. intros [|k] l' Hk; cbn in Hk.
  - injection Hk as <-. now rewrite Nat.add_0_r.
  - replace (i + S k)%nat with (S i + k)%nat by lia. now apply Hls.
Qed.

Lemma sorted_const i (R : nat -> nat -> Prop) l :
  Reflexive R -> (forall x, x ∈ l -> rank x = i) -> StronglySorted (fun x y => R (rank x) (rank y)) l.
Proof.
  intros HR. induction l as [|x l IH]; intros Hr; constructor; [apply IH; intros y Hy; apply Hr; now right|].
  rewrite List.Forall_forall. intros y Hy%list_elem_of_In. rewrite (Hr x ltac:(left)), (Hr y ltac:(now right)). apply HR.
Qed.

(** Lists of consecutive ranks. *)
Definition ranked (ls : list (list nat)) (i : nat) : Prop :=
  forall k l, ls !! k = Some l -> NoDup l /\ forall x, x ∈ l <-> x ∈ C /\ rank x = (i + k)%nat.

(** Their concatenation is sorted by rank. *)
Lemma concat_ranked ls i :
  ranked ls i ->
  (forall x, x ∈ concat ls <-> x ∈ C /\ (i <= rank x < i + length ls)%nat) /\ NoDup (concat ls) /\
  StronglySorted (fun x y => (rank x <= rank y)%nat) (concat ls).
Proof.
  revert i. induction ls as [|l ls IH]; intros i H; cbn [concat length].
  { split; [intros x; rewrite elem_of_nil; split; [done|lia]|]. split; constructor. }
  destruct (H O l eq_refl) as [Hnd Hin]. rewrite Nat.add_0_r in Hin.
  destruct (IH (S i)) as (Hm & Hn & Hs); [intros k l' Hk; replace (S i + k)%nat with (i + S k)%nat by lia; now apply H|].
  assert (forall x, x ∈ l -> rank x = i) as Hr by (intros x Hx; now apply Hin).
  split; [|split].
  - intros x. rewrite elem_of_app, Hin, Hm. split; [intros [[? ?]|[? ?]]; split; done || lia|].
    intros [? ?]. destruct (decide (rank x = i)); [left|right]; split; done || lia.
  - apply NoDup_app. split; [done|]. split; [|done]. intros x Hx Hx'. apply Hin in Hx. apply Hm in Hx'. lia.
  - apply sorted_app; [apply (sorted_const i le); [exact Nat.le_refl|done]|done|].
    intros x y Hx Hy%Hm. rewrite (Hr x Hx). lia.
Qed.

Lemma concat_rev_ranked ls i :
  ranked ls i ->
  (forall x, x ∈ concat (rev ls) <-> x ∈ concat ls) /\ NoDup (concat (rev ls)) /\
  StronglySorted (fun x y => (rank y <= rank x)%nat) (concat (rev ls)).
Proof.
  revert i. induction ls as [|l ls IH]; intros i H; cbn [concat rev].
  { split; [done|]. split; constructor. }
  destruct (H O l eq_refl) as [Hnd Hin]. rewrite Nat.add_0_r in Hin.
  assert (ranked ls (S i)) as H' by (intros k l' Hk; replace (S i + k)%nat with (i + S k)%nat by lia; now apply H).
  destruct (IH (S i) H') as (Hm & Hn & Hs). destruct (concat_ranked ls (S i) H') as (Hm' & _ & _).
  assert (forall x, x ∈ l -> rank x = i) as Hr by (intros x Hx; now apply Hin).
  rewrite concat_app. cbn [concat]. rewrite app_nil_r. split; [intros x; rewrite !elem_of_app, Hm; tauto|]. split.
  - apply NoDup_app. split; [done|]. split; [|done]. intros x Hx%Hm%Hm' Hx'%Hr. lia.
  - apply sorted_app; [done|apply (sorted_const i ge); [exact Nat.le_refl|done]|]. intros x y Hx%Hm%Hm' Hy. rewrite (Hr y Hy). lia.
Qed.

(** The blocks of the levels from [lo] up, each after the ones below it. *)
Lemma blocks_up_ok lo :
  (lo <= S (rank root))%nat ->
  exists l, blocks_up o (Z.of_nat lo) (Z.of_nat (rank root)) = ODone l /\ NoDup l /\
    (forall x, x ∈ l <-> x ∈ C /\ (lo <= rank x)%nat) /\
    StronglySorted (fun x y => (rank x <= rank y)%nat) l.
Proof.
  intros Hlo. unfold blocks_up.
  replace (Z.to_nat (Z.of_nat (rank root) - Z.of_nat lo + 1)) with (S (rank root) - lo)%nat by lia.
  destruct (levels_from_ok lo (S (rank root) - lo) ltac:(lia)) as (ls & -> & Hlen & Hls). cbn [mbind oresult_bind].
  destruct (concat_ranked ls lo Hls) as (Hm & Hnd & Hs). exists (concat ls). split; [done|]. split; [done|].
  split; [|done]. intros x. rewrite Hm, Hlen. split; [intros [? ?]; split; done || lia|].
  intros [Hx ?]. pose proof (lv_top _ _ _ _ Hl x Hx). split; [done|lia].
Qed.

(** The same levels down. *)
Lemma blocks_down_ok lo :
  (lo <= S (rank root))%nat ->
  exists l, blocks_down o (Z.of_nat (rank root)) (Z.of_nat lo) = ODone l /\ NoDup l /\
    (forall x, x ∈ l <-> x ∈ C /\ (lo <= rank x)%nat) /\
    StronglySorted (fun x y => (rank y <= rank x)%nat) l.
Proof.
  intros Hlo. unfold blocks_down.
  replace (Z.to_nat (Z.of_nat (rank root) - Z.of_nat lo + 1)) with (S (rank root) - lo)%nat by lia.
  destruct (levels_from_ok lo (S (rank root) - lo) ltac:(lia)) as (ls & -> & Hlen & Hls). cbn [mbind oresult_bind].
  destruct (concat_rev_ranked ls lo Hls) as (Hm & Hnd & Hs). destruct (concat_ranked ls lo Hls) as (Hm' & _ & _).
  exists (concat (rev ls)). split; [done|]. split; [done|].
  split; [|done]. intros x. rewrite Hm, Hm', Hlen. split; [intros [? ?]; split; done || lia|].
  intros [Hx ?]. pose proof (lv_top _ _ _ _ Hl x Hx). split; [done|lia].
Qed.
End Walk.

(** ** What the passes over the levels keep *)

Definition kept (b b' : block) : Prop :=
  same_code b b' /\ b_level b' = b_level b /\ b_link b' = b_link b /\ b_mark b' = b_mark b /\ b_id b' = b_id b.

Record keeps (o o' : opt) : Prop := {
  kp_levels : levels o' = levels o;
  kp_tables : same_tables o o';
  kp_heap : forall q, option_Forall2 kept (o_heap o !! q) (o_heap o' !! q)
}.

#[export] Instance kept_preorder : PreOrder kept.
Proof. split; unfold kept, same_code; [easy|intros ? ? ?; intuition congruence]. Qed.

#[export] Instance keeps_preorder : PreOrder keeps.
Proof.
  split; [intros o; split; [done|reflexivity|intros q; reflexivity]|].
  intros o1 o2 o3 [L1 T1 H1] [L2 T2 H2]. split; [congruence|etransitivity; eassumption|].
  intros q. etransitivity; [apply H1|apply H2].
Qed.

Lemma keeps_same o o' : keeps o o' -> same_graph (o_heap o) (o_heap o').
Proof. intros K q. destruct (kp_heap _ _ K q) as [b b' [Hb _]|]; now constructor. Qed.

Lemma keeps_Some o o' q b : keeps o o' -> o_heap o !! q = Some b -> exists b', o_heap o' !! q = Some b' /\ kept b b'.
Proof. intros K Hb. pose proof (kp_heap _ _ K q) as H. rewrite Hb in H. inversion H; subst; eauto. Qed.

(** Storing a block that keeps what is needed. *)
Lemma keeps_insert o q b b' : o_heap o !! q = Some b -> kept b b' -> keeps o (upd_heap <[q := b']> o).
Proof.
  intros Hb Hk. split; [done|now repeat split|]. intros x. cbn. destruct (decide (x = q)) as [->|Hne].
  - rewrite lookup_insert_eq, Hb. now constructor.
  - rewrite lookup_insert_ne by done. reflexivity.
Qed.

Lemma keeps_update o f q : (forall b, kept b (f b)) -> keeps o (upd_block f q o).
Proof.
  intros Hf. split; [done|now repeat split|]. intros x. cbn. destruct (decide (x = q)) as [->|Hne].
  - rewrite lookup_alter_eq. destruct (o_heap o !! q); constructor. apply Hf.
  - rewrite lookup_alter_ne by done. reflexivity.
Qed.

Lemma chain_keeps o o' p l : keeps o o' -> chain (o_heap o) p l -> chain (o_heap o') p l.
Proof.
  intros K. revert p. induction l as [|q l IH]; intros p; cbn [chain]; [done|].
  intros (-> & b & Hb & Hc). split; [done|]. destruct (keeps_Some _ _ _ _ K Hb) as (b' & Hb' & (_ & _ & Hlk & _)).
  exists b'. split; [done|]. rewrite Hlk. now apply IH.
Qed.

Lemma levelled_keeps o o' C rank root : keeps o o' -> levelled o C rank root -> levelled o' C rank root.
Proof.
  intros K [Hc Hh Hr Ht Hl Hs]. pose proof (keeps_same _ _ K) as G. split; try done.
  - now apply (closed_same (o_heap o)).
  - now apply (is_height_same (o_heap o)).
  - intros x Hx. destruct (Hl x Hx) as (b & Hb & E). destruct (keeps_Some _ _ _ _ K Hb) as (b' & Hb' & (_ & E' & _)).
    exists b'. split; [done|congruence].
  - intros i Hi. destruct (Hs i Hi) as (p & l & Hp & Hch & ?). exists p, l. rewrite (kp_levels _ _ K).
    split; [done|]. split; [now apply (chain_keeps o)|done].
Qed.

(** C35: levels are longest paths. On a graph without cycles whose reachable blocks are
    [C], [find_levels] ends, changes no code, gives every reachable block the length of its
    longest path, and lists the blocks of each level, each once. *)
Theorem find_levels_correct (o : opt) (C : gset nat) (rank : nat -> nat) (root : nat) :
  dag (o_heap o) C rank -> reachable (o_heap o) C root -> (size C <= length (blocks o))%nat ->
  (forall q b, o_heap o !! q = Some b -> b_mark b <= cur_mark o) ->
  exists o' longest, find_levels o root = ODone o' /\ same_graph (o_heap o) (o_heap o') /\
    is_height (o_heap o) C longest /\ (forall x, x ∈ C -> level_is (o_heap o') x (longest x)) /\
    forall i, (i <= longest root)%nat ->
      exists l, level_list o' (Z.of_nat i) = ODone l /\ NoDup l /\ forall x, x ∈ l <-> x ∈ C /\ longest x = i.
Proof.
  intros Hd Hr Hn Hm. destruct (dag_height _ _ _ Hd) as (longest & Hh).
  destruct (find_levels_levelled o C longest root (dag_closed _ _ _ Hd) Hh Hr Hn Hm) as (o' & E & R & Hl & _).
  exists o', longest. split; [done|]. split; [now apply relevelled_same|]. split; [done|].
  split; [apply (lv_level _ _ _ _ Hl)|]. intros i Hi. exact (level_list_ok o' C longest root Hl i Hi).
Qed.

Lemma find_levels_correct_witness :
  exists o' longest, find_levels sample_opt sample_root = ODone o' /\ same_graph (o_heap sample_opt) (o_heap o') /\
    is_height (o_heap sample_opt) (list_to_set (blocks sample_opt)) longest /\
    (forall x, x ∈ (list_to_set (blocks sample_opt) : gset nat) -> level_is (o_heap o') x (longest x)) /\
    forall i, (i <= longest sample_root)%nat ->
      exists l, level_list o' (Z.of_nat i) = ODone l /\ NoDup l /\
        forall x, x ∈ l <-> x ∈ (list_to_set (blocks sample_opt) : gset nat) /\ longest x = i.
Proof.
  apply (find_levels_correct sample_opt _ sample_rank sample_root).
  - exact sample_dag.
  - exact sample_reachable.
  - vm_compute. lia.
  - exact sample_marks.
Defined.
