(* ===== verification/OptLive.v ===== *)
(** * Live registers and dead assignments (optimize.c)

    [atomuse] and [atomdef] say what a statement reads and writes; from them [find_ud]
    computes, for each block, registers such that what the filter returns depends on no
    other. [opt_deadstores] deletes the assignments to registers no one reads. *)
From stdpp Require Import base numbers list gmap.
From Stdlib Require Import Strings.Byte Sorted.
From S2P Require Import Prelude BpfInsn BpfFilter Icode Layout LayoutProofs.
From S2P Require Import OptState OptFlow OptLoop OptGraph OptLevels.
Open Scope Z_scope.

(** ** Sets of atoms *)

Lemma ATOMELEM_testbit d n : 0 <= n -> ATOMELEM d n = Z.testbit d n.
Proof.
  intros Hn. unfold ATOMELEM, ATOMMASK. destruct (Z.testbit d n) eqn:E.
  - apply negb_true_iff, Z.eqb_neq. intros H. assert (Z.testbit (Z.land d (Z.shiftl 1 n)) n = false) as H' by now rewrite H, Z.bits_0.
    rewrite Z.land_spec, E, Z.shiftl_spec, Z.sub_diag in H' by done. discriminate.
  - apply negb_false_iff, Z.eqb_eq. apply Z.bits_inj'. intros k Hk. rewrite Z.land_spec, Z.bits_0.
    destruct (decide (k = n)) as [->|Hne]; [now rewrite E|]. rewrite Z.shiftl_spec by done.
    rewrite andb_comm. destruct (decide (k < n)); [now rewrite (Z.testbit_neg_r 1) by lia|].
    assert (Z.testbit 1 (k - n) = false) as ->; [|done].
    apply (Z.bits_above_log2 1); [lia|]. change (Z.log2 1) with 0. lia.
Qed.

Lemma ATOMMASK_testbit n k : 0 <= n -> 0 <= k -> Z.testbit (ATOMMASK n) k = bool_decide (k = n).
Proof.
  intros Hn Hk. unfold ATOMMASK. rewrite Z.shiftl_1_l, Z.pow2_bits_eqb by done.
  destruct (Z.eqb_spec n k) as [->|]; [now rewrite bool_decide_true|now rewrite bool_decide_false by congruence].
Qed.

Definition elem (d a : Z) : Prop := Z.testbit d a = true.

(** ** Registers *)

(** The registers hold the same in the atoms of [P]. *)
Record agree (P : Z -> Prop) (r1 r2 : regs) : Prop := {
  ag_len : length (rmem r1) = length (rmem r2);
  ag_A : P A_ATOM -> rA r1 = rA r2;
  ag_X : P X_ATOM -> rX r1 = rX r2;
  ag_mem : forall k, 0 <= k < BPF_MEMWORDS -> P k -> at_Z (rmem r1) k = at_Z (rmem r2) k
}.

Lemma agree_refl P r : agree P r r.
Proof. now split. Qed.

Lemma agree_sym P r1 r2 : agree P r1 r2 -> agree P r2 r1.
Proof. intros []. split; intros; symmetry; auto. Qed.

Lemma agree_trans P r1 r2 r3 : agree P r1 r2 -> agree P r2 r3 -> agree P r1 r3.
Proof.
  intros [L1 A1 X1 M1] [L2 A2 X2 M2].
  split; [congruence|intros; now rewrite A1, A2|intros; now rewrite X1, X2|intros; now rewrite M1, M2].
Qed.

Definition is_atom (a : Z) : Prop := 0 <= a < N_ATOMS.

Lemma agree_weaken (P Q : Z -> Prop) r1 r2 : (forall a, is_atom a -> P a -> Q a) -> agree Q r1 r2 -> agree P r1 r2.
Proof.
  intros H []. unfold is_atom, N_ATOMS, BPF_MEMWORDS in H.
  split; [done|intros HP; apply ag_A0, H; [unfold A_ATOM, BPF_MEMWORDS; lia|done]
         |intros HP; apply ag_X0, H; [unfold X_ATOM, BPF_MEMWORDS; lia|done]
         |intros k Hk HP; apply ag_mem0; [done|apply H; [unfold BPF_MEMWORDS in Hk; lia|done]]].
Qed.

(** ** Statements *)

(** Statements in straight-line code: a deleted one, or an instruction that is no jump and
    no return and, if it is about scratch memory, has an index in range. *)
Definition mem_ok (s : stmt) : bool := (0 <=? s_k s) && (s_k s <? BPF_MEMWORDS).
Definition plain_op (s : stmt) (o : opcode) : bool :=
  match o with
  | RET_K | RET_A | JA | JCOND _ _ => false
  | LD_MEM | LDX_MEM | ST | STX => mem_ok s
  | _ => true
  end.
Definition plain (s : stmt) : bool :=
  (s_code s =? NOP) || match decode_op (s_code s) with Some o => plain_op s o | None => false end.

Lemma plain_cases s : plain s = true -> s_code s = NOP \/ exists o, s_code s = encode_op o /\ plain_op s o = true.
Proof.
  unfold plain. rewrite orb_true_iff, Z.eqb_eq. intros [H|H]; [now left|right].
  destruct (decode_op (s_code s)) as [o|] eqn:E; [|discriminate]. exists o. split; [now apply decode_op_Some|done].
Qed.

Definition uses (s : stmt) (a : Z) : Prop :=
  atomuse s = a \/ (atomuse s = AX_ATOM /\ (a = A_ATOM \/ a = X_ATOM)).
Definition defs (s : stmt) (a : Z) : Prop := atomdef s = a.

(** The same statement from states that agree on what it reads. *)
Definition same_step (P : Z -> Prop) (x y : step_result) : Prop :=
  match x, y with
  | Next d1 r1, Next d2 r2 => d1 = 0 /\ d2 = 0 /\ agree P r1 r2
  | Stop o1, Stop o2 => o1 = o2
  | _, _ => False
  end.

Section Exec.
Context (p : list byte) (wirelen buflen : Z).
Let exec (s : stmt) (r : regs) : step_result := exec_insn p wirelen buflen (insn_of_stmt s) r.

Lemma exec_plain s o r : s_code s = encode_op o -> exec s r = exec_op o p wirelen buflen (insn_of_stmt s) r.
Proof.
  intros E. unfold exec, exec_insn, insn_of_stmt. cbn [i_code]. rewrite E.
  pose proof (encode_op_range o). rewrite u16_id by lia. now rewrite decode_encode_op.
Qed.

Lemma agree_set_A P v r1 r2 : agree (fun a => P a /\ a <> A_ATOM) r1 r2 -> agree P (set_A v r1) (set_A v r2).
Proof.
  intros [L A X M]. split; cbn; [done|done|intros H; apply X; split; [done|discriminate]|].
  intros k Hk HP. apply M; [done|]. split; [done|]. unfold A_ATOM. lia.
Qed.

Lemma agree_set_X P v r1 r2 : agree (fun a => P a /\ a <> X_ATOM) r1 r2 -> agree P (set_X v r1) (set_X v r2).
Proof.
  intros [L A X M]. split; cbn; [done|intros H; apply A; split; [done|discriminate]|done|].
  intros k Hk HP. apply M; [done|]. split; [done|]. unfold X_ATOM. lia.
Qed.

(** [atomuse] and [atomdef] by operation. *)
Definition op_use (o : opcode) (k : Z) : Z :=
  match o with
  | RET_A | ALU _ SrcK | JCOND _ SrcK | JA | NEG | ST | TAX => A_ATOM
  | LD_IND _ | STX | TXA => X_ATOM
  | LD_MEM | LDX_MEM => k
  | ALU _ SrcX | JCOND _ SrcX => AX_ATOM
  | _ => -1
  end.

Definition op_def (o : opcode) (k : Z) : Z :=
  match o with
  | LD_ABS _ | LD_IND _ | LD_LEN | LD_IMM | LD_MEM | ALU _ _ | NEG | TXA => A_ATOM
  | LDX_LEN | LDX_MSH | LDX_IMM | LDX_MEM | TAX => X_ATOM
  | ST | STX => k
  | _ => -1
  end.

Lemma atomuse_op s o : s_code s = encode_op o -> atomuse s = op_use o (s_k s).
Proof.
  unfold atomuse. intros ->.
  destruct o as [| |[]|[]| | | | | | | | | | |[] []|[] []| | |]; reflexivity.
Qed.

Lemma atomdef_op s o : s_code s = encode_op o -> atomdef s = op_def o (s_k s).
Proof.
  unfold atomdef. intros ->.
  destruct o as [| |[]|[]| | | | | | | | | | |[] []|[] []| | |]; reflexivity.
Qed.

Lemma step_A (P U : Z -> Prop) v r1 r2 :
  agree (fun a => P a \/ U a) r1 r2 ->
  same_step (fun a => P a \/ A_ATOM = a) (Next 0 (set_A v r1)) (Next 0 (set_A v r2)).
Proof.
  intros H. split; [done|]. split; [done|]. apply agree_set_A. eapply agree_weaken; [|exact H].
  intros a _ [[|<-] ?]; [now left|done].
Qed.

Lemma step_X (P U : Z -> Prop) v r1 r2 :
  agree (fun a => P a \/ U a) r1 r2 ->
  same_step (fun a => P a \/ X_ATOM = a) (Next 0 (set_X v r1)) (Next 0 (set_X v r2)).
Proof.
  intros H. split; [done|]. split; [done|]. apply agree_set_X. eapply agree_weaken; [|exact H].
  intros a _ [[|<-] ?]; [now left|done].
Qed.

Lemma step_load (P U : Z -> Prop) sz k r1 r2 :
  agree (fun a => P a \/ U a) r1 r2 ->
  same_step (fun a => P a \/ A_ATOM = a) (load_packet sz p buflen k r1) (load_packet sz p buflen k r2).
Proof.
  intros H. unfold load_packet. destruct (short_packet sz k buflen); [done|].
  destruct (extract sz p k); [now apply (step_A P U)|done].
Qed.

Lemma step_store (P U : Z -> Prop) k v r1 r2 :
  agree (fun a => P a \/ U a) r1 r2 -> 0 <= k < BPF_MEMWORDS ->
  same_step (fun a => P a \/ k = a)
    match store_mem (rmem r1) k v with Some m => Next 0 (set_mem m r1) | None => Stop (Fault (BadMem k)) end
    match store_mem (rmem r2) k v with Some m => Next 0 (set_mem m r2) | None => Stop (Fault (BadMem k)) end.
Proof.
  intros [L A X M] Hk. unfold store_mem, at_Z. destruct (Z.ltb_spec k 0); [lia|].
  destruct (rmem r1 !! Z.to_nat k) as [x1|] eqn:E1, (rmem r2 !! Z.to_nat k) as [x2|] eqn:E2;
    [|apply lookup_lt_Some in E1; apply lookup_ge_None in E2; lia
     |apply lookup_lt_Some in E2; apply lookup_ge_None in E1; lia|done].
  split; [done|]. split; [done|]. unfold BPF_MEMWORDS in *. split; cbn.
  - now rewrite !length_insert.
  - intros [HP|HP]; [apply A; now left|]. unfold A_ATOM, BPF_MEMWORDS in HP. lia.
  - intros [HP|HP]; [apply X; now left|]. unfold X_ATOM, BPF_MEMWORDS in HP. lia.
  - intros i Hi HP. unfold at_Z. destruct (Z.ltb_spec i 0); [lia|]. destruct (decide (i = k)) as [->|Hne].
    + rewrite !list_lookup_insert_eq by (apply lookup_lt_Some in E1, E2; done). done.
    + rewrite !list_lookup_insert_ne by lia. destruct HP as [HP|]; [|congruence].
      specialize (M i Hi (or_introl HP)). unfold at_Z in M. now destruct (Z.ltb_spec i 0); [lia|].
Qed.

Lemma agree_uses_mem P s r1 r2 :
  agree (fun a => P a \/ uses s a) r1 r2 -> mem_ok s = true -> atomuse s = s_k s ->
  load_mem (rmem r1) (u32 (s_k s)) = load_mem (rmem r2) (u32 (s_k s)).
Proof.
  unfold mem_ok. rewrite andb_true_iff, Z.leb_le, Z.ltb_lt. intros [_ _ _ M] Hk Hu. unfold BPF_MEMWORDS in *.
  unfold load_mem. rewrite u32_id by lia. f_equal. apply M; [done|]. right. now left.
Qed.

(** A statement reads what [atomuse] says and writes what [atomdef] says. *)
Lemma exec_agree P s r1 r2 :
  plain s = true -> s_code s <> NOP -> agree (fun a => P a \/ uses s a) r1 r2 ->
  same_step (fun a => P a \/ defs s a) (exec s r1) (exec s r2).
Proof.
  intros [Hn|(o & Hc & Hp)]%plain_cases Hne H; [done|]. rewrite !(exec_plain s o) by done.
  unfold defs. rewrite (atomdef_op s o Hc). pose proof (atomuse_op s o Hc) as Hu.
  assert (op_use o (s_k s) = A_ATOM \/ op_use o (s_k s) = AX_ATOM -> rA r1 = rA r2) as HA.
  { intros E. apply (ag_A _ _ _ H). right. unfold uses. rewrite Hu. destruct E as [-> | ->]; auto. }
  assert (op_use o (s_k s) = X_ATOM \/ op_use o (s_k s) = AX_ATOM -> rX r1 = rX r2) as HX.
  { intros E. apply (ag_X _ _ _ H). right. unfold uses. rewrite Hu. destruct E as [-> | ->]; auto. }
  destruct o as [| |sz|sz| | | | | | | | | | | |op src| | |]; try discriminate Hp;
    cbn [op_def op_use exec_op exec_reg] in *.
  - apply (step_load P (uses s)), H.
  - unfold exec_ld_ind. rewrite HX by auto. apply (step_load P (uses s)), H.
  - apply (step_A P (uses s)), H.
  - apply (step_X P (uses s)), H.
  - unfold exec_ldx_msh. destruct (_ <=? _); [done|].
    destruct (extract _ _ _); [apply (step_X P (uses s)), H|done].
  - apply (step_A P (uses s)), H.
  - apply (step_X P (uses s)), H.
  - cbn [insn_of_stmt i_k]. rewrite (agree_uses_mem P s r1 r2 H Hp Hu).
    destruct (load_mem _ _); [apply (step_A P (uses s)), H|done].
  - cbn [insn_of_stmt i_k]. rewrite (agree_uses_mem P s r1 r2 H Hp Hu).
    destruct (load_mem _ _); [apply (step_X P (uses s)), H|done].
  - cbn [insn_of_stmt i_k]. rewrite HA by auto. unfold plain_op, mem_ok, BPF_MEMWORDS in Hp.
    rewrite u32_id by lia. apply (step_store P (uses s)); [exact H|unfold BPF_MEMWORDS; lia].
  - cbn [insn_of_stmt i_k]. rewrite HX by auto. unfold plain_op, mem_ok, BPF_MEMWORDS in Hp.
    rewrite u32_id by lia. apply (step_store P (uses s)); [exact H|unfold BPF_MEMWORDS; lia].
  - unfold exec_alu. assert (rA r1 = rA r2) as -> by (destruct src; auto).
    assert (operand src (insn_of_stmt s) r1 = operand src (insn_of_stmt s) r2) as -> by (destruct src; cbn; auto).
    destruct (alu _ _ _); [apply (step_A P (uses s)), H|]. now destruct op, src.
  - unfold exec_neg. rewrite HA by auto. apply (step_A P (uses s)), H.
  - rewrite HA by auto. apply (step_X P (uses s)), H.
  - rewrite HX by auto. apply (step_A P (uses s)), H.
Qed.

Lemma exec_writes s r d r' :
  plain s = true -> s_code s <> NOP -> exec s r = Next d r' -> d = 0 /\ agree (fun a => ~ defs s a) r r'.
Proof.
  intros [Hn|(o & Hc & Hp)]%plain_cases Hne; [done|]. rewrite (exec_plain s o) by done.
  unfold defs. rewrite (atomdef_op s o Hc).
  assert (forall v, agree (fun a => ~ A_ATOM = a) r (set_A v r)) as HA by (intros v; now split).
  assert (forall v, agree (fun a => ~ X_ATOM = a) r (set_X v r)) as HX by (intros v; now split).
  assert (forall v m, mem_ok s = true -> store_mem (rmem r) (i_k (insn_of_stmt s)) v = Some m ->
            agree (fun a => ~ s_k s = a) r (set_mem m r)) as HM.
  { intros v m. unfold mem_ok, BPF_MEMWORDS, store_mem, at_Z. cbn [insn_of_stmt i_k]. intros Hk. rewrite u32_id by lia.
    destruct (_ <? 0); [done|]. destruct (_ !! _); [|done]. intros [= <-]. split; cbn; try done.
    - now rewrite length_insert.
    - intros k Hk' Hne'. unfold at_Z. destruct (k <? 0); [done|]. rewrite list_lookup_insert_ne by lia. done. }
  destruct o as [| |sz|sz| | | | | | | | | | | |op src| | |]; try discriminate Hp;
    cbn [op_def op_use exec_op exec_reg plain_op] in *;
    unfold exec_ld_abs, exec_ld_ind, load_packet, exec_ldx_msh, exec_alu, exec_neg;
    repeat case_match; intros [= <- <-]; eauto.
Qed.

(** ** Lists of statements *)

(** [exec_stmts], without the addresses. *)
Fixpoint exec_list (l : list stmt) (r : regs) : regs + outcome :=
  match l with
  | [] => inl r
  | s :: l' =>
      if s_code s =? NOP then exec_list l' r
      else match exec s r with
           | Next d r' => if d =? 0 then exec_list l' r' else inr (Fault (BadPc d))
           | Stop o => inr o
           end
  end.

Lemma exec_stmts_list ss r : exec_stmts p wirelen buflen ss r = exec_list (sn_s <$> ss) r.
Proof.
  revert r. induction ss as [|n ss IH]; intros r; [done|]. cbn. destruct (_ =? NOP); [apply IH|].
  fold (exec (sn_s n) r). destruct (exec (sn_s n) r); [|done]. destruct (_ =? 0); [apply IH|done].
Qed.

Lemma exec_list_app l1 l2 r :
  exec_list (l1 ++ l2) r = match exec_list l1 r with inl r' => exec_list l2 r' | inr o => inr o end.
Proof.
  revert r. induction l1 as [|s l1 IH]; intros r; [done|]. cbn. destruct (_ =? NOP); [apply IH|].
  destruct (exec s r); [|done]. destruct (_ =? 0); [apply IH|done].
Qed.

Definition plains (l : list stmt) : Prop := forall s, s ∈ l -> plain s = true.

(** Both end the same way, or both complete and agree. *)
Definition same_end (P : Z -> Prop) (x y : regs + outcome) : Prop :=
  match x, y with
  | inl r1, inl r2 => agree P r1 r2
  | inr o1, inr o2 => o1 = o2
  | _, _ => False
  end.

(** Statements that read only what is in [P] keep the agreement on [P]. *)
Lemma exec_list_agree (P : Z -> Prop) l r1 r2 :
  plains l -> (forall s a, s ∈ l -> s_code s <> NOP -> uses s a -> P a) -> agree P r1 r2 ->
  same_end P (exec_list l r1) (exec_list l r2).
Proof.
  revert r1 r2. induction l as [|s l IH]; intros r1 r2 Hp Hu H; [exact H|]. cbn [exec_list].
  destruct (Z.eqb_spec (s_code s) NOP) as [|Hne]; [apply IH; [intros x Hx; apply Hp; now right|intros; eapply Hu; eauto; now right|done]|].
  pose proof (exec_agree P s r1 r2 (Hp s ltac:(left)) Hne) as He.
  destruct (exec s r1) as [d1 r1'|o1] eqn:E1, (exec s r2) as [d2 r2'|o2] eqn:E2; cbn [same_step] in He.
  - destruct He as (-> & -> & Ha); [eapply agree_weaken; [|exact H]; intros a _ [|]; [done|eapply Hu; eauto; left]|].
    cbn. apply IH; [intros x Hx; apply Hp; now right|intros; eapply Hu; eauto; now right|].
    eapply agree_weaken; [|exact Ha]. now left.
  - destruct He. eapply agree_weaken; [|exact H]; intros a _ [|]; [done|eapply Hu; eauto; left].
  - destruct He. eapply agree_weaken; [|exact H]; intros a _ [|]; [done|eapply Hu; eauto; left].
  - apply He. eapply agree_weaken; [|exact H]; intros a _ [|]; [done|eapply Hu; eauto; left].
Qed.
End Exec.

(** ** [compute_local_ud] *)

Lemma elem_mask d n a : 0 <= n -> 0 <= a -> elem (d ||| ATOMMASK n) a <-> elem d a \/ n = a.
Proof.
  intros Hn Ha. unfold elem. rewrite Z.lor_spec, ATOMMASK_testbit, orb_true_iff, bool_decide_eq_true by done.
  split; intros [|]; auto.
Qed.

Lemma use_unless_def_ok u n :
  0 <= n -> let u' := use_unless_def u n in
  u_def u' = u_def u /\ u_kill u' = u_kill u /\ (forall a, 0 <= a -> elem (u_use u) a -> elem (u_use u') a) /\
  (elem (u_def u) n \/ elem (u_use u') n).
Proof.
  intros Hn. unfold use_unless_def. rewrite ATOMELEM_testbit by done.
  destruct (Z.testbit (u_def u) n) eqn:E; cbn; [now repeat split; auto|].
  split; [done|]. split; [done|]. split; [intros a Ha H; rewrite elem_mask by done; now left|].
  right. rewrite elem_mask by done. now right.
Qed.

Definition read_as (n a : Z) : Prop := n = a \/ (n = AX_ATOM /\ (a = A_ATOM \/ a = X_ATOM)).

Lemma ud_use_ok u n u' :
  ud_use u n = ODone u' ->
  u_def u' = u_def u /\ u_kill u' = u_kill u /\ (forall a, 0 <= a -> elem (u_use u) a -> elem (u_use u') a) /\
  (forall a, is_atom a -> read_as n a -> elem (u_def u) a \/ elem (u_use u') a).
Proof.
  unfold ud_use, is_atom, read_as. destruct (Z.ltb_spec n 0).
  { intros [= <-]. split; [done|]. split; [done|]. split; [done|].
    intros a [Ha _] [<-|[-> _]]; [lia|discriminate]. }
  destruct (Z.eqb_spec n AX_ATOM) as [->|].
  { intros [= <-]. pose proof (use_unless_def_ok u X_ATOM ltac:(done)) as (D1 & K1 & U1 & E1).
    pose proof (use_unless_def_ok (use_unless_def u X_ATOM) A_ATOM ltac:(done)) as (D2 & K2 & U2 & E2).
    rewrite D2, D1 in *. split; [done|]. split; [congruence|]. split; [auto|].
    intros a Ha [Hn|[_ [->| ->]]]; [unfold AX_ATOM in Hn; lia|done|].
    destruct E1; [now left|right]. apply U2; done. }
  destruct (Z.ltb_spec n N_ATOMS); [|discriminate]. intros [= <-].
  pose proof (use_unless_def_ok u n ltac:(done)) as (D1 & K1 & U1 & E1). split; [done|]. split; [done|].
  split; [done|]. intros a Ha [<-|[]]; [done|congruence].
Qed.

Lemma ud_def_ok u n u' :
  ud_def u n = ODone u' ->
  u_use u' = u_use u /\ (forall a, 0 <= a -> elem (u_def u') a <-> elem (u_def u) a \/ n = a) /\
  (forall a, 0 <= a -> elem (u_kill u') a -> elem (u_kill u) a \/ n = a).
Proof.
  unfold ud_def. destruct (Z.ltb_spec n 0).
  { intros [= <-]. split; [done|]. split; intros a Ha; [|now left]. split; [now left|]. intros [|]; [done|lia]. }
  destruct (_ <=? _); [done|]. intros [= <-]. cbn [u_use u_def u_kill]. split; [done|].
  split; intros a Ha; [now apply elem_mask|]. destruct (ATOMELEM _ _); [now left|]. now rewrite elem_mask.
Qed.

Section Live.
Context (p : list byte) (wirelen buflen : Z).

(** What a run of [ud_stmt] over statements that are executed says. [T] contains all that
    is used in the end. *)
Lemma ud_stmts_agree (T : Z -> Prop) ss u u1 r1 r2 :
  ofold ud_stmt u ss = ODone u1 -> plains (sn_s <$> ss) ->
  (forall a, 0 <= a -> elem (u_use u1) a -> T a) -> agree (fun a => elem (u_def u) a \/ T a) r1 r2 ->
  same_end (fun a => elem (u_def u1) a \/ T a) (exec_list p wirelen buflen (sn_s <$> ss) r1)
    (exec_list p wirelen buflen (sn_s <$> ss) r2).
Proof.
  revert u r1 r2. induction ss as [|n ss IH]; intros u r1 r2 Hf Hp HT H; cbn [ofold fmap list_fmap exec_list] in *.
  { now injection Hf as <-. }
  odone Hf. assert (plains (sn_s <$> ss)) as Hp' by (intros x Hx; apply Hp; now right).
  unfold ud_stmt in H1. destruct (Z.eqb_spec (s_code (sn_s n)) NOP) as [E|Hne].
  { injection H1 as <-. now apply (IH u). }
  odone H1. pose proof (ud_use_ok _ _ _ H0) as (D1 & K1 & U1 & E1). pose proof (ud_def_ok _ _ _ H1) as (U2 & D2 & K2).
  assert (forall b, 0 <= b -> elem (u_use a) b -> T b) as HTa.
  { intros b Hb Hu. apply HT; [done|]. revert Hu. clear - Hf Hb. revert a Hf.
    induction ss as [|m ss IH]; intros a Hf Hu; cbn [ofold] in Hf; [now injection Hf as <-|]. odone Hf.
    apply (IH _ Hf). unfold ud_stmt in H1. destruct (_ =? NOP); [now injection H1 as <-|]. odone H1.
    apply ud_use_ok in H0 as (_ & _ & U & _). apply ud_def_ok in H1 as (-> & _ & _). now apply U. }
  assert (agree (fun b => (elem (u_def u) b \/ T b) \/ uses (sn_s n) b) r1 r2) as Ha.
  { eapply agree_weaken; [|exact H]. intros b Hb [|Hu]; [done|]. destruct (E1 b Hb Hu) as [|]; [now left|].
    right. apply HTa; [apply Hb|]. now rewrite U2. }
  pose proof (exec_agree p wirelen buflen _ (sn_s n) r1 r2 (Hp _ ltac:(left)) Hne Ha) as He.
  destruct (exec_insn p wirelen buflen (insn_of_stmt (sn_s n)) r1) as [d1 r1'|o1],
           (exec_insn p wirelen buflen (insn_of_stmt (sn_s n)) r2) as [d2 r2'|o2]; cbn [same_step] in He; try done.
  destruct He as (-> & -> & Hn). cbn [Z.eqb]. apply (IH a); [done|done|done|]. eapply agree_weaken; [|exact Hn].
  intros b Hb [Hd|HTb]; [|left; now right]. apply D2 in Hd; [|apply Hb]. rewrite D1 in Hd.
  destruct Hd; [left; now left|now right].
Qed.

(** Registers killed are defined. *)
Lemma ud_stmts_kill ss u u1 :
  ofold ud_stmt u ss = ODone u1 -> (forall a, 0 <= a -> elem (u_kill u) a -> elem (u_def u) a) ->
  forall a, 0 <= a -> elem (u_kill u1) a -> elem (u_def u1) a.
Proof.
  revert u. induction ss as [|n ss IH]; intros u Hf Hk; cbn [ofold] in Hf; [now injection Hf as <-|].
  odone Hf. apply (IH _ Hf). unfold ud_stmt in H1. destruct (_ =? NOP); [now injection H1 as <-|]. odone H1.
  apply ud_use_ok in H0 as (D1 & K1 & _ & _). apply ud_def_ok in H1 as (_ & D2 & K2).
  intros b Hb Hkb. apply K2 in Hkb; [|done]. apply D2; [done|]. rewrite D1, K1 in *. destruct Hkb; [left; auto|now right].
Qed.

(** A block the optimizer can analyse: straight-line statements and a comparison, or a
    return of a constant. *)
Definition wf_branch (s : stmt) : bool :=
  match decode_op (s_code s) with Some RET_K | Some (JCOND _ _) => true | _ => false end.
Definition wf_block (b : block) : bool := forallb plain (sn_s <$> b_stmts b) && wf_branch (b_s b).

Lemma wf_block_plains b : wf_block b = true -> plains (sn_s <$> b_stmts b) /\ wf_branch (b_s b) = true.
Proof.
  unfold wf_block. rewrite andb_true_iff. intros [H Hb]. split; [|done]. intros s Hs. rewrite forallb_forall in H.
  now apply H, list_elem_of_In.
Qed.

Lemma u16_encode o : u16 (encode_op o) = encode_op o.
Proof. pose proof (encode_op_range o). apply u16_id. lia. Qed.

(** The branch decides the same when the registers it compares are the same. *)
Lemma exec_branch_agree (P : Z -> Prop) s r1 r2 :
  wf_branch s = true -> (forall a, is_atom a -> read_as (atomuse s) a -> P a) -> agree P r1 r2 ->
  match exec_branch s r1, exec_branch s r2 with
  | Leave s1 r1', Leave s2 r2' => s1 = s2 /\ r1' = r1 /\ r2' = r2
  | Done o1, Done o2 => o1 = o2
  | _, _ => False
  end.
Proof.
  unfold wf_branch. destruct (decode_op (s_code s)) as [o|] eqn:E; [|done]. apply decode_op_Some in E. intros Ho HP Ha.
  pose proof (atomuse_op s o E) as Hu. unfold exec_branch. rewrite E, u16_encode, decode_encode_op.
  destruct o as [| | | | | | | | | | | | | |op src| | | |]; try discriminate; [done|].
  assert (is_atom A_ATOM /\ is_atom X_ATOM) as [] by (now split; split).
  assert (rA r1 = rA r2) as ->.
  { apply (ag_A _ _ _ Ha), HP; [done|]. rewrite Hu. destruct src; cbn; unfold read_as; auto. }
  assert (operand src (insn_of_stmt s) r1 = operand src (insn_of_stmt s) r2) as ->; [|done].
  destruct src; [done|]. apply (ag_X _ _ _ Ha), HP; [done|]. rewrite Hu. unfold read_as; auto.
Qed.

(** The same outcome, or the same side with agreement on [P]. *)
Definition same_exit (P : Z -> Prop) (x y : exit_result) : Prop :=
  match x, y with
  | Leave s1 r1, Leave s2 r2 => s1 = s2 /\ agree P r1 r2
  | Done o1, Done o2 => o1 = o2
  | _, _ => False
  end.

(** Only comparisons read registers. *)
Lemma branch_reads s a : wf_branch s = true -> is_atom a -> read_as (atomuse s) a -> BPF_CLASS (s_code s) = BPF_JMP.
Proof.
  unfold wf_branch. destruct (decode_op (s_code s)) as [o|] eqn:E; [|done]. apply decode_op_Some in E. rewrite (atomuse_op s o E), E.
  destruct o as [| | | | | | | | | | | | | |op src| | | |]; try discriminate; [|now destruct op, src].
  intros _ [Ha _] [Hr|[Hr _]]; [|discriminate]. cbn in Hr. lia.
Qed.

(** What a block's exit and branch depend on. *)
Definition needs (b : block) (out : Z -> Prop) (a : Z) : Prop := out a \/ read_as (atomuse (b_s b)) a.

Lemma block_live_stmts b bl (out : Z -> Prop) r1 r2 :
  compute_local_ud b = ODone bl -> wf_block b = true ->
  agree (fun a => elem (b_in_use bl) a \/ (out a /\ ~ elem (b_kill bl) a)) r1 r2 ->
  same_end (needs b out) (exec_stmts p wirelen buflen (b_stmts b) r1) (exec_stmts p wirelen buflen (b_stmts b) r2).
Proof.
  unfold compute_local_ud. intros Hl Hwf Ha. apply wf_block_plains in Hwf as [Hp Hb]. odone Hl. odone Hl.
  injection Hl as <-. cbn [b_in_use b_kill set_ud] in Ha.
  assert (forall c, 0 <= c -> elem (u_use a) c -> elem (u_use a0) c) as Huse.
  { destruct (_ =? BPF_JMP); [apply (ud_use_ok _ _ _ H0)|]. injection H0 as <-. done. }
  assert (u_def a0 = u_def a /\ u_kill a0 = u_kill a) as [Hdef Hkill].
  { destruct (_ =? BPF_JMP); [|now injection H0 as <-]. now destruct (ud_use_ok _ _ _ H0) as (? & ? & _). }
  assert (forall c, ~ elem 0 c) as H0c by (intros c; unfold elem; now rewrite Z.bits_0).
  set (T := fun c => elem (u_use a0) c \/ (out c /\ ~ elem (u_kill a0) c)) in *.
  assert (same_end (fun c => elem (u_def a) c \/ T c) (exec_list p wirelen buflen (sn_s <$> b_stmts b) r1)
    (exec_list p wirelen buflen (sn_s <$> b_stmts b) r2)) as He.
  { apply (ud_stmts_agree T (b_stmts b) _ a r1 r2 H1 Hp); [intros c Hc Hu; left; auto|].
    eapply agree_weaken; [|exact Ha]. intros c _ [Hc|]; [now apply H0c in Hc|done]. }
  rewrite !exec_stmts_list.
  destruct (exec_list p wirelen buflen _ r1) as [r1'|o1], (exec_list p wirelen buflen _ r2) as [r2'|o2];
    cbn [same_end] in *; try done.
  eapply agree_weaken; [|exact He]. intros c Hc [Ho|Hu].
  - destruct (Z.testbit (u_kill a0) c) eqn:Ek; [left|right; right; split; [done|unfold elem; congruence]].
    rewrite Hkill in Ek. apply (ud_stmts_kill _ _ _ H1); [|apply Hc|exact Ek].
    intros c' _ Hc'. now apply H0c in Hc'.
  - rewrite (branch_reads _ c Hb Hc Hu), Z.eqb_refl in H0. destruct (ud_use_ok _ _ _ H0) as (_ & _ & _ & E).
    destruct (E c Hc Hu); [now left|right; now left].
Qed.

Lemma block_live b bl (out : Z -> Prop) r1 r2 :
  compute_local_ud b = ODone bl -> wf_block b = true ->
  agree (fun a => elem (b_in_use bl) a \/ (out a /\ ~ elem (b_kill bl) a)) r1 r2 ->
  same_exit out (exec_block p wirelen buflen b r1) (exec_block p wirelen buflen b r2).
Proof.
  intros Hl Hwf Ha. pose proof (block_live_stmts b bl out r1 r2 Hl Hwf Ha) as He. unfold exec_block.
  destruct (exec_stmts p wirelen buflen _ r1) as [r1'|o1], (exec_stmts p wirelen buflen _ r2) as [r2'|o2];
    cbn [same_end] in He; try done.
  apply wf_block_plains in Hwf as [_ Hb].
  pose proof (exec_branch_agree (needs b out) (b_s b) r1' r2' Hb (fun a _ H => or_intror H) He) as Hbr.
  destruct (exec_branch (b_s b) r1') as [s1 r1''|], (exec_branch (b_s b) r2') as [s2 r2''|]; cbn [same_exit]; try done.
  destruct Hbr as (-> & -> & ->). split; [done|]. eapply agree_weaken; [|exact He]. now left.
Qed.
End Live.

(** ** [find_ud] *)

Lemma plain_atoms s : plain s = true -> s_code s <> NOP ->
  atomuse s <= AX_ATOM /\ atomdef s < N_ATOMS.
Proof.
  intros [Hn|(o & Hc & Hp)]%plain_cases Hne; [done|]. rewrite (atomuse_op s o Hc), (atomdef_op s o Hc).
  unfold plain_op, mem_ok in Hp. unfold AX_ATOM, N_ATOMS, A_ATOM, BPF_MEMWORDS in *.
  destruct o as [| |sz|sz| | | | | | | | | | | |op [|]| | |]; try discriminate Hp; cbn in Hp |- *; unfold A_ATOM, X_ATOM, AX_ATOM, N_ATOMS, BPF_MEMWORDS; lia.
Qed.

Lemma ud_use_total u n : n <= AX_ATOM -> exists u', ud_use u n = ODone u'.
Proof.
  intros Hn. unfold ud_use. destruct (n <? 0); [eauto|]. destruct (Z.eqb_spec n AX_ATOM); [eauto|].
  destruct (Z.ltb_spec n N_ATOMS); [eauto|]. unfold AX_ATOM in *. lia.
Qed.

Lemma ud_def_total u n : n < N_ATOMS -> exists u', ud_def u n = ODone u'.
Proof.
  intros Hn. unfold ud_def. destruct (n <? 0); [eauto|]. destruct (Z.leb_spec 32 n); [|eauto].
  unfold N_ATOMS, BPF_MEMWORDS in *. lia.
Qed.

Lemma ud_stmts_total ss u : plains (sn_s <$> ss) -> exists u', ofold ud_stmt u ss = ODone u'.
Proof.
  revert u. induction ss as [|n ss IH]; intros u Hp; cbn [ofold]; [eauto|].
  assert (plains (sn_s <$> ss)) as Hp' by (intros x Hx; apply Hp; now right).
  unfold ud_stmt. destruct (Z.eqb_spec (s_code (sn_s n)) NOP); cbn [mbind oresult_bind]; [now apply IH|].
  destruct (plain_atoms (sn_s n) (Hp _ ltac:(left)) ltac:(done)) as [Hu Hd].
  destruct (ud_use_total u (atomuse (sn_s n))) as [u1 ->]; [done|].
  cbn [mbind oresult_bind]. destruct (ud_def_total u1 (atomdef (sn_s n)) Hd) as [u2 ->]. cbn. now apply IH.
Qed.

Lemma compute_local_ud_total b : wf_block b = true -> exists bl, compute_local_ud b = ODone bl /\ kept b bl.
Proof.
  intros Hwf. apply wf_block_plains in Hwf as [Hp Hb]. unfold compute_local_ud.
  destruct (ud_stmts_total (b_stmts b) (mk_ud 0 0 0) Hp) as [u ->]. cbn [mbind oresult_bind].
  assert (exists u', (if BPF_CLASS (s_code (b_s b)) =? BPF_JMP then ud_use u (atomuse (b_s b)) else ODone u) = ODone u')
    as [u' ->].
  { destruct (_ =? _); [|eauto]. apply ud_use_total. unfold wf_branch in Hb.
    destruct (decode_op (s_code (b_s b))) as [o|] eqn:E; [|done]. apply decode_op_Some in E.
    rewrite (atomuse_op _ o E). unfold AX_ATOM, N_ATOMS, BPF_MEMWORDS.
    destruct o as [| | | | | | | | | | | | | |op [|]| | | |]; cbn; unfold A_ATOM, AX_ATOM, N_ATOMS, BPF_MEMWORDS; done. }
  cbn. eexists. split; [reflexivity|]. now repeat split.
Qed.

(** [in_use] and [kill] of a block cover what [compute_local_ud] finds in its code. *)
Definition local_ok (b : block) : Prop :=
  exists bl, compute_local_ud b = ODone bl /\ b_kill b = b_kill bl /\
    forall a, 0 <= a -> elem (b_in_use bl) a -> elem (b_in_use b) a.

(** The local part of [compute_local_ud] depends on the code alone. *)
Lemma compute_local_same b b' bl :
  same_code b b' -> compute_local_ud b = ODone bl ->
  exists bl', compute_local_ud b' = ODone bl' /\ b_kill bl' = b_kill bl /\ b_in_use bl' = b_in_use bl.
Proof.
  intros (E1 & E2 & _). unfold compute_local_ud. rewrite E1, E2. intros H. odone H. rewrite H1. cbn [mbind oresult_bind].
  odone H. rewrite H0. injection H as <-. cbn. eexists. split; [reflexivity|done].
Qed.

(** What [find_ud] establishes at a block. *)
Definition live_at (h : heap) (x : nat) : Prop :=
  exists b, h !! x = Some b /\ local_ok b /\
    (forall a, is_atom a -> elem (b_out_use b) a -> ~ elem (b_kill b) a -> elem (b_in_use b) a) /\
    forall side t bt, succ_of side b = Some t -> h !! t = Some bt ->
      forall a, elem (b_in_use bt) a -> elem (b_out_use b) a.

Lemma elem_lor a b n : elem (a ||| b) n <-> elem a n \/ elem b n.
Proof. unfold elem. rewrite Z.lor_spec. apply orb_true_iff. Qed.

Lemma elem_without a b n : is_atom n -> elem a n -> ~ elem b n -> elem (a &&& lnot32 b) n.
Proof.
  unfold elem, lnot32, all_ones, is_atom, N_ATOMS, BPF_MEMWORDS. intros Hn Ha Hb.
  rewrite Z.land_spec, Ha, Z.lxor_spec. apply not_true_iff_false in Hb. rewrite Hb.
  change (2 ^ 32 - 1) with (Z.ones 32). now rewrite Z.ones_spec_low by lia.
Qed.

Section FindUd.
Context (o0 : opt) (C : gset nat) (rank : nat -> nat) (root : nat).
Context (Hlv : levelled o0 C rank root).
Context (Hwf : forall x b, x ∈ C -> o_heap o0 !! x = Some b -> wf_block b = true).

Lemma wf_block_same b b' : same_code b b' -> wf_block b' = wf_block b.
Proof. intros (E1 & E2 & _). unfold wf_block. now rewrite E1, E2. Qed.

Lemma at_C o x : keeps o0 o -> x ∈ C -> exists b, o_heap o !! x = Some b /\ closed_block C b /\ wf_block b = true /\
  rank x = height_of rank b.
Proof.
  intros K Hx. destruct (lv_closed _ _ _ _ Hlv x Hx) as (b0 & Hb0 & Hc).
  destruct (keeps_Some _ _ _ _ K Hb0) as (b & Hb & (Hs & _)). exists b. split; [done|].
  split; [now apply (closed_block_same C b0)|]. split; [rewrite (wf_block_same _ _ Hs); eauto|].
  rewrite (lv_height _ _ _ _ Hlv x b0 Hx Hb0). unfold height_of. destruct Hs as (_ & _ & -> & ->). done.
Qed.

(** The first loop. *)
Definition local_inv (l : list nat) (o : opt) : Prop :=
  keeps o0 o /\ forall x, x ∈ l -> exists b, o_heap o !! x = Some b /\ local_ok b /\ b_out_use b = 0.

Lemma local_step l1 x o : x ∈ C -> local_inv l1 o -> exists o', local_ud_block o x = ODone o' /\ local_inv (l1 ++ [x]) o'.
Proof.
  intros Hx [K Hl]. destruct (at_C o x K Hx) as (b & Hb & _ & Hw & _). unfold local_ud_block. rewrite Hb.
  cbn [oget mbind oresult_bind]. destruct (compute_local_ud_total b Hw) as (bl & Eb & Hk). rewrite Eb.
  cbn [mbind oresult_bind]. eexists. split; [reflexivity|].
  assert (kept b (set_out_use 0 bl)) as Hk' by (etransitivity; [exact Hk|now repeat split]). split.
  - etransitivity; [exact K|now apply (keeps_insert _ _ b)].
  - intros y Hy. cbn. destruct (decide (y = x)) as [->|Hne].
    + rewrite lookup_insert_eq. eexists. split; [reflexivity|]. split; [|done].
      destruct (compute_local_same b (set_out_use 0 bl) bl (proj1 Hk') Eb) as (bl' & E' & Ek & Ei).
      exists bl'. split; [done|]. split; [now rewrite Ek|]. intros a _. now rewrite Ei.
    + rewrite lookup_insert_ne by done. apply Hl. apply elem_of_app in Hy as [|Hy%list_elem_of_singleton]; done.
Qed.

(** The second loop, over the blocks of level 1 and up. *)
Definition ud_inv (l : list nat) (o : opt) : Prop :=
  keeps o0 o /\ (forall x, x ∈ C -> exists b, o_heap o !! x = Some b /\ local_ok b) /\
  forall x, x ∈ C -> x ∈ l \/ rank x = O -> live_at (o_heap o) x.

Lemma leaf_live o x b : o_heap o !! x = Some b -> local_ok b -> b_out_use b = 0 -> height_of rank b = O -> closed_block C b ->
  live_at (o_heap o) x.
Proof.
  intros Hb Hl H0 Hr Hc. exists b. split; [done|]. split; [done|]. rewrite H0.
  split; [intros a _ Ha; unfold elem in Ha; now rewrite Z.bits_0 in Ha|]. unfold height_of in Hr.
  destruct Hc as [[Ht Hf]|(t & f & Ht & Hf & _)]; rewrite Ht, ?Hf in Hr; [|done].
  intros [] t bt; cbn; congruence.
Qed.

Lemma ud_step l l1 x l2 o :
  l = l1 ++ x :: l2 -> (forall y, y ∈ l <-> y ∈ C /\ (1 <= rank y)%nat) -> NoDup l ->
  StronglySorted (fun x y => (rank x <= rank y)%nat) l ->
  ud_inv l1 o -> exists o', ud_block o x = ODone o' /\ ud_inv (l1 ++ [x]) o'.
Proof.
  intros -> Hin Hnd Hs (K & Hloc & Hlive). destruct (proj1 (Hin x) ltac:(apply elem_of_app; right; left)) as [Hx Hrx].
  destruct (at_C o x K Hx) as (b & Hb & Hc & _ & Hr). destruct (Hloc x Hx) as (b' & Hb' & Hlok). simplify_eq.
  unfold ud_block. rewrite Hb. cbn [oget mbind oresult_bind]. unfold height_of in Hr.
  destruct Hc as [[Ht Hf]|(t & f & Ht & Hf & HtC & HfC)]; rewrite Ht, ?Hf in Hr; [lia|]. rewrite Ht, Hf.
  destruct (at_C o t K HtC) as (bt & Hbt & _), (at_C o f K HfC) as (bf & Hbf & _).
  cbn [deref oget mbind oresult_bind]. rewrite Hbt. cbn [oget mbind oresult_bind]. rewrite Hbf. cbn [oget mbind oresult_bind].
  set (out_use := b_out_use b ||| (b_in_use bt ||| b_in_use bf)).
  set (in_use := b_in_use b ||| (out_use &&& lnot32 (b_kill b))). eexists. split; [reflexivity|].
  assert (forall y, y ∈ l1 -> (rank y <= rank x)%nat) as Hle by (intros y; exact (sorted_prefix _ l1 x l2 y Hs)).
  assert (keeps o (upd_block (fun b => set_in_use in_use (set_out_use out_use b)) x o)) as K'
    by (apply keeps_update; now repeat split).
  assert (forall y b1, y <> x -> o_heap o !! y = Some b1 ->
    o_heap (upd_block (fun b => set_in_use in_use (set_out_use out_use b)) x o) !! y = Some b1) as Hother.
  { intros y b1 Hne Hy. cbn. now rewrite lookup_alter_ne. }
  assert (o_heap (upd_block (fun b => set_in_use in_use (set_out_use out_use b)) x o) !! x =
    Some (set_in_use in_use (set_out_use out_use b))) as Hself by (cbn; now rewrite lookup_alter_eq, Hb).
  assert (local_ok (set_in_use in_use (set_out_use out_use b))) as Hlok'.
  { destruct Hlok as (bl & El & Ek & Ei).
    destruct (compute_local_same b (set_in_use in_use (set_out_use out_use b)) bl ltac:(now repeat split) El) as (bl' & El' & Ek' & Ei').
    exists bl'. split; [done|]. split; [cbn; congruence|]. intros a Ha. rewrite Ei'. cbn. unfold in_use.
    rewrite elem_lor. left. now apply Ei. }
  split; [etransitivity; eassumption|]. split.
  - intros y Hy. destruct (decide (y = x)) as [->|Hne]; [eauto|]. destruct (Hloc y Hy) as (b1 & Hb1 & ?). eauto.
  - intros y Hy Hyl. destruct (at_C o y K Hy) as (b1 & Hb1 & Hc1 & _ & Hr1). destruct (decide (y = x)) as [->|Hne].
    + exists (set_in_use in_use (set_out_use out_use b)). split; [done|]. split; [done|]. cbn [b_out_use b_kill b_in_use set_in_use set_out_use].
      simplify_eq. split; [intros a Ha Ho Hk; unfold in_use; rewrite elem_lor; right; now apply elem_without|].
      intros side s bs Hs' Hbs a Ha. change (succ_of side b = Some s) in Hs'.
      pose proof (height_succ C rank b side s Hc1 Hs') as Hlt. rewrite <- Hr1 in Hlt.
      destruct (decide (s = x)) as [->|Hsx]; [lia|]. cbn in Hbs. rewrite lookup_alter_ne in Hbs by done.
      unfold out_use. rewrite !elem_lor. right. destruct side; cbn in Hs'; simplify_eq; auto.
    + destruct (Hlive y Hy) as (b2 & Hb2 & Hlk2 & Hio & Hsu).
      { destruct Hyl as [[Hyl|Hyl%list_elem_of_singleton]%elem_of_app|]; auto. congruence. }
      assert (b1 = b2) as -> by congruence. exists b2. split; [now apply Hother|]. split; [done|]. split; [done|].
      intros side s bs Hs' Hbs a Ha. pose proof (height_succ C rank b2 side s Hc1 Hs') as Hlt. rewrite <- Hr1 in Hlt.
      destruct (decide (s = x)) as [->|Hsx].
      * exfalso. destruct Hyl as [[Hyl|Hyl%list_elem_of_singleton]%elem_of_app|Hy0]; [|done|lia].
        specialize (Hle y Hyl). lia.
      * cbn in Hbs. rewrite lookup_alter_ne in Hbs by done. now apply (Hsu side s bs).
Qed.

Lemma find_ud_ok :
  exists o', find_ud o0 root = ODone o' /\ keeps o0 o' /\ forall x, x ∈ C -> live_at (o_heap o') x.
Proof.
  unfold find_ud. pose proof (lv_root _ _ _ _ Hlv) as Hroot. rewrite (level_of_levelled _ _ _ _ Hlv) by done.
  cbn [mbind oresult_bind]. destruct (blocks_down_ok _ _ _ _ Hlv 0 ltac:(lia)) as (l & E & _ & Hin & _).
  change (Z.of_nat 0) with 0 in E. rewrite E. cbn [mbind oresult_bind].
  destruct (ofold_prefix local_inv local_ud_block l o0) as (o1 & -> & K1 & H1).
  { split; [reflexivity|]. intros x Hx. now apply elem_of_nil in Hx. }
  { intros l1 x l2 a -> Hi. apply local_step; [|done]. apply (Hin x), elem_of_app. right. left. }
  cbn [mbind oresult_bind]. pose proof (levelled_keeps _ _ _ _ _ K1 Hlv) as Hlv1.
  destruct (blocks_up_ok _ _ _ _ Hlv1 1 ltac:(lia)) as (l' & E' & Hnd & Hin' & Hs).
  change (Z.of_nat 1) with 1 in E'. rewrite E'. cbn [mbind oresult_bind].
  assert (forall x, x ∈ C -> exists b, o_heap o1 !! x = Some b /\ local_ok b /\ b_out_use b = 0) as H1'.
  { intros x Hx. apply H1, Hin. split; [done|lia]. }
  destruct (ofold_prefix ud_inv ud_block l' o1) as (o2 & -> & K2 & _ & H2).
  { split; [done|]. split; [intros x Hx; destruct (H1' x Hx) as (b & ? & ? & _); eauto|].
    intros x Hx [Hx'|Hr0]; [now apply elem_of_nil in Hx'|]. destruct (H1' x Hx) as (b & Hb & Hlo & H0).
    destruct (at_C o1 x K1 Hx) as (b' & Hb' & Hc & _ & Hr). assert (b' = b) as -> by congruence.
    apply (leaf_live o1 x b); try done. congruence. }
  { intros l1 x l2 a El Hi. now apply (ud_step l' l1 x l2). }
  exists o2. split; [done|]. split; [done|]. intros x Hx. apply H2; [done|]. rewrite Hin'.
  destruct (rank x) eqn:Er; [now right|left; split; [done|lia]].
Qed.
End FindUd.

(** The filter's outcome from a block depends on its live registers alone. *)
Lemma live_run p wirelen buflen fuel h C x r1 r2 :
  closed h C -> (forall x b, x ∈ C -> h !! x = Some b -> wf_block b = true) ->
  (forall x, x ∈ C -> live_at h x) -> x ∈ C ->
  (forall b, h !! x = Some b -> agree (elem (b_in_use b)) r1 r2) ->
  graph_run p wirelen buflen fuel h x r1 = graph_run p wirelen buflen fuel h x r2.
Proof.
  intros Hc Hw Hl. revert x r1 r2. induction fuel as [|fuel IH]; intros x r1 r2 Hx Ha; [done|].
  destruct (Hl x Hx) as (b & Hb & (bl & El & Ek & Ei) & Ho & Hs). cbn [graph_run]. rewrite Hb. specialize (Ha b Hb).
  assert (same_exit (elem (b_out_use b)) (exec_block p wirelen buflen b r1) (exec_block p wirelen buflen b r2)) as He.
  { apply (block_live p wirelen buflen b bl); [done|eauto|]. eapply agree_weaken; [|exact Ha].
    intros a Haa [|[? Hk]]; [apply Ei; [apply Haa|done]|apply Ho; [done..|]; now rewrite Ek]. }
  destruct (exec_block p wirelen buflen b r1) as [s1 r1'|], (exec_block p wirelen buflen b r2) as [s2 r2'|];
    cbn [same_exit] in He; try done; [|now rewrite He].
  destruct He as [<- Hr].
  destruct (succ_of s1 b) as [t|] eqn:Ht; [|done]. destruct (Hc x Hx) as (b' & Hb' & Hcb). assert (b' = b) as -> by congruence.
    apply IH; [now apply (closed_succ C b s1)|]. intros bt Hbt. eapply agree_weaken; [|exact Hr].
    intros a _. now apply (Hs s1 t bt).
Qed.

(** C34: liveness is sound. [find_levels] and then [find_ud] end on a graph without cycles
    whose blocks are straight-line code and comparisons, change no code, and leave at each
    block a set of registers that decides everything: from states that agree on it, the
    filter returns the same on every packet. *)
Theorem find_ud_sound (o : opt) (C : gset nat) (rank : nat -> nat) (root : nat) :
  dag (o_heap o) C rank -> reachable (o_heap o) C root -> (size C <= length (blocks o))%nat ->
  (forall q b, o_heap o !! q = Some b -> b_mark b <= OptState.cur_mark o) ->
  (forall x b, x ∈ C -> o_heap o !! x = Some b -> wf_block b = true) ->
  exists o1 o2, find_levels o root = ODone o1 /\ find_ud o1 root = ODone o2 /\
    same_graph (o_heap o) (o_heap o2) /\
    forall x b p wirelen buflen fuel r1 r2, x ∈ C -> o_heap o2 !! x = Some b -> agree (elem (b_in_use b)) r1 r2 ->
      graph_run p wirelen buflen fuel (o_heap o) x r1 = graph_run p wirelen buflen fuel (o_heap o) x r2.
Proof.
  intros Hd Hr Hn Hm Hw. destruct (dag_height _ _ _ Hd) as (longest & Hh).
  destruct (find_levels_levelled o C longest root (dag_closed _ _ _ Hd) Hh Hr Hn Hm) as (o1 & E1 & R & Hl & _).
  pose proof (relevelled_same _ _ R) as G1.
  assert (forall h x b, same_graph (o_heap o) h -> x ∈ C -> h !! x = Some b -> wf_block b = true) as Hw'.
  { intros h x b G Hx Hb. destruct (same_graph_Some _ _ _ _ (symmetry G) Hb) as (b0 & Hb0 & S).
    rewrite <- (wf_block_same _ _ S). eauto. }
  destruct (find_ud_ok o1 C longest root Hl (fun x b => Hw' _ x b G1)) as (o2 & E2 & K & Hlive).
  assert (same_graph (o_heap o) (o_heap o2)) as G by (transitivity (o_heap o1); [done|now apply keeps_same]).
  exists o1, o2. split; [done|]. split; [done|]. split; [done|].
  intros x b p wirelen buflen fuel r1 r2 Hx Hb Ha. rewrite <- !(same_graph_run _ _ _ _ _ _ _ _ G).
  apply (live_run p wirelen buflen fuel (o_heap o2) C); try done.
  - exact (closed_same _ _ _ G (dag_closed _ _ _ Hd)).
  - intros y by' Hy. exact (Hw' _ y by' G Hy).
  - intros b' Hb'. now simplify_eq.
Qed.

Lemma sample_wf : forall x b, x ∈ (list_to_set (blocks sample_opt) : gset nat) ->
  o_heap sample_opt !! x = Some b -> wf_block b = true.
Proof.
  intros x b _. revert x b. change (map_Forall (fun _ b => wf_block b = true) (o_heap sample_opt)).
  apply (bool_decide_unpack _). vm_compute. exact I.
Qed.

Lemma find_ud_sound_witness :
  exists o1 o2, find_levels sample_opt sample_root = ODone o1 /\ find_ud o1 sample_root = ODone o2 /\
    same_graph (o_heap sample_opt) (o_heap o2) /\
    forall x b p wirelen buflen fuel r1 r2, x ∈ (list_to_set (blocks sample_opt) : gset nat) ->
      o_heap o2 !! x = Some b -> agree (elem (b_in_use b)) r1 r2 ->
      graph_run p wirelen buflen fuel (o_heap sample_opt) x r1 = graph_run p wirelen buflen fuel (o_heap sample_opt) x r2.
Proof.
  apply (find_ud_sound sample_opt _ sample_rank sample_root).
  - exact sample_dag.
  - exact sample_reachable.
  - vm_compute. lia.
  - exact sample_marks.
  - exact sample_wf.
Defined.
