(* ===== verification/OptDead.v ===== *)
(** * Deleting dead assignments (optimize.c)

    [opt_deadstores] keeps a pointer to the last assignment of each register that nothing
    has read yet, and deletes that assignment when the register is assigned again, or at the
    end of the block when the register is not live there. A block that completes does the
    same after it, as far as the branch and the blocks below can tell; with [find_ud] this
    holds for the whole graph. A load outside the packet that is deleted no longer ends the
    filter: the statements of a run must complete. *)
From stdpp Require Import base numbers list gmap.
From Stdlib Require Import Strings.Byte.
From S2P Require Import Prelude BpfInsn BpfFilter Icode Layout LayoutProofs.
From S2P Require Import OptState OptFlow OptValue OptBlock OptLoop OptGraph OptLevels OptLive.
Open Scope Z_scope.

(** ** Deleting one assignment *)

Definition everywhere (a : Z) : Prop := True.

Lemma plains_app l1 l2 : plains (l1 ++ l2) <-> plains l1 /\ plains l2.
Proof.
  unfold plains. split; [intros H; split; intros s Hs; apply H, elem_of_app; auto|].
  intros [H1 H2] s [|]%elem_of_app; auto.
Qed.

Lemma plains_cons s l : plains (s :: l) <-> plain s = true /\ plains l.
Proof.
  unfold plains. split; [intros H; split; [apply H; left|intros x Hx; apply H; now right]|].
  intros [H1 H2] x [->|]%elem_of_cons; auto.
Qed.

Lemma plain_nop s : plain (s_nop s) = true.
Proof. reflexivity. Qed.

Definition reads_not (a : Z) (l : list stmt) : Prop := forall s, s ∈ l -> s_code s <> NOP -> ~ uses s a.

(** What a list does, another does too, as far as [P] can tell. *)
Definition simulates (P : Z -> Prop) (l l' : list stmt) : Prop :=
  forall p wirelen buflen r r1, exec_list p wirelen buflen l r = inl r1 ->
    exists r2, exec_list p wirelen buflen l' r = inl r2 /\ agree P r1 r2.

Lemma simulates_refl P l : simulates P l l.
Proof. intros p wirelen buflen r r1 H. exists r1. split; [done|apply agree_refl]. Qed.

Lemma simulates_trans P l1 l2 l3 : simulates P l1 l2 -> simulates P l2 l3 -> simulates P l1 l3.
Proof.
  intros H1 H2 p wirelen buflen r r1 E. destruct (H1 _ _ _ _ _ E) as (r2 & E2 & A2).
  destruct (H2 _ _ _ _ _ E2) as (r3 & E3 & A3). exists r3. split; [done|]. now apply (agree_trans _ _ r2).
Qed.

Lemma simulates_weaken (P Q : Z -> Prop) l l' :
  (forall a, is_atom a -> P a -> Q a) -> simulates Q l l' -> simulates P l l'.
Proof.
  intros H HQ p wirelen buflen r r1 E. destruct (HQ _ _ _ _ _ E) as (r2 & E2 & A2). exists r2.
  split; [done|]. now apply (agree_weaken _ Q).
Qed.

(** Up to the end of [l2], only the register of the deleted assignment differs. *)
Lemma delete_differs a l1 s l2 :
  plains (s :: l2) -> s_code s <> NOP -> atomdef s = a -> reads_not a l2 ->
  simulates (fun b => b <> a) (l1 ++ s :: l2) (l1 ++ s_nop s :: l2).
Proof.
  intros Hp Hs Ha Hr p wirelen buflen r r1. apply plains_cons in Hp as [Hps Hp2]. rewrite !exec_list_app.
  destruct (exec_list p wirelen buflen l1 r) as [ra|]; [|done]. cbn [exec_list]. change (s_code (s_nop s) =? NOP) with true.
  destruct (Z.eqb_spec (s_code s) NOP); [done|]. destruct (exec_insn _ _ _ _ ra) as [d rb|] eqn:E; [|done].
  destruct (exec_writes p wirelen buflen s ra d rb Hps Hs E) as [-> Hw]. cbn [Z.eqb]. intros E1.
  pose proof (exec_list_agree p wirelen buflen (fun b => b <> a) l2 rb ra Hp2) as He. rewrite E1 in He.
  destruct (exec_list p wirelen buflen l2 ra) as [r2|]; cbn [same_end] in He.
  - exists r2. split; [done|]. apply He; [intros x b Hx Hn Hu ->; exact (Hr x Hx Hn Hu)|]. apply agree_sym.
    eapply agree_weaken; [|exact Hw]. unfold defs. intros b _ Hb. congruence.
  - destruct He; [intros x b Hx Hn Hu ->; exact (Hr x Hx Hn Hu)|]. apply agree_sym.
    eapply agree_weaken; [|exact Hw]. unfold defs. intros b _ Hb. congruence.
Qed.

(** When the register is assigned again, nothing differs. *)
Lemma delete_redefined a l1 s l2 s' l3 :
  plains (s :: l2) -> plains (s' :: l3) -> s_code s <> NOP -> atomdef s = a -> reads_not a l2 ->
  s_code s' <> NOP -> ~ uses s' a -> atomdef s' = a ->
  simulates everywhere (l1 ++ s :: l2 ++ s' :: l3) (l1 ++ s_nop s :: l2 ++ s' :: l3).
Proof.
  intros Hp Hp' Hs Ha Hr Hs' Hu' Ha' p wirelen buflen r r1. apply plains_cons in Hp' as [Hps' Hp3].
  rewrite !app_comm_cons, !app_assoc, !(exec_list_app _ _ _ (l1 ++ _)).
  pose proof (delete_differs a l1 s l2 Hp Hs Ha Hr p wirelen buflen r) as Hd.
  destruct (exec_list p wirelen buflen (l1 ++ s :: l2) r) as [ra|]; [|done].
  destruct (Hd ra eq_refl) as (rb & -> & Hab). cbn [exec_list]. destruct (Z.eqb_spec (s_code s') NOP); [done|].
  pose proof (exec_agree p wirelen buflen (fun b => b <> a) s' ra rb Hps' Hs') as He.
  assert (agree (fun b => b <> a \/ uses s' b) ra rb) as Hab'.
  { eapply agree_weaken; [|exact Hab]. intros b _ [|Hu]; [done|]. now intros ->. }
  specialize (He Hab').
  destruct (exec_insn p wirelen buflen (insn_of_stmt s') ra) as [d1 ra'|], (exec_insn p wirelen buflen (insn_of_stmt s') rb) as [d2 rb'|];
    cbn [same_step] in He; try done.
  destruct He as (-> & -> & He). cbn [Z.eqb]. intros E.
  pose proof (exec_list_agree p wirelen buflen everywhere l3 ra' rb' Hp3 (fun _ _ _ _ _ => I)) as H3. rewrite E in H3.
  assert (agree everywhere ra' rb') as Hall.
  { eapply agree_weaken; [|exact He]. intros b _ _. unfold defs. destruct (decide (b = a)) as [->|]; auto. }
  specialize (H3 Hall). destruct (exec_list p wirelen buflen l3 rb') as [r2|]; cbn [same_end] in H3; [eauto|done].
Qed.

(** ** The pass over the block *)

Lemma alter_middle {A} (f : A -> A) l1 x l2 : alter f (length l1) (l1 ++ x :: l2) = l1 ++ f x :: l2.
Proof. now rewrite <- (Nat.add_0_r (length l1)), alter_app_r. Qed.

(** A live pointer: the statement it points to assigns its register, and nothing before
    position [i] reads it since. *)
Definition last_ok (body : list stmt) (i : nat) (a j : nat) : Prop :=
  (j < i)%nat /\ exists l1 s l2, body = l1 ++ s :: l2 /\ length l1 = j /\ s_code s <> NOP /\ atomdef s = Z.of_nat a /\
    reads_not (Z.of_nat a) (take (i - S j) l2).

Record dead_inv (P : Z -> Prop) (l0 : list stmt) (br : stmt) (i : nat) (x : dead) (body : list stmt) : Prop := {
  di_ss : d_ss x = body ++ [br];
  di_len : length body = length l0;
  di_last : length (d_last x) = Z.to_nat N_ATOMS;
  di_plain : plains body;
  di_sim : simulates P l0 body;
  di_rest : drop i body = drop i l0
}.

(** The pointers. *)
Definition lasts_ok (body : list stmt) (i : nat) (x : dead) : Prop :=
  forall a j, d_last x !! a = Some (Some j) -> last_ok body i a j.

(** Reading registers forgets their pointers. *)
Lemma dead_use_ok n x :
  length (d_last x) = Z.to_nat N_ATOMS -> n <= AX_ATOM ->
  exists x', dead_use n x = ODone x' /\ d_ss x' = d_ss x /\ d_done x' = d_done x /\ length (d_last x') = length (d_last x) /\
    forall a j, d_last x' !! a = Some (Some j) -> d_last x !! a = Some (Some j) /\ ~ read_as n (Z.of_nat a).
Proof.
  intros Hl Hn.
  assert (forall y b, length (d_last y) = Z.to_nat N_ATOMS -> 0 <= b < N_ATOMS -> exists y', last_set b None y = ODone y' /\
    d_ss y' = d_ss y /\ d_done y' = d_done y /\ length (d_last y') = length (d_last y) /\
    forall a j, d_last y' !! a = Some (Some j) -> d_last y !! a = Some (Some j) /\ b <> Z.of_nat a) as Hset.
  { intros y b Hy Hb. unfold last_set, last_at. destruct (at_Z_Some (d_last y) b ltac:(lia)) as [v ->]. cbn.
    eexists. split; [reflexivity|]. cbn. rewrite length_insert. split; [done|]. split; [done|]. split; [done|].
    intros a j. destruct (decide (a = Z.to_nat b)) as [->|Hne].
    - rewrite list_lookup_insert_eq by lia. discriminate.
    - rewrite list_lookup_insert_ne by done. intros Ha. split; [done|lia]. }
  unfold dead_use, read_as. destruct (Z.ltb_spec n 0).
  { exists x. split; [done|]. split; [done|]. split; [done|]. split; [done|]. intros a j Ha. split; [done|].
    unfold AX_ATOM, N_ATOMS, BPF_MEMWORDS. lia. }
  destruct (Z.eqb_spec n AX_ATOM) as [->|Hne].
  - destruct (Hset x X_ATOM Hl ltac:(done)) as (x1 & -> & E1 & F1 & L1 & H1). cbn [mbind oresult_bind].
    destruct (Hset x1 A_ATOM ltac:(congruence) ltac:(done)) as (x2 & -> & E2 & F2 & L2 & H2).
    exists x2. split; [done|]. split; [congruence|]. split; [congruence|]. split; [congruence|].
    intros a j Ha. destruct (H2 a j Ha) as [Ha1 Hn1]. destruct (H1 a j Ha1) as [Ha2 Hn2]. split; [done|].
    intros [Hax|[_ [E|E]]]; [|congruence..]. apply lookup_lt_Some in Ha. rewrite L2, L1, Hl in Ha. unfold AX_ATOM in Hax. lia.
  - destruct (Hset x n Hl) as (x1 & E & E1 & F1 & L1 & H1); [unfold AX_ATOM in *; lia|]. exists x1.
    split; [done|]. split; [done|]. split; [done|]. split; [done|]. intros a j Ha. destruct (H1 a j Ha).
    split; [done|]. intros [|[]]; done.
Qed.

Lemma reads_not_snoc a l s : reads_not a l -> (s_code s <> NOP -> ~ uses s a) -> reads_not a (l ++ [s]).
Proof. intros Hl Hs x [| ->%list_elem_of_singleton]%elem_of_app; auto. Qed.

(** A pointer stays good when the next statement does not read the register. *)
Lemma last_ok_next body i a j s :
  body !! i = Some s -> (s_code s <> NOP -> ~ uses s (Z.of_nat a)) -> last_ok body i a j -> last_ok body (S i) a j.
Proof.
  intros Hs Hu (Hj & l1 & s0 & l2 & -> & <- & Hn & Hd & Hr). split; [lia|]. exists l1, s0, l2.
  repeat split; try done. rewrite lookup_app_r in Hs by lia.
  destruct (i - length l1)%nat as [|m] eqn:Em; [lia|]. cbn in Hs.
  replace (S i - S (length l1))%nat with (S m) by lia. replace (i - S (length l1))%nat with m in Hr by lia.
  rewrite (take_S_r _ _ s) by done. now apply reads_not_snoc.
Qed.

Lemma reads_not_nop a l1 s l2 k :
  reads_not a (take k (l1 ++ s :: l2)) -> reads_not a (take k (l1 ++ s_nop s :: l2)).
Proof.
  intros H x Hx Hn. rewrite take_app in Hx. apply elem_of_app in Hx as [Hx|Hx].
  - apply H; [|done]. rewrite take_app. apply elem_of_app. now left.
  - destruct (k - length l1)%nat as [|m] eqn:Em; [now apply elem_of_nil in Hx|]. cbn in Hx.
    apply elem_of_cons in Hx as [->|Hx]; [done|]. apply H; [|done]. rewrite take_app, Em.
    apply elem_of_app. right. cbn. now right.
Qed.

(** A pointer stays good when another assignment is deleted. *)
Lemma last_ok_delete body i a j l1 s l2 :
  body = l1 ++ s :: l2 -> length l1 <> j -> last_ok body i a j -> last_ok (l1 ++ s_nop s :: l2) i a j.
Proof.
  intros -> Hne (Hj & m1 & s0 & m2 & E & <- & Hn & Hd & Hr). split; [done|].
  destruct (decide (length l1 < length m1)%nat) as [Hlt|Hge].
  - apply app_eq_inv in E as [(k & -> & E)|(k & -> & E)]; [rewrite length_app in Hlt; lia|].
    destruct k as [|y k]; [rewrite app_nil_r in Hlt; lia|]. injection E as <- ->.
    exists (l1 ++ s_nop s :: k), s0, m2. rewrite <- app_assoc. split; [done|].
    split; [rewrite !length_app; done|done].
  - apply app_eq_inv in E as [(k & -> & E)|(k & -> & E)].
    + destruct k as [|y k]; [rewrite app_nil_r in Hne; done|]. injection E as <- ->.
      exists m1, s0, (k ++ s_nop s :: l2). rewrite <- app_assoc. split; [done|]. split; [done|]. split; [done|].
      split; [done|]. now apply reads_not_nop.
    + destruct k as [|y k]; [|rewrite length_app in Hge; cbn in Hge; lia]. rewrite app_nil_r in Hne. done.
Qed.

Lemma dead_inv_lookup P l0 br i x body :
  dead_inv P l0 br i x body -> (i < length l0)%nat ->
  exists s l1 l2, d_ss x !! i = Some s /\ body = l1 ++ s :: l2 /\ length l1 = i /\ plain s = true.
Proof.
  intros I Hi. destruct (lookup_lt_is_Some_2 body i) as [s Hs]; [rewrite (di_len _ _ _ _ _ _ I); lia|].
  destruct (list_elem_of_split_length body i s Hs) as (l1 & l2 & E & Hl). exists s, l1, l2.
  rewrite (di_ss _ _ _ _ _ _ I), lookup_app_l by (apply lookup_lt_Some in Hs; done).
  split; [done|]. split; [done|]. split; [done|]. apply (di_plain _ _ _ _ _ _ I). now apply list_elem_of_lookup_2 with i.
Qed.

(** Storing a pointer. *)
Lemma lasts_ok_set body i a s l1 l2 x :
  body = l1 ++ s :: l2 -> length l1 = i -> s_code s <> NOP -> atomdef s = Z.of_nat a -> (a < length (d_last x))%nat ->
  (forall b j, b <> a -> d_last x !! b = Some (Some j) -> last_ok body (S i) b j) ->
  exists x', last_set (Z.of_nat a) (Some i) x = ODone x' /\ d_ss x' = d_ss x /\ length (d_last x') = length (d_last x) /\
    lasts_ok body (S i) x'.
Proof.
  intros -> <- Hs Ha Hlt Hb. unfold last_set, last_at. rewrite at_Z_of_nat.
  destruct (lookup_lt_is_Some_2 _ _ Hlt) as [v ->]. cbn. eexists. split; [reflexivity|]. cbn. rewrite Nat2Z.id, length_insert.
  split; [done|]. split; [done|]. intros b j. cbn. destruct (decide (b = a)) as [->|Hne].
  - rewrite list_lookup_insert_eq by done. intros [= <-]. split; [lia|]. exists l1, s, l2.
    split; [done|]. split; [done|]. split; [done|]. split; [done|]. rewrite Nat.sub_diag. intros y Hy. now apply elem_of_nil in Hy.
  - rewrite list_lookup_insert_ne by done. auto.
Qed.

(** Deleting an assignment that is made again. *)
Lemma delete_step P l0 br i x body a j s l1 l2 :
  dead_inv P l0 br i x body -> body = l1 ++ s :: l2 -> length l1 = i -> s_code s <> NOP -> atomdef s = Z.of_nat a ->
  ~ uses s (Z.of_nat a) -> last_ok body i a j ->
  exists body' m1 s0 m2, body = m1 ++ s0 :: m2 /\ body' = m1 ++ s_nop s0 :: m2 /\ length m1 = j /\ atomdef s0 = Z.of_nat a /\
    dead_inv P l0 br (S i) (delete_stmt j x) body' /\ exists l1', body' = l1' ++ s :: l2 /\ length l1' = i.
Proof.
  intros I E Hi Hs Ha Hu (Hj & m1 & s0 & m2 & E0 & Hm & Hn0 & Ha0 & Hr0).
  assert (exists k, l1 = m1 ++ s0 :: k /\ m2 = k ++ s :: l2) as (k & -> & ->).
  { rewrite E in E0. apply app_eq_inv in E0 as [(k & -> & E0)|(k & -> & E0)]; [|rewrite length_app in Hm; lia].
    destruct k as [|y k]; [rewrite app_nil_r in Hi; lia|]. injection E0 as <- ->. eauto. }
  pose proof (di_plain _ _ _ _ _ _ I) as Hp. rewrite E0 in Hp. apply plains_app in Hp as [Hp1 Hp2].
  assert (length k = i - S j)%nat as Hk by (rewrite length_app in Hi; cbn in Hi; lia).
  rewrite <- Hk, take_app_length in Hr0.
  exists (m1 ++ s_nop s0 :: k ++ s :: l2), m1, s0, (k ++ s :: l2).
  split; [done|]. split; [done|]. split; [done|]. split; [done|]. split.
  - apply plains_cons in Hp2 as [Hp0 Hp2]. apply plains_app in Hp2 as [Hpk Hps]. pose proof I as [I1 I2 I3 I4 I5 I6]. split.
    + cbn. rewrite I1, E0, <- app_assoc. cbn. rewrite <- Hm, alter_middle. now rewrite <- (app_assoc m1).
    + rewrite <- I2, E0, !length_app. done.
    + done.
    + apply plains_app. split; [done|]. apply plains_cons. split; [apply plain_nop|]. now apply plains_app.
    + apply (simulates_trans _ _ body); [done|]. rewrite E0. apply (simulates_weaken _ everywhere); [done|].
      apply (delete_redefined (Z.of_nat a)); try done. now apply plains_cons.
    + assert (drop (S i) l0 = l2) as ->.
      { replace (S i) with (i + 1)%nat by lia. rewrite <- drop_drop, <- I6, E, drop_app_length' by done. done. }
      rewrite app_comm_cons, app_assoc, (drop_app_ge _ _ (S i)) by (rewrite length_app in *; cbn in *; lia).
      replace (S i - length (m1 ++ s_nop s0 :: k))%nat with 1%nat by (rewrite length_app in *; cbn in *; lia). done.
  - exists (m1 ++ s_nop s0 :: k). rewrite <- app_assoc. split; [done|]. rewrite length_app in *. cbn in *. done.
Qed.

Lemma uses_read_as s a : uses s a <-> read_as (atomuse s) a.
Proof. reflexivity. Qed.

Lemma atom_nop s : s_code s = NOP -> atomuse s = -1 /\ atomdef s = -1.
Proof. unfold atomuse, atomdef. now intros ->. Qed.

Lemma dead_def_neg a i x : a < 0 -> dead_def a i x = ODone x.
Proof. intros Ha. unfold dead_def. destruct (Z.ltb_spec a 0); [done|lia]. Qed.

Lemma dead_inv_same P l0 br i x x' body :
  dead_inv P l0 br i x body -> d_ss x' = d_ss x -> length (d_last x') = length (d_last x) -> dead_inv P l0 br i x' body.
Proof. intros [I1 I2 I3 I4 I5 I6] E L. split; try done; congruence. Qed.

Lemma seq_split n m1 i m2 : seq 0 n = m1 ++ i :: m2 -> i = length m1 /\ (i < n)%nat.
Proof.
  intros Es. assert (seq 0 n !! length m1 = Some i) as Hi.
  { rewrite Es, lookup_app_r by lia. now rewrite Nat.sub_diag. }
  rewrite lookup_seq in Hi. lia.
Qed.

Lemma dead_inv_next P l0 br i x x' body :
  dead_inv P l0 br i x body -> d_ss x' = d_ss x -> length (d_last x') = length (d_last x) -> dead_inv P l0 br (S i) x' body.
Proof.
  intros [I1 I2 I3 I4 I5 I6] E L. split; try done; [congruence..|].
  replace (S i) with (i + 1)%nat by lia. now rewrite <- !drop_drop, I6.
Qed.

Lemma deadstmt_step P l0 br i x body :
  dead_inv P l0 br i x body -> lasts_ok body i x -> (i < length l0)%nat ->
  exists x' body', deadstmt x i = ODone x' /\ dead_inv P l0 br (S i) x' body' /\ lasts_ok body' (S i) x'.
Proof.
  intros I Hlo Hi. destruct (dead_inv_lookup _ _ _ _ _ _ I Hi) as (s & l1 & l2 & Hs & E & Hl & Hp).
  unfold deadstmt. rewrite Hs. cbn [oget mbind oresult_bind].
  assert (body !! i = Some s) as Hbi by (rewrite E, lookup_app_r by lia; now replace (i - length l1)%nat with O by lia).
  destruct (Z.eqb_spec (s_code s) NOP) as [Hn|Hn].
  { destruct (atom_nop s Hn) as [-> ->]. cbn. exists x, body. split; [done|].
    split; [now apply dead_inv_next with x|]. intros a j Ha. eapply last_ok_next; eauto. }
  destruct (plain_atoms s Hp Hn) as [Hu Hd].
  destruct (dead_use_ok (atomuse s) x (di_last _ _ _ _ _ _ I) Hu) as (x1 & -> & E1 & _ & L1 & H1). cbn [mbind oresult_bind].
  assert (forall a j, d_last x1 !! a = Some (Some j) -> last_ok body i a j /\ last_ok body (S i) a j) as Hlo1.
  { intros a j Ha. destruct (H1 a j Ha) as [Ha0 Hna]. split; [now apply Hlo|]. eapply last_ok_next; [exact Hbi| |now apply Hlo].
    intros _. now rewrite uses_read_as. }
  unfold dead_def. destruct (Z.ltb_spec (atomdef s) 0).
  { exists x1, body. split; [done|]. split; [now apply dead_inv_next with x|]. intros a j Ha. now apply Hlo1. }
  destruct (Z_of_nat_complete (atomdef s)) as [a Ea]; [done|]. rewrite Ea. unfold last_at. rewrite at_Z_of_nat.
  assert (a < length (d_last x1))%nat as Hlt by (rewrite L1, (di_last _ _ _ _ _ _ I); lia).
  destruct (lookup_lt_is_Some_2 _ _ Hlt) as [v Hv]. rewrite Hv. cbn [oget mbind oresult_bind]. destruct v as [j|].
  - destruct (Hlo1 a j Hv) as [Hlj _]. destruct (H1 a j Hv) as [_ Hna].
    pose proof (dead_inv_same _ _ _ _ _ _ _ I E1 L1) as I1.
    destruct (delete_step P l0 br i x1 body a j s l1 l2 I1 E Hl Hn Ea ltac:(now rewrite uses_read_as) Hlj)
      as (body' & m1 & s0 & m2 & Eb & Eb' & Hm & Hd0 & I' & l1' & E' & Hl').
    destruct (lasts_ok_set body' i a s l1' l2 (delete_stmt j x1) E' Hl' Hn Ea Hlt) as (x2 & E2 & S2 & L2 & H2).
    { intros b k Hne Hb. cbn in Hb. rewrite Eb'. eapply last_ok_delete; [exact Eb| |now apply Hlo1].
      intros Hk. destruct (proj1 (Hlo1 b _ Hb)) as (_ & n1 & t & n2 & En & Hln & _ & Hdt & _).
      rewrite Eb in En. apply app_inj_1 in En as [-> En]; [|congruence]. injection En as -> ->. rewrite Hdt in Hd0. lia. }
    exists x2, body'. split; [exact E2|]. split; [|done]. now apply (dead_inv_same _ _ _ _ _ _ _ I').
  - destruct (lasts_ok_set body i a s l1 l2 x1 E Hl Hn Ea Hlt) as (x2 & E2 & S2 & L2 & H2).
    { intros b k Hne Hb. now apply Hlo1. }
    exists x2, body. split; [exact E2|]. split; [|done]. apply dead_inv_next with x; [done|congruence..].
Qed.

Lemma deadstmts_ok P l0 br x body n :
  dead_inv P l0 br 0 x body -> lasts_ok body 0 x -> (n <= length l0)%nat ->
  exists x' body', ofold deadstmt x (seq 0 n) = ODone x' /\ dead_inv P l0 br n x' body' /\ lasts_ok body' n x'.
Proof.
  intros I Hlo Hn.
  destruct (ofold_prefix (fun l x => exists body, dead_inv P l0 br (length l) x body /\ lasts_ok body (length l) x)
    deadstmt (seq 0 n) x) as (x' & E & body' & I' & Hlo').
  - exists body. done.
  - intros m1 i m2 y Es (b & Ib & Hb). destruct (seq_split _ _ _ _ Es) as [-> Hlt].
    destruct (deadstmt_step P l0 br _ y b Ib Hb ltac:(lia)) as (y' & b' & E & I' & H'). exists y'. split; [done|].
    exists b'. rewrite length_app, Nat.add_comm. done.
  - rewrite length_seq in *. eauto.
Qed.

(** The end of the block. *)
Lemma exit_step (P : Z -> Prop) l0 br x body a out :
  dead_inv P l0 br (length l0) x body ->
  (forall b j, (a <= b)%nat -> d_last x !! b = Some (Some j) -> last_ok body (length l0) b j) ->
  (a < Z.to_nat N_ATOMS)%nat -> (forall b j, d_last x !! b = Some (Some j) -> P (Z.of_nat b) -> elem out (Z.of_nat b)) ->
  exists x' body', dead_at_exit out x a = ODone x' /\ d_last x' = d_last x /\ dead_inv P l0 br (length l0) x' body' /\
    forall b j, (S a <= b)%nat -> d_last x' !! b = Some (Some j) -> last_ok body' (length l0) b j.
Proof.
  intros I Hlo Ha Hout. unfold dead_at_exit, last_at. rewrite at_Z_of_nat.
  destruct (lookup_lt_is_Some_2 (d_last x) a) as [v Hv]; [now rewrite (di_last _ _ _ _ _ _ I)|]. rewrite Hv.
  cbn [oget mbind oresult_bind]. destruct v as [j|].
  2: { exists x, body. split; [done|]. split; [done|]. split; [done|]. intros b k Hb. apply Hlo. lia. }
  destruct (ATOMELEM out (Z.of_nat a)) eqn:Eo.
  { exists x, body. split; [done|]. split; [done|]. split; [done|]. intros b k Hb. apply Hlo. lia. }
  destruct (Hlo a j ltac:(lia) Hv) as (Hj & m1 & s0 & m2 & E0 & Hm & Hn0 & Ha0 & Hr0). pose proof I as [I1 I2 I3 I4 I5 I6].
  exists (delete_stmt j x), (m1 ++ s_nop s0 :: m2). split; [done|]. split; [done|].
  assert (length m2 = length l0 - S j)%nat as Hl2 by (rewrite <- I2, E0, length_app; cbn; lia).
  rewrite <- Hl2, take_ge in Hr0 by lia. rewrite E0 in I4. apply plains_app in I4 as [Hp1 Hp2].
  split; [split|].
  - cbn. rewrite I1, E0, <- app_assoc. cbn. rewrite <- Hm, alter_middle. now rewrite <- (app_assoc m1).
  - rewrite <- I2, E0, !length_app. done.
  - done.
  - apply plains_app. split; [done|]. apply plains_cons in Hp2 as [_ Hp2]. apply plains_cons. split; [apply plain_nop|done].
  - apply (simulates_trans _ _ body); [done|]. rewrite E0.
    apply (simulates_weaken _ (fun b => b <> Z.of_nat a)); [|now apply delete_differs].
    intros b _ HP ->. specialize (Hout a j Hv HP). rewrite ATOMELEM_testbit in Eo by lia. unfold elem in Hout. congruence.
  - rewrite !drop_ge; [done|lia|]. rewrite <- I2, E0, !length_app. cbn. lia.
  - intros b k Hb Hbk. cbn in Hbk. eapply last_ok_delete; [exact E0| |apply Hlo; [lia|done]].
    intros Hjk. destruct (Hlo b k ltac:(lia) Hbk) as (_ & n1 & t & n2 & En & Hln & _ & Hdt & _).
    rewrite E0 in En. apply app_inj_1 in En as [-> En]; [|lia]. injection En as -> ->. rewrite Hdt in Ha0. lia.
Qed.

Lemma exits_ok (P : Z -> Prop) l0 br x body out :
  dead_inv P l0 br (length l0) x body -> lasts_ok body (length l0) x ->
  (forall b j, d_last x !! b = Some (Some j) -> P (Z.of_nat b) -> elem out (Z.of_nat b)) ->
  exists x' body', ofold (dead_at_exit out) x (seq 0 (Z.to_nat N_ATOMS)) = ODone x' /\ dead_inv P l0 br (length l0) x' body'.
Proof.
  intros I Hlo Hout. set (n := Z.to_nat N_ATOMS).
  destruct (ofold_prefix (fun l x' => d_last x' = d_last x /\ exists body, dead_inv P l0 br (length l0) x' body /\
    forall b j, (length l <= b)%nat -> d_last x' !! b = Some (Some j) -> last_ok body (length l0) b j)
    (dead_at_exit out) (seq 0 n) x) as (x' & E & _ & body' & I' & _); [|..|eauto].
  - split; [done|]. exists body. split; [done|]. intros b j _. apply Hlo.
  - intros m1 i m2 y Es (Ey & b & Ib & Hb). assert (i = length m1) as ->.
    { assert (seq 0 n !! length m1 = Some i) as Hi by (rewrite Es; now rewrite lookup_app_r, Nat.sub_diag by lia).
      rewrite lookup_seq in Hi. lia. }
    assert (length m1 < n)%nat as Hlt.
    { assert (length (seq 0 n) = length (m1 ++ length m1 :: m2)) as El by now rewrite Es.
      rewrite length_seq, length_app in El. cbn in El. lia. }
    destruct (exit_step P l0 br y b (length m1) out Ib Hb Hlt) as (y' & b' & E & Ey' & I' & H'); [now rewrite Ey|].
    exists y'. split; [done|]. split; [congruence|]. exists b'. rewrite length_app, Nat.add_comm. done.
Qed.

Lemma wf_branch_atoms s : wf_branch s = true -> atomuse s <= AX_ATOM /\ atomdef s = -1.
Proof.
  unfold wf_branch. destruct (decode_op (s_code s)) as [o|] eqn:E; [|done]. apply decode_op_Some in E.
  rewrite (atomuse_op s o E), (atomdef_op s o E).
  destruct o as [| | | | | | | | | | | | | |op [|]| | | |]; try discriminate; (split; [|done]);
    cbn; unfold A_ATOM, AX_ATOM, N_ATOMS, BPF_MEMWORDS; lia.
Qed.

Lemma put_codes_ok body b :
  length body = length (b_stmts b) ->
  sn_s <$> b_stmts (put_codes (body ++ [b_s b]) b) = body /\ b_s (put_codes (body ++ [b_s b]) b) = b_s b.
Proof.
  intros Hl. unfold put_codes. cbn [b_stmts b_s set_s set_stmts]. rewrite <- Hl, lookup_app_r, Nat.sub_diag by lia.
  split; [|done]. rewrite take_app_length.
  revert body Hl. generalize (b_stmts b) as ss. induction ss as [|n ss IH]; intros [|s body] Hl; try discriminate; [done|].
  cbn. f_equal. apply IH. cbn in Hl. lia.
Qed.

(** [opt_deadstores] succeeds on a block it can analyse, and leaves everything but the
    statements alone; these end, when they complete, with the same in all registers the
    branch and the blocks below depend on. *)
Lemma opt_deadstores_ok b d :
  wf_block b = true ->
  exists b' d', opt_deadstores (b, d) = ODone (b', d') /\ b_s b' = b_s b /\ (forall side, succ_of side b' = succ_of side b) /\
    simulates (needs b (elem (b_out_use b))) (sn_s <$> b_stmts b) (sn_s <$> b_stmts b').
Proof.
  intros Hwf. apply wf_block_plains in Hwf as [Hp Hb]. set (l0 := sn_s <$> b_stmts b). unfold opt_deadstores. fold l0.
  set (P := needs b (elem (b_out_use b))). set (x0 := mk_dead (l0 ++ [b_s b]) (replicate (Z.to_nat N_ATOMS) None) d).
  assert (dead_inv P l0 (b_s b) 0 x0 l0) as I0.
  { split; try done. apply simulates_refl. }
  assert (lasts_ok l0 0 x0) as Hlo0.
  { intros a j Ha. cbn in Ha. apply lookup_replicate in Ha as [Ha _]. discriminate. }
  destruct (deadstmts_ok P l0 (b_s b) x0 l0 (length l0) I0 Hlo0 ltac:(done)) as (x1 & body1 & E1 & I1 & H1).
  rewrite length_app. cbn [length]. rewrite Nat.add_comm, seq_S. cbn [Nat.add].
  assert (forall f (a : dead) l1 l2, ofold f a (l1 ++ l2) = a' ← ofold f a l1; @ofold dead nat f a' l2) as ofold_app.
  { intros f a l1 l2. revert a. induction l1 as [|y l1 IH]; intros a; [done|]. cbn. destruct (f a y); cbn; [apply IH|done..]. }
  rewrite ofold_app, E1. cbn [mbind oresult_bind ofold].
  destruct (wf_branch_atoms _ Hb) as [Hu Hd]. unfold deadstmt.
  assert (d_ss x1 !! length l0 = Some (b_s b)) as ->.
  { rewrite (di_ss _ _ _ _ _ _ I1), lookup_app_r; rewrite (di_len _ _ _ _ _ _ I1); [now rewrite Nat.sub_diag|lia]. }
  cbn [oget mbind oresult_bind].
  destruct (dead_use_ok (atomuse (b_s b)) x1 (di_last _ _ _ _ _ _ I1) Hu) as (x2 & -> & E2 & _ & L2 & H2).
  cbn [mbind oresult_bind]. rewrite dead_def_neg by lia. cbn [mbind oresult_bind].
  destruct (exits_ok P l0 (b_s b) x2 body1 (b_out_use b)) as (x3 & body3 & -> & I3).
  - now apply (dead_inv_same _ _ _ _ x1).
  - intros a j Ha. destruct (H2 a j Ha) as [Ha1 _]. now apply H1.
  - intros a j Ha [HP|HP]; [done|]. destruct (H2 a j Ha) as [_ Hn]. contradiction.
  - cbn [mbind oresult_bind]. rewrite (di_ss _ _ _ _ _ _ I3). do 2 eexists. split; [reflexivity|].
    destruct (put_codes_ok body3 b) as [-> ->]; [rewrite (di_len _ _ _ _ _ _ I3); unfold l0; now rewrite length_fmap|].
    split; [done|]. split; [now intros []|]. exact (di_sim _ _ _ _ _ _ I3).
Qed.

(** ** The whole graph *)

(** A run in which the statements of every block complete: no load fails, and no division
    by zero ends the filter. *)
Fixpoint full_run (p : list byte) (wirelen buflen : Z) (fuel : nat) (h : heap) (q : nat) (r : regs) : option outcome :=
  match fuel with
  | O => None
  | S n =>
      match h !! q with
      | None => None
      | Some b =>
          match exec_stmts p wirelen buflen (b_stmts b) r with
          | inr _ => None
          | inl r =>
              match exec_branch (b_s b) r with
              | Done o => Some o
              | Leave side r =>
                  match succ_of side b with
                  | Some q' => full_run p wirelen buflen n h q' r
                  | None => None
                  end
              end
          end
      end
  end.

(** A full run is a run. *)
Lemma full_run_graph_run p wirelen buflen fuel h q r o :
  full_run p wirelen buflen fuel h q r = Some o -> graph_run p wirelen buflen fuel h q r = Some o.
Proof.
  revert q r. induction fuel as [|fuel IH]; intros q r; [done|]. cbn. destruct (h !! q) as [b|]; [|done].
  unfold exec_block. destruct (exec_stmts _ _ _ _ _) as [r1|]; [|done].
  destruct (exec_branch _ _) as [side r2|]; [|done]. destruct (succ_of side b); [apply IH|done].
Qed.

Lemma same_graph_full p wirelen buflen fuel h h' q r :
  same_graph h h' -> full_run p wirelen buflen fuel h' q r = full_run p wirelen buflen fuel h q r.
Proof.
  intros H. revert q r. induction fuel as [|fuel IH]; intros q r; cbn [full_run]; [done|].
  pose proof (H q) as Hq. destruct Hq as [b b' Hb|]; [|done]. pose proof Hb as (-> & -> & _).
  destruct (exec_stmts _ _ _ _ _) as [r1|]; [|done]. destruct (exec_branch _ _) as [side r2|]; [|done].
  rewrite (same_code_succ _ _ _ Hb). destruct (succ_of side b); [apply IH|done].
Qed.

(** [h'] is [h] with the dead assignments of each block deleted. *)
Definition deadstored (h h' : heap) (C : gset nat) : Prop :=
  forall x b, x ∈ C -> h !! x = Some b -> exists b' d d', opt_deadstores (b, d) = ODone (b', d') /\ h' !! x = Some b'.

Lemma deadstored_run p wirelen buflen fuel h h' C x r1 r2 o :
  closed h C -> (forall x b, x ∈ C -> h !! x = Some b -> wf_block b = true) -> (forall x, x ∈ C -> live_at h x) ->
  deadstored h h' C -> x ∈ C -> (forall b, h !! x = Some b -> agree (elem (b_in_use b)) r1 r2) ->
  full_run p wirelen buflen fuel h x r1 = Some o -> full_run p wirelen buflen fuel h' x r2 = Some o.
Proof.
  intros Hc Hw Hl Hd. revert x r1 r2. induction fuel as [|fuel IH]; intros x r1 r2 Hx Ha; [done|].
  destruct (Hl x Hx) as (b & Hb & (bl & El & Ek & Ei) & Ho & Hs). specialize (Ha b Hb). pose proof (Hw x b Hx Hb) as Hwf.
  destruct (Hd x b Hx Hb) as (b' & d & d' & Ed & Hb'). destruct (opt_deadstores_ok b d Hwf) as (b1 & d1 & Ed1 & Hbs & Hsu & Hsim).
  rewrite Ed in Ed1. injection Ed1 as <- <-. cbn [full_run]. rewrite Hb, Hb', Hbs.
  assert (same_end (needs b (elem (b_out_use b))) (exec_stmts p wirelen buflen (b_stmts b) r1) (exec_stmts p wirelen buflen (b_stmts b) r2)) as He.
  { apply (block_live_stmts p wirelen buflen b bl); [done|done|]. eapply agree_weaken; [|exact Ha].
    intros a Haa [|[? Hk]]; [apply Ei; [apply Haa|done]|apply Ho; [done..|]; now rewrite Ek]. }
  destruct (exec_stmts p wirelen buflen (b_stmts b) r1) as [r1'|]; [|done].
  destruct (exec_stmts p wirelen buflen (b_stmts b) r2) as [r2'|] eqn:E2; cbn [same_end] in He; [|done].
  rewrite exec_stmts_list in E2. destruct (Hsim _ _ _ _ _ E2) as (r3 & E3 & A3). rewrite <- exec_stmts_list in E3. rewrite E3.
  pose proof (agree_trans _ _ _ _ He A3) as Hr. apply wf_block_plains in Hwf as [_ Hbr].
  pose proof (exec_branch_agree _ (b_s b) r1' r3 Hbr (fun a _ H => or_intror H) Hr) as Hx'.
  destruct (exec_branch (b_s b) r1') as [s1 ra|], (exec_branch (b_s b) r3) as [s2 rb|]; try done; [|congruence].
  destruct Hx' as (<- & -> & ->). rewrite Hsu. destruct (succ_of s1 b) as [t|] eqn:Ht; [|done].
  destruct (Hc x Hx) as (b0 & Hb0 & Hcb). assert (b0 = b) as -> by congruence.
  apply IH; [now apply (closed_succ C b s1)|]. intros bt Hbt. eapply agree_weaken; [|exact Hr].
  intros a _ Hin. left. now apply (Hs s1 t bt).
Qed.

(** [opt_deadstores] on every block. *)
Definition deadstores (h : heap) : heap :=
  (fun b => match opt_deadstores (b, true) with ODone (b', _) => b' | _ => b end) <$> h.

Lemma deadstores_deadstored h C :
  (forall x b, x ∈ C -> h !! x = Some b -> wf_block b = true) -> deadstored h (deadstores h) C.
Proof.
  intros Hw x b Hx Hb. destruct (opt_deadstores_ok b true (Hw x b Hx Hb)) as (b' & d' & E & _).
  exists b', true, d'. split; [done|]. unfold deadstores. rewrite lookup_fmap, Hb. cbn [fmap option_fmap option_map]. now rewrite E.
Qed.

(** C33: deleting dead assignments is sound. On a graph without cycles of straight-line blocks
    and comparisons, after [find_levels] and [find_ud], [opt_deadstores] on the blocks leaves
    a graph that returns what the original returns, on every packet on which the statements
    of the original's run complete. *)
Theorem opt_deadstores_sound (o : opt) (C : gset nat) (rank : nat -> nat) (root : nat) :
  dag (o_heap o) C rank -> reachable (o_heap o) C root -> (size C <= length (blocks o))%nat ->
  (forall q b, o_heap o !! q = Some b -> b_mark b <= OptState.cur_mark o) ->
  (forall x b, x ∈ C -> o_heap o !! x = Some b -> wf_block b = true) ->
  exists o1 o2, find_levels o root = ODone o1 /\ find_ud o1 root = ODone o2 /\
    forall p wirelen buflen fuel r v,
      full_run p wirelen buflen fuel (o_heap o) root r = Some v ->
      graph_run p wirelen buflen fuel (deadstores (o_heap o2)) root r = Some v.
Proof.
  intros Hd Hr Hn Hm Hw. destruct (dag_height _ _ _ Hd) as (longest & Hh).
  destruct (find_levels_levelled o C longest root (dag_closed _ _ _ Hd) Hh Hr Hn Hm) as (o1 & E1 & R & Hl & _).
  pose proof (relevelled_same _ _ R) as G1.
  assert (forall h x b, same_graph (o_heap o) h -> x ∈ C -> h !! x = Some b -> wf_block b = true) as Hw'.
  { intros h x b G Hx Hb. destruct (same_graph_Some _ _ _ _ (symmetry G) Hb) as (b0 & Hb0 & S).
    rewrite <- (wf_block_same _ _ S). eauto. }
  destruct (find_ud_ok o1 C longest root Hl (fun x b => Hw' _ x b G1)) as (o2 & E2 & K & Hlive).
  assert (same_graph (o_heap o) (o_heap o2)) as G by (transitivity (o_heap o1); [done|now apply keeps_same]).
  exists o1, o2. split; [done|]. split; [done|]. intros p wirelen buflen fuel r v Hv.
  apply full_run_graph_run, (deadstored_run p wirelen buflen fuel (o_heap o2) _ C root r r).
  - exact (closed_same _ _ _ G (dag_closed _ _ _ Hd)).
  - intros x b Hx. exact (Hw' _ x b G Hx).
  - done.
  - apply deadstores_deadstored. intros x b Hx. exact (Hw' _ x b G Hx).
  - exact (proj1 Hr).
  - intros b _. apply agree_refl.
  - now rewrite (same_graph_full _ _ _ _ _ _ _ _ G).
Qed.

Lemma opt_deadstores_sound_witness :
  exists o1 o2, find_levels sample_opt sample_root = ODone o1 /\ find_ud o1 sample_root = ODone o2 /\
    forall p wirelen buflen fuel r v,
      full_run p wirelen buflen fuel (o_heap sample_opt) sample_root r = Some v ->
      graph_run p wirelen buflen fuel (deadstores (o_heap o2)) sample_root r = Some v.
Proof.
  apply (opt_deadstores_sound sample_opt (list_to_set (blocks sample_opt)) sample_rank sample_root).
  - exact sample_dag.
  - exact sample_reachable.
  - vm_compute. lia.
  - exact sample_marks.
  - exact sample_wf.
Defined.
