(* ===== verification/OptValueProofs.v ===== *)
(** * Value numbering is sound (optimize.c)

    [opt_stmts] rewrites the statements of a block by value numbers: a register whose number
    is a constant's is read as that constant, and a statement that would store the value its
    register has already is deleted. Numbers have a meaning on each packet; with it the
    rewritten statements do what the original ones do, for blocks that read no register
    whose number is 0. Such a register is unknown, but [vstore] takes two unknown registers
    for equal, and then deletes a store that is needed. *)
From stdpp Require Import base numbers list gmap.
From Stdlib Require Import Strings.Byte.
From S2P Require Import Prelude BpfInsn BpfFilter BpfFilterProofs Icode Layout LayoutProofs.
From S2P Require Import OptState OptFlow OptValue OptBlock OptLoop OptGraph OptLevels OptLive.
Open Scope Z_scope.

(** ** Registers by atom *)

Definition reg (r : regs) (a : Z) : option Z :=
  if a =? A_ATOM then Some (rA r) else if a =? X_ATOM then Some (rX r) else load_mem (rmem r) a.

Definition set_reg (a z : Z) (r : regs) : regs :=
  if a =? A_ATOM then set_A z r else if a =? X_ATOM then set_X z r
  else set_mem (<[Z.to_nat a := s32 z]> (rmem r)) r.

(** The registers are in range, and the scratch memory holds 32-bit integers. *)
Record fit (r : regs) : Prop := {
  fit_regs : wf_regs r;
  fit_mem : forall i x, rmem r !! i = Some x -> - 2 ^ 31 <= x < 2 ^ 31
}.

Lemma mem_at r a : fit r -> 0 <= a < BPF_MEMWORDS -> exists x, at_Z (rmem r) a = Some x /\ - 2 ^ 31 <= x < 2 ^ 31.
Proof.
  intros [Hr Hm] Ha. destruct (at_Z_Some (rmem r) a) as [x Hx]; [rewrite (wf_mem _ Hr); lia|]. exists x. split; [done|].
  unfold at_Z in Hx. destruct (a <? 0); [done|]. eauto.
Qed.

Lemma fit_set_reg a z r : fit r -> 0 <= z < 2 ^ 32 -> fit (set_reg a z r).
Proof.
  intros [Hr Hm] Hz. unfold set_reg. destruct (a =? A_ATOM); [|destruct (a =? X_ATOM)]; split; auto with pcap.
  - apply wf_set_mem; [done|]. rewrite length_insert. apply Hr.
  - cbn. intros i x. destruct (decide (i = Z.to_nat a)) as [->|Hne].
    + intros Hx. destruct (decide (Z.to_nat a < length (rmem r))%nat) as [Hlt|Hge].
      * rewrite list_lookup_insert_eq in Hx by done. injection Hx as <-. apply s32_range.
      * rewrite list_insert_ge in Hx by lia. eauto.
    + rewrite list_lookup_insert_ne by done. eauto.
Qed.

Lemma reg_set_reg_eq a z r : fit r -> is_atom a -> 0 <= z < 2 ^ 32 -> reg (set_reg a z r) a = Some z.
Proof.
  intros Hf Ha Hz. unfold reg, set_reg. destruct (Z.eqb_spec a A_ATOM); [done|]. destruct (Z.eqb_spec a X_ATOM); [done|].
  unfold is_atom, N_ATOMS, A_ATOM, X_ATOM, BPF_MEMWORDS in *. destruct (mem_at r a Hf) as (x & Hx & _); [unfold BPF_MEMWORDS; lia|].
  unfold load_mem, at_Z in *. destruct (Z.ltb_spec a 0); [lia|]. cbn.
  rewrite list_lookup_insert_eq by now apply lookup_lt_Some in Hx. cbn. now rewrite u32_s32, u32_id.
Qed.

Lemma reg_set_reg_ne a b z r : is_atom a -> is_atom b -> a <> b -> reg (set_reg a z r) b = reg r b.
Proof.
  intros [Ha _] [Hb _] Hne. unfold reg, set_reg.
  destruct (Z.eqb_spec a A_ATOM), (Z.eqb_spec b A_ATOM), (Z.eqb_spec a X_ATOM), (Z.eqb_spec b X_ATOM);
    try congruence; try done.
  cbn. unfold load_mem, at_Z. destruct (b <? 0); [done|]. now rewrite list_lookup_insert_ne by lia.
Qed.

(** Storing what is there changes nothing. *)
Lemma set_reg_id a z r : fit r -> is_atom a -> reg r a = Some z -> set_reg a z r = r.
Proof.
  intros Hf Ha. unfold reg, set_reg. destruct r as [A X m]; cbn. destruct (Z.eqb_spec a A_ATOM); [now intros [= <-]|].
  destruct (Z.eqb_spec a X_ATOM); [now intros [= <-]|]. unfold load_mem, set_mem. cbn.
  destruct (at_Z m a) as [x|] eqn:Hx; [|done]. intros [= <-]. unfold at_Z in Hx. destruct (a <? 0); [done|].
  rewrite list_insert_id; [done|]. pose proof (fit_mem _ Hf (Z.to_nat a) x Hx). now rewrite s32_u32, s32_id.
Qed.

Lemma reg_is_Some r a : fit r -> is_atom a -> exists z, reg r a = Some z /\ 0 <= z < 2 ^ 32.
Proof.
  intros Hf Ha. unfold reg. destruct (Z.eqb_spec a A_ATOM); [exists (rA r); split; [done|apply Hf]|].
  destruct (Z.eqb_spec a X_ATOM); [exists (rX r); split; [done|apply Hf]|].
  unfold is_atom, N_ATOMS, A_ATOM, X_ATOM, BPF_MEMWORDS in *. destruct (mem_at r a Hf) as (x & Hx & _); [unfold BPF_MEMWORDS; lia|].
  unfold load_mem. rewrite Hx. exists (u32 x). split; [done|apply u32_range].
Qed.

(** ** The value a statement computes *)

Section Values.
Context (p : list byte) (wirelen buflen : Z) (Hwire : 0 <= wirelen < 2 ^ 32).
Let exec (s : stmt) (r : regs) : step_result := exec_insn p wirelen buflen (insn_of_stmt s) r.

Definition load_value (s : bpf_size) (k : Z) : option Z :=
  if short_packet s k buflen then None else extract s p k.
Definition msh_value (k : Z) : option Z :=
  if buflen <=? k then None else (fun v => Z.shiftl (v &&& 0xf) 2) <$> extract SzB p k.

Definition value_of (o : opcode) (k : Z) (r : regs) : option Z :=
  match o with
  | LD_ABS s => load_value s (s32 k)
  | LD_IND s => load_value s (s32 (rX r + k))
  | LD_LEN | LDX_LEN => Some wirelen
  | LDX_MSH => msh_value (u32 k)
  | LD_IMM | LDX_IMM => Some (u32 k)
  | LD_MEM | LDX_MEM => reg r k
  | ST | TAX => Some (rA r)
  | STX | TXA => Some (rX r)
  | ALU op SrcK => alu op (rA r) (u32 k)
  | ALU op SrcX => alu op (rA r) (rX r)
  | NEG => Some (u32 (- rA r))
  | _ => None
  end.

Lemma msh_range v : 0 <= Z.shiftl (v &&& 15) 2 < 2 ^ 32.
Proof.
  rewrite Z.shiftl_mul_pow2 by lia. change 15 with (Z.ones 4). rewrite Z.land_ones by lia.
  pose proof (Z.mod_pos_bound v (2 ^ 4)). lia.
Qed.

Lemma value_range o k r z : fit r -> is_atom k \/ o <> LD_MEM /\ o <> LDX_MEM -> value_of o k r = Some z -> 0 <= z < 2 ^ 32.
Proof.
  intros Hf Hk. pose proof (wf_A _ (fit_regs _ Hf)). pose proof (wf_X _ (fit_regs _ Hf)).
  destruct o as [| |sz|sz| | | | | | | | | | | |op [|]| | |]; cbn; try discriminate; try (intros [= <-]; auto using u32_range; fail).
  - unfold load_value. case_match; [done|]. apply extract_range.
  - unfold load_value. case_match; [done|]. apply extract_range.
  - unfold msh_value. case_match; [done|]. destruct (extract _ _ _); [|done]. intros [= <-]. apply msh_range.
  - destruct Hk as [Hk|[]]; [|done]. destruct (reg_is_Some r k Hf Hk) as (z' & -> & ?). now intros [= <-].
  - destruct Hk as [Hk|[]]; [|done]. destruct (reg_is_Some r k Hf Hk) as (z' & -> & ?). now intros [= <-].
  - apply alu_range; [done|apply u32_range].
  - now apply alu_range.
Qed.

Lemma mem_ok_atom s : mem_ok s = true -> 0 <= s_k s < 16.
Proof. unfold mem_ok, BPF_MEMWORDS. lia. Qed.

(** What a statement does is to store its value in the register it defines. *)
Lemma exec_value s o r d r' :
  s_code s = encode_op o -> plain_op s o = true -> fit r -> exec s r = Next d r' ->
  d = 0 /\ exists z, value_of o (s_k s) r = Some z /\ r' = set_reg (op_def o (s_k s)) z r.
Proof.
  intros Hc Hp Hf. unfold exec. rewrite (exec_plain p wirelen buflen s o r Hc).
  assert (forall z d r', Next 0 (set_A z r) = Next d r' -> d = 0 /\ r' = set_reg A_ATOM z r) as HA by (now intros ? ? ? [= <- <-]).
  assert (forall z d r', Next 0 (set_X z r) = Next d r' -> d = 0 /\ r' = set_reg X_ATOM z r) as HX by (now intros ? ? ? [= <- <-]).
  destruct o as [| |sz|sz| | | | | | | | | | | |op src| | |]; try discriminate Hp; cbn [exec_op exec_reg value_of op_def plain_op] in *;
    try (intros H; apply HA in H || apply HX in H; destruct H as [-> ->]; split; [done|]; eexists; split; reflexivity).
  - unfold exec_ld_abs, load_packet, load_value. cbn [insn_of_stmt i_k]. rewrite s32_u32.
    case_match; [done|]. case_match; [|done]. intros [-> ->]%HA. eauto.
  - unfold exec_ld_ind, load_packet, load_value. cbn [insn_of_stmt i_k].
    assert (s32 (rX r + u32 (s_k s)) = s32 (rX r + s_k s)) as -> by (rewrite <- (s32_u32 (rX r + u32 _)), u32_add_r; apply s32_u32).
    case_match; [done|]. case_match; [|done]. intros [-> ->]%HA. eauto.
  - unfold exec_ldx_msh, msh_value. cbn [insn_of_stmt i_k]. rewrite u32_s32, u32_u32.
    case_match; [done|]. case_match; [|done]. intros [-> ->]%HX. eauto.
  - apply mem_ok_atom in Hp. cbn [insn_of_stmt i_k]. rewrite u32_id by lia. unfold reg, A_ATOM, X_ATOM, BPF_MEMWORDS.
    destruct (Z.eqb_spec (s_k s) 16); [lia|]. destruct (Z.eqb_spec (s_k s) (16 + 1)); [lia|].
    destruct (load_mem _ _); [|done]. intros [-> ->]%HA. eauto.
  - apply mem_ok_atom in Hp. cbn [insn_of_stmt i_k]. rewrite u32_id by lia. unfold reg, A_ATOM, X_ATOM, BPF_MEMWORDS.
    destruct (Z.eqb_spec (s_k s) 16); [lia|]. destruct (Z.eqb_spec (s_k s) (16 + 1)); [lia|].
    destruct (load_mem _ _); [|done]. intros [-> ->]%HX. eauto.
  - apply mem_ok_atom in Hp. cbn [insn_of_stmt i_k]. rewrite u32_id by lia. unfold store_mem. destruct (at_Z (rmem r) (s_k s)); [|done].
    intros [= <- <-]. split; [done|]. eexists. split; [reflexivity|]. unfold set_reg, A_ATOM, X_ATOM, BPF_MEMWORDS.
    destruct (Z.eqb_spec (s_k s) 16); [lia|]. destruct (Z.eqb_spec (s_k s) (16 + 1)); [lia|done].
  - apply mem_ok_atom in Hp. cbn [insn_of_stmt i_k]. rewrite u32_id by lia. unfold store_mem. destruct (at_Z (rmem r) (s_k s)); [|done].
    intros [= <- <-]. split; [done|]. eexists. split; [reflexivity|]. unfold set_reg, A_ATOM, X_ATOM, BPF_MEMWORDS.
    destruct (Z.eqb_spec (s_k s) 16); [lia|]. destruct (Z.eqb_spec (s_k s) (16 + 1)); [lia|done].
  - unfold exec_alu. cbn [insn_of_stmt]. destruct src; cbn [operand i_k];
      (destruct (alu _ _ _); [intros [-> ->]%HA; eauto|destruct op; done]).
Qed.

(** Conversely, a statement that has a value is executed. *)
Lemma exec_of_value s o r z :
  s_code s = encode_op o -> plain_op s o = true -> fit r -> value_of o (s_k s) r = Some z ->
  exec s r = Next 0 (set_reg (op_def o (s_k s)) z r).
Proof.
  intros Hc Hp Hf. unfold exec. rewrite (exec_plain p wirelen buflen s o r Hc).
  assert (mem_ok s = true -> (s_k s =? A_ATOM) = false /\ (s_k s =? X_ATOM) = false /\ u32 (s_k s) = s_k s /\
    exists x, at_Z (rmem r) (s_k s) = Some x) as Hm.
  { intros Hk%mem_ok_atom. unfold A_ATOM, X_ATOM, BPF_MEMWORDS. destruct (mem_at r (s_k s) Hf Hk) as (x & Hx & _).
    rewrite u32_id by lia. split; [lia|]. split; [lia|]. eauto. }
  destruct o as [| |sz|sz| | | | | | | | | | | |op src| | |]; try discriminate Hp; cbn [exec_op exec_reg value_of op_def plain_op] in *;
    try (intros [= <-]; reflexivity).
  - unfold exec_ld_abs, load_packet, load_value. cbn [insn_of_stmt i_k]. rewrite s32_u32.
    case_match; [done|]. now intros ->.
  - unfold exec_ld_ind, load_packet, load_value. cbn [insn_of_stmt i_k].
    assert (s32 (rX r + u32 (s_k s)) = s32 (rX r + s_k s)) as -> by (rewrite <- (s32_u32 (rX r + u32 _)), u32_add_r; apply s32_u32).
    case_match; [done|]. now intros ->.
  - unfold exec_ldx_msh, msh_value. cbn [insn_of_stmt i_k]. rewrite u32_s32, u32_u32.
    case_match; [done|]. destruct (extract _ _ _); [|done]. now intros [= <-].
  - destruct (Hm Hp) as (E1 & E2 & E3 & _). cbn [insn_of_stmt i_k]. rewrite E3. unfold reg. rewrite E1, E2. now intros ->.
  - destruct (Hm Hp) as (E1 & E2 & E3 & _). cbn [insn_of_stmt i_k]. rewrite E3. unfold reg. rewrite E1, E2. now intros ->.
  - destruct (Hm Hp) as (E1 & E2 & E3 & x & E4). cbn [insn_of_stmt i_k]. rewrite E3. unfold store_mem, set_reg.
    rewrite E1, E2, E4. now intros [= <-].
  - destruct (Hm Hp) as (E1 & E2 & E3 & x & E4). cbn [insn_of_stmt i_k]. rewrite E3. unfold store_mem, set_reg.
    rewrite E1, E2, E4. now intros [= <-].
  - unfold exec_alu. cbn [insn_of_stmt]. destruct src; cbn; now intros ->.
Qed.

(** ** The meaning of a number *)

Definition numbers : Type := Z -> option Z.

(** The value of a node of the table, from those of its operands. *)
Definition meaning (nu : numbers) (code v0 v1 : Z) : option Z :=
  match decode_op code with
  | Some (LD_ABS s) => load_value s (s32 v0)
  | Some (LD_IND s) => x ← nu v1; load_value s (s32 (x + v0))
  | Some LD_LEN => Some wirelen
  | Some LD_IMM => Some (u32 v0)
  | Some LDX_MSH => msh_value (u32 v0)
  | Some NEG => a ← nu v0; Some (u32 (- a))
  | Some (ALU op _) => a ← nu v0; b ← nu v1; alu op a b
  | _ => None
  end.

(** The operands that are numbers, not constants. *)
Definition operands (code v0 v1 : Z) (n : Z) : Prop :=
  match decode_op code with
  | Some (LD_IND _) => n = v1
  | Some NEG => n = v0
  | Some (ALU _ _) => n = v0 \/ n = v1
  | _ => False
  end.

Lemma meaning_ext nu nu' code v0 v1 :
  (forall n, operands code v0 v1 n -> nu' n = nu n) -> meaning nu' code v0 v1 = meaning nu code v0 v1.
Proof.
  unfold operands, meaning. intros H. destruct (decode_op code) as [o|]; [|done].
  destruct o; try done; now rewrite ?H by auto.
Qed.

(** Codes whose nodes are in the table. *)
Definition numbered_op (o : opcode) : bool :=
  match o with LD_ABS _ | LD_IND _ | LD_LEN | LD_IMM | LDX_MSH | NEG | ALU _ _ => true | _ => false end.

Definition node_ok (nu : numbers) (t : vtable) (n : valnode) : Prop :=
  1 <= v_val n <= curval t /\ nu (v_val n) = meaning nu (v_code n) (v_v0 n) (v_v1 n) /\
  (forall m, operands (v_code n) (v_v0 n) (v_v1 n) m -> m <= curval t) /\
  (is_imm (v_code n) = true -> vmap t !! Z.to_nat (v_val n) = Some (mk_vmapinfo true (v_v0 n))).

(** The table is right on this packet. *)
Record table_ok (nu : numbers) (t : vtable) : Prop := {
  tb_nodes : forall chain n, chain ∈ hashtbl t -> n ∈ chain -> node_ok nu t n;
  tb_const : forall v m, vmap t !! v = Some m -> is_const m = true ->
    (v <= Z.to_nat (curval t))%nat /\ nu (Z.of_nat v) = Some (u32 (const_val m));
  tb_range : forall n z, nu n = Some z -> 0 <= z < 2 ^ 32;
  tb_curval : 0 <= curval t;
  tb_vmap : length (vmap t) = Z.to_nat (maxval t);
  tb_zero : nu 0 = None
}.

(** [nu'] gives the numbers in use the values they had. *)
Definition extends (t : vtable) (nu nu' : numbers) : Prop := forall n, n <= curval t -> nu' n = nu n.

Lemma meaning_range nu code v0 v1 z :
  (forall n y, nu n = Some y -> 0 <= y < 2 ^ 32) -> meaning nu code v0 v1 = Some z -> 0 <= z < 2 ^ 32.
Proof.
  unfold meaning. intros Hr. destruct (decode_op code) as [o|]; [|done].
  destruct o as [| |sz|sz| | | | | | | | | | | |op src| | |]; try done.
  - unfold load_value. case_match; [done|]. apply extract_range.
  - destruct (nu v1) as [x|]; [|done]. cbn. unfold load_value. case_match; [done|]. apply extract_range.
  - now intros [= <-].
  - unfold msh_value. case_match; [done|]. destruct (extract _ _ _); [|done]. intros [= <-]. apply msh_range.
  - intros [= <-]. apply u32_range.
  - destruct (nu v0) as [x|] eqn:E0; [|done]. cbn. destruct (nu v1) as [y|] eqn:E1; [|done]. cbn.
    apply alu_range; eauto.
  - destruct (nu v0); [|done]. intros [= <-]. apply u32_range.
Qed.

Lemma is_imm_op o : numbered_op o = true -> is_imm (encode_op o) = bool_decide (o = LD_IMM).
Proof. destruct o as [| |[]|[]| | | | | | | | | | |[] []|[] []| | |]; try discriminate; reflexivity. Qed.

Lemma chain_insert (hs : list (list valnode)) h chain n0 c n :
  hs !! h = Some chain -> c ∈ <[h := n0 :: chain]> hs -> n ∈ c -> n = n0 \/ exists c', c' ∈ hs /\ n ∈ c'.
Proof.
  intros Hh Hc Hn. apply list_elem_of_lookup in Hc as [i Hi]. destruct (decide (i = h)) as [->|Hne].
  - rewrite list_lookup_insert_eq in Hi by now apply lookup_lt_Some in Hh. injection Hi as <-.
    apply elem_of_cons in Hn as [|Hn]; [now left|right]. exists chain. split; [apply list_elem_of_lookup; eauto|done].
  - rewrite list_lookup_insert_ne in Hi by done. right. exists c. split; [apply list_elem_of_lookup; eauto|done].
Qed.

(** Numbers in use keep their meaning when numbers are added. *)
Lemma node_ok_mono nu nu' t t' n :
  extends t nu nu' -> curval t <= curval t' ->
  (forall w m, (w <= Z.to_nat (curval t))%nat -> vmap t !! w = Some m -> vmap t' !! w = Some m) ->
  node_ok nu t n -> node_ok nu' t' n.
Proof.
  intros Hext Hle Hvm (Hv & Hm & Ho & Hi). split; [lia|]. split; [|split].
  - rewrite Hext by lia. rewrite Hm. symmetry. apply meaning_ext. intros m Hmo. apply Hext, Ho, Hmo.
  - intros m Hmo. specialize (Ho m Hmo). lia.
  - intros E. apply Hvm; [lia|auto].
Qed.

(** The table with a node more. *)
Definition add_node (t : vtable) (h : nat) (chain : list valnode) (code v0 v1 : Z) : vtable :=
  let v := curval t + 1 in
  mk_vtable (<[h := mk_valnode code v0 v1 v :: chain]> (hashtbl t)) v (maxval t)
    (if is_imm code then <[Z.to_nat v := mk_vmapinfo true v0]> (vmap t) else vmap t).

Definition add_number (nu : numbers) (v : Z) (z : option Z) : numbers := fun n => if n =? v then z else nu n.

Lemma add_node_ok nu o v0 v1 t h chain :
  table_ok nu t -> numbered_op o = true -> (forall n, operands (encode_op o) v0 v1 n -> n <= curval t) ->
  hashtbl t !! h = Some chain -> (is_imm (encode_op o) = true -> curval t + 1 < maxval t) ->
  let nu' := add_number nu (curval t + 1) (meaning nu (encode_op o) v0 v1) in
  let t' := add_node t h chain (encode_op o) v0 v1 in
  extends t nu nu' /\ table_ok nu' t' /\ nu' (curval t + 1) = meaning nu' (encode_op o) v0 v1 /\
  (is_imm (encode_op o) = true -> vmap t' !! Z.to_nat (curval t + 1) = Some (mk_vmapinfo true v0)).
Proof.
  intros Ht Ho Hops Hh Hmax nu' t'. pose proof Ht as [Hn Hc Hr Hcur Hlen Hz]. set (v := curval t + 1) in *.
  assert (extends t nu nu') as Hext.
  { intros n Hle. unfold nu', add_number. destruct (Z.eqb_spec n v); [unfold v in *; lia|done]. }
  assert (nu' v = meaning nu' (encode_op o) v0 v1) as Hv.
  { unfold nu' at 1, add_number. rewrite Z.eqb_refl. symmetry. apply meaning_ext. intros n Hn'. apply Hext. auto. }
  assert (is_imm (encode_op o) = true -> vmap t' !! Z.to_nat v = Some (mk_vmapinfo true v0)) as Hself.
  { intros E. cbn. rewrite E. apply list_lookup_insert_eq. specialize (Hmax E). lia. }
  assert (forall w m, w <> Z.to_nat v -> vmap t' !! w = Some m <-> vmap t !! w = Some m) as Hother.
  { intros w m Hne. cbn. destruct (is_imm _); [|done]. now rewrite list_lookup_insert_ne. }
  split; [done|]. split; [|done]. split.
  - intros c n Hch Hin. destruct (chain_insert _ _ _ _ _ _ Hh Hch Hin) as [->|(c' & Hc' & Hn')].
    + split; [cbn; lia|]. split; [exact Hv|]. split; [cbn; intros m Hm; specialize (Hops m Hm); lia|exact Hself].
    + apply (node_ok_mono nu nu' t t'); [done|cbn; lia| |eauto]. intros w m Hw. apply Hother. unfold v. lia.
  - intros w m Hw Hcm. destruct (decide (w = Z.to_nat v)) as [->|Hne].
    + split; [done|]. destruct (is_imm (encode_op o)) eqn:Ei.
      * rewrite Hself in Hw by done. injection Hw as <-. rewrite Z2Nat.id by (unfold v; lia). rewrite Hv.
        rewrite is_imm_op, bool_decide_eq_true in Ei by done. now rewrite Ei.
      * cbn in Hw. rewrite Ei in Hw. destruct (Hc _ _ Hw Hcm). unfold v in *. lia.
    + apply Hother in Hw; [|done]. destruct (Hc w m Hw Hcm) as [Hle Hnu]. split; [cbn; unfold v; lia|].
      rewrite Hext by lia. done.
  - intros n z. unfold nu', add_number. destruct (n =? v); [|apply Hr]. apply meaning_range, Hr.
  - cbn. lia.
  - cbn. destruct (is_imm _); [now rewrite length_insert|done].
  - rewrite Hext by done. done.
Qed.

(** [F] gives a number that means the operation on its operands. *)
Lemma F_ok nu o v0 v1 t v t' :
  table_ok nu t -> numbered_op o = true -> (forall n, operands (encode_op o) v0 v1 n -> n <= curval t) ->
  F (encode_op o) v0 v1 t = ODone (v, t') ->
  exists nu', extends t nu nu' /\ table_ok nu' t' /\ curval t <= curval t' /\ 1 <= v <= curval t' /\
    nu' v = meaning nu' (encode_op o) v0 v1 /\
    (o = LD_IMM -> vmap_at t' v = ODone (mk_vmapinfo true v0)).
Proof.
  intros Ht Ho Hops. unfold F. intros H. odone H.
  destruct (List.find _ a) as [n|] eqn:Ef.
  - injection H as <- <-. apply List.find_some in Ef as [Hin Hnode]. apply list_elem_of_In in Hin.
    unfold node_is in Hnode. rewrite !andb_true_iff, !Z.eqb_eq in Hnode. destruct Hnode as [[E1 E2] E3].
    assert (a ∈ hashtbl t) as Hain by (apply list_elem_of_lookup; eauto).
    destruct (tb_nodes _ _ Ht a n Hain Hin) as (Hv & Hm & _ & Hi). rewrite E1, E2, E3 in *.
    exists nu. split; [done|]. split; [done|]. split; [done|]. split; [done|]. split; [done|].
    intros ->. unfold vmap_at, at_Z. destruct (Z.ltb_spec (v_val n) 0); [lia|]. now rewrite Hi by now rewrite is_imm_op, bool_decide_true.
  - odone H. destruct (Z.ltb_spec (curval t) (maxval t)); [|discriminate]. injection H as <- <-.
    assert (is_imm (encode_op o) = true -> curval t + 1 < maxval t) as Hmax.
    { intros E. rewrite E in H0. destruct (Z.ltb_spec (curval t + 1) (maxval t)); [done|discriminate]. }
    assert (a0 = if is_imm (encode_op o) then <[Z.to_nat (curval t + 1) := mk_vmapinfo true v0]> (vmap t) else vmap t) as ->.
    { destruct (is_imm _); [destruct (_ <? _); [|discriminate]|]; now injection H0 as <-. }
    destruct (add_node_ok nu o v0 v1 t _ a Ht Ho Hops H1 Hmax) as (Hext & Ht' & Hv & Hs). pose proof (tb_curval _ _ Ht).
    eexists. split; [exact Hext|]. split; [exact Ht'|]. cbn [curval]. split; [lia|]. split; [lia|].
    split; [exact Hv|]. intros ->. unfold vmap_at, at_Z. destruct (Z.ltb_spec (curval t + 1) 0); [lia|].
    change (vmap _) with (vmap (add_node t (Z.to_nat (F_hash (encode_op LD_IMM) v0 v1)) a (encode_op LD_IMM) v0 v1)).
    now rewrite (Hs eq_refl).
Qed.

(** ** The state of [opt_stmt] *)

(** Numbers that are not 0 mean what the registers hold. *)
Record st_ok (nu : numbers) (x : sst) (r : regs) : Prop := {
  st_table : table_ok nu (x_t x);
  st_len : length (x_val x) = Z.to_nat N_ATOMS;
  st_val : forall a n, x_val x !! a = Some n -> 0 <= n <= curval (x_t x) /\ (n <> 0 -> nu n = reg r (Z.of_nat a));
  st_fit : fit r
}.

Definition runs (s : stmt) (r r' : regs) : Prop := exec_list p wirelen buflen [s] r = inl r'.

Lemma runs_op s o r z :
  s_code s = encode_op o -> plain_op s o = true -> fit r -> value_of o (s_k s) r = Some z ->
  runs s r (set_reg (op_def o (s_k s)) z r).
Proof.
  intros Hc Hp Hf Hv. unfold runs. cbn [exec_list]. pose proof (encode_op_range o).
  destruct (Z.eqb_spec (s_code s) NOP) as [E|]; [unfold NOP in E; lia|].
  pose proof (exec_of_value s o r z Hc Hp Hf Hv) as E. unfold exec in E. now rewrite E.
Qed.

Lemma runs_nop s r : s_code s = NOP -> runs s r r.
Proof. intros E. unfold runs. cbn [exec_list]. now rewrite E. Qed.

(** The statement is done: from [r] it stores [z] in the register [a], and the numbers are
    right after it; only that of [a] has changed, and is known. *)
Record finished (nu : numbers) (x : sst) (r : regs) (a z : Z) (x' : sst) : Prop := {
  fin_ok : st_ok nu x' (set_reg a z r);
  fin_runs : runs (x_s x') r (set_reg a z r);
  fin_known : exists n, x_val x' !! Z.to_nat a = Some n /\ n <> 0;
  fin_other : forall b, b <> Z.to_nat a -> x_val x' !! b = x_val x !! b
}.

Lemma val_at_ok x a v : val_at x a = ODone v <-> at_Z (x_val x) a = Some v.
Proof. apply oget_ODone. Qed.

Lemma val_set_ok nu x r a z v x' :
  st_ok nu x r -> is_atom a -> 0 <= z < 2 ^ 32 -> runs (x_s x) r (set_reg a z r) -> nu v = Some z -> 1 <= v <= curval (x_t x) ->
  val_set a v x = ODone x' -> finished nu x r a z x'.
Proof.
  intros [Ht Hl Hv Hf] Ha Hz Hr Hnu Hvr H. unfold val_set in H. odone H. injection H as <-.
  pose proof (at_Z_bound _ _ _ H1). assert (Z.to_nat a < length (x_val x))%nat as Hlt by lia. split; cbn [x_s x_val x_t].
  - split; cbn [x_s x_val x_t]; [done|now rewrite length_insert| |now apply fit_set_reg].
    intros b n. destruct (decide (b = Z.to_nat a)) as [->|Hne].
    + rewrite list_lookup_insert_eq by done. intros [= <-]. split; [lia|]. intros _.
      rewrite Z2Nat.id by lia. rewrite reg_set_reg_eq by done. done.
    + rewrite list_lookup_insert_ne by done. intros Hb. destruct (Hv b n Hb) as [? Hn]. split; [done|].
      intros Hn0. rewrite (Hn Hn0). symmetry. apply lookup_lt_Some in Hb.
      apply reg_set_reg_ne; [done|split; [lia|unfold N_ATOMS in *; lia]|lia].
  - done.
  - exists v. rewrite list_lookup_insert_eq by done. split; [done|lia].
  - intros b Hb. now rewrite list_lookup_insert_ne.
Qed.

Lemma vstore_ok nu alter x r a z v x' :
  st_ok nu x r -> is_atom a -> 0 <= z < 2 ^ 32 -> runs (x_s x) r (set_reg a z r) -> nu v = Some z -> 1 <= v <= curval (x_t x) ->
  vstore alter a v x = ODone x' -> finished nu x r a z x'.
Proof.
  intros Hok Ha Hz Hr Hnu Hvr H. unfold vstore in H. odone H.
  destruct (alter && (a0 =? v)) eqn:E; [|now apply (val_set_ok nu x r a z v)].
  apply andb_true_iff in E as [_ ->%Z.eqb_eq]. injection H as <-. pose proof Hok as [Ht Hl Hv Hf].
  pose proof (at_Z_bound _ _ _ H1). unfold at_Z in H1. destruct (a <? 0); [done|].
  destruct (Hv _ _ H1) as [_ Hn]. rewrite Z2Nat.id in Hn by lia.
  assert (set_reg a z r = r) as Hid by (apply set_reg_id; [done..|rewrite <- Hnu; symmetry; apply Hn; lia]).
  split; rewrite ?Hid; [done|now apply runs_nop|exists v; split; [done|lia]|done].
Qed.

(** The table grows; the rest of the state stays. *)
Lemma st_ok_extends nu nu' x x' r :
  st_ok nu x r -> extends (x_t x) nu nu' -> curval (x_t x) <= curval (x_t x') -> table_ok nu' (x_t x') ->
  x_val x' = x_val x -> st_ok nu' x' r.
Proof.
  intros [Ht Hl Hv Hf] Hext Hle Ht' Ev. split; [done|congruence| |done]. intros a n. rewrite Ev. intros Hn.
  destruct (Hv a n Hn) as [Hr Hnu]. split; [lia|]. intros Hn0. rewrite Hext by lia. auto.
Qed.

Lemma x_F_ok nu x r o v0 v1 v x' :
  st_ok nu x r -> numbered_op o = true -> (forall n, operands (encode_op o) v0 v1 n -> n <= curval (x_t x)) ->
  x_F (encode_op o) v0 v1 x = ODone (v, x') ->
  exists nu', extends (x_t x) nu nu' /\ st_ok nu' x' r /\ x_s x' = x_s x /\ x_val x' = x_val x /\
    curval (x_t x) <= curval (x_t x') /\ 1 <= v <= curval (x_t x') /\ nu' v = meaning nu' (encode_op o) v0 v1 /\
    (o = LD_IMM -> vmap_at (x_t x') v = ODone (mk_vmapinfo true v0)).
Proof.
  intros Hok Ho Hops H. unfold x_F in H. apply obind_ODone in H as ([w t] & HF & H). injection H as -> <-.
  destruct (F_ok nu o v0 v1 (x_t x) v t (st_table _ _ _ Hok) Ho Hops HF) as (nu' & Hext & Ht & Hle & Hv & Hm & Hi).
  exists nu'. split; [done|]. split; [now apply (st_ok_extends nu _ x)|]. done.
Qed.

Lemma K_encode : BPF_LD ||| BPF_IMM ||| BPF_W = encode_op LD_IMM.
Proof. reflexivity. Qed.

Lemma x_K_ok nu x r i v x' :
  st_ok nu x r -> x_K i x = ODone (v, x') ->
  exists nu', extends (x_t x) nu nu' /\ st_ok nu' x' r /\ x_s x' = x_s x /\ x_val x' = x_val x /\
    curval (x_t x) <= curval (x_t x') /\ 1 <= v <= curval (x_t x') /\ nu' v = Some (u32 i) /\
    vmap_at (x_t x') v = ODone (mk_vmapinfo true i).
Proof.
  intros Hok H. change (x_F (encode_op LD_IMM) i 0 x = ODone (v, x')) in H.
  destruct (x_F_ok nu x r LD_IMM i 0 v x' Hok eq_refl ltac:(done) H) as (nu' & ? & ? & ? & ? & ? & ? & Hm & Hi).
  exists nu'. auto 10.
Qed.

Lemma const_at_ok nu alter t v c : table_ok nu t -> const_at alter t v = ODone (Some c) -> alter = true /\ nu v = Some (u32 c).
Proof.
  intros Ht. unfold const_at, vmap_at. destruct alter; [|done]. intros H. odone H.
  destruct (is_const a) eqn:E; [|done]. injection H as <-. split; [done|]. unfold at_Z in H1.
  destruct (Z.ltb_spec v 0); [done|]. destruct (tb_const _ _ Ht _ _ H1 E) as [_ Hn]. now rewrite Z2Nat.id in Hn by lia.
Qed.

Lemma extends_trans nu1 nu2 nu3 t1 t2 : extends t1 nu1 nu2 -> extends t2 nu2 nu3 -> curval t1 <= curval t2 -> extends t1 nu1 nu3.
Proof. intros H1 H2 Hle n Hn. rewrite H2 by lia. now apply H1. Qed.

Lemma st_ok_stmt nu s x r : st_ok nu x r -> st_ok nu (x_stmt s x) r.
Proof. now intros []. Qed.

Lemma st_ok_not_done nu x r : st_ok nu x r -> st_ok nu (x_not_done x) r.
Proof. now intros []. Qed.

(** A number's constant stays when the table grows. *)
Lemma F_vmap code v0 v1 t w t' n m :
  F code v0 v1 t = ODone (w, t') -> 0 <= curval t -> n <= curval t -> vmap_at t n = ODone m -> vmap_at t' n = ODone m.
Proof.
  unfold F. intros H Hc Hn Hm. odone H. destruct (List.find _ a); [now injection H as <- <-|]. odone H.
  destruct (curval t <? maxval t); [|discriminate]. injection H as <- <-. unfold vmap_at, at_Z in *. destruct (Z.ltb_spec n 0); [done|].
  cbn [vmap]. destruct (is_imm code); [|injection H0 as <-; exact Hm]. destruct (curval t + 1 <? maxval t); [|discriminate].
  injection H0 as <-. rewrite list_lookup_insert_ne by lia. exact Hm.
Qed.

(** What is to be shown of a rewriting. *)
Definition rewrites (nu : numbers) (x : sst) (r : regs) (a z : Z) (x' : sst) : Prop :=
  exists nu', extends (x_t x) nu nu' /\ curval (x_t x) <= curval (x_t x') /\ finished nu' x r a z x'.

(** After table lookups, a store. *)
Lemma rewrites_vstore nu nu' alter x x1 r a z v x' :
  extends (x_t x) nu nu' -> curval (x_t x) <= curval (x_t x1) -> st_ok nu' x1 r -> x_val x1 = x_val x -> is_atom a -> 0 <= z < 2 ^ 32 ->
  runs (x_s x1) r (set_reg a z r) -> nu' v = Some z -> 1 <= v <= curval (x_t x1) ->
  vstore alter a v x1 = ODone x' -> rewrites nu x r a z x'.
Proof.
  intros Hext Hle Hok Ev Ha Hz Hr Hnu Hv H. exists nu'. split; [done|].
  assert (curval (x_t x') = curval (x_t x1)) as ->.
  { unfold vstore in H. odone H. destruct (alter && _); [now injection H as <-|]. unfold val_set in H. odone H. now injection H as <-. }
  split; [done|]. destruct (vstore_ok nu' alter x1 r a z v x' Hok Ha Hz Hr Hnu Hv H) as [F1 F2 F3 F4].
  split; [done..|]. intros b Hb. rewrite <- Ev. auto.
Qed.

Lemma rewrites_val_set nu nu' x x1 r a z v x' :
  extends (x_t x) nu nu' -> curval (x_t x) <= curval (x_t x1) -> st_ok nu' x1 r -> x_val x1 = x_val x -> is_atom a -> 0 <= z < 2 ^ 32 ->
  runs (x_s x1) r (set_reg a z r) -> nu' v = Some z -> 1 <= v <= curval (x_t x1) ->
  val_set a v x1 = ODone x' -> rewrites nu x r a z x'.
Proof.
  intros Hext Hle Hok Ev Ha Hz Hr Hnu Hv H.
  apply (rewrites_vstore nu nu' false x x1 r a z v x'); try done.
  unfold vstore, val_set, val_at in *. pose proof H as H'. odone H'. rewrite H1 in *. exact H.
Qed.

(** ** The cases of [opt_stmt] *)

Section Case.
Context (nu : numbers) (alter : bool) (x : sst) (r : regs) (o : opcode) (z : Z).
Context (Hok : st_ok nu x r) (Hc : s_code (x_s x) = encode_op o) (Hp : plain_op (x_s x) o = true).
Context (Hz : value_of o (s_k (x_s x)) r = Some z).

(** The registers the statement reads have numbers. *)
Context (Hknown : forall a v, read_as (op_use o (s_k (x_s x))) a -> at_Z (x_val x) a = Some v -> v <> 0).

Let Hrange : 0 <= z < 2 ^ 32.
Proof.
  apply (value_range o (s_k (x_s x)) r); [apply Hok| |done].
  destruct o as [| |sz|sz| | | | | | | | | | | |op src| | |]; auto; left; apply mem_ok_atom in Hp; unfold is_atom, N_ATOMS, BPF_MEMWORDS; lia.
Qed.

Let Hatom : is_atom (op_def o (s_k (x_s x))).
Proof.
  destruct o as [| |sz|sz| | | | | | | | | | | |op src| | |]; try discriminate Hp; try (split; done);
    apply mem_ok_atom in Hp; cbn; unfold is_atom, N_ATOMS, BPF_MEMWORDS; lia.
Qed.

Let Hruns : runs (x_s x) r (set_reg (op_def o (s_k (x_s x))) z r).
Proof. apply runs_op; [done..|apply Hok|done]. Qed.

(** The number of a register the statement reads. *)
Lemma read_ok a v : read_as (op_use o (s_k (x_s x))) a -> val_at x a = ODone v -> 1 <= v <= curval (x_t x) /\ nu v = reg r a.
Proof.
  intros Hr H%val_at_ok. pose proof (Hknown a v Hr H) as Hn0. pose proof (at_Z_bound _ _ _ H).
  unfold at_Z in H. destruct (a <? 0); [done|]. destruct (st_val _ _ _ Hok _ _ H) as [Hv Hn].
  rewrite Z2Nat.id in Hn by lia. split; [lia|auto].
Qed.

(** A value computed from no register. *)
Lemma direct_ok v0 v1 a x' :
  numbered_op o = true -> (forall n, ~ operands (encode_op o) v0 v1 n) -> (forall nu, meaning nu (encode_op o) v0 v1 = Some z) ->
  a = op_def o (s_k (x_s x)) -> ('(v, x) ← x_F (s_code (x_s x)) v0 v1 x; vstore alter a v x) = ODone x' ->
  rewrites nu x r a z x'.
Proof.
  intros Ho Hops Hm -> H. rewrite Hc in H. apply obind_ODone in H as ([v x1] & HF & H).
  destruct (x_F_ok nu x r o v0 v1 v x1 Hok Ho ltac:(intros n Hn; now apply Hops in Hn) HF)
    as (nu' & Hext & Hok' & Es & Ev & Hle & Hv & Hnu & _).
  apply (rewrites_vstore nu nu' alter x x1 r _ z v x'); try done; [now rewrite Es|]. now rewrite Hnu, Hm.
Qed.

(** A constant that is loaded. *)
Lemma imm_ok i a x' :
  u32 i = z -> a = op_def o (s_k (x_s x)) -> ('(v, x) ← x_K i x; vstore alter a v x) = ODone x' -> rewrites nu x r a z x'.
Proof.
  intros Hi -> H. apply obind_ODone in H as ([v x1] & HK & H).
  destruct (x_K_ok nu x r i v x1 Hok HK) as (nu' & Hext & Hok' & Es & Ev & Hle & Hv & Hnu & _).
  apply (rewrites_vstore nu nu' alter x x1 r _ z v x'); try done; [now rewrite Es|]. now rewrite Hnu, Hi.
Qed.

(** A copy of a register whose number is [v]. *)
Lemma copy_ok b a v x' :
  read_as (op_use o (s_k (x_s x))) b -> reg r b = Some z -> a = op_def o (s_k (x_s x)) ->
  val_at x b = ODone v -> vstore alter a v x = ODone x' -> rewrites nu x r a z x'.
Proof.
  intros Hb Hr -> Hv H. destruct (read_ok b v Hb Hv) as [Hv1 Hnu].
  apply (rewrites_vstore nu nu alter x x r _ z v x'); try done. congruence.
Qed.

(** A statement replaced by the load of a constant. *)
Lemma const_ok nu1 k v x1 x2 x' :
  op_def o (s_k (x_s x)) = A_ATOM -> u32 k = z -> x_val x1 = x_val x ->
  extends (x_t x) nu nu1 -> curval (x_t x) <= curval (x_t x1) -> st_ok nu1 x1 r ->
  x_s x1 = set_code_k (BPF_LD ||| BPF_IMM) k (x_s x) -> x_K k x1 = ODone (v, x2) ->
  (vstore alter A_ATOM v x2 = ODone x' \/ val_set A_ATOM v x2 = ODone x') -> rewrites nu x r A_ATOM z x'.
Proof.
  intros Hd Hk Ev Hext1 Hle1 Hok1 Es HK H.
  destruct (x_K_ok nu1 x1 r k v x2 Hok1 HK) as (nu' & Hext & Hok' & Es' & Ev' & Hle & Hv & Hnu & _).
  assert (runs (x_s x2) r (set_reg A_ATOM z r)) as Hr.
  { rewrite Es', Es. apply (runs_op _ LD_IMM); [done..|apply Hok|]. cbn. now rewrite Hk. }
  pose proof (extends_trans _ _ _ _ _ Hext1 Hext Hle1) as Hext'. assert (curval (x_t x) <= curval (x_t x2)) as Hle' by lia.
  assert (x_val x2 = x_val x) as Ev2 by congruence. rewrite Hk in Hnu.
  destruct H as [H|H]; [apply (rewrites_vstore nu nu' alter x x2 r _ z v x')|apply (rewrites_val_set nu nu' x x2 r _ z v x')]; done.
Qed.

Lemma opt_ld_ind_ok sz x' : o = LD_IND sz -> opt_ld_ind alter x = ODone x' -> rewrites nu x r A_ATOM z x'.
Proof.
  intros Eo H. unfold opt_ld_ind in H. apply obind_ODone in H as (vx & Hvx & H). apply obind_ODone in H as (c & Hcst & H).
  destruct (read_ok X_ATOM vx) as [Hvr Hnx]; [subst o; left; done|done|]. change (reg r X_ATOM) with (Some (rX r)) in Hnx.
  pose proof Hz as Hz'. rewrite Eo in Hz'. cbn [value_of] in Hz'. destruct c as [c|].
  - destruct (const_at_ok nu alter _ _ _ (st_table _ _ _ Hok) Hcst) as [_ Hnc]. rewrite Hnx in Hnc. injection Hnc as HX.
    apply obind_ODone in H as ([v x1] & HF & H). rewrite Hc, Eo in HF.
    set (k := s32 (s_k (x_s x) + c)) in *. set (x0 := x_stmt _ x) in HF.
    assert (st_ok nu x0 r) as Hok0 by (now apply (st_ok_extends nu nu x); try apply Hok).
    assert (BPF_LD ||| BPF_ABS ||| BPF_SIZE (encode_op (LD_IND sz)) = encode_op (LD_ABS sz)) as Ecode by (now destruct sz).
    assert (s_code (x_s x0) = encode_op (LD_ABS sz)) as E0 by exact Ecode.
    assert (load_value sz (s32 k) = Some z) as Hlv.
    { rewrite <- Hz'. f_equal. unfold k. rewrite HX. rewrite (s32_id (s32 _)) by apply s32_range.
      rewrite <- (s32_u32 (u32 c + _)), u32_add_l, s32_u32. f_equal. lia. }
    change (x_F (s_code (x_s x0)) k 0 x0 = ODone (v, x1)) in HF. rewrite E0 in HF.
    destruct (x_F_ok nu x0 r (LD_ABS sz) k 0 v x1 Hok0) as (nu' & Hext & Hok' & Es & Ev & Hle & Hv & Hnu & _);
      [done|intros n Hn; now destruct sz|done|].
    eapply (rewrites_vstore nu nu' alter x (x_not_done x1) r A_ATOM z v x'); try done.
    + now apply (st_ok_extends nu' nu' x1); try apply Hok'.
    + change (x_s (x_not_done x1)) with (x_s x1). rewrite Es. apply (runs_op _ (LD_ABS sz)); [done..|apply Hok|done].
    + rewrite Hnu. unfold meaning. now rewrite decode_encode_op.
  - apply obind_ODone in H as ([v x1] & HF & H). rewrite Hc, Eo in HF.
    destruct (x_F_ok nu x r (LD_IND sz) (s_k (x_s x)) vx v x1 Hok) as (nu' & Hext & Hok' & Es & Ev & Hle & Hv & Hnu & _);
      [done|intros n Hn; unfold operands in Hn; rewrite decode_encode_op in Hn; subst; apply Hvr|done|].
    eapply (rewrites_vstore nu nu' alter x x1 r A_ATOM z v x'); try done.
    + rewrite Es. pose proof Hruns as Hr. now rewrite Eo in Hr.
    + rewrite Hnu. unfold meaning. rewrite decode_encode_op. rewrite Hext by lia. rewrite Hnx. cbn. exact Hz'.
Qed.

(** A statement whose value is given a number by its operation. *)
Lemma numbered_ok x1 v0 v1 v x2 x' :
  op_def o (s_k (x_s x)) = A_ATOM -> numbered_op o = true -> x_s x1 = x_s x -> x_val x1 = x_val x ->
  forall nu1, extends (x_t x) nu nu1 -> curval (x_t x) <= curval (x_t x1) -> st_ok nu1 x1 r ->
  (forall n, operands (encode_op o) v0 v1 n -> n <= curval (x_t x1)) ->
  (forall nu2, extends (x_t x1) nu1 nu2 -> meaning nu2 (encode_op o) v0 v1 = Some z) ->
  x_F (s_code (x_s x)) v0 v1 x1 = ODone (v, x2) -> val_set A_ATOM v x2 = ODone x' -> rewrites nu x r A_ATOM z x'.
Proof.
  intros Hd Ho Es Ev nu1 Hext Hle Hok1 Hops Hm HF H. rewrite Hc in HF.
  destruct (x_F_ok nu1 x1 r o v0 v1 v x2 Hok1 Ho Hops HF) as (nu' & Hext' & Hok' & Es' & Ev' & Hle' & Hv & Hnu & _).
  apply (rewrites_val_set nu nu' x x2 r A_ATOM z v x'); try done.
  - now apply (extends_trans nu nu1 nu' (x_t x) (x_t x1)).
  - lia.
  - congruence.
  - rewrite Es', Es. now rewrite <- Hd.
  - rewrite Hnu. now apply Hm.
Qed.

Lemma opt_neg_ok x' : o = NEG -> opt_neg alter x = ODone x' -> rewrites nu x r A_ATOM z x'.
Proof.
  intros Eo H. unfold opt_neg in H. apply obind_ODone in H as (va & Hva & H). apply obind_ODone in H as (c & Hcst & H).
  destruct (read_ok A_ATOM va) as [Hvr Hna]; [rewrite Eo; left; done|done|]. change (reg r A_ATOM) with (Some (rA r)) in Hna.
  pose proof Hz as Hz'. rewrite Eo in Hz'. cbn [value_of] in Hz'. injection Hz' as Hz'. destruct c as [c|].
  - destruct (const_at_ok nu alter _ _ _ (st_table _ _ _ Hok) Hcst) as [_ Hnc]. rewrite Hna in Hnc. injection Hnc as HA.
    apply obind_ODone in H as ([v x1] & HK & H).
    apply (const_ok nu (s32 (- c)) v _ x1 x') in HK; try done; [now rewrite Eo| |now apply st_ok_stmt|now right]. rewrite <- Hz', HA, u32_s32. apply u32_eq_mod.
    exists (- (c / 2 ^ 32)). unfold u32. rewrite Z.mod_eq by lia. lia.
  - apply obind_ODone in H as ([v x1] & HF & H).
    apply (numbered_ok x va 0 v x1 x') with nu; try done; try (rewrite Eo; done).
    + rewrite Eo. intros n Hn. unfold operands in Hn. rewrite decode_encode_op in Hn. lia.
    + intros nu2 Hext. rewrite Eo. unfold meaning. rewrite decode_encode_op, Hext, Hna by lia. cbn. now rewrite Hz'.
Qed.

(** Constant folding. *)
Lemma fold_op_ok op v0 v1 c0 c1 x1 x2 :
  (exists b, vmap_at (x_t x1) v0 = ODone (mk_vmapinfo b c0)) ->
  (exists b, vmap_at (x_t x1) v1 = ODone (mk_vmapinfo b c1)) -> alu op (u32 c0) (u32 c1) = Some z ->
  fold_op op v0 v1 x1 = ODone x2 -> x2 = x_not_done (x_stmt (set_code_k (BPF_LD ||| BPF_IMM) (s32 z) (x_s x1)) x1).
Proof.
  intros [b0 H0] [b1 H1] Ha. unfold fold_op. rewrite H0, H1. cbn [mbind oresult_bind const_val]. unfold fold_alu.
  destruct op; rewrite ?Ha; cbn [oget mbind oresult_bind]; try (now intros [= <-]).
  cbn in Ha. destruct (u32 c1 =? 0); [done|]. injection Ha as ->. cbn. now intros [= <-].
Qed.

Lemma opt_alu_k_value_ok x' : forall op, o = ALU op SrcK -> opt_alu_k_value x = ODone x' -> rewrites nu x r A_ATOM z x'.
Proof.
  intros op Eo H. unfold opt_alu_k_value in H. apply obind_ODone in H as (va & Hva & H).
  apply obind_ODone in H as ([vk x1] & HK & H). apply obind_ODone in H as ([v x2] & HF & H).
  destruct (read_ok A_ATOM va) as [Hvr Hna]; [rewrite Eo; left; done|done|]. change (reg r A_ATOM) with (Some (rA r)) in Hna.
  destruct (x_K_ok nu x r _ vk x1 Hok HK) as (nu1 & Hext & Hok' & Es & Ev & Hle & Hv & Hnu & _).
  pose proof Hz as Hz'. rewrite Eo in Hz'. cbn [value_of] in Hz'. rewrite Es in HF.
  apply (numbered_ok x1 va vk v x2 x') with nu1; try done; try (rewrite Eo; done).
  - rewrite Eo. intros n Hn. unfold operands in Hn. rewrite decode_encode_op in Hn. lia.
  - intros nu2 Hext2. rewrite Eo. unfold meaning. rewrite decode_encode_op.
    rewrite (Hext2 va), (Hext2 vk), (Hext va), Hna, Hnu by lia. exact Hz'.
Qed.

(** A statement that changes nothing. *)
Lemma nop_ok v : read_as (op_use o (s_k (x_s x))) A_ATOM -> val_at x A_ATOM = ODone v -> rA r = z ->
  rewrites nu x r A_ATOM z (x_stmt (s_nop (x_s x)) x).
Proof.
  intros Hr Hv HA. exists nu. split; [done|]. split; [done|]. destruct (read_ok A_ATOM v Hr Hv) as [Hv1 _].
  assert (set_reg A_ATOM z r = r) as Hid by (apply set_reg_id; [apply Hok|done|change (reg r A_ATOM) with (Some (rA r)); congruence]).
  apply val_at_ok in Hv. unfold at_Z in Hv. cbn in Hv.
  split; rewrite ?Hid; [now apply st_ok_stmt|now apply runs_nop|exists v; split; [exact Hv|lia]|done].
Qed.

(** The operation on two constants. *)
Lemma fold_ok op va vb c0 c1 nu1 x1 v x2 x3 x' :
  op_def o (s_k (x_s x)) = A_ATOM -> x_val x1 = x_val x -> x_s x1 = x_s x ->
  extends (x_t x) nu nu1 -> curval (x_t x) <= curval (x_t x1) -> st_ok nu1 x1 r ->
  (exists b, vmap_at (x_t x1) va = ODone (mk_vmapinfo b c0)) -> (exists b, vmap_at (x_t x1) vb = ODone (mk_vmapinfo b c1)) ->
  alu op (u32 c0) (u32 c1) = Some z -> fold_op op va vb x1 = ODone x2 ->
  x_K (s_k (x_s x2)) x2 = ODone (v, x3) -> val_set A_ATOM v x3 = ODone x' -> rewrites nu x r A_ATOM z x'.
Proof.
  intros Hd Ev Es Hext Hle Hok1 H0 H1 Ha Hf HK H. apply (fold_op_ok op va vb c0 c1 x1 x2) in Hf as ->; [|done..].
  cbn [x_s x_not_done x_stmt set_code_k s_k] in HK.
  apply (const_ok nu1 (s32 z) v _ x3 x') in HK; try done; [rewrite u32_s32; now apply u32_id| |cbn; now rewrite Es|now right].
  now apply st_ok_not_done, st_ok_stmt.
Qed.

Lemma vmap_const_at t v c : const_at alter t v = ODone (Some c) -> vmap_at t v = ODone (mk_vmapinfo true c).
Proof.
  unfold const_at. destruct alter; [|done]. intros H. odone H. destruct (is_const a) eqn:E; [|done].
  injection H as <-. unfold vmap_at. rewrite H1. destruct a. cbn in *. now subst.
Qed.

Lemma alu_zero_k op x' :
  o = ALU op SrcK -> s_k (x_s x) = 0 -> op ∈ [MUL; AND] ->
  ('(v, x) ← x_K (s_k (x_s x)) (x_stmt (set_code_k (BPF_LD ||| BPF_IMM) (s_k (x_s x)) (x_s x)) x); val_set A_ATOM v x) = ODone x' ->
  rewrites nu x r A_ATOM z x'.
Proof.
  intros Eo Ek Eop H. apply obind_ODone in H as ([v x2] & HK & H). pose proof Hz as Hz'. rewrite Eo in Hz'. cbn [value_of] in Hz'.
  apply (const_ok nu (s_k (x_s x)) v _ x2 x') in HK; try done; [now rewrite Eo| |now apply st_ok_stmt|now right].
  rewrite Ek in *. change (u32 0) with 0 in *. rewrite !elem_of_cons, elem_of_nil in Eop.
  destruct Eop as [->|[->|[]]]; cbn in Hz'; injection Hz' as <-; [now rewrite Z.mul_0_r|now rewrite Z.land_0_r].
Qed.

Lemma alu_id_k op v :
  o = ALU op SrcK -> s_k (x_s x) = 0 -> op ∈ [ADD; LSH; RSH; OR] -> val_at x A_ATOM = ODone v ->
  rewrites nu x r A_ATOM z (x_stmt (s_nop (x_s x)) x).
Proof.
  intros Eo Ek Eop Hv. apply (nop_ok v); [rewrite Eo; left; done|done|]. pose proof Hz as Hz'. rewrite Eo in Hz'. cbn [value_of] in Hz'.
  pose proof (wf_A _ (fit_regs _ (st_fit _ _ _ Hok))) as HrA. rewrite Ek in Hz'. change (u32 0) with 0 in Hz'.
  rewrite !elem_of_cons, elem_of_nil in Eop. destruct Eop as [->|[->|[->|[->|[]]]]]; cbn in Hz'; injection Hz' as <-.
  - rewrite Z.add_0_r. symmetry. now apply u32_id.
  - symmetry. now apply u32_id.
  - done.
  - now rewrite Z.lor_0_r.
Qed.

Lemma val_at_A : exists va, val_at x A_ATOM = ODone va.
Proof.
  unfold val_at. destruct (at_Z_Some (x_val x) A_ATOM) as [va Hva]; [rewrite (st_len _ _ _ Hok); done|].
  exists va. now rewrite Hva.
Qed.

Lemma opt_alu_k_ok op x' : o = ALU op SrcK -> opt_alu_k alter op x = ODone x' -> rewrites nu x r A_ATOM z x'.
Proof.
  intros Eo H. pose proof Hz as Hz'. rewrite Eo in Hz'. cbn [value_of] in Hz'.
  destruct val_at_A as [va Hva].
  destruct (read_ok A_ATOM va) as [Hvr Hna]; [rewrite Eo; left; done|done|]. change (reg r A_ATOM) with (Some (rA r)) in Hna.
  unfold opt_alu_k in H. destruct (alter && (s_k (x_s x) =? 0) && bool_decide (op ∈ [ADD; LSH; RSH; OR])) eqn:E1.
  { rewrite !andb_true_iff, bool_decide_eq_true, Z.eqb_eq in E1. destruct E1 as [[_ Ek] Eop]. injection H as <-.
    now apply (alu_id_k op va). }
  destruct (alter && (s_k (x_s x) =? 0) && bool_decide (op ∈ [MUL; AND])) eqn:E2.
  { rewrite !andb_true_iff, bool_decide_eq_true, Z.eqb_eq in E2. destruct E2 as [[_ Ek] Eop]. now apply (alu_zero_k op). }
  rewrite Hva in H. cbn [mbind oresult_bind] in H. apply obind_ODone in H as (c & Hcst & H). destruct c as [c|].
  2: { now apply (opt_alu_k_value_ok x' op). }
  destruct (const_at_ok nu alter _ _ _ (st_table _ _ _ Hok) Hcst) as [_ Hnc]. rewrite Hna in Hnc. injection Hnc as HA.
  apply obind_ODone in H as ([vk x1] & HK & H). apply obind_ODone in H as (x2 & Hfold & H).
  apply obind_ODone in H as ([v x3] & HK2 & H).
  destruct (x_K_ok nu x r _ vk x1 Hok HK) as (nu1 & Hext & Hok1 & Es & Ev & Hle & Hv & Hnu & Hvm).
  apply (fold_ok op va vk c (s_k (x_s x)) nu1 x1 v x2 x3 x'); try done; [now rewrite Eo| |eauto|now rewrite <- HA].
  exists true. unfold x_K, K in HK. apply obind_ODone in HK as ([w t] & HF & HK). injection HK as _ <-. cbn.
  apply (F_vmap _ _ _ _ _ _ _ _ HF); [apply (tb_curval nu), Hok|lia|now apply vmap_const_at].
Qed.

Lemma rewrites_state x1 x' : x_t x1 = x_t x -> x_val x1 = x_val x -> rewrites nu x1 r A_ATOM z x' -> rewrites nu x r A_ATOM z x'.
Proof.
  intros Et Ev (nu' & He & Hle & [F1 F2 F3 F4]). rewrite Et in *. exists nu'. split; [done|]. split; [done|].
  split; try done. intros b Hb. rewrite <- Ev. auto.
Qed.
End Case.

(** A plain statement about to be executed with value [z], on known registers. *)
Record ready (nu : numbers) (x : sst) (r : regs) (o : opcode) (z : Z) : Prop := {
  rd_ok : st_ok nu x r;
  rd_code : s_code (x_s x) = encode_op o;
  rd_plain : plain_op (x_s x) o = true;
  rd_value : value_of o (s_k (x_s x)) r = Some z;
  rd_known : forall a v, read_as (op_use o (s_k (x_s x))) a -> at_Z (x_val x) a = Some v -> v <> 0
}.

Lemma ready_read nu x r o z a v :
  ready nu x r o z -> read_as (op_use o (s_k (x_s x))) a -> val_at x a = ODone v -> 1 <= v <= curval (x_t x) /\ nu v = reg r a.
Proof. intros [H1 H2 H3 H4 H5]. now apply (read_ok nu x r o). Qed.

Lemma ready_range nu x r o z : ready nu x r o z -> 0 <= z < 2 ^ 32.
Proof.
  intros [H1 H2 H3 H4 H5]. apply (value_range o (s_k (x_s x)) r); [apply H1| |done].
  destruct o as [| |sz|sz| | | | | | | | | | | |op src| | |]; auto; left; apply mem_ok_atom in H3; unfold is_atom, N_ATOMS, BPF_MEMWORDS; lia.
Qed.

Lemma ready_runs nu x r o z : ready nu x r o z -> runs (x_s x) r (set_reg (op_def o (s_k (x_s x))) z r).
Proof. intros [H1 H2 H3 H4 H5]. apply runs_op; [done..|apply H1|done]. Qed.

Lemma opt_alu_x_k nu alter x r op z c vx x' :
  ready nu x r (ALU op SrcX) z -> val_at x X_ATOM = ODone vx -> const_at alter (x_t x) vx = ODone (Some c) ->
  opt_alu_k_value (x_not_done (x_stmt (set_code_k (BPF_ALU ||| BPF_K ||| alu_bits op) c (x_s x)) x)) = ODone x' ->
  rewrites nu x r A_ATOM z x'.
Proof.
  intros Hrd Hvx Hcx H. pose proof Hrd as [Hok Hc Hp Hz Hk]. set (x1 := x_not_done _) in H.
  destruct (ready_read _ _ _ _ _ X_ATOM vx Hrd ltac:(right; auto) Hvx) as [_ Hnx].
  destruct (const_at_ok nu alter _ _ _ (st_table _ _ _ Hok) Hcx) as [_ Hnc].
  change (reg r X_ATOM) with (Some (rX r)) in Hnx. rewrite Hnx in Hnc. injection Hnc as HX.
  assert (s_code (x_s x1) = encode_op (ALU op SrcK)) as E by (now destruct op).
  apply (rewrites_state nu x r z x1 x'); [done..|].
  apply (opt_alu_k_value_ok nu x1 r (ALU op SrcK) z) with op; try done.
  - now apply st_ok_not_done, st_ok_stmt.
  - cbn [value_of x1 x_s x_not_done x_stmt set_code_k s_k] in *. now rewrite <- HX.
  - intros a v Ha. apply Hk. destruct Ha as [<-|[]]; [right; auto|done].
Qed.

(** The number of the result, when the statement stays. *)
Lemma opt_alu_x_stay nu x r op z va vx x' :
  ready nu x r (ALU op SrcX) z -> val_at x A_ATOM = ODone va -> val_at x X_ATOM = ODone vx ->
  ('(v, x) ← x_F (s_code (x_s x)) va vx x; val_set A_ATOM v x) = ODone x' -> rewrites nu x r A_ATOM z x'.
Proof.
  intros Hrd Hva Hvx H. pose proof Hrd as [Hok Hc Hp Hz Hk]. apply obind_ODone in H as ([v x1] & HF & H).
  destruct (ready_read _ _ _ _ _ A_ATOM va Hrd ltac:(right; auto) Hva) as [Hvar Hna].
  destruct (ready_read _ _ _ _ _ X_ATOM vx Hrd ltac:(right; auto) Hvx) as [Hvxr Hnx].
  apply (numbered_ok nu x r (ALU op SrcX) z) with (x1 := x) (v0 := va) (v1 := vx) (v := v) (x2 := x1) (nu1 := nu); try done.
  - intros n Hn. unfold operands in Hn. rewrite decode_encode_op in Hn. lia.
  - intros nu2 Hext. unfold meaning. rewrite decode_encode_op, (Hext va), (Hext vx), Hna, Hnx by lia. exact Hz.
Qed.

(** The accumulator is 0. *)
Lemma opt_alu_x_zero nu alter x r op z va vx x' :
  ready nu x r (ALU op SrcX) z -> val_at x A_ATOM = ODone va -> val_at x X_ATOM = ODone vx -> rA r = 0 ->
  (op ∈ [ADD; OR] /\ vstore alter A_ATOM vx (x_stmt (set_code_k (BPF_MISC ||| BPF_TXA) (s_k (x_s x)) (x_s x)) x) = ODone x') \/
  (op ∈ [MUL; DIV; AND; LSH; RSH] /\
   ('(v, x) ← x_K 0 (x_stmt (set_code_k (BPF_LD ||| BPF_IMM) 0 (x_s x)) x); vstore alter A_ATOM v x) = ODone x') ->
  rewrites nu x r A_ATOM z x'.
Proof.
  intros Hrd Hva Hvx HA H. pose proof Hrd as [Hok Hc Hp Hz Hk]. pose proof (wf_X _ (fit_regs _ (st_fit _ _ _ Hok))) as HrX.
  destruct (ready_read _ _ _ _ _ X_ATOM vx Hrd ltac:(right; auto) Hvx) as [Hvxr Hnx]. change (reg r X_ATOM) with (Some (rX r)) in Hnx.
  pose proof Hz as Hv0. cbn [value_of] in Hv0. rewrite HA in Hv0. destruct H as [[Hop H]|[Hop H]].
  - assert (rX r = z) as HX.
    { rewrite !elem_of_cons, elem_of_nil in Hop. destruct Hop as [->|[->|[]]]; cbn in Hv0; injection Hv0 as <-; [|done].
      rewrite Z.add_0_l. symmetry. now apply u32_id. }
    apply (rewrites_vstore nu nu alter x (x_stmt (set_code_k (BPF_MISC ||| BPF_TXA) (s_k (x_s x)) (x_s x)) x) r A_ATOM z vx x');
      try done; [now apply st_ok_stmt|apply (ready_range _ _ _ _ _ Hrd)| |congruence].
    apply (runs_op _ TXA); [done..|apply Hok|cbn; congruence].
  - assert (z = 0) as ->.
    { rewrite !elem_of_cons, elem_of_nil in Hop.
      destruct Hop as [->|[->|[->|[->|[->|[]]]]]]; cbn in Hv0; repeat case_match; try discriminate; injection Hv0 as <-; try done.
      - now rewrite Z.shiftl_0_l.
      - now rewrite Z.shiftr_0_l. }
    apply obind_ODone in H as ([v x1] & HK & H).
    apply (const_ok nu alter x r (ALU op SrcX) 0) with (nu1 := nu) (k := 0) (v := v)
      (x1 := x_stmt (set_code_k (BPF_LD ||| BPF_IMM) 0 (x_s x)) x) (x2 := x1); try done; [now apply st_ok_stmt|now left].
Qed.

Lemma opt_alu_x_ok nu alter x r op z x' :
  ready nu x r (ALU op SrcX) z -> opt_alu_x alter op x = ODone x' -> rewrites nu x r A_ATOM z x'.
Proof.
  intros Hrd H. pose proof Hrd as [Hok Hc Hp Hz Hk]. unfold opt_alu_x in H.
  apply obind_ODone in H as (va & Hva & H). apply obind_ODone in H as (vx & Hvx & H).
  apply obind_ODone in H as (cx & Hcx & H). apply obind_ODone in H as (ca & Hca & H).
  destruct (ready_read _ _ _ _ _ A_ATOM va Hrd ltac:(right; auto) Hva) as [Hvar Hna].
  destruct (ready_read _ _ _ _ _ X_ATOM vx Hrd ltac:(right; auto) Hvx) as [Hvxr Hnx].
  change (reg r X_ATOM) with (Some (rX r)) in Hnx. change (reg r A_ATOM) with (Some (rA r)) in Hna.
  assert (forall c, ca = Some c -> rA r = u32 c) as HAc.
  { intros c ->. destruct (const_at_ok nu alter _ _ _ (st_table _ _ _ Hok) Hca) as [_ E]. congruence. }
  assert (forall c, cx = Some c -> rX r = u32 c) as HXc.
  { intros c ->. destruct (const_at_ok nu alter _ _ _ (st_table _ _ _ Hok) Hcx) as [_ E]. congruence. }
  destruct cx as [cx|]; [destruct ca as [ca|]|].
  - apply obind_ODone in H as (x2 & Hf & H). apply obind_ODone in H as ([v x3] & HK & H).
    apply (fold_ok nu alter x r (ALU op SrcX) z) with (op := op) (va := va) (vb := vx) (c0 := ca) (c1 := cx) (nu1 := nu) (x1 := x)
      (v := v) (x2 := x2) (x3 := x3); try done.
    + exists true. now apply (vmap_const_at alter).
    + exists true. now apply (vmap_const_at alter).
    + cbn [value_of] in Hz. now rewrite <- (HAc ca), <- (HXc cx).
  - now apply (opt_alu_x_k nu alter x r op z cx vx).
  - destruct ca as [[| |]|]; try now apply (opt_alu_x_stay nu x r op z va vx).
    destruct (bool_decide (op ∈ [ADD; OR])) eqn:E1;
      [|destruct (bool_decide (op ∈ [MUL; DIV; AND; LSH; RSH])) eqn:E2; [|now apply (opt_alu_x_stay nu x r op z va vx)]].
    + apply bool_decide_eq_true in E1. apply (opt_alu_x_zero nu alter x r op z va vx); [done..|exact (HAc 0 eq_refl)|now left].
    + apply bool_decide_eq_true in E2. apply (opt_alu_x_zero nu alter x r op z va vx); [done..|exact (HAc 0 eq_refl)|now right].
Qed.

Lemma opt_load_mem_ok nu alter x r o imm a z x' :
  ready nu x r o z -> (o = LD_MEM /\ imm = encode_op LD_IMM /\ a = A_ATOM) \/ (o = LDX_MEM /\ imm = encode_op LDX_IMM /\ a = X_ATOM) ->
  opt_load_mem alter a imm x = ODone x' -> rewrites nu x r a z x'.
Proof.
  intros Hrd Ho H. pose proof Hrd as [Hok Hc Hp Hz Hk]. unfold opt_load_mem in H.
  apply obind_ODone in H as (v & Hv & H). apply obind_ODone in H as (c & Hcst & H).
  assert (reg r (s_k (x_s x)) = Some z) as Hreg by (destruct Ho as [(-> & _)|(-> & _)]; exact Hz).
  destruct (ready_read _ _ _ _ _ (s_k (x_s x)) v Hrd) as [Hvr Hn]; [destruct Ho as [(-> & _)|(-> & _)]; now left|done|].
  pose proof (ready_range _ _ _ _ _ Hrd) as Hrg. pose proof (ready_runs _ _ _ _ _ Hrd) as Hrun.
  assert (is_atom a) as Ha by (destruct Ho as [(_ & _ & ->)|(_ & _ & ->)]; split; done).
  assert (op_def o (s_k (x_s x)) = a) as Hd by (destruct Ho as [(-> & _ & ->)|(-> & _ & ->)]; done).
  destruct c as [c|].
  - destruct (const_at_ok nu alter _ _ _ (st_table _ _ _ Hok) Hcst) as [_ Hnc]. rewrite Hn, Hreg in Hnc. injection Hnc as Hzc.
    apply (rewrites_vstore nu nu alter x (x_not_done (x_stmt (set_code_k imm c (x_s x)) x)) r a z v x'); try done;
      [now apply st_ok_not_done, st_ok_stmt| |congruence].
    destruct Ho as [(_ & -> & ->)|(_ & -> & ->)];
      [apply (runs_op _ LD_IMM)|apply (runs_op _ LDX_IMM)]; try done; try apply Hok; cbn; congruence.
  - rewrite Hd in Hrun. apply (rewrites_vstore nu nu alter x x r a z v x'); try done. congruence.
Qed.

(** ** [opt_stmt] *)

Lemma opt_stmt_ok nu alter x r o z x' :
  ready nu x r o z -> o <> LDX_LEN -> opt_stmt alter x = ODone x' -> rewrites nu x r (op_def o (s_k (x_s x))) z x'.
Proof.
  intros Hrd Hl H. pose proof Hrd as [Hok Hc Hp Hz Hk]. unfold opt_stmt in H. rewrite Hc, decode_encode_op in H.
  assert (forall v0 v1 n, (o = LD_LEN \/ o = LDX_MSH \/ (exists sz, o = LD_ABS sz)) -> ~ operands (encode_op o) v0 v1 n) as Hno.
  { intros v0 v1 n Ho. unfold operands. rewrite decode_encode_op. now destruct Ho as [-> |[-> |[sz ->]]]. }
  assert (forall m, (o = LD_LEN \/ o = LDX_MSH \/ (exists sz, o = LD_ABS sz)) -> meaning m (encode_op o) (s_k (x_s x)) 0 = Some z) as Hm.
  { intros m Ho. unfold meaning. rewrite decode_encode_op. now destruct Ho as [-> |[-> |[sz ->]]]. }
  destruct o as [| |sz|sz| | | | | | | | | | | |op src| | |]; try discriminate Hp; try done; cbn [op_def] in *.
  - apply (direct_ok nu alter x r (LD_ABS sz) z Hok Hc Hp Hz) with (s_k (x_s x)) 0; eauto 10.
  - now apply (opt_ld_ind_ok nu alter x r (LD_IND sz) z Hok Hc Hp Hz Hk sz).
  - apply (direct_ok nu alter x r LD_LEN z Hok Hc Hp Hz) with 0 0; eauto 10; now rewrite Hc.
  - apply (direct_ok nu alter x r LDX_MSH z Hok Hc Hp Hz) with (s_k (x_s x)) 0; eauto 10; now rewrite Hc.
  - apply (imm_ok nu alter x r LD_IMM z Hok Hc Hp Hz) with (s_k (x_s x)); try done. cbn [value_of] in Hz. congruence.
  - apply (imm_ok nu alter x r LDX_IMM z Hok Hc Hp Hz) with (s_k (x_s x)); try done. cbn [value_of] in Hz. congruence.
  - apply (opt_load_mem_ok nu alter x r LD_MEM (BPF_LD ||| BPF_IMM)); auto.
  - apply (opt_load_mem_ok nu alter x r LDX_MEM (BPF_LDX ||| BPF_IMM)); auto.
  - apply obind_ODone in H as (v & Hv & H). apply (copy_ok nu alter x r ST z Hok Hc Hp Hz Hk) with A_ATOM v; try done. now left.
  - apply obind_ODone in H as (v & Hv & H). apply (copy_ok nu alter x r STX z Hok Hc Hp Hz Hk) with X_ATOM v; try done. now left.
  - destruct src; [now apply (opt_alu_k_ok nu alter x r (ALU op SrcK) z Hok Hc Hp Hz Hk op)|].
    now apply (opt_alu_x_ok nu alter x r op).
  - now apply (opt_neg_ok nu alter x r NEG z Hok Hc Hp Hz Hk).
  - apply obind_ODone in H as (v & Hv & H). apply (copy_ok nu alter x r TAX z Hok Hc Hp Hz Hk) with A_ATOM v; try done. now left.
  - apply obind_ODone in H as (v & Hv & H). apply (copy_ok nu alter x r TXA z Hok Hc Hp Hz Hk) with X_ATOM v; try done. now left.
Qed.
End Values.
