(* ===== verification/OptNumbers.v ===== *)
(** * Value numbering ends (optimize.c)

    [opt_stmt] takes at most two numbers from the table and looks up only numbers that are
    there, so a table with room for two numbers per statement is enough: [opt_stmts] ends.
    Together with the soundness of each rewriting this gives the theorem about a block. *)
From stdpp Require Import base numbers list gmap.
From Stdlib Require Import Strings.Byte.
From S2P Require Import Prelude BpfInsn BpfFilter BpfFilterProofs Icode Layout LayoutProofs.
From S2P Require Import OptState OptFlow OptValue OptBlock OptLoop OptGraph OptLevels OptLive OptValueProofs.
Open Scope Z_scope.

(** ** Room in the table *)

(** There is room for more than [n] numbers. *)
Record room (t : vtable) (n : Z) : Prop := {
  rm_hash : length (hashtbl t) = Z.to_nat MODULUS;
  rm_vmap : length (vmap t) = Z.to_nat (maxval t);
  rm_curval : 0 <= curval t;
  rm_max : curval t + n < maxval t
}.

Lemma F_hash_range code v0 v1 : 0 <= F_hash code v0 v1 < MODULUS.
Proof. apply Z.mod_pos_bound. done. Qed.

Lemma F_room code v0 v1 t n :
  room t (n + 1) -> 0 <= n ->
  exists v t', F code v0 v1 t = ODone (v, t') /\ room t' n /\ curval t <= curval t' <= curval t + 1 /\ maxval t' = maxval t.
Proof.
  intros [Hh Hv Hc Hm] Hn. unfold F. pose proof (F_hash_range code v0 v1) as Hr. set (h := Z.to_nat _).
  destruct (lookup_lt_is_Some_2 (hashtbl t) h) as [chain Hch]; [unfold h; lia|]. rewrite Hch. cbn [oget mbind oresult_bind].
  destruct (List.find _ chain) as [q|].
  - exists (v_val q), t. split; [done|]. split; [split; try done; lia|]. lia.
  - destruct (Z.ltb_spec (curval t + 1) (maxval t)); [|lia]. destruct (Z.ltb_spec (curval t) (maxval t)); [|lia].
    destruct (is_imm code); cbn [mbind oresult_bind]; do 2 eexists; (split; [reflexivity|]); (split; [|cbn; lia]);
      (split; cbn [hashtbl vmap curval maxval]; rewrite ?length_insert; try done; lia).
Qed.

(** A state with room, whose numbers are in the table. *)
Record spacious (x : sst) (n : Z) : Prop := {
  sp_room : room (x_t x) n;
  sp_len : length (x_val x) = Z.to_nat N_ATOMS
}.

Lemma spacious_stmt s x n : spacious x n -> spacious (x_stmt s x) n.
Proof. now intros []. Qed.

Lemma spacious_not_done x n : spacious x n -> spacious (x_not_done x) n.
Proof. now intros []. Qed.

Lemma spacious_weaken x n m : spacious x n -> m <= n -> spacious x m.
Proof. intros [[] ?] ?. split; [split|]; try done. lia. Qed.

Create HintDb room.
#[export] Hint Resolve spacious_stmt spacious_not_done : room.

Lemma x_F_room code v0 v1 x n :
  spacious x (n + 1) -> 0 <= n -> exists v x', x_F code v0 v1 x = ODone (v, x') /\ spacious x' n /\
    x_val x' = x_val x /\ x_s x' = x_s x /\ curval (x_t x) <= curval (x_t x').
Proof.
  intros [Hr Hl] Hn. destruct (F_room code v0 v1 _ n Hr Hn) as (v & t' & E & Hr' & Hc & _).
  exists v, (x_table t' x). unfold x_F. rewrite E. split; [done|]. split; [now split|]. split; [done|]. split; [done|]. cbn. lia.
Qed.

Lemma x_K_room i x n :
  spacious x (n + 1) -> 0 <= n -> exists v x', x_K i x = ODone (v, x') /\ spacious x' n /\
    x_val x' = x_val x /\ x_s x' = x_s x /\ curval (x_t x) <= curval (x_t x').
Proof. apply (x_F_room (encode_op LD_IMM)). Qed.

Lemma val_at_room x n a : spacious x n -> is_atom a -> exists v, val_at x a = ODone v.
Proof.
  intros [_ Hl] [H0 H1]. unfold val_at. destruct (at_Z_Some (x_val x) a) as [v Hv]; [unfold N_ATOMS in *; lia|].
  exists v. now rewrite Hv.
Qed.

Lemma val_set_room x n a v : spacious x n -> is_atom a -> exists x', val_set a v x = ODone x' /\ spacious x' n.
Proof.
  intros Hs Ha. destruct (val_at_room x n a Hs Ha) as [w Hw]. unfold val_set. rewrite Hw. cbn [mbind oresult_bind].
  eexists. split; [reflexivity|]. destruct Hs. split; cbn; [done|now rewrite length_insert].
Qed.

Lemma vstore_room alter x n a v : spacious x n -> is_atom a -> exists x', vstore alter a v x = ODone x' /\ spacious x' n.
Proof.
  intros Hs Ha. destruct (val_at_room x n a Hs Ha) as [w Hw]. unfold vstore. rewrite Hw. cbn [mbind oresult_bind].
  destruct (alter && _); [eexists; split; [reflexivity|auto with room]|now apply val_set_room].
Qed.

Lemma vmap_at_room t n v : room t n -> 0 <= n -> 0 <= v <= curval t -> exists m, vmap_at t v = ODone m.
Proof.
  intros [_ Hv _ Hm] Hn Hr. unfold vmap_at. destruct (at_Z_Some (vmap t) v) as [m E]; [lia|]. exists m. now rewrite E.
Qed.

Lemma const_at_room alter t n v : room t n -> 0 <= n -> 0 <= v <= curval t -> exists c, const_at alter t v = ODone c.
Proof.
  intros Hr Hn Hv. unfold const_at. destruct alter; [|eauto]. destruct (vmap_at_room t n v Hr Hn Hv) as [m ->].
  cbn. destruct (is_const m); eauto.
Qed.

(** After lookups, a store. *)
Lemma F_vstore_room alter code v0 v1 a x n :
  spacious x (n + 1) -> 0 <= n -> is_atom a ->
  exists x', ('(v, x) ← x_F code v0 v1 x; vstore alter a v x) = ODone x' /\ spacious x' n.
Proof.
  intros Hs Hn Ha. destruct (x_F_room code v0 v1 x n Hs Hn) as (v & x1 & -> & Hs1 & _). cbn. now apply vstore_room.
Qed.

Lemma F_val_set_room code v0 v1 a x n :
  spacious x (n + 1) -> 0 <= n -> is_atom a ->
  exists x', ('(v, x) ← x_F code v0 v1 x; val_set a v x) = ODone x' /\ spacious x' n.
Proof.
  intros Hs Hn Ha. destruct (x_F_room code v0 v1 x n Hs Hn) as (v & x1 & -> & Hs1 & _). cbn. now apply val_set_room.
Qed.

Lemma opt_alu_k_value_room x n : spacious x (n + 2) -> 0 <= n -> exists x', opt_alu_k_value x = ODone x' /\ spacious x' n.
Proof.
  intros Hs Hn. unfold opt_alu_k_value. destruct (val_at_room x _ A_ATOM Hs) as [va ->]; [done|]. cbn [mbind oresult_bind].
  destruct (x_K_room (s_k (x_s x)) x (n + 1)) as (vk & x1 & -> & Hs1 & _); [now replace (n + 1 + 1) with (n + 2) by lia|lia|].
  cbn [mbind oresult_bind]. now apply F_val_set_room.
Qed.


(** ** One statement *)

Section Total.
Context (p : list byte) (wirelen buflen : Z) (Hwire : 0 <= wirelen < 2 ^ 32).
Context (nu : numbers) (alter : bool) (x : sst) (r : regs) (o : opcode) (z n : Z).
Context (Hrd : ready p wirelen buflen nu x r o z) (Hs : spacious x (n + 2)) (Hn : 0 <= n).

Let Hs1 : spacious x (n + 1).
Proof. apply (spacious_weaken x (n + 2)); [done|lia]. Qed.
Let Hs0 : spacious x n.
Proof. apply (spacious_weaken x (n + 2)); [done|lia]. Qed.

(** A number found in a register, and what is known of it. *)
Lemma number_room a : is_atom a ->
  exists v c, val_at x a = ODone v /\ 0 <= v <= curval (x_t x) /\ const_at alter (x_t x) v = ODone c.
Proof.
  intros Ha. destruct (val_at_room x _ a Hs Ha) as [v Hv]. pose proof Hv as Hb. apply val_at_ok in Hb.
  unfold at_Z in Hb. destruct (a <? 0); [done|]. destruct (st_val _ _ _ _ _ _ (rd_ok _ _ _ _ _ _ _ _ Hrd) _ _ Hb) as [Hr _].
  destruct (const_at_room alter (x_t x) (n + 2) v) as [c Hc]; [apply Hs|lia|done|]. eauto.
Qed.

Lemma opt_ld_ind_room : exists x', opt_ld_ind alter x = ODone x' /\ spacious x' n.
Proof.
  unfold opt_ld_ind. destruct (number_room X_ATOM) as (v & c & -> & Hv & Hc); [done|]. cbn [mbind oresult_bind].
  rewrite Hc. cbn [mbind oresult_bind]. destruct c as [c|].
  - match goal with |- context [x_F ?c ?k ?w ?y] => destruct (x_F_room c k w y n) as (w1 & x1 & -> & H1 & _) end;
      [auto with room|done|]. cbn [mbind oresult_bind]. apply vstore_room; auto with room. done.
  - now apply F_vstore_room.
Qed.

Lemma opt_neg_room : exists x', opt_neg alter x = ODone x' /\ spacious x' n.
Proof.
  unfold opt_neg. destruct (number_room A_ATOM) as (v & c & -> & Hv & Hc); [done|]. cbn [mbind oresult_bind].
  rewrite Hc. cbn [mbind oresult_bind]. destruct c as [c|]; [|now apply F_val_set_room].
  apply F_val_set_room; auto with room. done.
Qed.

Lemma fold_op_room op va vb c0 c1 b0 b1 x1 w :
  vmap_at (x_t x1) va = ODone (mk_vmapinfo b0 c0) -> vmap_at (x_t x1) vb = ODone (mk_vmapinfo b1 c1) ->
  alu op (u32 c0) (u32 c1) = Some w ->
  fold_op op va vb x1 = ODone (x_not_done (x_stmt (set_code_k (BPF_LD ||| BPF_IMM) (s32 w) (x_s x1)) x1)).
Proof.
  intros H0 H1 Ha. unfold fold_op. rewrite H0, H1. cbn [mbind oresult_bind const_val]. unfold fold_alu.
  destruct op; rewrite ?Ha; try done. cbn in Ha. destruct (u32 c1 =? 0); [done|]. now injection Ha as ->.
Qed.

(** The register behind a constant. *)
Lemma number_const a v c :
  read_as (op_use o (s_k (x_s x))) a -> val_at x a = ODone v -> const_at alter (x_t x) v = ODone (Some c) ->
  reg r a = Some (u32 c).
Proof.
  intros Ha Hv Hc. destruct (ready_read _ _ _ _ _ _ _ _ a v Hrd Ha Hv) as [_ <-].
  now apply (const_at_ok p wirelen buflen nu alter _ _ _ (st_table _ _ _ _ _ _ (rd_ok _ _ _ _ _ _ _ _ Hrd))).
Qed.

Lemma opt_alu_k_room op : o = ALU op SrcK -> exists x', opt_alu_k alter op x = ODone x' /\ spacious x' n.
Proof.
  intros Eo. pose proof (rd_value _ _ _ _ _ _ _ _ Hrd) as Hz. rewrite Eo in Hz. cbn [value_of] in Hz. unfold opt_alu_k.
  destruct (alter && _ && _); [eexists; split; [reflexivity|auto with room]|].
  destruct (alter && _ && _); [apply F_val_set_room; auto with room; done|].
  destruct (number_room A_ATOM) as (v & c & Hv & Hvr & Hc); [done|]. rewrite Hv. cbn [mbind oresult_bind].
  rewrite Hc. cbn [mbind oresult_bind]. destruct c as [c|]; [|now apply opt_alu_k_value_room].
  pose proof (number_const A_ATOM v c) as HA. rewrite Eo in HA. specialize (HA ltac:(now left) Hv Hc). injection HA as HA.
  destruct (x_K_room (s_k (x_s x)) x (n + 1)) as (vk & x1 & EK & H1 & _); [now replace (n + 1 + 1) with (n + 2) by lia|lia|].
  destruct (x_K_ok p wirelen buflen Hwire nu x r _ vk x1 (rd_ok _ _ _ _ _ _ _ _ Hrd) EK) as (_ & _ & _ & _ & _ & _ & _ & _ & Hvm).
  rewrite EK. cbn [mbind oresult_bind]. unfold x_K, K in EK. apply obind_ODone in EK as ([w t] & HF & EK). injection EK as <- <-.
  pose proof (F_vmap _ _ _ _ _ _ _ _ HF (rm_curval _ _ (sp_room _ _ Hs)) (proj2 Hvr) (vmap_const_at _ _ _ _ Hc)) as Hvm0.
  rewrite (fold_op_room op v w c (s_k (x_s x)) true true (x_table t x) z); [|done..|now rewrite <- HA].
  cbn [mbind oresult_bind]. apply F_val_set_room; auto with room. done.
Qed.

Lemma opt_alu_x_room op : o = ALU op SrcX -> exists x', opt_alu_x alter op x = ODone x' /\ spacious x' n.
Proof.
  intros Eo. pose proof (rd_value _ _ _ _ _ _ _ _ Hrd) as Hz. rewrite Eo in Hz. cbn [value_of] in Hz. unfold opt_alu_x.
  destruct (number_room A_ATOM) as (va & ca & Hva & Hvar & Hca); [done|].
  destruct (number_room X_ATOM) as (vx & cx & Hvx & Hvxr & Hcx); [done|].
  rewrite Hva. cbn [mbind oresult_bind]. rewrite Hvx. cbn [mbind oresult_bind]. rewrite Hcx. cbn [mbind oresult_bind].
  rewrite Hca. cbn [mbind oresult_bind].
  assert (forall c, ca = Some c -> rA r = u32 c) as HA.
  { intros c ->. pose proof (number_const A_ATOM va c) as H. rewrite Eo in H. specialize (H ltac:(right; auto) Hva Hca). now injection H. }
  assert (forall c, cx = Some c -> rX r = u32 c) as HX.
  { intros c ->. pose proof (number_const X_ATOM vx c) as H. rewrite Eo in H. specialize (H ltac:(right; auto) Hvx Hcx). now injection H. }
  assert (forall x', spacious x' (n + 1) -> exists x'', ('(v, x) ← x_F (s_code (x_s x)) va vx x'; val_set A_ATOM v x) = ODone x'' /\ spacious x'' n)
    as Hstay by (intros x' H; now apply F_val_set_room).
  destruct cx as [cx|]; [destruct ca as [ca|]|].
  - rewrite (fold_op_room op va vx ca cx true true x z); [|now apply (vmap_const_at alter)..|now rewrite <- (HA ca), <- (HX cx)].
    cbn [mbind oresult_bind]. apply F_val_set_room; auto with room. done.
  - apply opt_alu_k_value_room; auto with room.
  - destruct ca as [[| |]|]; try now apply Hstay.
    destruct (bool_decide _); [apply vstore_room; auto with room; done|].
    destruct (bool_decide _); [|now apply Hstay]. apply F_vstore_room; auto with room. done.
Qed.

Lemma opt_load_mem_room a imm :
  is_atom a -> 0 <= s_k (x_s x) < BPF_MEMWORDS -> exists x', opt_load_mem alter a imm x = ODone x' /\ spacious x' n.
Proof.
  intros Ha Hk. unfold opt_load_mem.
  destruct (number_room (s_k (x_s x))) as (v & c & -> & Hv & Hc); [unfold is_atom, N_ATOMS, BPF_MEMWORDS in *; lia|].
  cbn [mbind oresult_bind]. rewrite Hc. cbn [mbind oresult_bind]. apply vstore_room; [|done]. destruct c; auto with room.
Qed.

(** [opt_stmt] ends, having taken at most two numbers. *)
Lemma opt_stmt_room : exists x', opt_stmt alter x = ODone x' /\ spacious x' n.
Proof.
  unfold opt_stmt. rewrite (rd_code _ _ _ _ _ _ _ _ Hrd), decode_encode_op. pose proof (rd_plain _ _ _ _ _ _ _ _ Hrd) as Hp.
  assert (mem_ok (x_s x) = true -> is_atom (s_k (x_s x))) as Hatom.
  { intros H%mem_ok_atom. unfold is_atom, N_ATOMS, BPF_MEMWORDS. lia. }
  assert (forall a b, is_atom a -> is_atom b -> exists x', (v ← val_at x a; vstore alter b v x) = ODone x' /\ spacious x' n) as Hcopy.
  { intros a b Ha Hb. destruct (val_at_room x _ a Hs Ha) as [v ->]. cbn. now apply vstore_room. }
  assert (o = o) as E by done. revert E Hp. generalize o at 1 3 4. intros o' E Hp.
  destruct o' as [| |sz|sz| | | | | | | | | | | |op [|]| | |]; try discriminate Hp; cbn [plain_op] in Hp; cbn match;
    try (eexists; split; [reflexivity|done]); try (apply F_vstore_room; done); try (apply Hcopy; auto; done).
  - apply opt_ld_ind_room.
  - apply opt_load_mem_room; [done|]. now apply mem_ok_atom.
  - apply opt_load_mem_room; [done|]. now apply mem_ok_atom.
  - now apply opt_alu_k_room.
  - now apply opt_alu_x_room.
  - apply opt_neg_room.
Qed.
End Total.

(** ** A block *)

Definition reads (s : stmt) (a : Z) : bool :=
  (atomuse s =? a) || ((atomuse s =? AX_ATOM) && ((a =? A_ATOM) || (a =? X_ATOM))).

Lemma reads_spec s a : reads s a = true <-> read_as (atomuse s) a.
Proof. unfold reads, read_as. rewrite orb_true_iff, andb_true_iff, orb_true_iff, !Z.eqb_eq. tauto. Qed.

(** Statements that are numbered. *)
Definition numberable (s : stmt) : bool := plain s && negb (s_code s =? encode_op LDX_LEN).

(** Every register read has a number at the entry or is assigned before. *)
Fixpoint reads_known (known : Z -> bool) (l : list stmt) : bool :=
  match l with
  | [] => true
  | s :: l' =>
      if s_code s =? NOP then reads_known known l'
      else forallb (fun a => negb (reads s (Z.of_nat a)) || known (Z.of_nat a)) (seq 0 (Z.to_nat N_ATOMS))
           && reads_known (fun a => known a || (a =? atomdef s)) l'
  end.

Definition known_in (val : list Z) (a : Z) : bool := match at_Z val a with Some v => negb (v =? 0) | None => false end.

(** The numbers of the registers are right. *)
Definition vals_ok (nu : numbers) (t : vtable) (val : list Z) (r : regs) : Prop :=
  length val = Z.to_nat N_ATOMS /\
  forall a n, val !! a = Some n -> 0 <= n <= curval t /\ (n <> 0 -> nu n = reg r (Z.of_nat a)).

Lemma reads_known_weaken k k' l : (forall a, k a = true -> k' a = true) -> reads_known k l = true -> reads_known k' l = true.
Proof.
  revert k k'. induction l as [|s l IH]; intros k k' H; cbn [reads_known]; [done|]. destruct (_ =? NOP); [now apply IH|].
  rewrite !andb_true_iff, !forallb_forall. intros [H1 H2]. split.
  - intros a Ha. specialize (H1 a Ha). apply orb_true_iff in H1 as [->|Hk]; [done|]. rewrite (H _ Hk). apply orb_true_r.
  - apply (IH (fun a => k a || (a =? atomdef s))); [|done]. intros a. rewrite !orb_true_iff. intros [?|?]; auto.
Qed.

Lemma vals_st_ok p wirelen buflen nu s val t d r :
  table_ok p wirelen buflen nu t -> vals_ok nu t val r -> fit r -> st_ok p wirelen buflen nu (mk_sst s val t d) r.
Proof. intros ? [? ?] ?. now split. Qed.

Section Block.
Context (p : list byte) (wirelen buflen : Z) (Hwire : 0 <= wirelen < 2 ^ 32).

(** A statement whose reads are known is ready. *)
Lemma reads_known_ready nu o s val t d l r z :
  s_code s = encode_op o -> plain_op s o = true -> value_of p wirelen buflen o (s_k s) r = Some z ->
  table_ok p wirelen buflen nu t -> vals_ok nu t val r -> fit r -> reads_known (known_in val) (s :: l) = true ->
  ready p wirelen buflen nu (mk_sst s val t d) r o z.
Proof.
  intros Hc Hpo Hz Ht Hv Hf Hk. cbn [reads_known] in Hk. pose proof (encode_op_range o).
  destruct (Z.eqb_spec (s_code s) NOP) as [E|_]; [unfold NOP in E; lia|]. apply andb_true_iff in Hk as [Hk _].
  rewrite forallb_forall in Hk. split; cbn [x_s x_val]; try done; [now apply vals_st_ok|].
  intros a v Ha Hav. rewrite <- (atomuse_op s o Hc) in Ha.
  pose proof (at_Z_bound _ _ _ Hav) as Hb. rewrite (proj1 Hv) in Hb. specialize (Hk (Z.to_nat a)). rewrite Z2Nat.id in Hk by lia.
  rewrite (proj2 (reads_spec _ _) Ha) in Hk. unfold known_in in Hk. rewrite Hav in Hk. cbn in Hk.
  assert ((v =? 0) = false) as Ev; [|lia]. apply negb_true_iff, Hk, list_elem_of_In, elem_of_seq. lia.
Qed.

(** After it, the register it defines is known too. *)
Lemma reads_known_next nu o s val t d l r z x' :
  s_code s = encode_op o -> plain_op s o = true -> reads_known (known_in val) (s :: l) = true ->
  finished p wirelen buflen nu (mk_sst s val t d) r (op_def o (s_k s)) z x' -> reads_known (known_in (x_val x')) l = true.
Proof.
  intros Hc Hpo Hk [_ _ (m & Hm & Hm0) F4]. cbn [reads_known] in Hk. pose proof (encode_op_range o).
  destruct (Z.eqb_spec (s_code s) NOP) as [E|_]; [unfold NOP in E; lia|]. apply andb_true_iff in Hk as [_ Hk].
  apply (reads_known_weaken (fun a => known_in val a || (a =? atomdef s))); [|done].
  rewrite (atomdef_op s o Hc). intros a. unfold known_in, at_Z. rewrite orb_true_iff, Z.eqb_eq. intros [Ha| ->].
  - destruct (Z.ltb_spec a 0); [done|]. destruct (decide (Z.to_nat a = Z.to_nat (op_def o (s_k s)))) as [E|E].
    + rewrite E, Hm. lia.
    + rewrite F4 by done. exact Ha.
  - destruct (Z.ltb_spec (op_def o (s_k s)) 0) as [Hneg|]; [|rewrite Hm; lia].
    exfalso. clear - Hneg Hpo. destruct o as [| |sz|sz| | | | | | | | | | | |op src| | |]; try discriminate Hpo; cbn in Hneg;
      try (unfold A_ATOM, X_ATOM, BPF_MEMWORDS in Hneg; lia); apply mem_ok_atom in Hpo; lia.
Qed.

Lemma opt_stmts_ok nu alter ss val t d r r' :
  (forall s, s ∈ sn_s <$> ss -> numberable s = true) -> reads_known (known_in val) (sn_s <$> ss) = true ->
  table_ok p wirelen buflen nu t -> vals_ok nu t val r -> fit r -> room t (2 * Z.of_nat (length ss)) ->
  exec_list p wirelen buflen (sn_s <$> ss) r = inl r' ->
  exists ss' val' t' d', opt_stmts alter ss val t d = ODone (ss', val', t', d') /\ room t' 0 /\
    exec_list p wirelen buflen (sn_s <$> ss') r = inl r' /\
    exists nu', table_ok p wirelen buflen nu' t' /\ vals_ok nu' t' val' r' /\ fit r'.
Proof.
  revert nu val t d r. induction ss as [|n ss IH]; intros nu val t d r Hnum Hknow Ht Hv Hf Hroom Hx; cbn [opt_stmts].
  { injection Hx as <-. exists [], val, t, d. split; [done|]. split; [done|]. split; [done|]. eauto. }
  cbn [fmap list_fmap exec_list sn_s] in Hknow, Hx.
  pose proof (Hnum (sn_s n) ltac:(left)) as Hn. unfold numberable in Hn. apply andb_true_iff in Hn as [Hpl Hnl].
  assert (forall s, s ∈ sn_s <$> ss -> numberable s = true) as Hnum' by (intros s Hs; apply Hnum; now right).
  assert (Z.of_nat (length (n :: ss)) = Z.of_nat (length ss) + 1) as Elen by (cbn [length]; lia). rewrite Elen in Hroom.
  destruct (Z.eqb_spec (s_code (sn_s n)) NOP) as [En|En].
  - unfold opt_stmt. cbn [x_s]. rewrite En. cbn [decode_op mbind oresult_bind]. change (decode_op NOP) with (@None opcode). cbn match.
    cbn [mbind oresult_bind x_s x_val x_t x_done reads_known] in *. rewrite En in Hknow. cbn [Z.eqb] in Hknow.
    destruct (IH nu val t d r) as (ss' & val' & t' & d' & -> & Hr & Hx' & H); try done.
    { destruct Hroom; split; try done; lia. }
    cbn [mbind oresult_bind]. do 4 eexists. split; [reflexivity|]. split; [done|].
    cbn [fmap list_fmap exec_list sn_s]. rewrite En. cbn. eauto.
  - apply plain_cases in Hpl as [|(o & Hc & Hpo)]; [done|].
    destruct (exec_insn p wirelen buflen (insn_of_stmt (sn_s n)) r) as [dd r1|] eqn:Ex; [|done].
    destruct (exec_value p wirelen buflen Hwire (sn_s n) o r dd r1 Hc Hpo Hf Ex) as (-> & z & Hz & ->). cbn [Z.eqb] in Hx.
    pose proof (reads_known_ready nu o (sn_s n) val t d _ r z Hc Hpo Hz Ht Hv Hf Hknow) as Hrd.
    destruct (opt_stmt_room p wirelen buflen Hwire nu alter _ r o z (2 * Z.of_nat (length ss)) Hrd) as (x & Ho & Hsp);
      [split; [|apply Hv]; destruct Hroom; split; cbn [x_t]; try done; lia|lia|].
    assert (o <> LDX_LEN) as Hl' by (intros ->; rewrite Hc in Hnl; discriminate).
    destruct (opt_stmt_ok p wirelen buflen Hwire nu alter _ r o z x Hrd Hl' Ho) as (nu1 & _ & _ & Hfin).
    pose proof (reads_known_next nu1 o (sn_s n) val t d _ r z x Hc Hpo Hknow Hfin) as Hknow'.
    destruct Hfin as [[F1a F1b F1c F1d] F2 _ _]. cbn [x_s] in *. rewrite Ho. cbn [mbind oresult_bind].
    destruct (IH nu1 (x_val x) (x_t x) (x_done x) (set_reg (op_def o (s_k (sn_s n))) z r))
      as (ss' & val' & t' & d' & -> & Hr & Hx' & H); try done; [apply Hsp|].
    cbn [mbind oresult_bind]. do 4 eexists. split; [reflexivity|]. split; [done|]. split; [|done].
    unfold runs in F2. pose proof (exec_list_app p wirelen buflen [x_s x] (sn_s <$> ss') r) as E. rewrite F2, Hx' in E. exact E.
Qed.
End Block.

(** The empty table is right, and zeros say nothing. *)
Lemma init_table_ok p wirelen buflen m : 0 <= m -> table_ok p wirelen buflen (fun _ => None) (init_val m).
Proof.
  intros Hm. split; cbn [init_val hashtbl curval vmap maxval]; try done.
  - intros chain n Hc. apply list_elem_of_lookup in Hc as [i [-> _]%lookup_replicate]. intros Hn. now apply elem_of_nil in Hn.
  - intros v i [-> _]%lookup_replicate. discriminate.
  - now rewrite length_replicate.
Qed.

Lemma zero_vals_ok t r : 0 <= curval t -> vals_ok (fun _ => None) t (replicate (Z.to_nat N_ATOMS) 0) r.
Proof.
  intros Hc. split; [now rewrite length_replicate|]. intros a n [-> _]%lookup_replicate. split; [lia|done].
Qed.

Lemma init_room m n : 0 <= n < m -> room (init_val m) n.
Proof. intros H. split; cbn [init_val hashtbl vmap curval maxval]; rewrite ?length_replicate; try done. lia. Qed.

(** C23: value numbering is sound. When the statements of a block read no register whose
    number is unknown and the table has room for two numbers per statement, [opt_stmts]
    ends on every block whose statements complete on some packet, and whatever it rewrites
    or deletes by value numbers, the rewritten statements leave the same registers on that
    packet; the numbers it leaves are right for the next block. *)
Theorem opt_stmts_sound (p : list byte) (wirelen buflen : Z) (nu : numbers) (alter : bool) (ss : slist)
    (val : list Z) (t : vtable) (d : bool) (r r' : regs) :
  0 <= wirelen < 2 ^ 32 -> (forall s, s ∈ sn_s <$> ss -> numberable s = true) ->
  reads_known (known_in val) (sn_s <$> ss) = true -> room t (2 * Z.of_nat (length ss)) ->
  table_ok p wirelen buflen nu t -> vals_ok nu t val r -> fit r ->
  exec_stmts p wirelen buflen ss r = inl r' ->
  exists ss' val' t' d', opt_stmts alter ss val t d = ODone (ss', val', t', d') /\
    exec_stmts p wirelen buflen ss' r = inl r' /\
    exists nu', table_ok p wirelen buflen nu' t' /\ vals_ok nu' t' val' r'.
Proof.
  rewrite exec_stmts_list. intros Hw Hn Hk Hm Ht Hv Hf Hx.
  destruct (opt_stmts_ok p wirelen buflen Hw nu alter ss val t d r r' Hn Hk Ht Hv Hf Hm Hx)
    as (ss' & val' & t' & d' & E & _ & Hx' & nu' & ? & ? & _).
  exists ss', val', t', d'. rewrite exec_stmts_list. eauto 10.
Qed.

(** Two loads of the same byte, and a sum of constants. *)
Definition sample_stmts : slist :=
  mk_snode 0 <$> [mk_stmt (encode_op LD_IMM) None None 5; mk_stmt (encode_op (ALU ADD SrcK)) None None 7;
                  mk_stmt (encode_op ST) None None 3; mk_stmt (encode_op (LD_ABS SzB)) None None 9;
                  mk_stmt (encode_op (LD_ABS SzB)) None None 9; mk_stmt (encode_op LDX_MEM) None None 3].

Definition sample_stmts_opt : slist :=
  mk_snode 0 <$> [mk_stmt (encode_op LD_IMM) None None 5; mk_stmt (encode_op LD_IMM) None None 12;
                  mk_stmt (encode_op ST) None None 3; mk_stmt (encode_op (LD_ABS SzB)) None None 9;
                  mk_stmt NOP None None 9; mk_stmt (encode_op LDX_IMM) None None 12].

Example sample_stmts_rewritten :
  exists val t d, opt_stmts true sample_stmts (replicate 18 0) (init_val 30) true = ODone (sample_stmts_opt, val, t, d).
Proof. do 3 eexists. vm_compute. reflexivity. Qed.

Definition zero_regs : regs := mk_regs 0 0 (replicate 16 0).

Lemma fit_zero : fit zero_regs.
Proof.
  split; [split; [cbn; lia|cbn; lia|reflexivity]|]. intros i x [-> _]%lookup_replicate. lia.
Qed.

Lemma opt_stmts_sound_witness :
  exists ss' val' t' d', opt_stmts true sample_stmts (replicate 18 0) (init_val 30) true = ODone (ss', val', t', d') /\
    exec_stmts (replicate 20 x07) 20 20 ss' zero_regs = inl (mk_regs 7 12 (<[3%nat := 12]> (replicate 16 0))).
Proof.
  destruct (opt_stmts_sound (replicate 20 x07) 20 20 (fun _ => None) true sample_stmts
    (replicate 18 0) (init_val 30) true zero_regs (mk_regs 7 12 (<[3%nat := 12]> (replicate 16 0))))
    as (ss' & val' & t' & d' & E & H & _).
  - lia.
  - intros s Hs. apply list_elem_of_In in Hs. cbn in Hs. intuition (subst; reflexivity).
  - vm_compute. reflexivity.
  - now apply init_room.
  - apply init_table_ok. lia.
  - now apply zero_vals_ok.
  - exact fit_zero.
  - vm_compute. reflexivity.
  - exists ss', val', t', d'. now split.
Defined.

(** Two unknown registers are taken for equal. [vstore] deletes the store of an unknown
    accumulator to a scratch word whose value is unknown too, since both have number 0; the
    word is then not written. *)
Theorem vstore_unknown_deletes :
  exists ss' val' t' d' r', opt_stmts true [mk_snode 0 (mk_stmt (encode_op ST) None None 3)] (replicate 18 0) (init_val 6) true =
      ODone (ss', val', t', d') /\
    exec_stmts [] 0 0 [mk_snode 0 (mk_stmt (encode_op ST) None None 3)] (set_A 1 zero_regs) = inl r' /\
    exec_stmts [] 0 0 ss' (set_A 1 zero_regs) = inl (set_A 1 zero_regs) /\ rmem r' !! 3%nat = Some 1.
Proof.
  do 5 eexists. split; [vm_compute; reflexivity|]. split; [vm_compute; reflexivity|].
  split; [vm_compute; reflexivity|reflexivity].
Qed.
