(* ===== verification/Compile.v ===== *)
(** * From an expression to a program that decides it

    The unoptimized path of [pcap_compile]: the code generator on an expression, then
    [icode_to_fcode]. The graph the generator makes can be laid out, so the program exists,
    and [bpf_filter] on it gives the verdict of the expression. *)
From stdpp Require Import base numbers list gmap.
From Stdlib Require Import Strings.Byte.
From S2P Require Import Prelude BpfInsn BpfFilter Icode Gencode GencodeProofs GencodeFilter.
From S2P Require Import Layout LayoutProofs LayoutConvert LayoutLoop.
From S2P Require Import OptState OptLoop.
Open Scope Z_scope.

Lemma icode_to_fcode_runs (cur_mark : Z) (h : heap) (C : gset nat) (rank : nat -> nat) (root : nat) :
  layable cur_mark h C rank -> root ∈ C ->
  exists code h', icode_to_fcode cur_mark h root = Some (code, h') /\
    forall p wirelen buflen fuel r o,
      graph_run p wirelen buflen fuel h root r = Some o ->
      exists m, forall fuel', (m <= fuel')%nat -> run fuel' code p wirelen buflen 0 r = o.
Proof.
 intros Hlay Hroot. destruct (icode_to_fcode_laid_out _ _ _ _ _ Hlay Hroot) as (code & h' & E & Hl).
  exists code, h'. split; [done|]. intros p wirelen buflen fuel r o Hr.
  destruct Hl as (cm & h0 & N & L & Hsp & HN & Hall & HrL & Ho). rewrite <- Ho.
  eapply laid_out_stops; eauto.
Qed.

(** C22: laying out a graph is correct. On a graph closed under successors, without loops,
    without jumps between the statements of a block, and small enough for an [int] to index
    its program, [icode_to_fcode] ends with a program, and from its first instruction the
    program does what the graph does from its root, on every packet. *)
Theorem icode_to_fcode_correct (cur_mark : Z) (h : heap) (C : gset nat) (rank : nat -> nat) (root : nat) :
  layable cur_mark h C rank -> root ∈ C ->
  exists code h', icode_to_fcode cur_mark h root = Some (code, h') /\
    forall p wirelen buflen fuel r o,
      graph_run p wirelen buflen fuel h root r = Some o ->
      exists m, forall fuel', (m <= fuel')%nat -> run fuel' code p wirelen buflen 0 r = o.
Proof. apply icode_to_fcode_runs. Qed.

(** ** What the combinators leave alone *)

Definition same_payload (b b' : block) : Prop :=
  b_stmts b' = b_stmts b /\ b_s b' = b_s b /\ b_mark b' = b_mark b /\
  b_longjt b' = b_longjt b /\ b_longjf b' = b_longjf b.

Definition keeps_payload (h h' : heap) : Prop := forall q, option_Forall2 same_payload (h !! q) (h' !! q).

#[export] Instance same_payload_preorder : PreOrder same_payload.
Proof. split; [now repeat split|intros b b' b'']; unfold same_payload; intuition congruence. Qed.

#[export] Instance keeps_payload_preorder : PreOrder keeps_payload.
Proof. split; [intros h q; reflexivity|intros h h' h'' H1 H2 q; etransitivity; [apply H1|apply H2]]. Qed.

Lemma keeps_payload_insert h q b b' : h !! q = Some b -> same_payload b b' -> keeps_payload h (<[q := b']> h).
Proof.
  intros Hb Hs x. destruct (decide (x = q)) as [->|Hne]; [|rewrite lookup_insert_ne by done; reflexivity].
  rewrite lookup_insert_eq, Hb. now constructor.
Qed.

Lemma keeps_payload_alter (f : block -> block) q h : (forall b, same_payload b (f b)) -> keeps_payload h (alter f q h).
Proof.
  intros Hf x. destruct (decide (x = q)) as [->|Hne]; [|rewrite lookup_alter_ne by done; reflexivity].
  rewrite lookup_alter_eq. destruct (h !! q); constructor. apply Hf.
Qed.

Lemma same_payload_set_succ side q b : same_payload b (set_succ side q b).
Proof. now destruct side. Qed.

Lemma keeps_payload_flip a h : keeps_payload h (flip_sense a h).
Proof. apply keeps_payload_alter. now repeat split. Qed.

Lemma keeps_payload_set_head v a h : keeps_payload h (alter (set_head v) a h).
Proof. apply keeps_payload_alter. now repeat split. Qed.

#[export] Hint Resolve same_payload_set_succ keeps_payload_flip keeps_payload_set_head : pcap.

Lemma keeps_payload_backpatch fuel h l t h' : backpatch fuel h l t = Some h' -> keeps_payload h h'.
Proof.
  revert h l; induction fuel as [|n IH]; intros h [a|]; cbn; try done; try (intros [= <-]; reflexivity).
  destruct (h !! a) as [b|] eqn:Hb; [|done]. cbn.
  destruct (negb (b_sense b)); intros E; (etransitivity; [|exact (IH _ _ E)]);
    (eapply keeps_payload_insert; [exact Hb|now repeat split]).
Qed.

Lemma keeps_payload_merge fuel h b0 b1 h' : merge fuel h b0 b1 = Some h' -> keeps_payload h h'.
Proof.
  revert b0; induction fuel as [|n IH]; intros b0; cbn; [done|].
  destruct (h !! b0) as [b|] eqn:Hb; [|done]. cbn.
  destruct (succ_of _ b); [apply IH|]. intros [= <-]. eapply keeps_payload_insert; eauto with pcap.
Qed.

Lemma keeps_payload_gen_and h b0 b1 h' : gen_and h b0 b1 = Some h' -> keeps_payload h h'.
Proof.
  unfold gen_and. destruct (h !! b1); [|done]. cbn [mbind option_bind].
  destruct (backpatch _ _ _ _) as [h1|] eqn:E1; [|done]. cbn [mbind option_bind].
  destruct (merge _ _ _ _) as [h2|] eqn:E2; [|done]. cbn [mbind option_bind].
  destruct (_ !! b0); [|done]. intros [= <-].
  apply keeps_payload_backpatch in E1. apply keeps_payload_merge in E2.
  etransitivity; [exact E1|]. etransitivity; [apply keeps_payload_flip|].
  etransitivity; [apply keeps_payload_flip|]. etransitivity; [exact E2|].
  etransitivity; [apply keeps_payload_flip|]. apply keeps_payload_set_head.
Qed.

Lemma keeps_payload_gen_or h b0 b1 h' : gen_or h b0 b1 = Some h' -> keeps_payload h h'.
Proof.
  unfold gen_or. destruct (h !! b1); [|done]. cbn [mbind option_bind].
  destruct (backpatch _ _ _ _) as [h1|] eqn:E1; [|done]. cbn [mbind option_bind].
  destruct (merge _ _ _ _) as [h2|] eqn:E2; [|done]. cbn [mbind option_bind].
  destruct (_ !! b0); [|done]. intros [= <-].
  apply keeps_payload_backpatch in E1. apply keeps_payload_merge in E2.
  etransitivity; [apply keeps_payload_flip|]. etransitivity; [exact E1|].
  etransitivity; [apply keeps_payload_flip|]. etransitivity; [exact E2|]. apply keeps_payload_set_head.
Qed.

(** ** The blocks of a generated graph *)

Definition fresh_block (b : block) : Prop :=
  linear (b_stmts b) = true /\ is_branch (b_s b) = true /\ b_mark b = 0 /\ b_longjt b = 0 /\ b_longjf b = 0.

Definition fresh_blocks (h : heap) : Prop := map_Forall (fun _ => fresh_block) h.

Lemma fresh_blocks_kept h h' : keeps_payload h h' -> fresh_blocks h -> fresh_blocks h'.
Proof.
  intros Hk Hf q b' Hb'. specialize (Hk q). rewrite Hb' in Hk. inversion Hk as [b x (E1 & E2 & E3 & E4 & E5) Eb|]; subst.
  symmetry in Eb. specialize (Hf q b Eb). unfold fresh_block in *. cbn in Hf. now rewrite E1, E2, E3, E4, E5.
Qed.

Lemma graph_size_kept h h' : keeps_payload h h' -> graph_size h' = graph_size h.
Proof.
  intros Hk. unfold graph_size.
  assert (dom h' = dom h) as ->.
  { apply set_eq. intros q. rewrite !elem_of_dom. specialize (Hk q). destruct Hk; [|done]. split; eauto. }
  apply zsum_ext. intros q _. unfold slots_at. specialize (Hk q). destruct Hk as [b b' (-> & _)|]; reflexivity.
Qed.

Lemma graph_size_insert h q b : h !! q = None -> graph_size (<[q := b]> h) = graph_size h + slength (b_stmts b) + 3.
Proof.
  intros Hq. unfold graph_size. rewrite dom_insert_L.
  rewrite elements_union_singleton by now apply not_elem_of_dom. cbn [zsum].
  unfold slots_at at 1. rewrite lookup_insert_eq.
  rewrite (zsum_ext (slots_at (<[q := b]> h)) (slots_at h)); [lia|].
  intros x Hx%elem_of_elements. unfold slots_at. rewrite lookup_insert_ne; [done|].
  intros <-. apply not_elem_of_dom in Hq. contradiction.
Qed.

(** A graph the generator may start from, grown by [n] slots. *)
Definition grown (h h' : heap) (n : Z) : Prop :=
  (fresh_blocks h -> fresh_blocks h') /\ graph_size h' = graph_size h + n.

Lemma grown_kept h h' : keeps_payload h h' -> grown h h' 0.
Proof. intros Hk. split; [now apply fresh_blocks_kept|]. rewrite (graph_size_kept _ _ Hk). lia. Qed.

Lemma grown_trans h1 h2 h3 n m : grown h1 h2 n -> grown h2 h3 m -> grown h1 h3 (n + m).
Proof. intros [H1 S1] [H2 S2]. split; [auto|lia]. Qed.

Lemma grown_insert h q b : h !! q = None -> fresh_block b -> grown h (<[q := b]> h) (slength (b_stmts b) + 3).
Proof.
  intros Hq Hb. split; [|rewrite graph_size_insert by done; lia].
  intros Hh. now apply map_Forall_insert_2.
Qed.

(** [new_block], then the code of the block. *)
Lemma grown_new_block c ss s h b h1 :
  new_block c h = (b, h1) -> linear ss = true -> is_branch s = true ->
  grown h (alter (set_code ss s) b h1) (slength ss + 3).
Proof.
  unfold new_block. intros [= <- <-] Hss Hs. rewrite alter_insert_eq.
  assert (h !! fresh (dom h) = None) as Hn by (apply not_elem_of_dom, is_fresh).
  refine (grown_insert h _ (set_code ss s _) Hn _). now repeat split.
Qed.

Lemma grown_retblk v h b h' : gen_retblk v h = (b, h') -> grown h h' 3.
Proof.
  unfold gen_retblk. destruct (new_block _ h) as [b' h1] eqn:E. intros [= <- <-].
  exact (grown_new_block _ [] (mk_stmt (BPF_RET ||| BPF_K) None None v) _ _ _ E eq_refl eq_refl).
Qed.

(** Tests that compare, after statements that do not jump. *)
Fixpoint wf_bexp (e : bexp) : bool :=
  match e with
  | BTest ss jtype v => linear ss && is_branch (mk_stmt (JMP jtype) None None v)
  | BAnd e0 e1 | BOr e0 e1 => wf_bexp e0 && wf_bexp e1
  | BNot e => wf_bexp e
  end.

(** Slots the blocks of an expression take, with every jump. *)
Fixpoint bexp_size (e : bexp) : Z :=
  match e with
  | BTest ss _ _ => slength ss + 3
  | BAnd e0 e1 | BOr e0 e1 => bexp_size e0 + bexp_size e1
  | BNot e => bexp_size e
  end.

Lemma gen_bexp_grown e h b h' : wf_bexp e = true -> gen_bexp e h = Some (b, h') -> grown h h' (bexp_size e).
Proof.
  revert h b h'; induction e as [ss jtype v|e0 IH0 e1 IH1|e0 IH0 e1 IH1|e IH]; intros h b h';
    cbn [wf_bexp gen_bexp bexp_size]; rewrite ?andb_true_iff.
  - intros [Hss Hs]. unfold gen_cond. destruct (new_block _ h) as [b' h1] eqn:E. intros [= <- <-].
    eapply grown_new_block; eauto.
  - intros [Hw0 Hw1]. destruct (gen_bexp e0 h) as [[b0 h0]|] eqn:E0; [|done]. cbn.
    destruct (gen_bexp e1 h0) as [[b1 h1]|] eqn:E1; [|done]. cbn.
    destruct (gen_and h1 b0 b1) as [h2|] eqn:E2; [|done]. intros [= <- <-].
    eapply grown_trans; [exact (IH0 _ _ _ Hw0 E0)|]. rewrite <- Z.add_0_r.
    eapply grown_trans; [exact (IH1 _ _ _ Hw1 E1)|]. apply grown_kept, (keeps_payload_gen_and _ _ _ _ E2).
  - intros [Hw0 Hw1]. destruct (gen_bexp e0 h) as [[b0 h0]|] eqn:E0; [|done]. cbn.
    destruct (gen_bexp e1 h0) as [[b1 h1]|] eqn:E1; [|done]. cbn.
    destruct (gen_or h1 b0 b1) as [h2|] eqn:E2; [|done]. intros [= <- <-].
    eapply grown_trans; [exact (IH0 _ _ _ Hw0 E0)|]. rewrite <- Z.add_0_r.
    eapply grown_trans; [exact (IH1 _ _ _ Hw1 E1)|]. apply grown_kept, (keeps_payload_gen_or _ _ _ _ E2).
  - intros Hw. destruct (gen_bexp e h) as [[b0 h0]|] eqn:E0; [|done]. cbn. intros [= <- <-].
    rewrite <- Z.add_0_r. eapply grown_trans; [exact (IH _ _ _ Hw E0)|]. apply grown_kept, keeps_payload_flip.
Qed.

Lemma finish_parse_grown h b snaplen root h' : close_parse h b snaplen = Some (root, h') -> grown h h' 6.
Proof.
  unfold close_parse. destruct (gen_retblk snaplen h) as [rt h1] eqn:E1.
  destruct (backpatch _ h1 _ _) as [h2|] eqn:E2; [|done]. cbn [mbind option_bind].
  destruct (gen_retblk 0 _) as [rf h3] eqn:E3.
  destruct (backpatch _ h3 _ _) as [h4|] eqn:E4; [|done]. cbn [mbind option_bind].
  destruct (h4 !! b); [|done]. intros [= _ <-].
  pose proof (grown_retblk _ _ _ _ E1) as G1. pose proof (grown_retblk _ _ _ _ E3) as G3.
  pose proof (grown_kept _ _ (keeps_payload_backpatch _ _ _ _ _ E2)) as G2.
  pose proof (grown_kept _ _ (keeps_payload_backpatch _ _ _ _ _ E4)) as G4.
  pose proof (grown_kept _ _ (keeps_payload_flip b h2)) as Gf.
  exact (grown_trans _ _ _ _ _ G1 (grown_trans _ _ _ _ _ G2 (grown_trans _ _ _ _ _ Gf
          (grown_trans _ _ _ _ _ G3 G4)))).
Qed.

(** ** The finished graph can be laid out *)

Lemma finished_closed h a S T F hd snaplen root h' :
  bool_expr h a S T F hd -> close_parse h a snaplen = Some (root, h') ->
  exists C rank, root ∈ C /\ forall q, q ∈ C -> exists b, h' !! q = Some b /\ closed_block C b /\
    forall side t, succ_of side b = Some t -> (rank t < rank q)%nat.
Proof.
  intros Hex Hfp. destruct (finish_parse_blocks h a S T F hd snaplen Hex)
    as (rt & rf & h2 & Hfp2 & [HrtS HrfS] & (brt & Hbrt & _ & _ & Ht) & (brf & Hbrf & _ & _ & Hf) & Hpt).
  rewrite Hfp in Hfp2. injection Hfp2 as -> ->. pose proof (ex_head _ _ _ _ _ _ Hex) as Hh.
  assert (rt ∈ S ∪ {[rt; rf]} /\ rf ∈ S ∪ {[rt; rf]} /\ hd ∈ S ∪ {[rt; rf]}) as (HrtC & HrfC & HhC) by set_solver.
  destruct (ex_acyclic _ _ _ _ _ _ Hex) as (rank & n & Hr).
  exists (S ∪ {[rt; rf]}), (fun q => if decide (q ∈ S) then Datatypes.S (rank q) else 0%nat).
  split; [done|]. intros q [Hq|Hq]%elem_of_union.
  - destruct (ex_closed _ _ _ _ _ _ Hex q Hq) as (b & Hb & Hcl).
    destruct (Hpt q b Hq Hb) as (b' & Hb' & _ & Hu). destruct (Hr q b Hq Hb) as [_ Hd].
    assert (forall side, exists t, succ_of side b' = Some t /\ t ∈ S ∪ {[rt; rf]} /\
      (t ∈ S -> (rank t < rank q)%nat)) as Hsucc.
    { intros side. rewrite Hu. case_decide as HF; [|case_decide as HT].
      - exists rf. split; [done|]. split; [done|]. intros Hin. contradiction.
      - exists rt. split; [done|]. split; [done|]. intros Hin. contradiction.
      - assert ((q, side) ∉ T ++ F) as HTF by (rewrite not_elem_of_app; tauto).
        destruct (Hcl side HTF) as (t & Hs & HtS). exists t. split; [done|]. split; [apply elem_of_union; now left|].
        intros _. exact (Hd side t HTF Hs). }
    exists b'. split; [done|]. split.
    + right. destruct (Hsucc true) as (t & Hs & Hin & _), (Hsucc false) as (f & Hs' & Hin' & _). eauto 10.
    + intros side t Hs. destruct (Hsucc side) as (t' & Hs' & _ & Hlt). replace t' with t in * by congruence.
      rewrite (decide_True (P := q ∈ S)) by done. case_decide; [specialize (Hlt ltac:(done)); lia|lia].
  - assert (exists b, h2 !! q = Some b /\ forall side, succ_of side b = None) as (b & Hb & Hn).
    { apply elem_of_union in Hq as [->%elem_of_singleton| ->%elem_of_singleton]; eauto. }
    exists b. split; [done|]. split; [left; exact (conj (Hn true) (Hn false))|].
    intros side t Hs. rewrite Hn in Hs. discriminate.
Qed.

Lemma fresh_layable cur_mark h C rank :
  0 <= cur_mark -> fresh_blocks h -> graph_size h < 2 ^ 31 ->
  (forall q, q ∈ C -> exists b, h !! q = Some b /\ closed_block C b /\
     forall side t, succ_of side b = Some t -> (rank t < rank q)%nat) ->
  layable cur_mark h C rank.
Proof.
  intros Hcm Hf Hs Hc. constructor; [|intros q b Hb; specialize (Hf q b Hb); destruct Hf as (_ & _ & ? & ? & ?); lia..|done].
  intros q Hq. destruct (Hc q Hq) as (b & Hb & Hcl & Hr). exists b.
  destruct (Hf q b Hb) as (? & ? & _). auto.
Qed.

(** ** [pcap_compile] *)

(** The graph of a filter: [None] is the empty filter, for which the parser leaves the
    root null. *)
Definition filter_graph (e : option bexp) (snaplen : Z) : option (nat * heap) :=
  match e with
  | Some e => gen_filter e snaplen
  | None => Some (gen_retblk snaplen ∅)
  end.

(** What [pcap_compile] returns; it fails with a message on a handle that is not activated
    or has snapshot length 0, and when the optimizer finds that no packet is accepted. *)
Inductive compile_result :=
| NotActivated
| SnaplenZero
| RejectsAll
| Compiled (bf_insns : list bpf_insn).

Definition of_oresult {A} (r : oresult A) : option A := match r with ODone a => Some a | _ => None end.

(** [root->s.code == (BPF_RET|BPF_K) && root->s.k == 0] *)
Definition rejects_all (h : heap) (root : nat) : option bool :=
  b ← h !! root; Some ((s_code (b_s b) =? (BPF_RET ||| BPF_K)) && (s_k (b_s b) =? 0)).

(** The end of [pcap_compile]: optimize the graph if asked to, and lay it out. [None] is a
    fault or [bpf_error] in a pass, or that an optimizer loop did not end in [rounds]. *)
Definition compile_graph (rounds : nat) (optimize : bool) (cur_mark : Z) (h : heap) (root : nat)
  : option compile_result :=
  if optimize then
    '(root, h, cur_mark) ← of_oresult (bpf_optimize rounds cur_mark h root);
    rejects ← rejects_all h root;
    if (rejects : bool) then Some RejectsAll
    else '(code, _) ← icode_to_fcode cur_mark h root; Some (Compiled code)
  else '(code, _) ← icode_to_fcode cur_mark h root; Some (Compiled code).

(** [pcap_compile], from the parse tree of the filter on; [optimize] is the caller's flag,
    unless the parser has set [no_optimize]. *)
Definition pcap_compile (rounds : nat) (optimize : bool) (cur_mark : Z) (activated : bool) (snaplen : Z)
    (e : option bexp) : option compile_result :=
  if negb activated then Some NotActivated
  else if snaplen =? 0 then Some SnaplenZero
  else '(root, h) ← filter_graph e snaplen; compile_graph rounds optimize cur_mark h root.

Definition wf_filter (e : option bexp) : bool :=
  match e with Some e => wf_bexp e && (bexp_size e + 6 <? 2 ^ 31) | None => true end.

(** What a filter says of a packet. *)
Definition filter_verdict (p : list byte) (wirelen buflen snaplen : Z) (e : option bexp) (r : regs) : outcome :=
  match e with
  | Some e => verdict snaplen (eval_bexp p wirelen buflen e r)
  | None => Return (u32 snaplen)
  end.

(** The graph of a filter can be laid out. *)
Lemma filter_graph_layable cur_mark e snaplen :
  0 <= cur_mark -> wf_filter e = true ->
  exists root h C rank, filter_graph e snaplen = Some (root, h) /\ layable cur_mark h C rank /\ root ∈ C.
Proof.
  intros Hcm. destruct e as [e|]; cbn [wf_filter filter_graph].
  - rewrite andb_true_iff. intros [Hw Hsz].
    destruct (gen_bexp_denotes [] 0 0 e ∅) as (b & h & S & T & F & E & (hd & Hex & _) & _).
    destruct (finish_parse_blocks h b S T F hd snaplen Hex) as (_ & _ & h' & Hfp & _).
    destruct (finished_closed _ _ _ _ _ _ _ _ _ Hex Hfp) as (C & rank & Hroot & Hc).
    destruct (gen_bexp_grown _ _ _ _ Hw E) as [G1 S1]. destruct (finish_parse_grown _ _ _ _ _ Hfp) as [G2 S2].
    assert (fresh_blocks h') as Hfb by (apply G2, G1; apply map_Forall_empty).
    change (graph_size ∅) with 0 in S1.
    exists hd, h', C, rank. unfold gen_filter. rewrite E. cbn [mbind option_bind].
    split; [done|]. split; [|done]. apply fresh_layable; [done|done|lia|done].
  - intros _. destruct (gen_retblk snaplen ∅) as [rt h] eqn:E. exists rt, h, {[rt]}, (fun _ => 0%nat).
    destruct (gen_retblk_spec _ _ _ _ E) as (_ & _ & b & Hb & _ & _ & Hs).
    destruct (grown_retblk _ _ _ _ E) as [G S1]. change (graph_size ∅) with 0 in S1.
    split; [done|]. split; [|set_solver]. apply fresh_layable; [done|apply G, map_Forall_empty|lia|].
    intros q ->%elem_of_singleton. exists b. split; [done|]. split; [left; exact (conj (Hs true) (Hs false))|].
    intros side t Ht. rewrite Hs in Ht. discriminate.
Qed.

Lemma filter_graph_runs p wirelen buflen e snaplen root h r :
  filter_graph e snaplen = Some (root, h) ->
  exists fuel, graph_run p wirelen buflen fuel h root r = Some (filter_verdict p wirelen buflen snaplen e r).
Proof.
  destruct e as [e|]; cbn [filter_graph filter_verdict].
  - destruct (gen_filter_ok p wirelen buflen e snaplen) as (root' & h' & E & Hr). intros Hg.
    rewrite Hg in E. injection E as -> ->. apply Hr.
  - destruct (gen_retblk snaplen ∅) as [rt h0] eqn:E. intros [= -> ->]. destruct (gen_retblk_spec _ _ _ _ E) as (_ & _ & b & Hb & Hss & Hs & _). exists 1%nat.
    cbn. rewrite Hb. unfold exec_block. now rewrite Hss, Hs.
Qed.

(** C5: what [pcap_compile] compiles is what [bpf_filter] decides. Without optimization,
    on an activated handle with a non-zero snapshot length, every filter of comparisons
    combined with and, or and not compiles, and on every packet the interpreter ends and
    returns what the filter says: the snapshot length when it holds, 0 when it does not. *)
Theorem pcap_compile_correct (rounds : nat) (cur_mark snaplen : Z) (e : option bexp) :
  0 <= cur_mark -> snaplen <> 0 -> wf_filter e = true ->
  exists code, pcap_compile rounds false cur_mark true snaplen e = Some (Compiled code) /\
    forall p wirelen buflen mem,
      exists m, forall fuel, (m <= fuel)%nat ->
        bpf_filter fuel mem (Some code) p wirelen buflen =
        filter_verdict p wirelen buflen snaplen e (mk_regs 0 0 mem).
Proof.
  intros Hcm Hsn Hwf.
  destruct (filter_graph_layable cur_mark e snaplen Hcm Hwf) as (root & h & C & rank & E & Hlay & Hroot).
  destruct (icode_to_fcode_runs _ _ _ _ _ Hlay Hroot) as (code & h' & E2 & Hrun).
  exists code. split.
  - unfold pcap_compile. cbn [negb]. destruct (Z.eqb_spec snaplen 0); [contradiction|].
    rewrite E. cbn [mbind option_bind]. unfold compile_graph. now rewrite E2.
  - intros p wirelen buflen mem.
    destruct (filter_graph_runs p wirelen buflen e snaplen root h (mk_regs 0 0 mem) E) as (fuel & Hg).
    exact (Hrun _ _ _ _ _ _ Hg).
Qed.

(** ** Witnesses *)

Definition ip_not_bcast : bexp := BAnd test_ip (BNot test_bcast).

Definition ip_not_bcast_code : list bpf_insn :=
  [mk_insn 40 0 0 12; mk_insn 21 0 3 2048; mk_insn 48 0 0 0; mk_insn 21 1 0 255;
   mk_insn 6 0 0 96; mk_insn 6 0 0 0].

Example ip_not_bcast_compiles :
  pcap_compile 0 false 0 true 96 (Some ip_not_bcast) = Some (Compiled ip_not_bcast_code).
Proof. vm_compute. reflexivity. Qed.

Lemma pcap_compile_correct_witness :
  exists code, pcap_compile 0 false 0 true 96 (Some ip_not_bcast) = Some (Compiled code) /\
    forall p wirelen buflen mem,
      exists m, forall fuel, (m <= fuel)%nat ->
        bpf_filter fuel mem (Some code) p wirelen buflen =
        filter_verdict p wirelen buflen 96 (Some ip_not_bcast) (mk_regs 0 0 mem).
Proof. apply (pcap_compile_correct 0 0 96 (Some ip_not_bcast)); [lia|lia|vm_compute; reflexivity]. Defined.

(** A branch over 300 instructions: its first attempt fails, the second has the jump. *)
Definition long_block : block :=
  mk_block 0 (replicate 300 (mk_snode 0 (mk_stmt (encode_op LD_LEN) None None 0)))
    (mk_stmt (encode_op RET_A) None None 0) 0 0 0 0 0 false null_edge null_edge 1 None
    [] [] None 0 0 0 0 0 [].
Definition reject_block : block :=
  mk_block 0 [] (mk_stmt (encode_op RET_K) None None 0) 0 0 0 0 0 false null_edge null_edge 2 None
    [] [] None 0 0 0 0 0 [].
Definition branch_block : block :=
  mk_block 0 [] (mk_stmt (JMP BPF_JEQ) None None 7) 0 0 0 0 0 false (with_succ (Some 1%nat) null_edge)
    (with_succ (Some 2%nat) null_edge) 0 None [] [] None 0 0 0 0 0 [].
Definition long_graph : heap := <[0%nat := branch_block]> (<[1%nat := long_block]> {[2%nat := reject_block]}).
Definition long_rank (q : nat) : nat := match q with O => 1%nat | _ => 0%nat end.

Example long_graph_jumps :
  (fun r : list bpf_insn * heap => (take 3 r.1, length r.1)) <$> icode_to_fcode 0 long_graph 0 =
  Some ([mk_insn (encode_op (JCOND JEQ SrcK)) 1 0 7; mk_insn (encode_op JA) 0 0 301; mk_insn (encode_op LD_LEN) 0 0 0],
        304%nat).
Proof. vm_compute. reflexivity. Qed.

Lemma long_graph_layable : layable 0 long_graph {[0%nat; 1%nat; 2%nat]} long_rank.
Proof.
  apply fresh_layable; [lia| |vm_compute; reflexivity|].
  - apply map_Forall_insert_2; [now repeat split|]. apply map_Forall_insert_2; [now repeat split|].
    apply map_Forall_singleton. now repeat split.
  - intros q [[->%elem_of_singleton| ->%elem_of_singleton]%elem_of_union| ->%elem_of_singleton]%elem_of_union;
      eexists; (split; [reflexivity|]); (split; [|intros [] t [= <-]; cbn; lia]).
    + right. exists 1%nat, 2%nat. repeat split; set_solver.
    + now left.
    + now left.
Qed.

Lemma icode_to_fcode_correct_witness :
  exists code h', icode_to_fcode 0 long_graph 0 = Some (code, h') /\
    forall p wirelen buflen fuel r o,
      graph_run p wirelen buflen fuel long_graph 0 r = Some o ->
      exists m, forall fuel', (m <= fuel')%nat -> run fuel' code p wirelen buflen 0 r = o.
Proof.
  apply (icode_to_fcode_correct 0 long_graph {[0%nat; 1%nat; 2%nat]} long_rank 0 long_graph_layable). set_solver.
Defined.

(** [ether[0:4] & 0xffffffff != 0] *)
Definition nonzero_word : bexp :=
  BNot (BTest [mk_snode 0 (mk_stmt (encode_op (LD_ABS SzW)) None None 0);
               mk_snode 1 (mk_stmt (encode_op (ALU AND SrcK)) None None (-1))] BPF_JEQ 0).

(** The optimizer miscompiles a mask of all ones. [opt_peep] takes a test of all bits
    for one that always holds, when it holds for all values but 0: the filter
    [ether[0:4] & 0xffffffff != 0], compiled without optimization, rejects a packet of zero
    bytes, and compiled with optimization accepts every packet. *)
Theorem optimize_changes_verdict :
  exists code code', pcap_compile 10 false 0 true 96 (Some nonzero_word) = Some (Compiled code) /\
    pcap_compile 10 true 0 true 96 (Some nonzero_word) = Some (Compiled code') /\
    bpf_filter 20 (replicate 16 0) (Some code) (replicate 64 x00) 64 64 = Return 0 /\
    bpf_filter 20 (replicate 16 0) (Some code') (replicate 64 x00) 64 64 = Return 96.
Proof.
  do 2 eexists. split; [vm_compute; reflexivity|]. split; [vm_compute; reflexivity|].
  split; vm_compute; reflexivity.
Qed.
