(* ===== verification/LinkType.v ===== *)
(** * Link-layer types (pcap-common.c)

    The mapping between the DLT_ codes of the API and the LINKTYPE_ codes of savefiles, and
    the macros that reverse the bytes of an integer. [DLT_PFSYNC] differs between platforms
    and is an argument. [DLT_FR] is not defined outside BSD/OS and has no entry. *)
From stdpp Require Import base numbers list.
From Stdlib Require Import Strings.Byte.
From S2P Require Import Prelude BpfInsn.
Open Scope Z_scope.

(** ** The table *)

Definition DLT_EN10MB := 1.
Definition DLT_MATCHING_MIN := 104.
Definition DLT_MATCHING_MAX := 252.
Definition LINKTYPE_MATCHING_MIN := 104.
Definition LINKTYPE_MATCHING_MAX := 252.
Definition LINKTYPE_PFSYNC := 246.
Definition DLT_ATM_CLIP := 19.
Definition LINKTYPE_ATM_CLIP := 106.
Definition DLT_USB_LINUX := 189.
Definition DLT_USB_LINUX_MMAPPED := 220.

(** [map[]], without its terminating entry: (DLT_, LINKTYPE_) pairs. *)
Definition linktype_map : list (Z * Z) :=
  [ (0, 0) (* NULL *); (1, 1) (* EN10MB, ETHERNET *); (2, 2) (* EN3MB, EXP_ETHERNET *);
    (3, 3) (* AX25 *); (4, 4) (* PRONET *); (5, 5) (* CHAOS *); (6, 6) (* IEEE802, IEEE802_5 *);
    (7, 7) (* ARCNET, ARCNET_BSD *); (8, 8) (* SLIP *); (9, 9) (* PPP *); (10, 10) (* FDDI *);
    (99, 99) (* SYMANTEC_FIREWALL *); (11, 100) (* ATM_RFC1483 *); (12, 101) (* RAW *);
    (15, 102) (* SLIP_BSDOS *); (16, 103) (* PPP_BSDOS *); (104, 104) (* C_HDLC *);
    (19, 106) (* ATM_CLIP *); (50, 50) (* PPP_SERIAL, PPP_HDLC *); (51, 51) (* PPP_ETHER *) ].

Section Mapping.
Context (DLT_PFSYNC : Z).

Definition dlt_to_linktype (dlt : Z) : Z :=
  if dlt =? DLT_PFSYNC then LINKTYPE_PFSYNC
  else if (DLT_MATCHING_MIN <=? dlt) && (dlt <=? DLT_MATCHING_MAX) then dlt
  else match List.find (fun e => e.1 =? dlt) linktype_map with
       | Some e => e.2
       | None => -1
       end.

Definition linktype_to_dlt (linktype : Z) : Z :=
  if linktype =? LINKTYPE_PFSYNC then DLT_PFSYNC
  else if (LINKTYPE_MATCHING_MIN <=? linktype) && (linktype <=? LINKTYPE_MATCHING_MAX) then linktype
  else match List.find (fun e => e.2 =? linktype) linktype_map with
       | Some e => e.1
       | None => linktype
       end.

End Mapping.

(** ** Byte swapping *)

(** [SWAPLONG], [SWAPSHORT] and [SWAPLL] reverse the bytes of the object. *)
Definition swap_bytes (n : nat) (z : Z) : Z := le_val (rev (le_bytes n z)).
Definition SWAPLONG (z : Z) : Z := swap_bytes 4 z.
Definition SWAPSHORT (z : Z) : Z := swap_bytes 2 z.

(** The macros as written, on an unsigned value. *)
Definition SWAPLONG_macro (y : Z) : Z :=
  u32 (Z.shiftl (y &&& 0xff) 24) ||| u32 (Z.shiftl (y &&& 0xff00) 8)
  ||| Z.shiftr (y &&& 0xff0000) 8 ||| (Z.shiftr y 24 &&& 0xff).
Definition SWAPSHORT_macro (y : Z) : Z :=
  Z.shiftl (y &&& 0xff) 8 ||| Z.shiftr (u16 (y &&& 0xff00)) 8.

Lemma swap_bytes_range n z : 0 <= swap_bytes n z < 256 ^ Z.of_nat n.
Proof.
  unfold swap_bytes. pose proof (le_val_range (rev (le_bytes n z))) as Hr.
  rewrite length_rev, length_le_bytes in Hr. exact Hr.
Qed.

Lemma swap_bytes_involutive n z : swap_bytes n (swap_bytes n z) = z mod 256 ^ Z.of_nat n.
Proof.
  unfold swap_bytes.
  assert (le_bytes n (le_val (rev (le_bytes n z))) = rev (le_bytes n z)) as ->.
  { rewrite <- (le_bytes_val (rev (le_bytes n z))) at 2.
    now rewrite length_rev, length_le_bytes. }
  rewrite rev_involutive. apply le_val_bytes.
Qed.

Lemma SWAPLONG_involutive z : SWAPLONG (SWAPLONG z) = u32 z.
Proof. apply swap_bytes_involutive. Qed.

Lemma SWAPSHORT_involutive z : SWAPSHORT (SWAPSHORT z) = u16 z.
Proof. apply swap_bytes_involutive. Qed.

Lemma SWAPLONG_range z : 0 <= SWAPLONG z < 2 ^ 32.
Proof. apply (swap_bytes_range 4). Qed.

Lemma SWAPSHORT_range z : 0 <= SWAPSHORT z < 2 ^ 16.
Proof. apply (swap_bytes_range 2). Qed.

#[export] Hint Resolve SWAPLONG_range SWAPSHORT_range : cint.


(** *** The macros compute the byte reversal *)

Lemma lor_add_disjoint a b n : 0 <= n -> 0 <= a < 2 ^ n -> b * 2 ^ n ||| a = b * 2 ^ n + a.
Proof.
  intros Hn Ha. symmetry. apply Z.add_nocarry_lor.
  apply Z.bits_inj'; intros i Hi. rewrite Z.land_spec, Z.bits_0.
  destruct (Z.ltb_spec i n).
  - now rewrite Z.mul_pow2_bits_low by lia.
  - destruct (Z.eq_dec a 0) as [->|]; [now rewrite Z.bits_0, andb_false_r|].
    rewrite (Z.bits_above_log2 a i), ?andb_false_r; [reflexivity|lia|].
    apply Z.log2_lt_pow2; [lia|].
    eapply Z.lt_le_trans; [apply Ha|apply Z.pow_le_mono_r; lia].
Qed.

Lemma land_field y k n : 0 <= n -> 0 <= k ->
  y &&& ((2 ^ n - 1) * 2 ^ k) = (y / 2 ^ k) mod 2 ^ n * 2 ^ k.
Proof.
  intros Hn Hk. apply Z.bits_inj'. intros i Hi.
  rewrite Z.land_spec. destruct (Z.ltb_spec i k).
  - rewrite !Z.mul_pow2_bits_low by lia. apply andb_false_r.
  - rewrite !Z.mul_pow2_bits by lia.
    replace (2 ^ n - 1) with (Z.ones n) by (rewrite Z.ones_equiv; lia).
    destruct (Z.ltb_spec (i - k) n).
    + rewrite Z.ones_spec_low, Z.mod_pow2_bits_low, Z.div_pow2_bits, andb_true_r by lia.
      f_equal; lia.
    + now rewrite Z.ones_spec_high, Z.mod_pow2_bits_high, andb_false_r by lia.
Qed.

Lemma SWAPLONG_bytes b0 b1 b2 b3 :
  0 <= b0 < 256 -> 0 <= b1 < 256 -> 0 <= b2 < 256 -> 0 <= b3 < 256 ->
  SWAPLONG (b0 + 256 * (b1 + 256 * (b2 + 256 * b3))) = b3 + 256 * (b2 + 256 * (b1 + 256 * b0)).
Proof.
  intros. unfold SWAPLONG, swap_bytes. cbn [le_bytes rev app le_val].
  rewrite !b2z_z2b. unfold u8. Z.div_mod_to_equations; lia.
Qed.

Lemma SWAPLONG_macro_eq y : 0 <= y < 2 ^ 32 -> SWAPLONG_macro y = SWAPLONG y.
Proof.
  intros Hy. unfold SWAPLONG_macro.
  change 0xff with ((2 ^ 8 - 1) * 2 ^ 0) at 1 2. change 0xff00 with ((2 ^ 8 - 1) * 2 ^ 8).
  change 0xff0000 with ((2 ^ 8 - 1) * 2 ^ 16).
  rewrite !land_field, !Z.shiftl_mul_pow2, !Z.shiftr_div_pow2 by lia.
  set (b0 := y mod 256). set (b1 := y / 256 mod 256).
  set (b2 := y / 65536 mod 256). set (b3 := y / 16777216 mod 256).
  transitivity (b0 * 2 ^ 24 ||| (b1 * 2 ^ 16 ||| (b2 * 2 ^ 8 ||| b3))).
  { rewrite <- !Z.lor_assoc. unfold u32.
    f_equal; [|f_equal; [|f_equal]]; subst b0 b1 b2 b3; Z.div_mod_to_equations; lia. }
  assert (0 <= b0 < 256 /\ 0 <= b1 < 256 /\ 0 <= b2 < 256 /\ 0 <= b3 < 256) as (?&?&?&?)
    by (subst b0 b1 b2 b3; Z.div_mod_to_equations; lia).
  rewrite (lor_add_disjoint b3 b2 8), (lor_add_disjoint _ b1 16), (lor_add_disjoint _ b0 24) by lia.
  replace y with (b0 + 256 * (b1 + 256 * (b2 + 256 * b3)))
    by (subst b0 b1 b2 b3; Z.div_mod_to_equations; lia).
  rewrite SWAPLONG_bytes by assumption. lia.
Qed.

Lemma SWAPSHORT_macro_eq y : 0 <= y < 2 ^ 16 -> SWAPSHORT_macro y = SWAPSHORT y.
Proof.
  intros Hy. unfold SWAPSHORT_macro.
  change 0xff with ((2 ^ 8 - 1) * 2 ^ 0). change 0xff00 with ((2 ^ 8 - 1) * 2 ^ 8).
  rewrite !land_field, !Z.shiftl_mul_pow2, !Z.shiftr_div_pow2 by lia.
  transitivity ((y mod 256) * 2 ^ 8 ||| y / 256 mod 256).
  { unfold u16. f_equal; Z.div_mod_to_equations; lia. }
  rewrite lor_add_disjoint by (Z.div_mod_to_equations; lia).
  unfold SWAPSHORT, swap_bytes. cbn [le_bytes rev app le_val].
  rewrite !b2z_z2b. unfold u8. Z.div_mod_to_equations; lia.
Qed.

(** ** The two mappings are inverse *)

Definition entry_back (d l : Z) : bool :=
  negb (l =? LINKTYPE_PFSYNC) &&
  (if (LINKTYPE_MATCHING_MIN <=? l) && (l <=? LINKTYPE_MATCHING_MAX) then l =? d
   else match List.find (fun e => e.2 =? l) linktype_map with
        | Some e => e.1 =? d
        | None => false
        end).

Lemma linktype_map_back :
  forallb (fun e => (e.1 =? DLT_ATM_CLIP) || entry_back e.1 e.2) linktype_map = true.
Proof. reflexivity. Qed.

Lemma linktype_back DLT_PFSYNC d :
  dlt_to_linktype DLT_PFSYNC d <> -1 -> (d = LINKTYPE_PFSYNC -> DLT_PFSYNC = LINKTYPE_PFSYNC) ->
  linktype_to_dlt DLT_PFSYNC (dlt_to_linktype DLT_PFSYNC d) =
  if (d =? DLT_ATM_CLIP) && negb (d =? DLT_PFSYNC) then LINKTYPE_ATM_CLIP else d.
Proof.
  unfold dlt_to_linktype. intros Hm H246.
  destruct (Z.eqb_spec d DLT_PFSYNC) as [Hd|Hd]; cbn [negb].
  { rewrite andb_false_r. now subst d. }
  rewrite andb_true_r. destruct (Z.eqb_spec d DLT_ATM_CLIP) as [Hc|Hc]; [now subst d|].
  unfold linktype_to_dlt.
  destruct ((DLT_MATCHING_MIN <=? d) && (d <=? DLT_MATCHING_MAX)) eqn:Em.
  - destruct (Z.eqb_spec d LINKTYPE_PFSYNC) as [E|]; [specialize (H246 E); congruence|].
    unfold LINKTYPE_MATCHING_MIN, LINKTYPE_MATCHING_MAX, DLT_MATCHING_MIN, DLT_MATCHING_MAX in *.
    now rewrite Em.
  - destruct (List.find _ linktype_map) as [e|] eqn:Ef; [|congruence].
    apply List.find_some in Ef as [Hin He]. apply Z.eqb_eq in He.
    pose proof linktype_map_back as Hb. rewrite List.forallb_forall in Hb. specialize (Hb _ Hin).
    unfold entry_back in Hb. rewrite He in Hb.
    destruct (Z.eqb_spec d DLT_ATM_CLIP); [contradiction|]. cbn [orb] in Hb.
    destruct (e.2 =? LINKTYPE_PFSYNC); [discriminate|]. cbn [negb andb] in Hb.
    destruct ((LINKTYPE_MATCHING_MIN <=? e.2) && _); [now apply Z.eqb_eq in Hb|].
    destruct (List.find _ _); [now apply Z.eqb_eq in Hb|discriminate].
Qed.

(** A DLT_ value that has a LINKTYPE_ code comes back from that code: writing the
    header of a savefile and reading it again gives the link-layer type of the capture.
    [DLT_PFSYNC] may be any platform's value; a platform on which it is not 246 must not
    use 246 for another DLT_, because that is the savefile code of PFSYNC. The exception is
    [DLT_ATM_CLIP]: its code 106 lies in the range of codes that stand for themselves, so it
    is read back as 106. *)
Theorem linktype_roundtrip DLT_PFSYNC d :
  dlt_to_linktype DLT_PFSYNC d <> -1 -> (d = LINKTYPE_PFSYNC -> DLT_PFSYNC = LINKTYPE_PFSYNC) ->
  linktype_to_dlt DLT_PFSYNC (dlt_to_linktype DLT_PFSYNC d) =
  if (d =? DLT_ATM_CLIP) && negb (d =? DLT_PFSYNC) then LINKTYPE_ATM_CLIP else d.
Proof. apply linktype_back. Qed.

Lemma linktype_roundtrip_witness : linktype_to_dlt 18 (dlt_to_linktype 18 12) = 12.
Proof. apply (linktype_roundtrip 18 12); [vm_compute; congruence|]. intros H. discriminate H. Defined.
