(* ===== verification/UsbHeader.v ===== *)
(** * Byte swapping of Linux USB pseudo-headers (pcap-common.c)

    [swap_linux_usb_header] converts, in place, the header at the front of a packet of a
    savefile of the other byte order. The packet is the prefix of length [caplen] of the
    read buffer; a field outside the buffer is a fault of the model ([None]), so the
    theorem that the function is total on every packet is the statement that it stays
    inside the buffer. *)
From stdpp Require Import base numbers list.
From Stdlib Require Import Strings.Byte.
From S2P Require Import Prelude BpfInsn LinkType.
Open Scope Z_scope.

Definition SWAPLL (z : Z) : Z := swap_bytes 8 z.

(** ** Fields of a byte buffer *)

Definition get_field (buf : list byte) (pos n : nat) : option (list byte) :=
  if decide (pos + n <= length buf)%nat then Some (take n (drop pos buf)) else None.

Definition set_field (buf : list byte) (pos : nat) (v : list byte) : list byte :=
  take pos buf ++ v ++ drop (pos + length v) buf.

Lemma length_set_field buf pos v :
  (pos + length v <= length buf)%nat -> length (set_field buf pos v) = length buf.
Proof. intros H. unfold set_field. rewrite !length_app, length_take, length_drop. lia. Qed.

Lemma set_field_outside buf pos v i :
  (pos + length v <= length buf)%nat -> (i < pos \/ pos + length v <= i)%nat ->
  set_field buf pos v !! i = buf !! i.
Proof.
  intros Hl Hi. unfold set_field. destruct Hi as [Hi|Hi].
  - rewrite lookup_app_l by (rewrite length_take; lia). apply lookup_take_lt. lia.
  - rewrite lookup_app_r, length_take, Nat.min_l by (rewrite ?length_take; lia).
    rewrite lookup_app_r, lookup_drop by lia. f_equal. lia.
Qed.

Lemma get_field_inside buf pos n :
  (pos + n <= length buf)%nat -> exists bs, get_field buf pos n = Some bs /\ length bs = n.
Proof.
  intros H. unfold get_field. rewrite decide_True by exact H. eexists; split; [reflexivity|].
  rewrite length_take, length_drop. lia.
Qed.

(** ** The function *)

(** [usb_id .. usb_ndesc]: offsets in [pcap_usb_header_mmapped]. *)
Definition URB_ISOCHRONOUS := 0.
Definition usb_transfer_type : nat := 9.
Definition usb_numdesc : nat := 44.
Definition sizeof_usb_isodesc : nat := 16.

(** What a piece of the function does: go on with the buffer and the offset past the
    fields seen so far, or return from the function. *)
Inductive usb_step :=
| Goes (buf : list byte) (offset : Z)
| Returns (buf : list byte).

Section Swap.
Context (caplen : Z).

(** [offset += skip; if (hdr->caplen < offset) return; field = SWAP(field)] for the field
    of [n] bytes at position [pos] of the buffer. *)
Definition swap_at (skip pos : nat) (n : nat) (s : usb_step) : option usb_step :=
  match s with
  | Returns buf => Some (Returns buf)
  | Goes buf offset =>
      let offset := u32 (offset + Z.of_nat skip) in
      if caplen <? offset then Some (Returns buf)
      else
        bs ← get_field buf pos n;
        Some (Goes (set_field buf pos (le_bytes n (swap_bytes n (le_val bs)))) offset)
  end.

Definition skip (n : Z) (s : usb_step) : option usb_step :=
  Some (match s with Goes buf offset => Goes buf (u32 (offset + n)) | Returns buf => Returns buf end).

(** The header up to [data_len]. *)
Definition swap_common (s : usb_step) : option usb_step :=
  s ← swap_at 8 0 8 s; (* id *)
  s ← skip 4 s;
  s ← swap_at 2 12 2 s; (* bus_id *)
  s ← skip 2 s;
  s ← swap_at 8 16 8 s; (* ts_sec *)
  s ← swap_at 4 24 4 s; (* ts_usec *)
  s ← swap_at 4 28 4 s; (* status *)
  s ← swap_at 4 32 4 s; (* urb_len *)
  swap_at 4 36 4 s. (* data_len *)

Definition is_iso (buf : list byte) : option bool :=
  bs ← get_field buf usb_transfer_type 1; Some (le_val bs =? URB_ISOCHRONOUS).

(** The union [s]: error_count and numdesc, or the setup header, which is left alone. *)
Definition swap_s (s : usb_step) : option usb_step :=
  match s with
  | Returns buf => Some (Returns buf)
  | Goes buf offset =>
      iso ← is_iso buf;
      if (iso : bool) then s ← swap_at 4 40 4 s; swap_at 4 usb_numdesc 4 s else skip 8 s
  end.

(** interval, start_frame, xfer_flags, ndesc. *)
Definition swap_extra (s : usb_step) : option usb_step :=
  s ← swap_at 4 48 4 s; s ← swap_at 4 52 4 s; s ← swap_at 4 56 4 s; swap_at 4 60 4 s.

(** [for (i = 0; i < numdesc; i++)] over the descriptors at [pisodesc]. *)
Fixpoint swap_isodescs (fuel : nat) (i numdesc : Z) (pisodesc : nat) (s : usb_step)
  : option usb_step :=
  match s with
  | Returns buf => Some (Returns buf)
  | Goes buf offset =>
      if i <? numdesc then
        match fuel with
        | O => None
        | S fuel' =>
            s ← swap_at 4 pisodesc 4 s;
            s ← swap_at 4 (pisodesc + 4) 4 s;
            s ← swap_at 4 (pisodesc + 8) 4 s;
            s ← skip 4 s;
            swap_isodescs fuel' (i + 1) numdesc (pisodesc + sizeof_usb_isodesc) s
        end
      else Some (Goes buf offset)
  end.

Definition swap_iso (fuel : nat) (s : usb_step) : option usb_step :=
  match s with
  | Returns buf => Some (Returns buf)
  | Goes buf offset =>
      iso ← is_iso buf;
      if (iso : bool) then
        bs ← get_field buf usb_numdesc 4;
        swap_isodescs fuel 0 (s32 (le_val bs)) (Z.to_nat offset) s
      else Some s
  end.

Definition usb_buf (s : usb_step) : list byte :=
  match s with Goes buf _ | Returns buf => buf end.

Definition swap_linux_usb_header (buf : list byte) (header_len_64_bytes : bool)
  : option (list byte) :=
  s ← swap_common (Goes buf 0);
  s ← swap_s s;
  s ← (if header_len_64_bytes then swap_extra s else Some s);
  s ← swap_iso (S (length buf)) s;
  Some (usb_buf s).
End Swap.

(** ** It stays inside the packet *)

Section Bounds.
Context (caplen : Z) (buf0 : list byte).
Context (Hcap : 0 <= caplen < 2 ^ 31) (Hbuf : caplen <= Z.of_nat (length buf0)).

(** The buffer has kept its length, its bytes past the packet and the transfer type, and
    the offset, if the function goes on, is [k], at most [m] bytes past the packet. *)
Definition usb_inv (k m : Z) (s : usb_step) : Prop :=
  length (usb_buf s) = length buf0 /\
  (forall i, (Z.to_nat caplen <= i)%nat -> usb_buf s !! i = buf0 !! i) /\
  usb_buf s !! usb_transfer_type = buf0 !! usb_transfer_type /\
  match s with Goes _ offset => offset = k /\ k <= caplen + m | Returns _ => True end.

Definition usb_goes (k m : Z) (r : option usb_step) : Prop :=
  exists s, r = Some s /\ usb_inv k m s.

Lemma usb_goes_bind k m k' m' r f :
  usb_goes k m r -> (forall s, usb_inv k m s -> usb_goes k' m' (f s)) ->
  usb_goes k' m' (r ≫= f).
Proof. intros (s & -> & Hs) Hf. exact (Hf s Hs). Qed.

Lemma usb_inv_weaken k m m' s : m <= m' -> usb_inv k m s -> usb_inv k m' s.
Proof. intros Hm (Hl & Ho & Ht & Hs). do 3 (split; [assumption|]). destruct s; [lia|exact I]. Qed.

Lemma swap_at_goes k m sk pos n s :
  usb_inv k m s -> 0 <= k -> m <= 100 -> (sk <= 100)%nat ->
  Z.of_nat (pos + n) <= k + Z.of_nat sk -> (usb_transfer_type < pos \/ pos + n <= usb_transfer_type)%nat ->
  usb_goes (k + Z.of_nat sk) 0 (swap_at caplen sk pos n s).
Proof.
  intros (Hl & Ho & Ht & Hs) Hk Hm Hsk Hpos Htr. destruct s as [buf offset|buf]; simpl in *.
  2:{ exists (Returns buf). split; [reflexivity|]. now repeat split. }
  destruct Hs as [-> Hkm]. rewrite u32_id by lia.
  destruct (Z.ltb_spec caplen (k + Z.of_nat sk)).
  { exists (Returns buf). split; [reflexivity|]. now repeat split. }
  destruct (get_field_inside buf pos n) as (bs & -> & Hbs); [lia|]. simpl.
  eexists; split; [reflexivity|]. repeat split; simpl; try lia.
  - rewrite length_set_field; rewrite ?length_le_bytes; lia.
  - intros i Hi. rewrite set_field_outside; rewrite ?length_le_bytes; [auto|lia|lia].
  - rewrite set_field_outside; rewrite ?length_le_bytes; [auto|lia|lia].
Qed.

Lemma skip_goes k m n s :
  usb_inv k m s -> 0 <= k -> 0 <= n -> m + n <= 100 -> usb_goes (k + n) (m + n) (skip n s).
Proof.
  intros (Hl & Ho & Ht & Hs) Hk Hn Hm. eexists; split; [reflexivity|].
  destruct s as [buf offset|buf]; [|now repeat split]. destruct Hs as [-> Hkm].
  repeat split; try assumption; [apply u32_id|]; lia.
Qed.
End Bounds.

Ltac usb_swap :=
  eapply usb_goes_bind; [eapply swap_at_goes; try eassumption; unfold usb_transfer_type; lia|intros ? ?].
Ltac usb_skip :=
  eapply usb_goes_bind; [eapply skip_goes; try eassumption; lia|intros ? ?].

Section Bounds2.
Context (caplen : Z) (buf0 : list byte).
Context (Hcap : 0 <= caplen < 2 ^ 31) (Hbuf : caplen <= Z.of_nat (length buf0)).
Abbreviation goes := (usb_goes caplen buf0).
Abbreviation inv := (usb_inv caplen buf0).

Lemma swap_common_goes : goes 40 0 (swap_common caplen (Goes buf0 0)).
Proof.
  assert (inv 0 0 (Goes buf0 0)) by (repeat split; lia). unfold swap_common.
  usb_swap. usb_skip. usb_swap. usb_skip. usb_swap. usb_swap. usb_swap. usb_swap.
  eapply (swap_at_goes _ _ Hcap Hbuf 36); try eassumption; unfold usb_transfer_type; lia.
Qed.

Definition iso0 : bool :=
  match buf0 !! usb_transfer_type with Some b => b2z b =? URB_ISOCHRONOUS | None => false end.

Lemma is_iso_eq k m s : inv k m s -> 10 <= caplen -> is_iso (usb_buf s) = Some iso0.
Proof.
  intros (Hl & _ & Ht & _) Hc. unfold is_iso, get_field.
  rewrite decide_True by (unfold usb_transfer_type; lia). simpl. unfold iso0. rewrite <- Ht.
  destruct (lookup_lt_is_Some_2 (usb_buf s) usb_transfer_type) as [b Hb];
    [unfold usb_transfer_type; lia|].
  rewrite Hb, (drop_S _ _ _ Hb). simpl. now rewrite Z.mul_0_r, Z.add_0_r.
Qed.

(** Past the union the header is complete, or the packet has no descriptors. *)
Definition s_slack : Z := if iso0 then 0 else 8.

Lemma swap_s_goes s : inv 40 0 s -> goes 48 s_slack (swap_s caplen s).
Proof.
  intros Hs. destruct s as [buf offset|buf].
  2:{ exists (Returns buf). split; [reflexivity|]. destruct Hs as (?&?&?&?). now repeat split. }
  pose proof Hs as (_ & _ & _ & -> & Hk).
  pose proof (is_iso_eq 40 0 _ Hs ltac:(lia)) as Hi. simpl in Hi. unfold swap_s. rewrite Hi.
  cbv [mbind option_bind]. unfold s_slack. destruct iso0.
  - usb_swap. eapply (swap_at_goes _ _ Hcap Hbuf 44); try eassumption;
      unfold usb_transfer_type, usb_numdesc; lia.
  - exact (skip_goes _ _ Hcap 40 0 8 _ Hs ltac:(lia) ltac:(lia) ltac:(lia)).
Qed.

Lemma swap_extra_goes s : inv 48 8 s -> goes 64 0 (swap_extra caplen s).
Proof.
  intros Hs. unfold swap_extra. usb_swap. usb_swap. usb_swap.
  eapply (swap_at_goes _ _ Hcap Hbuf 60); try eassumption; unfold usb_transfer_type; lia.
Qed.

Lemma swap_isodescs_goes fuel i numdesc k s :
  inv k 4 s -> 10 <= k -> caplen + 4 < 16 * Z.of_nat fuel + k ->
  exists s', swap_isodescs caplen fuel i numdesc (Z.to_nat k) s = Some s' /\
             exists k', inv k' 4 s'.
Proof.
  revert i k s. induction fuel as [|fuel IH]; intros i k s Hs Hk Hf.
  - destruct s as [buf offset|buf]; [destruct Hs as (?&?&?&?&?); lia|]. eauto.
  - destruct s as [buf offset|buf]; [|now eauto].
    cbn [swap_isodescs]. destruct (i <? numdesc); [|now eauto].
    assert (goes (k + 4 + 4 + 4 + 4) 4
      (s1 ← swap_at caplen 4 (Z.to_nat k) 4 (Goes buf offset);
       s2 ← swap_at caplen 4 (Z.to_nat k + 4) 4 s1;
       s3 ← swap_at caplen 4 (Z.to_nat k + 8) 4 s2; skip 4 s3)) as (s' & Hrun & Hs').
    { usb_swap. usb_swap. usb_swap. eapply (skip_goes _ _ Hcap (k + 4 + 4 + 4) 0);
        try eassumption; lia. }
    cbv [mbind option_bind] in Hrun |- *.
    repeat match type of Hrun with
           | match ?r with _ => _ end = _ => destruct r as [?s|]; [|discriminate]
           end.
    destruct (IH (i + 1) (k + 4 + 4 + 4 + 4) s') as (r & Hr & Hinv); [assumption|lia|lia|].
    exists r. split; [|exact Hinv]. rewrite Hrun, <- Hr. unfold sizeof_usb_isodesc.
    now replace (Z.to_nat (k + 4 + 4 + 4 + 4)) with (Z.to_nat k + 16)%nat by lia.
Qed.

Lemma swap_iso_goes fuel k m s :
  inv k m s -> 48 <= k -> m <= s_slack -> Z.of_nat (length buf0) <= 16 * Z.of_nat fuel ->
  exists s', swap_iso caplen fuel s = Some s' /\ exists k' m', inv k' m' s'.
Proof.
  intros Hs Hk Hm Hf. destruct s as [buf offset|buf]; [|now eauto].
  pose proof Hs as (Hl & _ & _ & -> & Hkc). unfold s_slack in Hm.
  pose proof (is_iso_eq k m _ Hs ltac:(destruct iso0; lia)) as Hi. simpl in Hi.
  unfold swap_iso. rewrite Hi.
  cbv [mbind option_bind]. destruct iso0; [|now eauto].
  destruct (get_field_inside buf usb_numdesc 4) as (bs & -> & _);
    [unfold usb_numdesc; simpl in Hl; lia|].
  destruct (swap_isodescs_goes fuel 0 (s32 (le_val bs)) k (Goes buf k)) as (s' & -> & k' & Hinv);
    [eapply usb_inv_weaken; [|exact Hs]; lia|lia|lia|eauto].
Qed.
End Bounds2.

Lemma swap_in_packet caplen buf header_len_64_bytes :
  0 <= caplen < 2 ^ 31 -> caplen <= Z.of_nat (length buf) ->
  exists buf', swap_linux_usb_header caplen buf header_len_64_bytes = Some buf' /\
    length buf' = length buf /\
    forall i, (Z.to_nat caplen <= i)%nat -> buf' !! i = buf !! i.
Proof.
  intros Hcap Hbuf. unfold swap_linux_usb_header.
  destruct (swap_common_goes caplen buf Hcap Hbuf) as (s & -> & Hs).
  destruct (swap_s_goes caplen buf Hcap Hbuf s Hs) as (s1 & H1 & Hs1).
  cbv [mbind option_bind]. rewrite H1.
  assert (exists s2 k m, (if header_len_64_bytes then swap_extra caplen s1 else Some s1) = Some s2 /\
    usb_inv caplen buf k m s2 /\ 48 <= k /\ m <= s_slack buf) as (s2 & k & m & -> & Hs2 & Hk & Hm).
  { destruct header_len_64_bytes; [|exists s1, 48, (s_slack buf); auto with lia].
    destruct (swap_extra_goes caplen buf Hcap Hbuf s1) as (s2 & H2 & Hs2).
    { eapply usb_inv_weaken; [|exact Hs1]. unfold s_slack. destruct (iso0 buf); lia. }
    exists s2, 64, 0. repeat (split; [assumption || lia|]). unfold s_slack. destruct (iso0 buf); lia. }
  destruct (swap_iso_goes caplen buf Hcap Hbuf (S (length buf)) k m s2 Hs2 Hk Hm)
    as (s3 & -> & k' & m' & Hl & Ho & _); [lia|].
  exists (usb_buf s3). auto.
Qed.

(** Swapping a USB header writes only inside the captured packet: on any packet that
    fits its buffer the function returns, the buffer keeps its length and every byte at or
    past [caplen] keeps its value, whatever descriptor count the packet claims. *)
Theorem swap_linux_usb_header_in_packet caplen buf header_len_64_bytes :
  0 <= caplen < 2 ^ 31 -> caplen <= Z.of_nat (length buf) ->
  exists buf', swap_linux_usb_header caplen buf header_len_64_bytes = Some buf' /\
    length buf' = length buf /\
    forall i, (Z.to_nat caplen <= i)%nat -> buf' !! i = buf !! i.
Proof. apply swap_in_packet. Qed.

Lemma swap_linux_usb_header_in_packet_witness :
  exists buf', swap_linux_usb_header 60 (replicate 64 x01) true = Some buf' /\
    length buf' = 64%nat /\ forall i, (60 <= i)%nat -> buf' !! i = replicate 64 x01 !! i.
Proof.
  apply (swap_linux_usb_header_in_packet 60 (replicate 64 x01) true);
    [split; vm_compute; congruence|vm_compute; congruence].
Defined.

(** ** What it computes *)

Lemma le_bytes_swap bs : le_bytes (length bs) (swap_bytes (length bs) (le_val bs)) = rev bs.
Proof.
  unfold swap_bytes. rewrite le_bytes_val.
  rewrite <- (le_bytes_val (rev bs)) at 2. now rewrite length_rev.
Qed.

Lemma swap_at_app caplen sk pos n a b c buf offset :
  buf = a ++ b ++ c -> pos = length a -> n = length b ->
  0 <= offset -> offset + Z.of_nat sk <= caplen < 2 ^ 31 ->
  swap_at caplen sk pos n (Goes buf offset) = Some (Goes (a ++ rev b ++ c) (offset + Z.of_nat sk)).
Proof.
  intros -> -> -> Ho Hc. unfold swap_at. rewrite u32_id by lia.
  destruct (Z.ltb_spec caplen (offset + Z.of_nat sk)); [lia|].
  unfold get_field. rewrite decide_True by (rewrite !length_app; lia).
  rewrite (drop_app_length a (b ++ c)), take_app_length. simpl. rewrite le_bytes_swap. f_equal.
  unfold set_field. rewrite take_app_length, length_rev.
  rewrite <- (length_app a b), (app_assoc a b c), drop_app_length. reflexivity.
Qed.

(** The fields of the header as stored, and the header with its fields reversed. *)
Record usb_fields := mk_usb_fields {
  uf_id : list byte; uf_event : byte; uf_transfer : byte; uf_endpoint : byte; uf_device : byte;
  uf_bus_id : list byte; uf_setup_flag : byte; uf_data_flag : byte;
  uf_ts_sec : list byte; uf_ts_usec : list byte; uf_status : list byte;
  uf_urb_len : list byte; uf_data_len : list byte }.

Definition usb_bytes (f : list byte -> list byte) (h : usb_fields) : list byte :=
  f (uf_id h) ++ [uf_event h; uf_transfer h; uf_endpoint h; uf_device h] ++ f (uf_bus_id h)
  ++ [uf_setup_flag h; uf_data_flag h] ++ f (uf_ts_sec h) ++ f (uf_ts_usec h)
  ++ f (uf_status h) ++ f (uf_urb_len h) ++ f (uf_data_len h).

Definition usb_fields_ok (h : usb_fields) : Prop :=
  length (uf_id h) = 8%nat /\ length (uf_bus_id h) = 2%nat /\ length (uf_ts_sec h) = 8%nat /\
  length (uf_ts_usec h) = 4%nat /\ length (uf_status h) = 4%nat /\
  length (uf_urb_len h) = 4%nat /\ length (uf_data_len h) = 4%nat.

Ltac usb_len := rewrite ?length_app, ?length_rev; cbn [length]; lia.
Ltac usb_seg a b c := rewrite (swap_at_app _ _ _ _ a b c);
    [cbv [mbind option_bind skip] | now rewrite <- ?app_assoc | usb_len | usb_len | usb_len | usb_len];
    rewrite ?u32_id by lia.

Lemma swap_common_fields caplen h rest :
  usb_fields_ok h -> 40 <= caplen < 2 ^ 31 ->
  swap_common caplen (Goes (usb_bytes id h ++ rest) 0) = Some (Goes (usb_bytes (@rev byte) h ++ rest) 40).
Proof.
  destruct h as [i e t n d b sf df s u st ul dl].
  intros (Hi & Hb & Hs & Hu & Hst & Hul & Hdl) Hc. unfold usb_bytes in *. cbn [uf_id uf_event
    uf_transfer uf_endpoint uf_device uf_bus_id uf_setup_flag uf_data_flag uf_ts_sec uf_ts_usec
    uf_status uf_urb_len uf_data_len] in *.
  set (f1 := [e; t; n; d]) in *. set (f2 := [sf; df]) in *. unfold swap_common, id.
  assert (length f1 = 4%nat /\ length f2 = 2%nat) as [Hf1 Hf2] by (split; reflexivity).
  clearbody f1 f2. rewrite <- !app_assoc.
  usb_seg (@nil byte) i (f1 ++ b ++ f2 ++ s ++ u ++ st ++ ul ++ dl ++ rest).
  usb_seg (rev i ++ f1) b (f2 ++ s ++ u ++ st ++ ul ++ dl ++ rest).
  usb_seg (rev i ++ f1 ++ rev b ++ f2) s (u ++ st ++ ul ++ dl ++ rest).
  usb_seg (rev i ++ f1 ++ rev b ++ f2 ++ rev s) u (st ++ ul ++ dl ++ rest).
  usb_seg (rev i ++ f1 ++ rev b ++ f2 ++ rev s ++ rev u) st (ul ++ dl ++ rest).
  usb_seg (rev i ++ f1 ++ rev b ++ f2 ++ rev s ++ rev u ++ rev st) ul (dl ++ rest).
  usb_seg (rev i ++ f1 ++ rev b ++ f2 ++ rev s ++ rev u ++ rev st ++ rev ul) dl rest.
  now rewrite <- !app_assoc.
Qed.

(** Of a complete header that is not isochronous exactly the integer fields are
    reversed, each in its place; the one-byte fields, the setup header and the packet data
    keep their values. *)
Theorem swap_linux_usb_header_fields caplen h rest :
  usb_fields_ok h -> b2z (uf_transfer h) <> URB_ISOCHRONOUS ->
  40 <= caplen <= Z.of_nat (length (usb_bytes id h ++ rest)) -> caplen < 2 ^ 31 ->
  swap_linux_usb_header caplen (usb_bytes id h ++ rest) false = Some (usb_bytes (@rev byte) h ++ rest).
Proof.
  intros Hh Hiso Hc H31. unfold swap_linux_usb_header. rewrite swap_common_fields by (assumption || lia).
  assert (is_iso (usb_bytes (@rev byte) h ++ rest) = Some false) as Hi.
  { unfold is_iso, get_field. rewrite decide_True.
    - unfold usb_bytes, usb_transfer_type. rewrite <- !app_assoc, drop_app_ge; rewrite length_rev;
        destruct Hh as (-> & _); [|lia]. simpl. rewrite Z.add_0_r. f_equal. now apply Z.eqb_neq.
    - unfold usb_bytes, usb_transfer_type. rewrite !length_app, !length_rev.
      destruct Hh as (-> & _). simpl. lia. }
  cbv [mbind option_bind]. unfold swap_s. rewrite Hi. cbv [mbind option_bind skip].
  unfold swap_iso. rewrite Hi. reflexivity.
Qed.

(** The witness swaps the header of an interrupt transfer, two bytes of data included. *)
Definition usb_sample : usb_fields :=
  mk_usb_fields [x01;x02;x03;x04;x05;x06;x07;x08] x53 x01 x81 x02 [x00;x01] x2d x3c
    [x00;x00;x00;x00;x52;xaa;xbb;xcc] [x00;x0f;x42;x3f] [xff;xff;xff;x8d]
    [x00;x00;x00;x40] [x00;x00;x00;x00].

Lemma swap_linux_usb_header_fields_witness :
  swap_linux_usb_header 50 (usb_bytes id usb_sample ++ replicate 10 xee) false
  = Some (usb_bytes (@rev byte) usb_sample ++ replicate 10 xee).
Proof.
  apply (swap_linux_usb_header_fields 50 usb_sample (replicate 10 xee));
    [repeat split|vm_compute; congruence|split; vm_compute; congruence|vm_compute; congruence].
Defined.
