(* ===== verification/Pcap.v ===== *)
(** * The capture handle (pcap-int.h) and the library it stands on

    [pcap_t] with the fields the modelled code uses, input and output streams, memory
    allocation, the errors put in [errbuf], and the state-and-error monad the reading
    functions are written in. The host is little-endian with 32-bit [int] and 64-bit
    [long], [size_t] and [time_t]. *)
From stdpp Require Import base numbers list strings.
From Stdlib Require Import Strings.Byte.
From S2P Require Import Prelude BpfInsn UsbHeader.
Open Scope Z_scope.

(** ** Streams *)

(** What is left to read, and whether the end is an I/O error ([ferror]) or end of file. *)
Record FILE := mk_FILE { f_data : list byte; f_err : bool }.

(** [fread(buf, 1, n, fp)]: the bytes read, fewer than [n] only at the end. *)
Definition fread (n : Z) (fp : FILE) : list byte * FILE :=
  (take (Z.to_nat n) (f_data fp), mk_FILE (drop (Z.to_nat n) (f_data fp)) (f_err fp)).

(** What has been written, and how many bytes the device still takes. *)
Record OFILE := mk_OFILE { o_data : list byte; o_room : Z }.

(** [fwrite(buf, n, 1, f)]: a full device takes a prefix and the call fails. *)
Definition fwrite (bs : list byte) (f : OFILE) : bool * OFILE :=
  let n := Z.min (Z.of_nat (length bs)) (o_room f) in
  (Z.of_nat (length bs) <=? o_room f,
   mk_OFILE (o_data f ++ take (Z.to_nat n) bs) (o_room f - n)).

(** ** Memory *)

(** [malloc] gives a block of the requested size with unspecified contents, or fails. *)
Class Alloc := {
  malloc : Z -> option (list byte);
  malloc_length n b : 0 <= n -> malloc n = Some b -> Z.of_nat (length b) = n }.

(** [realloc] keeps the contents up to the smaller of the two sizes. *)
Definition realloc `{Alloc} (old : list byte) (n : Z) : option (list byte) :=
  b ← malloc n; Some (take (length b) old ++ drop (length old) b).

(** An allocator that never fails. *)
Lemma zeroes_length n (b : list byte) :
  0 <= n -> Some (replicate (Z.to_nat n) x00) = Some b -> Z.of_nat (length b) = n.
Proof. intros Hn [= <-]. rewrite length_replicate. lia. Qed.

Definition zeroing_malloc : Alloc :=
  {| malloc n := Some (replicate (Z.to_nat n) x00); malloc_length := zeroes_length |}.

Lemma realloc_length `{Alloc} old n b :
  0 <= n -> realloc old n = Some b -> Z.of_nat (length b) = n.
Proof.
  unfold realloc. intros Hn. destruct (malloc n) as [m|] eqn:Em; [|discriminate].
  intros [= <-]. apply malloc_length in Em; [|exact Hn].
  rewrite length_app, length_take, length_drop. lia.
Qed.

(** ** Constants of pcap.h *)

Definition PCAP_VERSION_MAJOR := 2.
Definition PCAP_VERSION_MINOR := 4.
Definition PCAP_TSTAMP_PRECISION_MICRO := 0.
Definition PCAP_TSTAMP_PRECISION_NANO := 1.
Definition PCAP_TSTAMP_HOST := 0.
Definition PCAP_ERROR := -1.
Definition PCAP_ERROR_BREAK := -2.
Definition PCAP_ERROR_NOT_ACTIVATED := -3.
Definition PCAP_ERROR_ACTIVATED := -4.
Definition PCAP_ERROR_NO_SUCH_DEVICE := -5.
Definition PCAP_ERROR_RFMON_NOTSUP := -6.
Definition PCAP_ERROR_NOT_RFMON := -7.
Definition PCAP_ERROR_PERM_DENIED := -8.
Definition PCAP_ERROR_IFACE_NOT_UP := -9.
Definition PCAP_ERROR_CANTSET_TSTAMP_TYPE := -10.
Definition PCAP_ERROR_PROMISC_PERM_DENIED := -11.
Definition PCAP_ERROR_TSTAMP_PRECISION_NOTSUP := -12.
Definition PCAP_WARNING := 1.
Definition PCAP_WARNING_PROMISC_NOTSUP := 2.
Definition PCAP_WARNING_TSTAMP_TYPE_NOTSUP := 3.

(** ** Error messages: one constructor per format string, with its numeric arguments. *)
Inductive pcap_error :=
| ErrRead
| ErrTruncFileHeader (want got : Z)
| ErrTruncPacketHeader (want got : Z)
| ErrTruncCaptured (want got : Z)
| ErrTruncBytes (want got : Z)
| ErrArchaic
| ErrMalloc
| ErrOutOfMemory
| ErrPrecision (precision : Z)
| ErrBogusHeader
| ErrBufmodMalloc
| ErrUnknownFormat
| ErrBlockTooBig (len : Z)
| ErrBlockTooSmall (len : Z)
| ErrBlockShort (block_type : Z)
| ErrEndofoptLength (len : Z)
| ErrTsresolLength (len : Z)
| ErrTsresolTwice
| ErrTsresolTooHigh (base exponent : Z)
| ErrTsoffsetLength (len : Z)
| ErrTsoffsetTwice
| ErrIfMemory (ifcount : Z)
| ErrShbLength (len : Z)
| ErrMajorVersion (v : Z)
| ErrNoIdb
| ErrPacketBeforeIdb
| ErrIfType (linktype : Z)
| ErrIfSnaplen (snaplen : Z)
| ErrByteOrderChanges
| ErrByteOrderMagic
| ErrNoInterface (interface_id : Z)
| ErrOperationOnActivated
| ErrStatus (status : Z)
| ErrDltNotSupported (dlt : Z)
| ErrNoNonblock
| ErrNoStats
| ErrNoInject
| ErrNoDirection
| ErrDumpNotActivated
| ErrDumpLinktype (dlt : Z)
| ErrCannotWrite
| ErrFopen
| ErrBpfInvalid
| ErrNoDirectionHere
| ErrStatsDead
| ErrActivateFailed (status : Z).

(** ** The handle *)

(** [struct pcap_pkthdr] *)
Record pcap_pkthdr := mk_pkthdr { tv_sec : Z; tv_usec : Z; caplen : Z; len : Z }.

Inductive swapped_type_t := NOT_SWAPPED | SWAPPED | MAYBE_SWAPPED.
Inductive tstamp_scale_type_t := PASS_THROUGH | SCALE_UP | SCALE_DOWN.

(** Private data of the two savefile formats. An entry of [ifaces] that has been allocated
    and not written is [None]; a null [ifaces] is the empty list. *)
Record pcap_sf := mk_sf {
  hdrsize : Z; lengths_swapped : swapped_type_t; scale_type : tstamp_scale_type_t }.
Record pcap_ng_if := mk_ng_if {
  if_tsresol : Z; if_tsoffset : Z; if_scale_type : tstamp_scale_type_t }.
Record pcap_ng_sf := mk_ng_sf {
  user_tsresol : Z; ifcount : Z; ifaces_size : Z; ifaces : list (option pcap_ng_if) }.

Inductive priv_t :=
| PrivNone
| PrivSf (ps : pcap_sf)
| PrivNg (ps : pcap_ng_sf).

(** The operation pointers, as a table: those of [initialize_ops], those of a savefile,
    those of an activated live capture, or the null pointers of [pcap_open_dead]. *)
Inductive op_table := OpsNotActivated | OpsSavefile | OpsLive | OpsDead.

(** [struct pcap_opt] *)
Record pcap_opt := mk_opt {
  opt_source : string;
  opt_timeout : Z;
  opt_buffer_size : Z;
  opt_promisc : Z;
  opt_rfmon : Z;
  opt_immediate : Z;
  opt_tstamp_type : Z;
  opt_tstamp_precision : Z }.

Definition set_opt_source (v : string) (p : pcap_opt) : pcap_opt :=
  mk_opt v (opt_timeout p) (opt_buffer_size p) (opt_promisc p) (opt_rfmon p) (opt_immediate
    p) (opt_tstamp_type p) (opt_tstamp_precision p).
Definition set_opt_timeout (v : Z) (p : pcap_opt) : pcap_opt :=
  mk_opt (opt_source p) v (opt_buffer_size p) (opt_promisc p) (opt_rfmon p) (opt_immediate
    p) (opt_tstamp_type p) (opt_tstamp_precision p).
Definition set_opt_buffer_size (v : Z) (p : pcap_opt) : pcap_opt :=
  mk_opt (opt_source p) (opt_timeout p) v (opt_promisc p) (opt_rfmon p) (opt_immediate p)
    (opt_tstamp_type p) (opt_tstamp_precision p).
Definition set_opt_promisc (v : Z) (p : pcap_opt) : pcap_opt :=
  mk_opt (opt_source p) (opt_timeout p) (opt_buffer_size p) v (opt_rfmon p) (opt_immediate
    p) (opt_tstamp_type p) (opt_tstamp_precision p).
Definition set_opt_rfmon (v : Z) (p : pcap_opt) : pcap_opt :=
  mk_opt (opt_source p) (opt_timeout p) (opt_buffer_size p) (opt_promisc p) v (opt_immediate
    p) (opt_tstamp_type p) (opt_tstamp_precision p).
Definition set_opt_immediate (v : Z) (p : pcap_opt) : pcap_opt :=
  mk_opt (opt_source p) (opt_timeout p) (opt_buffer_size p) (opt_promisc p) (opt_rfmon p) v
    (opt_tstamp_type p) (opt_tstamp_precision p).
Definition set_opt_tstamp_type (v : Z) (p : pcap_opt) : pcap_opt :=
  mk_opt (opt_source p) (opt_timeout p) (opt_buffer_size p) (opt_promisc p) (opt_rfmon p)
    (opt_immediate p) v (opt_tstamp_precision p).
Definition set_opt_tstamp_precision (v : Z) (p : pcap_opt) : pcap_opt :=
  mk_opt (opt_source p) (opt_timeout p) (opt_buffer_size p) (opt_promisc p) (opt_rfmon p)
    (opt_immediate p) (opt_tstamp_type p) v.

(** [struct pcap]. [rfile] is null for a live capture; [fcode] is [None] when no program is
    installed; the lists carry their counts; [errbuf] is [None] when empty. [p_tsize] is the
    static [tsize] of [pcap_next_packet]. *)
Record pcap_t := mk_pcap {
  p_ops : op_table;
  p_bufsize : Z;
  p_buffer : list byte;
  p_break_loop : bool;
  p_priv : priv_t;
  p_swapped : bool;
  p_rfile : option FILE;
  p_version_major : Z;
  p_version_minor : Z;
  p_snapshot : Z;
  p_linktype : Z;
  p_linktype_ext : Z;
  p_tzoff : Z;
  p_activated : bool;
  p_oldstyle : bool;
  p_opt : pcap_opt;
  p_fcode : option (list bpf_insn);
  p_errbuf : option pcap_error;
  p_dlt_list : list Z;
  p_tstamp_type_list : list Z;
  p_tstamp_precision_list : list Z;
  p_tsize : Z }.

Definition set_p_ops (v : op_table) (p : pcap_t) : pcap_t :=
  mk_pcap v (p_bufsize p) (p_buffer p) (p_break_loop p) (p_priv p) (p_swapped p) (p_rfile p)
    (p_version_major p) (p_version_minor p) (p_snapshot p) (p_linktype p) (p_linktype_ext p)
    (p_tzoff p) (p_activated p) (p_oldstyle p) (p_opt p) (p_fcode p) (p_errbuf p)
    (p_dlt_list p) (p_tstamp_type_list p) (p_tstamp_precision_list p) (p_tsize p).
Definition set_p_bufsize (v : Z) (p : pcap_t) : pcap_t :=
  mk_pcap (p_ops p) v (p_buffer p) (p_break_loop p) (p_priv p) (p_swapped p) (p_rfile p)
    (p_version_major p) (p_version_minor p) (p_snapshot p) (p_linktype p) (p_linktype_ext p)
    (p_tzoff p) (p_activated p) (p_oldstyle p) (p_opt p) (p_fcode p) (p_errbuf p)
    (p_dlt_list p) (p_tstamp_type_list p) (p_tstamp_precision_list p) (p_tsize p).
Definition set_p_buffer (v : list byte) (p : pcap_t) : pcap_t :=
  mk_pcap (p_ops p) (p_bufsize p) v (p_break_loop p) (p_priv p) (p_swapped p) (p_rfile p)
    (p_version_major p) (p_version_minor p) (p_snapshot p) (p_linktype p) (p_linktype_ext p)
    (p_tzoff p) (p_activated p) (p_oldstyle p) (p_opt p) (p_fcode p) (p_errbuf p)
    (p_dlt_list p) (p_tstamp_type_list p) (p_tstamp_precision_list p) (p_tsize p).
Definition set_p_break_loop (v : bool) (p : pcap_t) : pcap_t :=
  mk_pcap (p_ops p) (p_bufsize p) (p_buffer p) v (p_priv p) (p_swapped p) (p_rfile p)
    (p_version_major p) (p_version_minor p) (p_snapshot p) (p_linktype p) (p_linktype_ext p)
    (p_tzoff p) (p_activated p) (p_oldstyle p) (p_opt p) (p_fcode p) (p_errbuf p)
    (p_dlt_list p) (p_tstamp_type_list p) (p_tstamp_precision_list p) (p_tsize p).
Definition set_p_priv (v : priv_t) (p : pcap_t) : pcap_t :=
  mk_pcap (p_ops p) (p_bufsize p) (p_buffer p) (p_break_loop p) v (p_swapped p) (p_rfile p)
    (p_version_major p) (p_version_minor p) (p_snapshot p) (p_linktype p) (p_linktype_ext p)
    (p_tzoff p) (p_activated p) (p_oldstyle p) (p_opt p) (p_fcode p) (p_errbuf p)
    (p_dlt_list p) (p_tstamp_type_list p) (p_tstamp_precision_list p) (p_tsize p).
Definition set_p_swapped (v : bool) (p : pcap_t) : pcap_t :=
  mk_pcap (p_ops p) (p_bufsize p) (p_buffer p) (p_break_loop p) (p_priv p) v (p_rfile p)
    (p_version_major p) (p_version_minor p) (p_snapshot p) (p_linktype p) (p_linktype_ext p)
    (p_tzoff p) (p_activated p) (p_oldstyle p) (p_opt p) (p_fcode p) (p_errbuf p)
    (p_dlt_list p) (p_tstamp_type_list p) (p_tstamp_precision_list p) (p_tsize p).
Definition set_p_rfile (v : option FILE) (p : pcap_t) : pcap_t :=
  mk_pcap (p_ops p) (p_bufsize p) (p_buffer p) (p_break_loop p) (p_priv p) (p_swapped p) v
    (p_version_major p) (p_version_minor p) (p_snapshot p) (p_linktype p) (p_linktype_ext p)
    (p_tzoff p) (p_activated p) (p_oldstyle p) (p_opt p) (p_fcode p) (p_errbuf p)
    (p_dlt_list p) (p_tstamp_type_list p) (p_tstamp_precision_list p) (p_tsize p).
Definition set_p_version_major (v : Z) (p : pcap_t) : pcap_t :=
  mk_pcap (p_ops p) (p_bufsize p) (p_buffer p) (p_break_loop p) (p_priv p) (p_swapped p)
    (p_rfile p) v (p_version_minor p) (p_snapshot p) (p_linktype p) (p_linktype_ext p)
    (p_tzoff p) (p_activated p) (p_oldstyle p) (p_opt p) (p_fcode p) (p_errbuf p)
    (p_dlt_list p) (p_tstamp_type_list p) (p_tstamp_precision_list p) (p_tsize p).
Definition set_p_version_minor (v : Z) (p : pcap_t) : pcap_t :=
  mk_pcap (p_ops p) (p_bufsize p) (p_buffer p) (p_break_loop p) (p_priv p) (p_swapped p)
    (p_rfile p) (p_version_major p) v (p_snapshot p) (p_linktype p) (p_linktype_ext p)
    (p_tzoff p) (p_activated p) (p_oldstyle p) (p_opt p) (p_fcode p) (p_errbuf p)
    (p_dlt_list p) (p_tstamp_type_list p) (p_tstamp_precision_list p) (p_tsize p).
Definition set_p_snapshot (v : Z) (p : pcap_t) : pcap_t :=
  mk_pcap (p_ops p) (p_bufsize p) (p_buffer p) (p_break_loop p) (p_priv p) (p_swapped p)
    (p_rfile p) (p_version_major p) (p_version_minor p) v (p_linktype p) (p_linktype_ext p)
    (p_tzoff p) (p_activated p) (p_oldstyle p) (p_opt p) (p_fcode p) (p_errbuf p)
    (p_dlt_list p) (p_tstamp_type_list p) (p_tstamp_precision_list p) (p_tsize p).
Definition set_p_linktype (v : Z) (p : pcap_t) : pcap_t :=
  mk_pcap (p_ops p) (p_bufsize p) (p_buffer p) (p_break_loop p) (p_priv p) (p_swapped p)
    (p_rfile p) (p_version_major p) (p_version_minor p) (p_snapshot p) v (p_linktype_ext p)
    (p_tzoff p) (p_activated p) (p_oldstyle p) (p_opt p) (p_fcode p) (p_errbuf p)
    (p_dlt_list p) (p_tstamp_type_list p) (p_tstamp_precision_list p) (p_tsize p).
Definition set_p_linktype_ext (v : Z) (p : pcap_t) : pcap_t :=
  mk_pcap (p_ops p) (p_bufsize p) (p_buffer p) (p_break_loop p) (p_priv p) (p_swapped p)
    (p_rfile p) (p_version_major p) (p_version_minor p) (p_snapshot p) (p_linktype p) v
    (p_tzoff p) (p_activated p) (p_oldstyle p) (p_opt p) (p_fcode p) (p_errbuf p)
    (p_dlt_list p) (p_tstamp_type_list p) (p_tstamp_precision_list p) (p_tsize p).
Definition set_p_tzoff (v : Z) (p : pcap_t) : pcap_t :=
  mk_pcap (p_ops p) (p_bufsize p) (p_buffer p) (p_break_loop p) (p_priv p) (p_swapped p)
    (p_rfile p) (p_version_major p) (p_version_minor p) (p_snapshot p) (p_linktype p)
    (p_linktype_ext p) v (p_activated p) (p_oldstyle p) (p_opt p) (p_fcode p) (p_errbuf p)
    (p_dlt_list p) (p_tstamp_type_list p) (p_tstamp_precision_list p) (p_tsize p).
Definition set_p_activated (v : bool) (p : pcap_t) : pcap_t :=
  mk_pcap (p_ops p) (p_bufsize p) (p_buffer p) (p_break_loop p) (p_priv p) (p_swapped p)
    (p_rfile p) (p_version_major p) (p_version_minor p) (p_snapshot p) (p_linktype p)
    (p_linktype_ext p) (p_tzoff p) v (p_oldstyle p) (p_opt p) (p_fcode p) (p_errbuf p)
    (p_dlt_list p) (p_tstamp_type_list p) (p_tstamp_precision_list p) (p_tsize p).
Definition set_p_oldstyle (v : bool) (p : pcap_t) : pcap_t :=
  mk_pcap (p_ops p) (p_bufsize p) (p_buffer p) (p_break_loop p) (p_priv p) (p_swapped p)
    (p_rfile p) (p_version_major p) (p_version_minor p) (p_snapshot p) (p_linktype p)
    (p_linktype_ext p) (p_tzoff p) (p_activated p) v (p_opt p) (p_fcode p) (p_errbuf p)
    (p_dlt_list p) (p_tstamp_type_list p) (p_tstamp_precision_list p) (p_tsize p).
Definition set_p_opt (v : pcap_opt) (p : pcap_t) : pcap_t :=
  mk_pcap (p_ops p) (p_bufsize p) (p_buffer p) (p_break_loop p) (p_priv p) (p_swapped p)
    (p_rfile p) (p_version_major p) (p_version_minor p) (p_snapshot p) (p_linktype p)
    (p_linktype_ext p) (p_tzoff p) (p_activated p) (p_oldstyle p) v (p_fcode p) (p_errbuf p)
    (p_dlt_list p) (p_tstamp_type_list p) (p_tstamp_precision_list p) (p_tsize p).
Definition set_p_fcode (v : option (list bpf_insn)) (p : pcap_t) : pcap_t :=
  mk_pcap (p_ops p) (p_bufsize p) (p_buffer p) (p_break_loop p) (p_priv p) (p_swapped p)
    (p_rfile p) (p_version_major p) (p_version_minor p) (p_snapshot p) (p_linktype p)
    (p_linktype_ext p) (p_tzoff p) (p_activated p) (p_oldstyle p) (p_opt p) v (p_errbuf p)
    (p_dlt_list p) (p_tstamp_type_list p) (p_tstamp_precision_list p) (p_tsize p).
Definition set_p_errbuf (v : option pcap_error) (p : pcap_t) : pcap_t :=
  mk_pcap (p_ops p) (p_bufsize p) (p_buffer p) (p_break_loop p) (p_priv p) (p_swapped p)
    (p_rfile p) (p_version_major p) (p_version_minor p) (p_snapshot p) (p_linktype p)
    (p_linktype_ext p) (p_tzoff p) (p_activated p) (p_oldstyle p) (p_opt p) (p_fcode p) v
    (p_dlt_list p) (p_tstamp_type_list p) (p_tstamp_precision_list p) (p_tsize p).
Definition set_p_dlt_list (v : list Z) (p : pcap_t) : pcap_t :=
  mk_pcap (p_ops p) (p_bufsize p) (p_buffer p) (p_break_loop p) (p_priv p) (p_swapped p)
    (p_rfile p) (p_version_major p) (p_version_minor p) (p_snapshot p) (p_linktype p)
    (p_linktype_ext p) (p_tzoff p) (p_activated p) (p_oldstyle p) (p_opt p) (p_fcode p)
    (p_errbuf p) v (p_tstamp_type_list p) (p_tstamp_precision_list p) (p_tsize p).
Definition set_p_tstamp_type_list (v : list Z) (p : pcap_t) : pcap_t :=
  mk_pcap (p_ops p) (p_bufsize p) (p_buffer p) (p_break_loop p) (p_priv p) (p_swapped p)
    (p_rfile p) (p_version_major p) (p_version_minor p) (p_snapshot p) (p_linktype p)
    (p_linktype_ext p) (p_tzoff p) (p_activated p) (p_oldstyle p) (p_opt p) (p_fcode p)
    (p_errbuf p) (p_dlt_list p) v (p_tstamp_precision_list p) (p_tsize p).
Definition set_p_tstamp_precision_list (v : list Z) (p : pcap_t) : pcap_t :=
  mk_pcap (p_ops p) (p_bufsize p) (p_buffer p) (p_break_loop p) (p_priv p) (p_swapped p)
    (p_rfile p) (p_version_major p) (p_version_minor p) (p_snapshot p) (p_linktype p)
    (p_linktype_ext p) (p_tzoff p) (p_activated p) (p_oldstyle p) (p_opt p) (p_fcode p)
    (p_errbuf p) (p_dlt_list p) (p_tstamp_type_list p) v (p_tsize p).
Definition set_p_tsize (v : Z) (p : pcap_t) : pcap_t :=
  mk_pcap (p_ops p) (p_bufsize p) (p_buffer p) (p_break_loop p) (p_priv p) (p_swapped p)
    (p_rfile p) (p_version_major p) (p_version_minor p) (p_snapshot p) (p_linktype p)
    (p_linktype_ext p) (p_tzoff p) (p_activated p) (p_oldstyle p) (p_opt p) (p_fcode p)
    (p_errbuf p) (p_dlt_list p) (p_tstamp_type_list p) (p_tstamp_precision_list p) v.

(** ** Results of operations on a handle

    [Ok] is a result and the handle after the call; [Err] a failure whose message the code
    has stored in the error buffer; [Undef] an execution C gives no meaning to: an access
    outside an object or to an object never written, a division by zero, a shift by the
    width or more or into the sign bit, or a signed overflow. [UbFuel] marks a loop cut short by the model's bound on its iterations. *)
Inductive ub := UbAccess | UbDiv | UbShift | UbOverflow | UbFuel.

Inductive res (A : Type) :=
| Ok (a : A) (p : pcap_t)
| Err (e : pcap_error) (p : pcap_t)
| Undef (u : ub).
Arguments Ok {A} a p.
Arguments Err {A} e p.
Arguments Undef {A} u.

Definition M (A : Type) := pcap_t -> res A.

Definition ret {A} (a : A) : M A := fun p => Ok a p.
Definition bind {A B} (m : M A) (f : A -> M B) : M B :=
  fun p => match m p with
           | Ok a p' => f a p'
           | Err e p' => Err e p'
           | Undef u => Undef u
           end.
Definition fail {A} (e : pcap_error) : M A := fun p => Err e (set_p_errbuf (Some e) p).
Definition undef {A} (u : ub) : M A := fun _ => Undef u.
Definition get_p : M pcap_t := fun p => Ok p p.
Definition modify (f : pcap_t -> pcap_t) : M unit := fun p => Ok tt (f p).

Declare Scope pcap_scope.
Delimit Scope pcap_scope with pcap.
Notation "'let!' x ':=' m 'in' k" := (bind m (fun x => k))
  (at level 10, x pattern, m at level 100, k at level 200) : pcap_scope.
Notation "m ';;;' k" := (bind m (fun _ => k)) (at level 100, right associativity) : pcap_scope.
Open Scope pcap_scope.

(** [fread] from the stream of the handle; a null stream cannot be read. *)
Definition fread_p (n : Z) : M (list byte) := fun p =>
  match p_rfile p with
  | None => Undef UbAccess
  | Some fp => let (bs, fp') := fread n fp in Ok bs (set_p_rfile (Some fp') p)
  end.

(** [ferror(fp)] after a short read. *)
Definition ferror_p : M bool := fun p =>
  match p_rfile p with None => Undef UbAccess | Some fp => Ok (f_err fp) p end.

(** Bytes the stream of the handle still has. *)
Definition left_p (p : pcap_t) : nat :=
  match p_rfile p with None => O | Some fp => length (f_data fp) end.

Lemma bind_Ok {A B} (m : M A) (f : A -> M B) p b p' :
  bind m f p = Ok b p' -> exists a p1, m p = Ok a p1 /\ f a p1 = Ok b p'.
Proof. unfold bind. destruct (m p); intros H; try discriminate. eauto. Qed.

Lemma fread_p_Ok n p bs p' :
  fread_p n p = Ok bs p' ->
  exists fp, p_rfile p = Some fp /\ bs = take (Z.to_nat n) (f_data fp) /\
    p' = set_p_rfile (Some (mk_FILE (drop (Z.to_nat n) (f_data fp)) (f_err fp))) p.
Proof.
  unfold fread_p. destruct (p_rfile p) as [fp|]; [|discriminate]. intros [= <- <-]. eauto.
Qed.

(** Store into the read buffer; an access outside it is undefined. *)
Definition store_buffer (pos : nat) (bs : list byte) : M unit := fun p =>
  if decide (pos + length bs <= length (p_buffer p))%nat
  then Ok tt (set_p_buffer (set_field (p_buffer p) pos bs) p)
  else Undef UbAccess.

(** ** Weakest preconditions

    [wp U m Q E p]: run from [p], [m] has no undefined behaviour but what [U] admits, its
    result satisfies [Q] and its failure satisfies [E]. *)
Definition wp (U : ub -> Prop) {A} (m : M A) (Q : A -> pcap_t -> Prop) (E : pcap_error -> pcap_t -> Prop)
  (p : pcap_t) : Prop :=
  match m p with Ok a p' => Q a p' | Err e p' => E e p' | Undef u => U u end.

(** Nothing undefined; nothing but an oversized shift. *)
Definition defined (u : ub) : Prop := False.
Definition up_to_shift (u : ub) : Prop := u = UbShift.

Section Wp.
Context (U : ub -> Prop) {A B : Type} (Q : A -> pcap_t -> Prop) (R : B -> pcap_t -> Prop)
  (E : pcap_error -> pcap_t -> Prop).

Lemma wp_bind (m : M A) (f : A -> M B) p :
  wp U m (fun a p' => wp U (f a) R E p') E p -> wp U (bind m f) R E p.
Proof. unfold wp, bind. destruct (m p); auto. Qed.

Lemma wp_ret (a : A) p : Q a p -> wp U (ret a) Q E p.
Proof. auto. Qed.

Lemma wp_fail e p : E e (set_p_errbuf (Some e) p) -> wp U (fail e) Q E p.
Proof. auto. Qed.

Lemma wp_get (S : pcap_t -> pcap_t -> Prop) p : S p p -> wp U get_p S E p.
Proof. auto. Qed.

Lemma wp_modify (S : unit -> pcap_t -> Prop) f p : S tt (f p) -> wp U (modify f) S E p.
Proof. auto. Qed.

Lemma wp_store (S : unit -> pcap_t -> Prop) pos bs p :
  (pos + length bs <= length (p_buffer p))%nat ->
  S tt (set_p_buffer (set_field (p_buffer p) pos bs) p) -> wp U (store_buffer pos bs) S E p.
Proof. intros Hl HS. unfold wp, store_buffer. now rewrite decide_True. Qed.

Lemma wp_ferror (S : bool -> pcap_t -> Prop) fp p :
  p_rfile p = Some fp -> S (f_err fp) p -> wp U ferror_p S E p.
Proof. unfold wp, ferror_p. now intros ->. Qed.

Lemma wp_fread (S : list byte -> pcap_t -> Prop) n fp p :
  p_rfile p = Some fp ->
  S (take (Z.to_nat n) (f_data fp))
    (set_p_rfile (Some (mk_FILE (drop (Z.to_nat n) (f_data fp)) (f_err fp))) p) ->
  wp U (fread_p n) S E p.
Proof. unfold wp, fread_p. now intros ->. Qed.

Lemma wp_conseq (Q' : A -> pcap_t -> Prop) (E' : pcap_error -> pcap_t -> Prop) (m : M A) p :
  wp U m Q E p -> (forall a p', Q a p' -> Q' a p') -> (forall e p', E e p' -> E' e p') ->
  wp U m Q' E' p.
Proof. unfold wp. destruct (m p); eauto. Qed.
End Wp.

Lemma wp_weaken (U U' : ub -> Prop) {A} (m : M A) Q E p :
  (forall u, U u -> U' u) -> wp U m Q E p -> wp U' m Q E p.
Proof. unfold wp. destruct (m p); eauto. Qed.

Lemma wp_defined U {A} (m : M A) Q E p : wp defined m Q E p -> wp U m Q E p.
Proof. apply wp_weaken. intros u []. Qed.

(** Step through a reading function. *)
Ltac wp_step :=
  match goal with
  | |- wp _ (bind _ _) _ _ _ => apply wp_bind
  | |- wp _ (ret _) _ _ _ => apply wp_ret
  | |- wp _ (fail _) _ _ _ => apply wp_fail
  | |- wp _ get_p _ _ _ => apply wp_get
  | |- wp _ (modify _) _ _ _ => apply wp_modify
  end.

(** ** The contract of [next_packet_op]

    From a handle that satisfies the reader's invariant the operation is defined (up to [U]); a packet
    comes with as many bytes as its header says, leaves the invariant (which does not depend
    on the loop flag) true and the stream
    shorter; no outcome touches the loop flag, the installed filter or the options. *)
Definition same_control (p p' : pcap_t) : Prop :=
  p_break_loop p' = p_break_loop p /\ p_fcode p' = p_fcode p /\ p_opt p' = p_opt p.

(** As many bytes as the header says, and lengths of their types. *)
Definition packet_sized (h : pcap_pkthdr) (d : list byte) : Prop :=
  Z.of_nat (length d) = caplen h /\ caplen h < 2 ^ 31 /\ 0 <= len h < 2 ^ 32.

Class NextPacket (U : ub -> Prop) (next_packet_op : M (option (pcap_pkthdr * list byte)))
  (inv : pcap_t -> Prop) := {
  np_run p : inv p ->
    wp U next_packet_op
       (fun r p' => same_control p p' /\
          match r with
          | Some (h, d) => inv p' /\ (left_p p' < left_p p)%nat /\ packet_sized h d
          | None => True
          end)
       (fun _ p' => same_control p p') p;
  np_break b p : inv p -> inv (set_p_break_loop b p) }.
