(* ===== verification/SfPcap.v ===== *)
(** * The pcap savefile format (sf-pcap.c, savefile.c's part of it in Savefile.v)

    Reading: [pcap_check_header] and [pcap_next_packet]. Writing: [sf_write_header],
    [pcap_dump], [pcap_setup_dump], [pcap_dump_open] and [pcap_dump_fopen]. *)
From stdpp Require Import base numbers list strings.
From Stdlib Require Import Strings.Byte.
From S2P Require Import Prelude BpfInsn LinkType UsbHeader Pcap.
Open Scope Z_scope.

(** ** Formats *)

Definition TCPDUMP_MAGIC := 0xa1b2c3d4.
Definition KUZNETZOV_TCPDUMP_MAGIC := 0xa1b2cd34.
Definition NSEC_TCPDUMP_MAGIC := 0xa1b23c4d.

Definition LT_LINKTYPE (x : Z) : Z := x &&& 0x03FFFFFF.
Definition LT_LINKTYPE_EXT (x : Z) : Z := x &&& 0xFC000000.

(** [struct pcap_file_header]: 4, 2, 2, 4, 4, 4 and 4 bytes. *)
Record pcap_file_header := mk_file_header {
  magic : Z; version_major : Z; version_minor : Z; thiszone : Z; sigfigs : Z;
  snaplen : Z; linktype : Z }.
Definition sizeof_file_header := 24.

(** [struct pcap_sf_pkthdr] (16 bytes); [struct pcap_sf_patched_pkthdr] adds an index, a
    protocol and a packet type, and is padded to 24 bytes. *)
Record pcap_sf_pkthdr := mk_sf_pkthdr { sf_sec : Z; sf_usec : Z; sf_caplen : Z; sf_len : Z }.
Definition sizeof_sf_pkthdr := 16.
Definition sizeof_sf_patched_pkthdr := 24.

(** The objects as bytes of memory. *)
Definition field (bs : list byte) (off n : nat) : Z := le_val (take n (drop off bs)).

Definition read_file_header (magic : Z) (bs : list byte) : pcap_file_header :=
  mk_file_header magic (field bs 0 2) (field bs 2 2) (s32 (field bs 4 4)) (field bs 8 4)
    (field bs 12 4) (field bs 16 4).

Definition file_header_bytes (h : pcap_file_header) : list byte :=
  le_bytes 4 (magic h) ++ le_bytes 2 (version_major h) ++ le_bytes 2 (version_minor h)
  ++ le_bytes 4 (thiszone h) ++ le_bytes 4 (sigfigs h) ++ le_bytes 4 (snaplen h)
  ++ le_bytes 4 (linktype h).

Definition read_sf_pkthdr (bs : list byte) : pcap_sf_pkthdr :=
  mk_sf_pkthdr (s32 (field bs 0 4)) (s32 (field bs 4 4)) (field bs 8 4) (field bs 12 4).

Definition sf_pkthdr_bytes (h : pcap_sf_pkthdr) : list byte :=
  le_bytes 4 (sf_sec h) ++ le_bytes 4 (sf_usec h) ++ le_bytes 4 (sf_caplen h)
  ++ le_bytes 4 (sf_len h).

(** ** Opening *)

(** Result of a format's check: a handle, "not this format" with the stream as far as it
    has been read, or an error ([*err = 1]). *)
Inductive check_result :=
| CkOpen (p : pcap_t)
| CkNotThis (fp : FILE)
| CkErr (e : pcap_error)
| CkUndef (u : ub).

(** [pcap_alloc_pcap_t]: all zero, for a live capture or a savefile. *)
Definition pcap_alloc_pcap_t (priv : priv_t) : pcap_t :=
  mk_pcap OpsNotActivated 0 [] false priv false None 0 0 0 0 0 0 false false
    (mk_opt EmptyString 0 0 0 0 0 0 0) None None [] [] [] 0.

Section Open.
Context `{Alloc} (DLT_PFSYNC : Z) (alloc_ok : bool).

(** [pcap_open_offline_common]: [alloc_ok] tells whether the handle and its name could be
    allocated. *)
Definition pcap_open_offline_common (priv : priv_t) : option pcap_t :=
  if alloc_ok then
    let p := pcap_alloc_pcap_t priv in
    Some (set_p_opt (set_opt_source "(savefile)"%string
                       (set_opt_tstamp_precision PCAP_TSTAMP_PRECISION_MICRO (p_opt p))) p)
  else None.

Definition known_magic (m : Z) : bool :=
  (m =? TCPDUMP_MAGIC) || (m =? KUZNETZOV_TCPDUMP_MAGIC) || (m =? NSEC_TCPDUMP_MAGIC).

(** The magic number in host order and whether it had to be swapped. *)
Definition check_magic (magic : Z) : option (Z * bool) :=
  if known_magic magic then Some (magic, false)
  else let magic := SWAPLONG magic in
       if known_magic magic then Some (magic, true) else None.

Definition swap_file_header (h : pcap_file_header) : pcap_file_header :=
  mk_file_header (magic h) (SWAPSHORT (version_major h)) (SWAPSHORT (version_minor h))
    (s32 (SWAPLONG (u32 (thiszone h)))) (SWAPLONG (sigfigs h)) (SWAPLONG (snaplen h))
    (SWAPLONG (linktype h)).

(** The time stamp scaling for a file with this magic number, for a requested precision. *)
Definition sf_scale_type (precision magic : Z) : option tstamp_scale_type_t :=
  if precision =? PCAP_TSTAMP_PRECISION_MICRO then
    Some (if magic =? NSEC_TCPDUMP_MAGIC then SCALE_DOWN else PASS_THROUGH)
  else if precision =? PCAP_TSTAMP_PRECISION_NANO then
    Some (if magic =? NSEC_TCPDUMP_MAGIC then PASS_THROUGH else SCALE_UP)
  else None.

Definition sf_lengths_swapped (major minor : Z) : swapped_type_t :=
  if major =? 2 then
    if minor <? 3 then SWAPPED else if minor =? 3 then MAYBE_SWAPPED else NOT_SWAPPED
  else if major =? 543 then SWAPPED
  else NOT_SWAPPED.

(** From the header to the handle: fields, scaling, length order, record size, buffer. *)
Definition sf_setup (p : pcap_t) (hdr : pcap_file_header) (swapped : bool) (precision : Z) (fp : FILE)
  : check_result :=
  let p := set_p_swapped swapped p in
  let p := set_p_version_major (version_major hdr) p in
  let p := set_p_version_minor (version_minor hdr) p in
  let p := set_p_tzoff (thiszone hdr) p in
  let p := set_p_snapshot (s32 (snaplen hdr)) p in
  let p := set_p_linktype (linktype_to_dlt DLT_PFSYNC (LT_LINKTYPE (linktype hdr))) p in
  let p := set_p_linktype_ext (s32 (LT_LINKTYPE_EXT (linktype hdr))) p in
  let p := set_p_opt (set_opt_tstamp_precision precision (p_opt p)) p in
  match sf_scale_type precision (magic hdr) with
  | None => CkErr (ErrPrecision precision)
  | Some scale =>
      let lengths := sf_lengths_swapped (version_major hdr) (version_minor hdr) in
      let kuznetzov := magic hdr =? KUZNETZOV_TCPDUMP_MAGIC in
      let hdrsize := if kuznetzov then sizeof_sf_patched_pkthdr else sizeof_sf_pkthdr in
      let faked := kuznetzov && (p_linktype p =? DLT_EN10MB) in
      if faked && (2 ^ 31 <=? p_snapshot p + 14) then CkUndef UbOverflow
      else
      let p := if faked then set_p_snapshot (p_snapshot p + 14) p else p in
      let bufsize := if p_snapshot p <=? 0 then 65536 else p_snapshot p in
      match malloc bufsize with
      | None => CkErr ErrOutOfMemory
      | Some b =>
          CkOpen (set_p_rfile (Some fp)
                    (set_p_priv (PrivSf (mk_sf hdrsize lengths scale))
                       (set_p_buffer b (set_p_bufsize bufsize p))))
      end
  end.

Definition pcap_check_header (magic : Z) (fp : FILE) (precision : Z) : check_result :=
  match check_magic magic with
  | None => CkNotThis fp
  | Some (magic, swapped) =>
      let (bs, fp) := fread (sizeof_file_header - 4) fp in
      let amt_read := Z.of_nat (length bs) in
      if negb (amt_read =? sizeof_file_header - 4) then
        CkErr (if f_err fp then ErrRead else ErrTruncFileHeader sizeof_file_header amt_read)
      else
        let hdr := read_file_header magic bs in
        let hdr := if swapped then swap_file_header hdr else hdr in
        if version_major hdr <? PCAP_VERSION_MAJOR then CkErr ErrArchaic
        else match pcap_open_offline_common (PrivSf (mk_sf 0 NOT_SWAPPED PASS_THROUGH)) with
             | None => CkErr ErrMalloc
             | Some p => sf_setup p hdr swapped precision fp
             end
  end.

(** ** Reading a packet *)

Definition get_sf : M pcap_sf := fun p =>
  match p_priv p with PrivSf ps => Ok ps p | _ => Undef UbAccess end.

(** The record header as the host sees it. *)
Definition sf_host_hdr (swapped : bool) (h : pcap_sf_pkthdr) : pcap_pkthdr :=
  if swapped then
    mk_pkthdr (s32 (SWAPLONG (u32 (sf_sec h)))) (s32 (SWAPLONG (u32 (sf_usec h))))
      (SWAPLONG (sf_caplen h)) (SWAPLONG (sf_len h))
  else mk_pkthdr (sf_sec h) (sf_usec h) (sf_caplen h) (sf_len h).

Definition sf_scale (s : tstamp_scale_type_t) (h : pcap_pkthdr) : pcap_pkthdr :=
  match s with
  | PASS_THROUGH => h
  | SCALE_UP => mk_pkthdr (tv_sec h) (tv_usec h * 1000) (caplen h) (len h)
  | SCALE_DOWN => mk_pkthdr (tv_sec h) (Z.quot (tv_usec h) 1000) (caplen h) (len h)
  end.

Definition exchange_lengths (h : pcap_pkthdr) : pcap_pkthdr :=
  mk_pkthdr (tv_sec h) (tv_usec h) (len h) (caplen h).

Definition sf_order_lengths (s : swapped_type_t) (h : pcap_pkthdr) : pcap_pkthdr :=
  match s with
  | NOT_SWAPPED => h
  | MAYBE_SWAPPED => if caplen h <=? len h then h else exchange_lengths h
  | SWAPPED => exchange_lengths h
  end.

(** [fread(p, 1, caplen, fp)] of the packet data, with its two errors. *)
Definition read_captured (n : Z) : M (list byte) :=
  let! bs := fread_p n in
  if Z.of_nat (length bs) =? n then ret bs
  else
    let! io := ferror_p in
    fail (if io then ErrRead else ErrTruncCaptured n (Z.of_nat (length bs))).

(** The salvage of a packet longer than the buffer: read it all through a static scratch
    buffer and keep what fits. *)
Definition sf_salvage (hdr : pcap_pkthdr) : M pcap_pkthdr :=
  if 65535 <? caplen hdr then fail ErrBogusHeader
  else
    let! p := get_p in
    (if p_tsize p <? caplen hdr then
       let tsize := (caplen hdr + 1023) / 1024 * 1024 in
       match malloc tsize with
       | None => modify (set_p_tsize 0) ;;; fail ErrBufmodMalloc
       | Some _ => modify (set_p_tsize tsize)
       end
     else ret tt) ;;;
    let! bs := read_captured (caplen hdr) in
    store_buffer 0 (take (Z.to_nat (p_bufsize p)) bs) ;;;
    ret (mk_pkthdr (tv_sec hdr) (tv_usec hdr) (p_bufsize p) (len hdr)).

Definition sf_read_data (hdr : pcap_pkthdr) : M pcap_pkthdr :=
  let! p := get_p in
  if p_bufsize p <? caplen hdr then sf_salvage hdr
  else
    let! bs := read_captured (caplen hdr) in
    store_buffer 0 bs ;;;
    ret hdr.

(** Convert the pseudo-header of a USB capture of the other byte order, at [pos]. *)
Definition swap_pseudo_header (hdr : pcap_pkthdr) (pos : nat) : M unit :=
  let! p := get_p in
  if p_swapped p && ((p_linktype p =? DLT_USB_LINUX) || (p_linktype p =? DLT_USB_LINUX_MMAPPED)) then
    match swap_linux_usb_header (caplen hdr) (drop pos (p_buffer p))
            (p_linktype p =? DLT_USB_LINUX_MMAPPED) with
    | None => undef UbAccess
    | Some b => modify (set_p_buffer (take pos (p_buffer p) ++ b))
    end
  else ret tt.

(** The packet as the callback sees it: [caplen] bytes of the buffer at [pos]. *)
Definition packet_data (hdr : pcap_pkthdr) (pos : nat) : M (list byte) :=
  let! p := get_p in
  match get_field (p_buffer p) pos (Z.to_nat (caplen hdr)) with
  | None => undef UbAccess
  | Some d => ret d
  end.

(** [Ok None] is the end of the file. *)
Definition pcap_next_packet : M (option (pcap_pkthdr * list byte)) :=
  let! ps := get_sf in
  let! bs := fread_p (hdrsize ps) in
  let amt_read := Z.of_nat (length bs) in
  if negb (amt_read =? hdrsize ps) then
    let! io := ferror_p in
    if (io : bool) then fail ErrRead
    else if negb (amt_read =? 0) then fail (ErrTruncPacketHeader (hdrsize ps) amt_read)
    else ret None
  else
    let! p := get_p in
    let hdr := sf_host_hdr (p_swapped p) (read_sf_pkthdr bs) in
    let hdr := sf_scale (scale_type ps) hdr in
    let hdr := sf_order_lengths (lengths_swapped ps) hdr in
    let! hdr := sf_read_data hdr in
    swap_pseudo_header hdr 0 ;;;
    let! d := packet_data hdr 0 in
    ret (Some (hdr, d)).
End Open.

(** ** Writing *)

Section Write.
Context (DLT_PFSYNC : Z).

Definition sf_write_header (p : pcap_t) (linktype thiszone snaplen : Z) (f : OFILE) : bool * OFILE :=
  fwrite (file_header_bytes
            (mk_file_header
               (if opt_tstamp_precision (p_opt p) =? PCAP_TSTAMP_PRECISION_NANO
                then NSEC_TCPDUMP_MAGIC else TCPDUMP_MAGIC)
               PCAP_VERSION_MAJOR PCAP_VERSION_MINOR thiszone 0 (u32 snaplen) (u32 linktype))) f.

(** The results of the two writes are ignored. *)
Definition pcap_dump (h : pcap_pkthdr) (sp : list byte) (f : OFILE) : OFILE :=
  let sf_hdr := mk_sf_pkthdr (s32 (tv_sec h)) (s32 (tv_usec h)) (caplen h) (len h) in
  let (_, f) := fwrite (sf_pkthdr_bytes sf_hdr) f in
  let (_, f) := fwrite (take (Z.to_nat (caplen h)) sp) f in
  f.

(** The dumper is the stream; a failed header write closes it. *)
Definition pcap_setup_dump (p : pcap_t) (linktype : Z) (f : OFILE) : (option OFILE) * pcap_t :=
  let (ok, f) := sf_write_header p linktype (p_tzoff p) (p_snapshot p) f in
  if ok then (Some f, p) else (None, set_p_errbuf (Some ErrCannotWrite) p).

Definition dump_linktype (p : pcap_t) : option Z :=
  let l := dlt_to_linktype DLT_PFSYNC (p_linktype p) in
  if l =? -1 then None else Some (s32 (l ||| p_linktype_ext p)).

(** [fopen_w] is the stream [fopen(fname, "w")] gives, or standard output for "-". *)
Definition pcap_dump_open (p : pcap_t) (fopen_w : option OFILE) : (option OFILE) * pcap_t :=
  if negb (p_activated p) then (None, set_p_errbuf (Some ErrDumpNotActivated) p)
  else match dump_linktype p with
       | None => (None, set_p_errbuf (Some (ErrDumpLinktype (p_linktype p))) p)
       | Some linktype =>
           match fopen_w with
           | None => (None, set_p_errbuf (Some ErrFopen) p)
           | Some f => pcap_setup_dump p linktype f
           end
       end.

Definition pcap_dump_fopen (p : pcap_t) (f : OFILE) : (option OFILE) * pcap_t :=
  match dump_linktype p with
  | None => (None, set_p_errbuf (Some (ErrDumpLinktype (p_linktype p))) p)
  | Some linktype => pcap_setup_dump p linktype f
  end.
End Write.
