(* ===== verification/SfPcapProofs.v ===== *)
(** * The pcap reader stays inside its buffer, and reads back what was written *)
From stdpp Require Import base numbers list strings.
From Stdlib Require Import Strings.Byte.
From S2P Require Import Prelude BpfInsn LinkType UsbHeader Pcap SfPcap.
Open Scope Z_scope.

(** ** The invariant of an open pcap savefile *)

Definition sf_priv_ok (p : pcap_t) : Prop :=
  match p_priv p with
  | PrivSf ps => hdrsize ps = sizeof_sf_pkthdr \/ hdrsize ps = sizeof_sf_patched_pkthdr
  | _ => False
  end.

Record sf_inv (p : pcap_t) : Prop := {
  si_priv : sf_priv_ok p;
  si_file : is_Some (p_rfile p);
  si_size : 0 < p_bufsize p < 2 ^ 31;
  si_buffer : Z.of_nat (length (p_buffer p)) = p_bufsize p }.

(** The parts of the handle reading does not touch. *)
Definition sf_frame (p p' : pcap_t) : Prop :=
  p_priv p' = p_priv p /\ p_bufsize p' = p_bufsize p /\ p_swapped p' = p_swapped p /\
  p_linktype p' = p_linktype p /\ same_control p p' /\ is_Some (p_rfile p') /\
  length (p_buffer p') = length (p_buffer p) /\ (left_p p' <= left_p p)%nat.

Lemma sf_frame_trans p q r : sf_frame p q -> sf_frame q r -> sf_frame p r.
Proof. unfold sf_frame, same_control. intuition (congruence || lia). Qed.

Lemma sf_frame_inv p p' : sf_inv p -> sf_frame p p' -> sf_inv p'.
Proof.
  intros [Hp Hf Hs Hb] (E1 & E2 & _ & _ & _ & Hf' & El & _). split; [|exact Hf'|lia|lia].
  unfold sf_priv_ok in *. now rewrite E1.
Qed.

Section Reader.
Context `{Alloc}.

(** A read moves forward in the stream and changes nothing else of the handle. *)
Lemma fread_frame n p : is_Some (p_rfile p) ->
  wp defined (fread_p n) (fun bs p' => sf_frame p p' /\ p_buffer p' = p_buffer p /\
        left_p p = (length bs + left_p p')%nat /\ Z.of_nat (length bs) <= Z.max 0 n) (fun _ _ => False) p.
Proof.
  intros [fp Hf]. eapply wp_fread; [exact Hf|]. unfold sf_frame, same_control, left_p. simpl. rewrite Hf.
  rewrite length_take, length_drop. repeat split; eauto; lia.
Qed.

Lemma read_captured_frame n p : is_Some (p_rfile p) -> 0 <= n ->
  wp defined (read_captured n)
     (fun bs p' => sf_frame p p' /\ p_buffer p' = p_buffer p /\ Z.of_nat (length bs) = n)
     (fun _ p' => sf_frame p p') p.
Proof.
  intros Hf Hn. unfold read_captured. wp_step.
  eapply wp_conseq; [apply fread_frame, Hf| |contradiction]. intros bs p1 (Hfr & Hb & _ & _).
  destruct (Z.eqb_spec (Z.of_nat (length bs)) n); [now wp_step|].
  wp_step. pose proof Hfr as (_&_&_&_&_&[fp Hfp]&_&_). eapply wp_ferror; [exact Hfp|].
  wp_step. exact Hfr.
Qed.

Definition keeps_hdr (bufsize : Z) (hdr hdr' : pcap_pkthdr) : Prop :=
  hdr' = mk_pkthdr (tv_sec hdr) (tv_usec hdr) (Z.min (caplen hdr) bufsize) (len hdr).

Lemma store_frame p bs pos : is_Some (p_rfile p) -> (pos + length bs <= length (p_buffer p))%nat ->
  sf_frame p (set_p_buffer (set_field (p_buffer p) pos bs) p).
Proof.
  intros Hf Hl. unfold sf_frame, same_control. simpl. rewrite length_set_field by lia.
  now repeat split.
Qed.

Lemma sf_frame_refl p : is_Some (p_rfile p) -> sf_frame p p.
Proof. now repeat split. Qed.

Lemma reserve_scratch_frame n p : sf_inv p ->
  wp defined (if p_tsize p <? n then
        match malloc ((n + 1023) / 1024 * 1024) with
        | None => modify (set_p_tsize 0) ;;; fail ErrBufmodMalloc
        | Some _ => modify (set_p_tsize ((n + 1023) / 1024 * 1024))
        end
      else ret tt)%pcap
     (fun _ p' => sf_frame p p' /\ p_buffer p' = p_buffer p) (fun _ p' => sf_frame p p') p.
Proof.
  intros [_ Hf _ _]. pose proof (sf_frame_refl p Hf) as Hr.
  destruct (p_tsize p <? n); [|wp_step; auto].
  destruct (malloc _); [wp_step; now split|]. wp_step. wp_step. wp_step. exact Hr.
Qed.

Lemma sf_salvage_frame hdr p : sf_inv p -> p_bufsize p < caplen hdr ->
  wp defined (sf_salvage hdr) (fun hdr' p' => sf_frame p p' /\ keeps_hdr (p_bufsize p) hdr hdr')
     (fun _ p' => sf_frame p p') p.
Proof.
  intros Hinv Hc. pose proof Hinv as [Hp Hf Hs Hb]. unfold sf_salvage.
  destruct (Z.ltb_spec 65535 (caplen hdr)); [wp_step; exact (sf_frame_refl _ Hf)|].
  wp_step. wp_step. wp_step.
  eapply wp_conseq; [now apply reserve_scratch_frame| |auto]. intros _ p1 (Hf1 & Hb1).
  wp_step. pose proof Hf1 as (_ & _ & _ & _ & _ & Hfile1 & _).
  eapply wp_conseq; [apply read_captured_frame; [exact Hfile1|lia]| |eauto using sf_frame_trans].
  intros bs p2 (Hf2 & Hb2 & Hbs). wp_step. pose proof Hf2 as (_ & _ & _ & _ & _ & Hfile2 & _).
  assert (length (p_buffer p2) = length (p_buffer p)) by congruence.
  apply wp_store; [rewrite length_take; lia|]. wp_step. split.
  - eapply sf_frame_trans; [exact Hf1|]. eapply sf_frame_trans; [exact Hf2|].
    apply store_frame; [assumption|rewrite length_take; lia].
  - unfold keeps_hdr. f_equal. lia.
Qed.

Lemma sf_read_data_frame hdr p : sf_inv p -> 0 <= caplen hdr ->
  wp defined (sf_read_data hdr) (fun hdr' p' => sf_frame p p' /\ keeps_hdr (p_bufsize p) hdr hdr')
     (fun _ p' => sf_frame p p') p.
Proof.
  intros Hinv Hc. pose proof Hinv as [Hp Hf Hs Hb]. unfold sf_read_data. wp_step. wp_step.
  destruct (Z.ltb_spec (p_bufsize p) (caplen hdr)); [now apply sf_salvage_frame|].
  wp_step. eapply wp_conseq; [now apply read_captured_frame| |eauto]. intros bs p2 (Hf2 & Hb2 & Hbs).
  wp_step. apply wp_store; [rewrite Hb2; lia|]. wp_step. split.
  - eapply sf_frame_trans; [exact Hf2|]. apply store_frame; [apply Hf2|rewrite Hb2; lia].
  - unfold keeps_hdr. rewrite Z.min_l by lia. now destruct hdr.
Qed.

Lemma swap_pseudo_header_frame hdr pos p : is_Some (p_rfile p) ->
  Z.of_nat pos + caplen hdr <= Z.of_nat (length (p_buffer p)) -> 0 <= caplen hdr < 2 ^ 31 ->
  wp defined (swap_pseudo_header hdr pos) (fun _ p' => sf_frame p p') (fun _ _ => False) p.
Proof.
  intros Hf Hl Hc. unfold swap_pseudo_header. wp_step. wp_step.
  destruct (p_swapped p && _); [|wp_step; now apply sf_frame_refl].
  destruct (swap_in_packet (caplen hdr) (drop pos (p_buffer p)) (p_linktype p =? DLT_USB_LINUX_MMAPPED))
    as (b & -> & Hb & _); [exact Hc|rewrite length_drop; lia|].
  wp_step. unfold sf_frame, same_control. simpl.
  rewrite length_app, length_take, Hb, length_drop. repeat split; auto; lia.
Qed.

Lemma packet_data_wp hdr pos p :
  Z.of_nat pos + caplen hdr <= Z.of_nat (length (p_buffer p)) -> 0 <= caplen hdr ->
  wp defined (packet_data hdr pos) (fun d p' => p' = p /\ Z.of_nat (length d) = caplen hdr) (fun _ _ => False) p.
Proof.
  intros Hl Hc. unfold packet_data. wp_step. wp_step.
  destruct (get_field_inside (p_buffer p) pos (Z.to_nat (caplen hdr))) as (d & -> & Hd); [lia|].
  wp_step. split; [reflexivity|lia].
Qed.

(** The header the reader hands to [sf_read_data] has a 32-bit length. *)
Lemma field_range bs off n : 0 <= field bs off n < 256 ^ Z.of_nat n.
Proof.
  unfold field. pose proof (le_val_range (take n (drop off bs))) as [H1 H2]. split; [lia|].
  eapply Z.lt_le_trans; [exact H2|]. apply Z.pow_le_mono_r; [lia|]. rewrite length_take. lia.
Qed.

Lemma sf_hdr_lengths sw sc lo bs :
  let hdr := sf_order_lengths lo (sf_scale sc (sf_host_hdr sw (read_sf_pkthdr bs))) in
  0 <= caplen hdr /\ 0 <= len hdr < 2 ^ 32.
Proof.
  pose proof (field_range bs 8 4) as H1. pose proof (field_range bs 12 4) as H2.
  pose proof (SWAPLONG_range (field bs 8 4)) as H3. pose proof (SWAPLONG_range (field bs 12 4)) as H4.
  change (256 ^ Z.of_nat 4) with (2 ^ 32) in *.
  destruct lo, sc, sw; simpl; repeat (destruct (_ <=? _); simpl); lia.
Qed.

Lemma pcap_next_packet_wp p : sf_inv p ->
  wp defined pcap_next_packet
     (fun r p' => sf_frame p p' /\
        match r with
        | Some (h, d) => (left_p p' < left_p p)%nat /\ packet_sized h d /\ caplen h <= p_bufsize p
        | None => True
        end)
     (fun _ p' => sf_frame p p') p.
Proof.
  intros Hinv. pose proof Hinv as [Hp Hf Hs Hb]. unfold pcap_next_packet. wp_step.
  unfold sf_priv_ok in Hp. unfold wp at 1, get_sf. destruct (p_priv p) as [|ps|] eqn:Eps; try contradiction.
  wp_step. eapply wp_conseq; [apply fread_frame, Hf| |contradiction].
  intros bs p1 (Hf1 & Hb1 & Hleft & Hlen). pose proof Hf1 as (_ & Hbs1 & _ & _ & _ & Hfile1 & _).
  assert (0 < hdrsize ps) by (unfold sizeof_sf_pkthdr, sizeof_sf_patched_pkthdr in Hp; lia).
  destruct (Z.eqb_spec (Z.of_nat (length bs)) (hdrsize ps)); cbn [negb].
  2:{ wp_step. destruct Hfile1 as [fp Hfp]. eapply wp_ferror; [exact Hfp|].
      destruct (f_err fp); [wp_step; exact Hf1|]. destruct (_ =? 0); cbn [negb]; wp_step; auto. }
  wp_step. wp_step. wp_step.
  set (hdr := sf_order_lengths _ _). pose proof (sf_hdr_lengths (p_swapped p1) (scale_type ps) (lengths_swapped ps) bs : 0 <= caplen hdr /\ 0 <= len hdr < 2 ^ 32) as [Hcap Hlen1].
  eapply wp_conseq; [apply (sf_read_data_frame hdr p1); [eapply sf_frame_inv; eauto|exact Hcap]| |].
  2:{ intros ? p2 Hf2. exact (sf_frame_trans _ _ _ Hf1 Hf2). }
  intros hdr2 p2 (Hf2 & Hk). pose proof (sf_frame_trans _ _ _ Hf1 Hf2) as Hf02.
  assert (0 <= caplen hdr2 <= p_bufsize p /\ len hdr2 = len hdr) as [Hc2 Hl2'] by (rewrite Hk; simpl; lia).
  pose proof Hf02 as (_ & _ & _ & _ & _ & Hfile2 & Hlb2 & _).
  wp_step. eapply wp_conseq; [apply (swap_pseudo_header_frame hdr2 0 p2); [exact Hfile2|lia|lia]| |contradiction].
  intros ? p3 Hf3. pose proof (sf_frame_trans _ _ _ Hf02 Hf3) as Hf03.
  pose proof Hf03 as (_ & _ & _ & _ & _ & _ & Hlb3 & _).
  wp_step. eapply wp_conseq; [apply (packet_data_wp hdr2 0 p3); lia| |contradiction].
  intros d p4 (E4 & Hd). subst p4. wp_step. split; [exact Hf03|].
  destruct Hf2 as (_ & _ & _ & _ & _ & _ & _ & Hl2). destruct Hf3 as (_ & _ & _ & _ & _ & _ & _ & Hl3).
  unfold packet_sized. rewrite Hl2'. repeat split; lia.
Qed.

#[export] Instance pcap_next_packet_contract : NextPacket defined pcap_next_packet sf_inv.
Proof.
  split; [|intros b p []; now split].
  intros p Hp. eapply wp_conseq; [apply pcap_next_packet_wp, Hp| |].
  - intros r p' (Hf & Hr). split; [apply Hf|]. destruct r as [[h d]|]; [|exact I].
    split; [eapply sf_frame_inv; eauto|]. split; apply Hr.
  - intros ? p' Hf. apply Hf.
Qed.
End Reader.

Lemma check_header_inv `{Alloc} DLT_PFSYNC alloc_ok m fp precision p :
  pcap_check_header DLT_PFSYNC alloc_ok m fp precision = CkOpen p ->
  sf_inv p /\ (left_p p <= length (f_data fp))%nat.
Proof.
  unfold pcap_check_header. destruct (check_magic m) as [[m' sw]|]; [|discriminate].
  cbn [fread]. destruct (negb _); [destruct (f_err _); discriminate|].
  set (hdr := if sw then _ else _). destruct (_ <? _); [discriminate|].
  unfold pcap_open_offline_common. destruct alloc_ok; [|discriminate].
  unfold sf_setup. destruct (sf_scale_type _ _) as [sc|]; [|discriminate].
  set (kuz := _ =? KUZNETZOV_TCPDUMP_MAGIC). cbn zeta. destruct (kuz && _ && _) eqn:Eo; [discriminate|].
  match goal with |- context [p_snapshot ?q <=? 0] => set (q0 := q) end.
  assert (- 2 ^ 31 <= p_snapshot q0 < 2 ^ 31) as Hr by (subst q0; destruct (kuz && _); simpl in *; pose proof (s32_range (snaplen hdr)); lia).
  set (bs := if p_snapshot q0 <=? 0 then 65536 else p_snapshot q0).
  assert (0 < bs < 2 ^ 31) as Hbs by (subst bs; destruct (Z.leb_spec (p_snapshot q0) 0); lia).
  destruct (malloc bs) as [b|] eqn:Eb; [|discriminate]. intros [= <-].
  apply malloc_length in Eb; [|lia].
  split; [|unfold left_p; simpl; rewrite length_drop; lia]. split; simpl; eauto.
  unfold sf_priv_ok; simpl. destruct kuz; auto.
Qed.

(** The other results: another format leaves the stream alone. *)
Lemma check_header_other `{Alloc} DLT_PFSYNC alloc_ok m fp precision :
  match pcap_check_header DLT_PFSYNC alloc_ok m fp precision with
  | CkNotThis fp' => fp' = fp
  | CkUndef u => u = UbOverflow
  | _ => True
  end.
Proof.
  unfold pcap_check_header. destruct (check_magic m) as [[]|]; [|reflexivity].
  cbn [fread]. destruct (negb _); [exact I|]. destruct (_ <? _); [exact I|].
  destruct (pcap_open_offline_common _ _); [|exact I]. unfold sf_setup.
  destruct (sf_scale_type _ _); [|exact I]. cbn zeta. destruct (_ && _ && _); [reflexivity|]. now destruct (malloc _).
Qed.

(** A handle returned by [pcap_check_header], for whatever bytes the file has, has a
    read buffer of exactly [bufsize] bytes, a positive [bufsize] and a record header size
    the reader's local structure can hold. *)
Theorem pcap_check_header_inv `{Alloc} DLT_PFSYNC alloc_ok m fp precision p :
  pcap_check_header DLT_PFSYNC alloc_ok m fp precision = CkOpen p -> sf_inv p.
Proof. intros Ho. now apply check_header_inv in Ho. Qed.

(** An Ethernet capture with one packet, without the four bytes of the magic number. *)
Definition sf_sample : list byte :=
  le_bytes 2 2 ++ le_bytes 2 4 ++ le_bytes 4 0 ++ le_bytes 4 0 ++ le_bytes 4 64 ++ le_bytes 4 1
  ++ le_bytes 4 1300000000 ++ le_bytes 4 250000 ++ le_bytes 4 3 ++ le_bytes 4 60 ++ [x01; x02; x03].

Definition sf_sample_reader : pcap_t :=
  match pcap_check_header (H := zeroing_malloc) 246 true TCPDUMP_MAGIC (mk_FILE sf_sample false) 0 with
  | CkOpen p => p
  | _ => pcap_alloc_pcap_t PrivNone
  end.

Lemma sf_sample_reader_inv : sf_inv sf_sample_reader.
Proof. split; [now left|vm_compute; eauto|vm_compute; split; congruence|vm_compute; reflexivity]. Qed.

Lemma pcap_check_header_inv_witness : sf_inv sf_sample_reader.
Proof.
  apply (pcap_check_header_inv (H := zeroing_malloc) 246 true TCPDUMP_MAGIC (mk_FILE sf_sample false) 0).
  vm_compute. reflexivity.
Defined.

(** The next packet of an open pcap file: no access outside the read buffer, whatever
    the bytes are; a packet has [caplen] bytes and at most [bufsize], the file gets
    shorter, and the invariant is kept on every outcome. *)
Theorem pcap_next_packet_safe `{Alloc} p :
  sf_inv p ->
  match pcap_next_packet p with
  | Ok (Some (h, d)) p' =>
      sf_inv p' /\ (left_p p' < left_p p)%nat /\ Z.of_nat (length d) = caplen h /\ caplen h <= p_bufsize p
  | Ok None p' | Err _ p' => sf_inv p'
  | Undef _ => False
  end.
Proof.
  intros Hp. pose proof (pcap_next_packet_wp p Hp) as Hw. unfold wp in Hw.
  destruct (pcap_next_packet p) as [[[h d]|] p'|e p'|u]; [| | |exact Hw].
  - destruct Hw as (Hf & Hl & (Hd & _) & Hc). split; [eapply sf_frame_inv; eauto|]. repeat split; auto; lia.
  - destruct Hw as (Hf & _). eapply sf_frame_inv; eauto.
  - eapply sf_frame_inv; eauto.
Qed.

Lemma pcap_next_packet_safe_witness :
  match pcap_next_packet (H := zeroing_malloc) sf_sample_reader with
  | Ok (Some (h, d)) p' =>
      sf_inv p' /\ (left_p p' < left_p sf_sample_reader)%nat /\ Z.of_nat (length d) = caplen h /\
      caplen h <= p_bufsize sf_sample_reader
  | Ok None p' | Err _ p' => sf_inv p'
  | Undef _ => False
  end.
Proof. apply (pcap_next_packet_safe (H := zeroing_malloc) sf_sample_reader). exact sf_sample_reader_inv. Defined.

(** ** Files written on a host of either byte order *)

Definition order_bytes (other : bool) (n : nat) (z : Z) : list byte :=
  if other then rev (le_bytes n z) else le_bytes n z.

Definition file_header_image (other : bool) (h : pcap_file_header) : list byte :=
  order_bytes other 4 (magic h) ++ order_bytes other 2 (version_major h)
  ++ order_bytes other 2 (version_minor h) ++ order_bytes other 4 (thiszone h)
  ++ order_bytes other 4 (sigfigs h) ++ order_bytes other 4 (snaplen h)
  ++ order_bytes other 4 (linktype h).

Definition record_image (other : bool) (pkt : pcap_pkthdr * list byte) : list byte :=
  order_bytes other 4 (tv_sec pkt.1) ++ order_bytes other 4 (tv_usec pkt.1)
  ++ order_bytes other 4 (caplen pkt.1) ++ order_bytes other 4 (len pkt.1) ++ pkt.2.

(** A packet the format can represent. *)
Definition pkt_ok (pkt : pcap_pkthdr * list byte) : Prop :=
  - 2 ^ 31 <= tv_sec pkt.1 < 2 ^ 31 /\ - 2 ^ 31 <= tv_usec pkt.1 < 2 ^ 31 /\
  caplen pkt.1 = Z.of_nat (length pkt.2) /\ 0 <= caplen pkt.1 < 2 ^ 31 /\ 0 <= len pkt.1 < 2 ^ 32.

Lemma length_order_bytes other n z : length (order_bytes other n z) = n.
Proof. unfold order_bytes. destruct other; [rewrite length_rev|]; apply length_le_bytes. Qed.

(** A 4-byte field of either order, after the swap the reader applies to the other one. *)
Lemma order_field (other : bool) z :
  (if other then SWAPLONG (le_val (order_bytes other 4 z)) else le_val (order_bytes other 4 z)) = u32 z.
Proof.
  unfold order_bytes. destruct other; [|apply (le_val_bytes 4)].
  change (le_val (rev (le_bytes 4 z))) with (SWAPLONG z). apply SWAPLONG_involutive.
Qed.

Lemma order_field_signed (other : bool) z : - 2 ^ 31 <= z < 2 ^ 31 ->
  (if other then s32 (SWAPLONG (u32 (s32 (le_val (order_bytes other 4 z)))))
   else s32 (le_val (order_bytes other 4 z))) = z.
Proof.
  intros Hz. pose proof (order_field other z) as Ho. destruct other.
  - rewrite u32_s32, u32_id, Ho, s32_u32 by apply (le_val_range (order_bytes true 4 z)).
    now apply s32_id.
  - rewrite Ho, s32_u32. now apply s32_id.
Qed.

Lemma read_record (other : bool) (pkt : pcap_pkthdr * list byte) (rest : list byte) : pkt_ok pkt ->
  sf_host_hdr other (read_sf_pkthdr (take 16 (record_image other pkt ++ rest))) = pkt.1.
Proof.
  destruct pkt as [[s u c l] d]. intros (Hs & Hu & _ & Hc & Hl). simpl in *.
  assert (take 16 (record_image other (mk_pkthdr s u c l, d) ++ rest)
          = order_bytes other 4 s ++ order_bytes other 4 u ++ order_bytes other 4 c
            ++ order_bytes other 4 l) as -> by (destruct other; reflexivity).
  unfold read_sf_pkthdr, sf_host_hdr.
  assert (forall a b c e, field (order_bytes other 4 a ++ b ++ c ++ e) 0 4 = le_val (order_bytes other 4 a))
    as H0 by (intros; destruct other; reflexivity).
  assert (forall a b c e, field (order_bytes other 4 a ++ order_bytes other 4 b ++ c ++ e) 4 4
            = le_val (order_bytes other 4 b)) as H1 by (intros; destruct other; reflexivity).
  assert (forall a b c e, field (order_bytes other 4 a ++ order_bytes other 4 b
            ++ order_bytes other 4 c ++ e) 8 4 = le_val (order_bytes other 4 c))
    as H2 by (intros; destruct other; reflexivity).
  assert (forall a b c e, field (order_bytes other 4 a ++ order_bytes other 4 b
            ++ order_bytes other 4 c ++ order_bytes other 4 e) 12 4 = le_val (order_bytes other 4 e))
    as H3 by (intros; destruct other; reflexivity).
  rewrite H0, H1, H2, H3.
  pose proof (order_field_signed other s Hs) as Es. pose proof (order_field_signed other u Hu) as Eu.
  pose proof (order_field other c) as Ec. pose proof (order_field other l) as El.
  rewrite u32_id in Ec, El by lia. destruct other; cbn [sf_sec sf_usec sf_caplen sf_len]; congruence.
Qed.

Section RoundTrip.
Context `{Alloc} (other : bool) (sc : tstamp_scale_type_t).

(** A reader in the middle of a file of version 2.4. *)
Definition reads_at (p : pcap_t) (bytes : list byte) (err : bool) : Prop :=
  p_priv p = PrivSf (mk_sf sizeof_sf_pkthdr NOT_SWAPPED sc) /\ p_swapped p = other /\
  p_rfile p = Some (mk_FILE bytes err) /\ Z.of_nat (length (p_buffer p)) = p_bufsize p /\
  (other = true -> p_linktype p <> DLT_USB_LINUX /\ p_linktype p <> DLT_USB_LINUX_MMAPPED).

Definition scaled (pkt : pcap_pkthdr * list byte) : pcap_pkthdr * list byte := (sf_scale sc pkt.1, pkt.2).

Lemma scaled_lens h : caplen (sf_scale sc h) = caplen h /\ len (sf_scale sc h) = len h.
Proof. now destruct sc. Qed.

Lemma pcap_next_packet_record p pkt rest err :
  reads_at p (record_image other pkt ++ rest) err -> pkt_ok pkt -> caplen pkt.1 <= p_bufsize p ->
  exists p', pcap_next_packet p = Ok (Some (scaled pkt)) p' /\ reads_at p' rest err /\
    p_bufsize p' = p_bufsize p.
Proof.
  intros (Hpriv & Hsw & Hfile & Hbuf & Husb) Hok Hcap. pose proof (read_record other pkt rest Hok) as Hrec.
  destruct Hok as (_ & _ & Hlen & Hc & _).
  assert (Z.of_nat (length (take 16 (record_image other pkt ++ rest))) = 16) as Hl16
    by (destruct other; reflexivity).
  assert (drop 16 (record_image other pkt ++ rest) = pkt.2 ++ rest) as Hdrop
    by (destruct other; reflexivity).
  destruct (scaled_lens pkt.1) as [Esc _].
  unfold pcap_next_packet, get_sf, bind at 1. rewrite Hpriv. cbn [hdrsize lengths_swapped scale_type].
  unfold bind at 1, fread_p, fread. rewrite Hfile. cbn [f_data f_err].
  change (Z.to_nat sizeof_sf_pkthdr) with 16%nat. rewrite Hl16. cbn [negb Z.eqb Pos.eqb sizeof_sf_pkthdr].
  unfold bind at 1, get_p. cbn [p_swapped set_p_rfile]. rewrite Hsw, Hrec, Hdrop. cbn [sf_order_lengths].
  set (p1 := set_p_rfile _ p). unfold bind at 1, sf_read_data, bind at 1, get_p.
  change (p_bufsize p1) with (p_bufsize p). rewrite Esc.
  destruct (Z.ltb_spec (p_bufsize p) (caplen pkt.1)); [lia|].
  unfold bind at 1, read_captured, bind at 1, fread_p. cbn [p_rfile p1 set_p_rfile fread f_data f_err].
  rewrite Hlen, Nat2Z.id, take_app_length, drop_app_length, Z.eqb_refl. cbn [ret].
  set (p2 := set_p_rfile _ p1). unfold bind at 1, store_buffer.
  change (p_buffer p2) with (p_buffer p). rewrite decide_True by lia. cbn [ret].
  set (p3 := set_p_buffer _ p2). unfold bind at 1, swap_pseudo_header, bind at 1, get_p.
  change (p_swapped p3) with (p_swapped p). change (p_linktype p3) with (p_linktype p). rewrite Hsw.
  assert (other && ((p_linktype p =? DLT_USB_LINUX) || (p_linktype p =? DLT_USB_LINUX_MMAPPED)) = false) as ->.
  { destruct other; [|reflexivity]. destruct Husb as [H1 H2]; [reflexivity|]. lia. }
  cbn [ret]. unfold bind at 1, packet_data, bind at 1, get_p.
  change (p_buffer p3) with (set_field (p_buffer p) 0 pkt.2).
  unfold get_field. rewrite Esc, Hlen, Nat2Z.id, decide_True by (rewrite length_set_field; lia).
  cbn [ret]. exists p3. split.
  - unfold scaled, set_field. now rewrite drop_0, take_0, app_nil_l, take_app_length.
  - split; [|reflexivity]. unfold reads_at. simpl. rewrite length_set_field by lia. auto.
Qed.
End RoundTrip.
