(* ===== verification/SfPcapNg.v ===== *)
(** * The pcap-ng savefile format (sf-pcap-ng.c)

    Blocks are read into the buffer of the handle and taken apart through a cursor. The
    code byte-swaps header fields in the buffer and then reads them; here the read applies
    the swap, as no field is read twice. *)
From stdpp Require Import base numbers list strings.
From Stdlib Require Import Strings.Byte.
From S2P Require Import Prelude BpfInsn LinkType UsbHeader Pcap SfPcap.
Open Scope Z_scope.

(** ** Constants *)

Definition OPT_ENDOFOPT := 0.
Definition BT_SHB := 0x0A0D0D0A.
Definition BYTE_ORDER_MAGIC := 0x1A2B3C4D.
Definition PCAP_NG_VERSION_MAJOR := 1.
Definition BT_IDB := 1.
Definition IF_TSRESOL := 9.
Definition IF_TSOFFSET := 14.
Definition BT_EPB := 6.
Definition BT_SPB := 3.
Definition BT_PB := 2.

Definition sizeof_block_header := 8.
Definition sizeof_block_trailer := 4.
Definition sizeof_option_header := 4.
Definition sizeof_shb := 16.
Definition sizeof_idb := 8.
Definition sizeof_epb := 20.
Definition sizeof_spb := 4.
Definition sizeof_pb := 20.
Definition sizeof_pcap_ng_if := 24.

(** [struct block_cursor]: [cur_data] is an offset in the buffer. *)
Record block_cursor := mk_cursor { cur_data : nat; data_remaining : Z; block_type : Z }.

Section Ng.
Context `{Alloc} (DLT_PFSYNC : Z) (alloc_ok : bool).

Definition get_ng : M pcap_ng_sf := fun p =>
  match p_priv p with PrivNg ps => Ok ps p | _ => Undef UbAccess end.
Definition put_ng (ps : pcap_ng_sf) : M unit := modify (set_p_priv (PrivNg ps)).

(** ** Reading bytes and blocks *)

(** [read_bytes], into the object [store] stands for; [None] is the end of the file. *)
Definition read_bytes (store : list byte -> M unit) (bytes_to_read : Z) (fail_on_eof : bool)
  : M (option (list byte)) :=
  let! bs := fread_p bytes_to_read in
  store bs ;;;
  let amt_read := Z.of_nat (length bs) in
  if amt_read =? bytes_to_read then ret (Some bs)
  else
    let! io := ferror_p in
    if (io : bool) then fail ErrRead
    else if (amt_read =? 0) && negb fail_on_eof then ret None
    else fail (ErrTruncBytes bytes_to_read amt_read).

(** Make the buffer big enough; [bufsize] is not updated. *)
Definition grow_buffer (total_length : Z) : M unit :=
  let! p := get_p in
  if u32 (p_bufsize p) <? total_length then
    match realloc (p_buffer p) total_length with
    | None => modify (set_p_buffer []) ;;; fail ErrOutOfMemory
    | Some b => modify (set_p_buffer b)
    end
  else ret tt.

Definition swap32 (swapped : bool) (v : Z) : Z := if swapped then SWAPLONG v else v.
Definition swap16 (swapped : bool) (v : Z) : Z := if swapped then SWAPSHORT v else v.

(** [None] is the end of the file. *)
Definition read_block : M (option block_cursor) :=
  let! hdr := read_bytes (fun _ => ret tt) sizeof_block_header false in
  match hdr with
  | None => ret None
  | Some bs =>
      let! p := get_p in
      let block_type := swap32 (p_swapped p) (field bs 0 4) in
      let total_length := swap32 (p_swapped p) (field bs 4 4) in
      if 16 * 1024 * 1024 <? total_length then fail (ErrBlockTooBig total_length)
      else if total_length <? sizeof_block_header + sizeof_block_trailer
      then fail (ErrBlockTooSmall total_length)
      else
        grow_buffer total_length ;;;
        store_buffer 0 (le_bytes 4 block_type ++ le_bytes 4 total_length) ;;;
        let! _ := read_bytes (store_buffer (Z.to_nat sizeof_block_header))
                    (total_length - sizeof_block_header) true in
        ret (Some (mk_cursor (Z.to_nat sizeof_block_header)
                     (total_length - sizeof_block_header - sizeof_block_trailer) block_type))
  end.

(** The position of the chunk, and the cursor past it. *)
Definition get_from_block_data (cursor : block_cursor) (chunk_size : Z) : M (nat * block_cursor) :=
  if data_remaining cursor <? chunk_size then fail (ErrBlockShort (block_type cursor))
  else ret (cur_data cursor,
            mk_cursor (cur_data cursor + Z.to_nat chunk_size)
              (data_remaining cursor - chunk_size) (block_type cursor)).

(** [n] bytes of the buffer at an offset. *)
Definition buf_bytes (pos n : nat) : M (list byte) := fun p =>
  match get_field (p_buffer p) pos n with Some bs => Ok bs p | None => Undef UbAccess end.

Definition buf32 (pos off : nat) : M Z :=
  let! bs := buf_bytes (pos + off) 4 in let! p := get_p in ret (swap32 (p_swapped p) (le_val bs)).
Definition buf16 (pos off : nat) : M Z :=
  let! bs := buf_bytes (pos + off) 2 in let! p := get_p in ret (swap16 (p_swapped p) (le_val bs)).

(** ** Options of an interface description *)

Definition get_opthdr_from_block_data (cursor : block_cursor) : M (Z * Z * block_cursor) :=
  let! (pos, cursor) := get_from_block_data cursor sizeof_option_header in
  let! code := buf16 pos 0 in
  let! olen := buf16 pos 2 in
  ret (code, olen, cursor).

(** Options are padded to a 4-byte boundary. *)
Definition get_optvalue_from_block_data (cursor : block_cursor) (option_length : Z)
  : M (nat * block_cursor) :=
  get_from_block_data cursor ((option_length + 3) / 4 * 4).

(** [1 << n] on a 32-bit int, stored in an unsigned int. *)
Definition shl1 (n : Z) : M Z := if n <? 31 then ret (2 ^ n) else undef UbShift.

(** [for (i = 0; i < n; i++) *tsresol *= 10] in 32 bits. *)
Definition pow10 (n : Z) : Z := Nat.iter (Z.to_nat n) (fun r => u32 (r * 10)) 1.

(** The if_tsresol option byte to a number of units per second. *)
Definition tsresol_of (tsresol_opt : Z) : M Z :=
  let pow2 := negb (tsresol_opt &&& 0x80 =? 0) in
  let! tsresol := if pow2 then shl1 (tsresol_opt &&& 0x7F) else ret (pow10 tsresol_opt) in
  if tsresol =? 0 then
    fail (if pow2 then ErrTsresolTooHigh 2 (tsresol_opt &&& 0x7F) else ErrTsresolTooHigh 10 tsresol_opt)
  else ret tsresol.

(** What the options seen so far have set, and which were seen. *)
Record idb_opts := mk_opts {
  o_tsresol : Z; o_tsoffset : Z; saw_tsresol : bool; saw_tsoffset : bool }.

(** One option: [true] ends the list. *)
Definition process_option (code olen : Z) (value : nat) (o : idb_opts) : M (idb_opts * bool) :=
  if code =? OPT_ENDOFOPT then
    if negb (olen =? 0) then fail (ErrEndofoptLength olen) else ret (o, true)
  else if code =? IF_TSRESOL then
    if negb (olen =? 1) then fail (ErrTsresolLength olen)
    else if saw_tsresol o then fail ErrTsresolTwice
    else
      let! bs := buf_bytes value 4 in
      let! tsresol := tsresol_of (u8 (le_val bs)) in
      ret (mk_opts tsresol (o_tsoffset o) true (saw_tsoffset o), false)
  else if code =? IF_TSOFFSET then
    if negb (olen =? 8) then fail (ErrTsoffsetLength olen)
    else if saw_tsoffset o then fail ErrTsoffsetTwice
    else
      let! bs := buf_bytes value 8 in
      let! p := get_p in
      let tsoffset := if p_swapped p then SWAPLL (le_val bs) else le_val bs in
      ret (mk_opts (o_tsresol o) tsoffset (saw_tsresol o) true, false)
  else ret (o, false).

Fixpoint process_idb_options (fuel : nat) (cursor : block_cursor) (o : idb_opts) : M idb_opts :=
  if data_remaining cursor =? 0 then ret o
  else
    match fuel with
    | O => undef UbFuel
    | S fuel' =>
        let! (code, olen, cursor) := get_opthdr_from_block_data cursor in
        let! (value, cursor) := get_optvalue_from_block_data cursor olen in
        let! (o, done) := process_option code olen value o in
        if (done : bool) then ret o else process_idb_options fuel' cursor o
    end.

(** ** Interfaces *)

(** Make room for one more interface: one entry, then twice as many each time. *)
Definition grow_ifaces (ps : pcap_ng_sf) : M pcap_ng_sf :=
  let n := u32 (ifcount ps + 1) in
  if ifaces_size ps <? n then
    let size := match ifaces ps with [] => 1 | _ => u32 (ifaces_size ps * 2) end in
    match malloc (size * sizeof_pcap_ng_if) with
    | None => put_ng (mk_ng_sf (user_tsresol ps) n size []) ;;; fail (ErrIfMemory n)
    | Some _ =>
        let ifs := take (Z.to_nat size) (ifaces ps) in
        ret (mk_ng_sf (user_tsresol ps) n size
               (ifs ++ replicate (Z.to_nat size - length ifs) None))
    end
  else ret (mk_ng_sf (user_tsresol ps) n (ifaces_size ps) (ifaces ps)).

Definition ng_scale_type (user tsresol : Z) : tstamp_scale_type_t :=
  if tsresol =? user then PASS_THROUGH else if user <? tsresol then SCALE_DOWN else SCALE_UP.

(** The scaling by the requested precision; none is set for a precision other than the two. *)
Definition if_scale (precision tsresol : Z) : option tstamp_scale_type_t :=
  if precision =? PCAP_TSTAMP_PRECISION_MICRO then Some (ng_scale_type 1000000 tsresol)
  else if precision =? PCAP_TSTAMP_PRECISION_NANO then Some (ng_scale_type 1000000000 tsresol)
  else None.

Definition add_interface (cursor : block_cursor) : M unit :=
  let! ps := get_ng in
  let! ps := grow_ifaces ps in
  put_ng ps ;;;
  let! o := process_idb_options (S (Z.to_nat (data_remaining cursor))) cursor
              (mk_opts 1000000 0 false false) in
  let! p := get_p in
  let i := Z.to_nat (ifcount ps - 1) in
  if decide (i < length (ifaces ps))%nat then
    let entry := (fun sc => mk_ng_if (o_tsresol o) (o_tsoffset o) sc)
                   <$> if_scale (opt_tstamp_precision (p_opt p)) (o_tsresol o) in
    put_ng (mk_ng_sf (user_tsresol ps) (ifcount ps) (ifaces_size ps) (<[i := entry]> (ifaces ps)))
  else undef UbAccess.

(** ** Opening *)

(** Look for the first interface description block. *)
Fixpoint find_idb (fuel : nat) : M (Z * Z) :=
  match fuel with
  | O => undef UbFuel
  | S fuel' =>
      let! b := read_block in
      match b with
      | None => fail ErrNoIdb
      | Some cursor =>
          if block_type cursor =? BT_IDB then
            let! (idbp, cursor) := get_from_block_data cursor sizeof_idb in
            let! linktype := buf16 idbp 0 in
            let! snaplen := buf32 idbp 4 in
            add_interface cursor ;;;
            ret (linktype, snaplen)
          else if (block_type cursor =? BT_EPB) || (block_type cursor =? BT_SPB)
                  || (block_type cursor =? BT_PB) then fail ErrPacketBeforeIdb
          else find_idb fuel'
      end
  end.

(** From the section header block, of which 12 bytes have been read, to the first interface. *)
Definition ng_open (magic total_length : Z) : M unit :=
  store_buffer 0 (le_bytes 4 magic ++ le_bytes 4 total_length ++ le_bytes 4 BYTE_ORDER_MAGIC) ;;;
  let! _ := read_bytes (store_buffer 12) (total_length - 12) true in
  let! major := buf16 8 4 in
  let! minor := buf16 8 6 in
  if negb (major =? PCAP_NG_VERSION_MAJOR) then fail (ErrMajorVersion major)
  else
    modify (set_p_version_major major) ;;;
    modify (set_p_version_minor minor) ;;;
    let! p := get_p in
    let! (linktype, snaplen) := find_idb (S (left_p p)) in
    modify (set_p_tzoff 0) ;;;
    modify (set_p_snapshot (s32 snaplen)) ;;;
    modify (set_p_linktype (linktype_to_dlt DLT_PFSYNC linktype)) ;;;
    modify (set_p_linktype_ext 0).

(** A 4-byte value that a short file cannot have: not pcap-ng, unless reading failed. *)
Definition ng_read32 (fp : FILE) : sum check_result (Z * FILE) :=
  let (bs, fp) := fread 4 fp in
  if Z.of_nat (length bs) <? 4 then inl (if f_err fp then CkErr ErrRead else CkNotThis fp)
  else inr (le_val bs, fp).

Definition ng_user_tsresol (precision : Z) : option Z :=
  if precision =? PCAP_TSTAMP_PRECISION_MICRO then Some 1000000
  else if precision =? PCAP_TSTAMP_PRECISION_NANO then Some 1000000000
  else None.

(** The handle, its buffer, and the rest of the header. *)
Definition ng_setup (magic total_length : Z) (swapped : bool) (precision : Z) (fp : FILE) : check_result :=
  match pcap_open_offline_common alloc_ok (PrivNg (mk_ng_sf 0 0 0 [])) with
  | None => CkErr ErrMalloc
  | Some p =>
      match ng_user_tsresol precision with
      | None => CkErr (ErrPrecision precision)
      | Some user =>
          let bufsize := if 2048 <? total_length then s32 total_length else 2048 in
          match malloc (u64 bufsize) with
          | None => CkErr ErrOutOfMemory
          | Some b =>
              let p := set_p_priv (PrivNg (mk_ng_sf user 0 0 [])) (set_p_swapped swapped p) in
              let p := set_p_opt (set_opt_tstamp_precision precision (p_opt p)) p in
              let p := set_p_rfile (Some fp) (set_p_buffer b (set_p_bufsize bufsize p)) in
              match ng_open magic total_length p with
              | Ok _ p => CkOpen p
              | Err e _ => CkErr e
              | Undef u => CkUndef u
              end
          end
      end
  end.

Definition pcap_ng_check_header (magic : Z) (fp : FILE) (precision : Z) : check_result :=
  if negb (magic =? BT_SHB) then CkNotThis fp
  else
    match ng_read32 fp with
    | inl r => r
    | inr (total_length, fp) =>
        match ng_read32 fp with
        | inl r => r
        | inr (byte_order_magic, fp) =>
            let swapped := negb (byte_order_magic =? BYTE_ORDER_MAGIC) in
            if swapped && negb (SWAPLONG byte_order_magic =? BYTE_ORDER_MAGIC) then CkNotThis fp
            else
              let total_length := swap32 swapped total_length in
              if total_length <? sizeof_block_header + sizeof_shb + sizeof_block_trailer
              then CkErr (ErrShbLength total_length)
              else ng_setup magic total_length swapped precision fp
        end
    end.

(** ** Packets *)

(** What the packet block gives: interface, lengths, 64-bit time stamp, cursor at the data. *)
Record found := mk_found {
  fd_interface_id : Z; fd_caplen : Z; fd_len : Z; fd_t : Z; fd_cursor : block_cursor }.

Definition timestamp64 (high low : Z) : Z := u64 (Z.shiftl high 32) ||| low.

Definition ng_epb (cursor : block_cursor) : M found :=
  let! (epbp, cursor) := get_from_block_data cursor sizeof_epb in
  let! interface_id := buf32 epbp 0 in
  let! high := buf32 epbp 4 in
  let! low := buf32 epbp 8 in
  let! caplen := buf32 epbp 12 in
  let! len := buf32 epbp 16 in
  ret (mk_found interface_id caplen len (timestamp64 high low) cursor).

Definition ng_spb (cursor : block_cursor) : M found :=
  let! (spbp, cursor) := get_from_block_data cursor sizeof_spb in
  let! len := buf32 spbp 0 in
  let! p := get_p in
  let caplen := if u32 (p_snapshot p) <? len then u32 (p_snapshot p) else len in
  ret (mk_found 0 caplen len 0 cursor).

Definition ng_pb (cursor : block_cursor) : M found :=
  let! (pbp, cursor) := get_from_block_data cursor sizeof_pb in
  let! interface_id := buf16 pbp 0 in
  let! high := buf32 pbp 4 in
  let! low := buf32 pbp 8 in
  let! caplen := buf32 pbp 12 in
  let! len := buf32 pbp 16 in
  ret (mk_found interface_id caplen len (timestamp64 high low) cursor).

(** A further interface must be like the first; its LINKTYPE_ code is compared with the
    DLT_ code of the handle. *)
Definition ng_idb (cursor : block_cursor) : M unit :=
  let! (idbp, cursor) := get_from_block_data cursor sizeof_idb in
  let! linktype := buf16 idbp 0 in
  let! snaplen := buf32 idbp 4 in
  let! p := get_p in
  if negb (p_linktype p =? linktype) then fail (ErrIfType linktype)
  else if negb (u32 (p_snapshot p) =? snaplen) then fail (ErrIfSnaplen snaplen)
  else add_interface cursor.

Definition ng_shb (cursor : block_cursor) : M unit :=
  let! (shbp, cursor) := get_from_block_data cursor sizeof_shb in
  let! byte_order_magic := buf32 shbp 0 in
  let! major := buf16 shbp 4 in
  if byte_order_magic =? BYTE_ORDER_MAGIC then
    if negb (major =? PCAP_NG_VERSION_MAJOR) then fail (ErrMajorVersion major)
    else
      let! ps := get_ng in
      put_ng (mk_ng_sf (user_tsresol ps) 0 (ifaces_size ps) (ifaces ps))
  else if byte_order_magic =? SWAPLONG BYTE_ORDER_MAGIC then fail ErrByteOrderChanges
  else fail ErrByteOrderMagic.

(** The [switch] on the block type; [None] goes on with the next block. *)
Definition ng_block (cursor : block_cursor) : M (option found) :=
  if block_type cursor =? BT_EPB then let! f := ng_epb cursor in ret (Some f)
  else if block_type cursor =? BT_SPB then let! f := ng_spb cursor in ret (Some f)
  else if block_type cursor =? BT_PB then let! f := ng_pb cursor in ret (Some f)
  else if block_type cursor =? BT_IDB then ng_idb cursor ;;; ret None
  else if block_type cursor =? BT_SHB then ng_shb cursor ;;; ret None
  else ret None.

Fixpoint find_packet (fuel : nat) : M (option found) :=
  match fuel with
  | O => undef UbFuel
  | S fuel' =>
      let! b := read_block in
      match b with
      | None => ret None
      | Some cursor =>
          let! f := ng_block cursor in
          match f with
          | Some f => ret (Some f)
          | None => find_packet fuel'
          end
      end
  end.

(** The time stamp as seconds and a fraction in the user's units. *)
Definition ng_scale (iface : pcap_ng_if) (user t : Z) : Z * Z :=
  let sec := u64 (t / if_tsresol iface + if_tsoffset iface) in
  let frac := t mod if_tsresol iface in
  let frac := match if_scale_type iface with
              | PASS_THROUGH => frac
              | SCALE_UP => u64 (frac * if_tsresol iface) / user
              | SCALE_DOWN => u64 (frac * user) / if_tsresol iface
              end in
  (s64 sec, s64 frac).

Definition ng_timestamp (ps : pcap_ng_sf) (interface_id t : Z) : M (Z * Z) :=
  match at_Z (ifaces ps) interface_id with
  | Some (Some iface) =>
      if (if_tsresol iface =? 0) || (user_tsresol ps =? 0) then undef UbDiv
      else ret (ng_scale iface (user_tsresol ps) t)
  | _ => undef UbAccess
  end.

(** [Ok None] is the end of the file. *)
Definition pcap_ng_next_packet : M (option (pcap_pkthdr * list byte)) :=
  let! p := get_p in
  let! r := find_packet (S (left_p p)) in
  match r with
  | None => ret None
  | Some f =>
      let! ps := get_ng in
      if ifcount ps <=? fd_interface_id f then fail (ErrNoInterface (fd_interface_id f))
      else
        let! (sec, frac) := ng_timestamp ps (fd_interface_id f) (fd_t f) in
        let hdr := mk_pkthdr sec frac (fd_caplen f) (fd_len f) in
        let! (pos, _) := get_from_block_data (fd_cursor f) (fd_caplen f) in
        swap_pseudo_header hdr pos ;;;
        let! d := packet_data hdr pos in
        ret (Some (hdr, d))
  end.
End Ng.
