(* ===== verification/SfPcapNgProofs.v ===== *)
(** * The pcap-ng reader: memory safety, termination and time stamps *)
From stdpp Require Import base numbers list strings.
From Stdlib Require Import Strings.Byte.
From S2P Require Import Prelude BpfInsn LinkType UsbHeader Pcap SfPcap SfPcapProofs SfPcapNg.
Open Scope Z_scope.

(** ** Time stamp resolutions *)

Lemma pow10_exact k : 0 <= k <= 9 -> pow10 k = 10 ^ k.
Proof.
  intros Hk. assert (In k [0;1;2;3;4;5;6;7;8;9]) as Hin by (simpl; lia).
  repeat (destruct Hin as [<-|Hin]; [reflexivity|]). destruct Hin.
Qed.

Lemma pow10_range k : 0 <= pow10 k < 2 ^ 32.
Proof.
  unfold pow10. destruct (Z.to_nat k); simpl; [lia|]. apply u32_range.
Qed.

(** [tsresol_of] reads nothing and writes nothing, and never yields zero. *)
Lemma tsresol_of_wp p b : wp up_to_shift (tsresol_of b)
  (fun r p' => p' = p /\ 0 < r < 2 ^ 32) (fun _ p' => same_control p p') p.
Proof.
  unfold tsresol_of. set (pow2 := negb _). wp_step.
  eapply (wp_conseq _ (fun r p' => p' = p /\ 0 <= r < 2 ^ 32)).
  - destruct pow2; [|wp_step; split; [reflexivity|apply pow10_range]].
    unfold shl1. destruct (Z.ltb_spec (b &&& 0x7F) 31); [wp_step; split; [reflexivity|]|reflexivity].
    assert (0 <= b &&& 0x7F) by (change 0x7F with (Z.ones 7); rewrite Z.land_ones by lia; apply Z.mod_pos_bound; lia).
    split; [lia|]. apply Z.lt_le_trans with (2 ^ 31); [apply Z.pow_lt_mono_r; lia|lia].
  - intros r p1 (-> & Hr). destruct (Z.eqb_spec r 0); wp_step; [now split|]. split; [reflexivity|lia].
  - intros e p1 H. exact H.
Qed.

(** ** Reading the buffer *)

Definition cur_ok (p : pcap_t) (c : block_cursor) : Prop :=
  0 <= data_remaining c < 2 ^ 31 /\
  Z.of_nat (cur_data c) + data_remaining c <= Z.of_nat (length (p_buffer p)).

Lemma get_from_block_data_wp p c n : cur_ok p c -> 0 <= n ->
  wp up_to_shift (get_from_block_data c n)
     (fun r p' => p' = p /\ r.1 = cur_data c /\ cur_ok p r.2 /\ n <= data_remaining c /\
        data_remaining r.2 = data_remaining c - n /\ cur_data r.2 = (cur_data c + Z.to_nat n)%nat /\
        (Z.of_nat (r.1) + n <= Z.of_nat (length (p_buffer p))))
     (fun _ p' => same_control p p') p.
Proof.
  intros [H1 H2] Hn. unfold get_from_block_data.
  destruct (Z.ltb_spec (data_remaining c) n); wp_step; [now split|].
  unfold cur_ok. simpl. repeat split; lia.
Qed.

Lemma buf_bytes_wp p pos n : (pos + n <= length (p_buffer p))%nat ->
  wp up_to_shift (buf_bytes pos n) (fun bs p' => p' = p /\ length bs = n) (fun _ p' => same_control p p') p.
Proof.
  intros H. unfold wp, buf_bytes.
  destruct (get_field_inside (p_buffer p) pos n H) as (bs & -> & Hbs). auto.
Qed.

Lemma buf32_wp p pos off : (pos + off + 4 <= length (p_buffer p))%nat ->
  wp up_to_shift (buf32 pos off) (fun v p' => p' = p /\ 0 <= v < 2 ^ 32) (fun _ p' => same_control p p') p.
Proof.
  intros H. unfold buf32. wp_step. eapply wp_conseq; [now apply buf_bytes_wp| |auto].
  intros bs p1 (E & Hl). subst p1. wp_step. wp_step. wp_step. split; [reflexivity|].
  unfold swap32. destruct (p_swapped p); [apply SWAPLONG_range|].
  pose proof (le_val_range bs) as Hr. rewrite Hl in Hr. exact Hr.
Qed.

Lemma buf16_wp p pos off : (pos + off + 2 <= length (p_buffer p))%nat ->
  wp up_to_shift (buf16 pos off) (fun v p' => p' = p /\ 0 <= v < 2 ^ 16) (fun _ p' => same_control p p') p.
Proof.
  intros H. unfold buf16. wp_step. eapply wp_conseq; [now apply buf_bytes_wp| |auto].
  intros bs p1 (E & Hl). subst p1. wp_step. wp_step. wp_step. split; [reflexivity|].
  unfold swap16. destruct (p_swapped p); [apply SWAPSHORT_range|].
  pose proof (le_val_range bs) as Hr. rewrite Hl in Hr. exact Hr.
Qed.

(** ** Options *)

Lemma process_option_wp p code olen value o :
  0 < o_tsresol o < 2 ^ 32 ->
  Z.of_nat value + (olen + 3) / 4 * 4 <= Z.of_nat (length (p_buffer p)) ->
  wp up_to_shift (process_option code olen value o)
     (fun r p' => p' = p /\ 0 < o_tsresol r.1 < 2 ^ 32) (fun _ p' => same_control p p') p.
Proof.
  intros Ho Hv. unfold process_option.
  destruct (code =? OPT_ENDOFOPT); [destruct (negb _); wp_step; now split|].
  destruct (code =? IF_TSRESOL).
  { destruct (Z.eqb_spec olen 1) as [->|]; cbn [negb]; [|wp_step; now split].
    destruct (saw_tsresol o); [wp_step; now split|].
    wp_step. eapply wp_conseq; [apply buf_bytes_wp; change ((1 + 3) / 4 * 4) with 4 in Hv; lia| |auto].
    intros bs p1 (E & _). subst p1. wp_step. eapply wp_conseq; [apply tsresol_of_wp| |auto].
    intros r p1 (E & Hr). subst p1. wp_step. now split. }
  destruct (code =? IF_TSOFFSET); [|wp_step; now split].
  destruct (Z.eqb_spec olen 8) as [->|]; cbn [negb]; [|wp_step; now split].
  destruct (saw_tsoffset o); [wp_step; now split|].
  wp_step. eapply wp_conseq; [apply buf_bytes_wp; change ((8 + 3) / 4 * 4) with 8 in Hv; lia| |auto].
  intros bs p1 (E & _). subst p1. wp_step. wp_step. wp_step. now split.
Qed.

Lemma process_idb_options_wp fuel p c o :
  cur_ok p c -> data_remaining c < 4 * Z.of_nat fuel -> 0 < o_tsresol o < 2 ^ 32 ->
  wp up_to_shift (process_idb_options fuel c o)
     (fun r p' => p' = p /\ 0 < o_tsresol r < 2 ^ 32) (fun _ p' => same_control p p') p.
Proof.
  revert c o. induction fuel as [|fuel IH]; intros c o Hc Hf Ho; cbn [process_idb_options].
  - destruct Hc. lia.
  - destruct (_ =? 0); [wp_step; now split|].
    wp_step. unfold get_opthdr_from_block_data. wp_step.
    eapply wp_conseq; [apply get_from_block_data_wp; [exact Hc|unfold sizeof_option_header; lia]| |auto].
    intros [pos c1] p1 (E & Hpos & Hc1 & Hge & Hrem & _ & Hin). subst p1. simpl in *.
    unfold sizeof_option_header in *.
    wp_step. eapply wp_conseq; [apply buf16_wp; lia| |auto]. intros code p1 (E & _). subst p1.
    wp_step. eapply wp_conseq; [apply buf16_wp; lia| |auto]. intros olen p1 (E & Hol). subst p1.
    wp_step. unfold get_optvalue_from_block_data. wp_step.
    eapply wp_conseq; [apply get_from_block_data_wp; [exact Hc1|Z.div_mod_to_equations; lia]| |auto].
    intros [value c2] p1 (E & _ & Hc2 & _ & Hrem2 & _ & Hin2). subst p1. simpl in *.
    wp_step. eapply wp_conseq; [now apply process_option_wp| |auto].
    intros [o' done] p1 (E & Ho'). subst p1. simpl in *. destruct done; [wp_step; now split|].
    apply IH; [exact Hc2|Z.div_mod_to_equations; lia|exact Ho'].
Qed.

(** ** The invariant of an open pcap-ng savefile *)

(** Every interface counted has been described, with a resolution to divide by. *)
Definition ifaces_ok (n : Z) (ifs : list (option pcap_ng_if)) : Prop :=
  forall i, 0 <= i < n -> exists e, at_Z ifs i = Some (Some e) /\ 0 < if_tsresol e < 2 ^ 32.

(** [L] bounds the file: an interface costs at least 12 bytes of it, so the counts stay in
    32 bits. *)
Record ng_priv_ok (L : Z) (left : nat) (ps : pcap_ng_sf) : Prop := {
  np_count : 0 <= ifcount ps <= Z.of_nat (length (ifaces ps));
  np_size : ifaces_size ps = Z.of_nat (length (ifaces ps));
  np_bound : 12 * ifcount ps + Z.of_nat left <= L;
  np_half : 6 * ifaces_size ps <= L;
  np_user : user_tsresol ps = 1000000 \/ user_tsresol ps = 1000000000;
  np_ifaces : ifaces_ok (ifcount ps) (ifaces ps) }.

Definition precision_ok (p : pcap_t) : Prop :=
  opt_tstamp_precision (p_opt p) = PCAP_TSTAMP_PRECISION_MICRO \/
  opt_tstamp_precision (p_opt p) = PCAP_TSTAMP_PRECISION_NANO.

Record ng_inv (L : Z) (p : pcap_t) : Prop := {
  ni_bound : L < 12 * 2 ^ 31;
  ni_file : is_Some (p_rfile p);
  ni_buffer : u32 (p_bufsize p) <= Z.of_nat (length (p_buffer p));
  ni_precision : precision_ok p;
  ni_priv : exists ps, p_priv p = PrivNg ps /\ ng_priv_ok L (left_p p) ps }.


Lemma sf_frame_ng_inv L p p' :
  ng_inv L p -> sf_frame p p' -> ng_inv L p'.
Proof.
  intros [HL Hf Hb Hp (ps & Hps & Hok)] (E1 & E2 & _ & _ & (_ & _ & Eo) & Hf' & El & Hleft).
  split; [exact HL|exact Hf'|congruence|unfold precision_ok in *; congruence|].
  exists ps. split; [congruence|]. destruct Hok. split; auto; lia.
Qed.

Section Blocks.
Context `{Alloc}.

Lemma grow_buffer_wp n p : 0 <= n -> u32 (p_bufsize p) <= Z.of_nat (length (p_buffer p)) ->
  wp up_to_shift (grow_buffer n)
     (fun _ p' => exists b, p' = set_p_buffer b p /\ n <= Z.of_nat (length b) /\
        u32 (p_bufsize p) <= Z.of_nat (length b))
     (fun _ p' => same_control p p') p.
Proof.
  intros Hn Hb. unfold grow_buffer. wp_step. wp_step.
  destruct (Z.ltb_spec (u32 (p_bufsize p)) n).
  - destruct (realloc (p_buffer p) n) as [b|] eqn:Eb; [|wp_step; wp_step; wp_step; now split].
    wp_step. apply realloc_length in Eb; [|exact Hn]. exists b. repeat split; lia.
  - wp_step. exists (p_buffer p). repeat split; [now destruct p|lia|exact Hb].
Qed.

Lemma read_bytes_wp store n eof p :
  is_Some (p_rfile p) ->
  (forall bs q, is_Some (p_rfile q) -> length (p_buffer q) = length (p_buffer p) ->
     Z.of_nat (length bs) <= Z.max 0 n ->
     wp up_to_shift (store bs) (fun _ q' => sf_frame q q') (fun _ _ => False) q) ->
  wp up_to_shift (read_bytes store n eof)
     (fun r p' => sf_frame p p' /\
        match r with
        | Some bs => Z.of_nat (length bs) = n /\ (length bs + left_p p' <= left_p p)%nat
        | None => eof = false
        end)
     (fun _ p' => same_control p p') p.
Proof.
  intros Hf Hstore. unfold read_bytes. wp_step.
  eapply wp_conseq; [apply wp_defined, fread_frame, Hf| |contradiction].
  intros bs p1 (Hf1 & Hb1 & Hl1 & Hn). pose proof Hf1 as (_&_&_&_&_&Hfile1&_&_).
  wp_step. eapply wp_conseq; [apply Hstore; [exact Hfile1|now rewrite Hb1|exact Hn]| |contradiction].
  intros ? p2 Hf2. pose proof (sf_frame_trans _ _ _ Hf1 Hf2) as Hf02.
  pose proof Hf2 as (_&_&_&_&_&[fp Hfp]&_&Hl2).
  destruct (Z.eqb_spec (Z.of_nat (length bs)) n); [wp_step; split; [exact Hf02|split; lia]|].
  wp_step. eapply wp_ferror; [exact Hfp|]. pose proof Hf02 as (_&_&_&_&Hsc&_).
  destruct (f_err fp); [wp_step; exact Hsc|].
  destruct (_ =? 0), eof; simpl; wp_step; first [exact Hsc | split; [exact Hf02|reflexivity]].
Qed.

(** A block read consumes its 12 bytes of framing at least and leaves the cursor inside the
    buffer, which may have been replaced by a larger one. *)
Definition block_read (L : Z) (p p' : pcap_t) (c : block_cursor) : Prop :=
  ng_inv L p' /\ p_priv p' = p_priv p /\ same_control p p' /\ cur_ok p' c /\
  (12 + left_p p' <= left_p p)%nat.

Lemma read_block_wp L p : ng_inv L p ->
  wp up_to_shift read_block
     (fun r p' => match r with Some c => block_read L p p' c | None => same_control p p' end)
     (fun _ p' => same_control p p') p.
Proof.
  intros Hinv. pose proof Hinv as [HL Hf Hb Hp Hps]. unfold read_block. wp_step.
  eapply wp_conseq; [apply read_bytes_wp; [exact Hf|]| |auto].
  { intros bs q Hq _ _. wp_step. now apply sf_frame_refl. }
  intros r p1 (Hf1 & Hr). destruct r as [bs|]; [|wp_step; apply Hf1]. destruct Hr as [Hlen Hleft].
  pose proof (sf_frame_ng_inv L p p1 Hinv Hf1) as [_ Hfile1 Hb1 _ _].
  pose proof Hf1 as (_&_&_&_&Hsc1&_).
  wp_step. wp_step. set (ty := swap32 _ (field bs 0 4)). set (tl := swap32 _ (field bs 4 4)).
  destruct (Z.ltb_spec (16 * 1024 * 1024) tl); [wp_step; exact Hsc1|].
  unfold sizeof_block_header, sizeof_block_trailer in *.
  destruct (Z.ltb_spec tl (8 + 4)); [wp_step; exact Hsc1|].
  wp_step. eapply wp_conseq; [apply grow_buffer_wp; [lia|exact Hb1]| |].
  2:{ intros ? p2 Hs2. unfold same_control in *. intuition congruence. }
  intros ? p2 (b & E2 & Hbl & Hbu). subst p2.
  wp_step. apply wp_store; [simpl; lia|]. simpl length. set (p3 := set_p_buffer _ _).
  assert (length (p_buffer p3) = length b) as Hb3 by (apply length_set_field; simpl; lia).
  wp_step. eapply wp_conseq; [apply read_bytes_wp; [exact Hfile1|]| |].
  { intros bs' q Hq Hlq Hn. apply wp_store; [change (Z.to_nat 8) with 8%nat; lia|].
    apply store_frame; [exact Hq|change (Z.to_nat 8) with 8%nat; lia]. }
  2:{ intros ? p4 Hs4. unfold same_control in *. simpl in Hs4. intuition congruence. }
  intros r p4 (Hf4 & Hr4). destruct r as [bs'|]; [|discriminate]. destruct Hr4 as [Hlen4 Hleft4].
  pose proof Hf4 as (Ep4 & Es4 & _ & _ & Hsc4 & Hfile4 & Hlb4 & _).
  change (left_p p3) with (left_p p1) in Hleft4. destruct Hf1 as (Ep1 & Es1 & _).
  wp_step. unfold block_read. split; [|split; [|split; [|split]]].
  - split; [exact HL|exact Hfile4| | |].
    + rewrite Es4, Hlb4, Hb3. exact Hbu.
    + unfold precision_ok, same_control in *. destruct Hsc4 as (_ & _ & ->). simpl.
      destruct Hsc1 as (_ & _ & ->). exact Hp.
    + destruct Hps as (ps & Eps & Hok). exists ps. split; [rewrite Ep4; simpl; congruence|].
      destruct Hok; split; auto; lia.
  - rewrite Ep4. exact Ep1.
  - unfold same_control in *. simpl in Hsc4. intuition congruence.
  - unfold cur_ok. simpl. rewrite Hlb4, Hb3. lia.
  - lia.
Qed.

(** ** Interfaces *)

Record grown (L : Z) (ps ps' : pcap_ng_sf) : Prop := {
  gr_count : ifcount ps' = ifcount ps + 1;
  gr_user : user_tsresol ps' = user_tsresol ps;
  gr_size : ifaces_size ps' = Z.of_nat (length (ifaces ps'));
  gr_fits : ifcount ps' <= Z.of_nat (length (ifaces ps'));
  gr_half : 6 * ifaces_size ps' <= L;
  gr_ifaces : ifaces_ok (ifcount ps) (ifaces ps') }.

Lemma grow_ifaces_wp L left p ps :
  ng_priv_ok L (12 + left) ps -> L < 12 * 2 ^ 31 ->
  wp up_to_shift (grow_ifaces ps) (fun ps' p' => p' = p /\ grown L ps ps')
     (fun _ p' => same_control p p') p.
Proof.
  intros [Hc Hs Hb Hh Hu Hi] HL. unfold grow_ifaces, put_ng. rewrite (u32_id (ifcount ps + 1)) by lia.
  destruct (Z.ltb_spec (ifaces_size ps) (ifcount ps + 1)).
  2:{ wp_step. split; [reflexivity|]. split; simpl; auto; lia. }
  set (size := match ifaces ps with [] => 1 | _ => _ end).
  assert (size = Z.max 1 (2 * ifaces_size ps)) as Hsize.
  { subst size. destruct (ifaces ps) eqn:E; [simpl in Hs; lia|]. rewrite u32_id; simpl in Hs; lia. }
  destruct (malloc _) as [m|]; [|wp_step; wp_step; wp_step; now split].
  wp_step. split; [reflexivity|]. rewrite take_ge by lia.
  split; simpl; rewrite ?length_app, ?length_replicate; try lia.
  intros i Hr. destruct (Hi i Hr) as (e & He & Hpos). exists e. split; [|exact Hpos].
  rewrite at_Z_app_l by (apply at_Z_bound in He; lia). exact He.
Qed.

Lemma ifaces_ok_set n ifs e :
  ifaces_ok n ifs -> 0 <= n < Z.of_nat (length ifs) -> 0 < if_tsresol e < 2 ^ 32 ->
  ifaces_ok (n + 1) (<[Z.to_nat n := Some e]> ifs).
Proof.
  intros Hi Hn He i Hr. unfold at_Z. destruct (Z.ltb_spec i 0); [lia|].
  destruct (decide (i = n)) as [->|].
  - rewrite list_lookup_insert_eq by lia. eauto.
  - rewrite list_lookup_insert_ne by lia. specialize (Hi i ltac:(lia)).
    unfold at_Z in Hi. now destruct (Z.ltb_spec i 0); [lia|].
Qed.

(** The state in which a block has been read and its cost not yet used. *)
Definition ng_room (L : Z) (p : pcap_t) : Prop :=
  exists ps, p_priv p = PrivNg ps /\ ng_priv_ok L (12 + left_p p) ps.

Lemma block_read_room L p p' c : ng_inv L p -> block_read L p p' c -> ng_room L p'.
Proof.
  intros [_ _ _ _ (ps & Eps & Hok)] (_ & Ep & _ & _ & Hl). exists ps. split; [congruence|].
  destruct Hok; split; auto; lia.
Qed.

Lemma add_interface_wp L p c : ng_inv L p -> ng_room L p -> cur_ok p c ->
  wp up_to_shift (add_interface c)
     (fun _ p' => ng_inv L p' /\ same_control p p' /\ left_p p' = left_p p)
     (fun _ p' => same_control p p') p.
Proof.
  intros [HL Hf Hb Hp _] (ps & Eps & Hok) Hc. unfold add_interface, put_ng.
  wp_step. unfold wp at 1, get_ng. rewrite Eps.
  wp_step. eapply wp_conseq; [eapply grow_ifaces_wp; [exact Hok|exact HL]| |auto].
  intros ps1 p1 (E & [Gc Gu Gs Gf Gh Gi]). subst p1. destruct Hok as [Hc0 Hs0 Hb0 Hh0 Hu0 Hi0].
  wp_step. wp_step. wp_step. set (p1 := set_p_priv (PrivNg ps1) p).
  eapply wp_conseq; [apply (process_idb_options_wp _ p1); [exact Hc| |simpl; lia]| |].
  { destruct Hc. lia. }
  2:{ intros ? p2 Hs2. exact Hs2. }
  intros o p2 (E & Ho). subst p2. wp_step. wp_step. rewrite decide_True by lia.
  change (p_opt p1) with (p_opt p).
  assert (exists sc, if_scale (opt_tstamp_precision (p_opt p)) (o_tsresol o) = Some sc) as [sc ->].
  { unfold if_scale. destruct Hp as [-> | ->]; simpl; eauto. }
  wp_step. split; [|split; [now repeat split|reflexivity]].
  split; simpl; [exact HL|exact Hf|exact Hb|exact Hp|].
  eexists; split; [reflexivity|]. change (left_p _) with (left_p p).
  split; simpl; rewrite ?length_insert; try lia.
  replace (ifcount ps1) with (ifcount ps + 1) by lia. replace (ifcount ps + 1 - 1) with (ifcount ps) by lia.
  apply ifaces_ok_set; [exact Gi|lia|exact Ho].
Qed.

(** ** Blocks and packets *)

Definition found_ok (L : Z) (p : pcap_t) (f : found) : Prop :=
  0 <= fd_interface_id f /\ 0 <= fd_caplen f < 2 ^ 32 /\ 0 <= fd_len f < 2 ^ 32 /\ 0 <= fd_t f /\ cur_ok p (fd_cursor f).

Lemma timestamp64_nonneg high low : 0 <= low -> 0 <= timestamp64 high low.
Proof. intros Hl. unfold timestamp64. apply Z.lor_nonneg. split; [apply u64_range|exact Hl]. Qed.

Ltac ng_chunk Hc1 :=
  wp_step; eapply wp_conseq;
  [apply get_from_block_data_wp; [eassumption|vm_compute; congruence]| |auto];
  let E := fresh "E" in let q := fresh "q" in
  intros [? ?] q (E & ? & Hc1 & ? & ? & ? & ?); subst q;
  cbv [sizeof_epb sizeof_spb sizeof_pb sizeof_idb sizeof_shb] in *; cbn [fst snd] in *.
Ltac ng_field lem :=
  wp_step; eapply wp_conseq; [apply lem; lia| |auto]; let E := fresh "E" in let q := fresh "q" in intros ? q (E & ?); subst q.

Lemma ng_epb_wp L p c : cur_ok p c ->
  wp up_to_shift (ng_epb c) (fun f p' => p' = p /\ found_ok L p f) (fun _ p' => same_control p p') p.
Proof.
  intros Hc. unfold ng_epb. ng_chunk Hc1.
  do 5 ng_field buf32_wp. wp_step. split; [reflexivity|]. repeat split; simpl; try lia;
    try (apply timestamp64_nonneg; lia); apply Hc1.
Qed.

Lemma ng_pb_wp L p c : cur_ok p c ->
  wp up_to_shift (ng_pb c) (fun f p' => p' = p /\ found_ok L p f) (fun _ p' => same_control p p') p.
Proof.
  intros Hc. unfold ng_pb. ng_chunk Hc1.
  ng_field buf16_wp. do 4 ng_field buf32_wp. wp_step. split; [reflexivity|]. repeat split; simpl; try lia;
    try (apply timestamp64_nonneg; lia); apply Hc1.
Qed.

Lemma ng_spb_wp L p c : cur_ok p c ->
  wp up_to_shift (ng_spb c) (fun f p' => p' = p /\ found_ok L p f) (fun _ p' => same_control p p') p.
Proof.
  intros Hc. unfold ng_spb. ng_chunk Hc1. ng_field buf32_wp. wp_step. wp_step. wp_step.
  split; [reflexivity|]. pose proof (u32_range (p_snapshot p)).
  repeat split; simpl; try lia; try (destruct (_ <? _); lia); apply Hc1.
Qed.

Lemma ng_idb_wp L p c : ng_inv L p -> ng_room L p -> cur_ok p c ->
  wp up_to_shift (ng_idb c) (fun _ p' => ng_inv L p' /\ same_control p p' /\ left_p p' = left_p p)
     (fun _ p' => same_control p p') p.
Proof.
  intros Hinv Hroom Hc. unfold ng_idb. ng_chunk Hc1. ng_field buf16_wp. ng_field buf32_wp.
  wp_step. wp_step. destruct (negb _); [wp_step; now split|].
  destruct (negb _); [wp_step; now split|]. now apply add_interface_wp.
Qed.

Lemma ng_shb_wp L p c : ng_inv L p -> cur_ok p c ->
  wp up_to_shift (ng_shb c) (fun _ p' => ng_inv L p' /\ same_control p p' /\ left_p p' = left_p p)
     (fun _ p' => same_control p p') p.
Proof.
  intros Hinv Hc. unfold ng_shb, put_ng. ng_chunk Hc1. ng_field buf32_wp. ng_field buf16_wp.
  destruct (_ =? BYTE_ORDER_MAGIC); [|destruct (_ =? _); wp_step; now split].
  destruct (negb _); [wp_step; now split|].
  destruct Hinv as [HL Hf Hb Hp (ps & Eps & [C1 C2 C3 C4 C5 C6])].
  wp_step. unfold wp at 1, get_ng. rewrite Eps. wp_step. split; [|now repeat split].
  split; simpl; [exact HL|exact Hf|exact Hb|exact Hp|]. eexists; split; [reflexivity|].
  change (left_p _) with (left_p p). split; simpl; auto; try lia.
  intros i Hr. lia.
Qed.

Definition block_done (L : Z) (p p' : pcap_t) (r : option found) : Prop :=
  ng_inv L p' /\ same_control p p' /\ left_p p' = left_p p /\
  match r with Some f => found_ok L p' f | None => True end.

Ltac ng_found lem L p c :=
  wp_step; eapply wp_conseq; [apply (lem L p c); assumption| |auto];
  let E := fresh "E" in let q := fresh "q" in intros ? q (E & ?); subst q; wp_step;
  repeat (split; [assumption || reflexivity|]); assumption.

Lemma ng_block_wp L p c : ng_inv L p -> ng_room L p -> cur_ok p c ->
  wp up_to_shift (ng_block c) (fun r p' => block_done L p p' r) (fun _ p' => same_control p p') p.
Proof.
  intros Hinv Hroom Hc. assert (same_control p p) as Hrefl by now repeat split. unfold ng_block.
  destruct (_ =? BT_EPB); [ng_found ng_epb_wp L p c|].
  destruct (_ =? BT_SPB); [ng_found ng_spb_wp L p c|].
  destruct (_ =? BT_PB); [ng_found ng_pb_wp L p c|].
  destruct (_ =? BT_IDB).
  { wp_step. eapply wp_conseq; [now apply (ng_idb_wp L p c)| |auto].
    intros ? q (H1 & H2 & H3). wp_step. repeat (split; [assumption|]). exact I. }
  destruct (_ =? BT_SHB).
  { wp_step. eapply wp_conseq; [now apply (ng_shb_wp L p c)| |auto].
    intros ? q (H1 & H2 & H3). wp_step. repeat (split; [assumption|]). exact I. }
  wp_step. repeat (split; [assumption || reflexivity|]). exact I.
Qed.

Lemma same_control_trans p q r : same_control p q -> same_control q r -> same_control p r.
Proof. unfold same_control. intuition congruence. Qed.

Lemma find_packet_wp L fuel p : ng_inv L p -> (left_p p < fuel)%nat ->
  wp up_to_shift (find_packet fuel)
     (fun r p' => same_control p p' /\
        match r with
        | Some f => ng_inv L p' /\ found_ok L p' f /\ (left_p p' < left_p p)%nat
        | None => True
        end)
     (fun _ p' => same_control p p') p.
Proof.
  revert p. induction fuel as [|fuel IH]; intros p Hinv Hf; [lia|]. cbn [find_packet].
  wp_step. eapply wp_conseq; [now apply (read_block_wp L)| |auto].
  intros r p1 Hr. destruct r as [c|]; [|wp_step; now split].
  pose proof (block_read_room _ _ _ _ Hinv Hr) as Hroom. destruct Hr as (Hinv1 & _ & Hs1 & Hc1 & Hl1).
  wp_step. eapply wp_conseq; [now apply (ng_block_wp L p1 c)| |].
  2:{ intros ? p2 Hs2. exact (same_control_trans _ _ _ Hs1 Hs2). }
  intros f p2 (Hinv2 & Hs2 & Hl2 & Hfd). pose proof (same_control_trans _ _ _ Hs1 Hs2) as Hs02.
  destruct f as [f|].
  - wp_step. split; [exact Hs02|]. repeat (split; [assumption|]). lia.
  - eapply wp_conseq; [apply (IH p2); [exact Hinv2|lia]| |].
    + intros [f|] p3 (Hs3 & Hr3); (split; [exact (same_control_trans _ _ _ Hs02 Hs3)|]); [|exact I].
      destruct Hr3 as (? & ? & ?). repeat (split; [assumption|]). lia.
    + intros ? p3 Hs3. exact (same_control_trans _ _ _ Hs02 Hs3).
Qed.

Lemma ng_timestamp_wp p ps i t : ifaces_ok (ifcount ps) (ifaces ps) ->
  (user_tsresol ps = 1000000 \/ user_tsresol ps = 1000000000) -> 0 <= i < ifcount ps ->
  wp up_to_shift (ng_timestamp ps i t) (fun _ p' => p' = p) (fun _ _ => False) p.
Proof.
  intros Hi Hu Hr. unfold ng_timestamp. destruct (Hi i Hr) as (e & -> & He).
  destruct (Z.eqb_spec (if_tsresol e) 0); [lia|].
  destruct (Z.eqb_spec (user_tsresol ps) 0); [lia|]. cbn [orb]. now wp_step.
Qed.

Lemma pcap_ng_next_packet_wp L p : ng_inv L p ->
  wp up_to_shift pcap_ng_next_packet
     (fun r p' => same_control p p' /\
        match r with
        | Some (h, d) => ng_inv L p' /\ (left_p p' < left_p p)%nat /\ packet_sized h d
        | None => True
        end)
     (fun _ p' => same_control p p') p.
Proof.
  intros Hinv. unfold pcap_ng_next_packet. wp_step. wp_step. wp_step.
  eapply wp_conseq; [apply (find_packet_wp L); [exact Hinv|lia]| |auto].
  intros [f|] p1 (Hs1 & Hr); [|wp_step; now split]. destruct Hr as (Hinv1 & (Hid & Hcap & Hlen & _ & Hc1) & Hl1).
  pose proof Hinv1 as [_ Hfile1 _ _ (ps & Eps & [C1 C2 C3 C4 C5 C6])].
  wp_step. unfold wp at 1, get_ng. rewrite Eps.
  destruct (Z.leb_spec (ifcount ps) (fd_interface_id f)); [wp_step; exact Hs1|].
  wp_step. eapply wp_conseq; [apply (ng_timestamp_wp p1); [exact C6|exact C5|lia]| |contradiction].
  intros [sec frac] q E. simpl in E. subst q.
  wp_step. eapply wp_conseq; [apply get_from_block_data_wp; [exact Hc1|lia]| |].
  2:{ intros ? p2 Hs2. exact (same_control_trans _ _ _ Hs1 Hs2). }
  intros [pos c2] q (E & _ & _ & Hle & _ & _ & Hin). subst q. cbn [fst snd] in *.
  set (hdr := mk_pkthdr _ _ _ _). assert (0 <= caplen hdr < 2 ^ 31) as Hch by (destruct Hc1; simpl; lia).
  wp_step. eapply wp_conseq;
    [apply wp_defined, (swap_pseudo_header_frame hdr pos p1); [exact Hfile1|exact Hin|exact Hch]| |contradiction].
  intros ? p2 Hf2. pose proof Hf2 as (_ & _ & _ & _ & Hs2 & _ & Hlb2 & Hl2).
  wp_step. eapply wp_conseq; [apply wp_defined, (packet_data_wp hdr pos p2); simpl in *; lia| |contradiction].
  intros d q (E & Hd). subst q. wp_step. split; [exact (same_control_trans _ _ _ Hs1 Hs2)|].
  split; [now apply (sf_frame_ng_inv L p1 p2)|]. split; [lia|]. unfold packet_sized. simpl in *. lia.
Qed.

#[export] Instance pcap_ng_next_packet_contract L :
  NextPacket up_to_shift pcap_ng_next_packet (ng_inv L).
Proof. split; [intros p Hp; now apply pcap_ng_next_packet_wp|intros b p []; now split]. Qed.

(** ** Opening *)

Lemma find_idb_wp L fuel p : ng_inv L p -> (left_p p < fuel)%nat ->
  wp up_to_shift (find_idb fuel) (fun _ p' => ng_inv L p') (fun _ _ => True) p.
Proof.
  revert p. induction fuel as [|fuel IH]; intros p Hinv Hf; [lia|]. cbn [find_idb].
  wp_step. eapply wp_conseq; [now apply (read_block_wp L)| |auto].
  intros r p1 Hr. destruct r as [c|]; [|now wp_step].
  pose proof (block_read_room _ _ _ _ Hinv Hr) as Hroom. destruct Hr as (Hinv1 & _ & Hs1 & Hc1 & Hl1).
  destruct (_ =? BT_IDB).
  - ng_chunk Hc2. ng_field buf16_wp. ng_field buf32_wp.
    wp_step. eapply wp_conseq; [now apply (add_interface_wp L)| |auto].
    intros ? p2 (Hinv2 & _). now wp_step.
  - destruct (_ || _); [now wp_step|]. apply IH; [exact Hinv1|lia].
Qed.

Lemma ng_open_wp DLT_PFSYNC L magic total_length p :
  ng_inv L p -> 28 <= total_length -> total_length <= Z.of_nat (length (p_buffer p)) ->
  wp up_to_shift (ng_open DLT_PFSYNC magic total_length) (fun _ p' => ng_inv L p') (fun _ _ => True) p.
Proof.
  intros Hinv Ht Hb. pose proof Hinv as [_ Hf _ _ _]. unfold ng_open.
  wp_step. apply wp_store; [simpl; lia|]. set (p1 := set_p_buffer _ p).
  assert (sf_frame p p1) as Hf1 by (apply store_frame; [exact Hf|simpl; lia]).
  pose proof (sf_frame_ng_inv L p p1 Hinv Hf1) as Hinv1. pose proof Hf1 as (_&_&_&_&_&_&Hlb1&_).
  wp_step. eapply wp_conseq; [apply read_bytes_wp; [exact Hf|]| |auto].
  { intros bs q Hq Hlq Hn. apply wp_store; [lia|]. apply store_frame; [exact Hq|lia]. }
  intros r p2 (Hf2 & _). pose proof (sf_frame_ng_inv L p1 p2 Hinv1 Hf2) as Hinv2.
  pose proof Hf2 as (_&_&_&_&_&_&Hlb2&_). clearbody p1.
  ng_field buf16_wp. ng_field buf16_wp. destruct (negb _); [now wp_step|].
  wp_step. wp_step. wp_step. wp_step. wp_step. wp_step. wp_step.
  set (p3 := set_p_version_minor _ _). assert (ng_inv L p3) as Hinv3 by (destruct Hinv2; now split).
  eapply wp_conseq; [apply (find_idb_wp L); [exact Hinv3|lia]| |auto].
  intros [lt sl] p4 Hinv4. simpl in Hinv4. clear - Hinv4. destruct Hinv4.
  repeat wp_step. now split.
Qed.

Lemma ng_check_header_ok DLT_PFSYNC alloc_ok magic fp precision :
  Z.of_nat (length (f_data fp)) < 12 * 2 ^ 31 - 24 ->
  match pcap_ng_check_header DLT_PFSYNC alloc_ok magic fp precision with
  | CkOpen p => ng_inv (Z.of_nat (length (f_data fp))) p
  | CkUndef u => u = UbShift
  | _ => True
  end.
Proof.
  intros HL. unfold pcap_ng_check_header. destruct (negb _); [exact I|].
  unfold ng_read32, fread. set (d := f_data fp) in *. cbn [f_data f_err].
  destruct (_ <? 4); [destruct (f_err fp); exact I|].
  destruct (_ <? 4); [destruct (f_err fp); exact I|].
  set (sw := negb _). destruct (sw && _); [exact I|]. set (tl := swap32 sw _).
  assert (0 <= tl < 2 ^ 32) as Htl.
  { subst tl. unfold swap32. destruct sw; [apply SWAPLONG_range|]. apply (field_range d 0 4). }
  destruct (Z.ltb_spec tl (sizeof_block_header + sizeof_shb + sizeof_block_trailer)) as [|Hge]; [exact I|].
  unfold ng_setup, pcap_open_offline_common. destruct alloc_ok; [|exact I].
  destruct (ng_user_tsresol precision) as [user|] eqn:Eu; [|exact I].
  set (bs := if 2048 <? tl then s32 tl else 2048).
  destruct (malloc (u64 bs)) as [b|] eqn:Eb; [|exact I].
  apply malloc_length in Eb; [|apply u64_range]. set (p := set_p_rfile _ _).
  assert (u32 bs <= u64 bs) by (unfold u32, u64; Z.div_mod_to_equations; lia).
  assert (tl <= u64 bs) by (subst bs; destruct (Z.ltb_spec 2048 tl); [cint|change (u64 2048) with 2048; lia]).
  assert (ng_inv (Z.of_nat (length d)) p) as Hinv.
  { unfold ng_user_tsresol in Eu. subst p. split; simpl; [lia|eauto|lia| |].
    - unfold precision_ok. simpl. destruct (Z.eqb_spec precision PCAP_TSTAMP_PRECISION_MICRO); [auto|].
      destruct (Z.eqb_spec precision PCAP_TSTAMP_PRECISION_NANO); [auto|discriminate].
    - eexists; split; [reflexivity|]. unfold left_p. simpl. rewrite !length_drop.
      split; simpl; try lia.
      + destruct (precision =? PCAP_TSTAMP_PRECISION_MICRO); [left; congruence|].
        destruct (precision =? PCAP_TSTAMP_PRECISION_NANO); [right; congruence|discriminate].
      + intros i Hi. lia. }
  pose proof (ng_open_wp DLT_PFSYNC (Z.of_nat (length d)) magic tl p Hinv) as Hopen.
  unfold wp in Hopen. cbv [sizeof_block_header sizeof_shb sizeof_block_trailer] in Hge.
  specialize (Hopen ltac:(lia) ltac:(simpl; lia)).
  destruct (ng_open _ _ _ p); [exact Hopen|exact I|exact Hopen].
Qed.
End Blocks.

(** Opening a pcap-ng file of less than 24 GiB is defined whatever its bytes are, up to
    the oversized shift of a time stamp resolution, and the handle it gives has a block
    buffer at least as large as [bufsize] and a described interface for every interface
    counted. *)
Theorem pcap_ng_check_header_inv `{Alloc} DLT_PFSYNC alloc_ok magic fp precision :
  Z.of_nat (length (f_data fp)) < 12 * 2 ^ 31 - 24 ->
  match pcap_ng_check_header DLT_PFSYNC alloc_ok magic fp precision with
  | CkOpen p => ng_inv (Z.of_nat (length (f_data fp))) p
  | CkUndef u => u = UbShift
  | _ => True
  end.
Proof. apply ng_check_header_ok. Qed.

(** A file of one Ethernet interface and one packet, without its first four bytes. *)
Definition ng_sample : list byte :=
  le_bytes 4 28 ++ le_bytes 4 BYTE_ORDER_MAGIC ++ le_bytes 2 1 ++ le_bytes 2 0 ++ le_bytes 8 (-1)
  ++ le_bytes 4 28
  ++ le_bytes 4 BT_IDB ++ le_bytes 4 20 ++ le_bytes 2 1 ++ le_bytes 2 0 ++ le_bytes 4 256 ++ le_bytes 4 20
  ++ le_bytes 4 BT_EPB ++ le_bytes 4 36 ++ le_bytes 4 0 ++ le_bytes 4 0 ++ le_bytes 4 1500000
  ++ le_bytes 4 4 ++ le_bytes 4 60 ++ [x01; x02; x03; x04] ++ le_bytes 4 36.

Definition ng_sample_open : check_result :=
  pcap_ng_check_header (H := zeroing_malloc) 246 true BT_SHB (mk_FILE ng_sample false) 0.

Lemma pcap_ng_check_header_inv_witness :
  match ng_sample_open with
  | CkOpen p => ng_inv 80 p
  | CkUndef u => u = UbShift
  | _ => True
  end.
Proof.
  apply (pcap_ng_check_header_inv (H := zeroing_malloc) 246 true BT_SHB (mk_FILE ng_sample false) 0).
  vm_compute. reflexivity.
Defined.

Definition ng_sample_reader : pcap_t :=
  match ng_sample_open with CkOpen p => p | _ => pcap_alloc_pcap_t PrivNone end.

Lemma ng_sample_reader_inv : ng_inv 80 ng_sample_reader.
Proof.
  pose proof (ng_check_header_ok (H := zeroing_malloc) 246 true BT_SHB (mk_FILE ng_sample false) 0
                ltac:(vm_compute; reflexivity)) as Hi.
  change (ng_inv 80 match ng_sample_open with CkOpen p => p | _ => pcap_alloc_pcap_t PrivNone end).
  unfold ng_sample_open. destruct (pcap_ng_check_header _ _ _ _ _) eqn:E; [exact Hi| | |];
    exfalso; assert (match ng_sample_open with CkOpen _ => true | _ => false end = true) as Ht
      by (vm_compute; reflexivity); unfold ng_sample_open in Ht; rewrite E in Ht; discriminate.
Qed.

(** C32: The next packet of an open pcap-ng file: no access outside the block buffer or the
    interface table, no division by zero and no endless loop, whatever the bytes are; a
    packet has [caplen] bytes, the file gets shorter, and the invariant is kept. *)
Theorem pcap_ng_next_packet_safe `{Alloc} L p :
  ng_inv L p ->
  match pcap_ng_next_packet p with
  | Ok (Some (h, d)) p' =>
      ng_inv L p' /\ (left_p p' < left_p p)%nat /\ Z.of_nat (length d) = caplen h
  | Ok None p' | Err _ p' => p_fcode p' = p_fcode p
  | Undef u => u = UbShift
  end.
Proof.
  intros Hp. pose proof (pcap_ng_next_packet_wp L p Hp) as Hw. unfold wp in Hw.
  destruct (pcap_ng_next_packet p) as [[[h d]|] p'|e p'|u]; [|apply Hw|apply Hw|exact Hw].
  destruct Hw as (_ & ? & ? & ? & _). auto.
Qed.

Lemma pcap_ng_next_packet_safe_witness :
  match pcap_ng_next_packet (H := zeroing_malloc) ng_sample_reader with
  | Ok (Some (h, d)) p' =>
      ng_inv 80 p' /\ (left_p p' < left_p ng_sample_reader)%nat /\ Z.of_nat (length d) = caplen h
  | Ok None p' | Err _ p' => p_fcode p' = p_fcode ng_sample_reader
  | Undef u => u = UbShift
  end.
Proof.
  apply (pcap_ng_next_packet_safe (H := zeroing_malloc) 80 ng_sample_reader). exact ng_sample_reader_inv.
Defined.

(** What the sample gives: one packet, at 1.5 seconds. *)
Example ng_sample_packet :
  match pcap_ng_next_packet (H := zeroing_malloc) ng_sample_reader with
  | Ok (Some (h, d)) _ => (h, d) = (mk_pkthdr 1 500000 4 60, [x01; x02; x03; x04])
  | _ => False
  end.
Proof. vm_compute. reflexivity. Qed.

(** ** Time stamps *)

(** Time stamps with at least the user's resolution are converted exactly: seconds and
    the fraction rounded down to the user's units, less than one second. *)
Theorem ng_scale_exact iface user t :
  0 < user <= 1000000000 -> user <= if_tsresol iface < 2 ^ 32 ->
  if_scale_type iface = ng_scale_type user (if_tsresol iface) ->
  0 <= t -> 0 <= if_tsoffset iface -> t / if_tsresol iface + if_tsoffset iface < 2 ^ 63 ->
  ng_scale iface user t =
    (t / if_tsresol iface + if_tsoffset iface, t mod if_tsresol iface * user / if_tsresol iface) /\
  t mod if_tsresol iface * user / if_tsresol iface < user.
Proof.
  destruct iface as [r off sc]. simpl. intros Hu Hr -> Ht Hoff Hsec.
  pose proof (Z.mod_pos_bound t r ltac:(lia)) as Hf. set (f := t mod r) in *.
  pose proof (Z.div_pos t r ltac:(lia) ltac:(lia)) as Hq.
  assert (f * user / r < user) as Hlt by (apply Z.div_lt_upper_bound; nia).
  assert (0 <= f * user / r) by (apply Z.div_pos; nia).
  split; [|exact Hlt]. unfold ng_scale, ng_scale_type. simpl. fold f.
  assert (forall z, 0 <= z < 2 ^ 63 -> s64 z = z) as Hs64 by (intros; cint).
  rewrite (u64_id (t / r + off)), Hs64 by lia. f_equal.
  destruct (Z.eqb_spec r user) as [->|]; [|destruct (Z.ltb_spec user r); [|lia]].
  - rewrite Z.div_mul by lia. apply Hs64. lia.
  - rewrite u64_id, Hs64 by nia. reflexivity.
Qed.

Lemma ng_scale_exact_witness :
  ng_scale (mk_ng_if 1000000000 5 SCALE_DOWN) 1000000 1500000999 = (1 + 5, 500000) /\ 500000 < 1000000.
Proof.
  apply (ng_scale_exact (mk_ng_if 1000000000 5 SCALE_DOWN) 1000000 1500000999); vm_compute;
    first [reflexivity | split; congruence | congruence].
Defined.

(** With a resolution coarser than the user's the scaling is upside down: whatever the
    fraction of a second is, unless zero, the code gives less than its value in the user's
    units (it multiplies by the file's resolution and divides by the user's). *)
Theorem ng_scale_up_too_small iface user t :
  0 < if_tsresol iface < user -> user <= 1000000000 ->
  if_scale_type iface = ng_scale_type user (if_tsresol iface) ->
  0 < t mod if_tsresol iface ->
  0 <= (ng_scale iface user t).2 < t mod if_tsresol iface * user / if_tsresol iface.
Proof.
  destruct iface as [r off sc]. simpl. intros Hr Hu -> Hf.
  pose proof (Z.mod_pos_bound t r ltac:(lia)) as Hb. unfold ng_scale, ng_scale_type. simpl.
  destruct (Z.eqb_spec r user); [lia|]. destruct (Z.ltb_spec user r); [lia|].
  set (f := t mod r) in *. rewrite u64_id by nia.
  assert (0 <= f * r / user < f) as Hlt.
  { split; [apply Z.div_pos; nia|]. apply Z.div_lt_upper_bound; nia. }
  assert (f <= f * user / r) by (apply Z.div_le_lower_bound; nia).
  replace (s64 (f * r / user)) with (f * r / user) by cint. lia.
Qed.

Lemma ng_scale_up_too_small_witness :
  0 <= (ng_scale (mk_ng_if 1000000 0 SCALE_UP) 1000000000 1500000).2
    < 1500000 mod 1000000 * 1000000000 / 1000000.
Proof.
  apply (ng_scale_up_too_small (mk_ng_if 1000000 0 SCALE_UP) 1000000000 1500000); vm_compute;
    first [reflexivity | split; congruence | congruence].
Defined.

Lemma pow10_wraps k : 0 <= k -> pow10 k = u32 (10 ^ k).
Proof.
  intros Hk. unfold pow10. rewrite <- (Z2Nat.id k) at 2 by exact Hk.
  induction (Z.to_nat k) as [|n IH]; [reflexivity|].
  rewrite Nat2Z.inj_succ, Z.pow_succ_r by lia. simpl Nat.iter. rewrite IH. unfold u32.
  rewrite Z.mul_mod_idemp_l by lia. f_equal. lia.
Qed.

(** A decimal time stamp resolution 10^-k is stored exactly up to k = 9 only; the test
    that it is not too high refuses k from 32 on; for k from 10 to 31 the value stored is
    10^k reduced modulo 2^32 and the file is accepted. *)
Theorem tsresol_of_decimal k p :
  0 <= k < 128 ->
  tsresol_of k p =
    if k <=? 9 then Ok (10 ^ k) p
    else if k <? 32 then Ok (10 ^ k mod 2 ^ 32) p
    else Err (ErrTsresolTooHigh 10 k) (set_p_errbuf (Some (ErrTsresolTooHigh 10 k)) p).
Proof.
  intros Hk. unfold tsresol_of.
  assert (k &&& 0x80 = 0) as ->.
  { change 0x80 with ((2 ^ 1 - 1) * 2 ^ 7). rewrite land_field by lia.
    rewrite Z.div_small by lia. reflexivity. }
  cbn [negb Z.eqb]. unfold bind, ret at 1. rewrite pow10_wraps by lia.
  destruct (Z.leb_spec k 9).
  - rewrite u32_id.
    + pose proof (Z.pow_pos_nonneg 10 k). destruct (Z.eqb_spec (10 ^ k) 0); [lia|reflexivity].
    + split; [apply Z.pow_nonneg; lia|]. eapply Z.le_lt_trans; [apply (Z.pow_le_mono_r 10 k 9)|]; lia.
  - destruct (Z.ltb_spec k 32).
    + assert (u32 (10 ^ k) <> 0) as Hnz.
      { assert (In k [10;11;12;13;14;15;16;17;18;19;20;21;22;23;24;25;26;27;28;29;30;31]) as Hin
          by (simpl; lia).
        repeat (destruct Hin as [<-|Hin]; [vm_compute; congruence|]). destruct Hin. }
      destruct (Z.eqb_spec (u32 (10 ^ k)) 0); [contradiction|reflexivity].
    + assert (u32 (10 ^ k) = 0) as ->.
      { unfold u32. replace k with (32 + (k - 32)) by lia. rewrite Z.pow_add_r by lia.
        change (10 ^ 32) with (5 ^ 32 * 2 ^ 32). rewrite <- Z.mul_assoc, (Z.mul_comm (2 ^ 32)), Z.mul_assoc.
        apply Z.mod_mul. lia. }
      reflexivity.
Qed.

Lemma tsresol_of_decimal_witness :
  tsresol_of 10 (pcap_alloc_pcap_t PrivNone) = Ok 1410065408 (pcap_alloc_pcap_t PrivNone).
Proof. apply (tsresol_of_decimal 10 (pcap_alloc_pcap_t PrivNone)). split; vm_compute; congruence. Defined.

(** A further interface of the same type as the first is refused when the LINKTYPE_ code
    of that type differs from its DLT_ code, because the code of the block is compared with
    the DLT_ value kept in the handle. *)
Theorem ng_idb_same_type_refused `{Alloc} DLT_PFSYNC p c l :
  (cur_data c + 8 <= length (p_buffer p))%nat -> sizeof_idb <= data_remaining c ->
  swap16 (p_swapped p) (field (p_buffer p) (cur_data c) 2) = l ->
  p_linktype p = linktype_to_dlt DLT_PFSYNC l -> linktype_to_dlt DLT_PFSYNC l <> l ->
  ng_idb c p = Err (ErrIfType l) (set_p_errbuf (Some (ErrIfType l)) p).
Proof.
  intros Hb Hr Hl Hlt Hne. unfold ng_idb, get_from_block_data.
  destruct (Z.ltb_spec (data_remaining c) sizeof_idb); [lia|].
  unfold bind, ret, buf16, buf32, buf_bytes, bind, get_p, ret, get_field.
  rewrite !decide_True by lia. rewrite Nat.add_0_r. fold (field (p_buffer p) (cur_data c) 2). rewrite Hl.
  destruct (Z.eqb_spec (p_linktype p) l); [congruence|reflexivity].
Qed.

(** A raw IP capture: LINKTYPE_RAW is 101, DLT_RAW is 12. *)
Definition raw_reader : pcap_t :=
  set_p_linktype 12 (set_p_buffer ([x65; x00; x00; x00; x00; x00; x01; x00] ++ replicate 8 x00)
                       (pcap_alloc_pcap_t PrivNone)).

Lemma ng_idb_same_type_refused_witness :
  ng_idb (H := zeroing_malloc) (mk_cursor 0 8 BT_IDB) raw_reader
  = Err (ErrIfType 101) (set_p_errbuf (Some (ErrIfType 101)) raw_reader).
Proof.
  apply (ng_idb_same_type_refused (H := zeroing_malloc) 246 raw_reader (mk_cursor 0 8 BT_IDB) 101);
    vm_compute; first [reflexivity | lia | congruence].
Defined.
