(* ===== verification/Savefile.v ===== *)
(** * Savefiles (savefile.c) and the packet loop (pcap.c)

    Opening a stream as whichever format recognises it, the operations of a savefile
    handle, [pcap_offline_read] and the calls built on it. The filter runs with a step
    bound and initial scratch memory given as arguments ([BpfFilter.bpf_filter]). *)
From stdpp Require Import base numbers list strings.
From Stdlib Require Import Strings.Byte.
From S2P Require Import Prelude BpfInsn BpfFilter LinkType UsbHeader Pcap SfPcap SfPcapProofs SfPcapNg SfPcapNgProofs.
Open Scope Z_scope.

(** ** Opening *)

Inductive open_result :=
| Opened (p : pcap_t)
| OpenErr (e : pcap_error)
| OpenUndef (u : ub).

Section Open.
Context `{Alloc} (DLT_PFSYNC : Z) (alloc_ok : bool).

(** [check_headers[]] *)
Definition check_headers : list (Z -> FILE -> Z -> check_result) :=
  [ pcap_check_header DLT_PFSYNC alloc_ok; pcap_ng_check_header DLT_PFSYNC alloc_ok ].

(** At [found:]. *)
Definition sf_found (p : pcap_t) : pcap_t := set_p_activated true (set_p_ops OpsSavefile p).

Fixpoint try_headers (fs : list (Z -> FILE -> Z -> check_result)) (magic : Z) (fp : FILE) (precision : Z)
  : open_result :=
  match fs with
  | [] => OpenErr ErrUnknownFormat
  | f :: fs' =>
      match f magic fp precision with
      | CkOpen p => Opened (sf_found p)
      | CkNotThis fp' => try_headers fs' magic fp' precision
      | CkErr e => OpenErr e
      | CkUndef u => OpenUndef u
      end
  end.

Definition pcap_fopen_offline_with_tstamp_precision (fp : FILE) (precision : Z) : open_result :=
  let (bs, fp) := fread 4 fp in
  let amt_read := Z.of_nat (length bs) in
  if negb (amt_read =? 4) then OpenErr (if f_err fp then ErrRead else ErrTruncFileHeader 4 amt_read)
  else try_headers check_headers (le_val bs) fp precision.

Definition pcap_fopen_offline (fp : FILE) : open_result :=
  pcap_fopen_offline_with_tstamp_precision fp PCAP_TSTAMP_PRECISION_MICRO.

(** [fopen_r] is the stream [fopen(fname, "r")] gives, or standard input for "-". *)
Definition pcap_open_offline_with_tstamp_precision (fopen_r : option FILE) (precision : Z) : open_result :=
  match fopen_r with
  | None => OpenErr ErrFopen
  | Some fp => pcap_fopen_offline_with_tstamp_precision fp precision
  end.

Definition pcap_open_offline (fopen_r : option FILE) : open_result :=
  pcap_open_offline_with_tstamp_precision fopen_r PCAP_TSTAMP_PRECISION_MICRO.
End Open.

(** ** Operations a savefile does not have: the status and the message *)

Definition sf_getnonblock (p : pcap_t) : Z * pcap_t := (0, p).
Definition sf_setnonblock (p : pcap_t) (nonblock : Z) : Z * pcap_t :=
  (-1, set_p_errbuf (Some ErrNoNonblock) p).
Definition sf_stats (p : pcap_t) : Z * pcap_t := (-1, set_p_errbuf (Some ErrNoStats) p).
Definition sf_inject (p : pcap_t) (buf : list byte) : Z * pcap_t :=
  (-1, set_p_errbuf (Some ErrNoInject) p).
Definition sf_setdirection (p : pcap_t) (d : Z) : Z * pcap_t :=
  (-1, set_p_errbuf (Some ErrNoDirection) p).

(** ** Installing a filter (optimize.c) *)

(** The program is checked, the old one freed, the new one copied; without memory for the
    copy no program is left installed. *)
Definition install_bpf_program `{Alloc} (p : pcap_t) (fp : list bpf_insn) : Z * pcap_t :=
  if negb (bpf_validate fp) then (-1, set_p_errbuf (Some ErrBpfInvalid) p)
  else match malloc (8 * Z.of_nat (length fp)) with
       | None => (-1, set_p_errbuf (Some ErrMalloc) (set_p_fcode None p))
       | Some _ => (0, set_p_fcode (Some fp) p)
       end.

(** ** Reading packets *)

Inductive read_result (U : Type) :=
| RdRet (n : Z) (p : pcap_t) (u : U)
| RdUndef (u : ub)
| RdFilter (o : outcome)
| RdFuel.
Arguments RdRet {U} n p u.
Arguments RdUndef {U} u.
Arguments RdFilter {U} o.
Arguments RdFuel {U}.

Section Read.
Context (next_packet_op : M (option (pcap_pkthdr * list byte))).
Context (filter_fuel : nat) (mem : list Z).
Context {U : Type} (callback : U -> pcap_pkthdr -> list byte -> U * bool).

(** [fcode == NULL || bpf_filter(fcode, data, h.len, h.caplen)] *)
Definition accepts (p : pcap_t) (h : pcap_pkthdr) (d : list byte) : sum outcome bool :=
  match p_fcode p with
  | None => inr true
  | Some f =>
      match bpf_filter filter_fuel mem (Some f) d (len h) (caplen h) with
      | Return v => inr (negb (v =? 0))
      | o => inl o
      end
  end.

(** The callback returns its new state and whether it called [pcap_breakloop]. *)
Definition pcap_breakloop (p : pcap_t) : pcap_t := set_p_break_loop true p.

Fixpoint offline_loop (fuel : nat) (cnt n : Z) (p : pcap_t) (u : U) : read_result U :=
  match fuel with
  | O => RdFuel
  | S fuel' =>
      if p_break_loop p then
        if n =? 0 then RdRet (-2) (set_p_break_loop false p) u else RdRet n p u
      else
        match next_packet_op p with
        | Undef x => RdUndef x
        | Err _ p => RdRet (-1) p u
        | Ok None p => RdRet 0 p u
        | Ok (Some (h, d)) p =>
            match accepts p h d with
            | inl o => RdFilter o
            | inr false => offline_loop fuel' cnt n p u
            | inr true =>
                let (u, brk) := callback u h d in
                let p := if (brk : bool) then pcap_breakloop p else p in
                let n := s32 (n + 1) in
                if (cnt <=? n) && (0 <? cnt) then RdRet n p u
                else offline_loop fuel' cnt n p u
            end
        end
  end.

Definition pcap_offline_read (p : pcap_t) (cnt : Z) (u : U) : read_result U :=
  offline_loop (S (left_p p)) cnt 0 p u.

(** [pcap_loop] on a savefile. *)
Fixpoint loop_offline (fuel : nat) (cnt : Z) (p : pcap_t) (u : U) : read_result U :=
  match fuel with
  | O => RdFuel
  | S fuel' =>
      match pcap_offline_read p cnt u with
      | RdRet n p u =>
          if n <=? 0 then RdRet n p u
          else if negb (cnt <=? 0) then
            if cnt - n <=? 0 then RdRet 0 p u else loop_offline fuel' (cnt - n) p u
          else loop_offline fuel' cnt p u
      | r => r
      end
  end.

(** Two rounds are enough: [pcap_loop_savefile]. *)
Definition pcap_loop (p : pcap_t) (cnt : Z) (u : U) : read_result U := loop_offline 2 cnt p u.
End Read.

Section OneShot.
Context (next_packet_op : M (option (pcap_pkthdr * list byte))) (filter_fuel : nat) (mem : list Z).

(** [pcap_oneshot]: copy the header and the data pointer. *)
Definition pcap_oneshot (u : option (pcap_pkthdr * list byte)) (h : pcap_pkthdr) (d : list byte)
  : option (pcap_pkthdr * list byte) * bool := (Some (h, d), false).

(** A null pointer unless a packet was read. *)
Definition pcap_next (p : pcap_t) : read_result (option (pcap_pkthdr * list byte)) :=
  match pcap_offline_read next_packet_op filter_fuel mem pcap_oneshot p 1 None with
  | RdRet n p u => RdRet n p (if n <=? 0 then None else u)
  | r => r
  end.

(** End of file, 0 for [pcap_offline_read], is -2 here. *)
Definition pcap_next_ex (p : pcap_t) : read_result (option (pcap_pkthdr * list byte)) :=
  match pcap_offline_read next_packet_op filter_fuel mem pcap_oneshot p 1 None with
  | RdRet n p u => RdRet (if n =? 0 then -2 else n) p u
  | r => r
  end.
End OneShot.

(** The reader the format set: [p->next_packet_op]. *)
Definition next_packet_op `{Alloc} : M (option (pcap_pkthdr * list byte)) := fun p =>
  match p_priv p with
  | PrivSf _ => pcap_next_packet p
  | PrivNg _ => pcap_ng_next_packet p
  | PrivNone => Undef UbAccess
  end.
