(* ===== verification/SavefileProofs.v ===== *)
(** * Reading a savefile: the packet loop, and what was written comes back *)
From stdpp Require Import base numbers list strings.
From Stdlib Require Import Strings.Byte.
From S2P Require Import Prelude BpfInsn BpfFilter BpfFilterProofs LinkType UsbHeader Pcap SfPcap SfPcapProofs SfPcapNg SfPcapNgProofs Savefile.
Open Scope Z_scope.

Section Loop.
Context {Ub : ub -> Prop} {op : M (option (pcap_pkthdr * list byte))} {inv : pcap_t -> Prop}.
Context `{HN : !NextPacket Ub op inv}.
Context (filter_fuel : nat) (mem : list Z).
Context {U : Type} (callback : U -> pcap_pkthdr -> list byte -> U * bool).
Abbreviation accepts := (accepts filter_fuel mem).
Abbreviation offline_loop := (offline_loop op filter_fuel mem callback).

(** The reader, called again and again from [p], gives these packets and leaves [q]. *)
Inductive gives : pcap_t -> list (pcap_pkthdr * list byte) -> pcap_t -> Prop :=
| gives_nil p : gives p [] p
| gives_cons p pk p1 pks q : op p = Ok (Some pk) p1 -> gives p1 pks q -> gives p (pk :: pks) q.

(** The filter of [p] on a packet; whether it comes to a decision, and which. *)
Definition decided (p : pcap_t) (pk : pcap_pkthdr * list byte) : Prop := exists b, accepts p pk.1 pk.2 = inr b.
Definition passes (p : pcap_t) (pk : pcap_pkthdr * list byte) : bool :=
  match accepts p pk.1 pk.2 with inr b => b | inl _ => false end.
(** Those of the packets that pass. *)
Abbreviation passing p pks := (List.filter (passes p) pks).

(** The callback called on each packet, in order; the last call, and no other, may be the one
    that breaks the loop, which is what the last argument says. *)
Inductive calls : U -> list (pcap_pkthdr * list byte) -> U -> bool -> Prop :=
| calls_nil u : calls u [] u false
| calls_break u pk u' : callback u pk.1 pk.2 = (u', true) -> calls u [pk] u' true
| calls_cons u pk u1 ds u' brk : callback u pk.1 pk.2 = (u1, false) -> calls u1 ds u' brk -> calls u (pk :: ds) u' brk.

(** How the loop ends after the packets [pks], the reader being at [q] and [t] packets
    delivered: at an error or the end of the file, before the count is reached and without
    a break; or with a packet that is delivered and is the last one asked for or breaks the
    loop. *)
Inductive ends (cnt t : Z) (p : pcap_t) (pks : list (pcap_pkthdr * list byte)) (q : pcap_t) : bool -> Z -> pcap_t -> Prop :=
| end_error e p' : op q = Err e p' -> (0 < cnt -> t < cnt) -> ends cnt t p pks q false (-1) p'
| end_eof p' : op q = Ok None p' -> (0 < cnt -> t < cnt) -> ends cnt t p pks q false 0 p'
| end_count pks1 pk brk : pks = pks1 ++ [pk] -> passes p pk = true -> 0 < t -> (0 < cnt -> t <= cnt) ->
    t = cnt \/ brk = true -> inv q ->
    ends cnt t p pks q brk t (if (brk : bool) then pcap_breakloop q else q).

(** The whole of a run from [p], [n] packets having been delivered. *)
Definition loop_ok (cnt n : Z) (p : pcap_t) (u : U) (r : read_result U) : Prop :=
  match r with
  | RdFuel => False
  | RdUndef x => Ub x
  | RdFilter o => exists pks pk q, gives p (pks ++ [pk]) q /\ accepts p pk.1 pk.2 = inl o /\ packet_sized pk.1 pk.2
  | RdRet m p' u' =>
      exists pks q brk, gives p pks q /\ Forall (decided p) pks /\ calls u (passing p pks) u' brk /\
        ends cnt (n + Z.of_nat (length (passing p pks))) p pks q brk m p' /\ p_fcode p' = p_fcode p
  end.

Lemma accepts_fcode p p' h d : p_fcode p' = p_fcode p -> accepts p' h d = accepts p h d.
Proof. unfold Savefile.accepts. now intros ->. Qed.

Lemma passing_fcode p p' pks : p_fcode p' = p_fcode p -> passing p' pks = passing p pks.
Proof.
  intros E. apply List.filter_ext. intros pk. unfold passes. now rewrite (accepts_fcode _ _ _ _ E).
Qed.

Lemma decided_fcode p p' pks : p_fcode p' = p_fcode p -> Forall (decided p') pks -> Forall (decided p) pks.
Proof.
  intros E H. eapply Forall_impl; [exact H|]. intros pk [b Hb]. exists b. now rewrite <- (accepts_fcode _ _ _ _ E).
Qed.

(** The loop goes on from [p1] after the packet [pk], which was delivered or not. *)
Lemma loop_ok_cons cnt n p p1 pk u u1 r :
  op p = Ok (Some pk) p1 -> p_fcode p1 = p_fcode p ->
  (if passes p pk then callback u pk.1 pk.2 = (u1, false) else u1 = u) -> decided p pk ->
  loop_ok cnt (if passes p pk then n + 1 else n) p1 u1 r -> loop_ok cnt n p u r.
Proof.
  intros Eop E Hu Hd. destruct r as [m q u'|x|o|]; simpl; auto.
  - intros (pks & q' & brk & Hg & Hds & Hc & He & Hf). exists (pk :: pks), q', brk.
    split; [now apply gives_cons with p1|]. split; [constructor; [exact Hd|now apply decided_fcode with p1]|].
    rewrite (passing_fcode _ _ _ E) in Hc, He. cbn [List.filter].
    split; [destruct (passes p pk); [now apply calls_cons with u1|now subst u1]|]. split; [|congruence].
    assert ((if passes p pk then n + 1 else n) + Z.of_nat (length (passing p pks))
            = n + Z.of_nat (length (if passes p pk then pk :: passing p pks else passing p pks))) as <-
      by (destruct (passes p pk); cbn [length]; lia).
    destruct He as [e p' ? ?|p' ? ?|pks1 pk1 b -> Hp ? ? ? ?]; [eapply end_error; eauto|eapply end_eof; eauto|].
    apply end_count with (pk :: pks1) pk1; auto.
    revert Hp. unfold passes. now rewrite (accepts_fcode _ _ _ _ E).
  - intros (pks & pk1 & q & Hg & Ha & Hs). exists (pk :: pks), pk1, q.
    split; [now apply gives_cons with p1|]. now rewrite <- (accepts_fcode _ _ _ _ E).
Qed.

(** One packet delivered, the last. *)
Lemma loop_ok_last cnt n p p1 pk u u1 brk : inv p1 ->
  op p = Ok (Some pk) p1 -> p_fcode p1 = p_fcode p -> accepts p pk.1 pk.2 = inr true ->
  callback u pk.1 pk.2 = (u1, brk) -> 0 <= n -> (0 < cnt -> n < cnt) -> n + 1 = cnt \/ brk = true ->
  loop_ok cnt n p u (RdRet (n + 1) (if brk then pcap_breakloop p1 else p1) u1).
Proof.
  intros Hi Eop E Ha Hcb Hn Hcnt Hwhy. assert (passes p pk = true) as Hp by (unfold passes; now rewrite Ha).
  exists [pk], p1, brk. split; [apply gives_cons with p1; [exact Eop|constructor]|].
  split; [repeat constructor; now exists true|]. cbn [List.filter]. rewrite Hp. cbn [length].
  split; [destruct brk; [now constructor|eapply calls_cons; [exact Hcb|constructor]]|].
  split; [|destruct brk; exact E]. apply end_count with [] pk; auto; lia.
Qed.

Lemma offline_loop_ok fuel cnt n p u :
  inv p -> p_break_loop p = false -> (left_p p < fuel)%nat -> 0 <= n -> n + Z.of_nat (left_p p) < 2 ^ 31 - 1 ->
  (0 < cnt -> n < cnt) -> loop_ok cnt n p u (offline_loop fuel cnt n p u).
Proof.
  revert n p u. induction fuel as [|fuel IH]; intros n p u Hinv Eb Hf Hn Hbound Hcnt; [lia|].
  cbn [Savefile.offline_loop]. rewrite Eb.
  pose proof (np_run p Hinv) as Hrun. unfold wp in Hrun.
  assert (forall m p', ends cnt n p [] p false m p' -> p_fcode p' = p_fcode p -> loop_ok cnt n p u (RdRet m p' u)) as Hstop.
  { intros m p' He Hp'. exists [], p, false. cbn. rewrite Z.add_0_r. repeat (split; [constructor|]). now split. }
  destruct (op p) as [[[h d]|] p'|e p'|x] eqn:Eop; [| | |exact Hrun].
  2:{ apply Hstop; [now apply end_eof|apply Hrun]. }
  2:{ apply Hstop; [now apply end_error with e|apply Hrun]. }
  destruct Hrun as ((Ebl & Efc & _) & Hinv' & Hleft & Hsized). rewrite (accepts_fcode _ _ _ _ Efc).
  destruct (accepts p h d) as [o|acc] eqn:Ea.
  { exists [], (h, d), p'. split; [apply gives_cons with p'; [exact Eop|constructor]|now split]. }
  assert (decided p (h, d)) as Hdec by now exists acc.
  assert (passes p (h, d) = acc) as Hp by (unfold passes; cbn [fst snd]; now rewrite Ea).
  destruct acc.
  2:{ apply (loop_ok_cons cnt n p p' (h, d) u u); auto; rewrite Hp; [reflexivity|]. apply IH; auto; [congruence|lia..]. }
  destruct (callback u h d) as [u1 brk] eqn:Ecb. rewrite (s32_id (n + 1)) by lia.
  destruct ((cnt <=? n + 1) && (0 <? cnt)) eqn:Ec.
  { apply loop_ok_last with (h, d); auto; lia. }
  destruct brk.
  - destruct fuel as [|fuel]; [lia|]. cbn [Savefile.offline_loop p_break_loop pcap_breakloop set_p_break_loop].
    destruct (Z.eqb_spec (n + 1) 0); [lia|].
    change (RdRet (n + 1) (pcap_breakloop p') u1) with (RdRet (n + 1) (if true then pcap_breakloop p' else p') u1).
    apply loop_ok_last with (h, d); auto.
  - apply (loop_ok_cons cnt n p p' (h, d) u u1); auto; rewrite Hp; [exact Ecb|]. apply IH; auto; [congruence|lia..].
Qed.

Lemma offline_read_broken p cnt u : p_break_loop p = true ->
  pcap_offline_read op filter_fuel mem callback p cnt u = RdRet (-2) (set_p_break_loop false p) u.
Proof. intros Hb. unfold pcap_offline_read. cbn [Savefile.offline_loop]. now rewrite Hb. Qed.

(** C26: Reading from a savefile. Told to break before the first packet, the loop returns -2,
    calls nothing and clears the flag. Otherwise it comes to an end, and the packets handed to
    the callback are exactly those among the packets the reader gives that pass the filter,
    each once and in order. It returns -1 on an error of the reader and 0 at the end of the
    file, if the count was not reached and the callback did not break the loop before;
    otherwise it stops right behind a packet delivered, the last of the [cnt] asked for or
    the one on which the callback broke the loop, and returns the number delivered. The only
    undefined behaviour is the reader's, and the only other end a fault of the filter program
    on a packet the reader gave. *)
Theorem pcap_offline_read_delivers p cnt u :
  inv p -> Z.of_nat (left_p p) < 2 ^ 31 - 1 ->
  let r := pcap_offline_read op filter_fuel mem callback p cnt u in
  if p_break_loop p then r = RdRet (-2) (set_p_break_loop false p) u else loop_ok cnt 0 p u r.
Proof.
  intros Hinv Hl r. destruct (p_break_loop p) eqn:Eb; [now apply offline_read_broken|].
  apply offline_loop_ok; auto; lia.
Qed.

(** What is left of the ends: the number becomes 0 when it is the one asked for, and -2 when
    the callback broke the loop before that. *)
Definition loop_savefile_post (cnt : Z) (p : pcap_t) (u : U) (r : read_result U) : Prop :=
  match r with
  | RdFuel => False
  | RdUndef x => Ub x
  | RdFilter o => exists pks pk q, gives p (pks ++ [pk]) q /\ accepts p pk.1 pk.2 = inl o /\ packet_sized pk.1 pk.2
  | RdRet m p' u' =>
      exists pks q brk, gives p pks q /\ Forall (decided p) pks /\ calls u (passing p pks) u' brk /\
        let t := Z.of_nat (length (passing p pks)) in (0 < cnt -> t <= cnt) /\
        (m = -1 /\ brk = false /\ (exists e, op q = Err e p') \/
         m = 0 /\ brk = false /\ op q = Ok None p' \/
         m = 0 /\ 0 < cnt /\ t = cnt \/
         m = -2 /\ brk = true /\ ~ (0 < cnt /\ t = cnt) /\ p_break_loop p' = false)
  end.

Lemma loop_savefile_ok p cnt u :
  inv p -> Z.of_nat (left_p p) < 2 ^ 31 - 1 ->
  let r := pcap_loop op filter_fuel mem callback p cnt u in
  if p_break_loop p then r = RdRet (-2) (set_p_break_loop false p) u else loop_savefile_post cnt p u r.
Proof.
  intros Hinv Hl r. subst r. unfold pcap_loop. cbn [loop_offline]. destruct (p_break_loop p) eqn:Eb.
  { now rewrite offline_read_broken. }
  assert (loop_ok cnt 0 p u (pcap_offline_read op filter_fuel mem callback p cnt u)) as Hok
    by (apply offline_loop_ok; auto; lia).
  destruct (pcap_offline_read _ _ _ _ p cnt u) as [m p' u'|x|o|]; auto.
  destruct Hok as (pks & q & brk & Hg & Hd & Hc & He & Hf). rewrite Z.add_0_l in He.
  assert (forall m p', 
    ((0 < cnt -> Z.of_nat (length (passing p pks)) <= cnt) /\
     (m = -1 /\ brk = false /\ (exists e, op q = Err e p') \/
      m = 0 /\ brk = false /\ op q = Ok None p' \/
      m = 0 /\ 0 < cnt /\ Z.of_nat (length (passing p pks)) = cnt \/
      m = -2 /\ brk = true /\ ~ (0 < cnt /\ Z.of_nat (length (passing p pks)) = cnt) /\ p_break_loop p' = false)) ->
    loop_savefile_post cnt p u (RdRet m p' u')) as Hret
    by (intros m1 p1 H1; exists pks, q, brk; auto).
  set (t := Z.of_nat (length (passing p pks))) in *.
  destruct He as [e p' He Ht|p' He Ht|pks1 pk brk Ep Hp Ht Hle Hwhy Hi].
  - apply Hret. split; [lia|]. left. eauto.
  - apply Hret. split; [lia|]. right. left. auto.
  - destruct (Z.leb_spec t 0); [lia|]. destruct (Z.leb_spec cnt 0); cbn [negb].
    + destruct Hwhy as [| ->]; [lia|]. rewrite offline_read_broken by reflexivity. cbn.
      apply Hret. split; [lia|]. do 3 right. repeat split; auto; lia.
    + destruct (Z.leb_spec (cnt - t) 0).
      * apply Hret. split; [lia|]. right. right. left. repeat split; lia.
      * destruct Hwhy as [| ->]; [lia|]. rewrite offline_read_broken by reflexivity. cbn.
        apply Hret. split; [lia|]. do 3 right. repeat split; auto; lia.
Qed.

End Loop.

(** ** Any file *)

(** The invariant of the reader that [next_packet_op] points to. *)
Definition any_inv (p : pcap_t) : Prop := sf_inv p \/ exists L, ng_inv L p.

Lemma next_packet_op_sf `{Alloc} p : sf_inv p -> next_packet_op p = pcap_next_packet p.
Proof. intros [Hp _ _ _]. unfold next_packet_op, sf_priv_ok in *. now destruct (p_priv p). Qed.

Lemma next_packet_op_ng `{Alloc} L p : ng_inv L p -> next_packet_op p = pcap_ng_next_packet p.
Proof. intros [_ _ _ _ (ps & E & _)]. unfold next_packet_op. now rewrite E. Qed.

#[export] Instance next_packet_op_contract `{Alloc} : NextPacket up_to_shift next_packet_op any_inv.
Proof.
  split.
  - intros p [Hp|[L Hp]]; unfold wp.
    + rewrite next_packet_op_sf by exact Hp.
      eapply wp_conseq; [apply wp_defined, (np_run p Hp)| |auto].
      intros [[h d]|] p' [Hs Hr]; (split; [exact Hs|]); [|exact I].
      destruct Hr as (? & ? & ?). split; [now left|]. now split.
    + rewrite (next_packet_op_ng L) by exact Hp.
      eapply wp_conseq; [apply (np_run (NextPacket := pcap_ng_next_packet_contract L) p Hp)| |auto].
      intros [[h d]|] p' [Hs Hr]; (split; [exact Hs|]); [|exact I].
      destruct Hr as (? & ? & ?). split; [right; now exists L|]. now split.
  - intros b p [Hp|[L Hp]]; [left|right; exists L]; now apply np_break.
Qed.

Lemma sf_found_inv p : any_inv p -> any_inv (sf_found p) /\ left_p (sf_found p) = left_p p.
Proof. intros [[]|[L []]]; (split; [|reflexivity]); [left|right; exists L]; now split. Qed.

Lemma fopen_offline_inv `{Alloc} DLT_PFSYNC alloc_ok fp precision :
  Z.of_nat (length (f_data fp)) < 12 * 2 ^ 31 - 24 ->
  match pcap_fopen_offline_with_tstamp_precision DLT_PFSYNC alloc_ok fp precision with
  | Opened p => any_inv p /\ (left_p p <= length (f_data fp))%nat
  | OpenErr _ => True
  | OpenUndef u => u = UbShift \/ u = UbOverflow
  end.
Proof.
  intros HL. unfold pcap_fopen_offline_with_tstamp_precision, fread.
  set (fp' := mk_FILE _ _). assert (length (f_data fp') <= length (f_data fp))%nat as Hle
    by (simpl; rewrite length_drop; lia).
  destruct (negb _); [exact I|]. unfold check_headers. cbn [try_headers].
  pose proof (check_header_other DLT_PFSYNC alloc_ok (le_val (take (Z.to_nat 4) (f_data fp))) fp' precision) as Hother.
  destruct (pcap_check_header _ _ _ fp' _) as [p|fp1|e|u] eqn:E1; [| |exact I|].
  - apply check_header_inv in E1 as [Hi Hl]. destruct (sf_found_inv p (or_introl Hi)) as [? ->]. split; [assumption|lia].
  - subst fp1.
    pose proof (ng_check_header_ok DLT_PFSYNC alloc_ok (le_val (take (Z.to_nat 4) (f_data fp))) fp' precision) as Hng.
    destruct (pcap_ng_check_header _ _ _ fp' _) as [p|fp2|e|u]; [|exact I|exact I|left; apply Hng; lia].
    specialize (Hng ltac:(lia)). destruct (sf_found_inv p (or_intror (ex_intro _ _ Hng))) as [? ->].
    split; [assumption|]. destruct Hng as [_ _ _ _ (ps & _ & [])]. lia.
  - now right.
Qed.

(** ** Filters *)

(** A filter [bpf_validate] accepts, of known instructions and without backward jumps, with
    as many steps as it is long. *)
Definition sound_filter (filter_fuel : nat) (mem : list Z) (fcode : option (list bpf_insn)) : Prop :=
  match fcode with
  | None => True
  | Some f =>
      bpf_validate f = true /\ forallb wf_insn f = true /\ Z.of_nat (length f) < 2 ^ 31 /\
      forallb forward_insn f = true /\ forallb known_insn f = true /\
      Z.of_nat (length mem) = BPF_MEMWORDS /\ (length f <= filter_fuel)%nat
  end.

(** The faults [bpf_validate] leaves: a read just before the packet, for want of a check that
    does not wrap, and an oversized shift. *)
Definition filter_fault (o : outcome) : Prop :=
  match o with
  | Fault (BadRead off) => -4 <= off < 0
  | Fault (BadShift n) => 32 <= n
  | _ => False
  end.

Lemma sound_filter_fault filter_fuel mem p h d o : sound_filter filter_fuel mem (p_fcode p) ->
  packet_sized h d -> accepts filter_fuel mem p h d = inl o -> filter_fault o.
Proof.
  unfold accepts. destruct (p_fcode p) as [f|]; [|discriminate].
  intros (Hv & Hwf & Hl & Hfw & Hk & Hm & Hfuel) (Hd & Hc & Hw) Ha.
  assert (stop_ok (bpf_filter filter_fuel mem (Some f) d (len h) (caplen h))) as Hs.
  { cbn [bpf_filter]. pose proof (validate_nonempty f Hv). apply run_stops; auto using wf_initial; lia. }
  destruct (bpf_filter _ _ _ _ _ _) as [v| |[]|]; injection Ha as <- || discriminate Ha; exact Hs.
Qed.

(** C3: Reading an arbitrary file of less than 2 GiB, of either format, with any callback and
    any filter [bpf_validate] accepts whose instructions are known and jump forward, to the
    end: opening it fails with a message or gives a handle, and on the handle [pcap_loop]
    returns 0, -1 or -2. There is no access outside a buffer or a table, no division by zero
    and no endless loop. What can still go wrong is, on opening, the snapshot length of a
    file in Kuznetzov's format that overflows when 14 is added to it; the oversized shift of
    a pcap-ng time stamp resolution; and the two faults [bpf_validate] leaves to a filter. *)
Theorem any_savefile_is_safe `{Alloc} DLT_PFSYNC alloc_ok fp precision :
  Z.of_nat (length (f_data fp)) < 2 ^ 31 - 1 ->
  match pcap_fopen_offline_with_tstamp_precision DLT_PFSYNC alloc_ok fp precision with
  | OpenErr _ => True
  | OpenUndef u => u = UbShift \/ u = UbOverflow
  | Opened p =>
      forall filter_fuel mem U (callback : U -> pcap_pkthdr -> list byte -> U * bool) cnt u fcode,
      sound_filter filter_fuel mem fcode ->
      match pcap_loop next_packet_op filter_fuel mem callback (set_p_fcode fcode p) cnt u with
      | RdRet m _ _ => m = 0 \/ m = -1 \/ m = -2
      | RdUndef x => x = UbShift
      | RdFilter o => filter_fault o
      | RdFuel => False
      end
  end.
Proof.
  intros HL. pose proof (fopen_offline_inv DLT_PFSYNC alloc_ok fp precision ltac:(lia)) as Ho.
  destruct (pcap_fopen_offline_with_tstamp_precision _ _ _ _) as [p|e|u0]; [|exact I|exact Ho].
  destruct Ho as [Hi Hl]. intros ff mem U cb cnt u fcode Hsound.
  assert (any_inv (set_p_fcode fcode p)) as Hi'
    by (destruct Hi as [[]|[L []]]; [left|right; exists L]; now split).
  pose proof (loop_savefile_ok (inv := any_inv) ff mem cb (set_p_fcode fcode p) cnt u Hi') as Hloop.
  change (left_p (set_p_fcode fcode p)) with (left_p p) in Hloop. specialize (Hloop ltac:(lia)). cbn zeta in Hloop.
  destruct (p_break_loop _); [rewrite Hloop; auto|].
  destruct (pcap_loop _ _ _ _ _ _ _) as [m p' u'|x|o|]; [| |  |exact Hloop].
  - destruct Hloop as (pks & q & brk & _ & _ & _ & _ & [[? _]|[[? _]|[[? _]|[? _]]]]); auto.
  - exact Hloop.
  - destruct Hloop as (pks & [h d] & q & _ & Ha & Hs). now apply (sound_filter_fault ff mem (set_p_fcode fcode p) h d).
Qed.

(** The filter of the witness: accept what has a byte 12 that is not 0. *)
Definition filter_sample : list bpf_insn :=
  [BPF_STMT (encode_op (LD_ABS SzB)) 12; BPF_STMT (encode_op RET_A) 0].

Lemma any_savefile_is_safe_witness :
  sound_filter 2 (replicate 16 0) (Some filter_sample) /\
  match pcap_fopen_offline_with_tstamp_precision (H := zeroing_malloc) 246 true
          (mk_FILE (le_bytes 4 BT_SHB ++ ng_sample) false) 1 with
  | OpenErr _ => True
  | OpenUndef u => u = UbShift \/ u = UbOverflow
  | Opened p =>
      forall filter_fuel mem U (callback : U -> pcap_pkthdr -> list byte -> U * bool) cnt u fcode,
      sound_filter filter_fuel mem fcode ->
      match pcap_loop (next_packet_op (H := zeroing_malloc)) filter_fuel mem callback (set_p_fcode fcode p) cnt u with
      | RdRet m _ _ => m = 0 \/ m = -1 \/ m = -2
      | RdUndef x => x = UbShift
      | RdFilter o => filter_fault o
      | RdFuel => False
      end
  end.
Proof.
  split; [repeat (split; [vm_compute; reflexivity|]); simpl; lia|].
  apply (any_savefile_is_safe (H := zeroing_malloc) 246 true (mk_FILE (le_bytes 4 BT_SHB ++ ng_sample) false) 1).
  vm_compute. reflexivity.
Defined.

(** A file in Kuznetzov's format with a snapshot length near the largest [int]: adding the
    length of an Ethernet header to it overflows. *)
Theorem snapshot_overflow :
  pcap_fopen_offline_with_tstamp_precision (H := zeroing_malloc) 246 true
    (mk_FILE (file_header_bytes (mk_file_header KUZNETZOV_TCPDUMP_MAGIC 2 4 0 0 (2 ^ 31 - 1) 1)) false) 0
  = OpenUndef UbOverflow.
Proof. vm_compute. reflexivity. Qed.

(** The sample capture, with no filter, counted by the callback. *)
Definition count_callback (n : Z) (h : pcap_pkthdr) (d : list byte) : Z * bool := (n + 1, false).

Lemma pcap_offline_read_delivers_witness :
  let r := pcap_offline_read (pcap_next_packet (H := zeroing_malloc)) 0 [] count_callback sf_sample_reader 5 0 in
  if p_break_loop sf_sample_reader then r = RdRet (-2) (set_p_break_loop false sf_sample_reader) 0
  else loop_ok (Ub := defined) (op := pcap_next_packet (H := zeroing_malloc)) (inv := sf_inv) 0 [] count_callback
         5 0 sf_sample_reader 0 r.
Proof.
  apply (pcap_offline_read_delivers (HN := pcap_next_packet_contract (H := zeroing_malloc))
           0 [] count_callback sf_sample_reader 5 0); [exact sf_sample_reader_inv|vm_compute; reflexivity].
Defined.


(** ** What was written comes back *)

Definition write_magic (p : pcap_t) : Z :=
  if opt_tstamp_precision (p_opt p) =? PCAP_TSTAMP_PRECISION_NANO then NSEC_TCPDUMP_MAGIC else TCPDUMP_MAGIC.

(** A header of the current version. *)
Record header_ok (h : pcap_file_header) : Prop := {
  ho_magic : magic h = TCPDUMP_MAGIC \/ magic h = NSEC_TCPDUMP_MAGIC;
  ho_major : version_major h = PCAP_VERSION_MAJOR;
  ho_minor : version_minor h = PCAP_VERSION_MINOR;
  ho_zone : - 2 ^ 31 <= thiszone h < 2 ^ 31;
  ho_sigfigs : 0 <= sigfigs h < 2 ^ 32;
  ho_snaplen : 0 < snaplen h < 2 ^ 31;
  ho_linktype : 0 <= linktype h < 2 ^ 32 }.

Definition savefile_image (other : bool) (h : pcap_file_header) (pkts : list (pcap_pkthdr * list byte)) : list byte :=
  file_header_image other h ++ concat (map (record_image other) pkts).

(** The handle opened on such a file. *)
Definition opened_handle (DLT_PFSYNC : Z) (other : bool) (h : pcap_file_header) (sc : tstamp_scale_type_t) (p : pcap_t) : Prop :=
  p_swapped p = other /\ p_snapshot p = snaplen h /\ p_tzoff p = thiszone h /\
  p_version_major p = 2 /\ p_version_minor p = 4 /\
  p_linktype p = linktype_to_dlt DLT_PFSYNC (LT_LINKTYPE (linktype h)) /\
  p_linktype_ext p = s32 (LT_LINKTYPE_EXT (linktype h)) /\
  p_priv p = PrivSf (mk_sf sizeof_sf_pkthdr NOT_SWAPPED sc) /\
  p_bufsize p = snaplen h /\ Z.of_nat (length (p_buffer p)) = snaplen h /\ p_activated p = true.

Lemma check_magic_either (other : bool) m : m = TCPDUMP_MAGIC \/ m = NSEC_TCPDUMP_MAGIC ->
  check_magic (le_val (order_bytes other 4 m)) = Some (m, other).
Proof. intros [-> | ->]; destruct other; vm_compute; reflexivity. Qed.

Lemma read_header_either (other : bool) h : header_ok h ->
  (if other then swap_file_header else id)
    (read_file_header (magic h) (drop 4 (file_header_image other h))) = h.
Proof.
  destruct h as [m ma mi z sg sn lt]. intros [_ E1 E2 Hz Hg Hn Hl]. simpl in *. subst ma mi.
  pose proof (order_field_signed other z Hz) as F3. pose proof (order_field other sg) as F4.
  pose proof (order_field other sn) as F5. pose proof (order_field other lt) as F6.
  rewrite u32_id in F4, F5, F6 by lia.
  destruct other; unfold swap_file_header, id, read_file_header;
    cbn [magic version_major version_minor thiszone sigfigs snaplen linktype];
    (f_equal; [exact F3|exact F4|exact F5|exact F6]).
Qed.

Section Image.
Context `{Alloc} (DLT_PFSYNC : Z) (other : bool).

Lemma open_image h sc precision b pkts :
  header_ok h -> sf_scale_type precision (magic h) = Some sc -> malloc (snaplen h) = Some b ->
  exists p, pcap_fopen_offline_with_tstamp_precision DLT_PFSYNC true
              (mk_FILE (savefile_image other h pkts) false) precision = Opened p /\
    opened_handle DLT_PFSYNC other h sc p /\
    p_rfile p = Some (mk_FILE (concat (map (record_image other) pkts)) false).
Proof.
  intros Hok Hsc Hb. pose proof Hok as [Hm E1 E2 Hz Hg Hn Hl].
  set (recs := concat _).
  assert (take 4 (savefile_image other h pkts) = order_bytes other 4 (magic h)) as Ht4
    by (destruct other; reflexivity).
  assert (take 20 (drop 4 (savefile_image other h pkts)) = drop 4 (file_header_image other h)) as Ht20
    by (destruct other; reflexivity).
  assert (drop 20 (drop 4 (savefile_image other h pkts)) = recs) as Hd20 by (destruct other; reflexivity).
  unfold pcap_fopen_offline_with_tstamp_precision, fread. cbn [f_data f_err].
  change (Z.to_nat 4) with 4%nat. rewrite Ht4, length_order_bytes. cbn [negb Z.eqb Z.of_nat Pos.of_succ_nat Pos.succ Pos.eqb].
  unfold check_headers. cbn [try_headers].
  unfold pcap_check_header. rewrite check_magic_either by assumption. unfold fread. cbn [f_data f_err].
  change (Z.to_nat (sizeof_file_header - 4)) with 20%nat. rewrite Ht20, Hd20.
  assert (Z.of_nat (length (drop 4 (file_header_image other h))) = 20) as -> by (destruct other; reflexivity).
  cbn [negb Z.eqb Pos.eqb sizeof_file_header Z.sub Z.opp Z.add Z.pos_sub Pos.pred_double].
  assert ((if other then swap_file_header (read_file_header (magic h) (drop 4 (file_header_image other h)))
           else read_file_header (magic h) (drop 4 (file_header_image other h))) = h) as ->
    by (pose proof (read_header_either other h Hok) as Hr; now destruct other).
  rewrite E1. cbn [Z.ltb Z.compare PCAP_VERSION_MAJOR Pos.compare Pos.compare_cont].
  unfold pcap_open_offline_common, sf_setup. rewrite Hsc, E1, E2.
  assert ((magic h =? KUZNETZOV_TCPDUMP_MAGIC) = false) as -> by (destruct Hm as [-> | ->]; reflexivity).
  cbn [andb]. cbn [p_snapshot set_p_opt set_p_linktype_ext set_p_linktype set_p_snapshot].
  rewrite s32_id by lia. destruct (Z.leb_spec (snaplen h) 0); [lia|]. rewrite Hb.
  eexists; split; [reflexivity|]. split; [|reflexivity].
  apply malloc_length in Hb; [|lia]. unfold opened_handle. simpl.
  repeat split; auto.
Qed.

Lemma open_image_reads_at h sc p bytes :
  opened_handle DLT_PFSYNC other h sc p -> p_rfile p = Some (mk_FILE bytes false) ->
  (other = true -> p_linktype p <> DLT_USB_LINUX /\ p_linktype p <> DLT_USB_LINUX_MMAPPED) ->
  reads_at other sc p bytes false.
Proof. intros (?&?&?&?&?&?&?&?&?&?&?) Hf Hu. repeat split; auto; try congruence; now apply Hu. Qed.
End Image.

(** Read packets to the end of the file, [n] at most. *)
Fixpoint read_all (op : M (option (pcap_pkthdr * list byte))) (n : nat) : M (list (pcap_pkthdr * list byte)) :=
  match n with
  | O => ret []
  | S n' =>
      let! r := op in
      match r with
      | None => ret []
      | Some pkt => let! pkts := read_all op n' in ret (pkt :: pkts)
      end
  end.

Lemma read_all_records `{Alloc} other sc pkts p :
  reads_at other sc p (concat (map (record_image other) pkts)) false ->
  Forall pkt_ok pkts -> Forall (fun pkt => caplen pkt.1 <= p_bufsize p) pkts ->
  exists p', read_all pcap_next_packet (S (length pkts)) p = Ok (map (scaled sc) pkts) p' /\ left_p p' = O.
Proof.
  revert p. induction pkts as [|pkt pkts IH]; intros p Hr Hok Hcap.
  - destruct Hr as (Hpriv & _ & Hf & _). simpl in Hf. cbn [length read_all map].
    unfold bind, pcap_next_packet, get_sf, bind. rewrite Hpriv. unfold fread_p, fread. rewrite Hf.
    cbn. eexists; split; reflexivity.
  - apply Forall_cons in Hok as [Hok1 Hok]. apply Forall_cons in Hcap as [Hc1 Hcap].
    cbn [map concat] in Hr.
    destruct (pcap_next_packet_record other sc p pkt _ false Hr Hok1 Hc1) as (p1 & E1 & Hr1 & Eb).
    destruct (IH p1 Hr1 Hok) as (p2 & E2 & Hl); [now rewrite Eb|].
    exists p2. split; [|exact Hl]. cbn [length map].
    change (read_all pcap_next_packet (S (S (length pkts))) p) with
      (bind pcap_next_packet (fun r => match r with None => ret [] | Some pkt =>
         bind (read_all pcap_next_packet (S (length pkts))) (fun pkts => ret (pkt :: pkts)) end) p).
    unfold bind at 1. rewrite E1. unfold bind. now rewrite E2.
Qed.

(** ** Writing *)

Definition dump_all (pkts : list (pcap_pkthdr * list byte)) (f : OFILE) : OFILE :=
  fold_left (fun f pkt => pcap_dump pkt.1 pkt.2 f) pkts f.

Lemma fwrite_room bs f : Z.of_nat (length bs) <= o_room f ->
  fwrite bs f = (true, mk_OFILE (o_data f ++ bs) (o_room f - Z.of_nat (length bs))).
Proof.
  intros Hr. unfold fwrite. rewrite Z.min_l by lia. rewrite Nat2Z.id, firstn_all.
  now rewrite (proj2 (Z.leb_le _ _) Hr).
Qed.

Lemma length_record_image other pkt : Z.of_nat (length (record_image other pkt)) = 16 + Z.of_nat (length pkt.2).
Proof. unfold record_image. rewrite !length_app, !length_order_bytes. lia. Qed.

Lemma pcap_dump_room pkt f : pkt_ok pkt -> Z.of_nat (length (record_image false pkt)) <= o_room f ->
  pcap_dump pkt.1 pkt.2 f
  = mk_OFILE (o_data f ++ record_image false pkt) (o_room f - Z.of_nat (length (record_image false pkt))).
Proof.
  intros (Hs & Hu & Hc & _) Hr. rewrite length_record_image in Hr |- *. unfold pcap_dump.
  rewrite !s32_id by assumption. set (hb := sf_pkthdr_bytes _).
  assert (Z.of_nat (length hb) = 16) as Hhb by reflexivity.
  rewrite fwrite_room by lia. rewrite Hc, Nat2Z.id, firstn_all.
  rewrite fwrite_room by (simpl; lia). cbn [o_data o_room]. f_equal; [|lia].
  now rewrite <- app_assoc.
Qed.

Lemma dump_all_room pkts f :
  Forall pkt_ok pkts -> Z.of_nat (length (concat (map (record_image false) pkts))) <= o_room f ->
  o_data (dump_all pkts f) = o_data f ++ concat (map (record_image false) pkts).
Proof.
  revert f. induction pkts as [|pkt pkts IH]; intros f Hok Hr; cbn [dump_all fold_left map concat] in *.
  - now rewrite app_nil_r.
  - apply Forall_cons in Hok as [Hok1 Hok]. rewrite length_app in Hr.
    rewrite pcap_dump_room by (assumption || lia). unfold dump_all in IH.
    rewrite IH by (cbn [o_room]; assumption || lia). cbn [o_data]. now rewrite app_assoc.
Qed.

(** The link-layer type and its extension share the linktype word of the header. *)
Lemma dlt_to_linktype_range pf d :
  dlt_to_linktype pf d <> -1 -> 0 <= dlt_to_linktype pf d < 2 ^ 26.
Proof.
  unfold dlt_to_linktype. destruct (_ =? pf); [vm_compute; split; congruence|].
  destruct (_ && _) eqn:E; [unfold DLT_MATCHING_MIN, DLT_MATCHING_MAX in E; lia|].
  destruct (List.find _ _) as [e|] eqn:Ef; [|congruence]. intros _.
  apply List.find_some in Ef as [Hin _].
  assert (forallb (fun e => (0 <=? e.2) && (e.2 <? 2 ^ 26)) linktype_map = true) as Hall by reflexivity.
  rewrite List.forallb_forall in Hall. specialize (Hall _ Hin). lia.
Qed.

Lemma land_pow2_mask z n : 0 <= n -> z &&& (2 ^ n - 1) = z mod 2 ^ n.
Proof. intros. rewrite <- Z.land_ones by lia. f_equal. rewrite Z.ones_equiv. lia. Qed.

Lemma linktype_word l e :
  0 <= l < 2 ^ 26 -> - 2 ^ 31 <= e < 2 ^ 31 -> e mod 2 ^ 26 = 0 ->
  let w := u32 (s32 (l ||| e)) in LT_LINKTYPE w = l /\ s32 (LT_LINKTYPE_EXT w) = e.
Proof.
  intros Hl He Hz w.
  assert (l ||| e = e + l) as Hlor.
  { rewrite Z.lor_comm. replace e with (e / 2 ^ 26 * 2 ^ 26) by (Z.div_mod_to_equations; lia).
    apply lor_add_disjoint; lia. }
  assert (w = u32 (e + l)) as Hw by (subst w; rewrite Hlor; apply u32_s32).
  unfold LT_LINKTYPE, LT_LINKTYPE_EXT. change 0x03FFFFFF with (2 ^ 26 - 1).
  change 0xFC000000 with ((2 ^ 6 - 1) * 2 ^ 26). rewrite land_pow2_mask, land_field by lia.
  rewrite Hw. clear w Hlor Hw.
  assert (exists k, e = k * 2 ^ 26 /\ -32 <= k < 32) as (k & -> & Hk)
    by (exists (e / 2 ^ 26); Z.div_mod_to_equations; lia).
  assert (exists j, u32 (k * 2 ^ 26 + l) = j * 2 ^ 26 + l /\ 0 <= j < 64 /\ (j = k \/ j = k + 64))
    as (j & -> & Hj & Hjk)
    by (destruct (Z.ltb_spec k 0); [exists (k + 64)|exists k]; (split; [cint|lia])).
  rewrite Z.add_comm, Z.mod_add, Z.mod_small by lia. split; [reflexivity|].
  replace ((l + j * 2 ^ 26) / 2 ^ 26) with j by (rewrite Z.div_add, Z.div_small by lia; lia).
  rewrite Z.mod_small by lia. cint.
Qed.

(** C25: What the library writes it reads back: the file header and packets written with
    [pcap_dump_fopen] and [pcap_dump] open as a capture of the same link-layer type,
    extension, snapshot length and time zone, and reading it to the end gives the packets,
    with their lengths and bytes and with their time stamps scaled from the precision of
    the writer to the one the reader asked for. *)
Theorem savefile_roundtrip `{Alloc} DLT_PFSYNC w room pkts precision sc b :
  dlt_to_linktype DLT_PFSYNC (p_linktype w) <> -1 -> p_linktype w <> DLT_ATM_CLIP ->
  (p_linktype w = LINKTYPE_PFSYNC -> DLT_PFSYNC = LINKTYPE_PFSYNC) ->
  - 2 ^ 31 <= p_linktype_ext w < 2 ^ 31 -> p_linktype_ext w mod 2 ^ 26 = 0 ->
  0 < p_snapshot w < 2 ^ 31 -> - 2 ^ 31 <= p_tzoff w < 2 ^ 31 ->
  sf_scale_type precision (write_magic w) = Some sc -> malloc (p_snapshot w) = Some b ->
  Forall pkt_ok pkts -> Forall (fun pkt => caplen pkt.1 <= p_snapshot w) pkts ->
  24 + Z.of_nat (length (concat (map (record_image false) pkts))) <= room ->
  exists f p p',
    pcap_dump_fopen DLT_PFSYNC w (mk_OFILE [] room) = (Some f, w) /\
    pcap_fopen_offline_with_tstamp_precision DLT_PFSYNC true
      (mk_FILE (o_data (dump_all pkts f)) false) precision = Opened p /\
    (p_linktype p, p_linktype_ext p, p_snapshot p, p_tzoff p)
      = (p_linktype w, p_linktype_ext w, p_snapshot w, p_tzoff w) /\
    read_all pcap_next_packet (S (length pkts)) p = Ok (map (scaled sc) pkts) p' /\ left_p p' = O.
Proof.
  intros Hdlt Hclip Hpf Hext Hextm Hsnap Hzone Hsc Hm Hok Hcap Hroom.
  pose proof (dlt_to_linktype_range DLT_PFSYNC _ Hdlt) as Hl. set (l := dlt_to_linktype _ _) in *.
  destruct (linktype_word l (p_linktype_ext w) Hl Hext Hextm) as [HL HE].
  set (h := mk_file_header (write_magic w) PCAP_VERSION_MAJOR PCAP_VERSION_MINOR (p_tzoff w) 0
              (u32 (p_snapshot w)) (u32 (s32 (l ||| p_linktype_ext w)))).
  assert (header_ok h) as Hh.
  { split; simpl; auto using u32_range; try lia; [|rewrite u32_id; lia].
    unfold write_magic. destruct (_ =? _); auto. }
  assert (snaplen h = p_snapshot w) as Hsn by (simpl; apply u32_id; lia).
  assert (Z.of_nat (length (file_header_image false h)) = 24) as Hhl by reflexivity.
  set (f := mk_OFILE (file_header_image false h) (room - 24)).
  assert (pcap_dump_fopen DLT_PFSYNC w (mk_OFILE [] room) = (Some f, w)) as Hopen.
  { unfold pcap_dump_fopen, dump_linktype. fold l. destruct (Z.eqb_spec l (-1)); [contradiction|].
    unfold pcap_setup_dump, sf_write_header. fold (write_magic w). change (file_header_bytes _) with (file_header_image false h).
    rewrite fwrite_room by (rewrite Hhl; simpl; lia). rewrite Hhl. reflexivity. }
  destruct (open_image DLT_PFSYNC false h sc precision b pkts Hh) as (p & Ep & Hp & Hf); [exact Hsc|now rewrite Hsn|].
  assert (o_data (dump_all pkts f) = savefile_image false h pkts) as Hdata
    by (rewrite dump_all_room by (assumption || (simpl; lia)); reflexivity).
  pose proof Hp as (_ & Psn & Pz & _ & _ & Plt & Pext & _ & Pbs & _).
  destruct (read_all_records false sc pkts p) as (p' & Er & Hleft).
  - eapply open_image_reads_at; [exact Hp|exact Hf|discriminate].
  - exact Hok.
  - now rewrite Pbs, Hsn.
  - exists f, p, p'. rewrite Hdata. repeat (split; [assumption|]). split; [|now split].
    rewrite Psn, Pz, Plt, Pext, Hsn. simpl linktype. rewrite HL, HE. simpl thiszone.
    subst l. rewrite linktype_back by assumption. destruct (Z.eqb_spec (p_linktype w) DLT_ATM_CLIP); [contradiction|reflexivity].
Qed.

(** Two packets, written with microsecond and read with nanosecond time stamps. *)
Definition writer_sample : pcap_t :=
  set_p_linktype 12 (set_p_snapshot 96 (set_p_tzoff (-3600) (pcap_alloc_pcap_t PrivNone))).
Definition packets_sample : list (pcap_pkthdr * list byte) :=
  [ (mk_pkthdr 1300000000 250000 3 60, [x45; x00; x01]); (mk_pkthdr 1300000001 7 0 0, []) ].

Ltac now_computed := vm_compute; first [reflexivity | now auto | congruence | split; congruence].

Lemma packets_sample_ok : Forall pkt_ok packets_sample.
Proof. repeat constructor; vm_compute; congruence. Qed.

Lemma packets_sample_fit : Forall (fun pkt => caplen pkt.1 <= 96) packets_sample.
Proof. repeat constructor; vm_compute; congruence. Qed.

Lemma savefile_roundtrip_witness :
  exists f p p',
    pcap_dump_fopen 246 writer_sample (mk_OFILE [] 100) = (Some f, writer_sample) /\
    pcap_fopen_offline_with_tstamp_precision (H := zeroing_malloc) 246 true
      (mk_FILE (o_data (dump_all packets_sample f)) false) 1 = Opened p /\
    (p_linktype p, p_linktype_ext p, p_snapshot p, p_tzoff p)
      = (p_linktype writer_sample, p_linktype_ext writer_sample, p_snapshot writer_sample,
         p_tzoff writer_sample) /\
    read_all (pcap_next_packet (H := zeroing_malloc)) (S (length packets_sample)) p = Ok (map (scaled SCALE_UP) packets_sample) p' /\
    left_p p' = O.
Proof.
  apply (savefile_roundtrip (H := zeroing_malloc) 246 writer_sample 100 packets_sample 1 SCALE_UP
           (replicate 96 x00));
    [ now_computed | now_computed | now_computed | now_computed | now_computed | now_computed
    | now_computed | now_computed | now_computed | exact packets_sample_ok
    | exact packets_sample_fit | now_computed ].
Defined.

(** C36: Files of the other byte order. A file of the current version written on a host of
    the opposite byte order, whose link-layer type is not one of the two with a USB
    pseudo-header, opens with the values its writer had and gives the writer's packets. *)
Theorem foreign_savefile_read `{Alloc} DLT_PFSYNC h pkts precision sc b :
  header_ok h -> sf_scale_type precision (magic h) = Some sc -> malloc (snaplen h) = Some b ->
  linktype_to_dlt DLT_PFSYNC (LT_LINKTYPE (linktype h)) <> DLT_USB_LINUX ->
  linktype_to_dlt DLT_PFSYNC (LT_LINKTYPE (linktype h)) <> DLT_USB_LINUX_MMAPPED ->
  Forall pkt_ok pkts -> Forall (fun pkt => caplen pkt.1 <= snaplen h) pkts ->
  exists p p',
    pcap_fopen_offline_with_tstamp_precision DLT_PFSYNC true
      (mk_FILE (savefile_image true h pkts) false) precision = Opened p /\
    opened_handle DLT_PFSYNC true h sc p /\
    read_all pcap_next_packet (S (length pkts)) p = Ok (map (scaled sc) pkts) p' /\ left_p p' = O.
Proof.
  intros Hh Hsc Hb Hu1 Hu2 Hok Hcap.
  destruct (open_image DLT_PFSYNC true h sc precision b pkts Hh Hsc Hb) as (p & Ep & Hp & Hf).
  pose proof Hp as (_ & _ & _ & _ & _ & Plt & _ & _ & Pbs & _).
  destruct (read_all_records true sc pkts p) as (p' & Er & Hl).
  - eapply open_image_reads_at; [exact Hp|exact Hf|]. intros _. now rewrite Plt.
  - exact Hok.
  - now rewrite Pbs.
  - exists p, p'. auto.
Qed.

Definition header_sample : pcap_file_header :=
  mk_file_header NSEC_TCPDUMP_MAGIC 2 4 (-3600) 0 96 1.

Lemma foreign_savefile_read_witness :
  exists p p',
    pcap_fopen_offline_with_tstamp_precision (H := zeroing_malloc) 246 true
      (mk_FILE (savefile_image true header_sample packets_sample) false) 0 = Opened p /\
    opened_handle 246 true header_sample SCALE_DOWN p /\
    read_all (pcap_next_packet (H := zeroing_malloc)) (S (length packets_sample)) p = Ok (map (scaled SCALE_DOWN) packets_sample) p' /\
    left_p p' = O.
Proof.
  apply (foreign_savefile_read (H := zeroing_malloc) 246 header_sample packets_sample 0 SCALE_DOWN
           (replicate 96 x00));
    [ split; now_computed | now_computed | now_computed | now_computed | now_computed
    | exact packets_sample_ok | exact packets_sample_fit ].
Defined.
