(* ===== verification/Datalink.v ===== *)
(** * Names of link-layer types, time stamp types and statuses (pcap.c)

    The tables are the ones of the source for platforms other than the BSDs; [DLT_PFSYNC]
    differs between platforms and is an argument. A C string is the list of its characters
    before the terminating NUL. *)
From stdpp Require Import base numbers list strings.
From Stdlib Require Import Strings.String Strings.Ascii.
From S2P Require Import Prelude BpfInsn LinkType Pcap BpfImage.
Open Scope string_scope.
Open Scope Z_scope.

(** ** Comparison without regard to case *)

(** [charmap[]] *)
Definition charmap : list Z :=
  [0; 1; 2; 3; 4; 5; 6; 7; 8; 9; 10; 11; 12; 13; 14; 15;
   16; 17; 18; 19; 20; 21; 22; 23; 24; 25; 26; 27; 28; 29; 30; 31;
   32; 33; 34; 35; 36; 37; 38; 39; 40; 41; 42; 43; 44; 45; 46; 47;
   48; 49; 50; 51; 52; 53; 54; 55; 56; 57; 58; 59; 60; 61; 62; 63;
   64; 97; 98; 99; 100; 101; 102; 103; 104; 105; 106; 107; 108; 109; 110; 111;
   112; 113; 114; 115; 116; 117; 118; 119; 120; 121; 122; 91; 92; 93; 94; 95;
   96; 97; 98; 99; 100; 101; 102; 103; 104; 105; 106; 107; 108; 109; 110; 111;
   112; 113; 114; 115; 116; 117; 118; 119; 120; 121; 122; 123; 124; 125; 126; 127;
   128; 129; 130; 131; 132; 133; 134; 135; 136; 137; 138; 139; 140; 141; 142; 143;
   144; 145; 146; 147; 148; 149; 150; 151; 152; 153; 154; 155; 156; 157; 158; 159;
   160; 161; 162; 163; 164; 165; 166; 167; 168; 169; 170; 171; 172; 173; 174; 175;
   176; 177; 178; 179; 180; 181; 182; 183; 184; 185; 186; 187; 188; 189; 190; 191;
   192; 225; 226; 227; 228; 229; 230; 231; 232; 233; 234; 235; 236; 237; 238; 239;
   240; 241; 242; 243; 244; 245; 246; 247; 248; 249; 250; 219; 220; 221; 222; 223;
   224; 225; 226; 227; 228; 229; 230; 231; 232; 233; 234; 235; 236; 237; 238; 239;
   240; 241; 242; 243; 244; 245; 246; 247; 248; 249; 250; 251; 252; 253; 254; 255].

Definition ascii_Z (c : ascii) : Z := Z.of_N (N_of_ascii c).

(** [cm[c]] *)
Definition cm (c : Z) : Z := match at_Z charmap c with Some v => v | None => 0 end.

(** The character at the head of a C string. *)
Definition head_char (s : string) : Z := match s with EmptyString => 0 | String c _ => ascii_Z c end.

(** The loop compares folded characters up to the first difference or the end of [s1]. *)
Fixpoint pcap_strcasecmp (s1 s2 : string) : Z :=
  if cm (head_char s1) =? cm (head_char s2) then
    match s1, s2 with
    | String c1 s1', String _ s2' =>
        if ascii_Z c1 =? 0 then 0 else pcap_strcasecmp s1' s2'
    | _, _ => 0
    end
  else cm (head_char s1) - cm (head_char s2).

(** ** Link-layer types *)

Record dlt_choice := mk_choice { dc_name : string; dc_description : string; dc_dlt : Z }.

Section Choices.
Context (DLT_PFSYNC : Z).

(** [dlt_choices[]] *)
Definition dlt_choices : list dlt_choice := [
  mk_choice "DLT_NULL" "BSD loopback" 0;
  mk_choice "DLT_EN10MB" "Ethernet" 1;
  mk_choice "DLT_IEEE802" "Token ring" 6;
  mk_choice "DLT_ARCNET" "BSD ARCNET" 7;
  mk_choice "DLT_SLIP" "SLIP" 8;
  mk_choice "DLT_PPP" "PPP" 9;
  mk_choice "DLT_FDDI" "FDDI" 10;
  mk_choice "DLT_ATM_RFC1483" "RFC 1483 LLC-encapsulated ATM" 11;
  mk_choice "DLT_RAW" "Raw IP" 12;
  mk_choice "DLT_SLIP_BSDOS" "BSD/OS SLIP" 15;
  mk_choice "DLT_PPP_BSDOS" "BSD/OS PPP" 16;
  mk_choice "DLT_ATM_CLIP" "Linux Classical IP-over-ATM" 19;
  mk_choice "DLT_PPP_SERIAL" "PPP over serial" 50;
  mk_choice "DLT_PPP_ETHER" "PPPoE" 51;
  mk_choice "DLT_SYMANTEC_FIREWALL" "Symantec Firewall" 99;
  mk_choice "DLT_C_HDLC" "Cisco HDLC" 104;
  mk_choice "DLT_IEEE802_11" "802.11" 105;
  mk_choice "DLT_FRELAY" "Frame Relay" 107;
  mk_choice "DLT_LOOP" "OpenBSD loopback" 108;
  mk_choice "DLT_ENC" "OpenBSD encapsulated IP" 109;
  mk_choice "DLT_LINUX_SLL" "Linux cooked" 113;
  mk_choice "DLT_LTALK" "Localtalk" 114;
  mk_choice "DLT_PFLOG" "OpenBSD pflog file" 117;
  mk_choice "DLT_PFSYNC" "Packet filter state syncing" DLT_PFSYNC;
  mk_choice "DLT_PRISM_HEADER" "802.11 plus Prism header" 119;
  mk_choice "DLT_IP_OVER_FC" "RFC 2625 IP-over-Fibre Channel" 122;
  mk_choice "DLT_SUNATM" "Sun raw ATM" 123;
  mk_choice "DLT_IEEE802_11_RADIO" "802.11 plus radiotap header" 127;
  mk_choice "DLT_ARCNET_LINUX" "Linux ARCNET" 129;
  mk_choice "DLT_JUNIPER_MLPPP" "Juniper Multi-Link PPP" 130;
  mk_choice "DLT_JUNIPER_MLFR" "Juniper Multi-Link Frame Relay" 131;
  mk_choice "DLT_JUNIPER_ES" "Juniper Encryption Services PIC" 132;
  mk_choice "DLT_JUNIPER_GGSN" "Juniper GGSN PIC" 133;
  mk_choice "DLT_JUNIPER_MFR" "Juniper FRF.16 Frame Relay" 134;
  mk_choice "DLT_JUNIPER_ATM2" "Juniper ATM2 PIC" 135;
  mk_choice "DLT_JUNIPER_SERVICES" "Juniper Advanced Services PIC" 136;
  mk_choice "DLT_JUNIPER_ATM1" "Juniper ATM1 PIC" 137;
  mk_choice "DLT_APPLE_IP_OVER_IEEE1394" "Apple IP-over-IEEE 1394" 138;
  mk_choice "DLT_MTP2_WITH_PHDR" "SS7 MTP2 with Pseudo-header" 139;
  mk_choice "DLT_MTP2" "SS7 MTP2" 140;
  mk_choice "DLT_MTP3" "SS7 MTP3" 141;
  mk_choice "DLT_SCCP" "SS7 SCCP" 142;
  mk_choice "DLT_DOCSIS" "DOCSIS" 143;
  mk_choice "DLT_LINUX_IRDA" "Linux IrDA" 144;
  mk_choice "DLT_IEEE802_11_RADIO_AVS" "802.11 plus AVS radio information header" 163;
  mk_choice "DLT_JUNIPER_MONITOR" "Juniper Passive Monitor PIC" 164;
  mk_choice "DLT_BACNET_MS_TP" "BACnet MS/TP" 165;
  mk_choice "DLT_PPP_PPPD" "PPP for pppd, with direction flag" 166;
  mk_choice "DLT_JUNIPER_PPPOE" "Juniper PPPoE" 167;
  mk_choice "DLT_JUNIPER_PPPOE_ATM" "Juniper PPPoE/ATM" 168;
  mk_choice "DLT_GPRS_LLC" "GPRS LLC" 169;
  mk_choice "DLT_GPF_T" "GPF-T" 170;
  mk_choice "DLT_GPF_F" "GPF-F" 171;
  mk_choice "DLT_JUNIPER_PIC_PEER" "Juniper PIC Peer" 174;
  mk_choice "DLT_ERF_ETH" "Ethernet with Endace ERF header" 175;
  mk_choice "DLT_ERF_POS" "Packet-over-SONET with Endace ERF header" 176;
  mk_choice "DLT_LINUX_LAPD" "Linux vISDN LAPD" 177;
  mk_choice "DLT_JUNIPER_ETHER" "Juniper Ethernet" 178;
  mk_choice "DLT_JUNIPER_PPP" "Juniper PPP" 179;
  mk_choice "DLT_JUNIPER_FRELAY" "Juniper Frame Relay" 180;
  mk_choice "DLT_JUNIPER_CHDLC" "Juniper C-HDLC" 181;
  mk_choice "DLT_MFR" "FRF.16 Frame Relay" 182;
  mk_choice "DLT_JUNIPER_VP" "Juniper Voice PIC" 183;
  mk_choice "DLT_A429" "Arinc 429" 184;
  mk_choice "DLT_A653_ICM" "Arinc 653 Interpartition Communication" 185;
  mk_choice "DLT_USB" "USB" 186;
  mk_choice "DLT_BLUETOOTH_HCI_H4" "Bluetooth HCI UART transport layer" 187;
  mk_choice "DLT_IEEE802_16_MAC_CPS" "IEEE 802.16 MAC Common Part Sublayer" 188;
  mk_choice "DLT_USB_LINUX" "USB with Linux header" 189;
  mk_choice "DLT_CAN20B" "Controller Area Network (CAN) v. 2.0B" 190;
  mk_choice "DLT_IEEE802_15_4_LINUX" "IEEE 802.15.4 with Linux padding" 191;
  mk_choice "DLT_PPI" "Per-Packet Information" 192;
  mk_choice "DLT_IEEE802_16_MAC_CPS_RADIO" "IEEE 802.16 MAC Common Part Sublayer plus radiotap header" 193;
  mk_choice "DLT_JUNIPER_ISM" "Juniper Integrated Service Module" 194;
  mk_choice "DLT_IEEE802_15_4" "IEEE 802.15.4 with FCS" 195;
  mk_choice "DLT_SITA" "SITA pseudo-header" 196;
  mk_choice "DLT_ERF" "Endace ERF header" 197;
  mk_choice "DLT_RAIF1" "Ethernet with u10 Networks pseudo-header" 198;
  mk_choice "DLT_IPMB" "IPMB" 199;
  mk_choice "DLT_JUNIPER_ST" "Juniper Secure Tunnel" 200;
  mk_choice "DLT_BLUETOOTH_HCI_H4_WITH_PHDR" "Bluetooth HCI UART transport layer plus pseudo-header" 201;
  mk_choice "DLT_AX25_KISS" "AX.25 with KISS header" 202;
  mk_choice "DLT_IEEE802_15_4_NONASK_PHY" "IEEE 802.15.4 with non-ASK PHY data" 215;
  mk_choice "DLT_MPLS" "MPLS with label as link-layer header" 219;
  mk_choice "DLT_USB_LINUX_MMAPPED" "USB with padded Linux header" 220;
  mk_choice "DLT_DECT" "DECT" 221;
  mk_choice "DLT_AOS" "AOS Space Data Link protocol" 222;
  mk_choice "DLT_WIHART" "Wireless HART" 223;
  mk_choice "DLT_FC_2" "Fibre Channel FC-2" 224;
  mk_choice "DLT_FC_2_WITH_FRAME_DELIMS" "Fibre Channel FC-2 with frame delimiters" 225;
  mk_choice "DLT_IPNET" "Solaris ipnet" 226;
  mk_choice "DLT_CAN_SOCKETCAN" "CAN-bus with SocketCAN headers" 227;
  mk_choice "DLT_IPV4" "Raw IPv4" 228;
  mk_choice "DLT_IPV6" "Raw IPv6" 229;
  mk_choice "DLT_IEEE802_15_4_NOFCS" "IEEE 802.15.4 without FCS" 230;
  mk_choice "DLT_JUNIPER_VS" "Juniper Virtual Server" 232;
  mk_choice "DLT_JUNIPER_SRX_E2E" "Juniper SRX E2E" 233;
  mk_choice "DLT_JUNIPER_FIBRECHANNEL" "Juniper Fibre Channel" 234;
  mk_choice "DLT_DVB_CI" "DVB-CI" 235;
  mk_choice "DLT_JUNIPER_ATM_CEMIC" "Juniper ATM CEMIC" 238;
  mk_choice "DLT_NFLOG" "Linux netfilter log messages" 239;
  mk_choice "DLT_NETANALYZER" "Ethernet with Hilscher netANALYZER pseudo-header" 240;
  mk_choice "DLT_NETANALYZER_TRANSPARENT" "Ethernet with Hilscher netANALYZER pseudo-header and with preamble and SFD" 241;
  mk_choice "DLT_IPOIB" "RFC 4391 IP-over-Infiniband" 242;
  mk_choice "DLT_DBUS" "D-Bus" 231 ].

(** [name + sizeof("DLT_") - 1] *)
Definition without_prefix (name : string) : string := String.substring 4 (String.length name - 4) name.

Definition pcap_datalink_name_to_val (name : string) : Z :=
  match List.find (fun e => pcap_strcasecmp (without_prefix (dc_name e)) name =? 0) dlt_choices with
  | Some e => dc_dlt e
  | None => -1
  end.

Definition pcap_datalink_val_to_name (dlt : Z) : option string :=
  (fun e => without_prefix (dc_name e)) <$> List.find (fun e => dc_dlt e =? dlt) dlt_choices.

Definition pcap_datalink_val_to_description (dlt : Z) : option string :=
  dc_description <$> List.find (fun e => dc_dlt e =? dlt) dlt_choices.
End Choices.

(** ** Time stamp types *)

(** [tstamp_type_choices[]] *)
Definition tstamp_type_choices : list dlt_choice := [
  mk_choice "host" "Host" 0;
  mk_choice "host_lowprec" "Host, low precision" 1;
  mk_choice "host_hiprec" "Host, high precision" 2;
  mk_choice "adapter" "Adapter" 3;
  mk_choice "adapter_unsynced" "Adapter, not synced with system time" 4 ].

Definition pcap_tstamp_type_name_to_val (name : string) : Z :=
  match List.find (fun e => pcap_strcasecmp (dc_name e) name =? 0) tstamp_type_choices with
  | Some e => dc_dlt e
  | None => PCAP_ERROR
  end.

Definition pcap_tstamp_type_val_to_name (tstamp_type : Z) : option string :=
  dc_name <$> List.find (fun e => dc_dlt e =? tstamp_type) tstamp_type_choices.

Definition pcap_tstamp_type_val_to_description (tstamp_type : Z) : option string :=
  dc_description <$> List.find (fun e => dc_dlt e =? tstamp_type) tstamp_type_choices.

(** ** Statuses *)

Definition status_texts : list (Z * string) := [
  (PCAP_WARNING, "Generic warning");
  (PCAP_WARNING_TSTAMP_TYPE_NOTSUP, "That type of time stamp is not supported by that device");
  (PCAP_WARNING_PROMISC_NOTSUP, "That device doesn't support promiscuous mode");
  (PCAP_ERROR, "Generic error");
  (PCAP_ERROR_BREAK, "Loop terminated by pcap_breakloop");
  (PCAP_ERROR_NOT_ACTIVATED, "The pcap_t has not been activated");
  (PCAP_ERROR_ACTIVATED, "The setting can't be changed after the pcap_t is activated");
  (PCAP_ERROR_NO_SUCH_DEVICE, "No such device exists");
  (PCAP_ERROR_RFMON_NOTSUP, "That device doesn't support monitor mode");
  (PCAP_ERROR_NOT_RFMON, "That operation is supported only in monitor mode");
  (PCAP_ERROR_PERM_DENIED, "You don't have permission to capture on that device");
  (PCAP_ERROR_IFACE_NOT_UP, "That device is not up");
  (PCAP_ERROR_CANTSET_TSTAMP_TYPE, "That device doesn't support setting the time stamp type");
  (PCAP_ERROR_PROMISC_PERM_DENIED,
    "You don't have permission to capture in promiscuous mode on that device");
  (PCAP_ERROR_TSTAMP_PRECISION_NOTSUP, "That device doesn't support that time stamp precision") ].

(** Other codes are printed into a buffer of 15 + 10 + 1 characters. *)
Definition pcap_statustostr (errnum : Z) : string :=
  match List.find (fun e => e.1 =? errnum) status_texts with
  | Some e => e.2
  | None => snprintf (15 + 10 + 1) ("Unknown error: " ++ print_d errnum)
  end.

(** ** Properties *)

(** Upper-case letters, of ASCII and of the second half of the table. *)
Definition is_upper (c : Z) : bool := (65 <=? c) && (c <=? 90) || (193 <=? c) && (c <=? 218).
Definition fold_char (c : Z) : Z := if is_upper c then c + 32 else c.

Lemma all_below_256 (f : Z -> bool) :
  forallb (fun n => f (Z.of_nat n)) (seq 0 256) = true -> forall c, 0 <= c < 256 -> f c = true.
Proof.
  intros Hall c Hc. rewrite List.forallb_forall in Hall. rewrite <- (Z2Nat.id c) by lia.
  apply Hall. apply in_seq. lia.
Qed.

Lemma charmap_folds c : 0 <= c < 256 -> cm c = fold_char c.
Proof. intros Hc. apply Z.eqb_eq. revert c Hc. apply all_below_256. reflexivity. Qed.

Lemma ascii_Z_range c : 0 <= ascii_Z c < 256.
Proof.
  unfold ascii_Z. pose proof (N_ascii_bounded c). lia.
Qed.

Fixpoint no_nul (s : string) : bool :=
  match s with EmptyString => true | String c s' => negb (ascii_Z c =? 0) && no_nul s' end.

Fixpoint folded (s : string) : list Z :=
  match s with EmptyString => [] | String c s' => fold_char (ascii_Z c) :: folded s' end.

Lemma fold_char_zero c : 0 <= c < 256 -> fold_char c = 0 <-> c = 0.
Proof. unfold fold_char, is_upper. intros Hc. destruct (_ || _) eqn:E; lia. Qed.

Lemma strcasecmp_zero_iff s1 s2 : no_nul s1 = true -> no_nul s2 = true ->
  pcap_strcasecmp s1 s2 = 0 <-> folded s1 = folded s2.
Proof.
  revert s2. induction s1 as [|c1 s1 IH]; intros [|c2 s2] H1 H2; cbn [pcap_strcasecmp head_char folded].
  - easy.
  - pose proof (ascii_Z_range c2). rewrite !charmap_folds by lia. cbn [no_nul] in H2.
    change (fold_char 0) with 0. pose proof (fold_char_zero (ascii_Z c2) ltac:(lia)).
    destruct (Z.eqb_spec 0 (fold_char (ascii_Z c2))); [lia|]. split; [lia|discriminate].
  - pose proof (ascii_Z_range c1). rewrite !charmap_folds by lia. cbn [no_nul] in H1.
    change (fold_char 0) with 0. pose proof (fold_char_zero (ascii_Z c1) ltac:(lia)).
    destruct (Z.eqb_spec (fold_char (ascii_Z c1)) 0); [lia|]. split; [lia|discriminate].
  - pose proof (ascii_Z_range c1). pose proof (ascii_Z_range c2). rewrite !charmap_folds by lia.
    cbn [no_nul] in H1, H2. apply andb_true_iff in H1 as [Hn1 H1]. apply andb_true_iff in H2 as [Hn2 H2].
    destruct (Z.eqb_spec (fold_char (ascii_Z c1)) (fold_char (ascii_Z c2))) as [->|Hne].
    + destruct (ascii_Z c1 =? 0); [discriminate|]. rewrite (IH s2 H1 H2). split; [now intros ->|now intros [=]].
    + split; [lia|intros [= ? ?]; contradiction].
Qed.

(** C32: [pcap_strcasecmp] gives 0 exactly on strings that are equal up to the case of the
    letters A to Z and of the accented letters 0xc1 to 0xda of the table. *)
Theorem pcap_strcasecmp_equal s1 s2 :
  no_nul s1 = true -> no_nul s2 = true ->
  pcap_strcasecmp s1 s2 = 0 <-> folded s1 = folded s2.
Proof. apply strcasecmp_zero_iff. Qed.

Lemma pcap_strcasecmp_equal_witness :
  pcap_strcasecmp "en10mb" "EN10MB" = 0 <-> folded "en10mb" = folded "EN10MB".
Proof. apply (pcap_strcasecmp_equal "en10mb" "EN10MB"); reflexivity. Defined.

(** Every entry is found by its own name, and names are words. *)
Definition choice_ok (pf : Z) (e : dlt_choice) : bool :=
  (pcap_datalink_name_to_val pf (without_prefix (dc_name e)) =? dc_dlt e).

Lemma dlt_choices_ok pf : forallb (choice_ok pf) (dlt_choices pf) = true.
Proof. unfold choice_ok. vm_compute. rewrite ?Z.eqb_refl. destruct pf; simpl; rewrite ?Pos.eqb_refl; reflexivity. Qed.

(** A link-layer type the library can name has that name in the other direction too:
    [pcap_datalink_name_to_val] of the name [pcap_datalink_val_to_name] gives is the type,
    on every platform (whatever [DLT_PFSYNC] is). *)
Theorem datalink_name_roundtrip DLT_PFSYNC dlt name :
  pcap_datalink_val_to_name DLT_PFSYNC dlt = Some name ->
  pcap_datalink_name_to_val DLT_PFSYNC name = dlt.
Proof.
  unfold pcap_datalink_val_to_name. destruct (List.find _ _) as [e|] eqn:Ef; [|discriminate].
  intros [= <-]. apply List.find_some in Ef as [Hin He]. apply Z.eqb_eq in He.
  pose proof (dlt_choices_ok DLT_PFSYNC) as Hall. rewrite List.forallb_forall in Hall.
  specialize (Hall e Hin). apply Z.eqb_eq in Hall. congruence.
Qed.

Lemma datalink_name_roundtrip_witness : pcap_datalink_name_to_val 246 "LINUX_SLL" = 113.
Proof. apply (datalink_name_roundtrip 246 113 "LINUX_SLL"). vm_compute. reflexivity. Defined.

(** Every link-layer type the library can name can be saved in a file and comes back,
    except [DLT_ATM_CLIP]; on a platform where [DLT_PFSYNC] is its own savefile code or no
    other type's code. *)
Theorem named_types_survive_savefiles DLT_PFSYNC e :
  In e (dlt_choices DLT_PFSYNC) -> dc_dlt e <> DLT_ATM_CLIP ->
  linktype_to_dlt DLT_PFSYNC (dlt_to_linktype DLT_PFSYNC (dc_dlt e)) = dc_dlt e.
Proof.
  intros Hin Hclip.
  assert (dlt_to_linktype DLT_PFSYNC (dc_dlt e) <> -1 /\
          (dc_dlt e = LINKTYPE_PFSYNC -> DLT_PFSYNC = LINKTYPE_PFSYNC)) as [Hd Hp].
  { assert (dc_dlt e = DLT_PFSYNC \/
      (fun d => negb (d =? LINKTYPE_PFSYNC) &&
         (((DLT_MATCHING_MIN <=? d) && (d <=? DLT_MATCHING_MAX)) ||
          match List.find (fun m => m.1 =? d) linktype_map with Some m => negb (m.2 =? -1) | None => false end))
        (dc_dlt e) = true) as Hcase.
    { revert Hin. clear. unfold dlt_choices. intros Hin.
      repeat (destruct Hin as [<-|Hin]; [first [now left | right; vm_compute; reflexivity]|]). destruct Hin. }
    unfold dlt_to_linktype. destruct Hcase as [Heq|Hb].
    - rewrite Heq, Z.eqb_refl. split; [discriminate|auto].
    - apply andb_true_iff in Hb as [Hn Hb]. split; [|lia].
      destruct (dc_dlt e =? DLT_PFSYNC); [discriminate|].
      destruct ((DLT_MATCHING_MIN <=? dc_dlt e) && _) eqn:Em.
      + unfold DLT_MATCHING_MIN in Em. lia.
      + cbn [orb] in Hb. destruct (List.find _ _); [lia|discriminate]. }
  rewrite linktype_back by assumption.
  destruct (Z.eqb_spec (dc_dlt e) DLT_ATM_CLIP); [contradiction|reflexivity].
Qed.

Lemma named_types_survive_savefiles_witness :
  linktype_to_dlt 246 (dlt_to_linktype 246 12) = 12.
Proof.
  apply (named_types_survive_savefiles 246 (mk_choice "DLT_RAW" "Raw IP" 12));
    [vm_compute; tauto|vm_compute; congruence].
Defined.

(** *** The buffer of [pcap_statustostr] *)

Lemma digits_short n k fuel : 0 <= n < 10 ^ Z.of_nat (S k) -> (List.length (digits fuel 10 n) <= S k)%nat.
Proof.
  revert n k. induction fuel as [|fuel IH]; intros n k Hn; simpl; [lia|].
  destruct (Z.ltb_spec n 10); simpl; [lia|].
  destruct k as [|k]; [change (10 ^ Z.of_nat 1) with 10 in Hn; lia|].
  specialize (IH (n / 10) k). rewrite (Nat2Z.inj_succ (S k)), Z.pow_succ_r in Hn by lia.
  assert (0 <= n / 10 < 10 ^ Z.of_nat (S k)) as Hd by (Z.div_mod_to_equations; lia).
  specialize (IH Hd). lia.
Qed.

Lemma print_d_short v : - 999999999 <= v < 2 ^ 31 -> (String.length (print_d v) <= 10)%nat.
Proof.
  intros Hv. unfold print_d. destruct (Z.ltb_spec v 0); cbn [String.length].
  - unfold print_u. rewrite string_of_digits_length. cbn [String.length].
    pose proof (digits_short (- v) 8 10 ltac:(simpl Z.of_nat; lia)). lia.
  - apply print_u_length.
Qed.

(** The message for an unknown status fits its buffer of 26 characters from -999999999
    on; below, the last digit is cut off. *)
Theorem statustostr_fits errnum :
  - 999999999 <= errnum < 2 ^ 31 -> List.find (fun e => e.1 =? errnum) status_texts = None ->
  pcap_statustostr errnum = "Unknown error: " ++ print_d errnum /\
  pcap_statustostr (- 2147483648) = "Unknown error: -214748364".
Proof.
  intros Hr Hf. split; [|reflexivity]. unfold pcap_statustostr. rewrite Hf. apply snprintf_fits.
  rewrite append_length. pose proof (print_d_short errnum Hr). cbn [String.length]. lia.
Qed.

Lemma statustostr_fits_witness :
  pcap_statustostr (-77) = "Unknown error: " ++ print_d (-77) /\
  pcap_statustostr (- 2147483648) = "Unknown error: -214748364".
Proof. apply (statustostr_fits (-77)); [split; vm_compute; congruence|reflexivity]. Defined.
