(* ===== verification/PcapApi.v ===== *)
(** * The life of a capture handle (pcap.c)

    Creation, configuration, activation, the calls that need an activated handle, and
    closing. What a capture module supplies (its create, activate, read, ... operations) is
    not part of pcap.c and is an argument. *)
From stdpp Require Import base numbers list strings.
From Stdlib Require Import Strings.String Strings.Byte.
From S2P Require Import Prelude BpfInsn BpfFilter LinkType UsbHeader Pcap SfPcap Savefile Datalink.
Open Scope Z_scope.

(** ** Creation *)

Definition initialize_ops (p : pcap_t) : pcap_t := set_p_ops OpsNotActivated p.

Definition pcap_check_activated (p : pcap_t) : Z * pcap_t :=
  if p_activated p then (-1, set_p_errbuf (Some ErrOperationOnActivated) p) else (0, p).

(** [if (pcap_check_activated(p)) return PCAP_ERROR_ACTIVATED; ...] *)
Definition unless_activated (f : pcap_t -> Z * pcap_t) (p : pcap_t) : Z * pcap_t :=
  let (st, p) := pcap_check_activated p in
  if st =? 0 then f p else (PCAP_ERROR_ACTIVATED, p).

Definition pcap_set_snaplen (snaplen : Z) : pcap_t -> Z * pcap_t :=
  unless_activated (fun p => (0, set_p_snapshot snaplen p)).

Definition pcap_create_common (alloc_ok : bool) (source : string) : option pcap_t :=
  if alloc_ok then
    let p := pcap_alloc_pcap_t PrivNone in
    let p := set_p_opt (set_opt_source source (p_opt p)) p in
    let p := initialize_ops p in
    let (_, p) := pcap_set_snaplen 65535 p in
    Some (set_p_opt (mk_opt (opt_source (p_opt p)) 0 0 0 0 0 (-1) PCAP_TSTAMP_PRECISION_MICRO) p)
  else None.

(** Capture sources other than network interfaces are asked in turn; [Some r] is what the
    one that recognises the name returns. *)
Definition pcap_create (capture_source_types : list (string -> option (option pcap_t)))
    (pcap_create_interface : string -> option pcap_t) (source : option string) : option pcap_t :=
  let source := default "any"%string source in
  match list_find (fun f => is_Some (f source)) capture_source_types with
  | Some (_, create_op) => default None (create_op source)
  | None => pcap_create_interface source
  end.

(** ** Configuration *)

Definition set_option (f : pcap_opt -> pcap_opt) : pcap_t -> Z * pcap_t :=
  unless_activated (fun p => (0, set_p_opt (f (p_opt p)) p)).

Definition pcap_set_promisc (v : Z) := set_option (set_opt_promisc v).
Definition pcap_set_rfmon (v : Z) := set_option (set_opt_rfmon v).
Definition pcap_set_timeout (v : Z) := set_option (set_opt_timeout v).
Definition pcap_set_immediate_mode (v : Z) := set_option (set_opt_immediate v).
Definition pcap_set_buffer_size (v : Z) := set_option (set_opt_buffer_size v).

(** An empty list of types supports [PCAP_TSTAMP_HOST] only. *)
Definition pcap_set_tstamp_type (tstamp_type : Z) : pcap_t -> Z * pcap_t :=
  unless_activated (fun p =>
    let supported := match p_tstamp_type_list p with
                     | [] => tstamp_type =? PCAP_TSTAMP_HOST
                     | l => existsb (Z.eqb tstamp_type) l
                     end in
    if supported then (0, set_p_opt (set_opt_tstamp_type tstamp_type (p_opt p)) p)
    else (PCAP_WARNING_TSTAMP_TYPE_NOTSUP, p)).

Definition pcap_set_tstamp_precision (tstamp_precision : Z) : pcap_t -> Z * pcap_t :=
  unless_activated (fun p =>
    let supported := match p_tstamp_precision_list p with
                     | [] => tstamp_precision =? PCAP_TSTAMP_PRECISION_MICRO
                     | l => existsb (Z.eqb tstamp_precision) l
                     end in
    if supported then (0, set_p_opt (set_opt_tstamp_precision tstamp_precision (p_opt p)) p)
    else (PCAP_ERROR_TSTAMP_PRECISION_NOTSUP, p)).

Definition pcap_get_tstamp_precision (p : pcap_t) : Z := opt_tstamp_precision (p_opt p).

(** The list for the caller, or no choice; [alloc_ok] tells whether the copy could be
    allocated. *)
Definition pcap_list_tstamp_types (alloc_ok : bool) (p : pcap_t) : Z * option (list Z) * pcap_t :=
  match p_tstamp_type_list p with
  | [] => (0, None, p)
  | l => if alloc_ok then (Z.of_nat (List.length l), Some l, p)
         else (PCAP_ERROR, None, set_p_errbuf (Some ErrMalloc) p)
  end.

(** ** Activation *)

Section Activate.
Context (activate_op : pcap_t -> Z * pcap_t).

Definition pcap_activate : pcap_t -> Z * pcap_t :=
  unless_activated (fun p =>
    let (status, p) := activate_op p in
    if 0 <=? status then (status, set_p_activated true p)
    else
      let p := match p_errbuf p with
               | None => set_p_errbuf (Some (ErrStatus status)) p
               | Some _ => p
               end in
      (status, initialize_ops p)).

(** What [errbuf] is made of when opening fails: the name of the source, and the handle's
    message, or the text for the status with or without it. *)
Inductive open_live_msg :=
| MsgErrbuf (e : option pcap_error)
| MsgStatusErrbuf (status : Z) (e : option pcap_error)
| MsgStatus (status : Z).

Definition open_live_fail (status : Z) (p : pcap_t) : open_live_msg :=
  if status =? PCAP_ERROR then MsgErrbuf (p_errbuf p)
  else if (status =? PCAP_ERROR_NO_SUCH_DEVICE) || (status =? PCAP_ERROR_PERM_DENIED)
          || (status =? PCAP_ERROR_PROMISC_PERM_DENIED)
  then MsgStatusErrbuf status (p_errbuf p)
  else MsgStatus status.

(** The handle, or the status and message of the step that failed; [None] when there is no
    handle to configure. *)
Definition pcap_open_live (created : option pcap_t) (snaplen promisc to_ms : Z)
  : sum (option (Z * open_live_msg)) pcap_t :=
  match created with
  | None => inl None
  | Some p =>
      let (st, p) := pcap_set_snaplen snaplen p in
      if st <? 0 then inl (Some (st, open_live_fail st p))
      else
        let (st, p) := pcap_set_promisc promisc p in
        if st <? 0 then inl (Some (st, open_live_fail st p))
        else
          let (st, p) := pcap_set_timeout to_ms p in
          if st <? 0 then inl (Some (st, open_live_fail st p))
          else
            let (st, p) := pcap_activate (set_p_oldstyle true p) in
            if st <? 0 then inl (Some (st, open_live_fail st p)) else inr p
  end.
End Activate.

(** ** Calls on an activated handle *)

Definition if_activated {A} (p : pcap_t) (a : A) : sum Z A :=
  if negb (p_activated p) then inl PCAP_ERROR_NOT_ACTIVATED else inr a.

Definition pcap_datalink (p : pcap_t) : sum Z Z := if_activated p (p_linktype p).
Definition pcap_datalink_ext (p : pcap_t) : sum Z Z := if_activated p (p_linktype_ext p).
Definition pcap_snapshot (p : pcap_t) : sum Z Z := if_activated p (p_snapshot p).
Definition pcap_is_swapped (p : pcap_t) : sum Z bool := if_activated p (p_swapped p).
Definition pcap_major_version (p : pcap_t) : sum Z Z := if_activated p (p_version_major p).
Definition pcap_minor_version (p : pcap_t) : sum Z Z := if_activated p (p_version_minor p).

(** The number of types and the list of them. *)
Definition pcap_list_datalinks (alloc_ok : bool) (p : pcap_t) : Z * list Z * pcap_t :=
  if negb (p_activated p) then (PCAP_ERROR_NOT_ACTIVATED, [], p)
  else if negb alloc_ok then (PCAP_ERROR, [], set_p_errbuf (Some ErrMalloc) p)
  else match p_dlt_list p with
       | [] => (1, [p_linktype p], p)
       | l => (Z.of_nat (List.length l), l, p)
       end.

Definition DLT_DOCSIS := 143.

(** [set_datalink_op] is the operation of a live capture; savefiles have none. *)
Definition pcap_set_datalink (set_datalink_op : pcap_t -> Z -> Z * pcap_t) (dlt : Z) (p : pcap_t)
  : Z * pcap_t :=
  let unsupported := (-1, set_p_errbuf (Some (ErrDltNotSupported dlt)) p) in
  let has_op := match p_ops p with OpsLive | OpsNotActivated => true | _ => false end in
  let l := p_dlt_list p in
  if (Z.of_nat (List.length l) =? 0) || negb has_op then
    if negb (p_linktype p =? dlt) then unsupported else (0, p)
  else if negb (existsb (Z.eqb dlt) l) then unsupported
  else if (Z.of_nat (List.length l) =? 2) && bool_decide (head l = Some DLT_EN10MB) && (dlt =? DLT_DOCSIS)
  then (0, set_p_linktype dlt p)
  else
    let (st, p) := match p_ops p with
                   | OpsLive => set_datalink_op p dlt
                   | _ => (PCAP_ERROR_NOT_ACTIVATED, p)
                   end in
    if st =? -1 then (-1, p) else (0, set_p_linktype dlt p).

(** [read_op] through the table; the null pointer of a dead handle cannot be called. *)
Definition call_op {A} (p : pcap_t) (not_activated savefile live : A) : option A :=
  match p_ops p with
  | OpsNotActivated => Some not_activated
  | OpsSavefile => Some savefile
  | OpsLive => Some live
  | OpsDead => None
  end.

Section Live.
Context (live_read : pcap_t -> Z -> Z * pcap_t) (live_setfilter : pcap_t -> list bpf_insn -> Z * pcap_t).
Context (live_setdirection : option (pcap_t -> Z -> Z * pcap_t)) (live_stats : pcap_t -> Z * pcap_t).
Context (savefile_read : pcap_t -> Z -> Z * pcap_t).
Context `{Alloc}.

Definition pcap_not_initialized (p : pcap_t) : Z * pcap_t := (PCAP_ERROR_NOT_ACTIVATED, p).

Definition pcap_dispatch (p : pcap_t) (cnt : Z) : option (Z * pcap_t) :=
  call_op p (pcap_not_initialized p) (savefile_read p cnt) (live_read p cnt).

Definition pcap_setfilter (p : pcap_t) (fp : list bpf_insn) : option (Z * pcap_t) :=
  call_op p (pcap_not_initialized p) (install_bpf_program p fp) (live_setfilter p fp).

Definition pcap_setdirection (p : pcap_t) (d : Z) : Z * pcap_t :=
  match p_ops p with
  | OpsNotActivated => pcap_not_initialized p
  | OpsSavefile => sf_setdirection p d
  | OpsLive => match live_setdirection with
               | Some f => f p d
               | None => (-1, set_p_errbuf (Some ErrNoDirectionHere) p)
               end
  | OpsDead => (-1, set_p_errbuf (Some ErrNoDirectionHere) p)
  end.

Definition pcap_stats (p : pcap_t) : Z * pcap_t :=
  match p_ops p with
  | OpsNotActivated => pcap_not_initialized p
  | OpsSavefile => sf_stats p
  | OpsLive => live_stats p
  | OpsDead => (-1, set_p_errbuf (Some ErrStatsDead) p)
  end.
End Live.

(** Whether a packet passes a program; an empty program passes nothing. *)
Definition pcap_offline_filter (fuel : nat) (mem : list Z) (fp : option (list bpf_insn)) (h : pcap_pkthdr)
    (pkt : list byte) : outcome :=
  match fp with
  | Some fcode => bpf_filter fuel mem (Some fcode) pkt (len h) (caplen h)
  | None => Return 0
  end.

(** ** Handles without a capture, and closing *)

Definition pcap_open_dead_with_tstamp_precision (alloc_ok : bool) (linktype snaplen precision : Z)
  : option pcap_t :=
  if negb ((precision =? PCAP_TSTAMP_PRECISION_MICRO) || (precision =? PCAP_TSTAMP_PRECISION_NANO)) then None
  else if negb alloc_ok then None
  else
    let p := pcap_alloc_pcap_t PrivNone in
    let p := set_p_linktype linktype (set_p_snapshot snaplen p) in
    let p := set_p_opt (set_opt_tstamp_precision precision (p_opt p)) p in
    Some (set_p_activated true (set_p_ops OpsDead p)).

Definition pcap_open_dead (alloc_ok : bool) (linktype snaplen : Z) : option pcap_t :=
  pcap_open_dead_with_tstamp_precision alloc_ok linktype snaplen PCAP_TSTAMP_PRECISION_MICRO.

Definition pcap_cleanup_live_common (p : pcap_t) : pcap_t :=
  set_p_fcode None
    (set_p_tstamp_precision_list [] (set_p_tstamp_type_list [] (set_p_dlt_list [] (set_p_buffer [] p)))).

(** [pcaps_to_close]: the list of handles to close at exit, by address. *)
Definition pcap_add_to_pcaps_to_close (p : nat) (pcaps_to_close : list nat) : list nat := p :: pcaps_to_close.

Fixpoint pcap_remove_from_pcaps_to_close (p : nat) (pcaps_to_close : list nat) : list nat :=
  match pcaps_to_close with
  | [] => []
  | pc :: l => if decide (pc = p) then l else pc :: pcap_remove_from_pcaps_to_close p l
  end.

(** ** The state machine

    What a program can do with a live handle between [pcap_create] and [pcap_close], with
    the operation of the capture module that [pcap_activate] calls. *)
Section Lifecycle.
Context (activate_op : pcap_t -> Z * pcap_t).
(** An activate operation leaves the flag to its caller. *)
Context (activate_op_flag : forall p, p_activated (activate_op p).2 = p_activated p).

Inductive config_call :=
| CallSnaplen (v : Z) | CallPromisc (v : Z) | CallRfmon (v : Z) | CallTimeout (v : Z)
| CallTstampType (v : Z) | CallImmediate (v : Z) | CallBufferSize (v : Z) | CallPrecision (v : Z)
| CallActivate.

Definition run_config (c : config_call) : pcap_t -> Z * pcap_t :=
  match c with
  | CallSnaplen v => pcap_set_snaplen v
  | CallPromisc v => pcap_set_promisc v
  | CallRfmon v => pcap_set_rfmon v
  | CallTimeout v => pcap_set_timeout v
  | CallTstampType v => pcap_set_tstamp_type v
  | CallImmediate v => pcap_set_immediate_mode v
  | CallBufferSize v => pcap_set_buffer_size v
  | CallPrecision v => pcap_set_tstamp_precision v
  | CallActivate => pcap_activate activate_op
  end.

(** Once a handle is activated its configuration is frozen: each configuration call,
    and a second activation, returns PCAP_ERROR_ACTIVATED and changes nothing but the error
    message. *)
Theorem configuration_frozen c p :
  p_activated p = true ->
  run_config c p = (PCAP_ERROR_ACTIVATED, set_p_errbuf (Some ErrOperationOnActivated) p).
Proof.
  intros Ha.
  assert (forall f, unless_activated f p = (PCAP_ERROR_ACTIVATED, set_p_errbuf (Some ErrOperationOnActivated) p))
    as Hu by (intros f; unfold unless_activated, pcap_check_activated; now rewrite Ha).
  destruct c; apply Hu.
Qed.

(** The handles a program can have. *)
Inductive reachable : pcap_t -> Prop :=
| r_create source p : pcap_create_common true source = Some p -> reachable p
| r_config c p : reachable p -> reachable (run_config c p).2.

Definition lifecycle_inv (p : pcap_t) : Prop := p_activated p = false -> p_ops p = OpsNotActivated.

Lemma unless_activated_inv f p :
  lifecycle_inv p -> (p_activated p = false -> lifecycle_inv p -> lifecycle_inv (f p).2) ->
  lifecycle_inv (unless_activated f p).2.
Proof.
  intros Hi Hf. unfold unless_activated, pcap_check_activated.
  destruct (p_activated p) eqn:Ea; simpl; [|now apply Hf]. intros Hc. simpl in Hc. congruence.
Qed.

Lemma reachable_inv p : reachable p -> lifecycle_inv p.
Proof.
  induction 1 as [source p Hc|c p _ IH].
  - injection Hc as <-. intros _. reflexivity.
  - assert (forall f, (forall q, p_activated (f q) = p_activated q /\ p_ops (f q) = p_ops q) ->
              forall st, lifecycle_inv (unless_activated (fun q => (st, f q)) p).2) as Hset.
    { intros f Hf st. apply unless_activated_inv; [exact IH|]. intros _ Hq. unfold lifecycle_inv in *. simpl.
      destruct (Hf p) as [-> ->]. exact Hq. }
    destruct c; simpl; try (apply (Hset _); now split).
    + apply unless_activated_inv; [exact IH|]. intros _ Hq.
      destruct (p_tstamp_type_list p); destruct (_ : bool); exact Hq.
    + apply unless_activated_inv; [exact IH|]. intros _ Hq.
      destruct (p_tstamp_precision_list p); destruct (_ : bool); exact Hq.
    + apply unless_activated_inv; [exact IH|]. intros Ha _.
      pose proof (activate_op_flag p) as Hfl. destruct (activate_op p) as [st q]. simpl in Hfl.
      destruct (0 <=? st); simpl; [discriminate|]. intros _. reflexivity.
Qed.

(** C38: Whatever configuration and activation calls a program has made, successful or not,
    a handle that is not activated still has its "not activated" operations: reading,
    filtering and statistics return PCAP_ERROR_NOT_ACTIVATED and leave it as it is, also
    after an activation that failed half-way. *)
Theorem not_activated_is_safe `{Alloc} p live_read savefile_read live_setfilter live_stats cnt fp :
  reachable p -> p_activated p = false ->
  pcap_dispatch live_read savefile_read p cnt = Some (PCAP_ERROR_NOT_ACTIVATED, p) /\
  pcap_setfilter live_setfilter p fp = Some (PCAP_ERROR_NOT_ACTIVATED, p) /\
  pcap_stats live_stats p = (PCAP_ERROR_NOT_ACTIVATED, p) /\
  pcap_datalink p = inl PCAP_ERROR_NOT_ACTIVATED.
Proof.
  intros Hr Ha. pose proof (reachable_inv p Hr Ha) as Ho.
  unfold pcap_dispatch, pcap_setfilter, pcap_stats, call_op, pcap_datalink, if_activated.
  rewrite Ho, Ha. repeat split.
Qed.
End Lifecycle.

(** A module whose activation installs its operations and then fails. *)
Definition failing_activate (p : pcap_t) : Z * pcap_t := (PCAP_ERROR_PERM_DENIED, set_p_ops OpsLive p).
Definition working_activate (p : pcap_t) : Z * pcap_t := (0, set_p_linktype 1 (set_p_ops OpsLive p)).

Definition created : pcap_t :=
  match pcap_create_common true "eth0"%string with Some p => p | None => pcap_alloc_pcap_t PrivNone end.

Lemma configuration_frozen_witness :
  run_config working_activate (CallSnaplen 96) (pcap_activate working_activate created).2
  = (PCAP_ERROR_ACTIVATED,
     set_p_errbuf (Some ErrOperationOnActivated) (pcap_activate working_activate created).2).
Proof.
  apply (configuration_frozen working_activate (CallSnaplen 96) (pcap_activate working_activate created).2).
  reflexivity.
Defined.

Lemma not_activated_is_safe_witness :
  let p := (pcap_activate failing_activate created).2 in
  pcap_dispatch (fun p _ => (0, p)) (fun p _ => (0, p)) p 5 = Some (PCAP_ERROR_NOT_ACTIVATED, p) /\
  pcap_setfilter (H := zeroing_malloc) (fun p _ => (0, p)) p [] = Some (PCAP_ERROR_NOT_ACTIVATED, p) /\
  pcap_stats (fun p => (0, p)) p = (PCAP_ERROR_NOT_ACTIVATED, p) /\
  pcap_datalink p = inl PCAP_ERROR_NOT_ACTIVATED.
Proof.
  apply (not_activated_is_safe failing_activate (fun p => eq_refl) (H := zeroing_malloc)
           (pcap_activate failing_activate created).2 (fun p _ => (0, p)) (fun p _ => (0, p))
           (fun p _ => (0, p)) (fun p => (0, p)) 5 []); [|reflexivity].
  apply (r_config failing_activate CallActivate created).
  apply (r_create failing_activate "eth0"%string created). reflexivity.
Defined.

Lemma unless_not_activated f p : p_activated p = false -> unless_activated f p = f p.
Proof. intros Ha. unfold unless_activated, pcap_check_activated. now rewrite Ha. Qed.

(** C37: [pcap_open_live] gives the module's activate operation a fresh handle with exactly
    the requested snapshot length, promiscuous mode and timeout and the defaults of
    [pcap_create_common], and returns an activated handle when that operation succeeds, its
    status when it fails. *)
Theorem pcap_open_live_configures (activate_op : pcap_t -> Z * pcap_t) source snaplen promisc to_ms :
  let opt := mk_opt source to_ms 0 promisc 0 0 (-1) PCAP_TSTAMP_PRECISION_MICRO in
  let q := set_p_oldstyle true (set_p_snapshot snaplen
             (set_p_opt opt (pcap_alloc_pcap_t PrivNone))) in
  let (st, q') := activate_op q in
  match pcap_open_live activate_op (pcap_create_common true source) snaplen promisc to_ms with
  | inr p => 0 <= st /\ p = set_p_activated true q'
  | inl (Some (st', _)) => st < 0 /\ st' = st
  | inl None => False
  end.
Proof.
  intros opt q.
  destruct (pcap_create_common true source) as [p0|] eqn:E0; [|discriminate].
  assert (p_activated p0 = false /\
          set_p_oldstyle true (set_p_opt (set_opt_timeout to_ms (p_opt (set_p_opt (set_opt_promisc promisc
            (p_opt (set_p_snapshot snaplen p0))) (set_p_snapshot snaplen p0))))
            (set_p_opt (set_opt_promisc promisc (p_opt (set_p_snapshot snaplen p0)))
               (set_p_snapshot snaplen p0))) = q) as [Ha Eq].
  { injection E0 as <-. split; vm_compute; reflexivity. }
  unfold pcap_open_live, pcap_set_snaplen, pcap_set_promisc, pcap_set_timeout, set_option, pcap_activate.
  do 4 (rewrite unless_not_activated by exact Ha; try change (0 <? 0) with false; cbv iota zeta).
  rewrite Eq. destruct (activate_op q) as [st q']. destruct (Z.leb_spec 0 st);
    destruct (Z.ltb_spec st 0); try lia; (split; [lia|reflexivity]).
Qed.

(** C34: [pcap_set_datalink] returns 0 or -1; when it returns 0 the handle has the requested
    link-layer type; without a list of types, or on a savefile, it succeeds exactly when
    that already is the type, and then changes nothing. *)
Theorem pcap_set_datalink_sets set_datalink_op dlt p :
  let (st, p') := pcap_set_datalink set_datalink_op dlt p in
  (st = 0 \/ st = -1) /\ (st = 0 -> p_linktype p' = dlt) /\
  (p_dlt_list p = [] \/ p_ops p = OpsSavefile ->
     (st = 0 <-> p_linktype p = dlt) /\ (st = 0 -> p' = p)).
Proof.
  unfold pcap_set_datalink.
  set (has_op := match p_ops p with OpsLive | OpsNotActivated => true | _ => false end).
  destruct ((Z.of_nat (List.length (p_dlt_list p)) =? 0) || negb has_op) eqn:E.
  - destruct (Z.eqb_spec (p_linktype p) dlt); simpl; repeat split; auto; try lia; try congruence.
  - assert (~ (p_dlt_list p = [] \/ p_ops p = OpsSavefile)) as Hno.
    { intros [Hl|Ho]; [rewrite Hl in E; discriminate|]. subst has_op. rewrite Ho, orb_true_r in E. discriminate. }
    assert (forall Q : Prop, p_dlt_list p = [] \/ p_ops p = OpsSavefile -> Q) as Hvac
      by (intros Q Hx; now destruct (Hno Hx)).
    clear E. destruct (negb (existsb _ _)); [cbv beta iota zeta; split; [now right|split; [discriminate|apply Hvac]]|].
    destruct (_ && _); [cbv beta iota zeta; split; [now left|split; [reflexivity|apply Hvac]]|].
    set (r := match p_ops p with OpsLive => set_datalink_op p dlt | _ => (PCAP_ERROR_NOT_ACTIVATED, p) end).
    destruct r as [st q].
    destruct (st =? -1); [cbv beta iota zeta; split; [now right|split; [discriminate|apply Hvac]]|].
    cbv beta iota zeta. split; [now left|split; [reflexivity|apply Hvac]].
Qed.

(** The list of handles to close at exit: a handle that was put on it is taken off it,
    once, and the others stay in order. *)
Theorem pcaps_to_close_remove (p : nat) (l : list nat) :
  NoDup l -> pcap_remove_from_pcaps_to_close p l = List.filter (fun q => negb (bool_decide (q = p))) l /\
  pcap_remove_from_pcaps_to_close p (pcap_add_to_pcaps_to_close p l) = l.
Proof.
  intros Hnd. split; [|simpl; now rewrite decide_True].
  induction Hnd as [|q l Hq _ IH]; [reflexivity|]. cbn [pcap_remove_from_pcaps_to_close List.filter].
  destruct (decide (q = p)) as [->|Hne].
  - rewrite bool_decide_true by reflexivity. cbn [negb].
    symmetry. apply List.forallb_filter_id. apply List.forallb_forall. intros r Hr.
    rewrite bool_decide_false; [reflexivity|]. intros ->. apply Hq. now apply list_elem_of_In.
  - rewrite bool_decide_false by assumption. cbn [negb]. now rewrite IH.
Qed.

Lemma pcaps_to_close_remove_witness :
  pcap_remove_from_pcaps_to_close 2%nat [3; 2; 1]%nat
    = List.filter (fun q => negb (bool_decide (q = 2%nat))) [3; 2; 1]%nat /\
  pcap_remove_from_pcaps_to_close 2%nat (pcap_add_to_pcaps_to_close 2%nat [3; 2; 1]%nat) = [3; 2; 1]%nat.
Proof.
  apply (pcaps_to_close_remove 2%nat [3; 2; 1]%nat).
  repeat constructor; rewrite ?elem_of_cons, ?elem_of_nil; lia.
Defined.
