(* ===== verification/GenConst.v ===== *)
(** * The numbers the code generator uses

    Link-layer types, qualifiers of the filter language, protocol numbers and header
    positions, with the values of the headers of the library. Where a header depends on the
    platform the value is the one of a Linux build, as everywhere in the code generator.
    The last group comes from the headers of the system. *)
From stdpp Require Import base numbers.
From S2P Require Import Prelude LinkType.
Open Scope Z_scope.

(** ** Link-layer types (pcap/bpf.h), as on Linux *)

Definition DLT_APPLE_IP_OVER_IEEE1394 := 138.
Definition DLT_ARCNET := 7.
Definition DLT_ARCNET_LINUX := 129.
Definition DLT_ATM_RFC1483 := 11.
Definition DLT_AX25_KISS := 202.
Definition DLT_BACNET_MS_TP := 165.
Definition DLT_BLUETOOTH_HCI_H4 := 187.
Definition DLT_BLUETOOTH_HCI_H4_WITH_PHDR := 201.
Definition DLT_CAN20B := 190.
Definition DLT_CAN_SOCKETCAN := 227.
Definition DLT_C_HDLC := 104.
Definition DLT_DOCSIS := 143.
Definition DLT_ENC := 109.
Definition DLT_ERF := 197.
Definition DLT_FDDI := 10.
Definition DLT_FRELAY := 107.
Definition DLT_IEEE802 := 6.
Definition DLT_IEEE802_11 := 105.
Definition DLT_IEEE802_11_RADIO := 127.
Definition DLT_IEEE802_11_RADIO_AVS := 163.
Definition DLT_IEEE802_15_4 := 195.
Definition DLT_IEEE802_15_4_LINUX := 191.
Definition DLT_IEEE802_15_4_NOFCS := 230.
Definition DLT_IEEE802_15_4_NONASK_PHY := 215.
Definition DLT_IEEE802_16_MAC_CPS_RADIO := 193.
Definition DLT_IPMB := 199.
Definition DLT_IPNET := 226.
Definition DLT_IPV4 := 228.
Definition DLT_IPV6 := 229.
Definition DLT_IP_OVER_FC := 122.
Definition DLT_JUNIPER_ATM1 := 137.
Definition DLT_JUNIPER_ATM2 := 135.
Definition DLT_JUNIPER_ATM_CEMIC := 238.
Definition DLT_JUNIPER_CHDLC := 181.
Definition DLT_JUNIPER_ES := 132.
Definition DLT_JUNIPER_ETHER := 178.
Definition DLT_JUNIPER_FIBRECHANNEL := 234.
Definition DLT_JUNIPER_FRELAY := 180.
Definition DLT_JUNIPER_GGSN := 133.
Definition DLT_JUNIPER_ISM := 194.
Definition DLT_JUNIPER_MFR := 134.
Definition DLT_JUNIPER_MLFR := 131.
Definition DLT_JUNIPER_MLPPP := 130.
Definition DLT_JUNIPER_MONITOR := 164.
Definition DLT_JUNIPER_PPP := 179.
Definition DLT_JUNIPER_PPPOE := 167.
Definition DLT_JUNIPER_PPPOE_ATM := 168.
Definition DLT_JUNIPER_SERVICES := 136.
Definition DLT_JUNIPER_SRX_E2E := 233.
Definition DLT_JUNIPER_ST := 200.
Definition DLT_JUNIPER_VP := 183.
Definition DLT_JUNIPER_VS := 232.
Definition DLT_LINUX_IRDA := 144.
Definition DLT_LINUX_LAPD := 177.
Definition DLT_LINUX_SLL := 113.
Definition DLT_LOOP := 108.
Definition DLT_LTALK := 114.
Definition DLT_MFR := 182.
Definition DLT_MTP2 := 140.
Definition DLT_MTP2_WITH_PHDR := 139.
Definition DLT_NETANALYZER := 240.
Definition DLT_NETANALYZER_TRANSPARENT := 241.
Definition DLT_NULL := 0.
Definition DLT_PFSYNC := 246.
Definition DLT_PPI := 192.
Definition DLT_PPP := 9.
Definition DLT_PPP_BSDOS := 16.
Definition DLT_PPP_ETHER := 51.
Definition DLT_PPP_PPPD := 166.
Definition DLT_PPP_SERIAL := 50.
Definition DLT_PRISM_HEADER := 119.
Definition DLT_RAIF1 := 198.
Definition DLT_RAW := 12.
Definition DLT_SITA := 196.
Definition DLT_SLIP := 8.
Definition DLT_SLIP_BSDOS := 15.
Definition DLT_SUNATM := 123.
Definition DLT_SYMANTEC_FIREWALL := 99.
Definition DLT_USB := 186.

(** ** Qualifiers and selectors of the grammar (gencode.h) *)

Definition Q_HOST := 1.
Definition Q_NET := 2.
Definition Q_PORT := 3.
Definition Q_GATEWAY := 4.
Definition Q_PROTO := 5.
Definition Q_PROTOCHAIN := 6.
Definition Q_PORTRANGE := 7.
Definition Q_LINK := 1.
Definition Q_IP := 2.
Definition Q_ARP := 3.
Definition Q_RARP := 4.
Definition Q_SCTP := 5.
Definition Q_TCP := 6.
Definition Q_UDP := 7.
Definition Q_ICMP := 8.
Definition Q_IGMP := 9.
Definition Q_IGRP := 10.
Definition Q_ATALK := 11.
Definition Q_DECNET := 12.
Definition Q_LAT := 13.
Definition Q_SCA := 14.
Definition Q_MOPRC := 15.
Definition Q_MOPDL := 16.
Definition Q_IPV6 := 17.
Definition Q_ICMPV6 := 18.
Definition Q_AH := 19.
Definition Q_ESP := 20.
Definition Q_PIM := 21.
Definition Q_VRRP := 22.
Definition Q_AARP := 23.
Definition Q_ISO := 24.
Definition Q_ESIS := 25.
Definition Q_ISIS := 26.
Definition Q_CLNP := 27.
Definition Q_STP := 28.
Definition Q_IPX := 29.
Definition Q_NETBEUI := 30.
Definition Q_ISIS_L1 := 31.
Definition Q_ISIS_L2 := 32.
Definition Q_ISIS_IIH := 33.
Definition Q_ISIS_LAN_IIH := 34.
Definition Q_ISIS_PTP_IIH := 35.
Definition Q_ISIS_SNP := 36.
Definition Q_ISIS_CSNP := 37.
Definition Q_ISIS_PSNP := 38.
Definition Q_ISIS_LSP := 39.
Definition Q_RADIO := 40.
Definition Q_CARP := 41.
Definition Q_SRC := 1.
Definition Q_DST := 2.
Definition Q_OR := 3.
Definition Q_AND := 4.
Definition Q_ADDR1 := 5.
Definition Q_ADDR2 := 6.
Definition Q_ADDR3 := 7.
Definition Q_ADDR4 := 8.
Definition Q_RA := 9.
Definition Q_TA := 10.
Definition Q_DEFAULT := 0.
Definition Q_UNDEF := 255.
Definition A_METAC := 22.
Definition A_BCC := 23.
Definition A_OAMF4SC := 24.
Definition A_OAMF4EC := 25.
Definition A_SC := 26.
Definition A_ILMIC := 27.
Definition A_OAM := 28.
Definition A_OAMF4 := 29.
Definition A_LANE := 30.
Definition A_LLC := 31.
Definition A_SETUP := 41.
Definition A_CALLPROCEED := 42.
Definition A_CONNECT := 43.
Definition A_CONNECTACK := 44.
Definition A_RELEASE := 45.
Definition A_RELEASE_DONE := 46.
Definition A_VPI := 51.
Definition A_VCI := 52.
Definition A_PROTOTYPE := 53.
Definition A_MSGTYPE := 54.
Definition A_CALLREFTYPE := 55.
Definition A_CONNECTMSG := 70.
Definition A_METACONNECT := 71.
Definition M_FISU := 22.
Definition M_LSSU := 23.
Definition M_MSU := 24.
Definition MH_FISU := 25.
Definition MH_LSSU := 26.
Definition MH_MSU := 27.
Definition M_SIO := 1.
Definition M_OPC := 2.
Definition M_DPC := 3.
Definition M_SLS := 4.
Definition MH_SIO := 5.
Definition MH_OPC := 6.
Definition MH_DPC := 7.
Definition MH_SLS := 8.

(** ** Ethernet types (ethertype.h) *)

Definition ETHERTYPE_PUP := 0x0200.
Definition ETHERTYPE_IP := 0x0800.
Definition ETHERTYPE_ARP := 0x0806.
Definition ETHERTYPE_REVARP := 0x8035.
Definition ETHERTYPE_NS := 0x0600.
Definition ETHERTYPE_SPRITE := 0x0500.
Definition ETHERTYPE_MOPDL := 0x6001.
Definition ETHERTYPE_MOPRC := 0x6002.
Definition ETHERTYPE_DN := 0x6003.
Definition ETHERTYPE_LAT := 0x6004.
Definition ETHERTYPE_SCA := 0x6007.
Definition ETHERTYPE_LANBRIDGE := 0x8038.
Definition ETHERTYPE_DECDNS := 0x803c.
Definition ETHERTYPE_DECDTS := 0x803e.
Definition ETHERTYPE_VEXP := 0x805b.
Definition ETHERTYPE_VPROD := 0x805c.
Definition ETHERTYPE_ATALK := 0x809b.
Definition ETHERTYPE_AARP := 0x80f3.
Definition ETHERTYPE_8021Q := 0x8100.
Definition ETHERTYPE_IPX := 0x8137.
Definition ETHERTYPE_IPV6 := 0x86dd.
Definition ETHERTYPE_MPLS := 0x8847.
Definition ETHERTYPE_PPPOED := 0x8863.
Definition ETHERTYPE_PPPOES := 0x8864.
Definition ETHERTYPE_LOOPBACK := 0x9000.
Definition ETHERTYPE_8021QINQ := 0x9100.

(** ** LLC service access points (llc.h) *)

Definition LLCSAP_IP := 0x06.
Definition LLCSAP_8021D := 0x42.
Definition LLCSAP_SNAP := 0xaa.
Definition LLCSAP_IPX := 0xe0.
Definition LLCSAP_NETBEUI := 0xf0.
Definition LLCSAP_ISONS := 0xfe.

(** ** PPP protocols (ppp.h) *)

Definition PPP_PPPD_IN := 0x00.
Definition PPP_PPPD_OUT := 0x01.
Definition PPP_IP := 0x0021.
Definition PPP_OSI := 0x0023.
Definition PPP_NS := 0x0025.
Definition PPP_DECNET := 0x0027.
Definition PPP_APPLE := 0x0029.
Definition PPP_IPX := 0x002b.
Definition PPP_VJC := 0x002d.
Definition PPP_VJNC := 0x002f.
Definition PPP_BRPDU := 0x0031.
Definition PPP_IPV6 := 0x0057.
Definition PPP_MPLS_UCAST := 0x0281.

(** ** ARCNET types (arcnet.h) *)

Definition ARCTYPE_IP_OLD := 240.
Definition ARCTYPE_ARP_OLD := 241.
Definition ARCTYPE_IP := 212.
Definition ARCTYPE_ARP := 213.
Definition ARCTYPE_REVARP := 214.
Definition ARCTYPE_ATALK := 221.
Definition ARCTYPE_INET6 := 0xc4.

(** ** OSI network layer protocols (nlpid.h) *)

Definition ISO8473_CLNP := 0x81.
Definition ISO9542_ESIS := 0x82.
Definition ISO10589_ISIS := 0x83.
Definition ISIS_L1_LAN_IIH := 15.
Definition ISIS_L2_LAN_IIH := 16.
Definition ISIS_PTP_IIH := 17.
Definition ISIS_L1_LSP := 18.
Definition ISIS_L2_LSP := 20.
Definition ISIS_L1_CSNP := 24.
Definition ISIS_L2_CSNP := 25.
Definition ISIS_L1_PSNP := 26.
Definition ISIS_L2_PSNP := 27.

(** ** ATM positions and messages (sunatmpos.h, atmuni31.h) *)

Definition SUNATM_VPI_POS := 1.
Definition SUNATM_VCI_POS := 2.
Definition SUNATM_PKT_BEGIN_POS := 4.
Definition PT_LANE := 0x01.
Definition PT_LLC := 0x02.
Definition PROTO_POS := 0.
Definition MSG_TYPE_POS := 5.
Definition SETUP := 0x05.
Definition CALL_PROCEED := 0x02.
Definition CONNECT := 0x07.
Definition CONNECT_ACK := 0x0f.
Definition RELEASE := 0x4d.
Definition RELEASE_DONE := 0x5a.

(** ** 802.11 frame control (ieee80211.h) *)

Definition IEEE80211_FC0_TYPE_MASK := 0x0c.
Definition IEEE80211_FC0_TYPE_CTL := 0x04.
Definition IEEE80211_FC0_SUBTYPE_MASK := 0xf0.
Definition IEEE80211_FC0_SUBTYPE_CTS := 0xc0.
Definition IEEE80211_FC0_SUBTYPE_ACK := 0xd0.
Definition IEEE80211_FC1_DIR_MASK := 0x03.
Definition IEEE80211_FC1_DIR_DSTODS := 0x03.

(** ** Solaris ipnet and Linux cooked headers (pcap/ipnet.h, pcap/sll.h) *)

Definition IPH_AF_INET := 2.
Definition IPH_AF_INET6 := 26.
Definition IPNET_OUTBOUND := 1.
Definition IPNET_INBOUND := 2.
Definition LINUX_SLL_OUTGOING := 4.
Definition LINUX_SLL_P_802_3 := 0x0001.
Definition LINUX_SLL_P_802_2 := 0x0004.

(** ** Protocol numbers and limits (gencode.c, pcap/namedb.h, pcap/pcap.h) *)

Definition ETHERMTU := 1500.
Definition IPPROTO_HOPOPTS := 0.
Definition IPPROTO_ROUTING := 43.
Definition IPPROTO_FRAGMENT := 44.
Definition IPPROTO_DSTOPTS := 60.
Definition IPPROTO_SCTP := 132.
Definition IPPROTO_IGMP := 2.
Definition IPPROTO_IGRP := 9.
Definition IPPROTO_PIM := 103.
Definition IPPROTO_VRRP := 112.
Definition IPPROTO_CARP := 112.
Definition IPPROTO_ICMPV6 := 58.
Definition IPPROTO_AH := 51.
Definition IPPROTO_ESP := 50.
Definition IPPROTO_NONE := 59.
Definition PROTO_UNDEF := (-1).
Definition PCAP_NETMASK_UNKNOWN := 0xffffffff.

(** ** System headers (Linux) *)

Definition IPPROTO_ICMP := 1.
Definition IPPROTO_TCP := 6.
Definition IPPROTO_UDP := 17.
Definition AF_INET := 2.
Definition AF_INET6 := 10.
Definition SKF_AD_OFF := (-0x1000).
Definition SKF_AD_PKTTYPE := 4.
Definition PACKET_OUTGOING := 4.
