(* ===== verification/EtherEnt.v ===== *)
(** * The ethers table (etherent.c, nametoaddr.c)

    [pcap_next_etherent] reads the next entry of a file of Ethernet addresses and host
    names, character by character; [pcap_ether_hostton] looks a name up in such a file, on
    systems that have no [ether_hostton]. A file is the bytes still to be read. *)
From stdpp Require Import base numbers list.
From Stdlib Require Import Strings.Byte.
From S2P Require Import Prelude.
Open Scope Z_scope.

(** ** Characters (C locale) *)

Definition EOF : Z := -1.
Definition newline : Z := 10.
Definition colon : Z := 58.
Definition hash : Z := 35.

Definition isspace (c : Z) : bool := (c =? 32) || ((9 <=? c) && (c <=? 13)).
Definition isdigit (c : Z) : bool := (48 <=? c) && (c <=? 57).
Definition islower (c : Z) : bool := (97 <=? c) && (c <=? 122).
Definition isxdigit (c : Z) : bool :=
  isdigit c || ((97 <=? c) && (c <=? 102)) || ((65 <=? c) && (c <=? 70)).

(** [xdtoi(c)] *)
Definition xdtoi (c : Z) : Z :=
  if isdigit c then c - 48 else if islower c then c - 97 + 10 else c - 65 + 10.

(** ** Reading *)

Definition getc (f : list byte) : Z * list byte :=
  match f with [] => (EOF, []) | b :: f => (b2z b, f) end.

(** [skip_space(f)] *)
Fixpoint skip_space (f : list byte) : Z * list byte :=
  match f with
  | [] => (EOF, [])
  | b :: f => if isspace (b2z b) && negb (b2z b =? newline) then skip_space f else (b2z b, f)
  end.

(** [skip_line(f)] *)
Fixpoint skip_line (f : list byte) : Z * list byte :=
  match f with
  | [] => (EOF, [])
  | b :: f => if negb (b2z b =? newline) then skip_line f else (b2z b, f)
  end.

(** [struct pcap_etherent]; the name is kept without its terminating NUL. *)
Record pcap_etherent := mk_etherent { ee_addr : list byte; ee_name : list byte }.

Definition name_size : nat := 122.

(** The [for] loop that reads the address: [n] octets are left, the next is the [i]th. *)
Fixpoint read_octets (n i : nat) (c : Z) (f addr : list byte) : Z * list byte * list byte :=
  match n with
  | O => (c, f, addr)
  | S n =>
      let d := xdtoi c in
      let '(c, f) := getc f in
      let '(d, c, f) :=
        if isxdigit c then let '(c', f') := getc f in (Z.lor (Z.shiftl d 4) (xdtoi c), c', f')
        else (d, c, f) in
      let addr := <[i := z2b d]> addr in
      if negb (c =? colon) then (c, f, addr)
      else let '(c, f) := getc f in read_octets n (S i) c f addr
  end.

(** The loop that reads the name, with room for [d] more characters. *)
Fixpoint read_name (d : nat) (c : Z) (f name : list byte) : list byte * Z * list byte :=
  let name := (name ++ [z2b c])%list in
  let '(c, f) := getc f in
  match d with
  | S (S _ as d) => if negb (isspace c) && negb (c =? EOF) then read_name d c f name else (name, c, f)
  | _ => (name, c, f)
  end.

(** What one turn of the loop of [pcap_next_etherent] comes to: an entry, the end by
    [break], or another turn unless [c] is [EOF]. *)
Inductive turn :=
| Entry (e : pcap_etherent) (f : list byte)
| Break (f : list byte)
| Continue (c : Z) (f addr : list byte).

Definition next_turn (f addr : list byte) : turn :=
  let '(c, f) := skip_space f in
  if c =? newline then Continue c f addr
  else if negb (isxdigit c) then let '(c, f) := skip_line f in Continue c f addr
  else
    let '(c, f, addr) := read_octets 6 0 c f addr in
    if c =? EOF then Break f
    else if negb (isspace c) then let '(c, f) := skip_line f in Continue c f addr
    else
      let '(c, f) := skip_space f in
      if c =? newline then Continue c f addr
      else if c =? hash then let '(c, f) := skip_line f in Continue c f addr
      else
        let '(name, c, f) := read_name (name_size - 1) c f [] in
        let f := if negb (c =? newline) then snd (skip_line f) else f in
        Entry (mk_etherent addr name) f.

Fixpoint etherent_loop (fuel : nat) (f addr : list byte) : option (option pcap_etherent * list byte) :=
  match fuel with
  | O => None
  | S n =>
      match next_turn f addr with
      | Entry e f => Some (Some e, f)
      | Break f => Some (None, f)
      | Continue c f addr => if c =? EOF then Some (None, f) else etherent_loop n f addr
      end
  end.

(** [pcap_next_etherent(fp)]: every turn reads a character, or the end of the file. *)
Definition pcap_next_etherent (f : list byte) : option (option pcap_etherent * list byte) :=
  etherent_loop (S (length f)) f (replicate 6 (z2b 0)).

(** The C string at the start of an array. *)
Fixpoint c_string (s : list byte) : list byte :=
  match s with [] => [] | b :: s => if b2z b =? 0 then [] else b :: c_string s end.

(** The loop of [pcap_ether_hostton]: the address is copied, or lost for want of memory. *)
Fixpoint hostton_loop (malloc_ok : bool) (fuel : nat) (f name : list byte) : option (option (list byte)) :=
  match fuel with
  | O => None
  | S n =>
      '(e, f) ← pcap_next_etherent f;
      match e with
      | Some e =>
          if bool_decide (c_string (ee_name e) = name) then Some (if malloc_ok then Some (ee_addr e) else None)
          else hostton_loop malloc_ok n f name
      | None => Some None
      end
  end.

(** [pcap_ether_hostton(name)], given what the file holds; [None] inside is a null pointer. *)
Definition pcap_ether_hostton (malloc_ok : bool) (ethers : option (list byte)) (name : list byte) : option (option (list byte)) :=
  match ethers with
  | Some f => hostton_loop malloc_ok (S (length f)) f name
  | None => Some None
  end.

(** ** The loops end *)

Lemma skip_space_length f : (length (snd (skip_space f)) <= length f)%nat.
Proof. induction f as [|b f IH]; cbn; [lia|]. destruct (_ && _); cbn; lia. Qed.

Lemma skip_line_length f : (length (snd (skip_line f)) <= length f)%nat.
Proof. induction f as [|b f IH]; cbn; [lia|]. destruct (negb _); cbn; lia. Qed.

Lemma getc_length f : (length (snd (getc f)) <= length f)%nat.
Proof. destruct f; cbn; lia. Qed.

(** A reader that found a character has read one. *)
Definition consumed (f : list byte) (r : Z * list byte) : Prop := fst r <> EOF -> (length (snd r) < length f)%nat.

Lemma b2z_not_EOF b : b2z b <> EOF.
Proof. pose proof (b2z_range b). unfold EOF. lia. Qed.

Lemma skip_space_consumed f : consumed f (skip_space f).
Proof.
  unfold consumed. induction f as [|b f IH]; cbn; [done|]. destruct (_ && _); cbn; [|lia].
  intros H. specialize (IH H). lia.
Qed.

Lemma read_octets_length n i c f addr : (length (snd (fst (read_octets n i c f addr))) <= length f)%nat.
Proof.
  revert i c f addr; induction n as [|n IH]; intros i c f addr; cbn [read_octets]; [done|].
  pose proof (getc_length f). destruct (getc f) as [c1 f1]. cbn in *.
  destruct (isxdigit c1).
  - pose proof (getc_length f1). destruct (getc f1) as [c2 f2]. cbn in *. destruct (negb (c2 =? colon)); cbn; [lia|].
    pose proof (getc_length f2). destruct (getc f2) as [c3 f3]. cbn in *.
    match goal with |- context [read_octets n ?i ?c ?f ?a] => specialize (IH i c f a) end. lia.
  - destruct (negb (c1 =? colon)); cbn; [lia|].
    pose proof (getc_length f1). destruct (getc f1) as [c3 f3]. cbn in *.
    match goal with |- context [read_octets n ?i ?c ?f ?a] => specialize (IH i c f a) end. lia.
Qed.

Lemma read_name_S d c f name :
  read_name (S (S d)) c f name =
  let '(c1, f1) := getc f in
  if negb (isspace c1) && negb (c1 =? EOF) then read_name (S d) c1 f1 (name ++ [z2b c])
  else ((name ++ [z2b c])%list, c1, f1).
Proof. reflexivity. Qed.

Lemma read_name_length d c f name : (length (snd (read_name d c f name)) <= length f)%nat.
Proof.
  revert c f name; induction d as [|[|d] IH]; intros c f name.
  1,2: cbn; pose proof (getc_length f); destruct (getc f); done.
  rewrite read_name_S. pose proof (getc_length f). destruct (getc f) as [c1 f1]. cbn in H.
  destruct (_ && _); [|done]. etransitivity; [apply IH|done].
Qed.

Lemma skip_space_EOF f f1 : skip_space f = (EOF, f1) -> f1 = [].
Proof.
  induction f as [|b f IH]; cbn; [now intros [=]|]. destruct (_ && _); [done|].
  intros [= H _]. now destruct (b2z_not_EOF b).
Qed.

(** A turn reads something, unless the file is at its end. *)
Lemma next_turn_consumed f addr :
  match next_turn f addr with
  | Continue c f' _ => c <> EOF -> (length f' < length f)%nat
  | Entry _ f' => (length f' < length f)%nat
  | Break f' => True
  end.
Proof.
  unfold next_turn. pose proof (skip_space_consumed f) as H1. destruct (skip_space f) as [c f1] eqn:E. unfold consumed in H1. cbn in H1.
  destruct (Z.eqb_spec c newline) as [->|]; [intros _; apply H1; done|].
  destruct (isxdigit c) eqn:Ex; cbn [negb].
  - assert (length f1 < length f)%nat as L1 by (apply H1; intros ->; discriminate Ex).
    pose proof (read_octets_length 6 0 c f1 addr) as H2. destruct (read_octets 6 0 c f1 addr) as [[c2 f2] a2]. cbn in H2.
    destruct (c2 =? EOF); [done|]. destruct (isspace c2); cbn [negb].
    + pose proof (skip_space_length f2) as H3. destruct (skip_space f2) as [c3 f3]. cbn in H3.
      destruct (c3 =? newline); [intros; lia|]. destruct (c3 =? hash).
      * pose proof (skip_line_length f3) as H4. destruct (skip_line f3) as [c4 f4]. cbn in H4. intros; lia.
      * pose proof (read_name_length (name_size - 1) c3 f3 []) as H4. destruct (read_name _ _ _ _) as [[nm c4] f4]. cbn in H4.
        destruct (negb (c4 =? newline)); [|lia]. pose proof (skip_line_length f4). lia.
    + pose proof (skip_line_length f2) as H4. destruct (skip_line f2) as [c4 f4]. cbn in H4. intros; lia.
  - pose proof (skip_line_length f1) as H4. destruct (skip_line f1) as [c4 f4] eqn:El. cbn in H4. intros Hc.
    destruct (Z.eq_dec c EOF) as [->|Hne]; [|specialize (H1 Hne); lia].
    exfalso. now rewrite (skip_space_EOF _ _ E) in El; cbn in El; injection El as <- _.
Qed.

Lemma etherent_loop_returns fuel f addr : (length f < fuel)%nat ->
  exists e f', etherent_loop fuel f addr = Some (e, f') /\ (e <> None -> (length f' < length f)%nat).
Proof.
  revert f addr; induction fuel as [|fuel IH]; intros f addr Hf; [lia|]. cbn [etherent_loop].
  pose proof (next_turn_consumed f addr) as H. destruct (next_turn f addr) as [e f1|f1|c f1 a1].
  - eauto 6.
  - exists None, f1. split; [done|]. now intros [].
  - destruct (Z.eqb_spec c EOF) as [|Hne]; [exists None, f1; split; [done|now intros []]|].
    specialize (H Hne). destruct (IH f1 a1) as (e & f' & E & Hl); [lia|]. exists e, f'. split; [done|].
    intros He. specialize (Hl He). lia.
Qed.

Lemma next_etherent_returns f :
  exists e f', pcap_next_etherent f = Some (e, f') /\ (e <> None -> (length f' < length f)%nat).
Proof. apply etherent_loop_returns. lia. Qed.

Lemma hostton_loop_returns malloc_ok fuel f name : (length f < fuel)%nat -> exists r, hostton_loop malloc_ok fuel f name = Some r.
Proof.
  revert f; induction fuel as [|fuel IH]; intros f Hf; [lia|]. cbn [hostton_loop].
  destruct (next_etherent_returns f) as ([e|] & f' & -> & Hl); cbn [mbind option_bind]; [|eauto].
  destruct (bool_decide _); [eauto|]. apply IH. specialize (Hl ltac:(done)). lia.
Qed.

(** ** A table that was printed is read back *)

Definition hex_digit (n : Z) : byte := z2b (if n <? 10 then 48 + n else 87 + n).
Definition print_octet (b : byte) : list byte := [hex_digit (Z.shiftr (b2z b) 4); hex_digit (Z.land (b2z b) 15)].
Fixpoint print_octets (os : list byte) : list byte :=
  match os with
  | [] => []
  | [b] => print_octet b
  | b :: os => print_octet b ++ z2b colon :: print_octets os
  end.
Definition print_entry (e : pcap_etherent) : list byte :=
  print_octets (ee_addr e) ++ z2b 32 :: ee_name e ++ [z2b newline].

(** Names a table can hold: not empty, no white space, no NUL, no comment, short enough. *)
Definition name_char (b : byte) : bool := negb (isspace (b2z b)) && negb (b2z b =? 0).
Definition name_ok (name : list byte) : bool :=
  forallb name_char name && (0 <? length name)%nat && (length name <? name_size)%nat &&
  match name with b :: _ => negb (b2z b =? hash) | [] => false end.
Definition entry_ok (e : pcap_etherent) : bool := (length (ee_addr e) =? 6)%nat && name_ok (ee_name e).

Lemma b2z_small z : 0 <= z < 256 -> b2z (z2b z) = z.
Proof. intros Hz. rewrite b2z_z2b. now apply u8_id. Qed.

Lemma hex_digit_read n : 0 <= n < 16 -> isxdigit (b2z (hex_digit n)) = true /\ xdtoi (b2z (hex_digit n)) = n.
Proof.
  intros Hn. assert (Forall (fun n => isxdigit (b2z (hex_digit n)) = true /\ xdtoi (b2z (hex_digit n)) = n)
    (map Z.of_nat (seq 0 16))) as HF by (vm_compute; repeat constructor).
  rewrite Forall_forall in HF. apply HF. apply list_elem_of_In, in_map_iff. exists (Z.to_nat n).
  split; [lia|]. apply in_seq. lia.
Qed.

Lemma octet_nibbles b : Z.lor (Z.shiftl (Z.shiftr (b2z b) 4) 4) (Z.land (b2z b) 15) = b2z b.
Proof. now destruct b. Qed.

Lemma nibble_ranges b : 0 <= Z.shiftr (b2z b) 4 < 16 /\ 0 <= Z.land (b2z b) 15 < 16.
Proof. destruct b; vm_compute; repeat split; intros [=]. Qed.

Lemma insert_middle (l : list byte) i (b : byte) k :
  length l = (i + S k)%nat -> exists m, <[i := b]> l = (take i l ++ b :: m)%list /\ length m = k.
Proof.
  intros Hl. exists (drop (S i) l). split; [|rewrite length_drop; lia].
  apply insert_take_drop. lia.
Qed.

(** One octet, and what follows it. *)
Lemma read_octet n i b f addr :
  match getc f with
  | (c, f1) =>
      read_octets (S n) i (b2z (hex_digit (Z.shiftr (b2z b) 4))) (hex_digit (Z.land (b2z b) 15) :: f) addr =
      (let addr := <[i := b]> addr in
       if negb (c =? colon) then (c, f1, addr)
       else let '(c, f) := getc f1 in read_octets n (S i) c f addr)
  end.
Proof.
  destruct (getc f) as [c f1] eqn:Ef. cbn [read_octets getc].
  destruct (nibble_ranges b) as [Hh Hl]. destruct (hex_digit_read _ Hh) as [_ Vh]. destruct (hex_digit_read _ Hl) as [Dl Vl].
  rewrite Dl, Ef, Vh, Vl, octet_nibbles. now rewrite z2b_b2z.
Qed.

Lemma read_octets_print os : forall i addr sp f, os <> [] -> length addr = (i + length os)%nat -> b2z sp <> colon ->
  match (print_octets os ++ sp :: f)%list with
  | c :: g => read_octets (length os) i (b2z c) g addr = (b2z sp, f, (take i addr ++ os)%list)
  | [] => False
  end.
Proof.
  induction os as [|b os IH]; intros i addr sp f Hne Hl Hsp; [done|].
  destruct os as [|b' os].
  - cbn [print_octets print_octet app length]. pose proof (read_octet 0 i b (sp :: f) addr) as H. cbn [getc] in H. rewrite H.
    destruct (Z.eqb_spec (b2z sp) colon); [done|]. cbn [negb].
    destruct (insert_middle addr i b 0 Hl) as ([|] & -> & Hm); [|done]. done.
  - set (os' := b' :: os) in *. change (print_octets (b :: os')) with (print_octet b ++ z2b colon :: print_octets os')%list.
    cbn [print_octet app length].
    pose proof (read_octet (length os') i b (z2b colon :: print_octets os' ++ sp :: f) addr) as H. cbn [getc] in H. rewrite H.
    rewrite b2z_small by done. cbn [negb Z.eqb colon Pos.eqb]. 
    destruct (insert_middle addr i b (length os') Hl) as (m & -> & Hm).
    assert (length (take i addr) = i) as Ht by (rewrite length_take; lia).
    specialize (IH (S i) (take i addr ++ b :: m)%list sp f ltac:(done) ltac:(rewrite length_app; cbn [length]; lia) Hsp).
    destruct (print_octets os' ++ sp :: f)%list as [|c g]; [done|]. cbn [getc]. rewrite IH. f_equal.
    replace (S i) with (length (take i addr) + 1)%nat by lia. rewrite take_app_add. cbn. now rewrite <- app_assoc.
Qed.

Lemma read_name_print name : forall d acc f, (length name <= d)%nat -> forallb name_char name = true ->
  match (name ++ z2b newline :: f)%list with
  | c :: g => name <> [] -> read_name d (b2z c) g acc = ((acc ++ name)%list, newline, f)
  | [] => False
  end.
Proof.
  induction name as [|c name IH]; intros d acc f Hd Hn; cbn [app]; [done|]. intros _.
  cbn [forallb] in Hn. apply andb_prop in Hn as [Hc Hn]. 
  destruct d as [|[|d]]; cbn [length] in Hd; [lia|destruct name; [cbn; now rewrite z2b_b2z|cbn in Hd; lia]|].
  rewrite read_name_S, z2b_b2z. destruct name as [|c' name].
  - cbn [app getc]. rewrite b2z_small by done. done.
  - cbn [app getc]. cbn [forallb] in Hn. pose proof Hn as Hc'. apply andb_prop in Hc' as [Hc' _].
    unfold name_char in Hc'. apply andb_prop in Hc' as [-> _].
    replace (b2z c' =? EOF) with false by (symmetry; apply Z.eqb_neq, b2z_not_EOF). cbn [negb andb].
    specialize (IH (S d) (acc ++ [c])%list f ltac:(cbn [length] in *; lia) Hn). cbn [app] in IH. rewrite (IH ltac:(done)).
    now rewrite <- app_assoc.
Qed.

Lemma next_entry_print e f : entry_ok e = true ->
  pcap_next_etherent (print_entry e ++ f) = Some (Some e, f).
Proof.
  unfold entry_ok, name_ok. intros H. rewrite !andb_true_iff in H. destruct H as [Ha [[[Hn Hpos] Hlen] Hh]].
  apply Nat.eqb_eq in Ha. apply Nat.ltb_lt in Hpos, Hlen. destruct e as [addr name]. cbn [ee_addr ee_name] in *.
  unfold pcap_next_etherent. generalize (length (print_entry (mk_etherent addr name) ++ f)). intros fuel. cbn [etherent_loop].
  unfold next_turn, print_entry. cbn [ee_addr ee_name]. rewrite <- app_assoc. cbn [app]. rewrite <- app_assoc. cbn [app].
  pose proof (read_octets_print addr 0 (replicate 6 (z2b 0)) (z2b 32) (name ++ z2b newline :: f)) as HO.
  destruct addr as [|b addr']; [discriminate|]. set (addr := b :: addr') in *.
  destruct (print_octets addr ++ z2b 32 :: name ++ z2b newline :: f)%list as [|c g] eqn:Ep.
  { now destruct (HO ltac:(done) ltac:(now rewrite length_replicate, Ha) ltac:(done)). }
  specialize (HO ltac:(done) ltac:(now rewrite length_replicate, Ha) ltac:(done)). rewrite Ha in HO.
  assert (exists b', c = hex_digit (Z.shiftr (b2z b') 4)) as [b' ->].
  { exists b. unfold addr in Ep. cbn [print_octets] in Ep. destruct addr'; cbn [print_octet app] in Ep; now injection Ep. }
  destruct (nibble_ranges b') as [Hr _]. destruct (hex_digit_read _ Hr) as [Hx _].
  assert (isspace (b2z (hex_digit (Z.shiftr (b2z b') 4))) = false) as Hs by now destruct b'.
  assert ((b2z (hex_digit (Z.shiftr (b2z b') 4)) =? newline) = false) as Hnl by now destruct b'.
  cbn [skip_space]. rewrite Hs. cbn [andb]. rewrite Hnl, Hx. cbn [negb]. rewrite HO. rewrite b2z_small by done.
  replace (32 =? EOF) with false by done. replace (isspace 32) with true by done. cbn [negb].
  destruct name as [|c name]; [discriminate Hh|].
  pose proof (read_name_print (c :: name) (name_size - 1) [] f ltac:(unfold name_size in *; cbn [length] in *; lia) Hn) as HN.
  cbn [app] in HN. specialize (HN ltac:(done)).
  cbn [forallb] in Hn. apply andb_prop in Hn as [Hc _]. unfold name_char in Hc. apply andb_prop in Hc as [Hc _].
  apply negb_true_iff in Hc, Hh. cbn [app skip_space]. rewrite Hc. cbn [andb].
  assert ((b2z c =? newline) = false) as -> by (destruct (Z.eqb_spec (b2z c) newline) as [Eq|]; [rewrite Eq in Hc|]; done).
  rewrite Hh, HN. cbn. reflexivity.
Qed.

Lemma name_no_nul name : forallb name_char name = true -> c_string name = name.
Proof.
  induction name as [|b name IH]; cbn; [done|]. intros [Hb Hn]%andb_prop. unfold name_char in Hb.
  apply andb_prop in Hb as [_ Hb]. apply negb_true_iff in Hb. rewrite Hb. f_equal. auto.
Qed.

(** The first entry with a name. *)
Fixpoint lookup_entry (es : list pcap_etherent) (name : list byte) : option (list byte) :=
  match es with
  | [] => None
  | e :: es => if bool_decide (ee_name e = name) then Some (ee_addr e) else lookup_entry es name
  end.

(** C18: looking a name up in a file that was written as a table, an address and a name per
    line, gives the address of the first entry with that name, and a null pointer when
    there is none, or no memory for the copy. *)
Theorem ether_hostton_lookup malloc_ok es name :
  forallb entry_ok es = true ->
  pcap_ether_hostton malloc_ok (Some (concat (map print_entry es))) name = Some (if malloc_ok then lookup_entry es name else None).
Proof.
  intros Hes. unfold pcap_ether_hostton.
  assert (forall fuel, (length es < fuel)%nat ->
    hostton_loop malloc_ok fuel (concat (map print_entry es)) name = Some (if malloc_ok then lookup_entry es name else None)) as Hloop.
  { induction es as [|e es IH]; intros [|fuel] Hf; cbn [length] in Hf; try lia; [now destruct malloc_ok|].
    cbn [forallb] in Hes. apply andb_prop in Hes as [He Hes]. cbn [map concat hostton_loop].
    rewrite next_entry_print by done. cbn [mbind option_bind]. rewrite name_no_nul.
    - cbn [lookup_entry]. destruct (bool_decide (ee_name e = name)); [now destruct malloc_ok|]. apply IH; [done|lia].
    - unfold entry_ok, name_ok in He. rewrite !andb_true_iff in He. tauto. }
  apply Hloop. clear. induction es as [|e es IH]; cbn; [lia|]. unfold print_entry at 1. rewrite !length_app. cbn.
  rewrite length_app. cbn. lia.
Qed.

(** C21: the reader comes to its end: [pcap_next_etherent] returns an entry or the end of any
    file, the lookup returns on any file, and an entry takes something off the file. *)
Theorem next_etherent_terminates f :
  (exists e f', pcap_next_etherent f = Some (e, f') /\ (e <> None -> (length f' < length f)%nat)) /\
  forall malloc_ok name, exists r, pcap_ether_hostton malloc_ok (Some f) name = Some r.
Proof. split; [apply next_etherent_returns|]. intros malloc_ok name. apply hostton_loop_returns. lia. Qed.

(** An address with no name takes its name from the next line; a last line that ends in a
    blank makes an entry whose name is the end-of-file character. *)
Definition octets_1 : list byte := map z2b [0x02; 0; 0; 0; 0; 1].
Lemma etherent_name_from_next_line :
  pcap_next_etherent (print_octets octets_1 ++ map z2b [10; 104; 111; 115; 116; 10]) =
  Some (Some (mk_etherent octets_1 (map z2b [104; 111; 115; 116])), []).
Proof. vm_compute. reflexivity. Qed.

Lemma etherent_name_from_eof :
  pcap_next_etherent (print_octets octets_1 ++ [z2b 32]) = Some (Some (mk_etherent octets_1 [z2b EOF]), []).
Proof. vm_compute. reflexivity. Qed.

(** The witness of [ether_hostton_lookup]. *)
Lemma ether_hostton_lookup_witness :
  forallb entry_ok [mk_etherent octets_1 (map z2b [97; 98])] = true /\
  pcap_ether_hostton true (Some (concat (map print_entry [mk_etherent octets_1 (map z2b [97; 98])]))) (map z2b [97; 98]) =
  Some (lookup_entry [mk_etherent octets_1 (map z2b [97; 98])] (map z2b [97; 98])).
Proof. split; [vm_compute; reflexivity|]. apply (ether_hostton_lookup true). vm_compute. reflexivity. Defined.
