(* ===== verification/GenState.v ===== *)
(** * State of the code generator (gencode.c)

    The static variables of gencode.c as a record, and the monad the [gen_] functions run
    in: they read and change the variables, allocate statements and blocks, and leave by
    [bpf_error] (a [longjmp] out of the compiler) or by [abort]. [GError] carries the format
    string of [bpf_error], without its arguments; [GStuck] is a null or dangling block, or
    another behaviour C does not define.

    A [u_int] variable holds its unsigned value, so the value -1 of the code is [u32 (-1)].
    The build is the one for Linux, with INET6. *)
From stdpp Require Import base numbers list gmap.
From Stdlib Require Import Strings.Byte Strings.String.
From S2P Require Import Prelude BpfInsn BpfFilter Icode Gencode GencodeFilter LinkType GenConst.
Open Scope Z_scope.

(** ** The variables *)

(** Offsets of the link-layer, MAC-layer payload and network-layer headers. *)
Record link_offsets := mk_link {
  off_ll : Z; off_mac : Z; off_macpl : Z; off_macpl_is_variable : bool;
  off_linktype : Z; off_nl : Z; off_nl_nosnap : Z }.

(** The ATM pseudo-header. *)
Record atm_offsets := mk_atm {
  is_atm : bool; is_lane : bool; off_vpi : Z; off_vci : Z; off_proto : Z; off_payload : Z }.

(** MTP2 and MTP3 fields. *)
Record ss7_offsets := mk_ss7 {
  off_li : Z; off_li_hsl : Z; off_sio : Z; off_opc : Z; off_dpc : Z; off_sls : Z }.

(** What [gen_vlan], [gen_mpls] and [gen_pppoes] leave behind for later tests. *)
Record encapsulation := mk_encap {
  is_pppoes : bool; orig_linktype : Z; orig_nl : Z; label_stack_depth : Z }.

(** Scratch registers: the table, the register to try next, and the registers that hold
    the length of a variable prefix and the offset of the MAC-layer payload (-1 for none). *)
Record registers := mk_registers {
  regused : list bool; curreg : Z; reg_off_ll : Z; reg_off_macpl : Z }.

Record genv := mk_genv {
  linktype : Z; pcap_fddipad : Z;
  g_link : link_offsets; g_atm : atm_offsets; g_ss7 : ss7_offsets;
  g_encap : encapsulation; g_regs : registers;
  no_optimize : bool; snaplen : Z; netmask : Z;
  rfile : bool;    (* [bpf_pcap->rfile != NULL] *)
  swapped : bool   (* [bpf_pcap->swapped] *) }.

Definition with_link (v : link_offsets) (e : genv) : genv :=
  mk_genv (linktype e) (pcap_fddipad e) v (g_atm e) (g_ss7 e) (g_encap e) (g_regs e)
    (no_optimize e) (snaplen e) (netmask e) (rfile e) (swapped e).
Definition with_atm (v : atm_offsets) (e : genv) : genv :=
  mk_genv (linktype e) (pcap_fddipad e) (g_link e) v (g_ss7 e) (g_encap e) (g_regs e)
    (no_optimize e) (snaplen e) (netmask e) (rfile e) (swapped e).
Definition with_encap (v : encapsulation) (e : genv) : genv :=
  mk_genv (linktype e) (pcap_fddipad e) (g_link e) (g_atm e) (g_ss7 e) v (g_regs e)
    (no_optimize e) (snaplen e) (netmask e) (rfile e) (swapped e).
Definition with_regs (v : registers) (e : genv) : genv :=
  mk_genv (linktype e) (pcap_fddipad e) (g_link e) (g_atm e) (g_ss7 e) (g_encap e) v
    (no_optimize e) (snaplen e) (netmask e) (rfile e) (swapped e).
Definition with_no_optimize (v : bool) (e : genv) : genv :=
  mk_genv (linktype e) (pcap_fddipad e) (g_link e) (g_atm e) (g_ss7 e) (g_encap e) (g_regs e)
    v (snaplen e) (netmask e) (rfile e) (swapped e).

(** ** The monad *)

(** The variables, the blocks, and the address of the next statement. *)
Record gstate := mk_gstate { gs_env : genv; gs_heap : heap; gs_addr : nat }.

Inductive gres (A : Type) :=
| GOk (a : A) (s : gstate)
| GError (fmt : string)
| GAbort
| GStuck.
Arguments GOk {A} _ _.
Arguments GError {A} _.
Arguments GAbort {A}.
Arguments GStuck {A}.

Definition G (A : Type) : Type := gstate -> gres A.

#[export] Instance G_ret : MRet G := fun A a s => GOk a s.
#[export] Instance G_bind : MBind G := fun A B k m s =>
  match m s with
  | GOk a s' => k a s'
  | GError fmt => GError fmt
  | GAbort => GAbort
  | GStuck => GStuck
  end.

Definition bpf_error {A} (fmt : string) : G A := fun _ => GError fmt.
Definition abort {A} : G A := fun _ => GAbort.
(** Behaviour C gives no meaning to. *)
Definition undefined {A} : G A := fun _ => GStuck.

Definition getv {A} (f : genv -> A) : G A := fun s => GOk (f (gs_env s)) s.
Definition setv (f : genv -> genv) : G unit := fun s =>
  GOk tt (mk_gstate (f (gs_env s)) (gs_heap s) (gs_addr s)).

(** An operation on the blocks that may dereference a bad pointer. *)
Definition on_heap (f : heap -> option heap) : G unit := fun s =>
  match f (gs_heap s) with
  | Some h => GOk tt (mk_gstate (gs_env s) h (gs_addr s))
  | None => GStuck
  end.

(** A pointer that must not be null. *)
Definition deref {A} (q : option A) : G A := fun s =>
  match q with Some a => GOk a s | None => GStuck end.

Definition one_of (x : Z) (l : list Z) : bool := existsb (Z.eqb x) l.

(** ** Statements and blocks *)

(** [s = new_stmt(code); s->s.k = k]; the code leaves [k] at 0 where it does not set it. *)
Definition new_stmt (c k : Z) : G slist := fun s =>
  GOk [mk_snode (gs_addr s) (mk_stmt c None None (s32 k))]
      (mk_gstate (gs_env s) (gs_heap s) (S (gs_addr s))).

(** [sappend(s0, s1)], on a list no other list shares. *)
Definition sappend (s0 s1 : slist) : slist := (s0 ++ s1)%list.

(** [b = new_block(JMP(jtype)); b->stmts = ss; b->s.k = v] *)
Definition new_test (jtype : Z) (ss : slist) (v : Z) : G nat := fun s =>
  let '(b, h) := gen_cond ss jtype (s32 v) (gs_heap s) in
  GOk b (mk_gstate (gs_env s) h (gs_addr s)).

Definition g_and (b0 b1 : nat) : G unit := on_heap (fun h => gen_and h b0 b1).
Definition g_or (b0 b1 : nat) : G unit := on_heap (fun h => gen_or h b0 b1).
Definition g_not (b : nat) : G unit := on_heap (fun h => Some (gen_not h b)).

(** ** Registers *)

Definition init_regs : G unit :=
  setv (fun e => with_regs (mk_registers (replicate (Z.to_nat BPF_MEMWORDS) false) 0
    (reg_off_ll (g_regs e)) (reg_off_macpl (g_regs e))) e).

(** The loop of [alloc_reg]: the register and the table, or [None] when the [n] tries left
    all find a register in use. *)
Fixpoint find_reg (n : nat) (used : list bool) (cur : Z) : option (Z * list bool) :=
  match n with
  | O => None
  | S n =>
      if default true (used !! Z.to_nat cur)
      then find_reg n used ((cur + 1) mod BPF_MEMWORDS)
      else Some (cur, <[Z.to_nat cur := true]> used)
  end.

Definition alloc_reg : G Z :=
  r ← getv g_regs;
  match find_reg (Z.to_nat BPF_MEMWORDS) (regused r) (curreg r) with
  | Some (n, used) =>
      _ ← setv (with_regs (mk_registers used n (reg_off_ll r) (reg_off_macpl r)));
      mret n
  | None => bpf_error "too many registers needed to evaluate expression"
  end.

Definition free_reg (n : Z) : G unit :=
  setv (fun e =>
    let r := g_regs e in
    with_regs (mk_registers (<[Z.to_nat n := false]> (regused r)) (curreg r)
      (reg_off_ll r) (reg_off_macpl r)) e).

(** ** [init_linktype] *)

Definition neg1 : Z := u32 (-1).

(** The cases of the switch: [off_linktype], [off_macpl], [off_nl] and [off_nl_nosnap].
    [fddipad] is [pcap_fddipad]; [None] is the error at the end. *)
Definition linktype_offsets (dlt fddipad : Z) : option (Z * Z * Z * Z) :=
  if dlt =? DLT_ARCNET then Some (2, 6, 0, 0)
  else if dlt =? DLT_ARCNET_LINUX then Some (4, 8, 0, 0)
  else if dlt =? DLT_EN10MB then Some (12, 14, 0, 3)
  else if dlt =? DLT_SLIP then Some (neg1, 16, 0, 0)
  else if dlt =? DLT_SLIP_BSDOS then Some (neg1, 24, 0, 0)
  else if one_of dlt [DLT_NULL; DLT_LOOP] then Some (0, 4, 0, 0)
  else if dlt =? DLT_ENC then Some (0, 12, 0, 0)
  else if one_of dlt [DLT_PPP; DLT_PPP_PPPD; DLT_C_HDLC; DLT_PPP_SERIAL] then Some (2, 4, 0, 0)
  else if dlt =? DLT_PPP_ETHER then Some (6, 8, 0, 0)
  else if dlt =? DLT_PPP_BSDOS then Some (5, 24, 0, 0)
  else if dlt =? DLT_FDDI then Some (u32 (13 + fddipad), u32 (13 + fddipad), 8, 3)
  else if dlt =? DLT_IEEE802 then Some (14, 14, 8, 3)
  else if one_of dlt [DLT_IEEE802_11; DLT_PRISM_HEADER; DLT_IEEE802_11_RADIO_AVS;
                      DLT_IEEE802_11_RADIO; DLT_PPI] then Some (24, 0, 8, 3)
  else if one_of dlt [DLT_ATM_RFC1483; DLT_ATM_CLIP] then Some (0, 0, 8, 3)
  else if dlt =? DLT_SUNATM then Some (SUNATM_PKT_BEGIN_POS, SUNATM_PKT_BEGIN_POS, 8, 3)
  else if one_of dlt [DLT_RAW; DLT_IPV4; DLT_IPV6] then Some (neg1, 0, 0, 0)
  else if dlt =? DLT_LINUX_SLL then Some (14, 16, 0, 0)
  else if dlt =? DLT_LTALK then Some (neg1, 0, 0, 0)
  else if dlt =? DLT_IP_OVER_FC then Some (16, 16, 8, 3)
  else if dlt =? DLT_FRELAY then Some (neg1, 0, 0, 0)
  else if dlt =? DLT_MFR then Some (neg1, 0, 4, 0)
  else if dlt =? DLT_APPLE_IP_OVER_IEEE1394 then Some (16, 18, 0, 0)
  else if dlt =? DLT_SYMANTEC_FIREWALL then Some (6, 44, 0, 0)
  else if one_of dlt [DLT_JUNIPER_MFR; DLT_JUNIPER_MLFR; DLT_JUNIPER_MLPPP; DLT_JUNIPER_PPP;
                      DLT_JUNIPER_CHDLC; DLT_JUNIPER_FRELAY] then Some (4, 4, 0, neg1)
  else if dlt =? DLT_JUNIPER_ATM1 then Some (4, 4, 0, 10)
  else if dlt =? DLT_JUNIPER_ATM2 then Some (8, 8, 0, 10)
  else if one_of dlt [DLT_JUNIPER_PPPOE; DLT_JUNIPER_ETHER] then Some (16, 14, 18, 21)
  else if dlt =? DLT_JUNIPER_PPPOE_ATM then Some (4, 6, 0, neg1)
  else if dlt =? DLT_JUNIPER_GGSN then Some (6, 12, 0, neg1)
  else if dlt =? DLT_JUNIPER_ES then Some (6, neg1, neg1, neg1)
  else if dlt =? DLT_JUNIPER_MONITOR then Some (12, 12, 0, neg1)
  else if dlt =? DLT_BACNET_MS_TP then Some (neg1, neg1, neg1, neg1)
  else if dlt =? DLT_JUNIPER_SERVICES then Some (12, neg1, neg1, neg1)
  else if one_of dlt [DLT_JUNIPER_VP; DLT_JUNIPER_ST] then Some (18, neg1, neg1, neg1)
  else if dlt =? DLT_JUNIPER_ISM then Some (8, neg1, neg1, neg1)
  else if one_of dlt [DLT_JUNIPER_VS; DLT_JUNIPER_SRX_E2E; DLT_JUNIPER_FIBRECHANNEL;
                      DLT_JUNIPER_ATM_CEMIC] then Some (8, neg1, neg1, neg1)
  else if one_of dlt [DLT_MTP2; DLT_MTP2_WITH_PHDR; DLT_ERF] then Some (neg1, neg1, neg1, neg1)
  else if dlt =? DLT_PFSYNC then Some (neg1, 4, 0, 0)
  else if dlt =? DLT_AX25_KISS then Some (neg1, neg1, neg1, neg1)
  else if dlt =? DLT_IPNET then Some (1, 24, 0, neg1)
  else if dlt =? DLT_NETANALYZER then Some (16, 18, 0, 3)
  else if dlt =? DLT_NETANALYZER_TRANSPARENT then Some (24, 26, 0, 3)
  else if (DLT_MATCHING_MIN <=? dlt) && (dlt <=? DLT_MATCHING_MAX)
  then Some (neg1, neg1, neg1, neg1)
  else None.

(** [off_mac], set by three of the cases and 0 in the others. *)
Definition linktype_off_mac (dlt : Z) : Z :=
  if dlt =? DLT_SUNATM then neg1
  else if dlt =? DLT_AX25_KISS then 1
  else if dlt =? DLT_NETANALYZER then 4
  else if dlt =? DLT_NETANALYZER_TRANSPARENT then 12
  else 0.

Definition linktype_atm (dlt : Z) : atm_offsets :=
  if dlt =? DLT_SUNATM
  then mk_atm true false SUNATM_VPI_POS SUNATM_VCI_POS PROTO_POS SUNATM_PKT_BEGIN_POS
  else mk_atm false false neg1 neg1 neg1 neg1.

Definition linktype_ss7 (dlt : Z) : ss7_offsets :=
  if dlt =? DLT_MTP2 then mk_ss7 2 4 3 4 4 7
  else if dlt =? DLT_MTP2_WITH_PHDR then mk_ss7 6 8 7 8 8 11
  else if dlt =? DLT_ERF then mk_ss7 22 24 23 24 24 27
  else mk_ss7 neg1 neg1 neg1 neg1 neg1 neg1.

(** [init_linktype(p)], for the link-layer type and the FDDI padding of the handle. *)
Definition init_linktype (dlt fddipad : Z) : G unit :=
  match linktype_offsets dlt fddipad with
  | Some (lt, macpl, nl, nosnap) =>
      let variable := one_of dlt [DLT_IEEE802_11; DLT_PRISM_HEADER; DLT_IEEE802_11_RADIO_AVS;
                                  DLT_IEEE802_11_RADIO; DLT_PPI] in
      setv (fun e =>
        mk_genv dlt fddipad (mk_link 0 (linktype_off_mac dlt) macpl variable lt nl nosnap)
          (linktype_atm dlt) (linktype_ss7 dlt) (mk_encap false neg1 neg1 0)
          (mk_registers (regused (g_regs e)) (curreg (g_regs e)) (-1) (-1))
          (no_optimize e) (snaplen e) (netmask e) (rfile e) (swapped e))
  | None => bpf_error "unknown data link type %d"
  end.
