(* ===== verification/Names.v ===== *)
(** * Names and addresses (nametoaddr.c)

    Names of ports, protocols and addresses, and the numeric forms of addresses. The
    databases of the system ([getservbyname] and the like) are arguments; the tables and
    the parsers of the library are defined here. A C string is a [string]; characters are
    signed. *)
From stdpp Require Import base numbers list.
From Stdlib Require Import Strings.Byte Strings.String Strings.Ascii.
From S2P Require Import Prelude BpfInsn BpfImage LinkType Datalink GenConst GenState EtherEnt.
Open Scope Z_scope.

(** A [char], as an [int]. *)
Definition char_int (c : ascii) : Z := let z := ascii_Z c in if z <? 128 then z else z - 256.

(** ** [sscanf] *)

Fixpoint skip_blanks (s : string) : string :=
  match s with String c s' => if isspace (ascii_Z c) then skip_blanks s' else s | EmptyString => s end.

(** The digits at the start of a string, their value, and the rest. *)
Fixpoint scan_digits (acc : Z) (s : string) : Z * string :=
  match s with
  | String c s' => if isdigit (ascii_Z c) then scan_digits (acc * 10 + (ascii_Z c - 48)) s' else (acc, s)
  | EmptyString => (acc, s)
  end.

Definition starts_with_digit (s : string) : bool :=
  match s with String c _ => isdigit (ascii_Z c) | EmptyString => false end.

(** [%d], stored into an unsigned object: blanks, a sign, digits; a number out of the range
    of [long] is the nearest one in it. *)
Definition scan_d (s : string) : option (Z * string) :=
  let s := skip_blanks s in
  let '(neg, s) := match s with
                   | String c s' => if (ascii_Z c =? 45) then (true, s') else if (ascii_Z c =? 43) then (false, s') else (false, s)
                   | EmptyString => (false, s)
                   end in
  if starts_with_digit s then
    let '(n, rest) := scan_digits 0 s in
    let n := if neg then Z.max (- n) (- 2 ^ 63) else Z.min n (2 ^ 63 - 1) in
    Some (u32 n, rest)
  else None.

(** A character of the format that is not a conversion. *)
Definition scan_char (c : Z) (s : string) : option string :=
  match s with String a s' => if ascii_Z a =? c then Some s' else None | EmptyString => None end.

(** [sscanf(s, "%d<sep>%d", ...)] that returns 2. *)
Definition scan_pair (sep : Z) (s : string) : option (Z * Z) :=
  '(a, s) ← scan_d s;
  s ← scan_char sep s;
  '(b, _) ← scan_d s;
  Some (a, b).

(** [strchr(s, c)]: what comes before the first [c], and after it. *)
Fixpoint split_char (c : Z) (s : string) : option (string * string) :=
  match s with
  | EmptyString => None
  | String a s' =>
      if ascii_Z a =? c then Some (EmptyString, s')
      else '(before, after) ← split_char c s'; Some (String a before, after)
  end.

(** ** Ports and protocols *)

Section Databases.
(** [getservbyname(name, proto)]: the port, in network byte order. *)
Context (getservbyname : string -> string -> option Z).
(** [getprotobyname(name)], [getnetbyname(name)]: the number. *)
Context (getprotobyname getnetbyname : string -> option Z).

(** [pcap_nametonetaddr(name)] *)
Definition pcap_nametonetaddr (name : string) : Z := default 0 (getnetbyname name).

(** [pcap_nametoport(name, &port, &proto)]: [None] when it returns 0. *)
Definition pcap_nametoport (name : string) : option (Z * Z) :=
  let tcp_port := match getservbyname name "tcp" with Some p => SWAPSHORT p | None => -1 end in
  let udp_port := match getservbyname name "udp" with Some p => SWAPSHORT p | None => -1 end in
  if 0 <=? tcp_port then
    Some (tcp_port, if (0 <=? udp_port) && (udp_port =? tcp_port) then PROTO_UNDEF else IPPROTO_TCP)
  else if 0 <=? udp_port then Some (udp_port, IPPROTO_UDP)
  else None.

(** [pcap_nametoportrange(name, &port1, &port2, &proto)]; the numbers of the first form are
    stored into [int] objects. *)
Definition pcap_nametoportrange (name : string) : option (Z * Z * Z) :=
  match scan_pair 45 name with
  | None =>
      '(before, after) ← split_char 45 name;
      '(port1, save_proto) ← pcap_nametoport before;
      '(port2, proto) ← pcap_nametoport after;
      Some (port1, port2, if negb (proto =? save_proto) then PROTO_UNDEF else proto)
  | Some (p1, p2) => Some (s32 p1, s32 p2, PROTO_UNDEF)
  end.

(** [pcap_nametoproto(str)] *)
Definition pcap_nametoproto (str : string) : Z := default PROTO_UNDEF (getprotobyname str).
End Databases.

(** [eproto_db], with INET6 *)
Definition eproto_db : list (string * Z) :=
  [("pup", ETHERTYPE_PUP); ("xns", ETHERTYPE_NS); ("ip", ETHERTYPE_IP); ("ip6", ETHERTYPE_IPV6);
   ("arp", ETHERTYPE_ARP); ("rarp", ETHERTYPE_REVARP); ("sprite", ETHERTYPE_SPRITE);
   ("mopdl", ETHERTYPE_MOPDL); ("moprc", ETHERTYPE_MOPRC); ("decnet", ETHERTYPE_DN);
   ("lat", ETHERTYPE_LAT); ("sca", ETHERTYPE_SCA); ("lanbridge", ETHERTYPE_LANBRIDGE);
   ("vexp", ETHERTYPE_VEXP); ("vprod", ETHERTYPE_VPROD); ("atalk", ETHERTYPE_ATALK);
   ("atalkarp", ETHERTYPE_AARP); ("loopback", ETHERTYPE_LOOPBACK); ("decdts", ETHERTYPE_DECDTS);
   ("decdns", ETHERTYPE_DECDNS)]%string.

(** [llc_db] *)
Definition llc_db : list (string * Z) :=
  [("iso", LLCSAP_ISONS); ("stp", LLCSAP_8021D); ("ipx", LLCSAP_IPX); ("netbeui", LLCSAP_NETBEUI)]%string.

(** The loop of the two functions. *)
Fixpoint eproto_lookup (db : list (string * Z)) (s : string) : Z :=
  match db with
  | [] => PROTO_UNDEF
  | (name, p) :: db => if String.eqb name s then p else eproto_lookup db s
  end.

Definition pcap_nametoeproto (s : string) : Z := eproto_lookup eproto_db s.
Definition pcap_nametollc (s : string) : Z := eproto_lookup llc_db s.

(** ** Addresses *)

(** The loops of [__pcap_atoin]: [n] is the number read so far. *)
Fixpoint atoin_loop (s : string) (n addr len : Z) : Z * Z :=
  let put := u32 (Z.shiftl addr 8) ||| (n &&& 0xff) in
  match s with
  | EmptyString => (len + 8, put)
  | String c s' =>
      if ascii_Z c =? 46 then atoin_loop s' 0 put (len + 8)
      else atoin_loop s' (u32 (n * 10 + char_int c - 48)) addr len
  end.

(** [__pcap_atoin(s, &addr)]: the length in bits, and the address. *)
Definition __pcap_atoin (s : string) : Z * Z := atoin_loop s 0 0 0.

(** [__pcap_atodn(s, &addr)] *)
Definition AREASHIFT := 10.
Definition AREAMASK := 0xfc00.
Definition NODEMASK := 0x3ff.
Definition __pcap_atodn (s : string) : G (Z * Z) :=
  match scan_pair 46 s with
  | None => bpf_error "malformed decnet address '%s'"
  | Some (area, node) => mret (32, (u32 (Z.shiftl area AREASHIFT) &&& AREAMASK) ||| (node &&& NODEMASK))
  end.

(** The loop of [pcap_ether_aton]: the octets written. [None]: the string ends where a digit
    should be, or more than the six octets allocated are written. *)
Fixpoint ether_aton_loop (fuel : nat) (s : string) (out : list byte) : option (list byte) :=
  match s, fuel with
  | EmptyString, _ => if (List.length out <=? 6)%nat then Some out else None
  | _, O => None
  | String c s1, S n =>
      let s := if one_of (ascii_Z c) [58; 46; 45] then s1 else s in
      match s with
      | EmptyString => None
      | String c s =>
          let d := xdtoi (char_int c) in
          let '(d, s) := match s with
                         | String c2 s2 =>
                             if isxdigit (ascii_Z c2) then (Z.shiftl d 4 ||| xdtoi (char_int c2), s2) else (d, s)
                         | EmptyString => (d, s)
                         end in
          ether_aton_loop n s (out ++ [z2b d])
      end
  end.
(** [pcap_ether_aton(s)]; [Some None] is the null pointer for want of memory. *)
Definition pcap_ether_aton (malloc_ok : bool) (s : string) : option (option (list byte)) :=
  if malloc_ok then Some <$> ether_aton_loop (String.length s) s [] else Some None.

(** [__pcap_nametodnaddr(name)], without DECNETLIB *)
Definition __pcap_nametodnaddr (name : string) : G Z :=
  bpf_error ("decnet name support not included, '%s' cannot be translated" ++ String (ascii_of_nat 10) EmptyString).

(** ** Addresses that were printed are read back *)

(** [a.b.c.d], with any number of octets. *)
Fixpoint dotted (os : list byte) : string :=
  match os with
  | [] => EmptyString
  | [o] => print_u 10 (b2z o)
  | o :: os => print_u 10 (b2z o) ++ String "." (dotted os)
  end.

Lemma atoin_octet o s addr len :
  atoin_loop (print_u 10 (b2z o) ++ s) 0 addr len = atoin_loop s (b2z o) addr len.
Proof. destruct o; reflexivity. Qed.

Lemma put_octet addr o : u32 (Z.shiftl (u32 addr) 8) ||| (b2z o &&& 0xff) = u32 (addr * 256 + b2z o).
Proof.
  pose proof (b2z_range o) as Ho. change 0xff with (Z.ones 8). rewrite Z.land_ones by lia.
  rewrite (Z.mod_small (b2z o)) by (change (2 ^ 8) with 256; lia).
  unfold u32 in *. rewrite Z.shiftl_mul_pow2 by lia. change (2 ^ 8) with 256.
  rewrite Zmult_mod_idemp_l. change (2 ^ 32) with (2 ^ 24 * 256). rewrite Zmult_mod_distr_r.
  set (a := addr mod 2 ^ 24). assert (0 <= a < 2 ^ 24) as Ha by (apply Z.mod_pos_bound; lia).
  change (a * 256) with (a * 2 ^ 8). rewrite lor_add_disjoint by (change (2 ^ 8) with 256; lia). change (2 ^ 8) with 256.
  rewrite (Z.div_mod addr (2 ^ 24)) at 1 by lia. fold a.
  apply (Z.mod_unique_pos _ _ (addr / 2 ^ 24)); [lia|]. ring.
Qed.

Lemma atoin_dotted os addr len : os <> [] ->
  atoin_loop (dotted os) 0 (u32 addr) len =
  (len + 8 * Z.of_nat (List.length os), u32 (fold_left (fun a o => a * 256 + b2z o) os addr)).
Proof.
  revert addr len; induction os as [|o os IH]; intros addr len Hne; [done|]. destruct os as [|o' os].
  - cbn [dotted]. replace (print_u 10 (b2z o)) with (print_u 10 (b2z o) ++ "")%string by now destruct o.
    rewrite atoin_octet. cbn [atoin_loop fold_left].
    rewrite put_octet. reflexivity.
  - change (dotted (o :: o' :: os)) with (print_u 10 (b2z o) ++ String "." (dotted (o' :: os)))%string.
    rewrite atoin_octet. cbn [atoin_loop]. change (ascii_Z "." =? 46) with true. cbn match.
    rewrite put_octet, IH by done. f_equal. cbn [List.length]. lia.
Qed.

(** C19: the numeric form of an address is read back: [__pcap_atoin] of the octets in decimal,
    separated by dots, is the address they spell (the last four when there are more), with
    its length in bits. *)
Theorem atoin_roundtrip os : os <> [] ->
  __pcap_atoin (dotted os) = (8 * Z.of_nat (List.length os), u32 (be_val os)).
Proof. intros Hne. unfold __pcap_atoin. change 0 with (u32 0) at 2. now rewrite atoin_dotted. Qed.

(** A hardware address: octets of two hexadecimal digits, each but the first after a
    separator or none. *)
Definition byte_ascii (b : byte) : ascii := ascii_of_byte b.
Definition hex_octet (o : byte) (s : string) : string :=
  String (byte_ascii (hex_digit (Z.shiftr (b2z o) 4))) (String (byte_ascii (hex_digit (Z.land (b2z o) 15))) s).
Definition separator_ok (sep : option ascii) : bool :=
  match sep with Some c => one_of (ascii_Z c) [58; 46; 45] | None => true end.
Fixpoint hex_octets (os : list (option ascii * byte)) : string :=
  match os with
  | [] => EmptyString
  | (Some c, o) :: os => String c (hex_octet o (hex_octets os))
  | (None, o) :: os => hex_octet o (hex_octets os)
  end.

Lemma aton_octet n o s out :
  ether_aton_loop (S n) (hex_octet o s) out = ether_aton_loop n s (out ++ [o]).
Proof. destruct o; reflexivity. Qed.

Lemma aton_separated n c o s out : one_of (ascii_Z c) [58; 46; 45] = true ->
  ether_aton_loop (S n) (String c (hex_octet o s)) out = ether_aton_loop n s (out ++ [o]).
Proof. intros Hc. cbn [ether_aton_loop]. rewrite Hc. destruct o; reflexivity. Qed.

Lemma aton_octets os : forallb (fun x => separator_ok (fst x)) os = true ->
  forall n out, (List.length os <= n)%nat ->
  ether_aton_loop n (hex_octets os) out =
  if (List.length (out ++ map snd os)%list <=? 6)%nat then Some (out ++ map snd os)%list else None.
Proof.
  induction os as [|[sep o] os IH]; cbn [forallb fst]; intros Hos n out Hn.
  - cbn [map]. rewrite app_nil_r. now destruct n.
  - apply andb_prop in Hos as [Hs Hos]. destruct n as [|n]; [cbn in Hn; lia|].
    assert (ether_aton_loop (S n) (hex_octets ((sep, o) :: os)) out = ether_aton_loop n (hex_octets os) (out ++ [o])) as ->
      by (destruct sep; cbn [hex_octets]; [now apply aton_separated|apply aton_octet]).
    cbn in Hn. rewrite IH; [|done|lia]. cbn [map snd]. now rewrite <- app_assoc.
Qed.

(** C20: a hardware address is read back: [pcap_ether_aton] of at most six octets, written
    with two hexadecimal digits each and any mixture of the separators between them, gives
    the octets, or a null pointer when there is no memory for them; a seventh octet would be
    stored past the end of the six allocated. *)
Theorem ether_aton_roundtrip malloc_ok os :
  forallb (fun x => separator_ok (fst x)) os = true ->
  pcap_ether_aton malloc_ok (hex_octets os) =
  if malloc_ok then if (List.length os <=? 6)%nat then Some (Some (map snd os)) else None else Some None.
Proof.
  intros Hos. unfold pcap_ether_aton. destruct malloc_ok; [|done]. rewrite aton_octets; [|done|].
  - cbn [app]. rewrite length_map. now destruct (_ <=? 6)%nat.
  - clear. induction os as [|[[c|] o] os IH]; cbn [hex_octets String.length List.length hex_octet]; lia.
Qed.

Lemma atoin_roundtrip_witness :
  __pcap_atoin "192.168.0.1" = (32, 0xc0a80001) /\
  (map z2b [192; 168; 0; 1] <> [] /\
   __pcap_atoin (dotted (map z2b [192; 168; 0; 1])) =
   (8 * Z.of_nat (List.length (map z2b [192; 168; 0; 1])), u32 (be_val (map z2b [192; 168; 0; 1])))).
Proof. split; [vm_compute; reflexivity|]. split; [discriminate|]. apply atoin_roundtrip. discriminate. Defined.

Definition octets_sample : list (option ascii * byte) :=
  [(None, z2b 0); (None, z2b 0x1b); (Some "."%char, z2b 0x21); (None, z2b 0xff); (Some "-"%char, z2b 2); (Some ":"%char, z2b 3)].
Lemma ether_aton_roundtrip_witness :
  hex_octets octets_sample = "001b.21ff-02:03"%string /\
  (forallb (fun x => separator_ok (fst x)) octets_sample = true /\
   pcap_ether_aton true (hex_octets octets_sample) =
   if (List.length octets_sample <=? 6)%nat then Some (Some (map snd octets_sample)) else None).
Proof.
  split; [vm_compute; reflexivity|]. split; [vm_compute; reflexivity|].
  apply (ether_aton_roundtrip true). vm_compute. reflexivity.
Defined.
