(* ===== verification/GenLoad.v ===== *)
(** * Loads and comparisons of the code generator (gencode.c)

    Loading a field relative to a header, comparing it with a value, and comparing a run of
    bytes. For link-layer types with a variable-length prefix or header the offset is read
    from a register that the first block of the program fills (GenFinish.v). *)
From stdpp Require Import base numbers list gmap.
From Stdlib Require Import Strings.Byte Strings.String.
From S2P Require Import Prelude BpfInsn BpfFilter Icode Gencode GencodeFilter LinkType GenConst GenState.
Open Scope Z_scope.

(** [enum e_offrel] *)
Inductive e_offrel := OR_PACKET | OR_LINK | OR_MACPL | OR_NET | OR_NET_NOSNAP | OR_TRAN_IPV4 | OR_TRAN_IPV6.

(** ** Variable-length headers *)

(** [gen_prism_llprefixlen], and the three other functions with the same body: load the
    register that holds the length of the prefix, allocating it if there is none yet. *)
Definition gen_prism_llprefixlen : G slist :=
  r ← getv g_regs;
  reg ← (if reg_off_ll r =? -1
         then n ← alloc_reg;
              _ ← setv (fun e => with_regs (mk_registers (regused (g_regs e)) (curreg (g_regs e))
                                              n (reg_off_macpl (g_regs e))) e);
              mret n
         else mret (reg_off_ll r));
  new_stmt (BPF_LDX ||| BPF_MEM) reg.
Definition gen_avs_llprefixlen : G slist := gen_prism_llprefixlen.
Definition gen_radiotap_llprefixlen : G slist := gen_prism_llprefixlen.
Definition gen_ppi_llprefixlen : G slist := gen_prism_llprefixlen.

(** [gen_llprefixlen()]: [None] for the null pointer. *)
Definition gen_llprefixlen : G (option slist) :=
  dlt ← getv linktype;
  if dlt =? DLT_PRISM_HEADER then s ← gen_prism_llprefixlen; mret (Some s)
  else if dlt =? DLT_IEEE802_11_RADIO_AVS then s ← gen_avs_llprefixlen; mret (Some s)
  else if dlt =? DLT_IEEE802_11_RADIO then s ← gen_radiotap_llprefixlen; mret (Some s)
  else if dlt =? DLT_PPI then s ← gen_ppi_llprefixlen; mret (Some s)
  else mret None.

(** [gen_off_macpl()] *)
Definition gen_off_macpl : G (option slist) :=
  l ← getv g_link;
  if off_macpl_is_variable l then
    r ← getv g_regs;
    reg ← (if reg_off_macpl r =? -1
           then n ← alloc_reg;
                _ ← setv (fun e => with_regs (mk_registers (regused (g_regs e)) (curreg (g_regs e))
                                                (reg_off_ll (g_regs e)) n) e);
                mret n
           else mret (reg_off_macpl r));
    s ← new_stmt (BPF_LDX ||| BPF_MEM) reg;
    mret (Some s)
  else mret None.

(** ** Loads *)

(** [gen_load_llrel(offset, size)] *)
Definition gen_load_llrel (offset size : Z) : G slist :=
  s ← gen_llprefixlen;
  match s with
  | Some s =>
      s2 ← new_stmt (BPF_LD ||| BPF_IND ||| size) offset;
      mret (sappend s s2)
  | None =>
      l ← getv g_link;
      new_stmt (BPF_LD ||| BPF_ABS ||| size) (u32 (offset + off_ll l))
  end.

(** [gen_load_macplrel(offset, size)] *)
Definition gen_load_macplrel (offset size : Z) : G slist :=
  s ← gen_off_macpl;
  match s with
  | Some s =>
      s2 ← new_stmt (BPF_LD ||| BPF_IND ||| size) offset;
      mret (sappend s s2)
  | None =>
      l ← getv g_link;
      new_stmt (BPF_LD ||| BPF_ABS ||| size) (u32 (off_macpl l + offset))
  end.

(** [gen_loadx_iphdrlen()] *)
Definition gen_loadx_iphdrlen : G slist :=
  s ← gen_off_macpl;
  l ← getv g_link;
  match s with
  | Some s =>
      s2 ← new_stmt (BPF_LD ||| BPF_IND ||| BPF_B) (off_nl l);
      let s := sappend s s2 in
      s2 ← new_stmt (BPF_ALU ||| BPF_AND ||| BPF_K) 0xf;
      let s := sappend s s2 in
      s2 ← new_stmt (BPF_ALU ||| BPF_LSH ||| BPF_K) 2;
      let s := sappend s s2 in
      s2 ← new_stmt (BPF_ALU ||| BPF_ADD ||| BPF_X) 0;
      let s := sappend s s2 in
      s2 ← new_stmt (BPF_MISC ||| BPF_TAX) 0;
      mret (sappend s s2)
  | None => new_stmt (BPF_LDX ||| BPF_MSH ||| BPF_B) (u32 (off_macpl l + off_nl l))
  end.

(** [gen_load_a(offrel, offset, size)] *)
Definition gen_load_a (offrel : e_offrel) (offset size : Z) : G slist :=
  l ← getv g_link;
  match offrel with
  | OR_PACKET => new_stmt (BPF_LD ||| BPF_ABS ||| size) offset
  | OR_LINK => gen_load_llrel offset size
  | OR_MACPL => gen_load_macplrel offset size
  | OR_NET => gen_load_macplrel (u32 (off_nl l + offset)) size
  | OR_NET_NOSNAP => gen_load_macplrel (u32 (off_nl_nosnap l + offset)) size
  | OR_TRAN_IPV4 =>
      s ← gen_loadx_iphdrlen;
      s2 ← new_stmt (BPF_LD ||| BPF_IND ||| size) (u32 (off_macpl l + off_nl l + offset));
      mret (sappend s s2)
  | OR_TRAN_IPV6 => gen_load_macplrel (u32 (off_nl l + 40 + offset)) size
  end.

(** ** Comparisons *)

(** [gen_ncmp(offrel, offset, size, mask, jtype, reverse, v)] *)
Definition gen_ncmp (offrel : e_offrel) (offset size mask jtype : Z) (reverse : bool) (v : Z) : G nat :=
  s ← gen_load_a offrel offset size;
  s ← (if negb (mask =? 0xffffffff)
       then s2 ← new_stmt (BPF_ALU ||| BPF_AND ||| BPF_K) mask; mret (sappend s s2)
       else mret s);
  b ← new_test jtype s v;
  _ ← (if reverse && ((jtype =? BPF_JGT) || (jtype =? BPF_JGE)) then g_not b else mret tt);
  mret b.

Definition gen_cmp offrel offset size v := gen_ncmp offrel offset size 0xffffffff BPF_JEQ false v.
Definition gen_cmp_gt offrel offset size v := gen_ncmp offrel offset size 0xffffffff BPF_JGT false v.
Definition gen_cmp_ge offrel offset size v := gen_ncmp offrel offset size 0xffffffff BPF_JGE false v.
Definition gen_cmp_lt offrel offset size v := gen_ncmp offrel offset size 0xffffffff BPF_JGE true v.
Definition gen_cmp_le offrel offset size v := gen_ncmp offrel offset size 0xffffffff BPF_JGT true v.
Definition gen_mcmp offrel offset size v mask := gen_ncmp offrel offset size mask BPF_JEQ false v.

(** [if (b != NULL) gen_and(b, tmp); b = tmp;] *)
Definition and_then (b : option nat) (tmp : nat) : G (option nat) :=
  _ ← match b with Some b => g_and b tmp | None => mret tt end;
  mret (Some tmp).

(** One of the [while] loops of [gen_bcmp]: while [size] is at least the width of [sz], test
    the last field of that width; [b] and [size] at the end of the loop. A test takes at
    least a byte, so [size] iterations are enough. *)
Fixpoint bcmp_loop (fuel : nat) (sz : bpf_size) (code : Z) (offrel : e_offrel) (offset size : Z)
    (v : list byte) (b : option nat) : G (option nat * Z) :=
  let w := Z.of_nat (size_bytes sz) in
  if w <=? size then
    match fuel with
    | O => fun _ => GStuck
    | S n =>
        x ← deref (extract sz v (size - w));
        tmp ← gen_cmp offrel (u32 (offset + size - w)) code x;
        b ← and_then b tmp;
        bcmp_loop n sz code offrel offset (size - w) v b
    end
  else mret (b, size).

(** [gen_bcmp(offrel, offset, size, v)]: [None], a null pointer, when [size] is 0. *)
Definition gen_bcmp (offrel : e_offrel) (offset size : Z) (v : list byte) : G (option nat) :=
  '(b, size) ← bcmp_loop (Z.to_nat size) SzW BPF_W offrel offset size v None;
  '(b, size) ← bcmp_loop (Z.to_nat size) SzH BPF_H offrel offset size v b;
  if 0 <? size then
    x ← deref (extract SzB v 0);
    tmp ← gen_cmp offrel offset BPF_B x;
    and_then b tmp
  else mret b.

(** The block of a call with a size that is not 0. *)
Definition gen_bcmp_block (offrel : e_offrel) (offset size : Z) (v : list byte) : G nat :=
  b ← gen_bcmp offrel offset size v; deref b.

(** [gen_uncond(rsense)] *)
Definition gen_uncond (rsense : bool) : G nat :=
  s ← new_stmt (BPF_LD ||| BPF_IMM) (if rsense then 0 else 1);
  new_test BPF_JEQ s 0.
Definition gen_true : G nat := gen_uncond true.
Definition gen_false : G nat := gen_uncond false.
