(* ===== verification/GenLink.v ===== *)
(** * Tests of the link-layer type (gencode.c)

    [gen_linktype] and the functions it chooses from: Ethernet, Linux cooked captures,
    ipnet, LLC and SNAP, ATM, MPLS, PPP and the families with no type field. Reading and
    testing a packet is left to GenLoad.v. *)
From stdpp Require Import base numbers list gmap.
From Stdlib Require Import Strings.Byte Strings.String.
From S2P Require Import Prelude BpfInsn BpfFilter Icode Gencode GencodeFilter LinkType GenConst GenState GenLoad.
Open Scope Z_scope.

(** [gen_snap(orgcode, ptype)] *)
Definition snapblock (orgcode ptype : Z) : list byte :=
  map z2b [LLCSAP_SNAP; LLCSAP_SNAP; 0x03; Z.shiftr orgcode 16; Z.shiftr orgcode 8;
                 Z.shiftr orgcode 0; Z.shiftr ptype 8; Z.shiftr ptype 0].
Definition gen_snap (orgcode ptype : Z) : G nat :=
  gen_bcmp_block OR_MACPL 0 8 (snapblock orgcode ptype).

(** ** Ethernet *)

(** [b0 = gen_cmp_gt(OR_LINK, off_linktype, BPF_H, ETHERMTU); gen_not(b0);] *)
Definition gen_802_3 : G nat :=
  l ← getv g_link;
  b0 ← gen_cmp_gt OR_LINK (off_linktype l) BPF_H ETHERMTU;
  _ ← g_not b0;
  mret b0.

(** [gen_ether_linktype(proto)] *)
Definition gen_ether_linktype (proto : Z) : G nat :=
  l ← getv g_link;
  if one_of proto [LLCSAP_ISONS; LLCSAP_IP; LLCSAP_NETBEUI] then
    b0 ← gen_802_3;
    b1 ← gen_cmp OR_MACPL 0 BPF_H (Z.shiftl proto 8 ||| proto);
    _ ← g_and b0 b1;
    mret b1
  else if proto =? LLCSAP_IPX then
    b0 ← gen_cmp OR_MACPL 0 BPF_B LLCSAP_IPX;
    b1 ← gen_cmp OR_MACPL 0 BPF_H 0xFFFF;
    _ ← g_or b0 b1;
    b0 ← gen_snap 0x000000 ETHERTYPE_IPX;
    _ ← g_or b0 b1;
    b0 ← gen_802_3;
    _ ← g_and b0 b1;
    b0 ← gen_cmp OR_LINK (off_linktype l) BPF_H ETHERTYPE_IPX;
    _ ← g_or b0 b1;
    mret b1
  else if one_of proto [ETHERTYPE_ATALK; ETHERTYPE_AARP] then
    b0 ← gen_802_3;
    b1 ← (if proto =? ETHERTYPE_ATALK then gen_snap 0x080007 ETHERTYPE_ATALK
          else gen_snap 0x000000 ETHERTYPE_AARP);
    _ ← g_and b0 b1;
    b0 ← gen_cmp OR_LINK (off_linktype l) BPF_H proto;
    _ ← g_or b0 b1;
    mret b1
  else if proto <=? ETHERMTU then
    b0 ← gen_802_3;
    b1 ← gen_cmp OR_LINK (u32 (off_linktype l + 2)) BPF_B proto;
    _ ← g_and b0 b1;
    mret b1
  else gen_cmp OR_LINK (off_linktype l) BPF_H proto.

(** ** ipnet and Linux cooked captures *)

(** [gen_ipnet_linktype(proto)] *)
Definition gen_ipnet_linktype (proto : Z) : G nat :=
  l ← getv g_link;
  if proto =? ETHERTYPE_IP then gen_cmp OR_LINK (off_linktype l) BPF_B IPH_AF_INET
  else if proto =? ETHERTYPE_IPV6 then gen_cmp OR_LINK (off_linktype l) BPF_B IPH_AF_INET6
  else gen_false.

(** [gen_linux_sll_linktype(proto)] *)
Definition gen_linux_sll_linktype (proto : Z) : G nat :=
  l ← getv g_link;
  if one_of proto [LLCSAP_ISONS; LLCSAP_IP; LLCSAP_NETBEUI] then
    b0 ← gen_cmp OR_LINK (off_linktype l) BPF_H LINUX_SLL_P_802_2;
    b1 ← gen_cmp OR_MACPL 0 BPF_H (Z.shiftl proto 8 ||| proto);
    _ ← g_and b0 b1;
    mret b1
  else if proto =? LLCSAP_IPX then
    b0 ← gen_cmp OR_MACPL 0 BPF_B LLCSAP_IPX;
    b1 ← gen_snap 0x000000 ETHERTYPE_IPX;
    _ ← g_or b0 b1;
    b0 ← gen_cmp OR_LINK (off_linktype l) BPF_H LINUX_SLL_P_802_2;
    _ ← g_and b0 b1;
    b0 ← gen_cmp OR_LINK (off_linktype l) BPF_H LINUX_SLL_P_802_3;
    _ ← g_or b0 b1;
    b0 ← gen_cmp OR_LINK (off_linktype l) BPF_H ETHERTYPE_IPX;
    _ ← g_or b0 b1;
    mret b1
  else if one_of proto [ETHERTYPE_ATALK; ETHERTYPE_AARP] then
    b0 ← gen_cmp OR_LINK (off_linktype l) BPF_H LINUX_SLL_P_802_2;
    b1 ← (if proto =? ETHERTYPE_ATALK then gen_snap 0x080007 ETHERTYPE_ATALK
          else gen_snap 0x000000 ETHERTYPE_AARP);
    _ ← g_and b0 b1;
    b0 ← gen_cmp OR_LINK (off_linktype l) BPF_H proto;
    _ ← g_or b0 b1;
    mret b1
  else if proto <=? ETHERMTU then
    b0 ← gen_cmp OR_LINK (off_linktype l) BPF_H LINUX_SLL_P_802_2;
    b1 ← gen_cmp OR_LINK (off_macpl l) BPF_B proto;
    _ ← g_and b0 b1;
    mret b1
  else gen_cmp OR_LINK (off_linktype l) BPF_H proto.

(** ** LLC *)

(** [gen_llc_linktype(proto)] *)
Definition gen_llc_linktype (proto : Z) : G nat :=
  if one_of proto [LLCSAP_IP; LLCSAP_ISONS; LLCSAP_NETBEUI]
  then gen_cmp OR_MACPL 0 BPF_H (Z.shiftl proto 8 ||| proto)
  else if proto =? LLCSAP_IPX then gen_cmp OR_MACPL 0 BPF_B LLCSAP_IPX
  else if proto =? ETHERTYPE_ATALK then gen_snap 0x080007 ETHERTYPE_ATALK
  else if proto <=? ETHERMTU then gen_cmp OR_MACPL 0 BPF_B proto
  else gen_cmp OR_MACPL 6 BPF_H proto.

(** [gen_check_802_11_data_frame()] *)
Definition gen_check_802_11_data_frame : G nat :=
  s ← gen_load_a OR_LINK 0 BPF_B;
  b0 ← new_test BPF_JSET s 0x08;
  s ← gen_load_a OR_LINK 0 BPF_B;
  b1 ← new_test BPF_JSET s 0x04;
  _ ← g_not b1;
  _ ← g_and b1 b0;
  mret b0.

(** [gen_atmfield_code(atmfield, jvalue, jtype, reverse)] *)
Definition gen_atmfield_code (atmfield jvalue jtype : Z) (reverse : bool) : G nat :=
  a ← getv g_atm;
  if atmfield =? A_VPI then
    if negb (is_atm a) then bpf_error "'vpi' supported only on raw ATM"
    else if off_vpi a =? neg1 then abort
    else gen_ncmp OR_LINK (off_vpi a) BPF_B 0xffffffff jtype reverse jvalue
  else if atmfield =? A_VCI then
    if negb (is_atm a) then bpf_error "'vci' supported only on raw ATM"
    else if off_vci a =? neg1 then abort
    else gen_ncmp OR_LINK (off_vci a) BPF_H 0xffffffff jtype reverse jvalue
  else if atmfield =? A_PROTOTYPE then
    if off_proto a =? neg1 then abort
    else gen_ncmp OR_LINK (off_proto a) BPF_B 0x0f jtype reverse jvalue
  else if atmfield =? A_MSGTYPE then
    if off_payload a =? neg1 then abort
    else gen_ncmp OR_LINK (u32 (off_payload a + MSG_TYPE_POS)) BPF_B 0xffffffff jtype reverse jvalue
  else if atmfield =? A_CALLREFTYPE then
    if negb (is_atm a) then bpf_error "'callref' supported only on raw ATM"
    else if off_proto a =? neg1 then abort
    else gen_ncmp OR_LINK (off_proto a) BPF_B 0xffffffff jtype reverse jvalue
  else abort.

(** ** MPLS and PPP *)

(** [gen_mpls_linktype(proto)] *)
Definition gen_mpls_linktype (proto : Z) : G nat :=
  if proto =? Q_IP then
    b0 ← gen_mcmp OR_NET (u32 (-2)) BPF_B 0x01 0x01;
    b1 ← gen_mcmp OR_NET 0 BPF_B 0x40 0xf0;
    _ ← g_and b0 b1;
    mret b1
  else if proto =? Q_IPV6 then
    b0 ← gen_mcmp OR_NET (u32 (-2)) BPF_B 0x01 0x01;
    b1 ← gen_mcmp OR_NET 0 BPF_B 0x60 0xf0;
    _ ← g_and b0 b1;
    mret b1
  else abort.

(** [ethertype_to_ppptype(proto)] *)
Definition ethertype_to_ppptype (proto : Z) : Z :=
  if proto =? ETHERTYPE_IP then PPP_IP
  else if proto =? ETHERTYPE_IPV6 then PPP_IPV6
  else if proto =? ETHERTYPE_DN then PPP_DECNET
  else if proto =? ETHERTYPE_ATALK then PPP_APPLE
  else if proto =? ETHERTYPE_NS then PPP_NS
  else if proto =? LLCSAP_ISONS then PPP_OSI
  else if proto =? LLCSAP_8021D then PPP_BRPDU
  else if proto =? LLCSAP_IPX then PPP_IPX
  else proto.

(** ** [gen_linktype] *)

(** The link-layer types of the groups of case labels with many members. *)
Definition dlt_802_11 : list Z :=
  [DLT_IEEE802_11; DLT_PRISM_HEADER; DLT_IEEE802_11_RADIO_AVS; DLT_IEEE802_11_RADIO; DLT_PPI].
Definition dlt_juniper : list Z :=
  [DLT_JUNIPER_MFR; DLT_JUNIPER_MLFR; DLT_JUNIPER_MLPPP; DLT_JUNIPER_ATM1; DLT_JUNIPER_ATM2;
   DLT_JUNIPER_PPPOE; DLT_JUNIPER_PPPOE_ATM; DLT_JUNIPER_GGSN; DLT_JUNIPER_ES;
   DLT_JUNIPER_MONITOR; DLT_JUNIPER_SERVICES; DLT_JUNIPER_ETHER; DLT_JUNIPER_PPP;
   DLT_JUNIPER_FRELAY; DLT_JUNIPER_CHDLC; DLT_JUNIPER_VP; DLT_JUNIPER_ST; DLT_JUNIPER_ISM;
   DLT_JUNIPER_VS; DLT_JUNIPER_SRX_E2E; DLT_JUNIPER_FIBRECHANNEL; DLT_JUNIPER_ATM_CEMIC].

(** [case DLT_SUNATM:] *)
Definition gen_sunatm_linktype (proto : Z) : G nat :=
  a ← getv g_atm;
  if is_lane a then
    b0 ← gen_cmp OR_LINK SUNATM_PKT_BEGIN_POS BPF_H 0xFF00;
    _ ← g_not b0;
    b1 ← gen_ether_linktype proto;
    _ ← g_and b0 b1;
    mret b1
  else
    b0 ← gen_atmfield_code A_PROTOTYPE PT_LLC BPF_JEQ false;
    b1 ← gen_llc_linktype proto;
    _ ← g_and b0 b1;
    mret b1.

(** [case DLT_PPP_BSDOS:] *)
Definition gen_ppp_bsdos_linktype (proto : Z) : G nat :=
  l ← getv g_link;
  if proto =? ETHERTYPE_IP then
    b0 ← gen_cmp OR_LINK (off_linktype l) BPF_H PPP_IP;
    b1 ← gen_cmp OR_LINK (off_linktype l) BPF_H PPP_VJC;
    _ ← g_or b0 b1;
    b0 ← gen_cmp OR_LINK (off_linktype l) BPF_H PPP_VJNC;
    _ ← g_or b1 b0;
    mret b0
  else gen_cmp OR_LINK (off_linktype l) BPF_H (ethertype_to_ppptype proto).

(** [case DLT_NULL: case DLT_LOOP: case DLT_ENC:]; the host is little-endian, so [htonl]
    reverses the bytes. *)
Definition gen_null_linktype (proto : Z) : G nat :=
  dlt ← getv linktype;
  file ← getv rfile;
  swap ← getv swapped;
  let af := if proto =? ETHERTYPE_IP then Some AF_INET
            else if proto =? ETHERTYPE_IPV6 then Some AF_INET6 else None in
  match af with
  | None => gen_false
  | Some proto =>
      let proto :=
        if one_of dlt [DLT_NULL; DLT_ENC]
        then SWAPLONG (if file && swap then SWAPLONG proto else proto)
        else proto in
      gen_cmp OR_LINK 0 BPF_W proto
  end.

(** [case DLT_ARCNET: case DLT_ARCNET_LINUX:] *)
Definition gen_arcnet_linktype (proto : Z) : G nat :=
  l ← getv g_link;
  if proto =? ETHERTYPE_IPV6 then gen_cmp OR_LINK (off_linktype l) BPF_B ARCTYPE_INET6
  else if proto =? ETHERTYPE_IP then
    b0 ← gen_cmp OR_LINK (off_linktype l) BPF_B ARCTYPE_IP;
    b1 ← gen_cmp OR_LINK (off_linktype l) BPF_B ARCTYPE_IP_OLD;
    _ ← g_or b0 b1;
    mret b1
  else if proto =? ETHERTYPE_ARP then
    b0 ← gen_cmp OR_LINK (off_linktype l) BPF_B ARCTYPE_ARP;
    b1 ← gen_cmp OR_LINK (off_linktype l) BPF_B ARCTYPE_ARP_OLD;
    _ ← g_or b0 b1;
    mret b1
  else if proto =? ETHERTYPE_REVARP then gen_cmp OR_LINK (off_linktype l) BPF_B ARCTYPE_REVARP
  else if proto =? ETHERTYPE_ATALK then gen_cmp OR_LINK (off_linktype l) BPF_B ARCTYPE_ATALK
  else gen_false.

(** [case DLT_FRELAY:] *)
Definition gen_frelay_linktype (proto : Z) : G nat :=
  if proto =? ETHERTYPE_IP then gen_cmp OR_LINK 2 BPF_H (Z.shiftl 0x03 8 ||| 0xcc)
  else if proto =? ETHERTYPE_IPV6 then gen_cmp OR_LINK 2 BPF_H (Z.shiftl 0x03 8 ||| 0x8e)
  else if proto =? LLCSAP_ISONS then
    b0 ← gen_cmp OR_LINK 2 BPF_H (Z.shiftl 0x03 8 ||| ISO8473_CLNP);
    b1 ← gen_cmp OR_LINK 2 BPF_H (Z.shiftl 0x03 8 ||| ISO9542_ESIS);
    b2 ← gen_cmp OR_LINK 2 BPF_H (Z.shiftl 0x03 8 ||| ISO10589_ISIS);
    _ ← g_or b1 b2;
    _ ← g_or b0 b2;
    mret b2
  else gen_false.

(** The link-layer types for which [gen_linktype] only has an error message. *)
Definition linktype_unimplemented (dlt : Z) : option string :=
  if dlt =? DLT_MFR then Some "Multi-link Frame Relay link-layer type filtering not implemented"%string
  else if dlt =? DLT_LINUX_IRDA then Some "IrDA link-layer type filtering not implemented"%string
  else if dlt =? DLT_DOCSIS then Some "DOCSIS link-layer type filtering not implemented"%string
  else if one_of dlt [DLT_MTP2; DLT_MTP2_WITH_PHDR] then Some "MTP2 link-layer type filtering not implemented"%string
  else if dlt =? DLT_ERF then Some "ERF link-layer type filtering not implemented"%string
  else if dlt =? DLT_PFSYNC then Some "PFSYNC link-layer type filtering not implemented"%string
  else if dlt =? DLT_LINUX_LAPD then Some "LAPD link-layer type filtering not implemented"%string
  else if one_of dlt [DLT_USB; DLT_USB_LINUX; DLT_USB_LINUX_MMAPPED]
  then Some "USB link-layer type filtering not implemented"%string
  else if one_of dlt [DLT_BLUETOOTH_HCI_H4; DLT_BLUETOOTH_HCI_H4_WITH_PHDR]
  then Some "Bluetooth link-layer type filtering not implemented"%string
  else if one_of dlt [DLT_CAN20B; DLT_CAN_SOCKETCAN] then Some "CAN link-layer type filtering not implemented"%string
  else if one_of dlt [DLT_IEEE802_15_4; DLT_IEEE802_15_4_LINUX; DLT_IEEE802_15_4_NONASK_PHY;
                      DLT_IEEE802_15_4_NOFCS]
  then Some "IEEE 802.15.4 link-layer type filtering not implemented"%string
  else if dlt =? DLT_IEEE802_16_MAC_CPS_RADIO then Some "IEEE 802.16 link-layer type filtering not implemented"%string
  else if dlt =? DLT_SITA then Some "SITA link-layer type filtering not implemented"%string
  else if dlt =? DLT_RAIF1 then Some "RAIF1 link-layer type filtering not implemented"%string
  else if dlt =? DLT_IPMB then Some "IPMB link-layer type filtering not implemented"%string
  else if dlt =? DLT_AX25_KISS then Some "AX.25 link-layer type filtering not implemented"%string
  else None.

(** The switch on [linktype]. *)
Definition gen_linktype_switch (proto : Z) : G nat :=
  dlt ← getv linktype;
  l ← getv g_link;
  if one_of dlt [DLT_EN10MB; DLT_NETANALYZER; DLT_NETANALYZER_TRANSPARENT] then gen_ether_linktype proto
  else if dlt =? DLT_C_HDLC then
    let proto := if proto =? LLCSAP_ISONS then Z.shiftl proto 8 ||| LLCSAP_ISONS else proto in
    gen_cmp OR_LINK (off_linktype l) BPF_H proto
  else if one_of dlt dlt_802_11 then
    b0 ← gen_check_802_11_data_frame;
    b1 ← gen_llc_linktype proto;
    _ ← g_and b0 b1;
    mret b1
  else if one_of dlt [DLT_FDDI; DLT_IEEE802; DLT_ATM_RFC1483; DLT_ATM_CLIP; DLT_IP_OVER_FC]
  then gen_llc_linktype proto
  else if dlt =? DLT_SUNATM then gen_sunatm_linktype proto
  else if dlt =? DLT_LINUX_SLL then gen_linux_sll_linktype proto
  else if one_of dlt [DLT_SLIP; DLT_SLIP_BSDOS; DLT_RAW] then
    if proto =? ETHERTYPE_IP then gen_mcmp OR_LINK 0 BPF_B 0x40 0xF0
    else if proto =? ETHERTYPE_IPV6 then gen_mcmp OR_LINK 0 BPF_B 0x60 0xF0
    else gen_false
  else if dlt =? DLT_IPV4 then (if proto =? ETHERTYPE_IP then gen_true else gen_false)
  else if dlt =? DLT_IPV6 then (if proto =? ETHERTYPE_IPV6 then gen_true else gen_false)
  else if one_of dlt [DLT_PPP; DLT_PPP_PPPD; DLT_PPP_SERIAL; DLT_PPP_ETHER]
  then gen_cmp OR_LINK (off_linktype l) BPF_H (ethertype_to_ppptype proto)
  else if dlt =? DLT_PPP_BSDOS then gen_ppp_bsdos_linktype proto
  else if one_of dlt [DLT_NULL; DLT_LOOP; DLT_ENC] then gen_null_linktype proto
  else if one_of dlt [DLT_ARCNET; DLT_ARCNET_LINUX] then gen_arcnet_linktype proto
  else if dlt =? DLT_LTALK then (if proto =? ETHERTYPE_ATALK then gen_true else gen_false)
  else if dlt =? DLT_FRELAY then gen_frelay_linktype proto
  else if one_of dlt dlt_juniper then gen_mcmp OR_LINK 0 BPF_W 0x4d474300 0xffffff00
  else if dlt =? DLT_BACNET_MS_TP then gen_mcmp OR_LINK 0 BPF_W 0x55FF0000 0xffff0000
  else if dlt =? DLT_IPNET then gen_ipnet_linktype proto
  else match linktype_unimplemented dlt with
  | Some msg => bpf_error msg
  | None =>
      if off_linktype l =? neg1 then abort
      else gen_cmp OR_LINK (off_linktype l) BPF_H proto
  end.

(** [gen_linktype(proto)] *)
Definition gen_linktype (proto : Z) : G nat :=
  e ← getv g_encap;
  l ← getv g_link;
  if 0 <? label_stack_depth e then
    if one_of proto [ETHERTYPE_IP; PPP_IP] then gen_mpls_linktype Q_IP
    else if one_of proto [ETHERTYPE_IPV6; PPP_IPV6] then gen_mpls_linktype Q_IPV6
    else bpf_error "unsupported protocol over mpls"
  else if is_pppoes e then gen_cmp OR_MACPL (off_linktype l) BPF_H (ethertype_to_ppptype proto)
  else gen_linktype_switch proto.
