(* ===== verification/GenHost.v ===== *)
(** * Tests of addresses (gencode.c)

    Hosts and networks of IPv4, IPv6 and DECnet, and hardware addresses of Ethernet, FDDI,
    token ring, 802.11, Fibre Channel and ARCNET. A function that calls itself for each
    direction is written out: [_at] is the part for one direction. An address of the wire is
    the list of its octets. *)
From stdpp Require Import base numbers list gmap.
From Stdlib Require Import Strings.Byte Strings.String.
From S2P Require Import Prelude BpfInsn BpfFilter Icode Gencode GencodeFilter LinkType GenConst GenState GenLoad GenLink.
Open Scope Z_scope.

(** The cases [Q_AND], [Q_OR] and [Q_DEFAULT] of the switches on the direction: both sides. *)
Definition both_dirs (op : nat -> nat -> G unit) (src dst : G nat) : G nat :=
  b0 ← src;
  b1 ← dst;
  _ ← op b0 b1;
  mret b1.

(** ** IPv4 and IPv6 *)

(** The end of [gen_hostop], for the offset of one direction. *)
Definition gen_hostop_at (addr mask proto offset : Z) : G nat :=
  b0 ← gen_linktype proto;
  b1 ← gen_mcmp OR_NET offset BPF_W addr mask;
  _ ← g_and b0 b1;
  mret b1.

(** [gen_hostop(addr, mask, dir, proto, src_off, dst_off)] *)
Definition gen_hostop (addr mask dir proto src_off dst_off : Z) : G nat :=
  let src := gen_hostop_at addr mask proto src_off in
  let dst := gen_hostop_at addr mask proto dst_off in
  if dir =? Q_SRC then src
  else if dir =? Q_DST then dst
  else if dir =? Q_AND then both_dirs g_and src dst
  else if one_of dir [Q_OR; Q_DEFAULT] then both_dirs g_or src dst
  else abort.

(** A word of an IPv6 address or mask, after [ntohl]. *)
Definition in6_word (a : list byte) (i : Z) : G Z := deref (extract SzW a (4 * i)).

(** The end of [gen_hostop6]. *)
Definition gen_hostop6_at (addr mask : list byte) (proto offset : Z) : G nat :=
  a3 ← in6_word addr 3; m3 ← in6_word mask 3;
  b1 ← gen_mcmp OR_NET (u32 (offset + 12)) BPF_W a3 m3;
  a2 ← in6_word addr 2; m2 ← in6_word mask 2;
  b0 ← gen_mcmp OR_NET (u32 (offset + 8)) BPF_W a2 m2;
  _ ← g_and b0 b1;
  a1 ← in6_word addr 1; m1 ← in6_word mask 1;
  b0 ← gen_mcmp OR_NET (u32 (offset + 4)) BPF_W a1 m1;
  _ ← g_and b0 b1;
  a0 ← in6_word addr 0; m0 ← in6_word mask 0;
  b0 ← gen_mcmp OR_NET offset BPF_W a0 m0;
  _ ← g_and b0 b1;
  b0 ← gen_linktype proto;
  _ ← g_and b0 b1;
  mret b1.

(** [gen_hostop6(addr, mask, dir, proto, src_off, dst_off)] *)
Definition gen_hostop6 (addr mask : list byte) (dir proto src_off dst_off : Z) : G nat :=
  let src := gen_hostop6_at addr mask proto src_off in
  let dst := gen_hostop6_at addr mask proto dst_off in
  if dir =? Q_SRC then src
  else if dir =? Q_DST then dst
  else if dir =? Q_AND then both_dirs g_and src dst
  else if one_of dir [Q_OR; Q_DEFAULT] then both_dirs g_or src dst
  else abort.

(** ** Hardware addresses *)

(** The messages for the directions of 802.11 in the functions for the other media. *)
Definition wlan_dir_name (dir : Z) : option string :=
  if dir =? Q_ADDR1 then Some "'addr1'"%string
  else if dir =? Q_ADDR2 then Some "'addr2'"%string
  else if dir =? Q_ADDR3 then Some "'addr3'"%string
  else if dir =? Q_ADDR4 then Some "'addr4'"%string
  else if dir =? Q_RA then Some "'ra'"%string
  else if dir =? Q_TA then Some "'ta'"%string
  else None.
Definition wlan_dir_error (where_ : string) (dir : Z) : G nat :=
  match wlan_dir_name dir with
  | Some d => bpf_error (d ++ " is only supported on " ++ where_)%string
  | None => abort
  end.

(** [gen_ehostop(eaddr, dir)] *)
Definition gen_ehostop_at (eaddr : list byte) (k : Z) : G nat :=
  l ← getv g_link; gen_bcmp_block OR_LINK (u32 (off_mac l + k)) 6 eaddr.
Definition gen_ehostop (eaddr : list byte) (dir : Z) : G nat :=
  let src := gen_ehostop_at eaddr 6 in
  let dst := gen_ehostop_at eaddr 0 in
  if dir =? Q_SRC then src
  else if dir =? Q_DST then dst
  else if dir =? Q_AND then both_dirs g_and src dst
  else if one_of dir [Q_DEFAULT; Q_OR] then both_dirs g_or src dst
  else wlan_dir_error "802.11 with 802.11 headers" dir.

(** [gen_fhostop(eaddr, dir)] *)
Definition gen_fhostop_at (eaddr : list byte) (k : Z) : G nat :=
  pad ← getv pcap_fddipad; gen_bcmp_block OR_LINK (u32 (k + 1 + pad)) 6 eaddr.
Definition gen_fhostop (eaddr : list byte) (dir : Z) : G nat :=
  let src := gen_fhostop_at eaddr 6 in
  let dst := gen_fhostop_at eaddr 0 in
  if dir =? Q_SRC then src
  else if dir =? Q_DST then dst
  else if dir =? Q_AND then both_dirs g_and src dst
  else if one_of dir [Q_DEFAULT; Q_OR] then both_dirs g_or src dst
  else wlan_dir_error "802.11" dir.

(** [gen_thostop(eaddr, dir)] *)
Definition gen_thostop (eaddr : list byte) (dir : Z) : G nat :=
  let src := gen_bcmp_block OR_LINK 8 6 eaddr in
  let dst := gen_bcmp_block OR_LINK 2 6 eaddr in
  if dir =? Q_SRC then src
  else if dir =? Q_DST then dst
  else if dir =? Q_AND then both_dirs g_and src dst
  else if one_of dir [Q_DEFAULT; Q_OR] then both_dirs g_or src dst
  else wlan_dir_error "802.11" dir.

(** [gen_ipfchostop(eaddr, dir)] *)
Definition gen_ipfchostop (eaddr : list byte) (dir : Z) : G nat :=
  let src := gen_bcmp_block OR_LINK 10 6 eaddr in
  let dst := gen_bcmp_block OR_LINK 2 6 eaddr in
  if dir =? Q_SRC then src
  else if dir =? Q_DST then dst
  else if dir =? Q_AND then both_dirs g_and src dst
  else if one_of dir [Q_DEFAULT; Q_OR] then both_dirs g_or src dst
  else wlan_dir_error "802.11" dir.

(** [gen_ahostop(eaddr, dir)] *)
Definition gen_ahostop (eaddr : list byte) (dir : Z) : G nat :=
  let src := gen_bcmp_block OR_LINK 0 1 eaddr in
  let dst := gen_bcmp_block OR_LINK 1 1 eaddr in
  if dir =? Q_SRC then src
  else if dir =? Q_DST then dst
  else if dir =? Q_AND then both_dirs g_and src dst
  else if one_of dir [Q_DEFAULT; Q_OR] then both_dirs g_or src dst
  else wlan_dir_error "802.11" dir.

(** ** 802.11 *)

(** [s = gen_load_a(OR_LINK, offset, BPF_B)] and a [BPF_JSET] block with [k] on it. *)
Definition wlan_bits (offset k : Z) : G nat :=
  s ← gen_load_a OR_LINK offset BPF_B;
  new_test BPF_JSET s k.

(** The block of [wlan_bits], with [gen_not] *)
Definition wlan_bits_clear (offset k : Z) : G nat :=
  b ← wlan_bits offset k;
  _ ← g_not b;
  mret b.

Definition wlan_addr (eaddr : list byte) (offset : Z) : G nat := gen_bcmp_block OR_LINK offset 6 eaddr.

(** The end of the cases [Q_SRC] and [Q_DST], and of the 802.11 case of [gen_multicast]:
    [b0] tests data frames, [mgmt] makes the test of the address of management frames. *)
Definition wlan_frame_types (b0 : nat) (mgmt : G nat) : G nat :=
  b1 ← wlan_bits 0 0x08;
  _ ← g_and b1 b0;
  b2 ← wlan_bits_clear 0 0x08;
  b1 ← mgmt;
  _ ← g_and b2 b1;
  _ ← g_or b1 b0;
  b1 ← wlan_bits_clear 0 0x04;
  _ ← g_and b1 b0;
  mret b0.

(** [case Q_SRC:] *)
Definition gen_wlan_src (eaddr : list byte) : G nat :=
  b1 ← wlan_bits 1 0x01;
  b0 ← wlan_addr eaddr 24;
  _ ← g_and b1 b0;
  b2 ← wlan_bits_clear 1 0x01;
  b1 ← wlan_addr eaddr 16;
  _ ← g_and b2 b1;
  _ ← g_or b1 b0;
  b1 ← wlan_bits 1 0x02;
  _ ← g_and b1 b0;
  b2 ← wlan_bits_clear 1 0x02;
  b1 ← wlan_addr eaddr 10;
  _ ← g_and b2 b1;
  _ ← g_or b1 b0;
  wlan_frame_types b0 (wlan_addr eaddr 10).

(** [case Q_DST:] and, with the test of the group bit, the 802.11 case of [gen_multicast]. *)
Definition gen_wlan_dst (test : Z -> G nat) : G nat :=
  b1 ← wlan_bits 1 0x01;
  b0 ← test 16;
  _ ← g_and b1 b0;
  b2 ← wlan_bits_clear 1 0x01;
  b1 ← test 4;
  _ ← g_and b2 b1;
  _ ← g_or b1 b0;
  wlan_frame_types b0 (test 4).

(** The test that a frame is neither CTS nor ACK, in [case Q_TA:] and [case Q_ADDR2:]. *)
Definition wlan_not_cts_ack : G nat :=
  b0 ← gen_mcmp OR_LINK 0 BPF_B IEEE80211_FC0_TYPE_CTL IEEE80211_FC0_TYPE_MASK;
  _ ← g_not b0;
  b1 ← gen_mcmp OR_LINK 0 BPF_B IEEE80211_FC0_SUBTYPE_CTS IEEE80211_FC0_SUBTYPE_MASK;
  _ ← g_not b1;
  b2 ← gen_mcmp OR_LINK 0 BPF_B IEEE80211_FC0_SUBTYPE_ACK IEEE80211_FC0_SUBTYPE_MASK;
  _ ← g_not b2;
  _ ← g_and b1 b2;
  _ ← g_or b0 b2;
  mret b2.

(** [gen_wlanhostop(eaddr, dir)], without ENABLE_WLAN_FILTERING_PATCH *)
Definition gen_wlanhostop (eaddr : list byte) (dir : Z) : G nat :=
  let src := gen_wlan_src eaddr in
  let dst := gen_wlan_dst (wlan_addr eaddr) in
  if dir =? Q_SRC then src
  else if dir =? Q_DST then dst
  else if dir =? Q_RA then
    b1 ← wlan_bits 0 0x08;
    b0 ← wlan_addr eaddr 4;
    _ ← g_and b1 b0;
    mret b0
  else if dir =? Q_TA then
    b2 ← wlan_not_cts_ack;
    b1 ← wlan_bits 0 0x08;
    _ ← g_and b1 b2;
    b1 ← wlan_addr eaddr 10;
    _ ← g_and b2 b1;
    mret b1
  else if dir =? Q_ADDR1 then wlan_addr eaddr 4
  else if dir =? Q_ADDR2 then
    b2 ← wlan_not_cts_ack;
    b1 ← wlan_addr eaddr 10;
    _ ← g_and b2 b1;
    mret b1
  else if dir =? Q_ADDR3 then
    b0 ← gen_mcmp OR_LINK 0 BPF_B IEEE80211_FC0_TYPE_CTL IEEE80211_FC0_TYPE_MASK;
    _ ← g_not b0;
    b1 ← wlan_addr eaddr 16;
    _ ← g_and b0 b1;
    mret b1
  else if dir =? Q_ADDR4 then
    b0 ← gen_mcmp OR_LINK 1 BPF_B IEEE80211_FC1_DIR_DSTODS IEEE80211_FC1_DIR_MASK;
    b1 ← wlan_addr eaddr 24;
    _ ← g_and b0 b1;
    mret b1
  else if dir =? Q_AND then both_dirs g_and src dst
  else if one_of dir [Q_DEFAULT; Q_OR] then both_dirs g_or src dst
  else abort.

(** ** DECnet *)

(** One packet format of [gen_dnhostop]: the flags at the start of the packet, then the
    address, in the byte order of the packet. *)
Definition gen_dn_format (size flags mask offset addr : Z) : G nat :=
  tmp ← gen_mcmp OR_NET 2 size flags mask;
  b ← gen_cmp OR_NET offset BPF_H (SWAPSHORT addr);
  _ ← g_and tmp b;
  mret b.

(** The end of [gen_dnhostop], for the offsets of one direction; [ntohs] reverses the bytes. *)
Definition gen_dnhostop_at (addr offset_sh offset_lh : Z) : G nat :=
  b0 ← gen_linktype ETHERTYPE_DN;
  b1 ← gen_dn_format BPF_H (SWAPSHORT 0x0681) (SWAPSHORT 0x07FF) (2 + 1 + offset_lh) addr;
  b2 ← gen_dn_format BPF_B 0x06 0x7 (2 + offset_lh) addr;
  _ ← g_or b2 b1;
  b2 ← gen_dn_format BPF_H (SWAPSHORT 0x0281) (SWAPSHORT 0x07FF) (2 + 1 + offset_sh) addr;
  _ ← g_or b2 b1;
  b2 ← gen_dn_format BPF_B 0x02 0x7 (2 + offset_sh) addr;
  _ ← g_or b2 b1;
  _ ← g_and b0 b1;
  mret b1.

(** [gen_dnhostop(addr, dir)] *)
Definition gen_dnhostop (addr dir : Z) : G nat :=
  let dst := gen_dnhostop_at addr 1 7 in
  let src := gen_dnhostop_at addr 3 15 in
  if dir =? Q_DST then dst
  else if dir =? Q_SRC then src
  else if dir =? Q_AND then both_dirs g_and src dst
  else if one_of dir [Q_OR; Q_DEFAULT] then both_dirs g_or src dst
  else if dir =? Q_ISO then bpf_error "ISO host filtering not implemented"
  else abort.

(** ** [gen_host] and [gen_host6] *)

(** The protocols for which both functions only have a message; the ones that name the kind
    of address end in [%s]. *)
Definition host_unsupported (proto : Z) : option string :=
  if proto =? Q_TCP then Some "'tcp' modifier applied to %s"%string
  else if proto =? Q_SCTP then Some "'sctp' modifier applied to %s"%string
  else if proto =? Q_UDP then Some "'udp' modifier applied to %s"%string
  else if proto =? Q_ICMP then Some "'icmp' modifier applied to %s"%string
  else if proto =? Q_IGMP then Some "'igmp' modifier applied to %s"%string
  else if proto =? Q_IGRP then Some "'igrp' modifier applied to %s"%string
  else if proto =? Q_PIM then Some "'pim' modifier applied to %s"%string
  else if proto =? Q_VRRP then Some "'vrrp' modifier applied to %s"%string
  else if proto =? Q_CARP then Some "'carp' modifier applied to %s"%string
  else if proto =? Q_ATALK then Some "ATALK host filtering not implemented"%string
  else if proto =? Q_AARP then Some "AARP host filtering not implemented"%string
  else if proto =? Q_SCA then Some "SCA host filtering not implemented"%string
  else if proto =? Q_LAT then Some "LAT host filtering not implemented"%string
  else if proto =? Q_MOPDL then Some "MOPDL host filtering not implemented"%string
  else if proto =? Q_MOPRC then Some "MOPRC host filtering not implemented"%string
  else if proto =? Q_ICMPV6 then Some "'icmp6' modifier applied to %s"%string
  else if proto =? Q_AH then Some "'ah' modifier applied to %s"%string
  else if proto =? Q_ESP then Some "'esp' modifier applied to %s"%string
  else if proto =? Q_ISO then Some "ISO host filtering not implemented"%string
  else if proto =? Q_ESIS then Some "'esis' modifier applied to %s"%string
  else if proto =? Q_ISIS then Some "'isis' modifier applied to %s"%string
  else if proto =? Q_CLNP then Some "'clnp' modifier applied to %s"%string
  else if proto =? Q_STP then Some "'stp' modifier applied to %s"%string
  else if proto =? Q_IPX then Some "IPX host filtering not implemented"%string
  else if proto =? Q_NETBEUI then Some "'netbeui' modifier applied to %s"%string
  else if proto =? Q_RADIO then Some "'radio' modifier applied to %s"%string
  else None.

(** The cases of [gen_host] for one protocol. The last argument, the kind of address, only
    chooses a word of the messages, which [bpf_error] does not carry here. *)
Definition gen_host_ip (addr mask dir : Z) : G nat := gen_hostop addr mask dir ETHERTYPE_IP 12 16.
Definition gen_host_rarp (addr mask dir : Z) : G nat := gen_hostop addr mask dir ETHERTYPE_REVARP 14 24.
Definition gen_host_arp (addr mask dir : Z) : G nat := gen_hostop addr mask dir ETHERTYPE_ARP 14 24.

(** [gen_host(addr, mask, proto, dir, type)] *)
Definition gen_host (addr mask proto dir : Z) : G nat :=
  if proto =? Q_DEFAULT then
    b0 ← gen_host_ip addr mask dir;
    e ← getv g_encap;
    if label_stack_depth e =? 0 then
      b1 ← gen_host_arp addr mask dir;
      _ ← g_or b0 b1;
      b0 ← gen_host_rarp addr mask dir;
      _ ← g_or b1 b0;
      mret b0
    else mret b0
  else if proto =? Q_IP then gen_host_ip addr mask dir
  else if proto =? Q_RARP then gen_host_rarp addr mask dir
  else if proto =? Q_ARP then gen_host_arp addr mask dir
  else if proto =? Q_DECNET then gen_dnhostop addr dir
  else if proto =? Q_IPV6 then bpf_error "'ip6' modifier applied to ip host"
  else match host_unsupported proto with Some msg => bpf_error msg | None => abort end.

(** [gen_host6(addr, mask, proto, dir, type)] *)
Definition gen_host6 (addr mask : list byte) (proto dir : Z) : G nat :=
  if one_of proto [Q_DEFAULT; Q_IPV6] then gen_hostop6 addr mask dir ETHERTYPE_IPV6 8 24
  else if proto =? Q_LINK then bpf_error "link-layer modifier applied to ip6 %s"
  else if proto =? Q_IP then bpf_error "'ip' modifier applied to ip6 %s"
  else if proto =? Q_RARP then bpf_error "'rarp' modifier applied to ip6 %s"
  else if proto =? Q_ARP then bpf_error "'arp' modifier applied to ip6 %s"
  else if proto =? Q_DECNET then bpf_error "'decnet' modifier applied to ip6 %s"
  else match host_unsupported proto with Some msg => bpf_error msg | None => abort end.
