(* ===== verification/GenPort.v ===== *)
(** * Tests of protocols and ports (gencode.c)

    [gen_proto] and the abbreviations of protocols, the tests of ports and port ranges over
    IPv4 and IPv6, and [gen_protochain], which follows a chain of headers with jumps between
    the statements of one block. *)
From stdpp Require Import base numbers list gmap.
From Stdlib Require Import Strings.Byte Strings.String.
From S2P Require Import Prelude BpfInsn BpfFilter Icode Gencode GencodeFilter LinkType GenConst GenState GenLoad GenLink GenHost.
Open Scope Z_scope.

(** ** Protocols *)

(** The protocols for which [gen_proto] only has a message. *)
Definition proto_bogus (proto : Z) : option string :=
  if proto =? Q_ARP then Some "arp does not encapsulate another protocol"%string
  else if proto =? Q_RARP then Some "rarp does not encapsulate another protocol"%string
  else if proto =? Q_ATALK then Some "atalk encapsulation is not specifiable"%string
  else if proto =? Q_DECNET then Some "decnet encapsulation is not specifiable"%string
  else if proto =? Q_SCA then Some "sca does not encapsulate another protocol"%string
  else if proto =? Q_LAT then Some "lat does not encapsulate another protocol"%string
  else if proto =? Q_MOPRC then Some "moprc does not encapsulate another protocol"%string
  else if proto =? Q_MOPDL then Some "mopdl does not encapsulate another protocol"%string
  else if proto =? Q_UDP then Some "'udp proto' is bogus"%string
  else if proto =? Q_TCP then Some "'tcp proto' is bogus"%string
  else if proto =? Q_SCTP then Some "'sctp proto' is bogus"%string
  else if proto =? Q_ICMP then Some "'icmp proto' is bogus"%string
  else if proto =? Q_IGMP then Some "'igmp proto' is bogus"%string
  else if proto =? Q_IGRP then Some "'igrp proto' is bogus"%string
  else if proto =? Q_PIM then Some "'pim proto' is bogus"%string
  else if proto =? Q_VRRP then Some "'vrrp proto' is bogus"%string
  else if proto =? Q_CARP then Some "'carp proto' is bogus"%string
  else if proto =? Q_ICMPV6 then Some "'icmp6 proto' is bogus"%string
  else if proto =? Q_AH then Some "'ah proto' is bogus"%string
  else if proto =? Q_ESP then Some "'ah proto' is bogus"%string
  else if proto =? Q_STP then Some "'stp proto' is bogus"%string
  else if proto =? Q_IPX then Some "'ipx proto' is bogus"%string
  else if proto =? Q_NETBEUI then Some "'netbeui proto' is bogus"%string
  else if proto =? Q_RADIO then Some "'radio proto' is bogus"%string
  else None.

(** The cases [Q_IP], [Q_IPV6], [Q_ISO] and [Q_ISIS] of [gen_proto], without CHASE_CHAIN. *)
Definition gen_proto_ip (v : Z) : G nat :=
  b0 ← gen_linktype ETHERTYPE_IP;
  b1 ← gen_cmp OR_NET 9 BPF_B v;
  _ ← g_and b0 b1;
  mret b1.

Definition gen_proto_ipv6 (v : Z) : G nat :=
  b0 ← gen_linktype ETHERTYPE_IPV6;
  b2 ← gen_cmp OR_NET 6 BPF_B IPPROTO_FRAGMENT;
  b1 ← gen_cmp OR_NET 40 BPF_B v;
  _ ← g_and b2 b1;
  b2 ← gen_cmp OR_NET 6 BPF_B v;
  _ ← g_or b2 b1;
  _ ← g_and b0 b1;
  mret b1.

Definition gen_proto_iso (v : Z) : G nat :=
  dlt ← getv linktype;
  if dlt =? DLT_FRELAY then gen_cmp OR_LINK 2 BPF_H (Z.shiftl 0x03 8 ||| v)
  else if dlt =? DLT_C_HDLC then
    b0 ← gen_linktype (Z.shiftl LLCSAP_ISONS 8 ||| LLCSAP_ISONS);
    b1 ← gen_cmp OR_NET_NOSNAP 1 BPF_B v;
    _ ← g_and b0 b1;
    mret b1
  else
    b0 ← gen_linktype LLCSAP_ISONS;
    b1 ← gen_cmp OR_NET_NOSNAP 0 BPF_B v;
    _ ← g_and b0 b1;
    mret b1.

Definition gen_proto_isis (v : Z) : G nat :=
  b0 ← gen_proto_iso ISO10589_ISIS;
  b1 ← gen_cmp OR_NET_NOSNAP 4 BPF_B v;
  _ ← g_and b0 b1;
  mret b1.

(** [gen_proto(v, proto, dir)] *)
Definition gen_proto (v proto dir : Z) : G nat :=
  if negb (dir =? Q_DEFAULT) then bpf_error "direction applied to 'proto'"
  else if proto =? Q_DEFAULT then
    b0 ← gen_proto_ip v;
    b1 ← gen_proto_ipv6 v;
    _ ← g_or b0 b1;
    mret b1
  else if proto =? Q_IP then gen_proto_ip v
  else if proto =? Q_ISO then gen_proto_iso v
  else if proto =? Q_ISIS then gen_proto_isis v
  else if proto =? Q_LINK then gen_linktype v
  else if proto =? Q_IPV6 then gen_proto_ipv6 v
  else match proto_bogus proto with Some msg => bpf_error msg | None => abort end.

(** A protocol over IPv4 and IPv6. *)
Definition gen_proto_both (v : Z) : G nat :=
  b1 ← gen_proto v Q_IP Q_DEFAULT;
  b0 ← gen_proto v Q_IPV6 Q_DEFAULT;
  _ ← g_or b0 b1;
  mret b1.

(** The cases of IS-IS: [b0] and [b1] for the first two PDU types, then one more each. *)
Fixpoint isis_more (vs : list Z) (b1 : nat) : G nat :=
  match vs with
  | [] => mret b1
  | v :: vs =>
      b0 ← gen_proto v Q_ISIS Q_DEFAULT;
      _ ← g_or b0 b1;
      isis_more vs b1
  end.
Definition gen_isis_any (v0 v1 : Z) (vs : list Z) : G nat :=
  b0 ← gen_proto v0 Q_ISIS Q_DEFAULT;
  b1 ← gen_proto v1 Q_ISIS Q_DEFAULT;
  _ ← g_or b0 b1;
  isis_more vs b1.

(** [gen_proto_abbrev(proto)] *)
Definition gen_proto_abbrev (proto : Z) : G nat :=
  if proto =? Q_SCTP then gen_proto_both IPPROTO_SCTP
  else if proto =? Q_TCP then gen_proto_both IPPROTO_TCP
  else if proto =? Q_UDP then gen_proto_both IPPROTO_UDP
  else if proto =? Q_ICMP then gen_proto IPPROTO_ICMP Q_IP Q_DEFAULT
  else if proto =? Q_IGMP then gen_proto IPPROTO_IGMP Q_IP Q_DEFAULT
  else if proto =? Q_IGRP then gen_proto IPPROTO_IGRP Q_IP Q_DEFAULT
  else if proto =? Q_PIM then gen_proto_both IPPROTO_PIM
  else if proto =? Q_VRRP then gen_proto IPPROTO_VRRP Q_IP Q_DEFAULT
  else if proto =? Q_CARP then gen_proto IPPROTO_CARP Q_IP Q_DEFAULT
  else if proto =? Q_IP then gen_linktype ETHERTYPE_IP
  else if proto =? Q_ARP then gen_linktype ETHERTYPE_ARP
  else if proto =? Q_RARP then gen_linktype ETHERTYPE_REVARP
  else if proto =? Q_LINK then bpf_error "link layer applied in wrong context"
  else if proto =? Q_ATALK then gen_linktype ETHERTYPE_ATALK
  else if proto =? Q_AARP then gen_linktype ETHERTYPE_AARP
  else if proto =? Q_DECNET then gen_linktype ETHERTYPE_DN
  else if proto =? Q_SCA then gen_linktype ETHERTYPE_SCA
  else if proto =? Q_LAT then gen_linktype ETHERTYPE_LAT
  else if proto =? Q_MOPDL then gen_linktype ETHERTYPE_MOPDL
  else if proto =? Q_MOPRC then gen_linktype ETHERTYPE_MOPRC
  else if proto =? Q_IPV6 then gen_linktype ETHERTYPE_IPV6
  else if proto =? Q_ICMPV6 then gen_proto IPPROTO_ICMPV6 Q_IPV6 Q_DEFAULT
  else if proto =? Q_AH then gen_proto_both IPPROTO_AH
  else if proto =? Q_ESP then gen_proto_both IPPROTO_ESP
  else if proto =? Q_ISO then gen_linktype LLCSAP_ISONS
  else if proto =? Q_ESIS then gen_proto ISO9542_ESIS Q_ISO Q_DEFAULT
  else if proto =? Q_ISIS then gen_proto ISO10589_ISIS Q_ISO Q_DEFAULT
  else if proto =? Q_ISIS_L1 then gen_isis_any ISIS_L1_LAN_IIH ISIS_PTP_IIH [ISIS_L1_LSP; ISIS_L1_CSNP; ISIS_L1_PSNP]
  else if proto =? Q_ISIS_L2 then gen_isis_any ISIS_L2_LAN_IIH ISIS_PTP_IIH [ISIS_L2_LSP; ISIS_L2_CSNP; ISIS_L2_PSNP]
  else if proto =? Q_ISIS_IIH then gen_isis_any ISIS_L1_LAN_IIH ISIS_L2_LAN_IIH [ISIS_PTP_IIH]
  else if proto =? Q_ISIS_LSP then gen_isis_any ISIS_L1_LSP ISIS_L2_LSP []
  else if proto =? Q_ISIS_SNP then gen_isis_any ISIS_L1_CSNP ISIS_L2_CSNP [ISIS_L1_PSNP; ISIS_L2_PSNP]
  else if proto =? Q_ISIS_CSNP then gen_isis_any ISIS_L1_CSNP ISIS_L2_CSNP []
  else if proto =? Q_ISIS_PSNP then gen_isis_any ISIS_L1_PSNP ISIS_L2_PSNP []
  else if proto =? Q_CLNP then gen_proto ISO8473_CLNP Q_ISO Q_DEFAULT
  else if proto =? Q_STP then gen_linktype LLCSAP_8021D
  else if proto =? Q_IPX then gen_linktype LLCSAP_IPX
  else if proto =? Q_NETBEUI then gen_linktype LLCSAP_NETBEUI
  else if proto =? Q_RADIO then bpf_error "'radio' is not a valid protocol type"
  else abort.

(** ** Ports *)

(** [gen_ipfrag()] *)
Definition gen_ipfrag : G nat :=
  s ← gen_load_a OR_NET 6 BPF_H;
  b ← new_test BPF_JSET s 0x1fff;
  _ ← g_not b;
  mret b.

(** [gen_portatom(off, v)] and [gen_portatom6(off, v)] *)
Definition gen_portatom (off v : Z) : G nat := gen_cmp OR_TRAN_IPV4 off BPF_H v.
Definition gen_portatom6 (off v : Z) : G nat := gen_cmp OR_TRAN_IPV6 off BPF_H v.

(** [gen_portrangeatom(off, v1, v2)] and [gen_portrangeatom6(off, v1, v2)] *)
Definition gen_portrangeatom (off v1 v2 : Z) : G nat :=
  let '(v1, v2) := if v2 <? v1 then (v2, v1) else (v1, v2) in
  b1 ← gen_cmp_ge OR_TRAN_IPV4 off BPF_H v1;
  b2 ← gen_cmp_le OR_TRAN_IPV4 off BPF_H v2;
  _ ← g_and b1 b2;
  mret b2.
Definition gen_portrangeatom6 (off v1 v2 : Z) : G nat :=
  let '(v1, v2) := if v2 <? v1 then (v2, v1) else (v1, v2) in
  b1 ← gen_cmp_ge OR_TRAN_IPV6 off BPF_H v1;
  b2 ← gen_cmp_le OR_TRAN_IPV6 off BPF_H v2;
  _ ← g_and b1 b2;
  mret b2.

(** The switch on the direction in the four [op] functions: [atom off] tests one port. *)
Definition gen_port_dir (atom : Z -> G nat) (dir : Z) : G nat :=
  if dir =? Q_SRC then atom 0
  else if dir =? Q_DST then atom 2
  else if one_of dir [Q_OR; Q_DEFAULT] then both_dirs g_or (atom 0) (atom 2)
  else if dir =? Q_AND then both_dirs g_and (atom 0) (atom 2)
  else abort.

(** The beginning and the end of [gen_portop] and [gen_portrangeop]. *)
Definition gen_portop_with (atom : Z -> G nat) (proto dir : Z) : G nat :=
  tmp ← gen_cmp OR_NET 9 BPF_B proto;
  b0 ← gen_ipfrag;
  _ ← g_and tmp b0;
  b1 ← gen_port_dir atom dir;
  _ ← g_and b0 b1;
  mret b1.

(** [gen_portop(port, proto, dir)] and [gen_portrangeop(port1, port2, proto, dir)] *)
Definition gen_portop (port proto dir : Z) : G nat :=
  gen_portop_with (fun off => gen_portatom off port) proto dir.
Definition gen_portrangeop (port1 port2 proto dir : Z) : G nat :=
  gen_portop_with (fun off => gen_portrangeatom off port1 port2) proto dir.

(** The beginning and the end of [gen_portop6] and [gen_portrangeop6]. *)
Definition gen_portop6_with (atom : Z -> G nat) (proto dir : Z) : G nat :=
  b0 ← gen_cmp OR_NET 6 BPF_B proto;
  b1 ← gen_port_dir atom dir;
  _ ← g_and b0 b1;
  mret b1.

(** [gen_portop6(port, proto, dir)] and [gen_portrangeop6(port1, port2, proto, dir)] *)
Definition gen_portop6 (port proto dir : Z) : G nat :=
  gen_portop6_with (fun off => gen_portatom6 off port) proto dir.
Definition gen_portrangeop6 (port1 port2 proto dir : Z) : G nat :=
  gen_portop6_with (fun off => gen_portrangeatom6 off port1 port2) proto dir.

(** The body of [gen_port] and of the three functions like it: [op] is the function for one
    protocol. *)
Definition gen_port_with (ethertype : Z) (op : Z -> G nat) (ip_proto : Z) : G nat :=
  b0 ← gen_linktype ethertype;
  b1 ← (if one_of ip_proto [IPPROTO_UDP; IPPROTO_TCP; IPPROTO_SCTP] then op ip_proto
        else if ip_proto =? PROTO_UNDEF then
          tmp ← op IPPROTO_TCP;
          b1 ← op IPPROTO_UDP;
          _ ← g_or tmp b1;
          tmp ← op IPPROTO_SCTP;
          _ ← g_or tmp b1;
          mret b1
        else abort);
  _ ← g_and b0 b1;
  mret b1.

Definition gen_port (port ip_proto dir : Z) : G nat :=
  gen_port_with ETHERTYPE_IP (fun p => gen_portop port p dir) ip_proto.
Definition gen_port6 (port ip_proto dir : Z) : G nat :=
  gen_port_with ETHERTYPE_IPV6 (fun p => gen_portop6 port p dir) ip_proto.
Definition gen_portrange (port1 port2 ip_proto dir : Z) : G nat :=
  gen_port_with ETHERTYPE_IP (fun p => gen_portrangeop port1 port2 p dir) ip_proto.
Definition gen_portrange6 (port1 port2 ip_proto dir : Z) : G nat :=
  gen_port_with ETHERTYPE_IPV6 (fun p => gen_portrangeop6 port1 port2 p dir) ip_proto.

(** ** Chains of headers *)

(** A statement with jumps to other statements of the block, by their index in the array
    [s] of [gen_protochain]. *)
Record chain_stmt := mk_chain { cs_code : Z; cs_k : Z; cs_jt : option nat; cs_jf : option nat }.
Definition plain (c k : Z) : chain_stmt := mk_chain c k None None.
Definition jump_eq (k : Z) (jt jf : nat) : chain_stmt :=
  mk_chain (BPF_JMP ||| BPF_JEQ ||| BPF_K) k (Some jt) (Some jf).

(** The statements [s[1]], [s[2]], ...: allocated one after the other, and chained. *)
Definition new_chain (l : list chain_stmt) : G slist := fun s =>
  let at_index i := (gs_addr s + (i - 1))%nat in
  GOk (imap (fun j c => mk_snode (gs_addr s + j)
         (mk_stmt (cs_code c) (at_index <$> cs_jt c) (at_index <$> cs_jf c) (s32 (cs_k c)))) l)
      (mk_gstate (gs_env s) (gs_heap s) (gs_addr s + List.length l)).

(** The part for the authentication header, from the index [ah] (the label [ahcheck]); the
    last statement is the label [end]. [nl] is [off_macpl + off_nl], and [again] the index
    of that label. *)
Definition chain_ah (ah again : nat) (nl reg2 : Z) : list chain_stmt :=
  [jump_eq IPPROTO_AH (ah + 1) (ah + 13);
   plain (BPF_MISC ||| BPF_TXA) 0;
   plain (BPF_LD ||| BPF_IND ||| BPF_B) nl;
   mk_chain BPF_ST reg2 (Some (ah + 4)%nat) None;
   plain (BPF_MISC ||| BPF_TXA) 0;
   plain (BPF_ALU ||| BPF_ADD ||| BPF_K) 1;
   plain (BPF_MISC ||| BPF_TAX) 0;
   plain (BPF_LD ||| BPF_IND ||| BPF_B) nl;
   plain (BPF_ALU ||| BPF_ADD ||| BPF_K) 2;
   plain (BPF_ALU ||| BPF_MUL ||| BPF_K) 4;
   plain (BPF_MISC ||| BPF_TAX) 0;
   plain (BPF_LD ||| BPF_MEM) reg2;
   plain (BPF_JMP ||| BPF_JA) (Z.of_nat again - Z.of_nat (ah + 12) - 1);
   plain (BPF_ALU ||| BPF_ADD ||| BPF_K) 0].

(** [s[1]] to [s[max - 1]] for IPv4: [again] is 3, [ahcheck] is 6. *)
Definition chain_ipv4 (v nl reg2 : Z) : list chain_stmt :=
  [plain (BPF_LD ||| BPF_ABS ||| BPF_B) (u32 (nl + 9));
   plain (BPF_LDX ||| BPF_MSH ||| BPF_B) nl;
   jump_eq v 19 4;
   jump_eq IPPROTO_NONE 19 5;
   plain (BPF_ALU ||| BPF_ADD ||| BPF_K) 0] ++ chain_ah 6 3 nl reg2.

(** For IPv6: [v6start] is 5, [v6end] is 8, [v6advance] is 9, [ahcheck] is 18. *)
Definition chain_ipv6 (v nl reg2 : Z) : list chain_stmt :=
  [plain (BPF_LD ||| BPF_ABS ||| BPF_B) (u32 (nl + 6));
   plain (BPF_LDX ||| BPF_IMM) 40;
   jump_eq v 31 4;
   jump_eq IPPROTO_NONE 31 5;
   jump_eq IPPROTO_HOPOPTS 9 6;
   jump_eq IPPROTO_DSTOPTS 9 7;
   jump_eq IPPROTO_ROUTING 9 8;
   jump_eq IPPROTO_FRAGMENT 9 18;
   plain (BPF_LD ||| BPF_IND ||| BPF_B) nl;
   plain BPF_ST reg2;
   plain (BPF_LD ||| BPF_IND ||| BPF_B) (u32 (nl + 1));
   plain (BPF_ALU ||| BPF_ADD ||| BPF_K) 1;
   plain (BPF_ALU ||| BPF_MUL ||| BPF_K) 8;
   plain (BPF_ALU ||| BPF_ADD ||| BPF_X) 0;
   plain (BPF_MISC ||| BPF_TAX) 0;
   mk_chain (BPF_LD ||| BPF_MEM) reg2 None (Some 17%nat);
   plain (BPF_JMP ||| BPF_JA) (3 - 17 - 1)] ++ chain_ah 18 3 nl reg2.

(** [gen_protochain] for [Q_IP] and [Q_IPV6], after the switch on [proto]. *)
Definition gen_protochain_body (v proto reg2 : Z) : G nat :=
  dlt ← getv linktype;
  if one_of dlt dlt_802_11 then bpf_error "'protochain' not supported with 802.11"
  else
    _ ← setv (with_no_optimize true);
    _ ← new_stmt 0 0;
    b0 ← gen_linktype (if proto =? Q_IP then ETHERTYPE_IP else ETHERTYPE_IPV6);
    l ← getv g_link;
    let nl := u32 (off_macpl l + off_nl l) in
    ss ← new_chain (if proto =? Q_IP then chain_ipv4 v nl reg2 else chain_ipv6 v nl reg2);
    b ← new_test BPF_JEQ ss v;
    _ ← free_reg reg2;
    _ ← g_and b0 b;
    mret b.

(** [gen_protochain(v, proto, dir)], without NO_PROTOCHAIN; the call for [Q_DEFAULT] keeps
    the register it allocated. *)
Definition gen_protochain (v proto : Z) : G nat :=
  reg2 ← alloc_reg;
  if one_of proto [Q_IP; Q_IPV6] then gen_protochain_body v proto reg2
  else if proto =? Q_DEFAULT then
    reg4 ← alloc_reg;
    b0 ← gen_protochain_body v Q_IP reg4;
    reg6 ← alloc_reg;
    b ← gen_protochain_body v Q_IPV6 reg6;
    _ ← g_or b0 b;
    mret b
  else bpf_error "bad protocol applied for 'protochain'".
