(* ===== verification/GenArth.v ===== *)
(** * Arithmetic expressions (gencode.c)

    An arithmetic expression in the making is the statements that leave its value in a
    scratch register, and the test of the protocols it looks into. The functions change the
    first of their arguments and return it; every such object is used once, so it is a
    value here. Calls nested in the arguments of a call are made from left to right. *)
From stdpp Require Import base numbers list gmap.
From Stdlib Require Import Strings.Byte Strings.String.
From S2P Require Import Prelude BpfInsn BpfFilter Icode Gencode GencodeFilter LinkType GenConst GenState GenLoad GenLink GenHost GenPort.
Open Scope Z_scope.

(** [struct arth] *)
Record arth := mk_arth { ar_b : option nat; ar_s : slist; ar_regno : Z }.

(** [xfer_to_x(a)], [xfer_to_a(a)] *)
Definition xfer_to_x (a : arth) : G slist := new_stmt (BPF_LDX ||| BPF_MEM) (ar_regno a).
Definition xfer_to_a (a : arth) : G slist := new_stmt (BPF_LD ||| BPF_MEM) (ar_regno a).

(** ** Loads *)

Definition load_size (size : Z) : option Z :=
  if size =? 1 then Some BPF_B else if size =? 2 then Some BPF_H else if size =? 4 then Some BPF_W else None.

(** The protocols whose header the offset is relative to. *)
Definition net_protos : list Z :=
  [Q_IP; Q_ARP; Q_RARP; Q_ATALK; Q_DECNET; Q_SCA; Q_LAT; Q_MOPRC; Q_MOPDL; Q_IPV6].
Definition tran_protos : list Z :=
  [Q_SCTP; Q_TCP; Q_UDP; Q_ICMP; Q_IGMP; Q_IGRP; Q_PIM; Q_VRRP; Q_CARP].

(** X is the length of a variable prefix, if there is code for it, plus the index. *)
Definition add_index (s : option slist) (inst : arth) : G slist :=
  match s with
  | Some s =>
      t ← xfer_to_a inst;
      let s := sappend s t in
      t ← new_stmt (BPF_ALU ||| BPF_ADD ||| BPF_X) 0;
      let s := sappend s t in
      t ← new_stmt (BPF_MISC ||| BPF_TAX) 0;
      mret (sappend s t)
  | None => xfer_to_x inst
  end.

(** [if (inst->b) gen_and(inst->b, b); inst->b = b;] *)
Definition and_check (check : option nat) (b : nat) : G unit :=
  match check with Some b0 => g_and b0 b | None => mret tt end.

(** The cases of the switch on [proto]: the statements to append, and the new check. *)
Definition gen_load_radio (inst : arth) (size : Z) : G (slist * option nat) :=
  dlt ← getv linktype;
  if negb (one_of dlt [DLT_IEEE802_11_RADIO_AVS; DLT_IEEE802_11_RADIO; DLT_PRISM_HEADER])
  then bpf_error "radio information not present in capture"
  else
    s ← xfer_to_x inst;
    tmp ← new_stmt (BPF_LD ||| BPF_IND ||| size) 0;
    mret (sappend s tmp, ar_b inst).

Definition gen_load_link (inst : arth) (size : Z) : G (slist * option nat) :=
  s ← gen_llprefixlen;
  s ← add_index s inst;
  l ← getv g_link;
  tmp ← new_stmt (BPF_LD ||| BPF_IND ||| size) (off_ll l);
  mret (sappend s tmp, ar_b inst).

Definition gen_load_net (proto : Z) (inst : arth) (size : Z) : G (slist * option nat) :=
  s ← gen_off_macpl;
  s ← add_index s inst;
  l ← getv g_link;
  tmp ← new_stmt (BPF_LD ||| BPF_IND ||| size) (u32 (off_macpl l + off_nl l));
  b ← gen_proto_abbrev proto;
  _ ← and_check (ar_b inst) b;
  mret (sappend s tmp, Some b).

Definition gen_load_tran (proto : Z) (inst : arth) (size : Z) : G (slist * option nat) :=
  s ← gen_loadx_iphdrlen;
  t ← xfer_to_a inst;
  let s := sappend s t in
  t ← new_stmt (BPF_ALU ||| BPF_ADD ||| BPF_X) 0;
  let s := sappend s t in
  t ← new_stmt (BPF_MISC ||| BPF_TAX) 0;
  let s := sappend s t in
  l ← getv g_link;
  tmp ← new_stmt (BPF_LD ||| BPF_IND ||| size) (u32 (off_macpl l + off_nl l));
  b0 ← gen_proto_abbrev proto;
  b ← gen_ipfrag;
  _ ← g_and b0 b;
  _ ← and_check (ar_b inst) b;
  b0 ← gen_proto_abbrev Q_IP;
  _ ← g_and b0 b;
  mret (sappend s tmp, Some b).

(** The switch on [proto]. *)
Definition gen_load_case (proto : Z) (inst : arth) (size : Z) : G (slist * option nat) :=
  if proto =? Q_RADIO then gen_load_radio inst size
  else if proto =? Q_LINK then gen_load_link inst size
  else if one_of proto net_protos then gen_load_net proto inst size
  else if one_of proto tran_protos then gen_load_tran proto inst size
  else if proto =? Q_ICMPV6 then bpf_error "IPv6 upper-layer protocol is not supported by proto[x]"
  else bpf_error "unsupported index operation".

(** [gen_load(proto, inst, size)] *)
Definition gen_load (proto : Z) (inst : arth) (size : Z) : G arth :=
  regno ← alloc_reg;
  _ ← free_reg (ar_regno inst);
  match load_size size with
  | None => bpf_error "data size must be 1, 2, or 4"
  | Some size =>
      '(s, b) ← gen_load_case proto inst size;
      t ← new_stmt BPF_ST regno;
      mret (mk_arth b (sappend (sappend (ar_s inst) s) t) regno)
  end.

(** ** Numbers and operations *)

(** [gen_loadlen()] *)
Definition gen_loadlen : G arth :=
  regno ← alloc_reg;
  s ← new_stmt (BPF_LD ||| BPF_LEN) 0;
  t ← new_stmt BPF_ST regno;
  mret (mk_arth None (sappend s t) regno).

(** [gen_loadi(val)] *)
Definition gen_loadi (val : Z) : G arth :=
  reg ← alloc_reg;
  s ← new_stmt (BPF_LD ||| BPF_IMM) val;
  t ← new_stmt BPF_ST reg;
  mret (mk_arth None (sappend s t) reg).

(** [gen_neg(a)] *)
Definition gen_neg (a : arth) : G arth :=
  s ← xfer_to_a a;
  t ← new_stmt (BPF_ALU ||| BPF_NEG) 0;
  u ← new_stmt BPF_ST (ar_regno a);
  mret (mk_arth (ar_b a) (sappend (sappend (sappend (ar_s a) s) t) u) (ar_regno a)).

(** [gen_arth(code, a0, a1)]: the result keeps the check of [a0] only. *)
Definition gen_arth (code : Z) (a0 a1 : arth) : G arth :=
  s0 ← xfer_to_x a1;
  s1 ← xfer_to_a a0;
  s2 ← new_stmt (BPF_ALU ||| BPF_X ||| code) 0;
  let s0 := sappend s0 (sappend s1 s2) in
  let s := sappend (ar_s a0) (sappend (ar_s a1) s0) in
  _ ← free_reg (ar_regno a0);
  _ ← free_reg (ar_regno a1);
  regno ← alloc_reg;
  t ← new_stmt BPF_ST regno;
  mret (mk_arth (ar_b a0) (sappend s t) regno).

(** [gen_relation(code, a0, a1, reversed)] *)
Definition gen_relation (code : Z) (a0 a1 : arth) (reversed : bool) : G nat :=
  s0 ← xfer_to_x a1;
  s1 ← xfer_to_a a0;
  s1 ← (if code =? BPF_JEQ
        then s2 ← new_stmt (BPF_ALU ||| BPF_SUB ||| BPF_X) 0; mret (sappend s1 s2)
        else mret s1);
  let s := sappend (ar_s a0) (sappend (ar_s a1) (sappend s0 s1)) in
  b ← new_test (if code =? BPF_JEQ then code else code ||| BPF_X) s 0;
  _ ← (if reversed then g_not b else mret tt);
  _ ← free_reg (ar_regno a0);
  _ ← free_reg (ar_regno a1);
  tmp ← match ar_b a0, ar_b a1 with
        | Some b0, Some b1 => _ ← g_and b0 b1; mret (Some b1)
        | Some b0, None => mret (Some b0)
        | None, b1 => mret b1
        end;
  _ ← and_check tmp b;
  mret b.

(** ** The length of the packet, and single bytes *)

(** [gen_len(jmp, n)] *)
Definition gen_len (jmp n : Z) : G nat :=
  s ← new_stmt (BPF_LD ||| BPF_LEN) 0;
  new_test jmp s n.

(** [gen_greater(n)], [gen_less(n)] *)
Definition gen_greater (n : Z) : G nat := gen_len BPF_JGE n.
Definition gen_less (n : Z) : G nat :=
  b ← gen_len BPF_JGT n;
  _ ← g_not b;
  mret b.

(** [gen_byteop(op, idx, val)], [op] a character *)
Definition gen_byteop (op idx val : Z) : G nat :=
  if op =? 61 (* '=' *) then gen_cmp OR_LINK (u32 idx) BPF_B val
  else if op =? 60 (* '<' *) then gen_cmp_lt OR_LINK (u32 idx) BPF_B val
  else if op =? 62 (* '>' *) then gen_cmp_gt OR_LINK (u32 idx) BPF_B val
  else if one_of op [124; 38] (* '|', '&' *) then
    s ← new_stmt (BPF_ALU ||| (if op =? 124 then BPF_OR else BPF_AND) ||| BPF_K) val;
    b ← new_test BPF_JEQ s 0;
    _ ← g_not b;
    mret b
  else abort.
