(* ===== verification/GenMisc.v ===== *)
(** * Other primitives of the filter language (gencode.c)

    Broadcast and multicast, the direction of a packet, 802.11 frame types, ARCNET
    addresses, VLAN, MPLS and PPPoE, which also move the offsets of the tests that follow,
    and the ATM and SS7 fields. *)
From stdpp Require Import base numbers list gmap.
From Stdlib Require Import Strings.Byte Strings.String.
From S2P Require Import Prelude BpfInsn BpfFilter Icode Gencode GencodeFilter LinkType GenConst GenState GenLoad GenLink GenHost GenPort GenArth.
Open Scope Z_scope.

(** [struct qual] *)
Record qual := mk_qual { q_addr : Z; q_proto : Z; q_dir : Z }.

(** The test that a frame of ATM LANE does not begin with an LE Control marker, and'ed with
    the test [m] makes. *)
Definition not_le_control (m : G nat) : G nat :=
  b1 ← gen_cmp OR_LINK SUNATM_PKT_BEGIN_POS BPF_H 0xFF00;
  _ ← g_not b1;
  b0 ← m;
  _ ← g_and b1 b0;
  mret b0.

Definition dlt_ether : list Z := [DLT_EN10MB; DLT_NETANALYZER; DLT_NETANALYZER_TRANSPARENT].
Definition dlt_arcnet : list Z := [DLT_ARCNET; DLT_ARCNET_LINUX].

(** ** Broadcast and multicast *)

Definition abroadcast : list byte := [z2b 0].
Definition ebroadcast : list byte := replicate 6 (z2b 0xff).

(** [gen_broadcast(proto)] *)
Definition only_broadcast : string := "only link-layer/IP broadcast filters supported".
Definition gen_broadcast (proto : Z) : G nat :=
  if one_of proto [Q_DEFAULT; Q_LINK] then
    dlt ← getv linktype;
    if one_of dlt dlt_arcnet then gen_ahostop abroadcast Q_DST
    else if one_of dlt dlt_ether then gen_ehostop ebroadcast Q_DST
    else if dlt =? DLT_FDDI then gen_fhostop ebroadcast Q_DST
    else if dlt =? DLT_IEEE802 then gen_thostop ebroadcast Q_DST
    else if one_of dlt dlt_802_11 then gen_wlanhostop ebroadcast Q_DST
    else if dlt =? DLT_IP_OVER_FC then gen_ipfchostop ebroadcast Q_DST
    else if dlt =? DLT_SUNATM then
      a ← getv g_atm;
      if is_lane a then not_le_control (gen_ehostop ebroadcast Q_DST)
      else bpf_error only_broadcast
    else bpf_error "not a broadcast link"
  else if proto =? Q_IP then
    mask ← getv netmask;
    if mask =? PCAP_NETMASK_UNKNOWN then bpf_error "netmask not known, so 'ip broadcast' not supported"
    else
      b0 ← gen_linktype ETHERTYPE_IP;
      let hostmask := u32 (Z.lnot mask) in
      b1 ← gen_mcmp OR_NET 16 BPF_W 0 hostmask;
      b2 ← gen_mcmp OR_NET 16 BPF_W (u32 (Z.lnot 0 &&& hostmask)) hostmask;
      _ ← g_or b1 b2;
      _ ← g_and b0 b2;
      mret b2
  else bpf_error only_broadcast.

(** [gen_mac_multicast(offset)] *)
Definition gen_mac_multicast (offset : Z) : G nat :=
  s ← gen_load_a OR_LINK offset BPF_B;
  new_test BPF_JSET s 1.

(** [gen_multicast(proto)] *)
Definition no_multicast : string :=
  "link-layer multicast filters supported only on ethernet/FDDI/token ring/ARCNET/802.11/ATM LANE/Fibre Channel".
Definition gen_multicast (proto : Z) : G nat :=
  if one_of proto [Q_DEFAULT; Q_LINK] then
    dlt ← getv linktype;
    if one_of dlt dlt_arcnet then gen_ahostop abroadcast Q_DST
    else if one_of dlt dlt_ether then gen_mac_multicast 0
    else if dlt =? DLT_FDDI then gen_mac_multicast 1
    else if dlt =? DLT_IEEE802 then gen_mac_multicast 2
    else if one_of dlt dlt_802_11 then gen_wlan_dst gen_mac_multicast
    else if dlt =? DLT_IP_OVER_FC then gen_mac_multicast 2
    else if dlt =? DLT_SUNATM then
      a ← getv g_atm;
      l ← getv g_link;
      if is_lane a then not_le_control (gen_mac_multicast (off_mac l))
      else bpf_error no_multicast
    else bpf_error no_multicast
  else if proto =? Q_IP then
    b0 ← gen_linktype ETHERTYPE_IP;
    b1 ← gen_cmp_ge OR_NET 16 BPF_B 224;
    _ ← g_and b0 b1;
    mret b1
  else if proto =? Q_IPV6 then
    b0 ← gen_linktype ETHERTYPE_IPV6;
    b1 ← gen_cmp OR_NET 24 BPF_B 255;
    _ ← g_and b0 b1;
    mret b1
  else bpf_error no_multicast.

(** ** Direction *)

(** [b0 = gen_cmp(OR_LINK, offset, BPF_H, v); if (!dir) gen_not(b0);] *)
Definition gen_outgoing (offset v : Z) (dir : bool) : G nat :=
  b0 ← gen_cmp OR_LINK offset BPF_H v;
  _ ← (if negb dir then g_not b0 else mret tt);
  mret b0.

(** [gen_inbound(dir)] on Linux with PF_PACKET: [dir] is false for inbound traffic *)
Definition gen_inbound (dir : bool) : G nat :=
  dlt ← getv linktype;
  if dlt =? DLT_SLIP then
    i0 ← gen_loadi 0;
    a0 ← gen_load Q_LINK i0 1;
    a1 ← gen_loadi 0;
    gen_relation BPF_JEQ a0 a1 dir
  else if dlt =? DLT_IPNET then gen_cmp OR_LINK 2 BPF_H (if dir then IPNET_OUTBOUND else IPNET_INBOUND)
  else if dlt =? DLT_LINUX_SLL then gen_outgoing 0 LINUX_SLL_OUTGOING dir
  else if dlt =? DLT_PPP_PPPD then gen_cmp OR_LINK 0 BPF_B (if dir then PPP_PPPD_OUT else PPP_PPPD_IN)
  else if one_of dlt dlt_juniper then gen_mcmp OR_LINK 3 BPF_B (if dir then 0 else 1) 0x01
  else
    file ← getv rfile;
    if (file : bool) then bpf_error "inbound/outbound not supported on linktype %d when reading savefiles"
    else gen_outgoing (u32 (SKF_AD_OFF + SKF_AD_PKTTYPE)) PACKET_OUTGOING dir.

(** ** The PF log, without HAVE_NET_PFVAR_H *)

Definition gen_pf_ifname : G nat := bpf_error "libpcap was compiled without pf support".
Definition gen_pf_ruleset : G nat := bpf_error "libpcap was compiled on a machine without pf support".
Definition gen_pf_rnr : G nat := bpf_error "libpcap was compiled on a machine without pf support".
Definition gen_pf_srnr : G nat := bpf_error "libpcap was compiled on a machine without pf support".
Definition gen_pf_reason : G nat := bpf_error "libpcap was compiled on a machine without pf support".
Definition gen_pf_action : G nat := bpf_error "libpcap was compiled on a machine without pf support".

(** ** 802.11 and ARCNET *)

Definition dlt_p80211 : list Z := [DLT_IEEE802_11; DLT_PRISM_HEADER; DLT_IEEE802_11_RADIO_AVS; DLT_IEEE802_11_RADIO].

(** [gen_p80211_type(type, mask)], [gen_p80211_fcdir(fcdir)] *)
Definition gen_p80211_type (type mask : Z) : G nat :=
  dlt ← getv linktype;
  if one_of dlt dlt_p80211 then gen_mcmp OR_LINK 0 BPF_B type mask
  else bpf_error "802.11 link-layer types supported only on 802.11".
Definition gen_p80211_fcdir (fcdir : Z) : G nat :=
  dlt ← getv linktype;
  if one_of dlt dlt_p80211 then gen_mcmp OR_LINK 1 BPF_B fcdir IEEE80211_FC1_DIR_MASK
  else bpf_error "frame direction supported only with 802.11 headers".

(** [gen_acode(eaddr, q)] *)
Definition gen_acode (eaddr : list byte) (q : qual) : G nat :=
  dlt ← getv linktype;
  if one_of dlt dlt_arcnet then
    if one_of (q_addr q) [Q_HOST; Q_DEFAULT] && (q_proto q =? Q_LINK) then gen_ahostop eaddr (q_dir q)
    else bpf_error "ARCnet address used in non-arc expression"
  else bpf_error "aid supported only on ARCnet".

(** [gen_ecode(eaddr, q)] *)
Definition non_ether : string := "ethernet address used in non-ether expression".
Definition gen_ecode (eaddr : list byte) (q : qual) : G nat :=
  if one_of (q_addr q) [Q_HOST; Q_DEFAULT] && (q_proto q =? Q_LINK) then
    dlt ← getv linktype;
    if one_of dlt dlt_ether then gen_ehostop eaddr (q_dir q)
    else if dlt =? DLT_FDDI then gen_fhostop eaddr (q_dir q)
    else if dlt =? DLT_IEEE802 then gen_thostop eaddr (q_dir q)
    else if one_of dlt dlt_802_11 then gen_wlanhostop eaddr (q_dir q)
    else if dlt =? DLT_SUNATM then
      a ← getv g_atm;
      if is_lane a then not_le_control (gen_ehostop eaddr (q_dir q)) else bpf_error non_ether
    else if dlt =? DLT_IP_OVER_FC then gen_ipfchostop eaddr (q_dir q)
    else bpf_error "ethernet addresses supported only on ethernet/FDDI/token ring/802.11/ATM LANE/Fibre Channel"
  else bpf_error non_ether.

(** ** VLAN, MPLS and PPPoE *)

Definition set_orig_nl (nl : Z) : G unit :=
  setv (fun e => let c := g_encap e in with_encap (mk_encap (is_pppoes c) (orig_linktype c) nl (label_stack_depth c)) e).

(** [gen_vlan(vlan_num)]; the number is -1 for any VLAN *)
Definition gen_vlan (vlan_num : Z) : G nat :=
  c ← getv g_encap;
  if 0 <? label_stack_depth c then bpf_error "no VLAN match after MPLS"
  else
    l ← getv g_link;
    _ ← set_orig_nl (off_nl l);
    dlt ← getv linktype;
    if one_of dlt dlt_ether then
      b0 ← gen_cmp OR_LINK (off_linktype l) BPF_H ETHERTYPE_8021Q;
      b1 ← gen_cmp OR_LINK (off_linktype l) BPF_H ETHERTYPE_8021QINQ;
      _ ← g_or b0 b1;
      b0 ← (if 0 <=? vlan_num then
              b2 ← gen_mcmp OR_MACPL 0 BPF_H vlan_num 0x0fff;
              _ ← g_and b1 b2;
              mret b2
            else mret b1);
      _ ← setv (with_link (mk_link (off_ll l) (off_mac l) (u32 (off_macpl l + 4)) (off_macpl_is_variable l)
                             (u32 (off_linktype l + 4)) (off_nl l) (off_nl_nosnap l)));
      mret b0
    else bpf_error "no VLAN support for data link type %d".

(** [gen_mpls(label_num)] *)
Definition gen_mpls (label_num : Z) : G nat :=
  l ← getv g_link;
  _ ← set_orig_nl (off_nl l);
  c ← getv g_encap;
  dlt ← getv linktype;
  b0 ← (if 0 <? label_stack_depth c then gen_mcmp OR_MACPL (u32 (off_nl l - 2)) BPF_B 0 0x01
        else if one_of dlt (DLT_C_HDLC :: dlt_ether) then gen_linktype ETHERTYPE_MPLS
        else if dlt =? DLT_PPP then gen_linktype PPP_MPLS_UCAST
        else bpf_error "no MPLS support for data link type %d");
  b0 ← (if 0 <=? label_num then
          b1 ← gen_mcmp OR_MACPL (off_nl l) BPF_W (Z.shiftl label_num 12) 0xfffff000;
          _ ← g_and b0 b1;
          mret b1
        else mret b0);
  _ ← setv (fun e =>
    let l := g_link e in
    let c := g_encap e in
    with_encap (mk_encap (is_pppoes c) (orig_linktype c) (orig_nl c) (label_stack_depth c + 1))
      (with_link (mk_link (off_ll l) (off_mac l) (off_macpl l) (off_macpl_is_variable l)
                    (off_linktype l) (u32 (off_nl l + 4)) (u32 (off_nl_nosnap l + 4))) e));
  mret b0.

(** [gen_pppoed()] *)
Definition gen_pppoed : G nat := gen_linktype ETHERTYPE_PPPOED.

(** [gen_pppoes(sess_num)] *)
Definition gen_pppoes (sess_num : Z) : G nat :=
  b0 ← gen_linktype ETHERTYPE_PPPOES;
  l ← getv g_link;
  _ ← setv (fun e => with_encap (mk_encap true (off_linktype l) (off_nl l) (label_stack_depth (g_encap e))) e);
  b0 ← (if 0 <=? sess_num then
          b1 ← gen_mcmp OR_MACPL (off_nl l) BPF_W sess_num 0x0000ffff;
          _ ← g_and b0 b1;
          mret b1
        else mret b0);
  _ ← setv (with_link (mk_link (off_ll l) (off_mac l) (off_macpl l) (off_macpl_is_variable l)
                         (u32 (off_nl l + 6)) (6 + 2) (6 + 2)));
  mret b0.

(** ** ATM *)

(** The virtual circuit of [vci] on path 0. *)
Definition gen_circuit (vci : Z) : G nat :=
  b0 ← gen_atmfield_code A_VPI 0 BPF_JEQ false;
  b1 ← gen_atmfield_code A_VCI vci BPF_JEQ false;
  _ ← g_and b0 b1;
  mret b1.

Definition if_atm (msg : string) (m : G nat) : G nat :=
  a ← getv g_atm;
  if negb (is_atm a) then bpf_error msg else m.

Definition set_lane (lane : bool) : G unit :=
  setv (fun e => let a := g_atm e in
    with_atm (mk_atm (is_atm a) lane (off_vpi a) (off_vci a) (off_proto a) (off_payload a)) e).

(** [gen_atmtype_abbrev(type)] *)
Definition gen_atmtype_abbrev (type : Z) : G nat :=
  if type =? A_METAC then if_atm "'metac' supported only on raw ATM" (gen_circuit 1)
  else if type =? A_BCC then if_atm "'bcc' supported only on raw ATM" (gen_circuit 2)
  else if type =? A_OAMF4SC then if_atm "'oam4sc' supported only on raw ATM" (gen_circuit 3)
  else if type =? A_OAMF4EC then if_atm "'oam4ec' supported only on raw ATM" (gen_circuit 4)
  else if type =? A_SC then if_atm "'sc' supported only on raw ATM" (gen_circuit 5)
  else if type =? A_ILMIC then if_atm "'ilmic' supported only on raw ATM" (gen_circuit 16)
  else if type =? A_LANE then if_atm "'lane' supported only on raw ATM" (
    b1 ← gen_atmfield_code A_PROTOTYPE PT_LANE BPF_JEQ false;
    _ ← set_lane true;
    _ ← setv (fun e =>
      let l := g_link e in
      let mac := u32 (off_payload (g_atm e) + 2) in
      with_link (mk_link (off_ll l) mac (u32 (mac + 14)) (off_macpl_is_variable l) (u32 (mac + 12)) 0 3) e);
    mret b1)
  else if type =? A_LLC then if_atm "'llc' supported only on raw ATM" (
    b1 ← gen_atmfield_code A_PROTOTYPE PT_LLC BPF_JEQ false;
    _ ← set_lane false;
    mret b1)
  else abort.

(** [gen_msg_abbrev(type)] *)
Definition gen_msg_abbrev (type : Z) : G nat :=
  if type =? A_SETUP then gen_atmfield_code A_MSGTYPE SETUP BPF_JEQ false
  else if type =? A_CALLPROCEED then gen_atmfield_code A_MSGTYPE CALL_PROCEED BPF_JEQ false
  else if type =? A_CONNECT then gen_atmfield_code A_MSGTYPE CONNECT BPF_JEQ false
  else if type =? A_CONNECTACK then gen_atmfield_code A_MSGTYPE CONNECT_ACK BPF_JEQ false
  else if type =? A_RELEASE then gen_atmfield_code A_MSGTYPE RELEASE BPF_JEQ false
  else if type =? A_RELEASE_DONE then gen_atmfield_code A_MSGTYPE RELEASE_DONE BPF_JEQ false
  else abort.

(** Any of the messages: [b1] tests the ones so far. *)
Fixpoint msg_more (types : list Z) (b1 : nat) : G nat :=
  match types with
  | [] => mret b1
  | t :: types =>
      b0 ← gen_msg_abbrev t;
      _ ← g_or b0 b1;
      msg_more types b1
  end.
Definition gen_msgs_on (t0 t1 : Z) (types : list Z) (circuit : Z) : G nat :=
  b0 ← gen_msg_abbrev t0;
  b1 ← gen_msg_abbrev t1;
  _ ← g_or b0 b1;
  b1 ← msg_more types b1;
  b0 ← gen_atmtype_abbrev circuit;
  _ ← g_and b0 b1;
  mret b1.

(** [gen_atmmulti_abbrev(type)] *)
Definition gen_oamf4 : G nat := if_atm "'oamf4' supported only on raw ATM" (
  b0 ← gen_atmfield_code A_VCI 3 BPF_JEQ false;
  b1 ← gen_atmfield_code A_VCI 4 BPF_JEQ false;
  _ ← g_or b0 b1;
  b0 ← gen_atmfield_code A_VPI 0 BPF_JEQ false;
  _ ← g_and b0 b1;
  mret b1).
Definition gen_atmmulti_abbrev (type : Z) : G nat :=
  if type =? A_OAM then if_atm "'oam' supported only on raw ATM" gen_oamf4
  else if type =? A_OAMF4 then gen_oamf4
  else if type =? A_CONNECTMSG then if_atm "'connectmsg' supported only on raw ATM"
    (gen_msgs_on A_SETUP A_CALLPROCEED [A_CONNECT; A_CONNECTACK; A_RELEASE; A_RELEASE_DONE] A_SC)
  else if type =? A_METACONNECT then if_atm "'metaconnect' supported only on raw ATM"
    (gen_msgs_on A_SETUP A_CALLPROCEED [A_CONNECT; A_RELEASE; A_RELEASE_DONE] A_METAC)
  else abort.

(** ** SS7 *)

Definition if_mtp2 (msg : string) (m : G nat) : G nat :=
  dlt ← getv linktype;
  if negb (one_of dlt [DLT_MTP2; DLT_ERF; DLT_MTP2_WITH_PHDR]) then bpf_error msg else m.

(** [gen_mtp2type_abbrev(type)] *)
Definition gen_mtp2type_abbrev (type : Z) : G nat :=
  o ← getv g_ss7;
  if type =? M_FISU then if_mtp2 "'fisu' supported only on MTP2"
    (gen_ncmp OR_PACKET (off_li o) BPF_B 0x3f BPF_JEQ false 0)
  else if type =? M_LSSU then if_mtp2 "'lssu' supported only on MTP2" (
    b0 ← gen_ncmp OR_PACKET (off_li o) BPF_B 0x3f BPF_JGT true 2;
    b1 ← gen_ncmp OR_PACKET (off_li o) BPF_B 0x3f BPF_JGT false 0;
    _ ← g_and b1 b0;
    mret b0)
  else if type =? M_MSU then if_mtp2 "'msu' supported only on MTP2"
    (gen_ncmp OR_PACKET (off_li o) BPF_B 0x3f BPF_JGT false 2)
  else if type =? MH_FISU then if_mtp2 "'hfisu' supported only on MTP2_HSL"
    (gen_ncmp OR_PACKET (off_li_hsl o) BPF_H 0xff80 BPF_JEQ false 0)
  else if type =? MH_LSSU then if_mtp2 "'hlssu' supported only on MTP2_HSL" (
    b0 ← gen_ncmp OR_PACKET (off_li_hsl o) BPF_H 0xff80 BPF_JGT true 0x0100;
    b1 ← gen_ncmp OR_PACKET (off_li_hsl o) BPF_H 0xff80 BPF_JGT false 0;
    _ ← g_and b1 b0;
    mret b0)
  else if type =? MH_MSU then if_mtp2 "'hmsu' supported only on MTP2_HSL"
    (gen_ncmp OR_PACKET (off_li_hsl o) BPF_H 0xff80 BPF_JGT false 0x0100)
  else abort.

(** The values as the fields hold them. *)
Definition opc_value (v : Z) : Z :=
  u32 (Z.shiftr (v &&& 0x3c00) 10 + Z.shiftl (v &&& 0x3fc) 6 + Z.shiftl (v &&& 0x3) 22).
Definition dpc_value (v : Z) : Z := u32 (Z.shiftl (v &&& 0xff) 24 + Z.shiftl (v &&& 0x3f00) 8).

(** [gen_mtp3field_code(mtp3field, jvalue, jtype, reverse)] *)
Definition gen_mtp3field_code (field jvalue jtype : Z) (reverse : bool) : G nat :=
  o ← getv g_ss7;
  if one_of field [MH_SIO; M_SIO] then
    let off := if field =? MH_SIO then u32 (off_sio o + 3) else off_sio o in
    if off_sio o =? neg1 then bpf_error "'sio' supported only on SS7"
    else if 255 <? jvalue then bpf_error "sio value %u too big; max value = 255"
    else gen_ncmp OR_PACKET off BPF_B 0xffffffff jtype reverse jvalue
  else if one_of field [MH_OPC; M_OPC] then
    let off := if field =? MH_OPC then u32 (off_opc o + 3) else off_opc o in
    if off_opc o =? neg1 then bpf_error "'opc' supported only on SS7"
    else if 16383 <? jvalue then bpf_error "opc value %u too big; max value = 16383"
    else gen_ncmp OR_PACKET off BPF_W 0x00c0ff0f jtype reverse (opc_value jvalue)
  else if one_of field [MH_DPC; M_DPC] then
    let off := if field =? MH_DPC then u32 (off_dpc o + 3) else off_dpc o in
    if off_dpc o =? neg1 then bpf_error "'dpc' supported only on SS7"
    else if 16383 <? jvalue then bpf_error "dpc value %u too big; max value = 16383"
    else gen_ncmp OR_PACKET off BPF_W 0xff3f0000 jtype reverse (dpc_value jvalue)
  else if one_of field [MH_SLS; M_SLS] then
    let off := if field =? MH_SLS then u32 (off_sls o + 3) else off_sls o in
    if off_sls o =? neg1 then bpf_error "'sls' supported only on SS7"
    else if 15 <? jvalue then bpf_error "sls value %u too big; max value = 15"
    else gen_ncmp OR_PACKET off BPF_B 0xf0 jtype reverse (Z.shiftl jvalue 4)
  else abort.
