(* ===== verification/GenName.v ===== *)
(** * Identifiers and numbers of the filter language (gencode.c)

    [gen_scode], [gen_ncode], [gen_mcode] and [gen_mcode6] turn a name, a number or a
    network with a mask, under the qualifiers in force, into a test. The databases of the
    system are arguments, as in Names.v. *)
From stdpp Require Import base numbers list gmap.
From Stdlib Require Import Strings.Byte Strings.String.
From S2P Require Import Prelude BpfInsn BpfFilter Icode Gencode GencodeFilter LinkType GenConst GenState Names GenLoad GenLink GenHost GenPort GenArth GenMisc.
Open Scope Z_scope.

(** [syntax()] *)
Definition syntax {A} : G A := bpf_error "syntax error in filter expression".

Definition in_quotes (s : string) : string :=
  String (Ascii.ascii_of_nat 34) (s ++ String (Ascii.ascii_of_nat 34) EmptyString).

(** [struct addrinfo], as far as it is used: an address of one of the two families, or of
    another one. *)
Inductive addrinfo := Ai4 (addr : Z) | Ai6 (addr : list byte) | AiOther.

(** The loop that left-justifies a network address; 4 shifts are enough. *)
Fixpoint left_justify (fuel : nat) (addr mask : Z) : Z * Z :=
  match fuel with
  | O => (addr, mask)
  | S n =>
      if negb (addr =? 0) && ((addr &&& 0xff000000) =? 0)
      then left_justify n (u32 (Z.shiftl addr 8)) (u32 (Z.shiftl mask 8))
      else (addr, mask)
  end.

(** [n << k] in 32 bits; C does not define a shift by a negative number, or by 32 or more. *)
Definition shift_left (n k : Z) : G Z :=
  if (0 <=? k) && (k <? 32) then mret (u32 (Z.shiftl n k)) else undefined.

(** The protocol of a port, for the qualifier [proto]: the one of the name must not be
    another transport protocol. [msg] is the message of the error. *)
Definition real_port_proto (proto real_proto : Z) (msg : string -> string) : G Z :=
  if proto =? Q_UDP then
    if real_proto =? IPPROTO_TCP then bpf_error (msg "tcp"%string)
    else if real_proto =? IPPROTO_SCTP then bpf_error (msg "sctp"%string)
    else mret IPPROTO_UDP
  else if proto =? Q_TCP then
    if real_proto =? IPPROTO_UDP then bpf_error (msg "udp"%string)
    else if real_proto =? IPPROTO_SCTP then bpf_error (msg "sctp"%string)
    else mret IPPROTO_TCP
  else if proto =? Q_SCTP then
    if real_proto =? IPPROTO_UDP then bpf_error (msg "udp"%string)
    else if real_proto =? IPPROTO_TCP then bpf_error (msg "tcp"%string)
    else mret IPPROTO_SCTP
  else mret real_proto.

Definition check_port (port : Z) : G unit :=
  if port <? 0 then bpf_error "illegal port number %d < 0"
  else if 65535 <? port then bpf_error "illegal port number %d > 65535"
  else mret tt.

(** [b = gen_port(...); gen_or(gen_port6(...), b);] and the same for ranges *)
Definition gen_port_either (port proto dir : Z) : G nat :=
  b ← gen_port port proto dir;
  b6 ← gen_port6 port proto dir;
  _ ← g_or b6 b;
  mret b.
Definition gen_portrange_either (port1 port2 proto dir : Z) : G nat :=
  b ← gen_portrange port1 port2 proto dir;
  b6 ← gen_portrange6 port1 port2 proto dir;
  _ ← g_or b6 b;
  mret b.

Section Databases.
Context (getservbyname : string -> string -> option Z) (getprotobyname getnetbyname : string -> option Z).
(** [getaddrinfo], called by [pcap_nametoaddrinfo]: the list it returns, empty for an error. *)
Context (getaddrinfo : string -> list addrinfo).
(** [ether_hostton], called by [pcap_ether_hostton]. *)
Context (ether_hostton : string -> option (list byte)).

(** [lookup_proto(name, proto)] *)
Definition lookup_proto (name : string) (proto : Z) : G Z :=
  if one_of proto [Q_DEFAULT; Q_IP; Q_IPV6] then
    let v := pcap_nametoproto getprotobyname name in
    if v =? PROTO_UNDEF then bpf_error "unknown ip proto '%s'" else mret v
  else if proto =? Q_LINK then
    let v := pcap_nametoeproto name in
    if v =? PROTO_UNDEF then
      let v := pcap_nametollc name in
      if v =? PROTO_UNDEF then bpf_error "unknown ether proto '%s'" else mret v
    else mret v
  else if proto =? Q_ISO then
    if String.eqb name "esis" then mret ISO9542_ESIS
    else if String.eqb name "isis" then mret ISO10589_ISIS
    else if String.eqb name "clnp" then mret ISO8473_CLNP
    else bpf_error "unknown osi proto '%s'"
  else mret PROTO_UNDEF.

(** [eaddr = pcap_ether_hostton(name); if (eaddr == NULL) bpf_error(msg, name);] *)
Definition hostton_or (name msg : string) : G (list byte) :=
  match ether_hostton name with Some eaddr => mret eaddr | None => bpf_error msg end.

(** [gen_scode] for a hardware address *)
Definition link_host_only : string :=
  "only ethernet/FDDI/token ring/802.11/ATM LANE/Fibre Channel supports link-level host name".
Definition gen_scode_link (name : string) (dir : Z) : G nat :=
  dlt ← getv linktype;
  if one_of dlt dlt_ether then a ← hostton_or name "unknown ether host '%s'"; gen_ehostop a dir
  else if dlt =? DLT_FDDI then a ← hostton_or name "unknown FDDI host '%s'"; gen_fhostop a dir
  else if dlt =? DLT_IEEE802 then a ← hostton_or name "unknown token ring host '%s'"; gen_thostop a dir
  else if one_of dlt dlt_802_11 then a ← hostton_or name "unknown 802.11 host '%s'"; gen_wlanhostop a dir
  else if dlt =? DLT_IP_OVER_FC then a ← hostton_or name "unknown Fibre Channel host '%s'"; gen_ipfchostop a dir
  else if dlt =? DLT_SUNATM then
    a ← getv g_atm;
    if is_lane a then not_le_control (a ← hostton_or name "unknown ether host '%s'"; gen_ehostop a dir)
    else bpf_error link_host_only
  else bpf_error link_host_only.

(** The loop over the addresses of a name, with INET6: [b] is the test so far. *)
Fixpoint gen_addrs (res : list addrinfo) (tproto tproto6 dir : Z) (b : option nat) : G (option nat) :=
  match res with
  | [] => mret b
  | r :: res =>
      tmp ← match r with
            | Ai4 a =>
                if tproto =? Q_IPV6 then mret None
                else tmp ← gen_host a 0xffffffff tproto dir; mret (Some tmp)
            | Ai6 a =>
                if tproto6 =? Q_IP then mret None
                else tmp ← gen_host6 a (replicate 16 (z2b 0xff)) tproto6 dir; mret (Some tmp)
            | AiOther => mret None
            end;
      b ← match tmp, b with
          | None, _ => mret b
          | Some tmp, Some b => _ ← g_or b tmp; mret (Some tmp)
          | Some tmp, None => mret (Some tmp)
          end;
      gen_addrs res tproto tproto6 dir b
  end.

(** [gen_scode] for the name of a host *)
Definition gen_scode_host (name : string) (proto dir : Z) : G nat :=
  let res := getaddrinfo name in
  match res with
  | [] => bpf_error "unknown host '%s'"
  | _ =>
      l ← getv g_link;
      let any := (off_linktype l =? neg1) && (proto =? Q_DEFAULT) in
      b ← gen_addrs res (if any then Q_IP else proto) (if any then Q_IPV6 else proto) dir None;
      match b with
      | Some b => mret b
      | None => bpf_error "unknown host '%s'%s"
      end
  end.

(** [gen_scode(name, q)] *)
Definition gen_scode (name : string) (q : qual) : G nat :=
  let proto := q_proto q in
  let dir := q_dir q in
  if q_addr q =? Q_NET then
    let addr := pcap_nametonetaddr getnetbyname name in
    if addr =? 0 then bpf_error "unknown network '%s'"
    else let '(addr, mask) := left_justify 4 addr 0xffffffff in gen_host addr mask proto dir
  else if one_of (q_addr q) [Q_DEFAULT; Q_HOST] then
    if proto =? Q_LINK then gen_scode_link name dir
    else if proto =? Q_DECNET then dn_addr ← __pcap_nametodnaddr name; gen_host dn_addr 0 proto dir
    else gen_scode_host name proto dir
  else if q_addr q =? Q_PORT then
    if negb (one_of proto [Q_DEFAULT; Q_UDP; Q_TCP; Q_SCTP]) then bpf_error "illegal qualifier of 'port'"
    else match pcap_nametoport getservbyname name with
         | None => bpf_error "unknown port '%s'"
         | Some (port, real_proto) =>
             real_proto ← real_port_proto proto real_proto (fun p => "port '%s' is " ++ p)%string;
             _ ← check_port port;
             gen_port_either port real_proto dir
         end
  else if q_addr q =? Q_PORTRANGE then
    if negb (one_of proto [Q_DEFAULT; Q_UDP; Q_TCP; Q_SCTP]) then bpf_error "illegal qualifier of 'portrange'"
    else match pcap_nametoportrange getservbyname name with
         | None => bpf_error "unknown port in range '%s'"
         | Some (port1, port2, real_proto) =>
             real_proto ← real_port_proto proto real_proto (fun p => "port in range '%s' is " ++ p)%string;
             _ ← check_port port1;
             _ ← check_port port2;
             gen_portrange_either port1 port2 real_proto dir
         end
  else if q_addr q =? Q_GATEWAY then bpf_error "'gateway' not supported in this configuration"
  else if q_addr q =? Q_PROTO then
    real_proto ← lookup_proto name proto;
    if 0 <=? real_proto then gen_proto real_proto proto dir else bpf_error "unknown protocol: %s"
  else if q_addr q =? Q_PROTOCHAIN then
    real_proto ← lookup_proto name proto;
    if 0 <=? real_proto then gen_protochain real_proto proto else bpf_error "unknown protocol: %s"
  else if q_addr q =? Q_UNDEF then syntax
  else abort.

(** ** Networks with a mask *)

(** [gen_mcode(s1, s2, masklen, q)] *)
Definition gen_mcode (s1 : string) (s2 : option string) (masklen : Z) (q : qual) : G nat :=
  let '(nlen, n) := __pcap_atoin s1 in
  n ← shift_left n (32 - nlen);
  m ← match s2 with
      | Some s2 =>
          let '(mlen, m) := __pcap_atoin s2 in
          m ← shift_left m (32 - mlen);
          if negb ((n &&& u32 (Z.lnot m)) =? 0)
          then bpf_error ("non-network bits set in " ++ in_quotes "%s mask %s")
          else mret m
      | None =>
          if 32 <? masklen then bpf_error "mask length must be <= 32"
          else
            m ← (if masklen =? 0 then mret 0 else shift_left 0xffffffff (32 - masklen));
            if negb ((n &&& u32 (Z.lnot m)) =? 0)
            then bpf_error ("non-network bits set in " ++ in_quotes "%s/%d")
            else mret m
      end;
  if q_addr q =? Q_NET then gen_host n m (q_proto q) (q_dir q)
  else bpf_error "Mask syntax for networks only".

(** [gen_ncode(s, v, q)]; [s] is null for a plain number *)
Definition port_qualifier (proto : Z) (msg : string) : G Z :=
  if proto =? Q_UDP then mret IPPROTO_UDP
  else if proto =? Q_TCP then mret IPPROTO_TCP
  else if proto =? Q_SCTP then mret IPPROTO_SCTP
  else if proto =? Q_DEFAULT then mret PROTO_UNDEF
  else bpf_error msg.

Definition gen_ncode (s : option string) (v : Z) (q : qual) : G nat :=
  let proto := q_proto q in
  let dir := q_dir q in
  '(vlen, v) ← match s with
               | None => mret (32, v)
               | Some s => if q_proto q =? Q_DECNET then __pcap_atodn s else mret (__pcap_atoin s)
               end;
  if one_of (q_addr q) [Q_DEFAULT; Q_HOST; Q_NET] then
    if proto =? Q_DECNET then gen_host v 0 proto dir
    else if proto =? Q_LINK then bpf_error "illegal link layer address"
    else
      '(v, mask) ←
        (if bool_decide (s = None) && (q_addr q =? Q_NET) then mret (left_justify 4 v 0xffffffff)
         else v ← shift_left v (32 - vlen); mask ← shift_left 0xffffffff (32 - vlen); mret (v, mask));
      gen_host v mask proto dir
  else if q_addr q =? Q_PORT then
    proto ← port_qualifier proto "illegal qualifier of 'port'";
    if 65535 <? v then bpf_error "illegal port number %u > 65535"
    else gen_port_either v proto dir
  else if q_addr q =? Q_PORTRANGE then
    proto ← port_qualifier proto "illegal qualifier of 'portrange'";
    if 65535 <? v then bpf_error "illegal port number %u > 65535"
    else gen_portrange_either v v proto dir
  else if q_addr q =? Q_GATEWAY then bpf_error "'gateway' requires a name"
  else if q_addr q =? Q_PROTO then gen_proto (s32 v) proto dir
  else if q_addr q =? Q_PROTOCHAIN then gen_protochain (s32 v) proto
  else if q_addr q =? Q_UNDEF then syntax
  else abort.

(** [gen_mcode6(s1, s2, masklen, q)]: the mask is [masklen] one bits. An address that is not
    of IPv6 is read past its end. *)
Definition prefix_mask (masklen : Z) : list byte :=
  let full := replicate (Z.to_nat (masklen / 8)) (z2b 0xff) in
  let part := if masklen mod 8 =? 0 then []
              else [z2b (Z.shiftl 0xff (8 - masklen mod 8) &&& 0xff)] in
  take 16 (full ++ part ++ replicate 16 (z2b 0)).

(** The four tests of a word of the address against the mask. *)
Definition host_bits (addr mask : list byte) : bool :=
  existsb (fun '(a, m) => negb ((b2z a &&& u8 (Z.lnot (b2z m))) =? 0)) (combine addr mask).

Definition gen_mcode6 (s1 : string) (s2 : option string) (masklen : Z) (q : qual) : G nat :=
  match s2 with
  | Some _ => bpf_error "no mask %s supported"
  | None =>
      match getaddrinfo s1 with
      | [] => bpf_error "invalid ip6 address %s"
      | [r] =>
          addr ← match r with Ai6 a => mret a | _ => undefined end;
          if 128 <? u64 masklen then bpf_error "mask length must be <= %u"
          else
            let mask := prefix_mask masklen in
            if host_bits addr mask then bpf_error ("non-network bits set in " ++ in_quotes "%s/%d")
            else if one_of (q_addr q) [Q_DEFAULT; Q_HOST] then
              if negb (masklen =? 128) then bpf_error "Mask syntax for networks only"
              else gen_host6 addr mask (q_proto q) (q_dir q)
            else if q_addr q =? Q_NET then gen_host6 addr mask (q_proto q) (q_dir q)
            else bpf_error "invalid qualifier against IPv6 address"
      | _ => bpf_error "%s resolved to multiple address"
      end
  end.
End Databases.
