(* ===== verification/GenFinish.v ===== *)
(** * The end of code generation (gencode.c)

    Link-layer types with headers of variable length keep the length of the prefix, and the
    offset of the MAC-layer payload, in registers; the statements that compute them go before
    those of the first block. For PPI the type of the packet is checked first. Then the lists
    of open edges are closed, and the graph is optimized and laid out. *)
From stdpp Require Import base numbers list gmap.
From Stdlib Require Import Strings.Byte Strings.String.
From S2P Require Import Prelude BpfInsn BpfFilter Icode Gencode GencodeFilter Layout LayoutProofs LayoutConvert LayoutLoop OptState OptFlow OptValue OptBlock OptBranch OptLoop Compile LinkType GenConst GenState GenLoad GenLink.
Open Scope Z_scope.

(** ** Lengths of the prefix *)

(** The end of the four functions: the length is in A; save it, and leave it in X. *)
Definition save_off_ll (s1 : slist) (reg : Z) : G slist :=
  s2 ← new_stmt BPF_ST reg;
  let s1 := sappend s1 s2 in
  s2 ← new_stmt (BPF_MISC ||| BPF_TAX) 0;
  mret (sappend s1 s2).

(** [s->s.jt = s1; s->s.jf = s2], for a list of one statement *)
Definition set_jumps (s : slist) (jt jf : option nat) : slist :=
  map (fun n => mk_snode (sn_addr n) (mk_stmt (s_code (sn_s n)) jt jf (s_k (sn_s n)))) s.
Definition first_node (s : slist) : option nat := sn_addr <$> head s.

(** [gen_load_prism_llprefixlen()]: [None] for the null pointer. *)
Definition gen_load_prism_llprefixlen : G (option slist) :=
  _ ← setv (with_no_optimize true);
  r ← getv g_regs;
  if negb (reg_off_ll r =? -1) then
    s1 ← new_stmt (BPF_LD ||| BPF_W ||| BPF_ABS) 0;
    mask ← new_stmt (BPF_ALU ||| BPF_AND ||| BPF_K) 0xFFFFF000;
    sjeq ← new_stmt (JMP BPF_JEQ) 0x80211000;
    avs ← new_stmt (BPF_LD ||| BPF_W ||| BPF_ABS) 4;
    sjcommon ← new_stmt (JMP BPF_JA) 1;
    prism ← new_stmt (BPF_LD ||| BPF_W ||| BPF_IMM) 144;
    st ← new_stmt BPF_ST (reg_off_ll r);
    tax ← new_stmt (BPF_MISC ||| BPF_TAX) 0;
    mret (Some (s1 ++ mask ++ set_jumps sjeq (first_node avs) (first_node prism) ++ avs
                ++ set_jumps sjcommon None (first_node st) ++ prism ++ st ++ tax)%list)
  else mret None.

(** [gen_load_avs_llprefixlen()] *)
Definition gen_load_avs_llprefixlen : G (option slist) :=
  r ← getv g_regs;
  if negb (reg_off_ll r =? -1) then
    s1 ← new_stmt (BPF_LD ||| BPF_W ||| BPF_ABS) 4;
    s ← save_off_ll s1 (reg_off_ll r);
    mret (Some s)
  else mret None.

(** [gen_load_radiotap_llprefixlen()], and [gen_load_ppi_llprefixlen()], the same: the
    length is little-endian. *)
Definition gen_load_radiotap_llprefixlen : G (option slist) :=
  r ← getv g_regs;
  if negb (reg_off_ll r =? -1) then
    s1 ← new_stmt (BPF_LD ||| BPF_B ||| BPF_ABS) 3;
    s2 ← new_stmt (BPF_ALU ||| BPF_LSH ||| BPF_K) 8;
    let s1 := sappend s1 s2 in
    s2 ← new_stmt (BPF_MISC ||| BPF_TAX) 0;
    let s1 := sappend s1 s2 in
    s2 ← new_stmt (BPF_LD ||| BPF_B ||| BPF_ABS) 2;
    let s1 := sappend s1 s2 in
    s2 ← new_stmt (BPF_ALU ||| BPF_OR ||| BPF_X) 0;
    let s1 := sappend s1 s2 in
    s ← save_off_ll s1 (reg_off_ll r);
    mret (Some s)
  else mret None.
Definition gen_load_ppi_llprefixlen : G (option slist) := gen_load_radiotap_llprefixlen.

(** ** The 802.11 header *)

(** The part of [gen_load_802_11_header_len] for radiotap: round the length up if there is
    Atheros padding. The result is the statements and the first of them. *)
Definition gen_radiotap_datapad (reg : Z) (snext : option nat) : G slist :=
  present ← new_stmt (BPF_LD ||| BPF_ABS ||| BPF_W) 4;
  flags ← new_stmt (JMP BPF_JSET) (SWAPLONG 0x00000002);
  tsft ← new_stmt (JMP BPF_JSET) (SWAPLONG 0x00000001);
  at16 ← new_stmt (BPF_LD ||| BPF_ABS ||| BPF_B) 16;
  pad16 ← new_stmt (JMP BPF_JSET) 0x20;
  at8 ← new_stmt (BPF_LD ||| BPF_ABS ||| BPF_B) 8;
  pad8 ← new_stmt (JMP BPF_JSET) 0x20;
  roundup ← new_stmt (BPF_LD ||| BPF_MEM) reg;
  add3 ← new_stmt (BPF_ALU ||| BPF_ADD ||| BPF_IMM) 3;
  mask ← new_stmt (BPF_ALU ||| BPF_AND ||| BPF_IMM) (Z.lnot 3);
  st ← new_stmt BPF_ST reg;
  mret (present ++ set_jumps flags (first_node tsft) snext
        ++ set_jumps tsft (first_node at16) (first_node at8)
        ++ at16 ++ set_jumps pad16 (first_node roundup) snext
        ++ at8 ++ set_jumps pad8 (first_node roundup) snext
        ++ roundup ++ add3 ++ mask ++ st)%list.

(** [gen_load_802_11_header_len(s, snext)] *)
Definition gen_load_802_11_header_len (s : option slist) (snext : option nat) : G (option slist) :=
  r ← getv g_regs;
  let reg := reg_off_macpl r in
  if reg =? -1 then mret s
  else
    _ ← setv (with_no_optimize true);
    l ← getv g_link;
    s ← match s with Some s => mret s | None => new_stmt (BPF_LDX ||| BPF_IMM) (off_ll l) end;
    txa ← new_stmt (BPF_MISC ||| BPF_TXA) 0;
    add24 ← new_stmt (BPF_ALU ||| BPF_ADD ||| BPF_K) 24;
    st24 ← new_stmt BPF_ST reg;
    fc ← new_stmt (BPF_LD ||| BPF_IND ||| BPF_B) 0;
    data1 ← new_stmt (JMP BPF_JSET) 0x08;
    data2 ← new_stmt (JMP BPF_JSET) 0x04;
    qos ← new_stmt (JMP BPF_JSET) 0x80;
    ld ← new_stmt (BPF_LD ||| BPF_MEM) reg;
    add2 ← new_stmt (BPF_ALU ||| BPF_ADD ||| BPF_IMM) 2;
    st2 ← new_stmt BPF_ST reg;
    dlt ← getv linktype;
    pad ← (if dlt =? DLT_IEEE802_11_RADIO then gen_radiotap_datapad reg snext else mret []);
    let not_qos := match pad with [] => snext | _ => first_node pad end in
    mret (Some (s ++ txa ++ add24 ++ st24 ++ fc
                ++ set_jumps data1 (first_node data2) snext
                ++ set_jumps data2 snext (first_node qos)
                ++ set_jumps qos (first_node ld) not_qos
                ++ ld ++ add2 ++ st2 ++ pad)%list).

(** ** The first block *)

(** [b->stmts] *)
Definition block_stmts (b : nat) : G slist := fun s =>
  match gs_heap s !! b with Some B => GOk (b_stmts B) s | None => GStuck end.
Definition set_block_stmts (b : nat) (ss : slist) : G unit :=
  on_heap (fun h => B ← h !! b; Some (<[b := set_code ss (b_s B) B]> h)).

(** [insert_compute_vloffsets(b)] *)
Definition insert_compute_vloffsets (b : nat) : G unit :=
  dlt ← getv linktype;
  s ← (if dlt =? DLT_PRISM_HEADER then gen_load_prism_llprefixlen
       else if dlt =? DLT_IEEE802_11_RADIO_AVS then gen_load_avs_llprefixlen
       else if dlt =? DLT_IEEE802_11_RADIO then gen_load_radiotap_llprefixlen
       else if dlt =? DLT_PPI then gen_load_ppi_llprefixlen
       else mret None);
  ss ← block_stmts b;
  s ← (if one_of dlt dlt_802_11 then gen_load_802_11_header_len s (first_node ss) else mret s);
  match s with
  | Some s => set_block_stmts b (sappend s ss)
  | None => mret tt
  end.

(** [gen_ppi_dlt_check()] *)
Definition gen_ppi_dlt_check : G (option nat) :=
  dlt ← getv linktype;
  if dlt =? DLT_PPI then
    s ← new_stmt (BPF_LD ||| BPF_W ||| BPF_ABS) 4;
    b ← new_test BPF_JEQ s (SWAPLONG DLT_IEEE802_11);
    mret (Some b)
  else mret None.

(** [p->head] *)
Definition block_head (b : nat) : G nat := fun s =>
  match gs_heap s !! b with Some B => GOk (b_head B) s | None => GStuck end.

(** A step that makes the root. *)
Definition close_graph (f : heap -> option (nat * heap)) : G nat := fun s =>
  match f (gs_heap s) with
  | Some (root, h) => GOk root (mk_gstate (gs_env s) h (gs_addr s))
  | None => GStuck
  end.

(** [finish_parse(p)]: the root. [Gencode.close_parse] is the part from the calls of
    [backpatch] on. *)
Definition finish_parse (p : nat) : G nat :=
  hd ← block_head p;
  _ ← insert_compute_vloffsets hd;
  check ← gen_ppi_dlt_check;
  _ ← match check with Some c => g_and c p | None => mret tt end;
  n ← getv snaplen;
  close_graph (fun h => close_parse h p n).

(** ** [pcap_compile] *)

(** The variables when the parser starts. The ones [init_linktype] sets are whatever they
    were; here, the values of a program that has just started. *)
Definition start_env (netmask snaplen : Z) (rfile swapped : bool) : genv :=
  mk_genv 0 0 (mk_link 0 0 0 false 0 0 0) (mk_atm false false 0 0 0 0) (mk_ss7 0 0 0 0 0 0)
    (mk_encap false 0 0 0) (mk_registers [] 0 0 0) false snaplen netmask rfile swapped.

(** [init_linktype(p); pcap_parse();] and the root for an empty program. [parse] is what the
    actions of the grammar do before [finish_parse]; [None] for a program with no
    expression. *)
Definition gen_program (dlt fddipad : Z) (parse : G (option nat)) : G nat :=
  _ ← init_regs;
  _ ← init_linktype dlt fddipad;
  b ← parse;
  match b with
  | Some p => finish_parse p
  | None =>
      n ← getv snaplen;
      close_graph (fun h => Some (gen_retblk n h))
  end.

(** What the compiler comes to: the results of [pcap_compile], or the message of a call of
    [bpf_error], after which it returns -1. *)
Inductive program_result :=
| Result (r : compile_result)
| Message (fmt : string)
| Aborted.

(** [pcap_compile(p, program, buf, optimize, mask)]. [None]: a bad pointer, a message of the
    passes after the parser, or an optimizer loop that did not end in [rounds]. *)
Definition pcap_compile_filter (rounds : nat) (optimize : bool) (activated : bool) (dlt fddipad snaplen netmask : Z)
    (rfile swapped : bool) (parse : G (option nat)) : option program_result :=
  if negb activated then Some (Result NotActivated)
  else if snaplen =? 0 then Some (Result SnaplenZero)
  else match gen_program dlt fddipad parse (mk_gstate (start_env netmask snaplen rfile swapped) ∅ 0) with
       | GOk root s => Result <$> compile_graph rounds (optimize && negb (no_optimize (gs_env s))) 0 (gs_heap s) root
       | GError fmt => Some (Message fmt)
       | GAbort => Some Aborted
       | GStuck => None
       end.
