(* ===== verification/GenExpr.v ===== *)
(** * The actions of the grammar (grammar.y)

    Abstract syntax of the filter language, and for each construct the action the grammar
    attaches to it. The qualifiers a bare identifier inherits from the one before it are
    already with it: bison passes them down as [$<blk>0.q]. The scanner and the bison tables
    are not modelled. *)
From stdpp Require Import base numbers list gmap.
From Stdlib Require Import Strings.Byte Strings.String.
From S2P Require Import Prelude BpfInsn BpfFilter Icode Gencode GencodeFilter LinkType GenConst GenState Names GenLoad GenLink GenHost GenPort GenArth GenMisc GenName.
Open Scope Z_scope.

(** [arth], [narth] *)
Inductive arith :=
| ANum (n : Z)
| ALen
| ALoad (pname : Z) (index : arith) (size : Z)
| AOp (code : Z) (a0 a1 : arith)
| ANeg (a : arith).

Fixpoint gen_arith (a : arith) : G arth :=
  match a with
  | ANum n => gen_loadi n
  | ALen => gen_loadlen
  | ALoad pname index size => i ← gen_arith index; gen_load pname i size
  | AOp code a0 a1 => x0 ← gen_arith a0; x1 ← gen_arith a1; gen_arth code x0 x1
  | ANeg a => x ← gen_arith a; gen_neg x
  end.

(** [nid], [id], and the cases of [rterm] and [other] *)
Inductive prim :=
| PId (name : string) (q : qual)
| PNum (n : Z) (q : qual)
| PNet (s : string) (masklen : Z) (q : qual)
| PNetmask (s mask : string) (q : qual)
| PHid (s : string) (q : qual)
| PHid6 (s : string) (masklen : Z) (q : qual)
| PEid (eaddr : list byte) (q : qual)
| PAid (eaddr : list byte) (q : qual)
| PProto (pname : Z)
| PRelation (code : Z) (reversed : bool) (a0 a1 : arith)
| PBroadcast (pqual : Z)
| PMulticast (pqual : Z)
| PLess (n : Z)
| PGreater (n : Z)
| PByte (idx op val : Z)
| PInbound (dir : bool)
| PVlan (n : Z)
| PMpls (n : Z)
| PPppoed
| PPppoes (n : Z)
| PType80211 (type mask : Z)
| PDir80211 (dir : Z)
| PAtm (type : Z)
| PAtmMulti (type : Z)
| PAtmField (field value code : Z) (reversed : bool)
| PMtp2 (type : Z)
| PMtp3Field (field value code : Z) (reversed : bool).

(** [expr], [term], [id], [pid] and the lists of ATM and MTP3 values *)
Inductive expr :=
| EPrim (p : prim)
| EAnd (e0 e1 : expr)
| EOr (e0 e1 : expr)
| ENot (e : expr).

(** The action of [HID] alone: the kinds of address it cannot be. *)
Definition hid_error (addr : Z) : option string :=
  if addr =? Q_PORT then Some "'port' modifier applied to ip host"%string
  else if addr =? Q_PORTRANGE then Some "'portrange' modifier applied to ip host"%string
  else if addr =? Q_PROTO then Some "'proto' modifier applied to ip host"%string
  else if addr =? Q_PROTOCHAIN then Some "'protochain' modifier applied to ip host"%string
  else None.

Section Databases.
Context (getservbyname : string -> string -> option Z) (getprotobyname getnetbyname : string -> option Z).
Context (getaddrinfo : string -> list addrinfo) (ether_hostton : string -> option (list byte)).

Definition gen_prim (p : prim) : G nat :=
  match p with
  | PId name q => gen_scode getservbyname getprotobyname getnetbyname getaddrinfo ether_hostton name q
  | PNum n q => gen_ncode None (u32 n) q
  | PNet s masklen q => gen_mcode s None masklen q
  | PNetmask s mask q => gen_mcode s (Some mask) 0 q
  | PHid s q => match hid_error (q_addr q) with Some msg => bpf_error msg | None => gen_ncode (Some s) 0 q end
  | PHid6 s masklen q => gen_mcode6 getaddrinfo s None masklen q
  | PEid eaddr q => gen_ecode eaddr q
  | PAid eaddr q => gen_acode eaddr q
  | PProto pname => gen_proto_abbrev pname
  | PRelation code reversed a0 a1 => x0 ← gen_arith a0; x1 ← gen_arith a1; gen_relation code x0 x1 reversed
  | PBroadcast pqual => gen_broadcast pqual
  | PMulticast pqual => gen_multicast pqual
  | PLess n => gen_less n
  | PGreater n => gen_greater n
  | PByte idx op val => gen_byteop op idx val
  | PInbound dir => gen_inbound dir
  | PVlan n => gen_vlan n
  | PMpls n => gen_mpls n
  | PPppoed => gen_pppoed
  | PPppoes n => gen_pppoes n
  | PType80211 type mask => gen_p80211_type type mask
  | PDir80211 dir => gen_p80211_fcdir dir
  | PAtm type => gen_atmtype_abbrev type
  | PAtmMulti type => gen_atmmulti_abbrev type
  | PAtmField field value code reversed => gen_atmfield_code field value code reversed
  | PMtp2 type => gen_mtp2type_abbrev type
  | PMtp3Field field value code reversed => gen_mtp3field_code field (u32 value) code reversed
  end.

Fixpoint gen_expr (e : expr) : G nat :=
  match e with
  | EPrim p => gen_prim p
  | EAnd e0 e1 => b0 ← gen_expr e0; b1 ← gen_expr e1; _ ← g_and b0 b1; mret b1
  | EOr e0 e1 => b0 ← gen_expr e0; b1 ← gen_expr e1; _ ← g_or b0 b1; mret b1
  | ENot e => b ← gen_expr e; _ ← g_not b; mret b
  end.

(** [prog]: an expression or nothing *)
Definition gen_prog (e : option expr) : G (option nat) :=
  match e with Some e => b ← gen_expr e; mret (Some b) | None => mret None end.
End Databases.
