(* ===== verification/GenLogic.v ===== *)
(** * Reasoning about the code generator

    What a filter expression decides is a predicate on packets with three results: true,
    false, and rejection of a packet that is too short for a load ([None]). [heap_inv h L]
    says that the blocks of the heap are exactly those of the expressions listed in [L],
    each in blocks of its own and each deciding the predicate listed with it; it is kept by
    creating a test and by [gen_and], [gen_or] and [gen_not], which replace expressions of
    the list by their combination. [triple] is the corresponding Hoare triple for the
    [gen_] functions: total correctness, with the rest of the heap framed. *)
From stdpp Require Import base numbers list gmap.
From Stdlib Require Import Strings.Byte.
From S2P Require Import Prelude BpfInsn BpfFilter BpfFilterProofs Icode Gencode GencodeProofs GencodeFilter Layout LayoutProofs LayoutConvert LayoutLoop Compile LinkType GenConst GenState.
Open Scope Z_scope.

(** ** Predicates on packets *)

Definition fpred := list byte -> Z -> option bool.

Definition p_and (f g : fpred) : fpred := fun p w =>
  match f p w with Some true => g p w | r => r end.
Definition p_or (f g : fpred) : fpred := fun p w =>
  match f p w with Some false => g p w | r => r end.
Definition p_not (f : fpred) : fpred := fun p w => negb <$> f p w.

Definition packet_ok (p : list byte) (w : Z) : Prop := Z.of_nat (length p) < 2 ^ 31 /\ 0 <= w < 2 ^ 32.

Definition fpred_eq (f g : fpred) : Prop := forall p w, packet_ok p w -> f p w = g p w.

#[export] Instance fpred_eq_equiv : Equivalence fpred_eq.
Proof.
  split; [now intros f p w|intros f g H p w Hp; symmetry; auto|].
  intros f g k H1 H2 p w Hp. rewrite (H1 p w Hp). auto.
Qed.
#[export] Instance p_and_proper : Proper (fpred_eq ==> fpred_eq ==> fpred_eq) p_and.
Proof. intros f f' Hf g g' Hg p w Hp. unfold p_and. now rewrite (Hf p w Hp), (Hg p w Hp). Qed.
#[export] Instance p_or_proper : Proper (fpred_eq ==> fpred_eq ==> fpred_eq) p_or.
Proof. intros f f' Hf g g' Hg p w Hp. unfold p_or. now rewrite (Hf p w Hp), (Hg p w Hp). Qed.
#[export] Instance p_not_proper : Proper (fpred_eq ==> fpred_eq) p_not.
Proof. intros f f' Hf p w Hp. unfold p_not. now rewrite (Hf p w Hp). Qed.

(** An expression decides a predicate, from any registers: it leaves by the side the
    predicate tells, and rejects the packet where the predicate is [None]. *)
Definition agrees (v : option bool) (d : exit_result) : Prop :=
  match v with
  | Some side => exists r', d = Leave side r' /\ wf_regs r'
  | None => d = Done (Return 0)
  end.

Definition decides (e : bexp) (f : fpred) : Prop :=
  wf_bexp e = true /\
  forall p w r, packet_ok p w -> wf_regs r ->
    agrees (f p w) (eval_bexp p w (Z.of_nat (length p)) e r).

Lemma decides_ext e f g : fpred_eq f g -> decides e f -> decides e g.
Proof. intros Hfg [Hw Hd]. split; [done|]. intros p w r Hp Hr. rewrite <- (Hfg p w Hp). auto. Qed.

Lemma decides_and e0 e1 f0 f1 : decides e0 f0 -> decides e1 f1 -> decides (BAnd e0 e1) (p_and f0 f1).
Proof.
  intros [W0 D0] [W1 D1]. split; [cbn; now rewrite W0, W1|]. intros p w r Hp Hr. cbn. unfold m_and, p_and.
  specialize (D0 p w r Hp Hr). destruct (f0 p w) as [[]|]; cbn in D0 |- *; [|eauto|now rewrite D0].
  - destruct D0 as (r' & -> & Hr'). apply D1; auto.
  - destruct D0 as (r' & -> & Hr'). eauto.
Qed.

Lemma decides_or e0 e1 f0 f1 : decides e0 f0 -> decides e1 f1 -> decides (BOr e0 e1) (p_or f0 f1).
Proof.
  intros [W0 D0] [W1 D1]. split; [cbn; now rewrite W0, W1|]. intros p w r Hp Hr. cbn. unfold m_or, p_or.
  specialize (D0 p w r Hp Hr). destruct (f0 p w) as [[]|]; cbn in D0 |- *; [|eauto|now rewrite D0].
  - destruct D0 as (r' & -> & Hr'). eauto.
  - destruct D0 as (r' & -> & Hr'). apply D1; auto.
Qed.

Lemma decides_not e f : decides e f -> decides (BNot e) (p_not f).
Proof.
  intros [W D]. split; [done|]. intros p w r Hp Hr. cbn. unfold m_not, p_not.
  specialize (D p w r Hp Hr). destruct (f p w) as [v|]; cbn in D |- *; [|now rewrite D].
  destruct D as (r' & -> & Hr'). eauto.
Qed.

(** ** Live expressions *)

(** An expression of the heap: its block, what it decides, and a bound on the slots its
    blocks can take in the compiled program. *)
Record item := mk_item { it_block : nat; it_pred : fpred; it_size : Z }.

Definition live (h : heap) (S : gset nat) (i : item) : Prop :=
  exists e T F, decides e (it_pred i) /\
    forall p w buflen, denotes p w buflen h (it_block i) S T F (eval_bexp p w buflen e).

(** The expressions of [L], in disjoint parts of [U]. *)
Fixpoint owns (h : heap) (U : gset nat) (L : list item) : Prop :=
  match L with
  | [] => True
  | i :: L => exists S, S ⊆ U /\ live h S i /\ owns h (U ∖ S) L
  end.

Definition total (L : list item) : Z := zsum it_size L.

Definition heap_inv (h : heap) (L : list item) : Prop :=
  fresh_blocks h /\ graph_size h <= total L /\ owns h (dom h) L.

Lemma live_frame h h' S i : live h S i -> (forall q, q ∈ S -> h' !! q = h !! q) -> live h' S i.
Proof.
  intros (e & T & F & Hd & HD) Hs. exists e, T, F. split; [done|]. intros p w buflen.
  eapply denotes_frame; eauto.
Qed.

Lemma owns_frame h h' U U' L :
  owns h U L -> U ⊆ U' -> (forall q, q ∈ U -> h' !! q = h !! q) -> owns h' U' L.
Proof.
  revert U U'; induction L as [|i L IH]; intros U U'; [done|]. intros (S & HS & Hl & Ho) HU Hs.
  exists S. split; [set_solver|]. split; [eapply live_frame; [exact Hl|]; set_solver|].
  eapply IH; [exact Ho|set_solver|set_solver].
Qed.

Lemma owns_perm h U L L' : L ≡ₚ L' -> owns h U L -> owns h U L'.
Proof.
  intros HP. revert U; induction HP as [|i L L' _ IH|i j L|L1 L2 L3 _ IH1 _ IH2]; intros U; [done| | |auto].
  - intros (S & HS & Hl & Ho). exists S. auto.
  - intros (S1 & H1 & L1 & S2 & H2 & L2 & Ho). exists S2. split; [set_solver|]. split; [done|].
    exists S1. split; [set_solver|]. split; [done|]. eapply owns_frame; [exact Ho| |done]. set_solver.
Qed.

Lemma total_perm L L' : L ≡ₚ L' -> total L = total L'.
Proof. unfold total. induction 1; cbn [zsum]; lia. Qed.

Lemma heap_inv_perm h L L' : L ≡ₚ L' -> heap_inv h L -> heap_inv h L'.
Proof.
  intros HP (Hf & Hs & Ho). split; [done|]. split; [now rewrite <- (total_perm _ _ HP)|].
  now apply (owns_perm _ _ L).
Qed.

(** ** The operations *)

Lemma heap_inv_new ss jtype v h b h' f L :
  gen_cond ss jtype v h = (b, h') -> decides (BTest ss jtype v) f -> heap_inv h L ->
  heap_inv h' (mk_item b f (slength ss + 3) :: L).
Proof.
  intros E Hd (Hf & Hs & Ho). pose proof (proj1 Hd) as Hw.
  destruct (gen_bexp_grown (BTest ss jtype v) h b h' Hw) as [G1 G2]; [cbn [gen_bexp]; now rewrite E|].
  assert (h !! b = None /\ forall q, q <> b -> h' !! q = h !! q) as [Hn Hsame]
    by (destruct (gen_cond_denotes [] 0 0 _ _ _ _ _ _ E) as (? & ? & _); auto).
  split; [auto|]. cbn [total zsum it_size] in *. cbn [bexp_size] in G2.
  split; [unfold total; cbn [zsum it_size]; unfold total in Hs; lia|].
  exists {[b]}. split.
  - intros q ->%elem_of_singleton. destruct (gen_cond_denotes [] 0 0 _ _ _ _ _ _ E) as (_ & _ & (hd & Hex & _)).
    destruct (expr_block _ _ _ _ _ _ Hex) as (B & HB & _). apply elem_of_dom. eauto.
  - split.
    + exists (BTest ss jtype v), [(b, true)], [(b, false)]. split; [done|]. intros p w buflen.
      now apply (gen_cond_denotes p w buflen _ _ _ _ _ _ E).
    + assert (forall q, q ∈ dom h -> q <> b) as Hne by (intros q [B HB]%elem_of_dom ->; congruence).
      eapply owns_frame; [exact Ho| |intros q Hq; auto].
      intros q Hq. pose proof (Hne q Hq). apply elem_of_difference. split; [|set_solver].
      apply elem_of_dom. rewrite Hsame by done. now apply elem_of_dom.
Qed.

Lemma heap_inv_size h h' L L' n : heap_inv h L -> grown h h' 0 -> total L <= n -> total L' = n ->
  owns h' (dom h') L' -> heap_inv h' L'.
Proof. intros (Hf & Hs & _) [G1 G2] Hn Hn' Ho. split; [auto|]. split; [lia|done]. Qed.

Lemma live_disjoint h U i j L : owns h U (i :: j :: L) ->
  exists S0 S1, live h S0 i /\ live h S1 j /\ S0 ## S1 /\ S0 ∪ S1 ⊆ U /\ owns h (U ∖ (S0 ∪ S1)) L.
Proof.
  intros (S0 & H0 & L0 & S1 & H1 & L1 & Ho). exists S0, S1. repeat split; [done|done|set_solver|set_solver|].
  now rewrite <- difference_difference_l_L.
Qed.

(** A combinator that succeeds on two separate expressions, touches only their blocks and
    leaves the combination in the second. *)
Lemma heap_inv_combine (op : heap -> nat -> nat -> option heap) (mk : bexp -> bexp -> bexp)
    (pk : fpred -> fpred -> fpred) :
  (forall e0 e1 f0 f1, decides e0 f0 -> decides e1 f1 -> decides (mk e0 e1) (pk f0 f1)) ->
  (forall h b0 b1 h', op h b0 b1 = Some h' -> keeps_payload h h') ->
  (forall h b0 b1 S0 S1 T0 F0 T1 F1 e0 e1, S0 ## S1 ->
     (forall p w n, denotes p w n h b0 S0 T0 F0 (eval_bexp p w n e0)) ->
     (forall p w n, denotes p w n h b1 S1 T1 F1 (eval_bexp p w n e1)) ->
     exists h' T F, op h b0 b1 = Some h' /\ (forall q, q ∉ S0 ∪ S1 -> h' !! q = h !! q) /\
       forall p w n, denotes p w n h' b1 (S0 ∪ S1) T F (eval_bexp p w n (mk e0 e1))) ->
  forall h b0 b1 f0 f1 n0 n1 L,
  heap_inv h (mk_item b0 f0 n0 :: mk_item b1 f1 n1 :: L) ->
  exists h', op h b0 b1 = Some h' /\ heap_inv h' (mk_item b1 (pk f0 f1) (n0 + n1) :: L).
Proof.
  intros Hdec Hkeep Hop h b0 b1 f0 f1 n0 n1 L (Hf & Hs & Ho).
  destruct (live_disjoint _ _ _ _ _ Ho) as (S0 & S1 & (e0 & T0 & F0 & D0 & N0) & (e1 & T1 & F1 & D1 & N1) & Hdis & HU & HoL).
  cbn in *. destruct (Hop h b0 b1 S0 S1 T0 F0 T1 F1 e0 e1 Hdis N0 N1) as (h' & T & F & E & Hfr & HD).
  exists h'. split; [done|]. pose proof (Hkeep _ _ _ _ E) as Hk.
  destruct (grown_kept _ _ Hk) as [G1 G2].
  assert (dom h' = dom h) as Hdom.
  { apply set_eq. intros q. rewrite !elem_of_dom. specialize (Hk q). destruct Hk; [|done]. split; eauto. }
  split; [auto|]. split; [unfold total in *; cbn [zsum it_size] in *; lia|].
  exists (S0 ∪ S1). rewrite Hdom. split; [done|]. split.
  - exists (mk e0 e1), T, F. split; [cbn; auto|done].
  - eapply owns_frame; [exact HoL|done|]. intros q Hq. apply Hfr. set_solver.
Qed.

Lemma heap_inv_and h b0 b1 f0 f1 n0 n1 L :
  heap_inv h (mk_item b0 f0 n0 :: mk_item b1 f1 n1 :: L) ->
  exists h', gen_and h b0 b1 = Some h' /\ heap_inv h' (mk_item b1 (p_and f0 f1) (n0 + n1) :: L).
Proof.
  apply (heap_inv_combine gen_and BAnd p_and); [apply decides_and|apply keeps_payload_gen_and|].
  clear. intros h b0 b1 S0 S1 T0 F0 T1 F1 e0 e1 Hdis D0 D1.
  destruct (gen_and_ok [] 0 0 h b0 b1 S0 S1 T0 F0 T1 F1 _ _ (D0 [] 0 0) (D1 [] 0 0) Hdis) as (h' & E & _ & Hfr).
  exists h', T1, (F1 ++ F0). split; [done|]. split; [done|]. intros p w n.
  destruct (gen_and_ok p w n h b0 b1 S0 S1 T0 F0 T1 F1 _ _ (D0 p w n) (D1 p w n) Hdis) as (h2 & E2 & HD & _).
  rewrite E in E2. injection E2 as <-. exact HD.
Qed.

Lemma heap_inv_or h b0 b1 f0 f1 n0 n1 L :
  heap_inv h (mk_item b0 f0 n0 :: mk_item b1 f1 n1 :: L) ->
  exists h', gen_or h b0 b1 = Some h' /\ heap_inv h' (mk_item b1 (p_or f0 f1) (n0 + n1) :: L).
Proof.
  apply (heap_inv_combine gen_or BOr p_or); [apply decides_or|apply keeps_payload_gen_or|].
  clear. intros h b0 b1 S0 S1 T0 F0 T1 F1 e0 e1 Hdis D0 D1.
  destruct (gen_or_ok [] 0 0 h b0 b1 S0 S1 T0 F0 T1 F1 _ _ (D0 [] 0 0) (D1 [] 0 0) Hdis) as (h' & E & _ & Hfr).
  exists h', (T1 ++ T0), F1. split; [done|]. split; [done|]. intros p w n.
  destruct (gen_or_ok p w n h b0 b1 S0 S1 T0 F0 T1 F1 _ _ (D0 p w n) (D1 p w n) Hdis) as (h2 & E2 & HD & _).
  rewrite E in E2. injection E2 as <-. exact HD.
Qed.

Lemma heap_inv_not h b f n L :
  heap_inv h (mk_item b f n :: L) -> heap_inv (gen_not h b) (mk_item b (p_not f) n :: L).
Proof.
  intros (Hf & Hs & S & HS & (e & T & F & Hd & HD) & Ho). cbn in *.
  destruct (grown_kept _ _ (keeps_payload_flip b h)) as [G1 G2].
  assert (dom (gen_not h b) = dom h) as Hdom by (unfold gen_not, flip_sense; apply dom_alter_L).
  split; [auto|]. split; [unfold gen_not; unfold total in *; cbn [zsum it_size] in *; lia|].
  exists S. rewrite Hdom. split; [done|]. split.
  - exists (BNot e), F, T. split; [now apply decides_not|]. intros p w buflen. now apply denotes_flip.
  - eapply owns_frame; [exact Ho|done|]. intros q Hq. unfold gen_not. apply flip_lookup_ne.
    intros ->. destruct (HD [] 0 0) as (hd & Hex & _). pose proof (ex_in _ _ _ _ _ _ Hex). set_solver.
Qed.

Lemma heap_inv_weaken h b f n g m L :
  fpred_eq f g -> n <= m -> heap_inv h (mk_item b f n :: L) -> heap_inv h (mk_item b g m :: L).
Proof.
  intros Hfg Hnm (Hf & Hs & S & HS & (e & T & F & Hd & HD) & Ho). cbn in *.
  split; [done|]. split; [unfold total in *; cbn [zsum it_size] in *; lia|].
  exists S. split; [done|]. split; [|done]. exists e, T, F. split; [cbn; eapply decides_ext; eauto|done].
Qed.

Lemma heap_inv_empty : heap_inv ∅ [].
Proof. split; [apply map_Forall_empty|]. split; [done|exact I]. Qed.
