(* ===== verification/GenTriple.v ===== *)
(** * Hoare triples for the code generator

    [triple E L m E' Q]: started with the variables [E] and the live expressions [L] (and
    any others), [m] returns normally, with the variables [E'] and live expressions as [Q]
    tells. [emits] is the same for the functions that only make statements. The tactics at
    the end run a generator function symbolically. *)
From stdpp Require Import base numbers list gmap.
From Stdlib Require Import Strings.Byte.
From S2P Require Import Prelude BpfInsn BpfFilter BpfFilterProofs Icode Gencode GencodeFilter Layout LayoutProofs LayoutConvert LayoutLoop Compile LinkType GenConst GenState GenLogic.
Open Scope Z_scope.

(** ** Triples *)

Definition triple {A} (E : genv) (L : list item) (m : G A) (E' : genv) (Q : A -> list item -> Prop) : Prop :=
  forall R s, gs_env s = E -> heap_inv (gs_heap s) (L ++ R) ->
    exists a s' L', m s = GOk a s' /\ gs_env s' = E' /\ Q a L' /\ heap_inv (gs_heap s') (L' ++ R).

(** The function makes one expression, which decides [f] in [n] slots. *)
Definition is_item (f : fpred) (n : Z) (b : nat) (L : list item) : Prop := L = [mk_item b f n].
Definition builds (E : genv) (m : G nat) (f : fpred) (n : Z) : Prop := triple E [] m E (is_item f n).

Lemma triple_ret {A} E L (a : A) (Q : A -> list item -> Prop) : Q a L -> triple E L (mret a) E Q.
Proof. intros HQ R s Hs Hi. exists a, s, L. auto. Qed.

Lemma triple_bind {A B} E L (m : G A) E1 Q1 (k : A -> G B) E2 Q2 :
  triple E L m E1 Q1 -> (forall a L1, Q1 a L1 -> triple E1 L1 (k a) E2 Q2) ->
  triple E L (m ≫= k) E2 Q2.
Proof.
  intros Hm Hk R s Hs Hi. destruct (Hm R s Hs Hi) as (a & s1 & L1 & E1' & Hs1 & HQ & Hi1).
  destruct (Hk a L1 HQ R s1 Hs1 Hi1) as (b & s2 & L2 & E2' & ?). exists b, s2, L2.
  split; [|done]. cbv [mbind G_bind]. now rewrite E1'.
Qed.

Lemma triple_frame {A} E L (m : G A) E' Q M :
  triple E L m E' Q -> triple E (L ++ M) m E' (fun a L' => exists L0, L' = L0 ++ M /\ Q a L0).
Proof.
  intros Hm R s Hs Hi. rewrite <- app_assoc in Hi.
  destruct (Hm (M ++ R) s Hs Hi) as (a & s1 & L1 & E1' & Hs1 & HQ & Hi1).
  exists a, s1, (L1 ++ M). rewrite <- app_assoc. eauto 10.
Qed.

Lemma triple_weaken {A} E L (m : G A) E' (Q Q' : A -> list item -> Prop) :
  triple E L m E' Q -> (forall a L1, Q a L1 -> Q' a L1) -> triple E L m E' Q'.
Proof.
  intros Hm HQ R s Hs Hi. destruct (Hm R s Hs Hi) as (a & s1 & L1 & ? & ? & ? & ?). exists a, s1, L1. auto.
Qed.

(** A function that makes an expression, next to the live ones. *)
Lemma triple_builds E L (m : G nat) f n :
  builds E m f n -> triple E L m E (fun b L' => L' = mk_item b f n :: L).
Proof.
  intros Hm. eapply triple_weaken; [exact (triple_frame E [] m E _ L Hm)|].
  now intros b L1 (L0 & -> & ->).
Qed.

Lemma builds_bind {B} E L (m : G nat) f n (k : nat -> G B) E2 Q2 :
  builds E m f n -> (forall b, triple E (mk_item b f n :: L) (k b) E2 Q2) ->
  triple E L (m ≫= k) E2 Q2.
Proof.
  intros Hm Hk. eapply triple_bind; [exact (triple_builds E L m f n Hm)|]. intros b L1 ->. apply Hk.
Qed.

Lemma builds_ext E m f g n k : builds E m f n -> fpred_eq f g -> n <= k -> builds E m g k.
Proof.
  intros Hm Hfg Hn R s Hs Hi. destruct (Hm R s Hs Hi) as (b & s1 & L1 & E1 & Hs1 & -> & Hi1).
  exists b, s1, [mk_item b g k]. split; [done|]. split; [done|]. split; [done|].
  eapply heap_inv_weaken; eauto.
Qed.

(** An expression may be taken for a larger one that decides the same. *)
Lemma triple_item {B} E L b f g n k (m : G B) E' Q :
  fpred_eq f g -> n <= k -> triple E (mk_item b g k :: L) m E' Q -> triple E (mk_item b f n :: L) m E' Q.
Proof. intros Hfg Hn Hm R s Hs Hi. eapply Hm; [exact Hs|]. eapply heap_inv_weaken; eauto. Qed.

(** The end of a generator function. *)
Lemma builds_ret E b f n g k : fpred_eq f g -> n <= k -> triple E [mk_item b f n] (mret b) E (is_item g k).
Proof.
  intros Hfg Hn R s Hs Hi. exists b, s, [mk_item b g k]. split; [done|]. split; [done|]. split; [done|].
  eapply heap_inv_weaken; eauto.
Qed.

Lemma triple_getv {A B} E L (v : genv -> A) (k : A -> G B) E' Q :
  triple E L (k (v E)) E' Q -> triple E L (getv v ≫= k) E' Q.
Proof. intros Hk R s Hs Hi. destruct (Hk R s Hs Hi) as (b & s1 & L1 & H1). exists b, s1, L1. cbv [mbind G_bind getv]. now rewrite Hs. Qed.

Lemma triple_setv {B} E L (f : genv -> genv) (k : unit -> G B) E' Q :
  triple (f E) L (k tt) E' Q -> triple E L (setv f ≫= k) E' Q.
Proof.
  intros Hk R s Hs Hi. destruct (Hk R (mk_gstate (f (gs_env s)) (gs_heap s) (gs_addr s))) as (b & s1 & L1 & H1).
  - cbn. now rewrite Hs.
  - exact Hi.
  - exists b, s1, L1. exact H1.
Qed.

Lemma triple_ret_bind {A B} E L (a : A) (k : A -> G B) E' Q :
  triple E L (k a) E' Q -> triple E L (mret a ≫= k) E' Q.
Proof. done. Qed.

Lemma triple_deref {A B} E L (a : A) (k : A -> G B) E' Q :
  triple E L (k a) E' Q -> triple E L (deref (Some a) ≫= k) E' Q.
Proof. done. Qed.

Lemma triple_bind_assoc {A B C} E L (m : G A) (f : A -> G B) (k : B -> G C) E' Q :
  triple E L (m ≫= (fun a => f a ≫= k)) E' Q -> triple E L ((m ≫= f) ≫= k) E' Q.
Proof.
  intros H R s Hs Hi. destruct (H R s Hs Hi) as (c & s1 & L1 & E1 & H1). exists c, s1, L1. split; [|done].
  rewrite <- E1. cbv [mbind G_bind]. now destruct (m s).
Qed.

(** The combinators, on expressions anywhere in the list. *)
Lemma triple_on_heap {B} E L (op : heap -> option heap) L' (k : unit -> G B) E' Q :
  (forall h R, heap_inv h (L ++ R) -> exists h', op h = Some h' /\ heap_inv h' (L' ++ R)) ->
  triple E L' (k tt) E' Q -> triple E L (on_heap op ≫= k) E' Q.
Proof.
  intros Hop Hk R s Hs Hi. destruct (Hop (gs_heap s) R Hi) as (h' & Eh & Hi').
  destruct (Hk R (mk_gstate (gs_env s) h' (gs_addr s)) Hs Hi') as (b & s1 & L1 & E1 & H1).
  exists b, s1, L1. split; [|done]. cbv [mbind G_bind on_heap]. now rewrite Eh.
Qed.

Lemma triple_and {B} E L L0 b0 f0 n0 b1 f1 n1 L1 (k : unit -> G B) E' Q :
  L ≡ₚ mk_item b0 f0 n0 :: L0 -> L0 ≡ₚ mk_item b1 f1 n1 :: L1 ->
  triple E (mk_item b1 (p_and f0 f1) (n0 + n1) :: L1) (k tt) E' Q ->
  triple E L (g_and b0 b1 ≫= k) E' Q.
Proof.
  intros HP0 HP1. apply triple_on_heap. intros h R Hi. apply heap_inv_and.
  eapply heap_inv_perm; [|exact Hi]. rewrite HP0, HP1. reflexivity.
Qed.

Lemma triple_or {B} E L L0 b0 f0 n0 b1 f1 n1 L1 (k : unit -> G B) E' Q :
  L ≡ₚ mk_item b0 f0 n0 :: L0 -> L0 ≡ₚ mk_item b1 f1 n1 :: L1 ->
  triple E (mk_item b1 (p_or f0 f1) (n0 + n1) :: L1) (k tt) E' Q ->
  triple E L (g_or b0 b1 ≫= k) E' Q.
Proof.
  intros HP0 HP1. apply triple_on_heap. intros h R Hi. apply heap_inv_or.
  eapply heap_inv_perm; [|exact Hi]. rewrite HP0, HP1. reflexivity.
Qed.

Lemma triple_not {B} E L b f n L1 (k : unit -> G B) E' Q :
  L ≡ₚ mk_item b f n :: L1 -> triple E (mk_item b (p_not f) n :: L1) (k tt) E' Q ->
  triple E L (g_not b ≫= k) E' Q.
Proof.
  intros HP. apply triple_on_heap. intros h R Hi. eexists. split; [reflexivity|].
  apply heap_inv_not. eapply heap_inv_perm; [|exact Hi]. now rewrite HP.
Qed.

(** ** Statements *)

(** What a list of statements leaves in the accumulator. *)
Definition fvalue := list byte -> Z -> option Z.

Definition computes (ss : slist) (f : fvalue) : Prop :=
  linear ss = true /\
  forall p w r, packet_ok p w -> wf_regs r ->
    match f p w with
    | Some v => exists r', exec_stmts p w (Z.of_nat (length p)) ss r = inl r' /\ rA r' = v /\ wf_regs r'
    | None => exec_stmts p w (Z.of_nat (length p)) ss r = inr (Return 0)
    end.

Definition emits (E : genv) (m : G slist) (f : fvalue) (n : Z) : Prop :=
  forall s, gs_env s = E -> exists ss s', m s = GOk ss s' /\ gs_env s' = E /\ gs_heap s' = gs_heap s /\
    computes ss f /\ slength ss <= n.

Lemma emits_bind {B} E L (m : G slist) f n (k : slist -> G B) E' Q :
  emits E m f n -> (forall ss, computes ss f -> slength ss <= n -> triple E L (k ss) E' Q) ->
  triple E L (m ≫= k) E' Q.
Proof.
  intros Hm Hk R s Hs Hi. destruct (Hm s Hs) as (ss & s1 & E1 & Hs1 & Hh & Hc & Hn).
  rewrite <- Hh in Hi. destruct (Hk ss Hc Hn R s1 Hs1 Hi) as (b & s2 & L2 & E2 & H2).
  exists b, s2, L2. split; [|done]. cbv [mbind G_bind]. now rewrite E1.
Qed.

Lemma new_stmt_bind {B} E L c kk (k : slist -> G B) E' Q :
  (forall a, triple E L (k [mk_snode a (mk_stmt c None None (s32 kk))]) E' Q) ->
  triple E L (new_stmt c kk ≫= k) E' Q.
Proof.
  intros Hk R s Hs Hi.
  exact (Hk (gs_addr s) R (mk_gstate (gs_env s) (gs_heap s) (S (gs_addr s))) Hs Hi).
Qed.

Definition p_test (op : jmp_op) (f : fvalue) (v : Z) : fpred := fun p w =>
  (fun a => jmp_test op a v) <$> f p w.

Lemma decides_test ss op f v :
  computes ss f -> decides (BTest ss (jmp_bits op) (s32 v)) (p_test op f (u32 v)).
Proof.
  intros [Hl Hc]. split; [cbn [wf_bexp]; rewrite Hl; now destruct op|].
  intros p w r Hp Hr. cbn [eval_bexp]. specialize (Hc p w r Hp Hr). unfold p_test.
  destruct (f p w) as [a|]; cbn [fmap option_fmap option_map agrees].
  - destruct Hc as (r' & -> & <- & Hr'). exists r'. split; [|done].
    assert (decode_op (u16 (s_code (mk_stmt (JMP (jmp_bits op)) None None (s32 v)))) = Some (JCOND op SrcK)) as Ed
      by now destruct op.
    unfold exec_branch. rewrite Ed. cbn. now rewrite u32_s32.
  - now rewrite Hc.
Qed.

(** [new_block(JMP(...))] with its statements. *)
Lemma test_bind {B} E L jt ss f v n (k : nat -> G B) E' Q :
  decides (BTest ss jt (s32 v)) f -> slength ss <= n ->
  (forall b, triple E (mk_item b f (n + 3) :: L) (k b) E' Q) ->
  triple E L (new_test jt ss v ≫= k) E' Q.
Proof.
  intros Hd Hn Hk. eapply triple_bind; [|intros b L1; exact (fun H => eq_ind_r (fun L => triple E L _ E' Q) (Hk b) H)].
  intros R s Hs Hi. unfold new_test.
  destruct (gen_cond ss jt (s32 v) (gs_heap s)) as [b h] eqn:Eg.
  exists b, (mk_gstate (gs_env s) h (gs_addr s)), (mk_item b f (n + 3) :: L).
  split; [done|]. split; [done|]. split; [done|].
  eapply heap_inv_weaken; [reflexivity| |eapply heap_inv_new; [exact Eg|exact Hd|exact Hi]]. lia.
Qed.

Lemma new_test_bind {B} E L op ss f v n (k : nat -> G B) E' Q :
  computes ss f -> slength ss <= n ->
  (forall b, triple E (mk_item b (p_test op f (u32 v)) (n + 3) :: L) (k b) E' Q) ->
  triple E L (new_test (jmp_bits op) ss v ≫= k) E' Q.
Proof. intros Hc. apply test_bind. now apply decides_test. Qed.

Lemma triple_bind_ret {A} E L (m : G A) E' Q : triple E L (m ≫= mret) E' Q -> triple E L m E' Q.
Proof.
  intros H R s Hs Hi. destruct (H R s Hs Hi) as (a & s1 & L1 & E1 & H1). exists a, s1, L1. split; [|done].
  rewrite <- E1. cbv [mbind G_bind mret G_ret]. now destruct (m s).
Qed.

(** ** Running a function *)

Lemma bring_skip (i x : item) L L' : L ≡ₚ i :: L' -> x :: L ≡ₚ i :: x :: L'.
Proof. intros ->. apply perm_swap. Qed.

Ltac bring :=
  lazymatch goal with
  | |- ?L ≡ₚ mk_item ?b _ _ :: _ =>
      lazymatch L with
      | mk_item b _ _ :: _ => apply Permutation_refl
      | _ :: _ => eapply bring_skip; bring
      end
  end.

(** One step of a function; [lem] proves the [builds] goal of a call. *)
Ltac gstep lem :=
  lazymatch goal with
  | |- builds _ _ _ _ => unfold builds
  | |- triple _ _ (getv _ ≫= _) _ _ => apply triple_getv; cbn beta iota
  | |- triple _ _ (setv _ ≫= _) _ _ => apply triple_setv; cbn beta iota
  | |- triple _ _ (mret _ ≫= _) _ _ => apply triple_ret_bind; cbn beta iota
  | |- triple _ _ ((_ ≫= _) ≫= _) _ _ => apply triple_bind_assoc; cbn beta iota
  | |- triple _ _ (g_and _ _ ≫= _) _ _ => eapply triple_and; [bring|bring|]; cbn beta iota
  | |- triple _ _ (g_or _ _ ≫= _) _ _ => eapply triple_or; [bring|bring|]; cbn beta iota
  | |- triple _ _ (g_not _ ≫= _) _ _ => eapply triple_not; [bring|]; cbn beta iota
  | |- triple _ [_] (mret _) _ (is_item _ _) => eapply builds_ret
  | |- triple _ _ (_ ≫= _) _ _ => eapply builds_bind; [lem|]; intros ?
  | |- triple _ [] _ _ (is_item _ _) => eapply builds_ext; [lem| |]
  end.
