(* ===== verification/GenLoadProofs.v ===== *)
(** * Loads and comparisons read the fields they name

    For link-layer types with headers of a fixed length: [gen_load_a] emits statements that
    load the field at its position, [gen_ncmp] and the comparisons built on it decide the
    comparison of that field, [gen_bcmp] decides equality with a string of bytes, and
    [gen_true] and [gen_false] decide a constant. *)
From stdpp Require Import base numbers list gmap.
From Stdlib Require Import Strings.Byte.
From S2P Require Import Prelude BpfInsn BpfFilter BpfFilterProofs Icode Gencode GencodeFilter Layout LayoutProofs LayoutConvert LayoutLoop Compile LinkType GenConst GenState GenLoad GenLogic GenTriple.
Open Scope Z_scope.

(** The link-layer header and what precedes it have a fixed length. *)
Class FixedLink (E : genv) : Prop := {
  fixed_macpl : off_macpl_is_variable (g_link E) = false;
  fixed_prefix : one_of (linktype E) [DLT_PRISM_HEADER; DLT_IEEE802_11_RADIO_AVS; DLT_IEEE802_11_RADIO; DLT_PPI] = false
}.

(** ** Fields *)

Definition net_pos (E : genv) : Z := u32 (off_macpl (g_link E) + off_nl (g_link E)).

(** Where [gen_load_a] loads from, for [OR_TRAN_IPV4] without the length of the IPv4 header. *)
Definition load_pos (E : genv) (o : e_offrel) (offset : Z) : Z :=
  let l := g_link E in
  match o with
  | OR_PACKET => u32 offset
  | OR_LINK => u32 (offset + off_ll l)
  | OR_MACPL => u32 (off_macpl l + offset)
  | OR_NET => u32 (off_macpl l + off_nl l + offset)
  | OR_NET_NOSNAP => u32 (off_macpl l + off_nl_nosnap l + offset)
  | OR_TRAN_IPV4 => u32 (off_macpl l + off_nl l + offset)
  | OR_TRAN_IPV6 => u32 (off_macpl l + off_nl l + 40 + offset)
  end.

(** The length in bytes of the IPv4 header whose first byte is [b]. *)
Definition ip_hl (b : Z) : Z := Z.shiftl (b &&& 0xf) 2.

Definition field (E : genv) (o : e_offrel) (sz : bpf_size) (offset : Z) : fvalue := fun p w =>
  match o with
  | OR_TRAN_IPV4 =>
      b ← extract SzB p (net_pos E); extract sz p (load_pos E o offset + ip_hl b)
  | _ => extract sz p (load_pos E o offset)
  end.

(** Positions that cannot be mistaken for negative ones. *)
Definition reach (z : Z) : Prop := 0 <= z < 2 ^ 30.
Definition in_reach (E : genv) (o : e_offrel) (offset : Z) : Prop :=
  reach (load_pos E o offset) /\ (o = OR_TRAN_IPV4 -> reach (net_pos E)).

(** ** Single statements *)

Lemma short_packet_extract sz (p : list byte) k :
  0 <= k < 2 ^ 31 - 4 -> Z.of_nat (length p) < 2 ^ 31 ->
  short_packet sz k (Z.of_nat (length p)) = negb (bool_decide (is_Some (extract sz p k))).
Proof.
  intros Hk Hp. unfold extract, bytes_at.
  assert (u64 k = k /\ u32 k = k /\ u64 (k + 4) = k + 4 /\ u64 (k + 2) = k + 2) as (E1 & E2 & E3 & E4)
    by (repeat split; apply Z.mod_small; lia).
  destruct sz; cbn [size_bytes short_packet]; rewrite ?E1, ?E2, ?E3, ?E4;
    (destruct (Z.leb_spec 0 k); [|lia]); cbn [andb];
    match goal with |- context [k + Z.of_nat ?n <=? ?m] => destruct (Z.leb_spec (k + Z.of_nat n) m) end; cbn [fmap option_fmap option_map];
    rewrite ?bool_decide_true, ?bool_decide_false by (eauto || (intros [? [=]])); cbn [negb]; lia.
Qed.

Lemma exec_load sz p kk r :
  0 <= kk < 2 ^ 31 - 4 -> Z.of_nat (length p) < 2 ^ 31 ->
  load_packet sz p (Z.of_nat (length p)) kk r =
  match extract sz p kk with Some v => Next 0 (set_A v r) | None => Stop (Return 0) end.
Proof.
  intros Hk Hp. unfold load_packet. rewrite short_packet_extract by done.
  destruct (extract sz p kk) as [v|].
  - now rewrite bool_decide_true by eauto.
  - now rewrite bool_decide_false by (intros [? [=]]).
Qed.

Lemma exec_ld_abs_stmt p w sz a k r :
  reach (u32 k) -> Z.of_nat (length p) < 2 ^ 31 ->
  exec_stmts p w (Z.of_nat (length p)) [mk_snode a (mk_stmt (BPF_LD ||| BPF_ABS ||| size_bits sz) None None (s32 k))] r =
  match extract sz p (u32 k) with Some v => inl (set_A v r) | None => inr (Return 0) end.
Proof.
  intros Hk Hp. cbn [exec_stmts sn_s s_code].
  replace (_ =? NOP) with false by now destruct sz. unfold exec_insn, insn_of_stmt. cbn [s_code s_k i_code].
  replace (decode_op _) with (Some (LD_ABS sz)) by now destruct sz. cbn [exec_op]. unfold exec_ld_abs. cbn [i_k].
  rewrite u32_s32. replace (s32 (u32 k)) with (u32 k) by (unfold reach in Hk; cint).
  unfold reach in Hk. rewrite exec_load by lia. destruct (extract sz p (u32 k)); reflexivity.
Qed.

Lemma extract_byte_range p k v : extract SzB p k = Some v -> 0 <= v < 256.
Proof.
  unfold extract. destruct (bytes_at p k (size_bytes SzB)) as [bs|] eqn:E; [|done]. intros [= <-].
  apply bytes_at_length in E. destruct bs as [|b [|]]; try discriminate E. cbn. pose proof (b2z_range b). lia.
Qed.

Lemma ip_hl_range b : 0 <= ip_hl b <= 60.
Proof.
  unfold ip_hl. rewrite Z.shiftl_mul_pow2 by lia. change 0xf with (Z.ones 4). rewrite Z.land_ones by lia.
  pose proof (Z.mod_pos_bound b (2 ^ 4)). lia.
Qed.

Lemma exec_ldx_msh_stmt p w a k r :
  reach (u32 k) -> Z.of_nat (length p) < 2 ^ 31 ->
  exec_stmts p w (Z.of_nat (length p)) [mk_snode a (mk_stmt (BPF_LDX ||| BPF_MSH ||| BPF_B) None None (s32 k))] r =
  match extract SzB p (u32 k) with Some b => inl (set_X (ip_hl b) r) | None => inr (Return 0) end.
Proof.
  intros Hk Hp. cbn [exec_stmts sn_s s_code].
  replace (_ =? NOP) with false by reflexivity. unfold exec_insn, insn_of_stmt. cbn [s_code s_k i_code].
  replace (decode_op _) with (Some LDX_MSH) by reflexivity. cbn [exec_op]. unfold exec_ldx_msh. cbn [i_k].
  rewrite !u32_s32. unfold reach in Hk. rewrite (u32_id (u32 k)) by lia.
  pose proof (short_packet_extract SzB p (u32 k) ltac:(lia) Hp) as Hs. cbn [short_packet] in Hs.
  rewrite (u32_id (u32 k)) in Hs by lia. rewrite Hs.
  destruct (extract SzB p (u32 k)) as [v|].
  - now rewrite bool_decide_true by eauto.
  - now rewrite bool_decide_false by (intros [? [=]]).
Qed.

Lemma exec_ld_ind_stmt p w sz a k r :
  reach (u32 k) -> 0 <= rX r <= 60 -> Z.of_nat (length p) < 2 ^ 31 ->
  exec_stmts p w (Z.of_nat (length p)) [mk_snode a (mk_stmt (BPF_LD ||| BPF_IND ||| size_bits sz) None None (s32 k))] r =
  match extract sz p (u32 k + rX r) with Some v => inl (set_A v r) | None => inr (Return 0) end.
Proof.
  intros Hk HX Hp. cbn [exec_stmts sn_s s_code].
  replace (_ =? NOP) with false by now destruct sz. unfold exec_insn, insn_of_stmt. cbn [s_code s_k i_code].
  replace (decode_op _) with (Some (LD_IND sz)) by now destruct sz. cbn [exec_op]. unfold exec_ld_ind. cbn [i_k].
  rewrite u32_s32. unfold reach in *. replace (s32 (rX r + u32 k)) with (u32 k + rX r) by (rewrite s32_id; lia).
  rewrite exec_load by lia. destruct (extract sz p _); reflexivity.
Qed.

(** ** [gen_load_a] *)

#[local] Hint Resolve wf_set_A wf_set_X : pcap.

Lemma computes_ld_abs sz a k pos :
  u32 k = pos -> reach pos ->
  computes [mk_snode a (mk_stmt (BPF_LD ||| BPF_ABS ||| size_bits sz) None None (s32 k))]
    (fun p w => extract sz p pos).
Proof.
  intros <- Hk. split; [now destruct sz|]. intros p w r [Hp _] Hr.
  rewrite exec_ld_abs_stmt by done. destruct (extract sz p (u32 k)) as [v|] eqn:E; [|done].
  exists (set_A v r). split; [done|]. split; [done|]. eapply wf_set_A; [done|]. exact (extract_range _ _ _ _ E).
Qed.

Lemma computes_ld_ind_msh sz a1 k1 pos1 a2 k2 pos2 :
  u32 k1 = pos1 -> u32 k2 = pos2 -> reach pos1 -> reach pos2 ->
  computes [mk_snode a1 (mk_stmt (BPF_LDX ||| BPF_MSH ||| BPF_B) None None (s32 k1));
            mk_snode a2 (mk_stmt (BPF_LD ||| BPF_IND ||| size_bits sz) None None (s32 k2))]
    (fun p w => b ← extract SzB p pos1; extract sz p (pos2 + ip_hl b)).
Proof.
  intros <- <- Hk1 Hk2. split; [now destruct sz|]. intros p w r [Hp _] Hr.
  change [?x; ?y] with ([x] ++ [y]). rewrite exec_stmts_app, exec_ldx_msh_stmt by done.
  destruct (extract SzB p (u32 k1)) as [b|]; cbn [mbind option_bind]; [|done].
  pose proof (ip_hl_range b) as Hb. rewrite exec_ld_ind_stmt by done. cbn [rX set_X].
  destruct (extract sz p (u32 k2 + ip_hl b)) as [v|] eqn:E; [|done].
  eexists. split; [reflexivity|]. split; [done|].
  eapply wf_set_A; [eapply wf_set_X; [done|lia]|]. exact (extract_range _ _ _ _ E).
Qed.

Section FixedLink.
Context (E : genv) `{!FixedLink E}.

Lemma run_llprefixlen s : gs_env s = E -> gen_llprefixlen s = GOk None s.
Proof.
  intros Hs. pose proof fixed_prefix as Hf. unfold gen_llprefixlen. cbv [mbind G_bind getv]. rewrite Hs.
  cbn [one_of existsb] in Hf. rewrite !orb_false_iff in Hf. destruct Hf as (-> & -> & -> & -> & _). reflexivity.
Qed.

Lemma run_off_macpl s : gs_env s = E -> gen_off_macpl s = GOk None s.
Proof.
  intros Hs. unfold gen_off_macpl. cbv [mbind G_bind getv]. rewrite Hs, fixed_macpl. reflexivity.
Qed.

Lemma emits_ld_abs sz k pos : u32 k = pos -> reach pos ->
  emits E (new_stmt (BPF_LD ||| BPF_ABS ||| size_bits sz) k) (fun p w => extract sz p pos) 1.
Proof.
  intros Hk Hr s Hs. eexists _, _. split; [reflexivity|]. split; [done|]. split; [done|].
  split; [now apply computes_ld_abs|now destruct sz].
Qed.

Lemma emits_macplrel sz offset pos :
  u32 (off_macpl (g_link E) + offset) = pos -> reach pos ->
  emits E (gen_load_macplrel offset (size_bits sz)) (fun p w => extract sz p pos) 1.
Proof.
  intros Hp Hr s Hs. unfold gen_load_macplrel. cbv [mbind G_bind getv]. rewrite (run_off_macpl s Hs), Hs.
  apply emits_ld_abs; [now rewrite u32_u32|done|done].
Qed.

Lemma emits_llrel sz offset pos :
  u32 (offset + off_ll (g_link E)) = pos -> reach pos ->
  emits E (gen_load_llrel offset (size_bits sz)) (fun p w => extract sz p pos) 1.
Proof.
  intros Hp Hr s Hs. unfold gen_load_llrel. cbv [mbind G_bind getv]. rewrite (run_llprefixlen s Hs), Hs.
  apply emits_ld_abs; [now rewrite u32_u32|done|done].
Qed.

Lemma emits_weaken m f n k : emits E m f n -> n <= k -> emits E m f k.
Proof.
  intros Hm Hk s Hs. destruct (Hm s Hs) as (ss & s' & ? & ? & ? & ? & ?).
  exists ss, s'. do 4 (split; [done|]). lia.
Qed.

(** The value at a field, loaded relative to any of the headers. *)
Lemma emits_load_a o sz offset :
  in_reach E o offset -> emits E (gen_load_a o offset (size_bits sz)) (field E o sz offset) 2.
Proof.
  intros [Hr Hn]. intros s Hs. unfold gen_load_a. cbv [mbind G_bind getv]. rewrite Hs. revert s Hs.
  destruct o; cbn [load_pos] in Hr; [refine (emits_weaken _ _ 1 2 _ ltac:(lia))..| |refine (emits_weaken _ _ 1 2 _ ltac:(lia))].
  - now apply emits_ld_abs.
  - now apply emits_llrel.
  - now apply emits_macplrel.
  - apply emits_macplrel; [|exact Hr]. now rewrite u32_add_r, Z.add_assoc.
  - apply emits_macplrel; [|exact Hr]. now rewrite u32_add_r, Z.add_assoc.
  - specialize (Hn eq_refl). intros s Hs. unfold gen_loadx_iphdrlen, field, net_pos. cbn [load_pos].
    cbv [mbind G_bind getv]. rewrite (run_off_macpl s Hs), Hs. unfold new_stmt. cbn [gs_env gs_addr gs_heap].
    eexists _, _. split; [reflexivity|]. split; [done|]. split; [done|].
    split; [apply computes_ld_ind_msh; [apply u32_u32|apply u32_u32|done|done]|destruct sz; vm_compute; intros [=]].
  - apply emits_macplrel; [|exact Hr]. rewrite u32_add_r. cbn [load_pos]. f_equal. lia.
Qed.

(** ** [gen_ncmp] *)

Definition p_ncmp (o : e_offrel) (sz : bpf_size) (offset mask : Z) (op : jmp_op) (reverse : bool) (v : Z) : fpred :=
  fun p w => (fun a => xorb reverse (jmp_test op (a &&& mask) (u32 v))) <$> field E o sz offset p w.

Lemma gen_field_range o sz offset p w v : field E o sz offset p w = Some v -> 0 <= v < 2 ^ 32.
Proof.
  unfold field. destruct o; try apply extract_range.
  destruct (extract SzB p _); cbn; [apply extract_range|done].
Qed.

Lemma computes_and ss f mask a :
  computes ss f -> (forall p w v, f p w = Some v -> 0 <= v < 2 ^ 32) ->
  computes (sappend ss [mk_snode a (mk_stmt (BPF_ALU ||| BPF_AND ||| BPF_K) None None (s32 mask))])
    (fun p w => (fun v => v &&& u32 mask) <$> f p w).
Proof.
  intros [Hl Hc] Hf. split.
  - unfold sappend, linear in *. rewrite forallb_app, Hl. reflexivity.
  - intros p w r Hp Hr. specialize (Hc p w r Hp Hr). unfold sappend. rewrite exec_stmts_app.
    destruct (f p w) as [v|] eqn:Ev; cbn [fmap option_fmap option_map]; [|now rewrite Hc].
    destruct Hc as (r' & -> & Hv & Hr'). exists (set_A (v &&& u32 mask) r').
    split; [|split; [done|]].
    + cbn [exec_stmts sn_s s_code]. replace (_ =? NOP) with false by reflexivity.
      unfold exec_insn, insn_of_stmt. cbn [s_code s_k i_code].
      replace (decode_op _) with (Some (ALU AND SrcK)) by reflexivity. cbn [exec_op]. unfold exec_alu. cbn.
      now rewrite u32_s32, Hv.
    + apply wf_set_A; [done|]. apply land_range; [now apply (Hf p w)|apply u32_range].
Qed.

Lemma land_all v : 0 <= v < 2 ^ 32 -> v &&& 0xffffffff = v.
Proof. intros Hv. change 0xffffffff with (Z.ones 32). rewrite Z.land_ones by lia. now apply Z.mod_small. Qed.

Lemma ncmp_builds o sz offset mask op reverse v :
  in_reach E o offset -> 0 <= mask < 2 ^ 32 ->
  (reverse = true -> op = JGT \/ op = JGE) ->
  builds E (gen_ncmp o offset (size_bits sz) mask (jmp_bits op) reverse v)
    (p_ncmp o sz offset mask op reverse v) 6.
Proof.
  intros Hr Hm Hrev. unfold gen_ncmp. eapply emits_bind; [now apply emits_load_a|]. intros ss Hc Hn.
  assert (forall ss f n (Hc : computes ss f) (Hn : slength ss <= n),
    triple E [] (b ← new_test (jmp_bits op) ss v;
      _ ← (if reverse && ((jmp_bits op =? BPF_JGT) || (jmp_bits op =? BPF_JGE)) then g_not b else mret tt);
      mret b) E (is_item (fun p w => (fun a => xorb reverse (jmp_test op a (u32 v))) <$> f p w) (n + 3))) as Htest.
  { clear -Hrev. intros ss f n Hc Hn. eapply new_test_bind; [exact Hc|exact Hn|]. intros b.
    destruct reverse; cbn [andb].
    - replace (_ || _) with true by (destruct Hrev as [-> | ->]; done).
      gstep fail. gstep fail; [|lia]. intros p w Hp. unfold p_not, p_test. now destruct (f p w).
    - gstep fail. gstep fail; [|lia]. intros p w Hp. unfold p_test. now destruct (f p w). }
  destruct (Z.eqb_spec mask 0xffffffff) as [->|Hne]; cbn [negb].
  - apply triple_ret_bind. eapply builds_ext; [exact (Htest ss _ 2 Hc Hn)| |lia].
    intros p w Hp. unfold p_ncmp. destruct (field E o sz offset p w) as [a|] eqn:Ea; [|done].
    cbn. now rewrite land_all by exact (gen_field_range _ _ _ _ _ _ Ea).
  - apply triple_bind_assoc, new_stmt_bind. intros a. apply triple_ret_bind. cbn beta.
    eapply builds_ext; [apply (Htest _ (fun p w => (fun v => v &&& u32 mask) <$> field E o sz offset p w) 3)| |lia].
    + apply (computes_and _ _ mask a Hc). intros p w x. apply gen_field_range.
    + unfold sappend, slength in *. rewrite List.filter_app, length_app.
      replace (List.filter live_node [_]) with [mk_snode a (mk_stmt (BPF_ALU ||| BPF_AND ||| BPF_K) None None (s32 mask))] by reflexivity. cbn. lia.
    + intros p w Hp. unfold p_ncmp. rewrite (u32_id mask) by lia. now destruct (field E o sz offset p w).
Qed.
End FixedLink.

(** ** [gen_bcmp]: a run of bytes *)

Lemma be_val_inj a b : length a = length b -> be_val a = be_val b -> a = b.
Proof.
  revert b; induction a as [|x a IH]; intros [|y b] Hl E; try discriminate Hl; [done|].
  injection Hl as Hl. unfold be_val in E. cbn [fold_left] in E. rewrite !be_val_app_acc, Hl in E.
  pose proof (be_val_range a) as Ha. pose proof (be_val_range b) as Hb. rewrite Hl in Ha.
  pose proof (b2z_range x). pose proof (b2z_range y).
  destruct (Z.div_mod_unique (256 ^ Z.of_nat (length b)) (b2z x) (b2z y) (be_val a) (be_val b)) as [Ex Ev]; [lia..|].
  f_equal; [|now apply IH]. now rewrite <- (z2b_b2z x), Ex, z2b_b2z.
Qed.

Lemma bytes_at_Some (p : list byte) k n :
  bytes_at p k n = if (0 <=? k) && (k + Z.of_nat n <=? Z.of_nat (length p))
                   then Some (take n (drop (Z.to_nat k) p)) else None.
Proof. reflexivity. Qed.

Lemma extract_in sz (p : list byte) k :
  0 <= k -> k + Z.of_nat (size_bytes sz) <= Z.of_nat (length p) -> exists x, extract sz p k = Some x.
Proof.
  intros Hk Hl. unfold extract. rewrite bytes_at_Some. destruct (Z.leb_spec 0 k); [|lia].
  destruct (Z.leb_spec (k + Z.of_nat (size_bytes sz)) (Z.of_nat (length p))); [|lia]. cbn. eauto.
Qed.

(** A run of bytes read in two pieces, the second one first. *)
Lemma bytes_at_split (p : list byte) k n m :
  0 <= k ->
  bytes_at p k (n + m) =
  (bs ← bytes_at p (k + Z.of_nat n) m; fs ← bytes_at p k n; Some (fs ++ bs)).
Proof.
  intros Hk. rewrite !bytes_at_Some. destruct (Z.leb_spec 0 k); [|lia].
  destruct (Z.leb_spec 0 (k + Z.of_nat n)); [|lia]. cbn [andb].
  destruct (Z.leb_spec (k + Z.of_nat (n + m)) (Z.of_nat (length p)));
    destruct (Z.leb_spec (k + Z.of_nat n + Z.of_nat m) (Z.of_nat (length p))); try lia; [|done].
  destruct (Z.leb_spec (k + Z.of_nat n) (Z.of_nat (length p))); [|lia]. cbn [mbind option_bind].
  f_equal. replace (Z.to_nat (k + Z.of_nat n)) with (Z.to_nat k + n)%nat by lia.
  rewrite <- drop_drop. symmetry. apply take_take_drop.
Qed.

Section Bytes.
Context (E : genv) `{!FixedLink E} (o : e_offrel) (offset : Z) (v : list byte).
Context (Ho : o <> OR_TRAN_IPV4) (Hoff : 0 <= offset < 2 ^ 32) (Hlen : (0 < length v)%nat).
Context (Hpos : 0 <= load_pos E o offset) (Htop : load_pos E o offset + Z.of_nat (length v) < 2 ^ 30).
#[local] Abbreviation P := (load_pos E o offset).

(** The bytes of the packet from [k] on in the run are those of [v]. *)
Definition p_tail (k : nat) : fpred := fun p w =>
  (fun bs => bool_decide (bs = drop k v)) <$> bytes_at p (P + Z.of_nat k) (length v - k).

Lemma load_pos_shift k : 0 <= k <= Z.of_nat (length v) -> load_pos E o (u32 (offset + k)) = P + k.
Proof.
  intros Hk. rewrite <- (u32_id (P + k)) by lia.
  destruct o; try congruence; cbn [load_pos]; rewrite ?u32_u32, ?u32_add_r, ?u32_add_l;
    rewrite ?(Z.add_comm (u32 (offset + k))), ?u32_add_r; rewrite ?u32_add_l; f_equal; lia.
Qed.

Lemma p_tail_step sz k x :
  (size_bytes sz <= k <= length v)%nat -> extract sz v (Z.of_nat k - Z.of_nat (size_bytes sz)) = Some x ->
  fpred_eq (p_and (p_tail k) (p_ncmp E o sz (u32 (offset + Z.of_nat k - Z.of_nat (size_bytes sz))) 0xffffffff JEQ false x))
    (p_tail (k - size_bytes sz)).
Proof.
  intros Hk Ex p w _. unfold p_and, p_tail, p_ncmp. set (n := size_bytes sz) in *.
  assert (field E o sz (u32 (offset + Z.of_nat k - Z.of_nat n)) p w = extract sz p (P + Z.of_nat (k - n))) as ->.
  { unfold field. rewrite <- Z.add_sub_assoc, load_pos_shift by lia.
    replace (P + (Z.of_nat k - Z.of_nat n)) with (P + Z.of_nat (k - n)) by lia. destruct o; congruence. }
  replace (length v - (k - n))%nat with (n + (length v - k))%nat by lia.
  rewrite bytes_at_split by lia.
  replace (P + Z.of_nat (k - n) + Z.of_nat n) with (P + Z.of_nat k) by lia.
  destruct (bytes_at p (P + Z.of_nat k) (length v - k)) as [bs|] eqn:Eb; cbn [fmap option_fmap option_map mbind option_bind]; [|done].
  assert (exists fs, bytes_at p (P + Z.of_nat (k - n)) n = Some fs) as [fs Ef].
  { rewrite bytes_at_Some in Eb |- *. destruct (Z.leb_spec 0 (P + Z.of_nat k)); [|lia].
    destruct (Z.leb_spec (P + Z.of_nat k + Z.of_nat (length v - k)) (Z.of_nat (length p))); [|discriminate Eb].
    destruct (Z.leb_spec 0 (P + Z.of_nat (k - n))); [|lia].
    destruct (Z.leb_spec (P + Z.of_nat (k - n) + Z.of_nat n) (Z.of_nat (length p))); [|lia]. eauto. }
  assert (exists vs, bytes_at v (Z.of_nat k - Z.of_nat n) n = Some vs /\ x = be_val vs /\ drop (k - n) v = vs ++ drop k v)
    as (vs & Ev & -> & Hd).
  { unfold extract in Ex. fold n in Ex. destruct (bytes_at v _ n) as [vs|] eqn:Ev; [|discriminate Ex].
    exists vs. split; [done|]. split; [now injection Ex|]. rewrite bytes_at_Some in Ev.
    destruct (_ && _); [|discriminate Ev]. injection Ev as <-.
    replace (Z.to_nat (Z.of_nat k - Z.of_nat n)) with (k - n)%nat by lia.
    rewrite <- (take_drop n (drop (k - n) v)) at 1. rewrite drop_drop. do 2 f_equal. lia. }
  apply bytes_at_length in Ev.
  assert (0 <= be_val vs < 2 ^ 32) as Hvs.
  { pose proof (be_val_range vs) as Hr. rewrite Ev in Hr. unfold n in Hr. destruct sz; cbn in Hr; lia. }
  unfold extract. fold n. rewrite Ef, Hd. cbn [fmap option_fmap option_map mbind option_bind xorb jmp_test].
  apply bytes_at_length in Ef. rewrite (u32_id (be_val vs)) by done.
  assert (0 <= be_val fs < 2 ^ 32) as Hfs.
  { pose proof (be_val_range fs) as Hr. rewrite Ef in Hr. unfold n in Hr. destruct sz; cbn in Hr; lia. }
  rewrite land_all by done.
  destruct (decide (bs = drop k v)) as [->|Hne].
  - rewrite bool_decide_true by done. f_equal. destruct (Z.eqb_spec (be_val fs) (be_val vs)) as [E1|E1].
    + rewrite bool_decide_true; [done|]. f_equal. apply be_val_inj; [congruence|done].
    + rewrite bool_decide_false; [done|]. intros [-> _]%app_inj_1; [done|congruence].
  - rewrite bool_decide_false by done. rewrite bool_decide_false; [done|].
    intros [_ ?]%app_inj_1; [done|congruence].
Qed.

(** Before the first test nothing is known of the end of the run, and nothing is asked. *)
Lemma p_tail_first sz x :
  (size_bytes sz <= length v)%nat -> extract sz v (Z.of_nat (length v) - Z.of_nat (size_bytes sz)) = Some x ->
  fpred_eq (p_ncmp E o sz (u32 (offset + Z.of_nat (length v) - Z.of_nat (size_bytes sz))) 0xffffffff JEQ false x)
    (p_tail (length v - size_bytes sz)).
Proof.
  intros Hk Ex. etransitivity; [|apply p_tail_step; [lia|exact Ex]]. intros p w _.
  unfold p_and, p_tail, p_ncmp. rewrite Nat.sub_diag.
  assert (field E o sz (u32 (offset + Z.of_nat (length v) - Z.of_nat (size_bytes sz))) p w =
          extract sz p (P + Z.of_nat (length v) - Z.of_nat (size_bytes sz))) as ->.
  { unfold field. rewrite <- Z.add_sub_assoc, load_pos_shift by lia. rewrite Z.add_sub_assoc. destruct o; congruence. }
  unfold extract. rewrite !bytes_at_Some. destruct (Z.leb_spec 0 (P + Z.of_nat (length v))); [|lia].
  destruct (Z.leb_spec 0 (P + Z.of_nat (length v) - Z.of_nat (size_bytes sz))); [|lia]. cbn [andb].
  rewrite Z.add_0_r, Z.sub_add.
  destruct (Z.leb_spec (P + Z.of_nat (length v)) (Z.of_nat (length p))); [|done].
  cbn. now rewrite bool_decide_true by now rewrite drop_all.
Qed.

(** ** The loops *)

Definition tail_item (k : nat) (b : option nat) (L : list item) : Prop :=
  match b with
  | None => k = length v /\ L = []
  | Some b => (k < length v)%nat /\ L = [mk_item b (p_tail k) (6 * (Z.of_nat (length v) - Z.of_nat k))]
  end.

(** One test, and-ed to what there is. *)
Lemma tail_step {B} sz k b L x (m : option nat -> G B) Q :
  (size_bytes sz <= k <= length v)%nat -> extract sz v (Z.of_nat k - Z.of_nat (size_bytes sz)) = Some x ->
  tail_item k b L ->
  (forall b' L', tail_item (k - size_bytes sz) (Some b') L' -> triple E L' (m (Some b')) E Q) ->
  triple E L (tmp ← gen_cmp o (u32 (offset + Z.of_nat k - Z.of_nat (size_bytes sz))) (size_bits sz) x;
              b ← and_then b tmp; m b) E Q.
Proof.
  intros Hk Ex Hb Hm. assert (1 <= size_bytes sz)%nat as Hw by (destruct sz; cbn; lia).
  eapply builds_bind; [unfold gen_cmp; apply (ncmp_builds E o sz _ 0xffffffff JEQ false x); [|lia|done]|].
  { split; [|easy]. rewrite <- Z.add_sub_assoc, load_pos_shift by lia. unfold reach. lia. }
  intros b'. unfold and_then. apply triple_bind_assoc. destruct b as [b|]; cbn [tail_item] in Hb.
  - destruct Hb as [Hlt ->]. eapply triple_and; [bring|bring|]. apply triple_ret_bind.
    intros R s Hs Hi. eapply (Hm b' [mk_item b' (p_tail (k - size_bytes sz)) _]); [split; [lia|reflexivity]|exact Hs|].
    eapply heap_inv_weaken; [exact (p_tail_step sz k x Hk Ex)| |exact Hi]. lia.
  - destruct Hb as [-> ->]. do 2 apply triple_ret_bind.
    intros R s Hs Hi. eapply (Hm b' [mk_item b' (p_tail (length v - size_bytes sz)) _]); [split; [lia|reflexivity]|exact Hs|].
    eapply heap_inv_weaken; [exact (p_tail_first sz x ltac:(lia) Ex)| |exact Hi]. lia.
Qed.

Lemma bcmp_loop_spec sz fuel k b L :
  (k <= fuel)%nat -> (k <= length v)%nat -> tail_item k b L ->
  triple E L (bcmp_loop fuel sz (size_bits sz) o offset (Z.of_nat k) v b) E
    (fun r L' => exists k', r.2 = Z.of_nat k' /\ (k' < size_bytes sz)%nat /\ (k' <= k)%nat /\ tail_item k' r.1 L').
Proof.
  revert k b L; induction fuel as [|fuel IH]; intros k b L Hf Hk Hb; cbn [bcmp_loop];
    destruct (Z.leb_spec (Z.of_nat (size_bytes sz)) (Z.of_nat k)).
  - destruct sz; cbn in *; lia.
  - apply triple_ret. exists k. split; [done|]. split; [lia|]. split; [lia|done].
  - destruct (extract_in sz v (Z.of_nat k - Z.of_nat (size_bytes sz))) as [x Ex]; [lia..|]. rewrite Ex.
    apply triple_deref. eapply tail_step; [lia|exact Ex|exact Hb|]. intros b' L' Hb'.
    replace (Z.of_nat k - Z.of_nat (size_bytes sz)) with (Z.of_nat (k - size_bytes sz)) by lia.
    assert (1 <= size_bytes sz)%nat by (destruct sz; cbn; lia).
    eapply triple_weaken; [apply IH; [lia|lia|exact Hb']|].
    intros r L1 (k' & ? & ? & ? & ?). exists k'. repeat split; [done|done|lia|done].
  - apply triple_ret. exists k. split; [done|]. split; [lia|]. split; [lia|done].
Qed.

(** The bytes at the offset, compared with [v]. *)
Definition p_bytes : fpred := fun p w => (fun bs => bool_decide (bs = v)) <$> bytes_at p P (length v).

Lemma bcmp_builds :
  builds E (gen_bcmp_block o offset (Z.of_nat (length v)) v) p_bytes (6 * Z.of_nat (length v)).
Proof.
  unfold gen_bcmp_block, gen_bcmp, builds. apply triple_bind_assoc. rewrite Nat2Z.id.
  eapply triple_bind; [exact (bcmp_loop_spec SzW (length v) (length v) None [] ltac:(lia) ltac:(lia) (conj eq_refl eq_refl))|].
  intros [b1 n1] L1 (k1 & E1 & Hw1 & Hk1 & Hb1). cbn [fst snd] in *. subst n1. apply triple_bind_assoc.
  eapply triple_bind; [rewrite Nat2Z.id; exact (bcmp_loop_spec SzH k1 k1 b1 L1 ltac:(lia) ltac:(lia) Hb1)|].
  intros [b2 n2] L2 (k2 & E2 & Hw2 & Hk2 & Hb2). cbn [fst snd] in *. subst n2. cbn in Hw2.
  assert (forall b L, tail_item 0 b L -> triple E L (deref b) E (is_item p_bytes (6 * Z.of_nat (length v)))) as Hend.
  { intros [b|] L [Hl ->]; [|lia]. intros R s Hs Hi. exists b, s, [mk_item b p_bytes (6 * Z.of_nat (length v))].
    split; [done|]. split; [done|]. split; [done|]. eapply heap_inv_weaken; [| |exact Hi]; [|lia].
    intros p w _. unfold p_tail, p_bytes. now rewrite Z.add_0_r, Nat.sub_0_r, drop_0. }
  destruct (Z.ltb_spec 0 (Z.of_nat k2)) as [Hpos2|Hz].
  - assert (k2 = 1%nat) as -> by lia.
    destruct (extract_in SzB v 0) as [x Ex]; [lia|cbn; lia|]. rewrite Ex.
    apply triple_bind_assoc, triple_deref, triple_bind_assoc.
    replace offset with (u32 (offset + Z.of_nat 1 - Z.of_nat (size_bytes SzB))) by (cbn; rewrite u32_id; lia).
    apply (tail_step SzB 1 b2 L2 x); [cbn; lia|exact Ex|exact Hb2|]. intros b' L'. apply Hend.
  - apply triple_ret_bind, Hend. now replace k2 with 0%nat in Hb2 by lia.
Qed.
End Bytes.

(** ** Headers at small offsets

    Offsets far from wrapping: the position of a field is the plain sum. *)
Class PlainLink (E : genv) : Prop := {
  plain_fixed :: FixedLink E;
  plain_ll : 0 <= off_ll (g_link E) < 2 ^ 20;
  plain_macpl : 0 <= off_macpl (g_link E) < 2 ^ 20;
  plain_nl : 0 <= off_nl (g_link E) < 2 ^ 20
}.

Definition pos_link (E : genv) (offset : Z) : Z := off_ll (g_link E) + offset.
Definition pos_macpl (E : genv) (offset : Z) : Z := off_macpl (g_link E) + offset.
Definition pos_net (E : genv) (offset : Z) : Z := off_macpl (g_link E) + off_nl (g_link E) + offset.

Definition hdr_pos (E : genv) (o : e_offrel) (offset : Z) : Z :=
  match o with
  | OR_PACKET => offset
  | OR_LINK => pos_link E offset
  | OR_MACPL => pos_macpl E offset
  | OR_NET | OR_TRAN_IPV4 => pos_net E offset
  | OR_NET_NOSNAP => off_macpl (g_link E) + off_nl_nosnap (g_link E) + offset
  | OR_TRAN_IPV6 => pos_net E (40 + offset)
  end.

(** A field of the packet, by its header. *)
Definition hdr (E : genv) (o : e_offrel) (sz : bpf_size) (offset : Z) : fvalue := fun p _ =>
  match o with
  | OR_TRAN_IPV4 => b ← extract SzB p (pos_net E 0); extract sz p (pos_net E offset + ip_hl b)
  | _ => extract sz p (hdr_pos E o offset)
  end.

Definition small (z : Z) : Prop := - 2 ^ 20 < z < 2 ^ 20.

(** The comparison [op] of the field, masked, with [v], negated when [rev]. *)
Definition p_field (E : genv) (o : e_offrel) (sz : bpf_size) (offset mask : Z) (op : jmp_op) (rev : bool) (v : Z) : fpred :=
  fun p w => (fun a => xorb rev (jmp_test op (a &&& mask) v)) <$> hdr E o sz offset p w.
Definition p_is (E : genv) (o : e_offrel) (sz : bpf_size) (offset v : Z) : fpred :=
  fun p w => (fun a => a =? v) <$> hdr E o sz offset p w.

Section Plain.
Context (E : genv) `{!PlainLink E}.

Definition offset_ok (o : e_offrel) (offset : Z) : Prop :=
  small offset /\ 0 <= hdr_pos E o offset /\
  (o = OR_NET_NOSNAP -> 0 <= off_nl_nosnap (g_link E) < 2 ^ 20).

Lemma load_pos_plain o offset : offset_ok o offset -> load_pos E o (u32 offset) = hdr_pos E o offset /\ in_reach E o (u32 offset).
Proof.
  intros ([H1 H2] & H3 & H4). pose proof plain_ll. pose proof plain_macpl. pose proof plain_nl.
  assert (load_pos E o (u32 offset) = hdr_pos E o offset) as Hp.
  { destruct o; cbn [load_pos hdr_pos] in *; unfold pos_link, pos_macpl, pos_net in *;
      rewrite ?u32_u32, ?u32_add_r, ?u32_add_l; try specialize (H4 eq_refl); rewrite u32_id; lia. }
  split; [done|]. split.
  - rewrite Hp. unfold reach. split; [done|].
    destruct o; cbn [hdr_pos]; unfold pos_link, pos_macpl, pos_net; try specialize (H4 eq_refl); lia.
  - intros _. unfold reach, net_pos. rewrite u32_id; lia.
Qed.

Lemma field_plain o sz offset p w : offset_ok o offset -> field E o sz (u32 offset) p w = hdr E o sz offset p w.
Proof.
  intros Ho. unfold field, hdr. destruct (load_pos_plain o offset Ho) as [-> _].
  destruct o; try done. unfold net_pos, pos_net. pose proof plain_macpl. pose proof plain_nl.
  rewrite u32_id, Z.add_0_r by lia. reflexivity.
Qed.

Lemma hdr_range o sz offset p w v : hdr E o sz offset p w = Some v -> 0 <= v < 2 ^ 32.
Proof. unfold hdr. destruct o; try apply extract_range. destruct (extract SzB p _); cbn; [apply extract_range|done]. Qed.

Lemma field_builds o sz offset mask op rev v :
  offset_ok o offset -> 0 <= mask < 2 ^ 32 -> 0 <= v < 2 ^ 32 -> (rev = true -> op = JGT \/ op = JGE) ->
  builds E (gen_ncmp o (u32 offset) (size_bits sz) mask (jmp_bits op) rev v) (p_field E o sz offset mask op rev v) 6.
Proof.
  intros Ho Hm Hv Hr. eapply builds_ext; [apply (ncmp_builds E o sz); [now apply load_pos_plain|done|done]| |lia].
  intros p w _. unfold p_ncmp, p_field. now rewrite field_plain, (u32_id v) by done.
Qed.

Lemma cmp_builds o sz offset v :
  offset_ok o offset -> 0 <= v < 2 ^ 32 -> builds E (gen_cmp o (u32 offset) (size_bits sz) v) (p_is E o sz offset v) 6.
Proof.
  intros Ho Hv. eapply builds_ext; [apply (field_builds o sz offset 0xffffffff JEQ false v); [done|lia|done|done]| |lia].
  intros p w _. unfold p_field, p_is. destruct (hdr E o sz offset p w) as [a|] eqn:Ea; [|done].
  cbn. now rewrite land_all by exact (hdr_range _ _ _ _ _ _ Ea).
Qed.

(** The bytes at an offset. *)
Definition p_run (o : e_offrel) (offset : Z) (v : list byte) : fpred :=
  fun p _ => (fun bs => bool_decide (bs = v)) <$> bytes_at p (hdr_pos E o offset) (length v).

Lemma run_builds o offset v :
  o <> OR_TRAN_IPV4 -> offset_ok o offset -> (0 < length v)%nat -> Z.of_nat (length v) < 2 ^ 20 ->
  builds E (gen_bcmp_block o (u32 offset) (Z.of_nat (length v)) v) (p_run o offset v) (6 * Z.of_nat (length v)).
Proof.
  intros Hne Ho Hl Hlt. destruct (load_pos_plain o offset Ho) as [Hp [Hr _]]. unfold reach in Hr.
  eapply builds_ext; [apply (bcmp_builds E o (u32 offset) v Hne); [apply u32_range|lia|lia|]|..| |lia].
  - rewrite Hp. destruct Ho as ([H1 H2] & H3 & H4). pose proof plain_ll. pose proof plain_macpl. pose proof plain_nl.
    destruct o; cbn [hdr_pos]; unfold pos_link, pos_macpl, pos_net; try specialize (H4 eq_refl); lia.
  - intros p w _. unfold p_bytes, p_run. now rewrite Hp.
Qed.

(** [gen_true] and [gen_false]. *)
Definition p_const (b : bool) : fpred := fun _ _ => Some b.

Lemma uncond_builds b : builds E (gen_uncond b) (p_const b) 4.
Proof.
  unfold gen_uncond, builds. apply new_stmt_bind. intros a. apply triple_bind_ret.
  eapply (new_test_bind _ _ JEQ _ (fun _ _ => Some (if b then 0 else 1)) 0 1).
  - split; [reflexivity|]. intros p w r Hp Hr. exists (set_A (if b then 0 else 1) r).
    split; [now destruct b|]. split; [done|]. apply wf_set_A; [done|]. destruct b; lia.
  - vm_compute. intros [=].
  - intros b0. gstep fail; [|lia]. intros p w _. unfold p_test, p_const. now destruct b.
Qed.
End Plain.
