(* ===== verification/GenLinkProofs.v ===== *)
(** * What the tests of the link-layer type decide

    [LinkTests E] is what the rest of the code generator relies on: for the variables [E],
    [gen_linktype] makes an expression, and what it decides is known. The instances are the
    link-layer types themselves; for Ethernet the predicate is the textbook one, on the
    type/length field and the LLC header. *)
From stdpp Require Import base numbers list gmap.
From Stdlib Require Import Strings.Byte.
From S2P Require Import Prelude BpfInsn BpfFilter BpfFilterProofs Icode Gencode GencodeFilter Layout LayoutProofs LayoutConvert LayoutLoop Compile LinkType GenConst GenState GenLoad GenLink GenLogic GenTriple GenLoadProofs.
Open Scope Z_scope.

(** ** Calls with their offset and width as the code writes them *)

Lemma cmp_at E `{!PlainLink E} o sz off offset v :
  off = u32 offset -> offset_ok E o offset -> 0 <= v < 2 ^ 32 ->
  builds E (gen_cmp o off (size_bits sz) v) (p_is E o sz offset v) 6.
Proof. intros -> Ho Hv. now apply cmp_builds. Qed.

Lemma field_at E `{!PlainLink E} o sz off offset mask op rev v :
  off = u32 offset -> offset_ok E o offset -> 0 <= mask < 2 ^ 32 -> 0 <= v < 2 ^ 32 ->
  (rev = true -> op = JGT \/ op = JGE) ->
  builds E (gen_ncmp o off (size_bits sz) mask (jmp_bits op) rev v) (p_field E o sz offset mask op rev v) 6.
Proof. intros -> Ho Hm Hv Hr. now apply field_builds. Qed.

Lemma run_at E `{!PlainLink E} o off offset size v :
  off = u32 offset -> o <> OR_TRAN_IPV4 -> offset_ok E o offset -> size = Z.of_nat (length v) ->
  0 < size < 2 ^ 20 -> builds E (gen_bcmp_block o off size v) (p_run E o offset v) (6 * size).
Proof. intros -> Hne Ho -> Hs. apply run_builds; [done|done|done|lia|lia]. Qed.

Ltac gsize s :=
  lazymatch s with BPF_W => constr:(SzW) | BPF_H => constr:(SzH) | BPF_B => constr:(SzB) end.
Ltac gjump j :=
  lazymatch j with BPF_JEQ => constr:(JEQ) | BPF_JGT => constr:(JGT) | BPF_JGE => constr:(JGE) | BPF_JSET => constr:(JSET) end.
Ltac gplain off := lazymatch off with u32 ?x => constr:(x) | _ => constr:(off) end.

(** The side conditions: equal offsets, offsets in reach, values in range. *)
Ltac gside :=
  lazymatch goal with
  | |- ?a = u32 ?a => symmetry; apply u32_id; lia
  | |- _ = u32 _ => reflexivity
  | |- offset_ok ?E _ _ =>
      pose proof (plain_ll (E := E)); pose proof (plain_macpl (E := E)); pose proof (plain_nl (E := E));
      unfold offset_ok, small; cbn [hdr_pos]; unfold pos_link, pos_macpl, pos_net;
      split; [lia|split; [lia|first [done|lia]]]
  | |- 0 <= _ < _ => first [lia|vm_compute; split; [intros [=]|reflexivity]|idtac]
  | |- _ => first [done|lia|left; reflexivity|right; reflexivity|idtac]
  end.

Ltac gcall :=
  lazymatch goal with
  | |- builds ?E (gen_cmp ?o ?off ?s ?v) _ _ =>
      let sz := gsize s in let x := gplain off in apply (cmp_at E o sz off x v); gside
  | |- builds ?E (gen_ncmp ?o ?off ?s ?m ?j ?r ?v) _ _ =>
      let sz := gsize s in let op := gjump j in let x := gplain off in
      apply (field_at E o sz off x m op r v); gside
  | |- builds ?E (gen_bcmp_block ?o ?off ?n ?v) _ _ =>
      let x := gplain off in apply (run_at E o off x n v); gside
  | |- builds ?E (gen_mcmp ?o ?off ?s ?v ?m) ?f ?n => change (builds E (gen_ncmp o off s m BPF_JEQ false v) f n); gcall
  | |- builds ?E (gen_cmp_gt ?o ?off ?s ?v) ?f ?n => change (builds E (gen_ncmp o off s 0xffffffff BPF_JGT false v) f n); gcall
  | |- builds ?E (gen_cmp_ge ?o ?off ?s ?v) ?f ?n => change (builds E (gen_ncmp o off s 0xffffffff BPF_JGE false v) f n); gcall
  | |- builds ?E (gen_cmp_lt ?o ?off ?s ?v) ?f ?n => change (builds E (gen_ncmp o off s 0xffffffff BPF_JGE true v) f n); gcall
  | |- builds ?E (gen_cmp_le ?o ?off ?s ?v) ?f ?n => change (builds E (gen_ncmp o off s 0xffffffff BPF_JGT true v) f n); gcall
  | |- builds _ gen_true _ _ => apply (uncond_builds _ true)
  | |- builds _ gen_false _ _ => apply (uncond_builds _ false)
  | |- builds _ _ _ _ => eassumption || (eauto with gen; fail)
  end.

Create HintDb gen.

Ltac bools := repeat match goal with |- context [Z.eqb ?a ?b] => destruct (Z.eqb a b) end; done.

Lemma lor_octets a : 0 <= a < 2 ^ 16 -> 0 <= Z.shiftl a 8 ||| a < 2 ^ 32.
Proof.
  intros Ha. apply lor_range; [|lia]. rewrite Z.shiftl_mul_pow2 by lia. lia.
Qed.

(** Runs a function to its end. *)
Ltac grun := repeat (gstep ltac:(idtac; gcall)).

(** The end: two predicates on packets, compared by cases on the loads. *)
Ltac fcase :=
  repeat match goal with
  | |- context [extract ?s ?p ?k] => let E := fresh "E" in destruct (extract s p k) eqn:E; cbn -[Z.land Z.leb Z.ltb Z.eqb]
  end.

(** ** Ethernet *)

Section Ether.
Context (E : genv) `{!PlainLink E} (Hlt : 0 <= off_linktype (g_link E) < 2 ^ 19).

(** The type/length field, and what follows the MAC header. *)
Definition ether_type (p : list byte) : option Z := extract SzH p (pos_link E (off_linktype (g_link E))).
Definition is_snap (org ptype : Z) : fpred := p_run E OR_MACPL 0 (snapblock org ptype).

Lemma snap_builds org ptype : builds E (gen_snap org ptype) (is_snap org ptype) 48.
Proof. unfold gen_snap. gcall. Qed.
#[local] Hint Resolve snap_builds : gen.

(** The type/length field holds a length: an 802.3 frame. *)
Definition is_802_3 : fpred := p_not (p_field E OR_LINK SzH (off_linktype (g_link E)) 0xffffffff JGT false ETHERMTU).
Definition type_is (t : Z) : fpred := p_is E OR_LINK SzH (off_linktype (g_link E)) t.

Lemma gen_802_3_builds : builds E gen_802_3 is_802_3 6.
Proof. unfold gen_802_3, is_802_3, ETHERMTU. grun; [reflexivity|lia]. Qed.
#[local] Hint Resolve gen_802_3_builds : gen.

(** [gen_ether_linktype], test by test. *)
Definition p_ether (proto : Z) : fpred :=
  if one_of proto [LLCSAP_ISONS; LLCSAP_IP; LLCSAP_NETBEUI]
  then p_and is_802_3 (p_is E OR_MACPL SzH 0 (Z.shiftl proto 8 ||| proto))
  else if proto =? LLCSAP_IPX
  then p_or (type_is ETHERTYPE_IPX)
         (p_and is_802_3 (p_or (is_snap 0x000000 ETHERTYPE_IPX)
            (p_or (p_is E OR_MACPL SzB 0 LLCSAP_IPX) (p_is E OR_MACPL SzH 0 0xFFFF))))
  else if one_of proto [ETHERTYPE_ATALK; ETHERTYPE_AARP]
  then p_or (type_is proto) (p_and is_802_3
         (if proto =? ETHERTYPE_ATALK then is_snap 0x080007 ETHERTYPE_ATALK else is_snap 0x000000 ETHERTYPE_AARP))
  else if proto <=? ETHERMTU
  then p_and is_802_3 (p_is E OR_LINK SzB (off_linktype (g_link E) + 2) proto)
  else type_is proto.

Lemma ether_linktype_builds proto : 0 <= proto < 2 ^ 16 -> builds E (gen_ether_linktype proto) (p_ether proto) 78.
Proof.
  intros Hp. unfold gen_ether_linktype, p_ether, type_is.
  pose proof (lor_octets proto). change ETHERMTU with 1500.
  destruct (one_of proto [LLCSAP_ISONS; LLCSAP_IP; LLCSAP_NETBEUI]) eqn:E1; [grun; [reflexivity|lia]|].
  destruct (proto =? LLCSAP_IPX); [grun; [reflexivity|lia]|].
  destruct (one_of proto [ETHERTYPE_ATALK; ETHERTYPE_AARP]);
    [destruct (proto =? ETHERTYPE_ATALK); grun; [reflexivity|lia|reflexivity|lia]|].
  destruct (Z.leb_spec proto 1500); grun; [reflexivity|lia|reflexivity|lia].
Qed.

(** *** The reference: an Ethernet frame, as a receiver classifies it *)

Inductive ether_frame :=
| FType (t : Z)            (* Ethernet II, by type *)
| FSap (dsap ssap : Z)     (* 802.3 with an LLC header *)
| FSnap (oui pid : Z).     (* 802.3 with an LLC and a SNAP header *)

Definition llc_class (bs : list byte) : ether_frame :=
  if bool_decide (take 3 bs = map z2b [0xaa; 0xaa; 0x03])
  then FSnap (be_val (take 3 (drop 3 bs))) (be_val (drop 6 bs))
  else FSap (be_val (take 1 bs)) (be_val (take 1 (drop 1 bs))).

(** [None]: not all of the headers was captured. *)
Definition ether_class (p : list byte) : option ether_frame :=
  t ← ether_type p;
  if ETHERMTU <? t then Some (FType t) else llc_class <$> bytes_at p (pos_macpl E 0) 8.

(** Whether a frame carries [proto], an Ethernet type or, up to [ETHERMTU], an LLC SAP. *)
Definition carries (proto : Z) (f : ether_frame) : bool :=
  match f with
  | FType t => (t =? proto) || ((proto =? LLCSAP_IPX) && (t =? ETHERTYPE_IPX))
  | FSap d s =>
      if one_of proto [LLCSAP_ISONS; LLCSAP_IP; LLCSAP_NETBEUI] then (d =? proto) && (s =? proto)
      else if proto =? LLCSAP_IPX then (d =? LLCSAP_IPX) || ((d =? 0xff) && (s =? 0xff))
      else d =? proto
  | FSnap oui pid =>
      if proto =? LLCSAP_IPX then (oui =? 0) && (pid =? ETHERTYPE_IPX)
      else if proto =? ETHERTYPE_ATALK then (oui =? 0x080007) && (pid =? proto)
      else if proto =? ETHERTYPE_AARP then (oui =? 0) && (pid =? proto)
      else proto =? LLCSAP_SNAP
  end.
End Ether.

(** The fields at the start of a run of bytes. *)
Lemma extract_start sz p k n bs :
  bytes_at p k n = Some bs -> (size_bytes sz <= n)%nat -> extract sz p k = Some (be_val (take (size_bytes sz) bs)).
Proof.
  intros Hb Hn. unfold extract. rewrite bytes_at_Some in *.
  destruct (Z.leb_spec 0 k); [|discriminate Hb]. cbn [andb] in *.
  destruct (Z.leb_spec (k + Z.of_nat n) (Z.of_nat (length p))); [|discriminate Hb]. injection Hb as <-.
  destruct (Z.leb_spec (k + Z.of_nat (size_bytes sz)) (Z.of_nat (length p))); [|lia].
  cbn. now rewrite take_take, Nat.min_l by lia.
Qed.

Lemma be_val_cat (a b : list byte) : be_val (a ++ b) = be_val a * 256 ^ Z.of_nat (length b) + be_val b.
Proof. unfold be_val at 1. rewrite fold_left_app. apply be_val_app_acc. Qed.

Lemma snap_class (bs : list byte) org ptype :
  length bs = 8%nat -> length (snapblock org ptype) = 8%nat ->
  bool_decide (bs = snapblock org ptype) =
  bool_decide (take 3 bs = map z2b [0xaa; 0xaa; 0x03]) &&
  ((be_val (take 3 (drop 3 bs)) =? be_val (take 3 (drop 3 (snapblock org ptype)))) &&
   (be_val (drop 6 bs) =? be_val (drop 6 (snapblock org ptype)))).
Proof.
  intros Hl Hs. apply eq_bool_prop_intro. rewrite !andb_True, !bool_decide_spec, !Is_true_true, !Z.eqb_eq. split.
  - intros ->. split; [reflexivity|done].
  - intros (H1 & H2 & H3). rewrite <- (take_drop 3 bs), <- (take_drop 3 (drop 3 bs)), drop_drop.
    rewrite <- (take_drop 3 (snapblock org ptype)), <- (take_drop 3 (drop 3 (snapblock org ptype))), drop_drop.
    f_equal; [exact H1|]. f_equal; apply be_val_inj; [|done| |done]; now rewrite ?length_take, ?length_drop, Hl, Hs.
Qed.

Section EtherClass.
Context (E : genv) `{!PlainLink E} (Hlt : 0 <= off_linktype (g_link E) < 2 ^ 19).
Context (Hpay : pos_link E (off_linktype (g_link E) + 2) = pos_macpl E 0).

Lemma is_802_3_at p w t : ether_type E p = Some t -> is_802_3 E p w = Some (t <=? ETHERMTU).
Proof.
  intros Ht. unfold is_802_3, p_not, p_field. cbn [hdr hdr_pos]. unfold ether_type in Ht. rewrite Ht. cbn.
  rewrite land_all by exact (extract_range _ _ _ _ Ht). now rewrite <- Z.leb_antisym.
Qed.

Lemma type_is_at p w t v : ether_type E p = Some t -> type_is E v p w = Some (t =? v).
Proof. intros Ht. unfold type_is, p_is. cbn [hdr hdr_pos]. unfold ether_type in Ht. now rewrite Ht. Qed.

Section Payload.
Context (p : list byte) (bs : list byte) (Hb : bytes_at p (pos_macpl E 0) 8 = Some bs).

Lemma dsap_at w v : p_is E OR_MACPL SzB 0 v p w = Some (be_val (take 1 bs) =? v).
Proof using Hb. unfold p_is. cbn [hdr hdr_pos]. now rewrite (extract_start SzB p _ 8 bs Hb) by (cbn; lia). Qed.

Lemma saps_at w v : 0 <= v < 256 -> Z.shiftl v 8 ||| v = v * 256 + v ->
  p_is E OR_MACPL SzH 0 (Z.shiftl v 8 ||| v) p w =
  Some ((be_val (take 1 bs) =? v) && (be_val (take 1 (drop 1 bs)) =? v)).
Proof using Hb.
  intros Hv ->. unfold p_is. cbn [hdr hdr_pos]. rewrite (extract_start SzH p _ 8 bs Hb) by (cbn; lia). cbn [fmap option_fmap option_map size_bytes].
  apply bytes_at_length in Hb. destruct bs as [|b0 [|b1 bs']]; try discriminate Hb. cbn [take drop].
  change (be_val [b0]) with (b2z b0). change (be_val (b1 :: take 0 bs')) with (b2z b1).
  change (be_val (b0 :: b1 :: take 0 bs')) with (b2z b0 * 256 + b2z b1).
  f_equal. pose proof (b2z_range b0). pose proof (b2z_range b1).
  destruct (Z.eqb_spec (b2z b0) v), (Z.eqb_spec (b2z b1) v), (Z.eqb_spec (b2z b0 * 256 + b2z b1) (v * 256 + v)); try done; lia.
Qed.

Lemma snap_at w org ptype n m :
  length (snapblock org ptype) = 8%nat -> be_val (take 3 (drop 3 (snapblock org ptype))) = n ->
  be_val (drop 6 (snapblock org ptype)) = m ->
  is_snap E org ptype p w =
  Some (bool_decide (take 3 bs = map z2b [0xaa; 0xaa; 0x03]) &&
        ((be_val (take 3 (drop 3 bs)) =? n) && (be_val (drop 6 bs) =? m))).
Proof using Hb.
  intros Hl <- <-. unfold is_snap, p_run. rewrite Hl. cbn [hdr_pos]. rewrite Hb. cbn [fmap option_fmap option_map].
  now rewrite snap_class by (eauto using bytes_at_length).
Qed.
End Payload.

Lemma and_802_3 (g : fpred) p w t : ether_type E p = Some t ->
  p_and (is_802_3 E) g p w = if ETHERMTU <? t then Some false else g p w.
Proof. intros Ht. unfold p_and. rewrite (is_802_3_at p w t Ht), (Z.leb_antisym ETHERMTU t). now destruct (ETHERMTU <? t). Qed.

Lemma one_of_cases x l : one_of x l = true -> In x l.
Proof. unfold one_of. rewrite existsb_exists. intros (y & Hy & ->%Z.eqb_eq). done. Qed.

(** On an Ethernet II frame only the type is tested. *)
Lemma p_ether_type proto p w t :
  0 <= proto < 2 ^ 16 -> ether_type E p = Some t -> ETHERMTU < t ->
  p_ether E proto p w = Some (carries proto (FType t)).
Proof.
  intros Hp Ht Hgt. assert ((ETHERMTU <? t) = true) as Hlt' by now apply Z.ltb_lt.
  unfold p_ether, p_or, carries. unfold ETHERMTU in Hgt.
  destruct (one_of proto [LLCSAP_ISONS; LLCSAP_IP; LLCSAP_NETBEUI]) eqn:E1.
  - rewrite (and_802_3 _ p w t Ht), Hlt'. f_equal. symmetry.
    destruct (one_of_cases _ _ E1) as [<-|[<-|[<-|[]]]]; cbn [Z.eqb andb orb]; apply orb_false_intro; try done; apply Z.eqb_neq; unfold LLCSAP_ISONS, LLCSAP_IP, LLCSAP_NETBEUI; lia.
  - destruct (Z.eqb_spec proto LLCSAP_IPX) as [->|].
    + rewrite (type_is_at p w t _ Ht), (and_802_3 _ p w t Ht), Hlt'. cbn [andb].
      replace (t =? LLCSAP_IPX) with false by (symmetry; apply Z.eqb_neq; unfold LLCSAP_IPX; lia). now destruct (t =? ETHERTYPE_IPX).
    + cbn [andb]. rewrite orb_false_r. destruct (one_of proto [ETHERTYPE_ATALK; ETHERTYPE_AARP]).
      * rewrite (type_is_at p w t _ Ht), (and_802_3 _ p w t Ht), Hlt'. now destruct (t =? proto).
      * destruct (Z.leb_spec proto ETHERMTU); [|apply (type_is_at p w t _ Ht)].
        rewrite (and_802_3 _ p w t Ht), Hlt'. f_equal. symmetry. apply Z.eqb_neq. unfold ETHERMTU in *. lia.
Qed.

Lemma dsap_range (bs : list byte) : 0 <= be_val (take 1 bs) < 256.
Proof. destruct bs as [|b bs]; [done|]. cbn [take]. rewrite take_0. apply b2z_range. Qed.

Lemma snap_saps (bs : list byte) : take 3 bs = map z2b [0xaa; 0xaa; 0x03] ->
  be_val (take 1 bs) = 0xaa /\ be_val (take 1 (drop 1 bs)) = 0xaa.
Proof. destruct bs as [|b0 [|b1 [|b2 bs]]]; try discriminate. intros [= -> -> ->]. done. Qed.

(** On a frame of 802.3 the SAPs and the SNAP header are what the tests read. *)
Lemma p_ether_llc proto p w t bs :
  0 <= proto < 2 ^ 16 -> ether_type E p = Some t -> t <= ETHERMTU -> bytes_at p (pos_macpl E 0) 8 = Some bs ->
  p_ether E proto p w = Some (carries proto (llc_class bs)).
Proof.
  intros Hp Ht Hle Hb. assert ((ETHERMTU <? t) = false) as Hlt' by now apply Z.ltb_ge.
  unfold ETHERMTU in Hle. unfold p_ether, p_or.
  assert (forall v, 1500 < v -> type_is E v p w = Some false) as Hno
    by (intros v Hv; rewrite (type_is_at p w t _ Ht); f_equal; apply Z.eqb_neq; lia).
  destruct (one_of proto [LLCSAP_ISONS; LLCSAP_IP; LLCSAP_NETBEUI]) eqn:E1.
  - rewrite (and_802_3 _ p w t Ht), Hlt'.
    rewrite (saps_at p bs Hb) by (destruct (one_of_cases _ _ E1) as [<-|[<-|[<-|[]]]]; [easy..]).
    unfold llc_class. case_bool_decide as Hs; [|cbn [carries]; now rewrite E1].
    destruct (snap_saps bs Hs) as [-> ->]. now destruct (one_of_cases _ _ E1) as [<-|[<-|[<-|[]]]].
  - destruct (Z.eqb_spec proto LLCSAP_IPX) as [->|Hipx].
    + rewrite (Hno ETHERTYPE_IPX ltac:(done)), (and_802_3 _ p w t Ht), Hlt', (snap_at p bs Hb w 0 ETHERTYPE_IPX 0 ETHERTYPE_IPX) by done.
      rewrite !(dsap_at p bs Hb). change 0xFFFF with (Z.shiftl 0xff 8 ||| 0xff). rewrite (saps_at p bs Hb) by done.
      unfold llc_class. case_bool_decide as Hs; cbn [andb carries].
      * destruct (snap_saps bs Hs) as [-> ->]. cbn. bools.
      * rewrite E1. cbn. bools.
    + destruct (one_of proto [ETHERTYPE_ATALK; ETHERTYPE_AARP]) eqn:E2.
      * rewrite (and_802_3 _ p w t Ht), Hlt', Hno by (destruct (one_of_cases _ _ E2) as [<-|[<-|[]]]; done).
        pose proof (dsap_range bs).
        assert ((be_val (take 1 bs) =? proto) = false) as Hf
          by (destruct (one_of_cases _ _ E2) as [<-|[<-|[]]]; apply Z.eqb_neq; unfold ETHERTYPE_ATALK, ETHERTYPE_AARP; lia).
        unfold llc_class. destruct (one_of_cases _ _ E2) as [<-|[<-|[]]].
        -- replace (ETHERTYPE_ATALK =? ETHERTYPE_ATALK) with true by done.
           rewrite (snap_at p bs Hb w 0x080007 ETHERTYPE_ATALK 0x080007 ETHERTYPE_ATALK) by done.
           case_bool_decide; cbn [andb carries]; [done|]. now rewrite Hf.
        -- replace (ETHERTYPE_AARP =? ETHERTYPE_ATALK) with false by done.
           rewrite (snap_at p bs Hb w 0 ETHERTYPE_AARP 0 ETHERTYPE_AARP) by done.
           case_bool_decide; cbn [andb carries]; [done|]. now rewrite Hf.
      * assert ((proto =? LLCSAP_IPX) = false) as N1 by now apply Z.eqb_neq.
        assert ((proto =? ETHERTYPE_ATALK) = false /\ (proto =? ETHERTYPE_AARP) = false) as [N2 N3]
          by (cbn [one_of existsb] in E2; rewrite !orb_false_iff in E2; tauto).
        destruct (Z.leb_spec proto ETHERMTU) as [Hsap|Hsap]; unfold ETHERMTU in Hsap.
        -- rewrite (and_802_3 _ p w t Ht), Hlt'.
           assert (p_is E OR_LINK SzB (off_linktype (g_link E) + 2) proto p w = p_is E OR_MACPL SzB 0 proto p w) as ->
             by (unfold p_is; cbn [hdr hdr_pos]; now rewrite Hpay).
           rewrite (dsap_at p bs Hb). unfold llc_class. case_bool_decide as Hs; cbn [carries].
           ++ destruct (snap_saps bs Hs) as [-> _]. rewrite N1, N2, N3. f_equal. apply Z.eqb_sym.
           ++ now rewrite E1, N1.
        -- pose proof (dsap_range bs). rewrite Hno by lia. unfold llc_class. case_bool_decide; cbn [carries]; rewrite ?E1, ?N1, ?N2, ?N3; f_equal; symmetry;
             apply Z.eqb_neq; unfold LLCSAP_SNAP; lia.
Qed.
End EtherClass.

(** ** The interface, and its instances *)

(** No MPLS, and no PPPoE, header seen so far. *)
Class NoEncap (E : genv) : Prop := {
  no_labels : label_stack_depth (g_encap E) = 0;
  no_pppoes : is_pppoes (g_encap E) = false
}.

(** What the tests of a family of link-layer types decide, for given variables. The
    registers in use are not among what it may depend on. *)
Class LinkPred : Type := link_pred : genv -> Z -> fpred.
Definition no_regs : registers := mk_registers [] 0 0 0.
Definition lt_pred `{LinkPred} (E : genv) : Z -> fpred := link_pred (with_regs no_regs E).

(** [gen_linktype] makes a test for any type, within 80 slots, whatever registers are in
    use, and it decides the predicate. *)
Class LinkTests `{LP : LinkPred} (E : genv) : Prop := {
  lt_plain :: PlainLink E;
  lt_regs : forall r proto, 0 <= proto < 2 ^ 16 ->
    builds (with_regs r E) (gen_linktype proto) (lt_pred E proto) 80
}.

Lemma with_own_regs E : with_regs (g_regs E) E = E.
Proof. now destruct E. Qed.

Lemma lt_builds `{LinkPred} E `{!LinkTests E} proto : 0 <= proto < 2 ^ 16 ->
  builds E (gen_linktype proto) (lt_pred E proto) 80.
Proof. intros Hp. pose proof (lt_regs (E := E) (g_regs E) proto Hp) as Hb. now rewrite with_own_regs in Hb. Qed.

(** The registers are not part of the offsets. *)
#[export] Instance fixed_regs r E `{!FixedLink E} : FixedLink (with_regs r E).
Proof. split; [exact (fixed_macpl (E := E))|exact (fixed_prefix (E := E))]. Qed.
#[export] Instance plain_regs r E `{!PlainLink E} : PlainLink (with_regs r E).
Proof. split; [apply _|exact (plain_ll (E := E))|exact (plain_macpl (E := E))|exact (plain_nl (E := E))]. Qed.
#[export] Instance no_encap_regs r E `{!NoEncap E} : NoEncap (with_regs r E).
Proof. split; [exact (no_labels (E := E))|exact (no_pppoes (E := E))]. Qed.
#[export] Instance tests_regs `{LinkPred} r E `{!LinkTests E} : LinkTests (with_regs r E).
Proof.
  pose proof (lt_plain (E := E)). split; [apply _|]. exact (lt_regs (E := E)).
Qed.

Lemma linktype_switch E `{!NoEncap E} proto f n :
  builds E (gen_linktype_switch proto) f n -> builds E (gen_linktype proto) f n.
Proof.
  intros Hb. unfold gen_linktype, builds. do 2 gstep fail. now rewrite no_labels, no_pppoes.
Qed.

(** Takes the branches whose condition is closed. *)
Ltac branch :=
  repeat lazymatch goal with
  | |- triple _ _ (if ?c then _ else _) _ _ =>
      let v := eval vm_compute in c in
      lazymatch v with true => idtac | false => idtac end; change c with v; cbn match
  end.

(** Runs the switch to the case of the type [H] names. *)
Ltac dlt_case H := unfold gen_linktype_switch, builds; do 2 gstep fail; rewrite H; branch.

Section Families.
Context (E : genv) `{!PlainLink E} `{!NoEncap E} (Hlt : 0 <= off_linktype (g_link E) < 2 ^ 19).

Lemma ether_switch proto : linktype E = DLT_EN10MB -> 0 <= proto < 2 ^ 16 ->
  builds E (gen_linktype proto) (p_ether E proto) 80.
Proof.
  intros Hd Hp. apply linktype_switch; [done|]. dlt_case Hd.
  eapply builds_ext; [now apply ether_linktype_builds|done|lia].
Qed.

(** Raw IP: the version is the high half of the first byte. *)
Definition ip_version (v : Z) : fpred := p_field E OR_LINK SzB 0 0xf0 JEQ false (Z.shiftl v 4).
Definition p_raw (proto : Z) : fpred :=
  if proto =? ETHERTYPE_IP then ip_version 4
  else if proto =? ETHERTYPE_IPV6 then ip_version 6 else p_const false.

Lemma raw_switch proto : linktype E = DLT_RAW -> builds E (gen_linktype proto) (p_raw proto) 80.
Proof.
  intros Hd. apply linktype_switch; [done|]. dlt_case Hd. unfold p_raw.
  destruct (proto =? ETHERTYPE_IP); [|destruct (proto =? ETHERTYPE_IPV6)]; grun; try lia; reflexivity.
Qed.

(** PPP: the protocol field holds a PPP protocol number. *)
Definition p_ppp (proto : Z) : fpred := type_is E (ethertype_to_ppptype proto).

Lemma ppp_range proto : 0 <= proto < 2 ^ 16 -> 0 <= ethertype_to_ppptype proto < 2 ^ 16.
Proof. intros Hp. unfold ethertype_to_ppptype. repeat (case_match; [vm_compute; split; [intros [=]|reflexivity]|]). done. Qed.

Lemma ppp_switch proto : linktype E = DLT_PPP -> 0 <= proto < 2 ^ 16 ->
  builds E (gen_linktype proto) (p_ppp proto) 80.
Proof.
  intros Hd Hp. pose proof (ppp_range proto Hp). apply linktype_switch; [done|]. dlt_case Hd. unfold p_ppp, type_is.
  grun; [reflexivity|lia].
Qed.

(** Linux cooked captures. *)
Definition p_sll (proto : Z) : fpred :=
  if one_of proto [LLCSAP_ISONS; LLCSAP_IP; LLCSAP_NETBEUI]
  then p_and (type_is E LINUX_SLL_P_802_2) (p_is E OR_MACPL SzH 0 (Z.shiftl proto 8 ||| proto))
  else if proto =? LLCSAP_IPX
  then p_or (type_is E ETHERTYPE_IPX) (p_or (type_is E LINUX_SLL_P_802_3)
         (p_and (type_is E LINUX_SLL_P_802_2) (p_or (p_is E OR_MACPL SzB 0 LLCSAP_IPX) (is_snap E 0x000000 ETHERTYPE_IPX))))
  else if one_of proto [ETHERTYPE_ATALK; ETHERTYPE_AARP]
  then p_or (type_is E proto) (p_and (type_is E LINUX_SLL_P_802_2)
         (if proto =? ETHERTYPE_ATALK then is_snap E 0x080007 ETHERTYPE_ATALK else is_snap E 0x000000 ETHERTYPE_AARP))
  else if proto <=? ETHERMTU
  then p_and (type_is E LINUX_SLL_P_802_2) (p_is E OR_LINK SzB (off_macpl (g_link E)) proto)
  else type_is E proto.

#[local] Hint Resolve snap_builds : gen.

Lemma sll_switch proto : linktype E = DLT_LINUX_SLL -> 0 <= proto < 2 ^ 16 ->
  builds E (gen_linktype proto) (p_sll proto) 80.
Proof.
  intros Hd Hp. apply linktype_switch; [done|]. dlt_case Hd.
  eapply (builds_ext _ _ (p_sll proto) _ 78); [|done|lia]. unfold gen_linux_sll_linktype, p_sll, type_is.
  pose proof (lor_octets proto). pose proof (plain_macpl (E := E)). change ETHERMTU with 1500.
  destruct (one_of proto [LLCSAP_ISONS; LLCSAP_IP; LLCSAP_NETBEUI]) eqn:E1; [grun; [reflexivity|lia]|].
  destruct (proto =? LLCSAP_IPX); [grun; [reflexivity|lia]|].
  destruct (one_of proto [ETHERTYPE_ATALK; ETHERTYPE_AARP]);
    [destruct (proto =? ETHERTYPE_ATALK); grun; [reflexivity|lia|reflexivity|lia]|].
  destruct (Z.leb_spec proto 1500); grun; [reflexivity|lia|reflexivity|lia].
Qed.

(** LLC, as FDDI, token ring, ATM and Fibre Channel carry it. *)
Definition p_llc (proto : Z) : fpred :=
  if one_of proto [LLCSAP_IP; LLCSAP_ISONS; LLCSAP_NETBEUI] then p_is E OR_MACPL SzH 0 (Z.shiftl proto 8 ||| proto)
  else if proto =? LLCSAP_IPX then p_is E OR_MACPL SzB 0 LLCSAP_IPX
  else if proto =? ETHERTYPE_ATALK then is_snap E 0x080007 ETHERTYPE_ATALK
  else if proto <=? ETHERMTU then p_is E OR_MACPL SzB 0 proto
  else p_is E OR_MACPL SzH 6 proto.

Lemma llc_linktype_builds proto : 0 <= proto < 2 ^ 16 -> builds E (gen_llc_linktype proto) (p_llc proto) 48.
Proof.
  intros Hp. unfold gen_llc_linktype, p_llc. pose proof (lor_octets proto).
  destruct (one_of proto [LLCSAP_IP; LLCSAP_ISONS; LLCSAP_NETBEUI]); [grun; [reflexivity|lia]|].
  destruct (proto =? LLCSAP_IPX); [grun; [reflexivity|lia]|].
  destruct (proto =? ETHERTYPE_ATALK); [grun; [reflexivity|lia]|].
  destruct (proto <=? ETHERMTU); grun; [reflexivity|lia|reflexivity|lia].
Qed.

Lemma llc_switch proto :
  one_of (linktype E) [DLT_FDDI; DLT_IEEE802; DLT_ATM_RFC1483; DLT_ATM_CLIP; DLT_IP_OVER_FC] = true ->
  0 <= proto < 2 ^ 16 -> builds E (gen_linktype proto) (p_llc proto) 80.
Proof.
  intros Hd Hp. apply linktype_switch; [done|].
  destruct (one_of_cases _ _ Hd) as [H|[H|[H|[H|[H|[]]]]]]; dlt_case (eq_sym H);
    (eapply builds_ext; [now apply llc_linktype_builds|done|lia]).
Qed.

(** The BSD loopback: the address family, in the byte order of the capturing host. *)
Definition null_af (proto : Z) : option Z :=
  if proto =? ETHERTYPE_IP then Some AF_INET else if proto =? ETHERTYPE_IPV6 then Some AF_INET6 else None.
Definition null_value (af : Z) : Z :=
  if one_of (linktype E) [DLT_NULL; DLT_ENC]
  then SWAPLONG (if rfile E && swapped E then SWAPLONG af else af) else af.
Definition p_null (proto : Z) : fpred :=
  match null_af proto with Some af => p_is E OR_LINK SzW 0 (null_value af) | None => p_const false end.

Lemma null_af_cases proto : null_af proto = None \/ exists af, null_af proto = Some af /\ 0 <= af < 2 ^ 32.
Proof.
  unfold null_af. destruct (proto =? ETHERTYPE_IP); [|destruct (proto =? ETHERTYPE_IPV6)]; [right..|now left];
    (eexists; split; [reflexivity|]; vm_compute; split; [intros [=]|reflexivity]).
Qed.

Lemma null_value_range af : 0 <= af < 2 ^ 32 -> 0 <= null_value af < 2 ^ 32.
Proof. intros Haf. unfold null_value. repeat case_match; try done; apply SWAPLONG_range. Qed.

Lemma null_switch proto : one_of (linktype E) [DLT_NULL; DLT_LOOP; DLT_ENC] = true ->
  builds E (gen_linktype proto) (p_null proto) 80.
Proof.
  intros Hd. apply linktype_switch; [done|].
  assert (builds E (gen_null_linktype proto) (p_null proto) 6) as Hb.
  { unfold gen_null_linktype, p_null, builds. do 3 gstep fail. cbn zeta. fold (null_af proto).
    destruct (null_af_cases proto) as [->|(af & -> & Haf)].
    - eapply builds_ext; [apply (uncond_builds E false)|done|lia].
    - eapply builds_ext; [apply (cmp_at E OR_LINK SzW 0 0 (null_value af))|done|lia]; [done|gside|now apply null_value_range]. }
  destruct (one_of_cases _ _ Hd) as [H|[H|[H|[]]]]; dlt_case (eq_sym H); (eapply builds_ext; [exact Hb|done|lia]).
Qed.
End Families.

(** Raw IP has no type field. *)
Class SmallType (E : genv) : Prop := small_type : linktype E <> DLT_RAW -> 0 <= off_linktype (g_link E) < 2 ^ 19.

(** The families; for a type of none of them nothing is promised. *)
#[export] Instance link_families : LinkPred := fun E =>
  let dlt := linktype E in
  if dlt =? DLT_EN10MB then p_ether E
  else if dlt =? DLT_LINUX_SLL then p_sll E
  else if dlt =? DLT_PPP then p_ppp E
  else if one_of dlt [DLT_FDDI; DLT_IEEE802; DLT_ATM_RFC1483; DLT_ATM_CLIP; DLT_IP_OVER_FC] then p_llc E
  else if dlt =? DLT_RAW then p_raw E
  else if one_of dlt [DLT_NULL; DLT_LOOP; DLT_ENC] then p_null E
  else fun _ => p_const false.

Definition families : list Z :=
  [DLT_EN10MB; DLT_LINUX_SLL; DLT_PPP; DLT_FDDI; DLT_IEEE802; DLT_ATM_RFC1483; DLT_ATM_CLIP; DLT_IP_OVER_FC;
   DLT_RAW; DLT_NULL; DLT_LOOP; DLT_ENC].

Lemma families_builds E `{!PlainLink E} `{!NoEncap E} `{!SmallType E} proto :
  one_of (linktype E) families = true -> 0 <= proto < 2 ^ 16 ->
  builds E (gen_linktype proto) (lt_pred E proto) 80.
Proof.
  intros Hd Hp. unfold lt_pred, link_pred, link_families. cbn [linktype with_regs].
  assert (forall d, linktype E = d -> (one_of d families = true -> builds E (gen_linktype proto) (
    (if d =? DLT_EN10MB then p_ether E
     else if d =? DLT_LINUX_SLL then p_sll E
     else if d =? DLT_PPP then p_ppp E
     else if one_of d [DLT_FDDI; DLT_IEEE802; DLT_ATM_RFC1483; DLT_ATM_CLIP; DLT_IP_OVER_FC] then p_llc E
     else if d =? DLT_RAW then p_raw E
     else if one_of d [DLT_NULL; DLT_LOOP; DLT_ENC] then p_null E
     else fun _ => p_const false) proto) 80)) as H; [|now apply (H (linktype E))].
  intros d Ed Hf. destruct (Z.eqb_spec d DLT_RAW) as [->|Hraw]; [now apply raw_switch|].
  assert (0 <= off_linktype (g_link E) < 2 ^ 19) as Hs by (apply small_type; congruence).
  destruct (Z.eqb_spec d DLT_EN10MB) as [->|]; [now apply ether_switch|].
  destruct (Z.eqb_spec d DLT_LINUX_SLL) as [->|]; [now apply sll_switch|].
  destruct (Z.eqb_spec d DLT_PPP) as [->|]; [now apply ppp_switch|].
  destruct (one_of d [DLT_FDDI; DLT_IEEE802; DLT_ATM_RFC1483; DLT_ATM_CLIP; DLT_IP_OVER_FC]) eqn:E1;
    [apply llc_switch; congruence|].
  destruct (one_of d [DLT_NULL; DLT_LOOP; DLT_ENC]) eqn:E2; [apply null_switch; congruence|].
  exfalso. destruct (one_of_cases _ _ Hf) as [<-|[<-|[<-|[<-|[<-|[<-|[<-|[<-|[<-|[<-|[<-|[<-|[]]]]]]]]]]]]]; done.
Qed.

#[export] Instance families_tests E `{!PlainLink E} `{!NoEncap E} `{!SmallType E}
  `{!TCEq (one_of (linktype E) families) true} : LinkTests E.
Proof.
  split; [apply _|]. intros r proto Hp.
  assert (SmallType (with_regs r E)) by exact (small_type (E := E)).
  refine (families_builds (with_regs r E) proto _ Hp). now apply TCEq_eq.
Qed.
