(* ===== verification/GenTestProofs.v ===== *)
(** * What the tests of addresses, protocols and ports decide

    Proved against the interface [LinkTests]: for every link-layer type whose [gen_linktype]
    is known, the tests of hosts and networks, of protocols and of ports decide the
    predicates defined here, which read the fields of the headers. *)
From stdpp Require Import base numbers list gmap.
From Stdlib Require Import Strings.Byte.
From S2P Require Import Prelude BpfInsn BpfFilter BpfFilterProofs Icode Gencode GencodeFilter Layout LayoutProofs LayoutConvert LayoutLoop Compile LinkType GenConst GenState GenLoad GenLink GenHost GenPort GenArth GenMisc GenLogic GenTriple GenLoadProofs GenLinkProofs.
Open Scope Z_scope.

(** Ranges of constants. *)
Lemma range_intro (a b c : Z) : (a <=? b) && (b <? c) = true -> a <= b < c.
Proof. intros H. lia. Qed.
#[export] Hint Extern 1 (0 <= _ < _) => first [lia|apply range_intro; vm_compute; reflexivity] : gen.
#[export] Hint Resolve lt_builds : gen.

(** Any bit of [bits] is set in a field. *)
Definition p_set (E : genv) (o : e_offrel) (sz : bpf_size) (offset bits : Z) : fpred :=
  fun p w => (fun a => negb ((a &&& bits) =? 0)) <$> hdr E o sz offset p w.
(** A field, masked, is [v]. *)
Definition p_masked (E : genv) (o : e_offrel) (sz : bpf_size) (offset v mask : Z) : fpred :=
  p_field E o sz offset mask JEQ false v.

Lemma set_bind {B} E `{!PlainLink E} L o sz off offset bits (k : nat -> G B) E' Q :
  off = u32 offset -> offset_ok E o offset -> 0 <= bits < 2 ^ 32 ->
  (forall b, triple E (mk_item b (p_set E o sz offset bits) 6 :: L) (k b) E' Q) ->
  triple E L (s ← gen_load_a o off (size_bits sz); b ← new_test BPF_JSET s bits; k b) E' Q.
Proof.
  intros -> Ho Hb Hk. destruct (load_pos_plain E o offset Ho) as [_ Hr].
  eapply emits_bind; [now apply (emits_load_a E o sz)|]. intros ss Hc Hn.
  change BPF_JSET with (jmp_bits JSET). eapply new_test_bind; [exact Hc|exact Hn|]. intros b.
  eapply triple_item; [| |exact (Hk b)]; [|lia].
  intros p w _. unfold p_test, p_set. rewrite (field_plain E o sz offset p w Ho), (u32_id bits) by done.
  now destruct (hdr E o sz offset p w).
Qed.

Section Tests.
Context `{LP : LinkPred} (E : genv) `{!LinkTests E}.

(** ** IPv4 and DECnet *)

Definition p_host_at (addr mask proto offset : Z) : fpred :=
  p_and (lt_pred E proto) (p_masked E OR_NET SzW offset addr mask).

(** Both directions, as the qualifier says. *)
Definition p_dir (dir : Z) (src dst : fpred) : fpred :=
  if dir =? Q_SRC then src else if dir =? Q_DST then dst
  else if dir =? Q_AND then p_and src dst else p_or src dst.

Lemma both_and_builds src dst f0 f1 n : builds E src f0 n -> builds E dst f1 n ->
  builds E (both_dirs g_and src dst) (p_and f0 f1) (2 * n).
Proof. intros H0 H1. unfold both_dirs. grun; [reflexivity|lia]. Qed.

Lemma both_or_builds src dst f0 f1 n : builds E src f0 n -> builds E dst f1 n ->
  builds E (both_dirs g_or src dst) (p_or f0 f1) (2 * n).
Proof. intros H0 H1. unfold both_dirs. grun; [reflexivity|lia]. Qed.

Definition dir_ok (dir : Z) : bool := one_of dir [Q_SRC; Q_DST; Q_AND; Q_OR; Q_DEFAULT].

Lemma hostop_at_builds addr mask proto offset :
  0 <= addr < 2 ^ 32 -> 0 <= mask < 2 ^ 32 -> 0 <= proto < 2 ^ 16 -> 0 <= offset < 64 ->
  builds E (gen_hostop_at addr mask proto offset) (p_host_at addr mask proto offset) 86.
Proof.
  intros Ha Hm Hp Ho. unfold gen_hostop_at, p_host_at, p_masked. grun; [reflexivity|lia].
Qed.

Lemma dir_builds (gen other : Z -> G nat) (src dst : G nat) dir f0 f1 n :
  (forall d, gen d = if d =? Q_SRC then src else if d =? Q_DST then dst
     else if d =? Q_AND then both_dirs g_and src dst
     else if one_of d [Q_OR; Q_DEFAULT] then both_dirs g_or src dst else other d) ->
  dir_ok dir = true -> 0 <= n -> builds E src f0 n -> builds E dst f1 n ->
  builds E (gen dir) (p_dir dir f0 f1) (2 * n).
Proof.
  intros Hg Hd Hn H0 H1. rewrite Hg. unfold p_dir, dir_ok in *.
  destruct (dir =? Q_SRC) eqn:E1; [eapply builds_ext; [exact H0|done|lia]|].
  destruct (dir =? Q_DST) eqn:E2; [eapply builds_ext; [exact H1|done|lia]|].
  destruct (dir =? Q_AND) eqn:E3; [now apply both_and_builds|].
  cbn [one_of existsb] in Hd. rewrite E1, E2, E3 in Hd. cbn [orb] in Hd. unfold one_of. cbn [existsb]. rewrite Hd.
  now apply both_or_builds.
Qed.

Lemma hostop_builds addr mask dir proto src_off dst_off :
  0 <= addr < 2 ^ 32 -> 0 <= mask < 2 ^ 32 -> 0 <= proto < 2 ^ 16 -> dir_ok dir = true ->
  0 <= src_off < 64 -> 0 <= dst_off < 64 ->
  builds E (gen_hostop addr mask dir proto src_off dst_off)
    (p_dir dir (p_host_at addr mask proto src_off) (p_host_at addr mask proto dst_off)) 172.
Proof.
  intros Ha Hm Hp Hd Hs Ht. change 172 with (2 * 86).
  apply (dir_builds (fun dir => gen_hostop addr mask dir proto src_off dst_off) (fun _ => abort)
    (gen_hostop_at addr mask proto src_off) (gen_hostop_at addr mask proto dst_off));
    [reflexivity|done|lia|now apply hostop_at_builds..].
Qed.

(** [gen_host]: by default IP, ARP and RARP packets with the address. *)
Definition p_host_proto (addr mask ethertype dir src_off dst_off : Z) : fpred :=
  p_dir dir (p_host_at addr mask ethertype src_off) (p_host_at addr mask ethertype dst_off).
Definition p_host (addr mask proto dir : Z) : fpred :=
  if proto =? Q_IP then p_host_proto addr mask ETHERTYPE_IP dir 12 16
  else if proto =? Q_ARP then p_host_proto addr mask ETHERTYPE_ARP dir 14 24
  else if proto =? Q_RARP then p_host_proto addr mask ETHERTYPE_REVARP dir 14 24
  else p_or (p_or (p_host_proto addr mask ETHERTYPE_IP dir 12 16) (p_host_proto addr mask ETHERTYPE_ARP dir 14 24))
         (p_host_proto addr mask ETHERTYPE_REVARP dir 14 24).

Lemma host_proto_builds addr mask ethertype dir src_off dst_off :
  0 <= addr < 2 ^ 32 -> 0 <= mask < 2 ^ 32 -> 0 <= ethertype < 2 ^ 16 -> dir_ok dir = true ->
  0 <= src_off < 64 -> 0 <= dst_off < 64 ->
  builds E (gen_hostop addr mask dir ethertype src_off dst_off) (p_host_proto addr mask ethertype dir src_off dst_off) 172.
Proof. apply hostop_builds. Qed.

Lemma host_builds `{!NoEncap E} addr mask proto dir :
  0 <= addr < 2 ^ 32 -> 0 <= mask < 2 ^ 32 -> one_of proto [Q_DEFAULT; Q_IP; Q_ARP; Q_RARP] = true -> dir_ok dir = true ->
  builds E (gen_host addr mask proto dir) (p_host addr mask proto dir) 516.
Proof.
  intros Ha Hm Hp Hd.
  assert (forall e s d, 0 <= e < 2 ^ 16 -> 0 <= s < 64 -> 0 <= d < 64 ->
    builds E (gen_hostop addr mask dir e s d) (p_host_proto addr mask e dir s d) 172) as H
    by (intros; now apply host_proto_builds).
  unfold gen_host, p_host, gen_host_ip, gen_host_arp, gen_host_rarp.
  destruct (one_of_cases _ _ Hp) as [<-|[<-|[<-|[<-|[]]]]]; cbn [Z.eqb Pos.eqb Q_DEFAULT Q_IP Q_ARP Q_RARP];
    [|eapply builds_ext; [apply H; done|done|lia]..].
  unfold builds. eapply builds_bind; [apply H; done|]. intros b0. gstep fail. rewrite no_labels. cbn [Z.eqb].
  eapply builds_bind; [apply H; done|]. intros b1. gstep fail.
  eapply builds_bind; [apply H; done|]. intros b2. grun; [reflexivity|lia].
Qed.

(** ** Protocols *)

Definition p_proto_ip (v : Z) : fpred := p_and (lt_pred E ETHERTYPE_IP) (p_is E OR_NET SzB 9 v).
(** The next header of IPv6, or the one after a fragment header. *)
Definition p_next_header (v : Z) : fpred :=
  p_or (p_is E OR_NET SzB 6 v) (p_and (p_is E OR_NET SzB 6 IPPROTO_FRAGMENT) (p_is E OR_NET SzB 40 v)).
Definition p_proto_ipv6 (v : Z) : fpred := p_and (lt_pred E ETHERTYPE_IPV6) (p_next_header v).

Lemma proto_ip_builds v : 0 <= v < 2 ^ 32 -> builds E (gen_proto_ip v) (p_proto_ip v) 86.
Proof. intros Hv. unfold gen_proto_ip, p_proto_ip. grun; [reflexivity|lia]. Qed.

Lemma proto_ipv6_builds v : 0 <= v < 2 ^ 32 -> builds E (gen_proto_ipv6 v) (p_proto_ipv6 v) 98.
Proof. intros Hv. unfold gen_proto_ipv6, p_proto_ipv6, p_next_header. grun; [reflexivity|lia]. Qed.

Definition p_proto (v proto : Z) : fpred :=
  if proto =? Q_IP then p_proto_ip v else if proto =? Q_IPV6 then p_proto_ipv6 v
  else if proto =? Q_LINK then lt_pred E v
  else p_or (p_proto_ip v) (p_proto_ipv6 v).

Lemma proto_builds v proto :
  0 <= v < 2 ^ 32 -> one_of proto [Q_DEFAULT; Q_IP; Q_IPV6; Q_LINK] = true -> (proto = Q_LINK -> v < 2 ^ 16) ->
  builds E (gen_proto v proto Q_DEFAULT) (p_proto v proto) 184.
Proof.
  intros Hv Hp Hl. unfold gen_proto, p_proto.
  destruct (one_of_cases _ _ Hp) as [<-|[<-|[<-|[<-|[]]]]]; cbn [Z.eqb Pos.eqb negb Q_DEFAULT Q_IP Q_IPV6 Q_LINK Q_ISO Q_ISIS].
  - unfold builds. eapply builds_bind; [now apply proto_ip_builds|]. intros b0.
    eapply builds_bind; [now apply proto_ipv6_builds|]. intros b1. grun; [reflexivity|lia].
  - eapply builds_ext; [now apply proto_ip_builds|done|lia].
  - eapply builds_ext; [now apply proto_ipv6_builds|done|lia].
  - eapply builds_ext; [apply (lt_builds E v); pose proof (Hl eq_refl); lia|done|lia].
Qed.

(** ** Ports *)

Definition p_first_fragment : fpred := p_not (p_set E OR_NET SzH 6 0x1fff).

Lemma ipfrag_builds : builds E gen_ipfrag p_first_fragment 6.
Proof.
  unfold gen_ipfrag, builds. apply (set_bind E [] OR_NET SzH 6 6 0x1fff); [reflexivity|gside|lia|].
  intros b. grun; [reflexivity|lia].
Qed.
#[local] Hint Resolve ipfrag_builds : gen.

(** The port at an offset of the transport header, compared, or looked for in a range. *)
Definition p_port_is (o : e_offrel) (off port : Z) : fpred := p_is E o SzH off port.
Definition p_port_in (o : e_offrel) (off port1 port2 : Z) : fpred :=
  p_and (p_field E o SzH off 0xffffffff JGE false (Z.min port1 port2))
        (p_field E o SzH off 0xffffffff JGT true (Z.max port1 port2)).
Definition is_port (port : Z) : bool := (0 <=? port) && (port <? 65536).

Lemma portatom_builds off port : 0 <= off < 64 -> is_port port = true ->
  builds E (gen_portatom off port) (p_port_is OR_TRAN_IPV4 off port) 12.
Proof. intros Ho Hp. unfold is_port in Hp. unfold gen_portatom, p_port_is. grun; [done|lia]. Qed.
Lemma portatom6_builds off port : 0 <= off < 64 -> is_port port = true ->
  builds E (gen_portatom6 off port) (p_port_is OR_TRAN_IPV6 off port) 12.
Proof. intros Ho Hp. unfold is_port in Hp. unfold gen_portatom6, p_port_is. grun; [done|lia]. Qed.

Lemma min_max (a b : Z) : (if b <? a then (b, a) else (a, b)) = (Z.min a b, Z.max a b).
Proof. destruct (Z.ltb_spec b a); f_equal; lia. Qed.

Lemma portrangeatom_builds off port1 port2 : 0 <= off < 64 -> is_port port1 = true -> is_port port2 = true ->
  builds E (gen_portrangeatom off port1 port2) (p_port_in OR_TRAN_IPV4 off port1 port2) 12.
Proof.
  intros Ho H1 H2. unfold is_port in *. unfold gen_portrangeatom, p_port_in. rewrite min_max. grun; [done|lia].
Qed.
Lemma portrangeatom6_builds off port1 port2 : 0 <= off < 64 -> is_port port1 = true -> is_port port2 = true ->
  builds E (gen_portrangeatom6 off port1 port2) (p_port_in OR_TRAN_IPV6 off port1 port2) 12.
Proof.
  intros Ho H1 H2. unfold is_port in *. unfold gen_portrangeatom6, p_port_in. rewrite min_max. grun; [done|lia].
Qed.

(** Over IPv4: not a later fragment, and the port; the transport header is after the IPv4
    header, options included. Over IPv6: no extension headers are looked through. *)
Definition p_portop (f : Z -> fpred) (dir proto : Z) : fpred :=
  p_and (p_and (p_is E OR_NET SzB 9 proto) p_first_fragment) (p_dir dir (f 0) (f 2)).
Definition p_portop6 (f : Z -> fpred) (dir proto : Z) : fpred :=
  p_and (p_is E OR_NET SzB 6 proto) (p_dir dir (f 0) (f 2)).

Section Atoms.
Context (atom : Z -> G nat) (f : Z -> fpred) (dir proto : Z).
Context (Hatom : forall off, 0 <= off < 64 -> builds E (atom off) (f off) 12).
Context (Hdir : dir_ok dir = true) (Hproto : 0 <= proto < 256).

Lemma port_dir_builds : builds E (gen_port_dir atom dir) (p_dir dir (f 0) (f 2)) 24.
Proof using Hatom Hdir.
  change 24 with (2 * 12).
  apply (dir_builds (fun dir => gen_port_dir atom dir) (fun _ => abort) (atom 0) (atom 2)); [|done|lia|apply Hatom; lia..].
  intros d. unfold gen_port_dir. destruct (d =? Q_SRC) eqn:E1; [done|]. destruct (d =? Q_DST) eqn:E2; [done|].
  destruct (one_of d [Q_OR; Q_DEFAULT]) eqn:E3; [|done].
  now destruct (one_of_cases _ _ E3) as [<-|[<-|[]]].
Qed.

Lemma portop_with_builds : builds E (gen_portop_with atom proto dir) (p_portop f dir proto) 36.
Proof using All.
  pose proof port_dir_builds. unfold gen_portop_with, p_portop. grun; [reflexivity|lia].
Qed.
Lemma portop6_with_builds : builds E (gen_portop6_with atom proto dir) (p_portop6 f dir proto) 36.
Proof using All.
  pose proof port_dir_builds. unfold gen_portop6_with, p_portop6. grun; [reflexivity|lia].
Qed.
End Atoms.

(** Any of the three transport protocols when none is named. *)
Definition p_transport (ethertype : Z) (f : Z -> fpred) (ip_proto : Z) : fpred :=
  p_and (lt_pred E ethertype)
    (if ip_proto =? PROTO_UNDEF then p_or (f IPPROTO_SCTP) (p_or (f IPPROTO_TCP) (f IPPROTO_UDP)) else f ip_proto).
Definition transport_ok (ip_proto : Z) : bool := one_of ip_proto [IPPROTO_UDP; IPPROTO_TCP; IPPROTO_SCTP; PROTO_UNDEF].

Lemma port_with_builds ethertype op f ip_proto :
  (forall p, 0 <= p < 256 -> builds E (op p) (f p) 36) -> 0 <= ethertype < 2 ^ 16 -> transport_ok ip_proto = true ->
  builds E (gen_port_with ethertype op ip_proto) (p_transport ethertype f ip_proto) 188.
Proof.
  intros Hop He Ht. unfold gen_port_with, p_transport.
  pose proof (Hop IPPROTO_TCP ltac:(done)). pose proof (Hop IPPROTO_UDP ltac:(done)). pose proof (Hop IPPROTO_SCTP ltac:(done)).
  destruct (one_of_cases _ _ Ht) as [<-|[<-|[<-|[<-|[]]]]].
  all: repeat match goal with |- context [if ?c then _ else _] => let v := eval vm_compute in c in change c with v; cbn match end.
  all: grun; try reflexivity; lia.
Qed.
End Tests.

Section Ports.
Context `{LP : LinkPred} (E : genv) `{!LinkTests E}.

Definition p_port (port ip_proto dir : Z) : fpred :=
  p_transport E ETHERTYPE_IP (p_portop E (fun off => p_port_is E OR_TRAN_IPV4 off port) dir) ip_proto.
Definition p_port6 (port ip_proto dir : Z) : fpred :=
  p_transport E ETHERTYPE_IPV6 (p_portop6 E (fun off => p_port_is E OR_TRAN_IPV6 off port) dir) ip_proto.
Definition p_portrange (port1 port2 ip_proto dir : Z) : fpred :=
  p_transport E ETHERTYPE_IP (p_portop E (fun off => p_port_in E OR_TRAN_IPV4 off port1 port2) dir) ip_proto.
Definition p_portrange6 (port1 port2 ip_proto dir : Z) : fpred :=
  p_transport E ETHERTYPE_IPV6 (p_portop6 E (fun off => p_port_in E OR_TRAN_IPV6 off port1 port2) dir) ip_proto.

Lemma port_builds port ip_proto dir : is_port port = true -> transport_ok ip_proto = true -> dir_ok dir = true ->
  builds E (gen_port port ip_proto dir) (p_port port ip_proto dir) 188.
Proof.
  intros Hp Ht Hd. apply (port_with_builds E); [|done|done]. intros p Hr.
  apply (portop_with_builds E); [intros; now apply portatom_builds|done|done].
Qed.
Lemma port6_builds port ip_proto dir : is_port port = true -> transport_ok ip_proto = true -> dir_ok dir = true ->
  builds E (gen_port6 port ip_proto dir) (p_port6 port ip_proto dir) 188.
Proof.
  intros Hp Ht Hd. apply (port_with_builds E); [|done|done]. intros p Hr.
  apply (portop6_with_builds E); [intros; now apply portatom6_builds|done|done].
Qed.
Lemma portrange_builds port1 port2 ip_proto dir :
  is_port port1 = true -> is_port port2 = true -> transport_ok ip_proto = true -> dir_ok dir = true ->
  builds E (gen_portrange port1 port2 ip_proto dir) (p_portrange port1 port2 ip_proto dir) 188.
Proof.
  intros H1 H2 Ht Hd. apply (port_with_builds E); [|done|done]. intros p Hr.
  apply (portop_with_builds E); [intros; now apply portrangeatom_builds|done|done].
Qed.
Lemma portrange6_builds port1 port2 ip_proto dir :
  is_port port1 = true -> is_port port2 = true -> transport_ok ip_proto = true -> dir_ok dir = true ->
  builds E (gen_portrange6 port1 port2 ip_proto dir) (p_portrange6 port1 port2 ip_proto dir) 188.
Proof.
  intros H1 H2 Ht Hd. apply (port_with_builds E); [|done|done]. intros p Hr.
  apply (portop6_with_builds E); [intros; now apply portrangeatom6_builds|done|done].
Qed.
End Ports.

(** ** The length of the packet, and bytes of the link-layer header *)

Section Bytes.
Context (E : genv) `{!PlainLink E}.

Definition p_len (op : jmp_op) (n : Z) : fpred := fun _ w => Some (jmp_test op w n).

Lemma len_builds op n : 0 <= n < 2 ^ 32 -> builds E (gen_len (jmp_bits op) n) (p_len op n) 4.
Proof.
  intros Hn. unfold gen_len, builds. apply new_stmt_bind. intros a. apply triple_bind_ret.
  eapply (new_test_bind _ _ op _ (fun _ w => Some w) n 1).
  - split; [reflexivity|]. intros p w r Hp Hr. exists (set_A w r). destruct Hp as [_ Hw].
    split; [|split; [done|now apply wf_set_A]].
    cbn [exec_stmts sn_s s_code]. replace (_ =? NOP) with false by reflexivity.
    unfold exec_insn, insn_of_stmt. cbn [s_code s_k i_code].
    replace (decode_op _) with (Some LD_LEN) by reflexivity. reflexivity.
  - vm_compute. intros [=].
  - intros b. gstep fail; [|lia]. intros p w _. unfold p_test, p_len. now rewrite (u32_id n).
Qed.

Lemma greater_builds n : 0 <= n < 2 ^ 32 -> builds E (gen_greater n) (p_len JGE n) 4.
Proof. intros Hn. now apply (len_builds JGE). Qed.

Definition p_at_most (n : Z) : fpred := fun _ w => Some (w <=? n).
Lemma less_builds n : 0 <= n < 2 ^ 32 -> builds E (gen_less n) (p_at_most n) 4.
Proof.
  intros Hn. unfold gen_less. pose proof (len_builds JGT n Hn) as H. change (jmp_bits JGT) with BPF_JGT in H.
  grun; [|lia]. intros p w _. unfold p_not, p_len, p_at_most. cbn. now rewrite Z.leb_antisym.
Qed.

(** The comparisons of [byte]; [idx] relative to the link-layer header. *)
Definition p_byte (op idx val : Z) : fpred :=
  if op =? 61 then p_is E OR_LINK SzB idx val
  else if op =? 60 then p_field E OR_LINK SzB idx 0xffffffff JGE true val
  else p_field E OR_LINK SzB idx 0xffffffff JGT false val.

Lemma byteop_builds op idx val : one_of op [61; 60; 62] = true -> 0 <= idx < 2 ^ 20 -> 0 <= val < 2 ^ 32 ->
  builds E (gen_byteop op idx val) (p_byte op idx val) 6.
Proof.
  intros Ho Hi Hv. unfold gen_byteop, p_byte.
  destruct (one_of_cases _ _ Ho) as [<-|[<-|[<-|[]]]]; cbn [Z.eqb Pos.eqb]; grun; try reflexivity; lia.
Qed.
End Bytes.

(** ** IP broadcast and multicast *)

Section Multicast.
Context `{LP : LinkPred} (E : genv) `{!LinkTests E}.

Definition p_multicast (proto : Z) : fpred :=
  if proto =? Q_IP then p_and (lt_pred E ETHERTYPE_IP) (p_field E OR_NET SzB 16 0xffffffff JGE false 224)
  else p_and (lt_pred E ETHERTYPE_IPV6) (p_is E OR_NET SzB 24 255).

Lemma multicast_builds proto : one_of proto [Q_IP; Q_IPV6] = true ->
  builds E (gen_multicast proto) (p_multicast proto) 86.
Proof.
  intros Hp. unfold gen_multicast, p_multicast.
  destruct (one_of_cases _ _ Hp) as [<-|[<-|[]]]; unfold builds; branch; cbn [Z.eqb Pos.eqb Q_IP Q_IPV6]; grun; try reflexivity; lia.
Qed.

(** The host part of the destination is all zeros or all ones. *)
Definition p_broadcast : fpred :=
  let host := u32 (Z.lnot (netmask E)) in
  p_and (lt_pred E ETHERTYPE_IP) (p_or (p_masked E OR_NET SzW 16 0 host) (p_masked E OR_NET SzW 16 host host)).

Lemma broadcast_builds : 0 <= netmask E < 0xffffffff -> builds E (gen_broadcast Q_IP) p_broadcast 92.
Proof.
  intros Hm. unfold gen_broadcast, p_broadcast, p_masked, builds. branch. gstep fail.
  replace (netmask E =? PCAP_NETMASK_UNKNOWN) with false by (symmetry; apply Z.eqb_neq; unfold PCAP_NETMASK_UNKNOWN; lia).
  cbn zeta. pose proof (u32_range (Z.lnot (netmask E))) as Hr.
  replace (u32 (Z.lnot 0 &&& u32 (Z.lnot (netmask E)))) with (u32 (Z.lnot (netmask E)))
    by (change (Z.lnot 0) with (-1); rewrite Z.land_m1_l; now rewrite u32_u32).
  set (host := u32 (Z.lnot (netmask E))) in *. clearbody host. grun; [reflexivity|lia].
Qed.
End Multicast.

(** * What the tests of IPv6 and hardware addresses and of named protocols decide

    More tests proved against the interface [LinkTests]: addresses of IPv6 under a mask,
    Ethernet addresses, and the abbreviations of [gen_proto_abbrev]. *)


(** The [i]th word of a 16-byte address. *)
Definition word6 (a : list byte) (i : nat) : Z := be_val (take 4 (drop (4 * i) a)).

Lemma extract_word6 a i : length a = 16%nat -> (i < 4)%nat -> extract SzW a (4 * Z.of_nat i) = Some (word6 a i).
Proof.
  intros Ha Hi. unfold extract, word6. rewrite bytes_at_Some. cbn [size_bytes].
  destruct (Z.leb_spec 0 (4 * Z.of_nat i)); [|lia]. destruct (Z.leb_spec (4 * Z.of_nat i + Z.of_nat 4) (Z.of_nat (length a))); [|lia].
  replace (Z.to_nat (4 * Z.of_nat i)) with (4 * i)%nat by lia. reflexivity.
Qed.

Lemma word6_range a i : 0 <= word6 a i < 2 ^ 32.
Proof.
  unfold word6. pose proof (be_val_range (take 4 (drop (4 * i) a))) as Hr.
  rewrite length_take in Hr. assert (256 ^ Z.of_nat (4 `min` length (drop (4 * i) a)) <= 256 ^ 4) by (apply Z.pow_le_mono_r; lia).
  lia.
Qed.

Section Addresses.
Context `{LP : LinkPred} (E : genv) `{!LinkTests E}.

(** ** IPv6 *)

Definition p_word6 (addr mask : list byte) (offset : Z) (i : nat) : fpred :=
  p_masked E OR_NET SzW (offset + 4 * Z.of_nat i) (word6 addr i) (word6 mask i).
Definition p_host6_at (addr mask : list byte) (proto offset : Z) : fpred :=
  p_and (lt_pred E proto)
    (p_and (p_word6 addr mask offset 0) (p_and (p_word6 addr mask offset 1)
      (p_and (p_word6 addr mask offset 2) (p_word6 addr mask offset 3)))).

Lemma in6_bind {B} L a i (k : Z -> G B) Q : length a = 16%nat -> (i < 4)%nat ->
  triple E L (k (word6 a i)) E Q -> triple E L (in6_word a (Z.of_nat i) ≫= k) E Q.
Proof. intros Ha Hi Hk. unfold in6_word. rewrite extract_word6 by done. now apply triple_deref. Qed.

Lemma host6_at_builds addr mask proto offset :
  length addr = 16%nat -> length mask = 16%nat -> 0 <= proto < 2 ^ 16 -> 0 <= offset < 64 ->
  builds E (gen_hostop6_at addr mask proto offset) (p_host6_at addr mask proto offset) 104.
Proof.
  intros Ha Hm Hp Ho. unfold gen_hostop6_at, p_host6_at, p_word6, p_masked, builds.
  pose proof (word6_range addr). pose proof (word6_range mask).
  assert (forall i sz off, (i < 4)%nat -> off = u32 (offset + 4 * Z.of_nat i) -> sz = BPF_W ->
    builds E (gen_mcmp OR_NET off sz (word6 addr i) (word6 mask i))
      (p_field E OR_NET SzW (offset + 4 * Z.of_nat i) (word6 mask i) JEQ false (word6 addr i)) 6) as Hw.
  { intros i sz off Hi -> ->. change BPF_W with (size_bits SzW). change (gen_mcmp ?o ?x ?s ?v ?m) with (gen_ncmp o x s m (jmp_bits JEQ) false v).
    apply (field_at E OR_NET SzW _ (offset + 4 * Z.of_nat i)); [done|gside|auto|auto|done]. }
  change 3 with (Z.of_nat 3). change 2 with (Z.of_nat 2). change 1 with (Z.of_nat 1). change (in6_word ?a 0) with (in6_word a (Z.of_nat 0)).
  do 2 (apply in6_bind; [done|lia|]).
  eapply builds_bind; [apply (Hw 3%nat); [lia|f_equal; lia|done]|]. intros b1.
  do 2 (apply in6_bind; [done|lia|]).
  eapply builds_bind; [apply (Hw 2%nat); [lia|f_equal; lia|done]|]. intros b2. gstep fail.
  do 2 (apply in6_bind; [done|lia|]).
  eapply builds_bind; [apply (Hw 1%nat); [lia|f_equal; lia|done]|]. intros b3. gstep fail.
  do 2 (apply in6_bind; [done|lia|]).
  eapply builds_bind; [apply (Hw 0%nat); [lia|rewrite u32_id; lia|done]|]. intros b4. gstep fail.
  grun; [reflexivity|lia].
Qed.

Definition p_host6 (addr mask : list byte) (dir : Z) : fpred :=
  p_dir dir (p_host6_at addr mask ETHERTYPE_IPV6 8) (p_host6_at addr mask ETHERTYPE_IPV6 24).

Lemma host6_builds addr mask proto dir :
  length addr = 16%nat -> length mask = 16%nat -> one_of proto [Q_DEFAULT; Q_IPV6] = true -> dir_ok dir = true ->
  builds E (gen_host6 addr mask proto dir) (p_host6 addr mask dir) 208.
Proof.
  intros Ha Hm Hp Hd. unfold gen_host6, p_host6. rewrite Hp. change 208 with (2 * 104).
  apply (dir_builds E (fun dir => gen_hostop6 addr mask dir ETHERTYPE_IPV6 8 24) (fun _ => abort)
    (gen_hostop6_at addr mask ETHERTYPE_IPV6 8) (gen_hostop6_at addr mask ETHERTYPE_IPV6 24));
    [reflexivity|done|lia|now apply host6_at_builds..].
Qed.

(** ** Ethernet addresses *)

Definition p_ehost (eaddr : list byte) (dir : Z) : fpred :=
  p_dir dir (p_run E OR_LINK (off_mac (g_link E) + 6) eaddr) (p_run E OR_LINK (off_mac (g_link E)) eaddr).

Lemma ehost_at_builds eaddr k : length eaddr = 6%nat -> 0 <= off_mac (g_link E) < 2 ^ 19 -> 0 <= k < 64 ->
  builds E (gen_ehostop_at eaddr k) (p_run E OR_LINK (off_mac (g_link E) + k) eaddr) 36.
Proof.
  intros He Hm Hk. unfold gen_ehostop_at, builds. gstep fail. eapply builds_ext; [|done|].
  - apply (run_at E OR_LINK _ (off_mac (g_link E) + k)); [done|done|gside|rewrite He; reflexivity|lia].
  - lia.
Qed.

Lemma ehost_builds eaddr dir : length eaddr = 6%nat -> 0 <= off_mac (g_link E) < 2 ^ 19 -> dir_ok dir = true ->
  builds E (gen_ehostop eaddr dir) (p_ehost eaddr dir) 72.
Proof.
  intros He Hm Hd. unfold p_ehost. rewrite <- (Z.add_0_r (off_mac (g_link E))) at 2. change 72 with (2 * 36).
  eapply (dir_builds E (fun dir => gen_ehostop eaddr dir) _ (gen_ehostop_at eaddr 6) (gen_ehostop_at eaddr 0));
    [|done|lia|apply ehost_at_builds; [done|done|lia]..].
  intros d. unfold gen_ehostop. destruct (d =? Q_SRC) eqn:E1; [done|]. destruct (d =? Q_DST) eqn:E2; [done|].
  destruct (d =? Q_AND) eqn:E3; [done|].
  replace (one_of d [Q_OR; Q_DEFAULT]) with (one_of d [Q_DEFAULT; Q_OR])
    by (cbn [one_of existsb]; destruct (d =? Q_OR), (d =? Q_DEFAULT); reflexivity).
  reflexivity.
Qed.

(** ** Named protocols *)

(** Over IPv6 or IPv4. *)
Definition p_proto_both (v : Z) : fpred := p_or (p_proto_ipv6 E v) (p_proto_ip E v).

Lemma proto_both_builds v : 0 <= v < 2 ^ 32 -> builds E (gen_proto_both v) (p_proto_both v) 184.
Proof.
  intros Hv. unfold gen_proto_both, p_proto_both, builds.
  change (gen_proto v Q_IP Q_DEFAULT) with (gen_proto_ip v). change (gen_proto v Q_IPV6 Q_DEFAULT) with (gen_proto_ipv6 v).
  eapply builds_bind; [now apply proto_ip_builds|]. intros b1.
  eapply builds_bind; [now apply proto_ipv6_builds|]. intros b0. grun; [reflexivity|lia].
Qed.

(** What an abbreviation is a test of: a protocol over both versions of IP, over one of
    them, or a link-layer type. *)
Inductive abbrev := OverBoth (v : Z) | OverIp (v : Z) | OverIpv6 (v : Z) | OverLink (proto : Z).

Definition abbrevs : list (Z * abbrev) :=
  [(Q_SCTP, OverBoth IPPROTO_SCTP); (Q_TCP, OverBoth IPPROTO_TCP); (Q_UDP, OverBoth IPPROTO_UDP);
   (Q_ICMP, OverIp IPPROTO_ICMP); (Q_IGMP, OverIp IPPROTO_IGMP); (Q_IGRP, OverIp IPPROTO_IGRP);
   (Q_PIM, OverBoth IPPROTO_PIM); (Q_VRRP, OverIp IPPROTO_VRRP); (Q_CARP, OverIp IPPROTO_CARP);
   (Q_IP, OverLink ETHERTYPE_IP); (Q_ARP, OverLink ETHERTYPE_ARP); (Q_RARP, OverLink ETHERTYPE_REVARP);
   (Q_ATALK, OverLink ETHERTYPE_ATALK); (Q_AARP, OverLink ETHERTYPE_AARP); (Q_DECNET, OverLink ETHERTYPE_DN);
   (Q_SCA, OverLink ETHERTYPE_SCA); (Q_LAT, OverLink ETHERTYPE_LAT); (Q_MOPDL, OverLink ETHERTYPE_MOPDL);
   (Q_MOPRC, OverLink ETHERTYPE_MOPRC); (Q_IPV6, OverLink ETHERTYPE_IPV6); (Q_ICMPV6, OverIpv6 IPPROTO_ICMPV6);
   (Q_AH, OverBoth IPPROTO_AH); (Q_ESP, OverBoth IPPROTO_ESP); (Q_ISO, OverLink LLCSAP_ISONS);
   (Q_STP, OverLink LLCSAP_8021D); (Q_IPX, OverLink LLCSAP_IPX); (Q_NETBEUI, OverLink LLCSAP_NETBEUI)].

Definition abbrev_of (proto : Z) : option abbrev := snd <$> List.find (fun a => proto =? fst a) abbrevs.

Definition p_abbrev (a : abbrev) : fpred :=
  match a with
  | OverBoth v => p_proto_both v
  | OverIp v => p_proto_ip E v
  | OverIpv6 v => p_proto_ipv6 E v
  | OverLink proto => lt_pred E proto
  end.

(** The generator of each, and the values it takes. *)
Definition gen_abbrev (a : abbrev) : G nat :=
  match a with
  | OverBoth v => gen_proto_both v
  | OverIp v => gen_proto_ip v
  | OverIpv6 v => gen_proto_ipv6 v
  | OverLink proto => gen_linktype proto
  end.
Definition abbrev_value (a : abbrev) : Z :=
  match a with OverBoth v | OverIp v | OverIpv6 v | OverLink v => v end.

Lemma abbrevs_generated :
  Forall (fun '(proto, a) => gen_proto_abbrev proto = gen_abbrev a /\ 0 <= abbrev_value a < 2 ^ 16) abbrevs.
Proof. repeat (constructor; [split; [reflexivity|vm_compute; split; [intros [=]|reflexivity]]|]). constructor. Qed.

Lemma abbrev_builds proto a : abbrev_of proto = Some a -> builds E (gen_proto_abbrev proto) (p_abbrev a) 184.
Proof.
  unfold abbrev_of. destruct (List.find _ abbrevs) as [[q a']|] eqn:Ef; [|done]. intros [= <-].
  apply find_some in Ef as [Hin Hq]. cbn [fst] in Hq. apply Z.eqb_eq in Hq as ->.
  pose proof abbrevs_generated as Hg. rewrite List.Forall_forall in Hg. destruct (Hg _ Hin) as [-> Hr]. clear Hg Hin.
  destruct a'; cbn [gen_abbrev p_abbrev abbrev_value] in *.
  - apply proto_both_builds. lia.
  - eapply builds_ext; [apply (proto_ip_builds E); lia|done|lia].
  - eapply builds_ext; [apply (proto_ipv6_builds E); lia|done|lia].
  - eapply builds_ext; [apply (lt_builds E); exact Hr|done|lia].
Qed.
End Addresses.
