(* ===== verification/GenArithProofs.v ===== *)
(** * Arithmetic expressions compute their value

    A register is found while one is free; the statements of an arithmetic expression leave
    its value in a register that was free, keep the registers in use, and reject a packet
    that is too short for a load or a division by 0. Shifts must be known to be by less than
    32 bits and indices to be far from wrapping, which [arith_ok] checks by bounds on the
    values of subexpressions. *)
From stdpp Require Import base numbers list gmap.
From Stdlib Require Import Strings.Byte.
From S2P Require Import Prelude BpfInsn BpfFilter BpfFilterProofs Icode Gencode GencodeFilter Layout LayoutProofs LayoutConvert LayoutLoop Compile LinkType GenConst GenState GenLoad GenLink GenHost GenPort GenArth GenMisc GenName GenExpr GenLogic GenTriple GenLoadProofs GenLinkProofs GenTestProofs.
Open Scope Z_scope.

(** ** Registers *)

Definition nfree (used : list bool) : nat := length (List.filter negb used).

(** The table has its 16 entries and the register to try is one of them. *)
Definition regs_ok (r : registers) : Prop := length (regused r) = 16%nat /\ 0 <= curreg r < 16.

(** One more register in use, [n], from [r] to [r']. *)
Record takes (r r' : registers) (n : Z) : Prop := {
  tk_ok : regs_ok r';
  tk_range : 0 <= n < 16;
  tk_free : regused r !! Z.to_nat n = Some false;
  tk_used : regused r' = <[Z.to_nat n := true]> (regused r)
}.

Lemma nfree_insert used (i : nat) : used !! i = Some false -> nfree used = S (nfree (<[i := true]> used)).
Proof.
  unfold nfree. revert i; induction used as [|b used IH]; intros [|i]; cbn; try done.
  - now intros [= ->].
  - intros Hi. specialize (IH _ Hi). destruct b; cbn; [done|]. now rewrite IH.
Qed.

Lemma nfree_lookup used : (0 < nfree used)%nat -> exists i : nat, used !! i = Some false.
Proof.
  unfold nfree. induction used as [|[] used IH]; cbn; [lia| |].
  - intros H. destruct (IH H) as [i Hi]. now exists (S i).
  - intros _. now exists 0%nat.
Qed.

Lemma find_reg_found n used cur (i : nat) : length used = 16%nat -> 0 <= cur < 16 ->
  used !! i = Some false -> (Z.of_nat i - cur) mod 16 < Z.of_nat n ->
  exists k, find_reg n used cur = Some (k, <[Z.to_nat k := true]> used) /\ 0 <= k < 16 /\ used !! Z.to_nat k = Some false.
Proof.
  intros Hl. revert cur; induction n as [|n IH]; intros cur Hc Hi Hd; [pose proof (Z.mod_pos_bound (Z.of_nat i - cur) 16); lia|].
  cbn [find_reg]. destruct (lookup_lt_is_Some_2 used (Z.to_nat cur)) as [b Hb]; [lia|]. rewrite Hb. cbn [default].
  destruct b; [|exists cur; auto]. unfold BPF_MEMWORDS. apply IH; [apply Z.mod_pos_bound; lia|done|].
  assert (Z.of_nat i <> cur) as Hne by (intros <-; rewrite Nat2Z.id in Hb; congruence).
  apply lookup_lt_Some in Hi. rewrite Zminus_mod_idemp_r. rewrite Nat2Z.inj_succ in Hd.
  replace (Z.of_nat i - (cur + 1)) with (Z.of_nat i - cur - 1) by lia. Z.div_mod_to_equations. lia.
Qed.

Lemma alloc_found r : regs_ok r -> (0 < nfree (regused r))%nat ->
  exists n, find_reg (Z.to_nat BPF_MEMWORDS) (regused r) (curreg r) = Some (n, <[Z.to_nat n := true]> (regused r)) /\
    takes r (mk_registers (<[Z.to_nat n := true]> (regused r)) n (reg_off_ll r) (reg_off_macpl r)) n.
Proof.
  intros [Hl Hc] Hf. destruct (nfree_lookup _ Hf) as [i Hi].
  destruct (find_reg_found (Z.to_nat BPF_MEMWORDS) (regused r) (curreg r) i Hl Hc Hi) as (k & Ek & Hk & Hu).
  { pose proof (Z.mod_pos_bound (Z.of_nat i - curreg r) 16). unfold BPF_MEMWORDS. lia. }
  exists k. split; [exact Ek|]. split; [|done|done|reflexivity].
  split; [cbn [regused]; now rewrite length_insert|done].
Qed.

(** A register is found, and marked. *)
Lemma alloc_spec r : regs_ok r -> (0 < nfree (regused r))%nat ->
  exists n r', takes r r' n /\
    forall B E L (k : Z -> G B) E' Q,
      triple (with_regs r' E) L (k n) E' Q -> triple (with_regs r E) L (alloc_reg ≫= k) E' Q.
Proof.
  intros Hr Hf. destruct (alloc_found r Hr Hf) as (n & En & Ht). eexists n, _. split; [exact Ht|].
  intros B E L k E' Q Hk. unfold alloc_reg. apply triple_bind_assoc, triple_getv. cbn [g_regs with_regs]. rewrite En.
  apply triple_bind_assoc, triple_setv, triple_ret_bind. exact Hk.
Qed.

(** The registers after [free_reg n]. *)
Definition freed (n : Z) (r : registers) : registers :=
  mk_registers (<[Z.to_nat n := false]> (regused r)) (curreg r) (reg_off_ll r) (reg_off_macpl r).

Lemma free_bind {B} E L r n (k : unit -> G B) E' Q :
  triple (with_regs (freed n r) E) L (k tt) E' Q -> triple (with_regs r E) L (free_reg n ≫= k) E' Q.
Proof. intros Hk. unfold free_reg. apply triple_setv. exact Hk. Qed.

Lemma freed_ok n r : regs_ok r -> regs_ok (freed n r).
Proof. intros [Hl Hc]. split; [cbn [freed regused]; now rewrite length_insert|done]. Qed.

(** Freeing what was taken. *)
Lemma freed_takes r r' n : takes r r' n -> regused (freed n r') = regused r.
Proof. intros [_ _ Hf Hu]. cbn [freed regused]. rewrite Hu, list_insert_insert_eq. now apply list_insert_id. Qed.

(** Freeing the first of two. *)
Lemma freed_first r r1 r2 n1 n2 : takes r r1 n1 -> takes r1 r2 n2 -> takes r (freed n1 r2) n2 /\ n1 <> n2.
Proof.
  intros [H1 R1 F1 U1] [H2 R2 F2 U2].
  assert (Z.to_nat n1 <> Z.to_nat n2) as Hne.
  { intros Heq. rewrite U1, <- Heq, list_lookup_insert_eq in F2 by (apply lookup_lt_Some in F1; lia). discriminate F2. }
  split; [|congruence]. split; [now apply freed_ok|done| |].
  - rewrite U1, list_lookup_insert_ne in F2 by done. exact F2.
  - cbn [freed regused]. rewrite U2, U1, (list_insert_insert_ne _ (Z.to_nat n1) (Z.to_nat n2)) by done.
    rewrite list_insert_insert_eq. f_equal. now apply list_insert_id.
Qed.

(** ** Single statements *)

Section Statements.
Context (p : list byte) (w : Z) (Hp : packet_ok p w).
Abbreviation N := (Z.of_nat (length p)).
Abbreviation node a c k := (mk_snode a (mk_stmt c None None (s32 k))).

Lemma exec_one a c k ss r o : (c =? NOP) = false -> decode_op (u16 c) = Some o ->
  exec_stmts p w N (node a c k :: ss) r =
  match exec_op o p w N (insn_of_stmt (mk_stmt c None None (s32 k))) r with
  | Next d r' => if d =? 0 then exec_stmts p w N ss r' else inr (Fault (BadPc d))
  | Stop o => inr o
  end.
Proof. intros Hn Hd. cbn [exec_stmts sn_s s_code]. rewrite Hn. unfold exec_insn, insn_of_stmt at 1. cbn [i_code s_code]. now rewrite Hd. Qed.

Lemma node_k c k : i_k (insn_of_stmt (mk_stmt c None None (s32 k))) = u32 k.
Proof. cbn. apply u32_s32. Qed.

(** The value a scratch register holds. *)
Definition holds (r : regs) (n v : Z) : Prop := load_mem (rmem r) n = Some v.

Lemma exec_st a n ss r : wf_regs r -> 0 <= n < 16 ->
  exists m, exec_stmts p w N (node a BPF_ST n :: ss) r = exec_stmts p w N ss (set_mem m r) /\
    wf_regs (set_mem m r) /\ holds (set_mem m r) n (rA r) /\
    forall i v, i <> n -> holds r i v -> holds (set_mem m r) i v.
Proof.
  intros Hr Hn. rewrite (exec_one _ _ _ _ _ ST) by reflexivity. cbn [exec_op exec_reg]. rewrite node_k, u32_id by lia.
  pose proof (wf_mem _ Hr) as Hm. unfold store_mem. destruct (at_Z_Some (rmem r) n ltac:(unfold BPF_MEMWORDS in Hm; lia)) as [x Hx].
  rewrite Hx. eexists. split; [reflexivity|]. pose proof (wf_A _ Hr).
  assert (Z.to_nat n < length (rmem r))%nat as Hlt by (apply at_Z_bound in Hx; lia).
  split; [apply wf_set_mem; [done|now rewrite length_insert]|]. unfold holds, load_mem, at_Z in *. cbn [rmem set_mem].
  split.
  - destruct (Z.ltb_spec n 0); [lia|]. rewrite list_lookup_insert_eq by done. cbn. now rewrite u32_s32, u32_id.
  - intros i v Hne Hi. destruct (Z.ltb_spec i 0); [done|]. rewrite list_lookup_insert_ne by lia. exact Hi.
Qed.

Lemma exec_ld_mem a n v ss r : holds r n v -> 0 <= n < 16 ->
  exec_stmts p w N (node a (BPF_LD ||| BPF_MEM) n :: ss) r = exec_stmts p w N ss (set_A v r).
Proof.
  intros Hv Hn. rewrite (exec_one _ _ _ _ _ LD_MEM) by reflexivity. cbn [exec_op exec_reg]. rewrite node_k, u32_id by lia.
  unfold holds in Hv. now rewrite Hv.
Qed.

Lemma exec_ldx_mem a n v ss r : holds r n v -> 0 <= n < 16 ->
  exec_stmts p w N (node a (BPF_LDX ||| BPF_MEM) n :: ss) r = exec_stmts p w N ss (set_X v r).
Proof.
  intros Hv Hn. rewrite (exec_one _ _ _ _ _ LDX_MEM) by reflexivity. cbn [exec_op exec_reg]. rewrite node_k, u32_id by lia.
  unfold holds in Hv. now rewrite Hv.
Qed.

Lemma exec_imm a k ss r :
  exec_stmts p w N (node a (BPF_LD ||| BPF_IMM) k :: ss) r = exec_stmts p w N ss (set_A (u32 k) r).
Proof. rewrite (exec_one _ _ _ _ _ LD_IMM) by reflexivity. cbn [exec_op exec_reg]. now rewrite node_k. Qed.

Lemma exec_len a k ss r :
  exec_stmts p w N (node a (BPF_LD ||| BPF_LEN) k :: ss) r = exec_stmts p w N ss (set_A w r).
Proof. now rewrite (exec_one _ _ _ _ _ LD_LEN) by reflexivity. Qed.

Lemma exec_tax a k ss r :
  exec_stmts p w N (node a (BPF_MISC ||| BPF_TAX) k :: ss) r = exec_stmts p w N ss (set_X (rA r) r).
Proof. now rewrite (exec_one _ _ _ _ _ TAX) by reflexivity. Qed.

Lemma exec_neg_stmt a k ss r :
  exec_stmts p w N (node a (BPF_ALU ||| BPF_NEG) k :: ss) r = exec_stmts p w N ss (set_A (u32 (- rA r)) r).
Proof. now rewrite (exec_one _ _ _ _ _ NEG) by reflexivity. Qed.

(** The operations of the language. *)
Definition op_of (code : Z) : option alu_op :=
  if code =? BPF_ADD then Some ADD else if code =? BPF_SUB then Some SUB else if code =? BPF_MUL then Some MUL
  else if code =? BPF_DIV then Some DIV else if code =? BPF_AND then Some AND else if code =? BPF_OR then Some OR
  else if code =? BPF_LSH then Some LSH else if code =? BPF_RSH then Some RSH else None.

Lemma op_of_cases (P : Z -> alu_op -> Prop) :
  P BPF_ADD ADD -> P BPF_SUB SUB -> P BPF_MUL MUL -> P BPF_DIV DIV -> P BPF_AND AND -> P BPF_OR OR ->
  P BPF_LSH LSH -> P BPF_RSH RSH -> forall code op, op_of code = Some op -> P code op.
Proof.
  intros H1 H2 H3 H4 H5 H6 H7 H8 code op. unfold op_of.
  repeat match goal with |- context [code =? ?c] => destruct (Z.eqb_spec code c) as [->|]; [intros [= <-]; done|] end. done.
Qed.

(** [A = A op X]; only a division by 0 stops. *)
Lemma exec_alu_x code op a k ss r : op_of code = Some op ->
  (match op with LSH | RSH => rX r < 32 | _ => True end) ->
  exec_stmts p w N (node a (BPF_ALU ||| BPF_X ||| code) k :: ss) r =
  match alu op (rA r) (rX r) with
  | Some v => exec_stmts p w N ss (set_A v r)
  | None => inr (Return 0)
  end.
Proof.
  intros Ho Hs. assert ((BPF_ALU ||| BPF_X ||| code =? NOP) = false /\ decode_op (u16 (BPF_ALU ||| BPF_X ||| code)) = Some (ALU op SrcX)) as [H1 H2].
  { revert code op Ho Hs. apply (op_of_cases (fun code op => _ -> _)); done. }
  rewrite (exec_one _ _ _ _ _ _ H1 H2). cbn [exec_op]. unfold exec_alu. cbn [operand].
  destruct (alu op (rA r) (rX r)) as [v|] eqn:E; [done|].
  destruct op; cbn [alu] in E; try done; repeat case_match; try done; lia.
Qed.

Lemma exec_ld_ind a sz k ss r :
  0 <= k < 2 ^ 29 -> 0 <= rX r < 2 ^ 30 ->
  exec_stmts p w N (node a (BPF_LD ||| BPF_IND ||| size_bits sz) k :: ss) r =
  match extract sz p (k + rX r) with Some v => exec_stmts p w N ss (set_A v r) | None => inr (Return 0) end.
Proof.
  intros Hk Hx. rewrite (exec_one _ _ _ _ _ (LD_IND sz)) by now destruct sz. cbn [exec_op]. unfold exec_ld_ind.
  rewrite node_k, (u32_id k) by lia. replace (s32 (rX r + k)) with (k + rX r) by (rewrite s32_id; lia).
  rewrite exec_load by (destruct Hp; lia). now destruct (extract sz p (k + rX r)).
Qed.

Lemma exec_msh a k ss r :
  0 <= k < 2 ^ 30 ->
  exec_stmts p w N (node a (BPF_LDX ||| BPF_MSH ||| BPF_B) k :: ss) r =
  match extract SzB p k with Some b => exec_stmts p w N ss (set_X (ip_hl b) r) | None => inr (Return 0) end.
Proof.
  intros Hk. change (?x :: ss) with ([x] ++ ss). rewrite exec_stmts_app, exec_ldx_msh_stmt.
  - rewrite u32_id by lia. now destruct (extract SzB p k).
  - unfold reach. rewrite u32_id; lia.
  - now destruct Hp.
Qed.
End Statements.

(** ** Meaning *)

Definition load_bytes (size : Z) : option bpf_size :=
  if size =? 1 then Some SzB else if size =? 2 then Some SzH else if size =? 4 then Some SzW else None.

(** No value is larger. *)
Fixpoint arith_bound (a : arith) : Z :=
  match a with
  | ANum n => u32 n
  | ALen | ANeg _ => 2 ^ 32 - 1
  | ALoad _ _ size => 2 ^ (8 * size) - 1
  | AOp code a0 a1 =>
      match op_of code with
      | Some ADD => Z.min (2 ^ 32 - 1) (arith_bound a0 + arith_bound a1)
      | Some MUL => Z.min (2 ^ 32 - 1) (arith_bound a0 * arith_bound a1)
      | Some AND => Z.min (arith_bound a0) (arith_bound a1)
      | Some DIV | Some RSH => arith_bound a0
      | Some LSH => if arith_bound a1 <? 32 then Z.min (2 ^ 32 - 1) (Z.shiftl (arith_bound a0) (arith_bound a1)) else 2 ^ 32 - 1
      | _ => 2 ^ 32 - 1
      end
  end.

(** Headers that can be indexed, sizes of loads, indices far from wrapping, and shifts C
    defines. *)
Fixpoint arith_ok (a : arith) : bool :=
  match a with
  | ANum _ | ALen => true
  | ALoad pname index size =>
      arith_ok index && (arith_bound index <? 2 ^ 29) && bool_decide (is_Some (load_bytes size)) &&
      ((pname =? Q_LINK) || one_of pname (net_protos ++ tran_protos))
  | AOp code a0 a1 =>
      arith_ok a0 && arith_ok a1 &&
      match op_of code with
      | Some LSH | Some RSH => arith_bound a1 <? 32
      | Some _ => true
      | None => false
      end
  | ANeg a => arith_ok a
  end.

(** Registers needed at the same time. *)
Fixpoint arith_need (a : arith) : nat :=
  match a with
  | ANum _ | ALen => 1
  | ALoad _ index _ => arith_need index `max` 2
  | AOp _ a0 a1 => arith_need a0 `max` S (arith_need a1)
  | ANeg a => arith_need a
  end.

(** Slots of the statements and of the tests of protocols. *)
Fixpoint arith_cost (a : arith) : Z :=
  match a with
  | ANum _ | ALen => 2
  | ALoad _ index _ => arith_cost index + 400
  | AOp _ a0 a1 => arith_cost a0 + arith_cost a1 + 4
  | ANeg a => arith_cost a + 3
  end.

Section Meaning.
Context `{LP : LinkPred} (E : genv).

(** The field of [sz] bytes at the index [i] of a header. *)
Definition indexed (pname : Z) (sz : bpf_size) (i : Z) : fvalue := fun p _ =>
  if pname =? Q_LINK then extract sz p (pos_link E i)
  else if one_of pname net_protos then extract sz p (pos_net E i)
  else b ← extract SzB p (pos_net E 0); extract sz p (pos_net E i + ip_hl b).

Fixpoint arith_val (a : arith) : fvalue := fun p w =>
  match a with
  | ANum n => Some (u32 n)
  | ALen => Some w
  | ALoad pname index size =>
      i ← arith_val index p w; sz ← load_bytes size; indexed pname sz i p w
  | AOp code a0 a1 =>
      v0 ← arith_val a0 p w; v1 ← arith_val a1 p w; op ← op_of code; alu op v0 v1
  | ANeg a => v ← arith_val a p w; Some (u32 (- v))
  end.

(** The protocols that are tested before the value is computed. Those of a second operand
    are not. *)
Definition and_opt (c : option fpred) (f : fpred) : fpred := match c with Some c => p_and c f | None => f end.
Definition p_named (pname : Z) : fpred := match abbrev_of pname with Some a => p_abbrev E a | None => p_const false end.

Definition load_check (pname : Z) (c : option fpred) : option fpred :=
  if pname =? Q_LINK then c
  else if one_of pname net_protos then Some (and_opt c (p_named pname))
  else Some (p_and (p_named Q_IP) (and_opt c (p_and (p_named pname) (p_first_fragment E)))).

Fixpoint arith_check (a : arith) : option fpred :=
  match a with
  | ANum _ | ALen => None
  | ALoad pname index _ => load_check pname (arith_check index)
  | AOp _ a0 _ => arith_check a0
  | ANeg a => arith_check a
  end.

Lemma load_bytes_size size sz : load_bytes size = Some sz -> load_size size = Some (size_bits sz) /\ size = Z.of_nat (size_bytes sz).
Proof.
  unfold load_bytes, load_size. repeat (match goal with |- context [?a =? ?b] => destruct (Z.eqb_spec a b) as [->|] end; [now intros [= <-]|]). done.
Qed.

Lemma extract_bound sz p k v : extract sz p k = Some v -> 0 <= v <= 2 ^ (8 * Z.of_nat (size_bytes sz)) - 1.
Proof.
  unfold extract. destruct (bytes_at p k (size_bytes sz)) as [bs|] eqn:Eb; [|done]. intros [= <-].
  apply bytes_at_length in Eb. pose proof (be_val_range bs) as Hr. rewrite Eb in Hr.
  change 256 with (2 ^ 8) in Hr. rewrite <- Z.pow_mul_r in Hr by lia. lia.
Qed.

Lemma indexed_bound pname sz i p w v : indexed pname sz i p w = Some v -> 0 <= v <= 2 ^ (8 * Z.of_nat (size_bytes sz)) - 1.
Proof.
  unfold indexed. destruct (_ =? _); [apply extract_bound|]. destruct (one_of _ _); [apply extract_bound|].
  destruct (extract SzB p _); [apply extract_bound|done].
Qed.

Lemma land_le a b : 0 <= a -> Z.land a b <= a.
Proof.
  intros Ha. assert (Z.ldiff (Z.land a b) a = 0) as H0.
  { apply Z.bits_inj'. intros n Hn. rewrite Z.ldiff_spec, Z.land_spec, Z.bits_0. now destruct (Z.testbit a n), (Z.testbit b n). }
  apply Z.sub_nocarry_ldiff in H0. pose proof (proj2 (Z.ldiff_nonneg a (Z.land a b)) (or_introl Ha)). lia.
Qed.

Lemma u32_le x : 0 <= x -> u32 x <= x.
Proof. intros Hx. unfold u32. apply Z.mod_le; lia. Qed.

(** Each operation, within the bounds of its operands. *)
Lemma alu_bound op a b v ba bb : alu op a b = Some v -> 0 <= a <= ba -> 0 <= b <= bb -> 0 <= v < 2 ^ 32 ->
  v <= match op with
       | ADD => Z.min (2 ^ 32 - 1) (ba + bb)
       | MUL => Z.min (2 ^ 32 - 1) (ba * bb)
       | AND => Z.min ba bb
       | DIV | RSH => ba
       | LSH => if bb <? 32 then Z.min (2 ^ 32 - 1) (Z.shiftl ba bb) else 2 ^ 32 - 1
       | _ => 2 ^ 32 - 1
       end.
Proof.
  intros Hv Ha Hb Hr. destruct op; cbn [alu] in Hv; try lia.
  - injection Hv as Hv. pose proof (u32_le (a + b)). lia.
  - injection Hv as Hv. pose proof (u32_le (a * b)). nia.
  - destruct (Z.eqb_spec b 0); [done|]. injection Hv as <-. pose proof (Z.div_le_upper_bound a b a ltac:(lia)). nia.
  - injection Hv as <-. pose proof (land_le a b). pose proof (land_le b a) as H2. rewrite (Z.land_comm b a) in H2. lia.
  - destruct (b <? 32) eqn:E32; [|done]. injection Hv as Hv. destruct (Z.ltb_spec bb 32); [|lia].
    rewrite Z.shiftl_mul_pow2 in Hv |- * by lia. pose proof (u32_le (a * 2 ^ b)).
    pose proof (Z.pow_le_mono_r 2 b bb). pose proof (Z.pow_pos_nonneg 2 b). nia.
  - destruct (b <? 32); [|done]. injection Hv as <-. rewrite Z.shiftr_div_pow2 by lia.
    pose proof (Z.pow_pos_nonneg 2 b). pose proof (Z.div_le_upper_bound a (2 ^ b) a ltac:(lia)). nia.
Qed.

(** Values are words, and within their bounds. *)
Lemma arith_val_bound a p w v : packet_ok p w -> arith_val a p w = Some v -> 0 <= v <= arith_bound a /\ v < 2 ^ 32.
Proof.
  intros Hp. revert v; induction a as [n| |pname a IH size|code a0 IH0 a1 IH1|a IH]; intros v; cbn [arith_val arith_bound].
  - intros [= <-]. pose proof (u32_range n). lia.
  - intros [= <-]. destruct Hp. lia.
  - destruct (arith_val a p w) as [i|]; [|done]. cbn [mbind option_bind].
    destruct (load_bytes size) as [sz|] eqn:Es; [|done]. cbn [mbind option_bind]. intros Hv.
    apply load_bytes_size in Es as [_ ->]. apply indexed_bound in Hv. split; [done|].
    assert (2 ^ (8 * Z.of_nat (size_bytes sz)) <= 2 ^ 32) by (apply Z.pow_le_mono_r; [lia|destruct sz; cbn; lia]). lia.
  - destruct (arith_val a0 p w) as [v0|]; [|done]. destruct (arith_val a1 p w) as [v1|]; [|done]. cbn [mbind option_bind].
    destruct (op_of code) as [op|]; [|done]. cbn [mbind option_bind]. intros Hv.
    destruct (IH0 v0 eq_refl) as [B0 R0], (IH1 v1 eq_refl) as [B1 R1].
    assert (0 <= v < 2 ^ 32) as Hr by (eapply (alu_range op v0 v1); [lia|lia|exact Hv]). split; [|lia].
    pose proof (alu_bound op v0 v1 v _ _ Hv B0 B1 Hr). destruct op; lia.
  - destruct (arith_val a p w); [|done]. cbn [mbind option_bind]. intros [= <-]. pose proof (u32_range (- z)). lia.
Qed.
End Meaning.

(** ** What the statements do *)

(** The statements leave the value in the register [n] and keep the registers in use. *)
Definition stores (used : list bool) (ss : slist) (n : Z) (f : fvalue) : Prop :=
  linear ss = true /\
  forall p w r, packet_ok p w -> wf_regs r ->
    match f p w with
    | Some v => exists r', exec_stmts p w (Z.of_nat (length p)) ss r = inl r' /\ wf_regs r' /\ holds r' n v /\
        forall i x, used !! Z.to_nat i = Some true -> holds r i x -> holds r' i x
    | None => exec_stmts p w (Z.of_nat (length p)) ss r = inr (Return 0)
    end.

(** The statements load, for the index [i] that the register [n] holds. *)
Definition loads (ss : slist) (n : Z) (f : Z -> fvalue) : Prop :=
  linear ss = true /\
  forall p w r i, packet_ok p w -> wf_regs r -> holds r n i -> 0 <= i < 2 ^ 29 ->
    match f i p w with
    | Some v => exists r', exec_stmts p w (Z.of_nat (length p)) ss r = inl r' /\ wf_regs r' /\ rA r' = v /\ rmem r' = rmem r
    | None => exec_stmts p w (Z.of_nat (length p)) ss r = inr (Return 0)
    end.

Lemma stores_ext used ss n f g : (forall p w, f p w = g p w) -> stores used ss n f -> stores used ss n g.
Proof. intros Hfg [Hl Hf]. split; [done|]. intros p w r Hp Hr. rewrite <- Hfg. now apply Hf. Qed.

Lemma loads_ext ss n f g : (forall i p w, f i p w = g i p w) -> loads ss n f -> loads ss n g.
Proof. intros Hfg [Hl Hf]. split; [done|]. intros p w r i Hp Hr Hi Hir. rewrite <- Hfg. now apply Hf. Qed.

Lemma linear_app a b : linear (a ++ b) = linear a && linear b.
Proof. apply forallb_app. Qed.

Lemma slength_app a b : slength (a ++ b) = slength a + slength b.
Proof. unfold slength. rewrite List.filter_app, length_app. lia. Qed.

Lemma slength_le ss : slength ss <= Z.of_nat (length ss).
Proof. unfold slength. pose proof (List.filter_length_le live_node ss). lia. Qed.

Lemma slength_one x : slength [x] <= 1.
Proof. apply (slength_le [x]). Qed.
(** Lists of statements that end in single ones. *)
Ltac slen :=
  unfold sappend; rewrite ?slength_app;
  repeat match goal with
  | |- context [slength [?x]] => pose proof (slength_one x); generalize dependent (slength [x]); intros
  end; lia.

(** A value in A, stored into a register that was free. *)
Lemma stores_st used ss n a f :
  linear ss = true -> 0 <= n < 16 -> used !! Z.to_nat n = Some false ->
  (forall p w r, packet_ok p w -> wf_regs r ->
    match f p w with
    | Some v => exists r', exec_stmts p w (Z.of_nat (length p)) ss r = inl r' /\ wf_regs r' /\ rA r' = v /\
        forall i x, used !! Z.to_nat i = Some true -> holds r i x -> holds r' i x
    | None => exec_stmts p w (Z.of_nat (length p)) ss r = inr (Return 0)
    end) ->
  stores used (ss ++ [mk_snode a (mk_stmt BPF_ST None None (s32 n))]) n f.
Proof.
  intros Hl Hn Hu Hf. split; [rewrite linear_app, Hl; reflexivity|]. intros p w r Hp Hr. specialize (Hf p w r Hp Hr).
  rewrite exec_stmts_app. destruct (f p w) as [v|]; [|now rewrite Hf]. destruct Hf as (r1 & -> & Hr1 & <- & Hk).
  destruct (exec_st p w a n [] r1 Hr1 Hn) as (m & -> & Hm & Hh & Hx). exists (set_mem m r1).
  split; [done|]. split; [done|]. split; [done|]. intros i x Hi Hx'. apply Hx; [|now apply Hk].
  intros ->. congruence.
Qed.

(** Numbers and the length. *)
Lemma stores_simple used c k a n a' v :
  0 <= n < 16 -> used !! Z.to_nat n = Some false ->
  linear [mk_snode a (mk_stmt c None None (s32 k))] = true ->
  (forall p w r, packet_ok p w -> exec_stmts p w (Z.of_nat (length p)) [mk_snode a (mk_stmt c None None (s32 k))] r = inl (set_A (v p w) r) /\
     0 <= v p w < 2 ^ 32) ->
  stores used ([mk_snode a (mk_stmt c None None (s32 k))] ++ [mk_snode a' (mk_stmt BPF_ST None None (s32 n))]) n (fun p w => Some (v p w)).
Proof.
  intros Hn Hu Hl Hv. apply stores_st; [done|done|done|]. intros p w r Hp Hr. destruct (Hv p w r Hp) as [-> Hr'].
  eexists. split; [reflexivity|]. split; [now apply wf_set_A|]. split; [done|]. auto.
Qed.

Section Loads.
Context `{LP : LinkPred} (E : genv) `{!LinkTests E}.

Lemma pos_small k : 0 <= k < 2 ^ 20 -> 0 <= pos_net E 0 + k < 2 ^ 29 /\ 0 <= pos_link E 0 + k < 2 ^ 29.
Proof.
  intros Hk. unfold pos_net, pos_link. pose proof (plain_ll (E := E)). pose proof (plain_macpl (E := E)). pose proof (plain_nl (E := E)). lia.
Qed.

(** [link], and the network layer: X is the index. *)
Lemma loads_x n a1 a2 sz k pos :
  0 <= n < 16 -> pos = u32 k -> 0 <= pos < 2 ^ 29 ->
  loads ([mk_snode a1 (mk_stmt (BPF_LDX ||| BPF_MEM) None None (s32 n))] ++
         [mk_snode a2 (mk_stmt (BPF_LD ||| BPF_IND ||| size_bits sz) None None (s32 k))]) n
        (fun i p w => extract sz p (pos + i)).
Proof.
  intros Hn -> Hk. split; [now destruct sz|]. intros p w r i Hp Hr Hi Hir. cbn [app].
  rewrite (exec_ldx_mem p w _ n i) by done. rewrite <- (s32_u32 k). rewrite (exec_ld_ind p w Hp) by (cbn [rX set_X]; lia). cbn [rX set_X].
  destruct (extract sz p (u32 k + i)) as [v|] eqn:Ev; [|done]. eexists. split; [reflexivity|].
  split; [|done]. apply wf_set_A; [apply wf_set_X; [done|lia]|exact (extract_range _ _ _ _ Ev)].
Qed.

(** A transport header over IPv4: X is the length of the IPv4 header plus the index. *)
Lemma loads_tran n a1 a2 a3 a4 a5 sz k pos :
  0 <= n < 16 -> pos = u32 k -> 0 <= pos < 2 ^ 29 ->
  loads ((([mk_snode a1 (mk_stmt (BPF_LDX ||| BPF_MSH ||| BPF_B) None None (s32 k))] ++
           [mk_snode a2 (mk_stmt (BPF_LD ||| BPF_MEM) None None (s32 n))]) ++
           [mk_snode a3 (mk_stmt (BPF_ALU ||| BPF_ADD ||| BPF_X) None None (s32 0))] ++
           [mk_snode a4 (mk_stmt (BPF_MISC ||| BPF_TAX) None None (s32 0))]) ++
          [mk_snode a5 (mk_stmt (BPF_LD ||| BPF_IND ||| size_bits sz) None None (s32 k))]) n
        (fun i p w => b ← extract SzB p pos; extract sz p (pos + i + ip_hl b)).
Proof.
  intros Hn -> Hk. split; [now destruct sz|]. intros p w r i Hp Hr Hi Hir. cbn [app].
  rewrite <- (s32_u32 k). rewrite (exec_msh p w Hp) by lia.
  destruct (extract SzB p (u32 k)) as [b|] eqn:Eb; cbn [mbind option_bind]; [|done].
  pose proof (ip_hl_range b) as Hb. rewrite (exec_ld_mem p w _ n i) by done.
  change (BPF_ALU ||| BPF_ADD ||| BPF_X) with (BPF_ALU ||| BPF_X ||| BPF_ADD).
  rewrite (exec_alu_x p w BPF_ADD ADD) by done. cbn [alu rA rX set_A set_X].
  rewrite (exec_tax p w). cbn [rA set_A]. rewrite (u32_id (i + ip_hl b)) by lia.
  rewrite (exec_ld_ind p w Hp) by (cbn [rX set_X]; lia). cbn [rX set_X].
  replace (u32 k + (i + ip_hl b)) with (u32 k + i + ip_hl b) by lia.
  destruct (extract sz p (u32 k + i + ip_hl b)) as [v|] eqn:Ev; [|done]. eexists. split; [reflexivity|].
  split; [|done]. apply wf_set_A; [|exact (extract_range _ _ _ _ Ev)]. apply wf_set_X; [|cbn; lia].
  apply wf_set_A; [apply wf_set_A; [apply wf_set_X; [done|lia]|lia]|cbn; lia].
Qed.

(** ** Tests of protocols in the making *)

(** The test of an [arth] is among the live expressions; others are left over. *)
Definition checked (b : option nat) (c : option fpred) (n : Z) (L : list item) : Prop :=
  total L <= n /\
  match b, c with
  | Some b, Some f => exists m G, L ≡ₚ mk_item b f m :: G
  | None, None => True
  | _, _ => False
  end.

Lemma total_cons b f n L : total (mk_item b f n :: L) = n + total L.
Proof. reflexivity. Qed.

Lemma total_app L M : total (L ++ M) = total L + total M.
Proof. apply zsum_app. Qed.

Lemma checked_weaken b c n m L : checked b c n L -> n <= m -> checked b c m L.
Proof. intros [Ht Hb] Hn. split; [lia|done]. Qed.

Lemma and_check_bind {B} E' b0 c n L b f m (k : unit -> G B) E2 Q :
  checked b0 c n L ->
  (forall j G, j + total G <= n + m -> triple E' (mk_item b (and_opt c f) j :: G) (k tt) E2 Q) ->
  triple E' (mk_item b f m :: L) (and_check b0 b ≫= k) E2 Q.
Proof.
  intros [Ht Hb] Hk. destruct b0 as [b0|], c as [c|]; try done.
  - destruct Hb as (m0 & G & HP). rewrite (total_perm _ _ HP), total_cons in Ht. cbn [and_check and_opt] in *.
    eapply triple_and; [rewrite HP; apply perm_swap|reflexivity|]. apply Hk. lia.
  - cbn [and_check and_opt] in *. apply triple_ret_bind. apply Hk. lia.
Qed.

Lemma pure_bind {A B} E' L (m : G A) a (k : A -> G B) E2 Q :
  (forall s, gs_env s = E' -> m s = GOk a s) -> triple E' L (k a) E2 Q -> triple E' L (m ≫= k) E2 Q.
Proof.
  intros Hm Hk R s Hs Hi. destruct (Hk R s Hs Hi) as (b & s1 & L1 & E1 & H1). exists b, s1, L1.
  split; [|done]. cbv [mbind G_bind]. now rewrite (Hm s Hs).
Qed.

Lemma named_builds pname : one_of pname (net_protos ++ tran_protos) = true \/ pname = Q_IP ->
  builds E (gen_proto_abbrev pname) (p_named E pname) 184.
Proof.
  intros Hn. assert (exists a, abbrev_of pname = Some a) as [a Ha].
  { assert (forallb (fun x => bool_decide (is_Some (abbrev_of x))) (Q_IP :: net_protos ++ tran_protos) = true) as Hall by (vm_compute; reflexivity).
    rewrite forallb_forall in Hall. specialize (Hall pname). rewrite bool_decide_eq_true in Hall. apply Hall.
    destruct Hn as [Hn| ->]; [right; now apply one_of_cases|now left]. }
  unfold p_named. rewrite Ha. now apply abbrev_builds.
Qed.

Lemma net_pos_plain : u32 (off_macpl (g_link E) + off_nl (g_link E)) = pos_net E 0 /\ u32 (off_ll (g_link E)) = pos_link E 0.
Proof.
  unfold pos_net, pos_link. pose proof (plain_ll (E := E)). pose proof (plain_macpl (E := E)). pose proof (plain_nl (E := E)).
  rewrite !u32_id; lia.
Qed.

Definition load_made (pname : Z) (sz : bpf_size) (n : Z) (c : option fpred) (m : Z) (x : slist * option nat) (L : list item) : Prop :=
  loads (fst x) n (indexed E pname sz) /\ slength (fst x) <= 5 /\ checked (snd x) (load_check E pname c) (m + 380) L.

Lemma load_link_triple inst sz c m L : 0 <= ar_regno inst < 16 -> checked (ar_b inst) c m L ->
  triple E L (gen_load_link inst (size_bits sz)) E (load_made Q_LINK sz (ar_regno inst) c m).
Proof.
  intros Hn Hc. unfold gen_load_link. eapply pure_bind; [apply (run_llprefixlen E)|]. cbn [add_index]. unfold xfer_to_x.
  apply new_stmt_bind. intros a1. apply triple_getv, new_stmt_bind. intros a2. apply triple_ret.
  destruct net_pos_plain as [_ Hpos]. pose proof (pos_small 0 ltac:(lia)) as [_ Hs]. rewrite Z.add_0_r in Hs.
  split; [|split; [etransitivity; [apply slength_le|cbn; lia]|eapply checked_weaken; [exact Hc|lia]]].
  eapply loads_ext; [|exact (loads_x (ar_regno inst) a1 a2 sz (off_ll (g_link E)) (pos_link E 0) Hn (eq_sym Hpos) Hs)].
  intros i p w. unfold indexed, pos_link. change (Q_LINK =? Q_LINK) with true. cbn match. f_equal. lia.
Qed.

Lemma load_net_triple pname inst sz c m L : one_of pname net_protos = true -> 0 <= ar_regno inst < 16 -> checked (ar_b inst) c m L ->
  triple E L (gen_load_net pname inst (size_bits sz)) E (load_made pname sz (ar_regno inst) c m).
Proof.
  intros Hp Hn Hc. unfold gen_load_net. eapply pure_bind; [apply (run_off_macpl E)|]. cbn [add_index]. unfold xfer_to_x.
  apply new_stmt_bind. intros a1. apply triple_getv, new_stmt_bind. intros a2.
  eapply builds_bind; [apply named_builds; left|].
  { apply existsb_exists in Hp as (x & Hx & Hp). apply existsb_exists. exists x. split; [apply in_or_app; now left|done]. }
  intros b. eapply and_check_bind; [exact Hc|]. intros j G HG. apply triple_ret.
  assert ((pname =? Q_LINK) = false) as Hl by (destruct (one_of_cases _ _ Hp) as [<-|[<-|[<-|[<-|[<-|[<-|[<-|[<-|[<-|[<-|[]]]]]]]]]]]; done).
  destruct net_pos_plain as [Hpos _]. pose proof (pos_small 0 ltac:(lia)) as [Hs _]. rewrite Z.add_0_r in Hs.
  unfold load_made, load_check, indexed. rewrite Hl, Hp. cbn [fst snd].
  split; [|split; [etransitivity; [apply slength_le|cbn; lia]|split; [rewrite total_cons; lia|eauto using Permutation_refl]]].
  eapply loads_ext; [|exact (loads_x (ar_regno inst) a1 a2 sz _ (pos_net E 0) Hn (eq_sym (eq_trans (u32_u32 _) Hpos)) Hs)].
  intros i p w. unfold pos_net. f_equal. lia.
Qed.

Lemma load_tran_triple pname inst sz c m L : one_of pname tran_protos = true -> 0 <= ar_regno inst < 16 -> checked (ar_b inst) c m L ->
  triple E L (gen_load_tran pname inst (size_bits sz)) E (load_made pname sz (ar_regno inst) c m).
Proof.
  intros Hp Hn Hc. unfold gen_load_tran, gen_loadx_iphdrlen. apply triple_bind_assoc. eapply pure_bind; [apply (run_off_macpl E)|].
  apply triple_bind_assoc, triple_getv. apply new_stmt_bind. intros a1. unfold xfer_to_a.
  apply new_stmt_bind. intros a2. apply new_stmt_bind. intros a3. apply new_stmt_bind. intros a4. apply triple_getv, new_stmt_bind. intros a5.
  eapply builds_bind; [apply named_builds; left|].
  { apply existsb_exists in Hp as (x & Hx & Hp). apply existsb_exists. exists x. split; [apply in_or_app; now right|done]. }
  intros b0. eapply builds_bind; [apply (ipfrag_builds E)|]. intros b. gstep fail. cbn zeta.
  eapply and_check_bind; [exact Hc|]. intros j G HG. eapply builds_bind; [apply named_builds; now right|]. intros b1. gstep fail.
  apply triple_ret.
  assert ((pname =? Q_LINK) = false /\ one_of pname net_protos = false) as [Hl Hnet]
    by (destruct (one_of_cases _ _ Hp) as [<-|[<-|[<-|[<-|[<-|[<-|[<-|[<-|[<-|[]]]]]]]]]]; done).
  destruct net_pos_plain as [Hpos _]. pose proof (pos_small 0 ltac:(lia)) as [Hs _]. rewrite Z.add_0_r in Hs.
  unfold load_made, load_check, indexed. rewrite Hl, Hnet. cbn [fst snd].
  split; [|split; [etransitivity; [apply slength_le|cbn; lia]|split; [rewrite total_cons; lia|eauto using Permutation_refl]]].
  eapply loads_ext; [|exact (loads_tran (ar_regno inst) a1 a2 a3 a4 a5 sz _ (pos_net E 0) Hn (eq_sym (eq_trans (u32_u32 _) Hpos)) Hs)].
  intros i p w. cbn beta. destruct (extract SzB p (pos_net E 0)); [|done]. cbn [mbind option_bind]. f_equal. unfold pos_net. lia.
Qed.

Lemma load_case_triple pname inst sz c m L :
  (pname =? Q_LINK) || one_of pname (net_protos ++ tran_protos) = true -> 0 <= ar_regno inst < 16 -> checked (ar_b inst) c m L ->
  triple E L (gen_load_case pname inst (size_bits sz)) E (load_made pname sz (ar_regno inst) c m).
Proof.
  intros Hp Hn Hc. unfold gen_load_case. unfold one_of in Hp. rewrite existsb_app in Hp.
  fold (one_of pname net_protos) (one_of pname tran_protos) in Hp.
  destruct (pname =? Q_RADIO) eqn:Er.
  { apply Z.eqb_eq in Er as ->. discriminate Hp. }
  destruct (pname =? Q_LINK) eqn:El; [apply Z.eqb_eq in El as ->; now apply load_link_triple|].
  destruct (one_of pname net_protos) eqn:En; [now apply load_net_triple|]. cbn [orb] in Hp. rewrite Hp. now apply load_tran_triple.
Qed.
End Loads.

(** ** The statements of an expression *)

(** An [arth] that holds the value, with its test. *)
Definition arth_made (used : list bool) (n : Z) (f : fvalue) (c : option fpred) (k : Z) (x : arth) (L : list item) : Prop :=
  ar_regno x = n /\ stores used (ar_s x) n f /\ slength (ar_s x) <= k /\ checked (ar_b x) c k L.

Lemma in_use r r' n i : takes r r' n -> regused r !! Z.to_nat i = Some true -> regused r' !! Z.to_nat i = Some true.
Proof.
  intros [_ _ Hf Hu] Hi. rewrite Hu, list_lookup_insert_ne; [done|]. intros Heq. rewrite Heq in Hf. congruence.
Qed.

Lemma in_use_own r r' n : takes r r' n -> regused r' !! Z.to_nat n = Some true.
Proof. intros [_ _ Hf Hu]. rewrite Hu. apply list_lookup_insert_eq. now apply lookup_lt_Some in Hf. Qed.

(** The index, then the load, then the store into the register of the result. *)
Lemma stores_load used s1 n1 f1 s n a g :
  stores used s1 n1 f1 -> loads s n1 g -> 0 <= n < 16 -> used !! Z.to_nat n = Some false ->
  (forall p w i, packet_ok p w -> f1 p w = Some i -> 0 <= i < 2 ^ 29) ->
  stores used ((s1 ++ s) ++ [mk_snode a (mk_stmt BPF_ST None None (s32 n))]) n (fun p w => i ← f1 p w; g i p w).
Proof.
  intros [Hl1 H1] [Hl Hg] Hn Hu Hb. apply stores_st; [now rewrite linear_app, Hl1, Hl|done|done|].
  intros p w r Hp Hr. specialize (H1 p w r Hp Hr). rewrite exec_stmts_app.
  destruct (f1 p w) as [i|] eqn:Ei; cbn [mbind option_bind]; [|now rewrite H1].
  destruct H1 as (r1 & -> & Hr1 & Hh & Hk). specialize (Hg p w r1 i Hp Hr1 Hh (Hb p w i Hp Ei)).
  destruct (g i p w) as [v|]; [|done]. destruct Hg as (r2 & -> & Hr2 & Hv & Hm). exists r2.
  split; [done|]. split; [done|]. split; [done|]. intros j x Hj Hx. unfold holds in *. rewrite Hm. now apply Hk.
Qed.

Lemma holds_range r n v : holds r n v -> 0 <= v < 2 ^ 32.
Proof.
  unfold holds, load_mem. destruct (at_Z (rmem r) n); [|done]. intros [= <-]. apply u32_range.
Qed.

Lemma stores_neg used s1 n f a1 a2 a3 :
  0 <= n < 16 -> used !! Z.to_nat n = Some false -> stores used s1 n f ->
  stores used (((s1 ++ [mk_snode a1 (mk_stmt (BPF_LD ||| BPF_MEM) None None (s32 n))]) ++
     [mk_snode a2 (mk_stmt (BPF_ALU ||| BPF_NEG) None None (s32 0))]) ++ [mk_snode a3 (mk_stmt BPF_ST None None (s32 n))]) n
    (fun p w => v ← f p w; Some (u32 (- v))).
Proof.
  intros Hn Hu [Hl H1]. apply stores_st; [now rewrite !linear_app, Hl|done|done|].
  intros p w r Hp Hr. specialize (H1 p w r Hp Hr). rewrite <- app_assoc, exec_stmts_app.
  destruct (f p w) as [v|]; cbn [mbind option_bind]; [|now rewrite H1].
  destruct H1 as (r1 & -> & Hr1 & Hh & Hk). cbn [app]. rewrite (exec_ld_mem p w _ n v) by done. rewrite (exec_neg_stmt p w).
  eexists. split; [reflexivity|]. cbn [rA set_A]. split; [|auto].
  apply wf_set_A; [apply wf_set_A; [done|exact (holds_range _ _ _ Hh)]|apply u32_range].
Qed.

(** Two operands in their registers, the first of which the second leaves alone; then X and
    A are loaded. *)
Lemma operands_loaded used used1 s0 n0 f0 s1 n1 f1 a1 a2 p w r :
  stores used s0 n0 f0 -> stores used1 s1 n1 f1 -> 0 <= n0 < 16 -> 0 <= n1 < 16 ->
  used1 !! Z.to_nat n0 = Some true -> (forall i : Z, used !! Z.to_nat i = Some true -> used1 !! Z.to_nat i = Some true) ->
  packet_ok p w -> wf_regs r ->
  let ss := s0 ++ s1 ++ [mk_snode a1 (mk_stmt (BPF_LDX ||| BPF_MEM) None None (s32 n1))] ++
            [mk_snode a2 (mk_stmt (BPF_LD ||| BPF_MEM) None None (s32 n0))] in
  match f0 p w, f1 p w with
  | Some v0, Some v1 => exists r', exec_stmts p w (Z.of_nat (length p)) ss r = inl r' /\ wf_regs r' /\ rA r' = v0 /\ rX r' = v1 /\
      forall i x, used !! Z.to_nat i = Some true -> holds r i x -> holds r' i x
  | _, _ => exec_stmts p w (Z.of_nat (length p)) ss r = inr (Return 0)
  end.
Proof.
  intros [_ H0] [_ H1] Hn0 Hn1 Hu0 Hu Hp Hr ss. subst ss. specialize (H0 p w r Hp Hr). rewrite exec_stmts_app.
  destruct (f0 p w) as [v0|]; [|now rewrite H0]. destruct H0 as (r0 & -> & Hr0 & Hh0 & Hk0).
  specialize (H1 p w r0 Hp Hr0). rewrite exec_stmts_app.
  destruct (f1 p w) as [v1|]; [|now rewrite H1]. destruct H1 as (r1 & -> & Hr1 & Hh1 & Hk1). cbn [app].
  rewrite (exec_ldx_mem p w _ n1 v1) by done.
  pose proof (Hk1 n0 v0 Hu0 Hh0) as Hh. rewrite (exec_ld_mem p w _ n0 v0) by done.
  eexists. split; [reflexivity|]. split; [|split; [done|split; [done|]]].
  - apply wf_set_A; [apply wf_set_X; [done|exact (holds_range _ _ _ Hh1)]|exact (holds_range _ _ _ Hh)].
  - intros i x Hi Hx. apply (Hk1 i x); auto.
Qed.

Lemma stores_op used used1 s0 n0 f0 s1 n1 f1 code op n a1 a2 a3 a4 :
  stores used s0 n0 f0 -> stores used1 s1 n1 f1 -> 0 <= n0 < 16 -> 0 <= n1 < 16 ->
  used1 !! Z.to_nat n0 = Some true -> (forall i : Z, used !! Z.to_nat i = Some true -> used1 !! Z.to_nat i = Some true) ->
  0 <= n < 16 -> used !! Z.to_nat n = Some false -> op_of code = Some op ->
  (forall p w v, packet_ok p w -> f1 p w = Some v -> match op with LSH | RSH => v < 32 | _ => True end) ->
  stores used ((s0 ++ s1 ++ [mk_snode a1 (mk_stmt (BPF_LDX ||| BPF_MEM) None None (s32 n1))] ++
     [mk_snode a2 (mk_stmt (BPF_LD ||| BPF_MEM) None None (s32 n0))] ++
     [mk_snode a3 (mk_stmt (BPF_ALU ||| BPF_X ||| code) None None (s32 0))]) ++ [mk_snode a4 (mk_stmt BPF_ST None None (s32 n))]) n
    (fun p w => v0 ← f0 p w; v1 ← f1 p w; alu op v0 v1).
Proof.
  intros S0 S1 Hn0 Hn1 Hu0 Hu Hn Hfree Hop Hsh. apply stores_st; [|done|done|].
  { destruct S0 as [L0 _], S1 as [L1 _]. rewrite !linear_app, L0, L1.
    revert code op Hop Hsh. apply (op_of_cases (fun code op => _ -> _)); done. }
  intros p w r Hp Hr. pose proof (operands_loaded used used1 s0 n0 f0 s1 n1 f1 a1 a2 p w r S0 S1 Hn0 Hn1 Hu0 Hu Hp Hr) as Hx. cbn zeta in Hx.
  match goal with |- context [s0 ++ s1 ++ ?a ++ ?b ++ ?c] =>
    replace (s0 ++ s1 ++ a ++ b ++ c) with ((s0 ++ s1 ++ a ++ b) ++ c) by now rewrite <- !app_assoc end.
  rewrite exec_stmts_app.
  specialize (fun v => Hsh p w v Hp).
  destruct (f0 p w) as [v0|]; cbn [mbind option_bind]; [|now rewrite Hx].
  destruct (f1 p w) as [v1|]; cbn [mbind option_bind]; [|now rewrite Hx].
  destruct Hx as (r' & -> & Hr' & <- & <- & Hk). rewrite (exec_alu_x p w code op) by (done || now apply Hsh).
  destruct (alu op (rA r') (rX r')) as [v|] eqn:Ev; [|done].
  eexists. split; [reflexivity|]. split; [|split; [done|exact Hk]].
  apply wf_set_A; [done|]. exact (alu_range _ _ _ _ (wf_A _ Hr') (wf_X _ Hr') Ev).
Qed.

(** ** Every expression *)

Section Expressions.
Context `{LP : LinkPred} (E : genv) `{!LinkTests E}.

(** The expression is generated from registers [r], with enough of them free. *)
Definition generated (a : arith) : Prop := forall r, regs_ok r -> (arith_need a <= nfree (regused r))%nat ->
  exists n r', takes r r' n /\
    triple (with_regs r E) [] (gen_arith a) (with_regs r' E)
      (arth_made (regused r) n (arith_val E a) (arith_check E a) (arith_cost a)).

Lemma nfree_takes r r' n : takes r r' n -> nfree (regused r) = S (nfree (regused r')).
Proof. intros [_ _ Hf Hu]. rewrite Hu. now apply nfree_insert. Qed.

(** A number, or the length. *)
Lemma simple_generated c k v r : regs_ok r -> (1 <= nfree (regused r))%nat ->
  linear [mk_snode 0 (mk_stmt c None None (s32 k))] = true ->
  (forall a p w r, packet_ok p w -> exec_stmts p w (Z.of_nat (length p)) [mk_snode a (mk_stmt c None None (s32 k))] r = inl (set_A (v p w) r) /\
     0 <= v p w < 2 ^ 32) ->
  exists n r', takes r r' n /\
    triple (with_regs r E) [] (reg ← alloc_reg; s ← new_stmt c k; t ← new_stmt BPF_ST reg; mret (mk_arth None (sappend s t) reg))
      (with_regs r' E) (arth_made (regused r) n (fun p w => Some (v p w)) None 2).
Proof.
  intros Hr Hf Hl Hv. destruct (alloc_spec r Hr Hf) as (n & r' & Ht & Hb). exists n, r'. split; [done|].
  apply Hb, new_stmt_bind. intros a1. apply new_stmt_bind. intros a2. apply triple_ret.
  split; [done|]. split; [|split; [etransitivity; [apply slength_le|cbn; lia]|split; [cbn; lia|done]]].
  destruct Ht. apply stores_simple; [done|done|exact Hl|auto].
Qed.

Lemma load_generated pname index size : arith_ok (ALoad pname index size) = true -> generated index -> generated (ALoad pname index size).
Proof.
  cbn [arith_ok]. rewrite !andb_true_iff, bool_decide_eq_true. intros [[[_ Hb] [sz Hsz]] Hp] IH r Hr Hf. cbn [arith_need] in Hf.
  destruct (IH r Hr ltac:(lia)) as (n1 & r1 & T1 & H1). pose proof (nfree_takes _ _ _ T1).
  destruct (alloc_spec r1 (tk_ok _ _ _ T1) ltac:(lia)) as (n & r2 & T2 & H2).
  destruct (freed_first _ _ _ _ _ T1 T2) as [T3 Hne]. exists n, (freed n1 r2). split; [done|].
  cbn [gen_arith]. eapply triple_bind; [exact H1|]. intros x L (Hx & Hs & Hk & Hc). unfold gen_load. apply H2.
  rewrite Hx. apply free_bind. destruct (load_bytes_size _ _ Hsz) as [-> _].
  destruct T1 as [_ Hn1 _ _]. destruct T3 as [_ Hn Hfree _].
  eapply triple_bind; [apply (load_case_triple (with_regs (freed n1 r2) E) pname x sz (arith_check E index) (arith_cost index) L); [done|lia|done]|].
  intros [s b] L' (Hld & Hs' & Hc'). cbn [fst snd] in *. apply new_stmt_bind. intros a. apply triple_ret.
  split; [done|]. cbn [ar_s ar_b arith_cost]. split; [|split].
  - eapply stores_ext; [|eapply (stores_load (regused r) (ar_s x) n1 (arith_val E index) s n a (indexed E pname sz))];
      [| |rewrite <- Hx; exact Hld|done|done|].
    + intros p w. cbn [arith_val]. destruct (arith_val E index p w); [|done]. cbn [mbind option_bind]. now rewrite Hsz.
    + exact Hs.
    + intros p w i Hpw Hi. apply (arith_val_bound E) in Hi; [lia|done].
  - slen.
  - eapply checked_weaken; [exact Hc'|lia].
Qed.

Lemma op_generated code a0 a1 : arith_ok (AOp code a0 a1) = true -> generated a0 -> generated a1 -> generated (AOp code a0 a1).
Proof.
  cbn [arith_ok]. rewrite !andb_true_iff. intros [_ Hop] IH0 IH1 r Hr Hf. cbn [arith_need] in Hf.
  destruct (op_of code) as [op|] eqn:Eop; [|done].
  destruct (IH0 r Hr ltac:(lia)) as (n0 & r0 & T0 & H0). pose proof (nfree_takes _ _ _ T0).
  destruct (IH1 r0 (tk_ok _ _ _ T0) ltac:(lia)) as (n1 & r1 & T1 & H1).
  destruct (freed_first _ _ _ _ _ T0 T1) as [T2 Hne]. pose proof (freed_takes _ _ _ T2) as Hu.
  assert (regs_ok (freed n1 (freed n0 r1))) as Hok by (apply freed_ok, (tk_ok _ _ _ T2)).
  destruct (alloc_spec _ Hok) as (n & r' & T3 & H3); [rewrite Hu; lia|]. exists n, r'.
  assert (takes r r' n) as T by (destruct T3 as [? ? F3 U3]; rewrite Hu in F3, U3; now split).
  split; [done|]. cbn [gen_arith]. eapply triple_bind; [exact H0|]. intros x0 L0 (X0 & S0 & K0 & C0).
  eapply triple_bind; [exact (triple_frame _ _ _ _ _ L0 H1)|]. intros x1 L1 (M & -> & X1 & S1 & K1 & C1).
  unfold gen_arth, xfer_to_x, xfer_to_a. apply new_stmt_bind. intros a2. apply new_stmt_bind. intros a3. apply new_stmt_bind. intros a4.
  cbn zeta. rewrite X0, X1. apply free_bind, free_bind, H3, new_stmt_bind. intros a5. apply triple_ret.
  split; [done|]. cbn [ar_s ar_b arith_cost arith_check]. split; [|split].
  - eapply stores_ext; [|eapply (stores_op (regused r) (regused r0) (ar_s x0) n0 (arith_val E a0) (ar_s x1) n1 (arith_val E a1) code op n a2 a3 a4 a5)];
      [|done|done|apply T0|apply T1|now apply (in_use_own r)|intros i; now apply (in_use r r0 n0)|apply T|apply T|done|].
    + intros p w. cbn [arith_val]. now rewrite Eop.
    + intros p w v Hpw Hv. apply (arith_val_bound E) in Hv; [|done]. destruct op; lia.
  - slen.
  - destruct C0 as [C0 D0], C1 as [C1 _]. split; [rewrite total_app; lia|].
    destruct (ar_b x0) as [b|], (arith_check E a0) as [f|]; try done. destruct D0 as (m & G & HP).
    exists m, (M ++ G). rewrite HP. symmetry. apply Permutation_middle.
Qed.

Lemma neg_generated a : generated a -> generated (ANeg a).
Proof.
  intros IH r Hr Hf. destruct (IH r Hr Hf) as (n & r' & T & H). exists n, r'. split; [done|].
  cbn [gen_arith]. eapply triple_bind; [exact H|]. intros x L (X & S & K & C). unfold gen_neg, xfer_to_a.
  apply new_stmt_bind. intros a1. apply new_stmt_bind. intros a2. apply new_stmt_bind. intros a3. apply triple_ret. rewrite X.
  split; [done|]. cbn [ar_s ar_b arith_cost arith_check]. split; [|split].
  - destruct T as [_ Hn Hfree _]. exact (stores_neg (regused r) (ar_s x) n (arith_val E a) a1 a2 a3 Hn Hfree S).
  - slen.
  - eapply checked_weaken; [exact C|lia].
Qed.

Lemma arith_generated a : arith_ok a = true -> generated a.
Proof.
  induction a as [n| |pname index IH size|code a0 IH0 a1 IH1|a IH]; intros Ha.
  - intros r Hr Hf. refine (simple_generated (BPF_LD ||| BPF_IMM) n (fun _ _ => u32 n) r Hr Hf eq_refl _).
    intros a p w r0 _. split; [now rewrite (exec_imm p w)|apply u32_range].
  - intros r Hr Hf. refine (simple_generated (BPF_LD ||| BPF_LEN) 0 (fun _ w => w) r Hr Hf eq_refl _).
    intros a p w r0 [_ Hw]. split; [now rewrite (exec_len p w)|done].
  - apply load_generated; [done|]. apply IH. cbn [arith_ok] in Ha. rewrite !andb_true_iff in Ha. tauto.
  - cbn [arith_ok] in Ha. apply op_generated; [done|apply IH0|apply IH1]; rewrite !andb_true_iff in Ha; tauto.
  - now apply neg_generated, IH.
Qed.
End Expressions.

(** ** Comparisons *)

(** Live expressions that no other refers to count for the size only. *)
Lemma owns_drop h U G R : owns h U (G ++ R) -> owns h U R.
Proof.
  revert U; induction G as [|g G IH]; intros U; [done|]. intros (S & HS & _ & Ho). cbn [app] in Ho.
  eapply owns_frame; [exact (IH _ Ho)|set_solver|done].
Qed.

Lemma absorb_ret E' b f j G k : j + total G <= k -> triple E' (mk_item b f j :: G) (mret b) E' (is_item f k).
Proof.
  intros Hk R s Hs (Hf & Ht & (S & HS & Hl & Ho)). exists b, s, [mk_item b f k]. split; [done|]. split; [done|]. split; [done|].
  split; [done|]. split; [cbn [app] in *; rewrite total_cons, total_app in *; lia|].
  exists S. split; [done|]. split; [exact Hl|exact (owns_drop _ _ _ _ Ho)].
Qed.

Definition rel_test (code v0 v1 : Z) : bool :=
  if code =? BPF_JEQ then v0 =? v1 else if code =? BPF_JGT then v1 <? v0 else v1 <=? v0.
Definition rel_ok (code : Z) : bool := one_of code [BPF_JEQ; BPF_JGT; BPF_JGE].

Definition p_compare (code : Z) (f0 f1 : fvalue) : fpred := fun p w =>
  v0 ← f0 p w; v1 ← f1 p w; Some (rel_test code v0 v1).

(** The block of a comparison: equality by the difference, the others with X. *)
Definition rel_stmts (code : Z) (ss : slist) (a : nat) : slist :=
  if code =? BPF_JEQ then ss ++ [mk_snode a (mk_stmt (BPF_ALU ||| BPF_SUB ||| BPF_X) None None (s32 0))] else ss.

Lemma u32_sub_zero a b : 0 <= a < 2 ^ 32 -> 0 <= b < 2 ^ 32 -> (u32 (a - b) =? 0) = (a =? b).
Proof. intros Ha Hb. unfold u32. apply eq_true_iff_eq. rewrite !Z.eqb_eq. Z.div_mod_to_equations. lia. Qed.

Lemma decides_compare used used1 s0 n0 f0 s1 n1 f1 code a1 a2 a3 :
  stores used s0 n0 f0 -> stores used1 s1 n1 f1 -> 0 <= n0 < 16 -> 0 <= n1 < 16 ->
  used1 !! Z.to_nat n0 = Some true -> (forall i : Z, used !! Z.to_nat i = Some true -> used1 !! Z.to_nat i = Some true) ->
  rel_ok code = true ->
  decides (BTest (rel_stmts code (s0 ++ s1 ++ [mk_snode a1 (mk_stmt (BPF_LDX ||| BPF_MEM) None None (s32 n1))] ++
             [mk_snode a2 (mk_stmt (BPF_LD ||| BPF_MEM) None None (s32 n0))]) a3)
             (if code =? BPF_JEQ then code else code ||| BPF_X) (s32 0)) (p_compare code f0 f1).
Proof.
  intros S0 S1 Hn0 Hn1 Hu0 Hu Hrel.
  pose proof (fun p w r => operands_loaded used used1 s0 n0 f0 s1 n1 f1 a1 a2 p w r S0 S1 Hn0 Hn1 Hu0 Hu) as Hx. cbn zeta in Hx.
  assert (linear (s0 ++ s1 ++ [mk_snode a1 (mk_stmt (BPF_LDX ||| BPF_MEM) None None (s32 n1))] ++
             [mk_snode a2 (mk_stmt (BPF_LD ||| BPF_MEM) None None (s32 n0))]) = true) as Hlin
    by (destruct S0 as [L0 _], S1 as [L1 _]; rewrite !linear_app, L0, L1; reflexivity).
  set (ss := s0 ++ _) in *. clearbody ss. unfold rel_stmts, p_compare, rel_test.
  destruct (one_of_cases _ _ Hrel) as [<-|[<-|[<-|[]]]]; cbn [Z.eqb Pos.eqb BPF_JEQ BPF_JGT BPF_JGE].
  - split; [cbn [wf_bexp]; rewrite linear_app, Hlin; reflexivity|]. intros p w r Hp Hr. specialize (Hx p w r Hp Hr). cbn [eval_bexp].
    rewrite exec_stmts_app. destruct (f0 p w) as [v0|]; cbn [mbind option_bind agrees]; [|now rewrite Hx].
    destruct (f1 p w) as [v1|]; cbn [mbind option_bind agrees]; [|now rewrite Hx]. destruct Hx as (r' & -> & Hr' & <- & <- & _).
    change (BPF_ALU ||| BPF_SUB ||| BPF_X) with (BPF_ALU ||| BPF_X ||| BPF_SUB). rewrite (exec_alu_x p w BPF_SUB SUB) by done. cbn [alu exec_stmts].
    exists (set_A (u32 (rA r' - rX r')) r'). split; [|apply wf_set_A; [done|apply u32_range]].
    destruct Hr' as [HA HX _]. rewrite <- (u32_sub_zero _ _ HA HX). reflexivity.
  - split; [cbn [wf_bexp]; rewrite Hlin; reflexivity|]. intros p w r Hp Hr. specialize (Hx p w r Hp Hr). cbn [eval_bexp].
    destruct (f0 p w) as [v0|]; cbn [mbind option_bind agrees]; [|now rewrite Hx].
    destruct (f1 p w) as [v1|]; cbn [mbind option_bind agrees]; [|now rewrite Hx]. destruct Hx as (r' & -> & Hr' & <- & <- & _).
    exists r'. split; [reflexivity|done].
  - split; [cbn [wf_bexp]; rewrite Hlin; reflexivity|]. intros p w r Hp Hr. specialize (Hx p w r Hp Hr). cbn [eval_bexp].
    destruct (f0 p w) as [v0|]; cbn [mbind option_bind agrees]; [|now rewrite Hx].
    destruct (f1 p w) as [v1|]; cbn [mbind option_bind agrees]; [|now rewrite Hx]. destruct Hx as (r' & -> & Hr' & <- & <- & _).
    exists r'. split; [reflexivity|done].
Qed.

Lemma rel_stmts_app code s t a : rel_stmts code (s ++ t) a = s ++ rel_stmts code t a.
Proof. unfold rel_stmts. destruct (code =? BPF_JEQ); [now rewrite app_assoc|done]. Qed.

Lemma rel_stmts_bind {B} E' L code s1 (k : slist -> G B) E2 Q :
  (forall a, triple E' L (k (rel_stmts code s1 a)) E2 Q) ->
  triple E' L (s ← (if code =? BPF_JEQ then s2 ← new_stmt (BPF_ALU ||| BPF_SUB ||| BPF_X) 0; mret (sappend s1 s2) else mret s1); k s) E2 Q.
Proof.
  intros Hk. unfold rel_stmts in Hk. destruct (code =? BPF_JEQ).
  - apply triple_bind_assoc, new_stmt_bind. intros a. apply triple_ret_bind, Hk.
  - apply triple_ret_bind, (Hk 0%nat).
Qed.

(** The test of a comparison may be negated. *)
Lemma reversed_bind {B} E' L (rev : bool) b f n (k : unit -> G B) E2 Q :
  triple E' (mk_item b (if rev then p_not f else f) n :: L) (k tt) E2 Q ->
  triple E' (mk_item b f n :: L) ((if rev then g_not b else mret tt) ≫= k) E2 Q.
Proof. intros Hk. destruct rev; [eapply triple_not; [bring|exact Hk]|now apply triple_ret_bind]. Qed.

Section Relations.
Context `{LP : LinkPred} (E : genv) `{!LinkTests E}.

(** The tests of both operands. *)
Definition rel_check (c0 c1 : option fpred) : option fpred :=
  match c0, c1 with Some c0, Some c1 => Some (p_and c0 c1) | Some c0, None => Some c0 | None, c1 => c1 end.

Definition p_relation (code : Z) (reversed : bool) (a0 a1 : arith) : fpred :=
  let f := p_compare code (arith_val E a0) (arith_val E a1) in
  and_opt (rel_check (arith_check E a0) (arith_check E a1)) (if reversed then p_not f else f).

Definition relation_ok (code : Z) (a0 a1 : arith) : bool :=
  rel_ok code && arith_ok a0 && arith_ok a1 && (arith_need a0 `max` S (arith_need a1) <=? 16)%nat.
Definition relation_cost (a0 a1 : arith) : Z := 2 * (arith_cost a0 + arith_cost a1) + 10.

Lemma triple_perm {A} E1 L L' (m : G A) E2 Q : L ≡ₚ L' -> triple E1 L' m E2 Q -> triple E1 L m E2 Q.
Proof. intros HP H R s Hs Hi. apply (H R s Hs). eapply heap_inv_perm; [|exact Hi]. now rewrite HP. Qed.

(** Both checks in one, next to another expression. *)
Lemma checks_bind {B} E' i b0 c0 n0 L0 b1 c1 n1 L1 (k : option nat -> G B) E2 Q :
  checked b0 c0 n0 L0 -> checked b1 c1 n1 L1 ->
  (forall b L, checked b (rel_check c0 c1) (n0 + n1) L -> triple E' (i :: L) (k b) E2 Q) ->
  triple E' (i :: L1 ++ L0) (tmp ← match b0, b1 with
    | Some b0, Some b1 => _ ← g_and b0 b1; mret (Some b1)
    | Some b0, None => mret (Some b0)
    | None, b1 => mret b1
    end; k tmp) E2 Q.
Proof.
  intros [T0 H0] [T1 H1] Hk. destruct b0 as [b0|], c0 as [c0|]; try done.
  - destruct H0 as (m0 & G0 & P0). rewrite (total_perm _ _ P0), total_cons in T0. destruct b1 as [b1|], c1 as [c1|]; try done.
    + destruct H1 as (m1 & G1 & P1). rewrite (total_perm _ _ P1), total_cons in T1. apply triple_bind_assoc.
      eapply (triple_and _ _ (mk_item b1 c1 m1 :: i :: G1 ++ G0) b0 c0 m0 b1 c1 m1 (i :: G1 ++ G0)).
      * rewrite P0, P1. cbn [app]. rewrite <- (Permutation_middle G1 G0). rewrite !(perm_swap _ i). apply perm_swap.
      * reflexivity.
      * apply triple_ret_bind. eapply triple_perm; [apply perm_swap|]. apply Hk.
        split; [rewrite total_cons, total_app; lia|cbn [rel_check]; eauto using Permutation_refl].
    + apply triple_ret_bind, Hk. split; [rewrite total_app, (total_perm _ _ P0), total_cons; lia|]. cbn [rel_check].
      exists m0, (L1 ++ G0). rewrite P0. symmetry. apply Permutation_middle.
  - apply triple_ret_bind, Hk. split; [rewrite total_app; lia|]. cbn [rel_check]. destruct b1 as [b1|], c1 as [c1|]; try done.
    destruct H1 as (m1 & G1 & P1). exists m1, (G1 ++ L0). now rewrite P1.
Qed.

Lemma relation_generated code reversed a0 a1 r : relation_ok code a0 a1 = true ->
  regs_ok r -> nfree (regused r) = 16%nat ->
  exists r', regs_ok r' /\ regused r' = regused r /\
    triple (with_regs r E) [] (x0 ← gen_arith a0; x1 ← gen_arith a1; gen_relation code x0 x1 reversed) (with_regs r' E)
      (is_item (p_relation code reversed a0 a1) (relation_cost a0 a1)).
Proof.
  unfold relation_ok. rewrite !andb_true_iff, Nat.leb_le. intros [[[Hrel H0] H1] Hneed] Hr Hf.
  destruct (arith_generated E a0 H0 r Hr ltac:(lia)) as (n0 & r0 & T0 & G0). pose proof (nfree_takes _ _ _ T0).
  destruct (arith_generated E a1 H1 r0 (tk_ok _ _ _ T0) ltac:(lia)) as (n1 & r1 & T1 & G1).
  destruct (freed_first _ _ _ _ _ T0 T1) as [T2 _]. exists (freed n1 (freed n0 r1)).
  split; [apply freed_ok, (tk_ok _ _ _ T2)|]. split; [exact (freed_takes _ _ _ T2)|].
  eapply triple_bind; [exact G0|]. intros x0 L0 (X0 & S0 & K0 & C0).
  eapply triple_bind; [exact (triple_frame _ _ _ _ _ L0 G1)|]. intros x1 L1 (M & -> & X1 & S1 & K1 & C1).
  unfold gen_relation, xfer_to_x, xfer_to_a. apply new_stmt_bind. intros a2. apply new_stmt_bind. intros a3. rewrite X0, X1.
  assert (forall a4, decides (BTest (rel_stmts code _ a4) _ (s32 0)) (p_compare code (arith_val E a0) (arith_val E a1))) as Hd
    by (intros a4; exact (decides_compare (regused r) (regused r0) (ar_s x0) n0 _ (ar_s x1) n1 _ code a2 a3 a4 S0 S1
          (tk_range _ _ _ T0) (tk_range _ _ _ T1) (in_use_own _ _ _ T0) (fun i => in_use _ _ _ i T0) Hrel)).
  apply rel_stmts_bind. intros a4. cbn zeta. specialize (Hd a4). unfold sappend. rewrite !rel_stmts_app in Hd.
  eapply (test_bind _ _ _ _ _ _ (arith_cost a0 + arith_cost a1 + 3)); [exact Hd| |].
  { assert (slength (rel_stmts code [mk_snode a3 (mk_stmt (BPF_LD ||| BPF_MEM) None None (s32 n0))] a4) <= 2)
      by (unfold rel_stmts; destruct (code =? BPF_JEQ); slen).
    rewrite !slength_app. pose proof (slength_one (mk_snode a2 (mk_stmt (BPF_LDX ||| BPF_MEM) None None (s32 n1)))). lia. }
  intros b. apply reversed_bind, free_bind, free_bind.
  eapply checks_bind; [exact C0|exact C1|]. intros tmp L HL. eapply and_check_bind; [exact HL|]. intros j G HG.
  apply absorb_ret. unfold relation_cost. lia.
Qed.
End Relations.
