(* ===== verification/GenSem.v ===== *)
(** * What filter expressions decide

    A meaning for the expressions of GenExpr.v: [expr_pred] is the predicate on packets an
    expression stands for, [None] for an expression the generator refuses or one with a
    construct that is not covered (hardware addresses other than of Ethernet, DECnet,
    protochain, the tests that change the offsets). The generator makes a test that decides
    the predicate, for every link-layer type with [LinkTests]. *)
From stdpp Require Import base numbers list gmap.
From Stdlib Require Import Strings.Byte Strings.String.
From S2P Require Import Prelude BpfInsn BpfFilter BpfFilterProofs Icode Gencode GencodeFilter Layout LayoutProofs LayoutConvert LayoutLoop Compile LinkType GenConst GenState Names GenLoad GenLink GenHost GenPort GenArth GenMisc GenName GenExpr GenLogic GenTriple GenLoadProofs GenLinkProofs GenTestProofs GenArithProofs.
Open Scope Z_scope.

(** ** Addresses and ports as the qualifiers say *)

Definition host_proto_ok (proto : Z) : bool := one_of proto [Q_DEFAULT; Q_IP; Q_ARP; Q_RARP].

(** The transport protocol a qualifier names. *)
Definition transport_of (proto : Z) : option Z :=
  if proto =? Q_UDP then Some IPPROTO_UDP else if proto =? Q_TCP then Some IPPROTO_TCP
  else if proto =? Q_SCTP then Some IPPROTO_SCTP else if proto =? Q_DEFAULT then Some PROTO_UNDEF else None.

(** The one for a port that has a name, which may not belong to another protocol. *)
Definition named_transport (proto real : Z) : option Z :=
  t ← transport_of proto;
  if negb (transport_ok real) then None
  else if proto =? Q_DEFAULT then Some real
  else if (real =? t) || (real =? PROTO_UNDEF) then Some t else None.

Section Meaning.
Context `{LP : LinkPred} (E : genv).
Context (getservbyname : string -> string -> option Z) (getprotobyname getnetbyname : string -> option Z).
Context (getaddrinfo : string -> list addrinfo) (ether_hostton : string -> option (list byte)).

Definition p_port_either (port t dir : Z) : fpred := p_or (p_port6 E port t dir) (p_port E port t dir).
Definition p_portrange_either (port1 port2 t dir : Z) : fpred :=
  p_or (p_portrange6 E port1 port2 t dir) (p_portrange E port1 port2 t dir).

(** The leftmost [len] bits of an address. *)
Definition promote (n len : Z) : Z := u32 (Z.shiftl n (32 - len)).

(** A host or network, [n] under the mask [m]. *)
Definition net_pred (n m : Z) (q : qual) : option fpred :=
  if host_proto_ok (q_proto q) && dir_ok (q_dir q) then Some (p_host E n m (q_proto q) (q_dir q)) else None.

(** A number: [vlen] bits of an address, left-justified; a number alone as a network is
    justified by the octets that are 0. *)
Definition num_pred (alone : bool) (vlen v : Z) (q : qual) : option fpred :=
  if one_of (q_addr q) [Q_DEFAULT; Q_HOST; Q_NET] then
    if vlen <=? 32 then
      let '(v, mask) := if alone && (q_addr q =? Q_NET) then left_justify 4 v 0xffffffff
                        else (promote v vlen, promote 0xffffffff vlen) in
      net_pred v mask q
    else None
  else if one_of (q_addr q) [Q_PORT; Q_PORTRANGE] then
    t ← transport_of (q_proto q);
    if dir_ok (q_dir q) && is_port v
    then Some ((if q_addr q =? Q_PORT then p_port_either v else p_portrange_either v v) t (q_dir q)) else None
  else if q_addr q =? Q_PROTO then
    if one_of (q_proto q) [Q_DEFAULT; Q_IP; Q_IPV6; Q_LINK] && (q_dir q =? Q_DEFAULT) && (v <? 2 ^ 16)
    then Some (p_proto E v (q_proto q)) else None
  else None.

Definition is_address (v : Z) : bool := is_u32 v.

(** [a.b.c.d/masklen], [a.b.c.d mask e.f.g.h] *)
Definition mcode_pred (n m : Z) (q : qual) : option fpred :=
  if (q_addr q =? Q_NET) && ((n &&& u32 (Z.lnot m)) =? 0) then net_pred n m q else None.

(** An IPv6 address, and the first bits of one. *)
Definition host6_pred (a : list byte) (masklen : Z) (q : qual) : option fpred :=
  if (List.length a =? 16)%nat && (0 <=? masklen) && (masklen <=? 128) && negb (host_bits a (prefix_mask masklen)) &&
     one_of (q_proto q) [Q_DEFAULT; Q_IPV6] && dir_ok (q_dir q) &&
     ((one_of (q_addr q) [Q_DEFAULT; Q_HOST] && (masklen =? 128)) || (q_addr q =? Q_NET))
  then Some (p_host6 E a (prefix_mask masklen) (q_dir q)) else None.

(** The addresses of a name: any of those that are of the family asked for. [f] is the test
    so far. *)
Fixpoint addrs_pred (res : list addrinfo) (tproto tproto6 dir : Z) (f : option fpred) : option (option fpred) :=
  match res with
  | [] => Some f
  | r :: res =>
      t ← match r with
          | Ai4 a =>
              if tproto =? Q_IPV6 then Some None
              else if host_proto_ok tproto && is_address a then Some (Some (p_host E a 0xffffffff tproto dir)) else None
          | Ai6 a =>
              if tproto6 =? Q_IP then Some None
              else if one_of tproto6 [Q_DEFAULT; Q_IPV6] && (List.length a =? 16)%nat
              then Some (Some (p_host6 E a (replicate 16 (z2b 0xff)) dir)) else None
          | AiOther => Some None
          end;
      addrs_pred res tproto tproto6 dir
        (match t, f with None, _ => f | Some t, Some f => Some (p_or f t) | Some t, None => Some t end)
  end.

Definition name_pred (name : string) (q : qual) : option fpred :=
  let proto := q_proto q in
  if negb (dir_ok (q_dir q)) then None
  else if q_addr q =? Q_NET then
    let addr := pcap_nametonetaddr getnetbyname name in
    if negb (addr =? 0) && is_address addr
    then let '(addr, mask) := left_justify 4 addr 0xffffffff in net_pred addr mask q else None
  else if one_of (q_addr q) [Q_DEFAULT; Q_HOST] then
    if one_of proto [Q_LINK; Q_DECNET] then None
    else
      let any := (off_linktype (g_link E) =? neg1) && (proto =? Q_DEFAULT) in
      f ← addrs_pred (getaddrinfo name) (if any then Q_IP else proto) (if any then Q_IPV6 else proto) (q_dir q) None;
      f
  else if q_addr q =? Q_PORT then
    '(port, real) ← pcap_nametoport getservbyname name;
    t ← named_transport proto real;
    if is_port port then Some (p_port_either port t (q_dir q)) else None
  else if q_addr q =? Q_PORTRANGE then
    '(port1, port2, real) ← pcap_nametoportrange getservbyname name;
    t ← named_transport proto real;
    if is_port port1 && is_port port2 then Some (p_portrange_either port1 port2 t (q_dir q)) else None
  else None.

Definition prim_pred (p : prim) : option fpred :=
  match p with
  | PId name q => name_pred name q
  | PNum n q => num_pred true 32 (u32 n) q
  | PNet s masklen q =>
      let '(nlen, n) := __pcap_atoin s in
      if (nlen <=? 32) && (0 <=? masklen) && (masklen <=? 32)
      then mcode_pred (promote n nlen) (if masklen =? 0 then 0 else u32 (Z.shiftl 0xffffffff (32 - masklen))) q
      else None
  | PNetmask s mask q =>
      let '(nlen, n) := __pcap_atoin s in
      let '(mlen, m) := __pcap_atoin mask in
      if (nlen <=? 32) && (mlen <=? 32) then mcode_pred (promote n nlen) (promote m mlen) q else None
  | PHid s q =>
      match hid_error (q_addr q) with
      | None => let '(vlen, v) := __pcap_atoin s in
                if one_of (q_addr q) [Q_DEFAULT; Q_HOST; Q_NET] then num_pred false vlen v q else None
      | Some _ => None
      end
  | PHid6 s masklen q => match getaddrinfo s with [Ai6 a] => host6_pred a masklen q | _ => None end
  | PEid eaddr q =>
      if one_of (linktype E) dlt_ether && one_of (q_addr q) [Q_HOST; Q_DEFAULT] && (q_proto q =? Q_LINK) &&
         (List.length eaddr =? 6)%nat && dir_ok (q_dir q) && (0 <=? off_mac (g_link E)) && (off_mac (g_link E) <? 2 ^ 19)
      then Some (p_ehost E eaddr (q_dir q)) else None
  | PProto pname => p_abbrev E <$> abbrev_of pname
  | PRelation code reversed a0 a1 =>
      if relation_ok code a0 a1 then Some (p_relation E code reversed a0 a1) else None
  | PBroadcast pqual =>
      if (pqual =? Q_IP) && (0 <=? netmask E) && (netmask E <? 0xffffffff) then Some (p_broadcast E) else None
  | PMulticast pqual => if one_of pqual [Q_IP; Q_IPV6] then Some (p_multicast E pqual) else None
  | PLess n => if is_address n then Some (p_at_most n) else None
  | PGreater n => if is_address n then Some (p_len JGE n) else None
  | PByte idx op val =>
      if one_of op [61; 60; 62] && (0 <=? idx) && (idx <? 2 ^ 20) && is_address val then Some (p_byte E op idx val) else None
  | _ => None
  end.

(** Slots a test can take in the program. *)
Definition prim_cost (p : prim) : Z :=
  match p with
  | PId name _ => 520 * (1 + Z.of_nat (List.length (getaddrinfo name)))
  | PRelation _ _ a0 a1 => relation_cost a0 a1
  | _ => 520
  end.

Fixpoint expr_pred (e : expr) : option fpred :=
  match e with
  | EPrim p => prim_pred p
  | EAnd e0 e1 => f0 ← expr_pred e0; f1 ← expr_pred e1; Some (p_and f0 f1)
  | EOr e0 e1 => f0 ← expr_pred e0; f1 ← expr_pred e1; Some (p_or f0 f1)
  | ENot e => p_not <$> expr_pred e
  end.

Fixpoint expr_cost (e : expr) : Z :=
  match e with
  | EPrim p => prim_cost p
  | EAnd e0 e1 | EOr e0 e1 => expr_cost e0 + expr_cost e1
  | ENot e => expr_cost e
  end.

End Meaning.

(** ** The generator makes the test *)

Lemma option_if {A} (c : bool) (x y : A) : (if c then Some x else None) = Some y -> c = true /\ x = y.
Proof. destruct c; [|done]. now intros [= ->]. Qed.

(** Takes apart a test that succeeded. *)
Ltac success :=
  repeat match goal with
  | H : (if _ then Some _ else None) = Some _ |- _ => apply option_if in H as [H ?]
  | H : andb _ _ = true |- _ => apply andb_prop in H as [? ?]
  | H : Some _ = Some _ |- _ => injection H as H
  | H : None = Some _ |- _ => discriminate H
  end; subst.

Lemma left_justify_range fuel a m : 0 <= a < 2 ^ 32 -> 0 <= m < 2 ^ 32 ->
  0 <= fst (left_justify fuel a m) < 2 ^ 32 /\ 0 <= snd (left_justify fuel a m) < 2 ^ 32.
Proof.
  revert a m; induction fuel as [|n IH]; intros a m Ha Hm; cbn [left_justify fst snd]; [done|].
  destruct (_ && _); [apply IH; apply u32_range|done].
Qed.

Lemma transport_of_ok proto t : transport_of proto = Some t -> transport_ok t = true.
Proof. unfold transport_of. repeat (case_match; [now intros [= <-]|]). done. Qed.

Lemma named_transport_ok proto real t : named_transport proto real = Some t -> transport_ok t = true.
Proof.
  unfold named_transport. destruct (transport_of proto) as [t'|] eqn:Et; [|done]. cbn [mbind option_bind].
  destruct (transport_ok real) eqn:Er; [|done]. cbn [negb].
  destruct (proto =? Q_DEFAULT); [now intros [= <-]|]. intros H. success. now apply (transport_of_ok proto).
Qed.

(** [real_port_proto] takes the protocol. *)
Lemma real_port_proto_run proto real t msg : named_transport proto real = Some t ->
  one_of proto [Q_DEFAULT; Q_UDP; Q_TCP; Q_SCTP] = true /\ real_port_proto proto real msg = mret t.
Proof.
  unfold named_transport, transport_of, real_port_proto.
  destruct (proto =? Q_UDP) eqn:E1.
  { apply Z.eqb_eq in E1 as ->. cbn [mbind option_bind]. destruct (transport_ok real); [|done].
    change (Q_UDP =? Q_DEFAULT) with false. cbn [negb]. intros H. success. split; [done|].
    apply orb_prop in H as [->%Z.eqb_eq| ->%Z.eqb_eq]; reflexivity. }
  destruct (proto =? Q_TCP) eqn:E2.
  { apply Z.eqb_eq in E2 as ->. cbn [mbind option_bind]. destruct (transport_ok real); [|done].
    change (Q_TCP =? Q_DEFAULT) with false. cbn [negb]. intros H. success. split; [done|].
    apply orb_prop in H as [->%Z.eqb_eq| ->%Z.eqb_eq]; reflexivity. }
  destruct (proto =? Q_SCTP) eqn:E3.
  { apply Z.eqb_eq in E3 as ->. cbn [mbind option_bind]. destruct (transport_ok real); [|done].
    change (Q_SCTP =? Q_DEFAULT) with false. cbn [negb]. intros H. success. split; [done|].
    apply orb_prop in H as [->%Z.eqb_eq| ->%Z.eqb_eq]; reflexivity. }
  destruct (proto =? Q_DEFAULT) eqn:E4; [|done]. apply Z.eqb_eq in E4 as ->. cbn [mbind option_bind].
  destruct (transport_ok real); [|done]. intros [= ->]. done.
Qed.

Lemma check_port_run port : is_port port = true -> check_port port = mret tt.
Proof.
  unfold is_port, check_port. intros H.
  destruct (Z.ltb_spec port 0); [lia|]. destruct (Z.ltb_spec 65535 port); [lia|done].
Qed.

Lemma prefix_mask_length masklen : List.length (prefix_mask masklen) = 16%nat.
Proof.
  unfold prefix_mask. rewrite length_take, !length_app, length_replicate. change (replicate 16 (z2b 0)) with (repeat (z2b 0) 16).
  rewrite repeat_length. lia.
Qed.

Section Built.
Context `{LP : LinkPred} (E : genv) `{!LinkTests E} `{!NoEncap E}.
Context (getservbyname : string -> string -> option Z) (getprotobyname getnetbyname : string -> option Z).
Context (getaddrinfo : string -> list addrinfo) (ether_hostton : string -> option (list byte)).

Abbreviation gen_prim' := (gen_prim getservbyname getprotobyname getnetbyname getaddrinfo ether_hostton).
Abbreviation prim_pred' := (prim_pred E getservbyname getnetbyname getaddrinfo).

Lemma net_builds n m q f : net_pred E n m q = Some f -> 0 <= n < 2 ^ 32 -> 0 <= m < 2 ^ 32 ->
  builds E (gen_host n m (q_proto q) (q_dir q)) f 516.
Proof. intros H Hn Hm. unfold net_pred in H. success. now apply host_builds. Qed.

Lemma port_either_builds port t dir : is_port port = true -> transport_ok t = true -> dir_ok dir = true ->
  builds E (gen_port_either port t dir) (p_port_either E port t dir) 516.
Proof.
  intros Hp Ht Hd. unfold gen_port_either, p_port_either.
  pose proof (port_builds E port t dir Hp Ht Hd). pose proof (port6_builds E port t dir Hp Ht Hd).
  grun; [reflexivity|lia].
Qed.

Lemma portrange_either_builds port1 port2 t dir :
  is_port port1 = true -> is_port port2 = true -> transport_ok t = true -> dir_ok dir = true ->
  builds E (gen_portrange_either port1 port2 t dir) (p_portrange_either E port1 port2 t dir) 516.
Proof.
  intros H1 H2 Ht Hd. unfold gen_portrange_either, p_portrange_either.
  pose proof (portrange_builds E port1 port2 t dir H1 H2 Ht Hd). pose proof (portrange6_builds E port1 port2 t dir H1 H2 Ht Hd).
  grun; [reflexivity|lia].
Qed.

Lemma port_qualifier_run proto msg t : transport_of proto = Some t -> port_qualifier proto msg = mret t.
Proof. unfold transport_of, port_qualifier. now repeat (case_match; [intros [= <-]|]). Qed.

Lemma atoin_loop_range s : forall n addr len, 0 <= snd (atoin_loop s n addr len) < 2 ^ 32.
Proof.
  induction s as [|c s IH]; intros n addr len; cbn [atoin_loop snd].
  - apply lor_range; [apply u32_range|]. change 0xff with (Z.ones 8). rewrite Z.land_ones by lia.
    pose proof (Z.mod_pos_bound n (2 ^ 8)). lia.
  - destruct (_ =? _); apply IH.
Qed.
Lemma atoin_range s : 0 <= snd (__pcap_atoin s) < 2 ^ 32.
Proof. apply atoin_loop_range. Qed.

(** An address has at least 8 bits. *)
Lemma atoin_bits s : 8 <= fst (__pcap_atoin s).
Proof.
  unfold __pcap_atoin. enough (forall n addr len, 0 <= len -> 8 <= fst (atoin_loop s n addr len)) as H by now apply H.
  induction s as [|c s IH]; intros n addr len Hl; cbn [atoin_loop]; [cbn; lia|]. destruct (_ =? 46); apply IH; lia.
Qed.

Lemma shift_promote n len : 0 < len <= 32 -> shift_left n (32 - len) = mret (promote n len).
Proof. intros H. unfold shift_left. now rewrite (proj2 (andb_true_iff _ _)) by lia. Qed.

(** The bits a number has, and its value, for [gen_ncode]. *)
Definition read_number (s : option string) (v : Z) : Z * Z :=
  match s with None => (32, v) | Some s => __pcap_atoin s end.

Lemma ncode_builds s v q f :
  0 <= v < 2 ^ 32 -> (s <> None -> one_of (q_addr q) [Q_DEFAULT; Q_HOST; Q_NET] = true) ->
  num_pred E (bool_decide (s = None)) (fst (read_number s v)) (snd (read_number s v)) q = Some f ->
  builds E (gen_ncode s v q) f 516.
Proof.
  intros Hv Hs Hf. assert (0 <= snd (read_number s v) < 2 ^ 32) as Hr by (destruct s; [apply atoin_range|done]).
  unfold num_pred in Hf. destruct (one_of (q_addr q) [Q_DEFAULT; Q_HOST; Q_NET]) eqn:Eh.
  - destruct (Z.leb_spec (fst (read_number s v)) 32) as [Hlen|]; [|done].
    assert (0 < fst (read_number s v)) as Hpos by (destruct s as [s|]; [pose proof (atoin_bits s); cbn; lia|done]).
    assert ((q_proto q =? Q_DECNET) = false /\ (q_proto q =? Q_LINK) = false) as [N1 N2].
    { assert (host_proto_ok (q_proto q) = true) as Ho.
      { set (nm := if bool_decide (s = None) && _ then _ else _) in Hf. destruct nm as [n m].
        unfold net_pred in Hf. success. done. }
      destruct (one_of_cases _ _ Ho) as [<-|[<-|[<-|[<-|[]]]]]; done. }
    assert (gen_ncode s v q = let '(vlen, v) := read_number s v in
       let '(v, mask) := if bool_decide (s = None) && (q_addr q =? Q_NET) then left_justify 4 v 0xffffffff
                         else (promote v vlen, promote 0xffffffff vlen) in
       gen_host v mask (q_proto q) (q_dir q)) as ->.
    { unfold gen_ncode. destruct s as [s|]; cbn [read_number fst] in *; rewrite N1, N2, Eh.
      - destruct (__pcap_atoin s) as [l a]. cbn [fst] in *. cbv [mbind G_bind mret G_ret]. destruct (_ && _); [done|].
        rewrite !shift_promote by lia. reflexivity.
      - cbv [mbind G_bind mret G_ret]. destruct (_ && _); [now destruct (left_justify _ _ _)|]. rewrite !shift_promote by lia. reflexivity. }
    destruct (read_number s v) as [vlen v']. cbn [fst snd] in *. destruct (_ && _).
    + pose proof (left_justify_range 4 v' 0xffffffff Hr ltac:(lia)) as [H1 H2].
      destruct (left_justify 4 v' 0xffffffff) as [a m]. now apply net_builds.
    + apply net_builds; [done|apply u32_range..].
  - destruct s as [s|]; [discriminate Hs; done|]. cbn [read_number fst snd] in Hf.
    unfold gen_ncode, builds. apply triple_ret_bind. rewrite Eh. cbn [one_of existsb] in Hf. rewrite orb_false_r in Hf.
    destruct (q_addr q =? Q_PORT) eqn:Ep; [|destruct (q_addr q =? Q_PORTRANGE) eqn:Er]; cbn [orb] in Hf.
    1,2: destruct (transport_of (q_proto q)) as [t|] eqn:Et; [|done]; cbn [mbind option_bind] in Hf; success;
      rewrite (port_qualifier_run _ _ _ Et); apply triple_ret_bind; pose proof (transport_of_ok _ _ Et);
      assert ((65535 <? v) = false) as -> by (unfold is_port in *; lia).
    + now apply port_either_builds.
    + now apply portrange_either_builds.
    + destruct (q_addr q =? Q_PROTO) eqn:Eo; [|done]. success. apply Z.eqb_eq in Eo. rewrite Eo. branch.
      match goal with H : (q_dir q =? Q_DEFAULT) = true |- _ => apply Z.eqb_eq in H as -> end.
      assert (s32 v = v) as -> by (apply s32_id; lia).
      eapply builds_ext; [apply (proto_builds E v (q_proto q)); [done|done|lia]|done|lia].
Qed.

(** ** Names of hosts *)

(** The test of the addresses seen so far, if there is one, is the only live expression. *)
Definition so_far (f : option fpred) (n : Z) (b : option nat) (L : list item) : Prop :=
  match b, f with
  | Some b, Some f => L = [mk_item b f n]
  | None, None => L = []
  | _, _ => False
  end.

(** One more address. *)
Lemma addrs_step {B} tmp (f t : option fpred) n b L (k : option nat -> G B) Q :
  0 <= n -> so_far f n b L ->
  match t with Some t => exists m, tmp = (x ← m; mret (Some x)) /\ builds E m t 516 | None => tmp = mret None end ->
  (forall b' L', so_far (match t, f with None, _ => f | Some t, Some f => Some (p_or f t) | Some t, None => Some t end) (n + 516) b' L' ->
     triple E L' (k b') E Q) ->
  triple E L (t ← tmp;
    b ← match t, b with
        | None, _ => mret b
        | Some t, Some b => _ ← g_or b t; mret (Some t)
        | Some t, None => mret (Some t)
        end; k b) E Q.
Proof.
  intros Hn Hb Ht Hk. destruct t as [t|].
  - destruct Ht as (m & -> & Hm). apply triple_bind_assoc. eapply builds_bind; [exact Hm|]. intros x. apply triple_ret_bind.
    destruct b as [b|], f as [f|]; try done; cbn [so_far] in Hb; subst L.
    + apply triple_bind_assoc. eapply triple_or; [bring|bring|]. apply triple_ret_bind. now apply Hk.
    + apply triple_ret_bind. eapply triple_item; [reflexivity| |now apply (Hk (Some x))]. lia.
  - subst tmp. do 2 apply triple_ret_bind. destruct b as [b|], f as [f|]; try done; cbn [so_far] in Hb; subst L.
    + eapply triple_item; [reflexivity| |now apply (Hk (Some b))]. lia.
    + now apply (Hk None).
Qed.

Lemma gen_addrs_cons r res tproto tproto6 dir b :
  gen_addrs (r :: res) tproto tproto6 dir b =
  (tmp ← match r with
         | Ai4 a => if tproto =? Q_IPV6 then mret None else tmp ← gen_host a 0xffffffff tproto dir; mret (Some tmp)
         | Ai6 a => if tproto6 =? Q_IP then mret None
                    else tmp ← gen_host6 a (replicate 16 (z2b 0xff)) tproto6 dir; mret (Some tmp)
         | AiOther => mret None
         end;
   b ← match tmp, b with
       | None, _ => mret b
       | Some tmp, Some b => _ ← g_or b tmp; mret (Some tmp)
       | Some tmp, None => mret (Some tmp)
       end;
   gen_addrs res tproto tproto6 dir b).
Proof. reflexivity. Qed.

Lemma addrs_builds res tproto tproto6 dir : dir_ok dir = true -> forall f g n b L, 0 <= n ->
  addrs_pred E res tproto tproto6 dir f = Some g -> so_far f n b L ->
  triple E L (gen_addrs res tproto tproto6 dir b) E (so_far g (n + 516 * Z.of_nat (List.length res))).
Proof.
  intros Hd. induction res as [|r res IH]; intros f g n b L Hn Hg Hb.
  - cbn [addrs_pred] in Hg. injection Hg as ->. cbn [gen_addrs]. apply triple_ret. cbn [List.length].
    now replace (n + 516 * Z.of_nat 0) with n by lia.
  - cbn [addrs_pred] in Hg. rewrite gen_addrs_cons.
    destruct (match r with Ai4 _ => _ | Ai6 _ => _ | AiOther => _ end) as [t|] eqn:Et; [|done].
    cbn [mbind option_bind] in Hg. apply (addrs_step _ f t n); [exact Hn|exact Hb| |].
    + destruct r as [a|a|]; [destruct (tproto =? Q_IPV6)|destruct (tproto6 =? Q_IP)|]; success; try done; eexists; (split; [reflexivity|]).
      * unfold is_address, is_u32 in *. apply (host_builds E); [lia|lia|done|done].
      * eapply builds_ext; [apply (host6_builds E); [lia|now rewrite length_replicate|done|done]|done|lia].
    + intros b' L' Hb'. eapply triple_weaken; [refine (IH _ _ _ _ _ _ Hg Hb'); lia|]. intros b2 L2.
      cbn [List.length]. now replace (n + 516 + 516 * Z.of_nat (List.length res)) with (n + 516 * Z.of_nat (S (List.length res))) by lia.
Qed.

Lemma scode_host_builds name proto dir f :
  dir_ok dir = true ->
  (let any := (off_linktype (g_link E) =? neg1) && (proto =? Q_DEFAULT) in
   f ← addrs_pred E (getaddrinfo name) (if any then Q_IP else proto) (if any then Q_IPV6 else proto) dir None; f) = Some f ->
  builds E (gen_scode_host getaddrinfo name proto dir) f (516 * Z.of_nat (List.length (getaddrinfo name))).
Proof.
  cbn zeta. intros Hd Hf. unfold gen_scode_host, builds. set (res := getaddrinfo name) in *.
  set (any := (off_linktype (g_link E) =? neg1) && (proto =? Q_DEFAULT)) in *.
  set (tproto := if any then Q_IP else proto) in *. set (tproto6 := if any then Q_IPV6 else proto) in *.
  destruct (addrs_pred E res tproto tproto6 dir None) as [g|] eqn:Eg; [|done]. cbn [mbind option_bind] in Hf. subst g.
  assert (res <> []) as Hne by (intros ->; discriminate Eg).
  assert (forall (m0 m : G nat), match res with [] => m0 | _ :: _ => m end = m) as Hm by (now destruct res).
  rewrite Hm. apply triple_getv. eapply triple_bind; [apply (addrs_builds res tproto tproto6 dir Hd None (Some f) 0 None []); [lia|exact Eg|done]|].
  intros [b|] L HL; [|done]. cbn [so_far] in HL. subst L. gstep fail; [reflexivity|lia].
Qed.

(** ** Names, masks and the other tests *)

Abbreviation gen_scode' := (gen_scode getservbyname getprotobyname getnetbyname getaddrinfo ether_hostton).
Abbreviation cost := (prim_cost getaddrinfo).

Lemma scode_builds name q f : name_pred E getservbyname getnetbyname getaddrinfo name q = Some f ->
  builds E (gen_scode' name q) f (520 * (1 + Z.of_nat (List.length (getaddrinfo name)))).
Proof.
  intros Hf. unfold name_pred in Hf. destruct (dir_ok (q_dir q)) eqn:Hd; [cbn [negb] in Hf|done].
  unfold gen_scode. destruct (q_addr q =? Q_NET) eqn:E1.
  { destruct (pcap_nametonetaddr getnetbyname name =? 0); [done|].
    destruct (is_address _) eqn:Ea; [cbn [negb andb] in Hf|done]. unfold is_address, is_u32 in Ea.
    pose proof (left_justify_range 4 (pcap_nametonetaddr getnetbyname name) 0xffffffff ltac:(lia) ltac:(lia)) as [H1 H2].
    destruct (left_justify _ _ _) as [n m]. eapply builds_ext; [apply (net_builds n m q f); assumption|done|lia]. }
  destruct (one_of (q_addr q) [Q_DEFAULT; Q_HOST]) eqn:E2.
  { destruct (one_of (q_proto q) [Q_LINK; Q_DECNET]) eqn:E3; [done|].
    cbn [one_of existsb] in E3. rewrite !orb_false_iff in E3. destruct E3 as (-> & -> & _).
    eapply builds_ext; [now apply (scode_host_builds name (q_proto q) (q_dir q) f)|done|lia]. }
  destruct (q_addr q =? Q_PORT) eqn:E4.
  { destruct (pcap_nametoport getservbyname name) as [[port real]|]; [cbn [mbind option_bind] in Hf|done].
    destruct (named_transport (q_proto q) real) as [t|] eqn:Et; [cbn [mbind option_bind] in Hf|done]. success.
    destruct (real_port_proto_run _ _ _ (fun p => "port '%s' is " ++ p)%string Et) as [-> ->]. cbn [negb].
    pose proof (named_transport_ok _ _ _ Et). unfold builds. apply triple_ret_bind. rewrite check_port_run by done. apply triple_ret_bind.
    eapply builds_ext; [now apply port_either_builds|done|lia]. }
  destruct (q_addr q =? Q_PORTRANGE) eqn:E5; [|done].
  destruct (pcap_nametoportrange getservbyname name) as [[[port1 port2] real]|]; [cbn [mbind option_bind] in Hf|done].
  destruct (named_transport (q_proto q) real) as [t|] eqn:Et; [cbn [mbind option_bind] in Hf|done]. success.
  destruct (real_port_proto_run _ _ _ (fun p => "port in range '%s' is " ++ p)%string Et) as [-> ->]. cbn [negb].
  pose proof (named_transport_ok _ _ _ Et). unfold builds. apply triple_ret_bind.
  rewrite !check_port_run by done. do 2 apply triple_ret_bind.
  eapply builds_ext; [now apply portrange_either_builds|done|lia].
Qed.

Lemma mcode_net_builds n m q f (msg : G nat) : mcode_pred E n m q = Some f -> 0 <= n < 2 ^ 32 -> 0 <= m < 2 ^ 32 ->
  builds E (if q_addr q =? Q_NET then gen_host n m (q_proto q) (q_dir q) else msg) f 520 /\ ((n &&& u32 (Z.lnot m)) =? 0) = true.
Proof.
  intros H Hn Hm. unfold mcode_pred in H. destruct (_ && _) eqn:Ea; [|done]. success. split; [|done].
  match goal with H : (q_addr q =? Q_NET) = true |- _ => rewrite H end.
  eapply builds_ext; [now apply (net_builds n m q f)|done|lia].
Qed.

Lemma mcode_builds s masklen q f : prim_pred' (PNet s masklen q) = Some f -> builds E (gen_mcode s None masklen q) f 520.
Proof.
  cbn [prim_pred]. unfold gen_mcode. pose proof (atoin_bits s) as Hbits. destruct (__pcap_atoin s) as [nlen n]. intros Hf.
  cbn [fst] in Hbits. destruct (_ && _) eqn:Ec in Hf; [|done].
  rewrite (shift_promote n nlen) by lia. unfold builds. apply triple_ret_bind.
  assert ((32 <? masklen) = false) as -> by lia.
  set (m := if masklen =? 0 then 0 else u32 (Z.shiftl 0xffffffff (32 - masklen))) in *.
  assert ((if masklen =? 0 then mret 0 else shift_left 0xffffffff (32 - masklen)) = mret m :> G Z) as ->
    by (unfold m; destruct (Z.eqb_spec masklen 0); [done|now rewrite shift_promote by lia]).
  assert (0 <= m < 2 ^ 32) as Hm by (unfold m; destruct (_ =? _); [lia|apply u32_range]).
  destruct (mcode_net_builds _ m q f (bpf_error "Mask syntax for networks only") Hf (u32_range _) Hm) as [Hb Hz].
  apply triple_bind_assoc, triple_ret_bind. rewrite Hz. cbn [negb]. now apply triple_ret_bind.
Qed.

Lemma mcode_mask_builds s mask q f : prim_pred' (PNetmask s mask q) = Some f -> builds E (gen_mcode s (Some mask) 0 q) f 520.
Proof.
  cbn [prim_pred]. unfold gen_mcode. pose proof (atoin_bits s) as Hs. pose proof (atoin_bits mask) as Hmask.
  destruct (__pcap_atoin s) as [nlen n], (__pcap_atoin mask) as [mlen m]. intros Hf.
  cbn [fst] in Hs, Hmask. destruct (_ && _) eqn:Ec in Hf; [|done].
  rewrite (shift_promote n nlen), (shift_promote m mlen) by lia. unfold builds. apply triple_ret_bind.
  destruct (mcode_net_builds _ _ q f (bpf_error "Mask syntax for networks only") Hf (u32_range _) (u32_range _)) as [Hb Hz].
  apply triple_bind_assoc, triple_ret_bind. rewrite Hz. cbn [negb]. now apply triple_ret_bind.
Qed.

(** Numbers are of type [int]: where it wraps, net 10.0.0.0/4294967295 has the mask length -1,
    which is not found to be too large, and by which the mask is shifted all the same. *)
Theorem mcode_negative_masklen s q st : gen_mcode s None (-1) q st = GStuck.
Proof.
  unfold gen_mcode. destruct (__pcap_atoin s) as [nlen n]. cbv [mbind G_bind]. unfold shift_left at 1.
  now destruct (_ && _).
Qed.

Lemma mcode6_builds s masklen q f : prim_pred' (PHid6 s masklen q) = Some f ->
  builds E (gen_mcode6 getaddrinfo s None masklen q) f 520.
Proof.
  cbn [prim_pred]. unfold gen_mcode6. destruct (getaddrinfo s) as [|[|a|] [|]]; try done. intros Hf.
  unfold host6_pred in Hf. destruct (_ && _) eqn:Ec in Hf; [|done]. injection Hf as <-.
  rewrite !andb_true_iff, orb_true_iff in Ec. destruct Ec as [[[[[[Hl H0] H1] Hb] Hp] Hd] Ha].
  apply negb_true_iff in Hb. apply Nat.eqb_eq in Hl. unfold builds. apply triple_ret_bind.
  assert ((128 <? u64 masklen) = false) as -> by (unfold u64; rewrite Z.mod_small; lia). cbn zeta. rewrite Hb.
  pose proof (host6_builds E a (prefix_mask masklen) (q_proto q) (q_dir q) Hl (prefix_mask_length _) Hp Hd) as Hh.
  destruct Ha as [[Ha Hm]%andb_prop|Ha].
  - rewrite Ha, Hm. cbn [negb]. eapply builds_ext; [exact Hh|done|lia].
  - rewrite Ha. apply Z.eqb_eq in Ha. rewrite Ha. branch. eapply builds_ext; [exact Hh|done|lia].
Qed.

Lemma ecode_builds eaddr q f : prim_pred' (PEid eaddr q) = Some f -> builds E (gen_ecode eaddr q) f 520.
Proof.
  cbn [prim_pred]. intros Hf. destruct (_ && _) eqn:Ec in Hf; [|done]. injection Hf as <-.
  rewrite !andb_true_iff in Ec. destruct Ec as [[[[[[Hl Ha] Hp] He] Hd] H0] H1]. apply Nat.eqb_eq in He.
  unfold gen_ecode. rewrite Ha, Hp. cbn [andb]. unfold builds. apply triple_getv. rewrite Hl.
  eapply builds_ext; [apply (ehost_builds E); [done|lia|done]|done|lia].
Qed.

(** Every test the meaning covers, but for comparisons of arithmetic expressions. *)
Definition steady (p : prim) : bool := match p with PRelation _ _ _ _ => false | _ => true end.

Lemma prim_builds p f : steady p = true -> prim_pred' p = Some f -> builds E (gen_prim' p) f (cost p).
Proof.
  destruct p; try (intros _ [=]; fail); try (intros [=]; fail); intros _ Hf; cbn [gen_prim prim_cost].
  - now apply scode_builds.
  - cbn [prim_pred] in Hf. eapply builds_ext; [apply (ncode_builds None (u32 n) q f (u32_range n)); [done|exact Hf]|done|lia].
  - now apply mcode_builds.
  - now apply mcode_mask_builds.
  - cbn [prim_pred] in Hf. destruct (hid_error (q_addr q)); [done|].
    destruct (one_of (q_addr q) [Q_DEFAULT; Q_HOST; Q_NET]) eqn:Ea; [|now destruct (__pcap_atoin s)].
    eapply builds_ext; [apply (ncode_builds (Some s) 0 q f); [lia|done|]|done|lia]. cbn [read_number]. now destruct (__pcap_atoin s).
  - now apply mcode6_builds.
  - now apply ecode_builds.
  - cbn [prim_pred] in Hf. destruct (abbrev_of pname) as [a|] eqn:Ea; [|done]. injection Hf as <-.
    eapply builds_ext; [exact (abbrev_builds E pname a Ea)|done|lia].
  - cbn [prim_pred] in Hf. success. match goal with H : (pqual =? Q_IP) = true |- _ => apply Z.eqb_eq in H as -> end.
    eapply builds_ext; [apply (broadcast_builds E); lia|done|lia].
  - cbn [prim_pred] in Hf. success. eapply builds_ext; [apply (multicast_builds E); assumption|done|lia].
  - cbn [prim_pred] in Hf. success. unfold is_address, is_u32 in *. eapply builds_ext; [apply (less_builds E); lia|done|lia].
  - cbn [prim_pred] in Hf. success. unfold is_address, is_u32 in *. eapply builds_ext; [apply (greater_builds E); lia|done|lia].
  - cbn [prim_pred] in Hf. success. unfold is_address, is_u32 in *. eapply builds_ext; [apply (byteop_builds E); [done|lia|lia]|done|lia].
Qed.
End Built.

(** ** Expressions *)

(** Every register is free. *)
Definition idle (r : registers) : Prop := regs_ok r /\ nfree (regused r) = 16%nat.

(** The expression is made whichever register is tried next. *)
Definition makes (E : genv) (m : G nat) (f : fpred) (n : Z) : Prop := forall r, idle r ->
  exists r', idle r' /\ triple (with_regs r E) [] m (with_regs r' E) (is_item f n).

Lemma makes_steady E m f n : (forall r, builds (with_regs r E) m f n) -> makes E m f n.
Proof. intros Hb r Hr. exists r. split; [done|]. apply Hb. Qed.

(** Two expressions, combined. *)
Lemma makes_pair E m0 f0 n0 m1 f1 n1 (op : nat -> nat -> G unit) g :
  makes E m0 f0 n0 -> makes E m1 f1 n1 ->
  (forall E b0 b1, triple E [mk_item b1 f1 n1; mk_item b0 f0 n0] (_ ← op b0 b1; mret b1) E (is_item g (n0 + n1))) ->
  makes E (b0 ← m0; b1 ← m1; _ ← op b0 b1; mret b1) g (n0 + n1).
Proof.
  intros H0 H1 Hop r Hr. destruct (H0 r Hr) as (r0 & Hr0 & T0). destruct (H1 r0 Hr0) as (r1 & Hr1 & T1).
  exists r1. split; [done|]. eapply triple_bind; [exact T0|]. intros b0 L0 ->.
  eapply triple_bind; [exact (triple_frame _ [] _ _ _ [mk_item b0 f0 n0] T1)|]. intros b1 L1 (L & -> & ->). apply Hop.
Qed.

Section Exprs.
Context `{LP : LinkPred} (E : genv) `{!LinkTests E} `{!NoEncap E}.
Context (getservbyname : string -> string -> option Z) (getprotobyname getnetbyname : string -> option Z).
Context (getaddrinfo : string -> list addrinfo) (ether_hostton : string -> option (list byte)).

Lemma prim_makes p f : prim_pred E getservbyname getnetbyname getaddrinfo p = Some f ->
  makes E (gen_prim getservbyname getprotobyname getnetbyname getaddrinfo ether_hostton p) f (prim_cost getaddrinfo p).
Proof.
  intros Hf. destruct (steady p) eqn:Hs.
  - apply makes_steady. intros r. apply (prim_builds (with_regs r E)); [done|exact Hf].
  - destruct p as [ | | | | | | | | |code reversed a0 a1| | | | | | | | | | | | | | | | | ]; try discriminate Hs.
    cbn [prim_pred] in Hf. success. intros r [Hr Hfree].
    destruct (relation_generated E code reversed a0 a1 r Hf Hr Hfree) as (r' & Hr' & Hu & Ht).
    exists r'. split; [split; [done|now rewrite Hu]|exact Ht].
Qed.

Lemma expr_makes e f : expr_pred E getservbyname getnetbyname getaddrinfo e = Some f ->
  makes E (gen_expr getservbyname getprotobyname getnetbyname getaddrinfo ether_hostton e) f (expr_cost getaddrinfo e).
Proof.
  revert f; induction e as [p|e0 IH0 e1 IH1|e0 IH0 e1 IH1|e IH]; intros f Hf; cbn [expr_pred gen_expr expr_cost] in *.
  - now apply prim_makes.
  - destruct (expr_pred E _ _ _ e0) as [f0|]; [|done]. destruct (expr_pred E _ _ _ e1) as [f1|]; [|done]. injection Hf as <-.
    apply (makes_pair E _ f0 _ _ f1 _ g_and); [now apply IH0|now apply IH1|]. intros E' b0 b1. grun; [reflexivity|lia].
  - destruct (expr_pred E _ _ _ e0) as [f0|]; [|done]. destruct (expr_pred E _ _ _ e1) as [f1|]; [|done]. injection Hf as <-.
    apply (makes_pair E _ f0 _ _ f1 _ g_or); [now apply IH0|now apply IH1|]. intros E' b0 b1. grun; [reflexivity|lia].
  - destruct (expr_pred E _ _ _ e) as [f0|]; [|done]. injection Hf as <-. intros r Hr.
    destruct (IH f0 eq_refl r Hr) as (r' & Hr' & T). exists r'. split; [done|].
    eapply triple_bind; [exact T|]. intros b L ->. grun; [reflexivity|lia].
Qed.
End Exprs.
