(* ===== verification/GenCompile.v ===== *)
(** * The compiler, from the parse tree of the language to the program

    [pcap_compile_filter] makes, for an expression with a meaning, a program that decides
    it: the generator makes a test that decides the predicate (GenSem.v), [close_parse]
    closes the graph, [icode_to_fcode] lays it out, and [bpf_filter] runs it. *)
From stdpp Require Import base numbers list gmap.
From Stdlib Require Import Strings.Byte Strings.String.
From S2P Require Import Prelude BpfInsn BpfFilter BpfFilterProofs Icode Gencode GencodeProofs GencodeFilter Layout LayoutProofs LayoutConvert LayoutLoop Compile LinkType GenConst GenState Names GenLoad GenLink GenHost GenPort GenArth GenMisc GenName GenFinish GenExpr GenLogic GenTriple GenLoadProofs GenLinkProofs GenTestProofs GenArithProofs GenSem.
Open Scope Z_scope.

(** ** The end of the parser *)

(** The header has a fixed length, and there is nothing to compute at its start. *)
Lemma no_vloffsets b s B : one_of (linktype (gs_env s)) dlt_802_11 = false -> gs_heap s !! b = Some B ->
  insert_compute_vloffsets b s = GOk tt s.
Proof.
  intros Hd Hb. unfold insert_compute_vloffsets. cbv [mbind G_bind getv]. pose proof Hd as H.
  unfold dlt_802_11 in H. cbn [one_of existsb] in H. rewrite !orb_false_iff in H. destruct H as (H1 & H2 & H3 & H4 & H5 & _).
  rewrite H2, H3, H4, H5. cbn [mret G_ret]. unfold block_stmts. rewrite Hb, Hd. reflexivity.
Qed.

Lemma no_dlt_check s : one_of (linktype (gs_env s)) dlt_802_11 = false -> gen_ppi_dlt_check s = GOk None s.
Proof.
  intros Hd. unfold gen_ppi_dlt_check. cbv [mbind G_bind getv]. unfold dlt_802_11 in Hd. cbn [one_of existsb] in Hd.
  rewrite !orb_false_iff in Hd. now destruct Hd as (_ & _ & _ & _ & -> & _).
Qed.

(** A test that decides [f] becomes a program that does. *)
Lemma finished_program h b f n R snaplen :
  heap_inv h (mk_item b f n :: R) -> n + total R < 2 ^ 30 ->
  exists B root h', h !! b = Some B /\ is_Some (h !! b_head B) /\ close_parse h b snaplen = Some (root, h') /\
  exists code h2, icode_to_fcode 0 h' root = Some (code, h2) /\
    forall p w mem, packet_ok p w -> Z.of_nat (List.length mem) = BPF_MEMWORDS ->
      exists m, forall fuel, (m <= fuel)%nat ->
        bpf_filter fuel mem (Some code) p w (Z.of_nat (List.length p)) =
        Return (match f p w with Some true => u32 snaplen | _ => 0 end).
Proof.
  intros (Hfb & Hs & S & _ & (e & T & F & [_ Hd] & HD) & _) Hn. cbn [it_block it_pred] in *. rewrite total_cons in Hs.
  destruct (HD [] 0 0) as (hd & Hex & _). destruct (expr_block _ _ _ _ _ _ Hex) as (B & HB & Hhd).
  destruct (finish_parse_verdict [] 0 0 h b S T F _ snaplen (HD [] 0 0)) as (root & h' & Hfp & _).
  exists B, root, h'. split; [done|]. split.
  { rewrite Hhd. destruct (ex_closed _ _ _ _ _ _ Hex hd (ex_head _ _ _ _ _ _ Hex)) as (b0 & Hb0 & _). eauto. }
  split; [done|]. destruct (finished_closed _ _ _ _ _ _ _ _ _ Hex Hfp) as (C & rank & Hroot & Hc).
  destruct (finish_parse_grown _ _ _ _ _ Hfp) as [G1 G2].
  assert (layable 0 h' C rank) as Hlay by (apply fresh_layable; [lia|auto|lia|done]).
  destruct (icode_to_fcode_runs _ _ _ _ _ Hlay Hroot) as (code & h2 & E & Hrun). exists code, h2. split; [done|].
  intros p w mem Hp Hmem. destruct (finish_parse_verdict p w (Z.of_nat (List.length p)) h b S T F _ snaplen (HD p w _)) as (root2 & h3 & Hfp2 & Hflow).
  rewrite Hfp in Hfp2. injection Hfp2 as <- <-. specialize (Hflow (mk_regs 0 0 mem)).
  assert (verdict snaplen (eval_bexp p w (Z.of_nat (List.length p)) e (mk_regs 0 0 mem)) =
    Return (match f p w with Some true => u32 snaplen | _ => 0 end)) as Hv.
  { assert (wf_regs (mk_regs 0 0 mem)) as Hr by (split; [cbn; lia|cbn; lia|done]). specialize (Hd p w _ Hp Hr).
    destruct (f p w) as [[]|]; cbn [agrees] in Hd; [destruct Hd as (r' & -> & _)..|rewrite Hd]; reflexivity. }
  rewrite Hv in Hflow. destruct (flow_graph_run _ _ _ _ _ _ _ Hflow) as (fuel & Hg). exact (Hrun _ _ _ _ _ _ Hg).
Qed.

(** What [finish_parse] does for a header of fixed length: the root of [close_parse]. *)
Lemma gen_finish_parse_run s b B root h n :
  one_of (linktype (gs_env s)) dlt_802_11 = false -> gs_heap s !! b = Some B -> is_Some (gs_heap s !! b_head B) ->
  snaplen (gs_env s) = n -> close_parse (gs_heap s) b n = Some (root, h) ->
  finish_parse b s = GOk root (mk_gstate (gs_env s) h (gs_addr s)).
Proof.
  intros Hd HB [Bh Hh] Hn Hf. unfold finish_parse. cbv [mbind G_bind]. unfold block_head. rewrite HB.
  rewrite (no_vloffsets _ _ Bh Hd Hh), (no_dlt_check _ Hd). cbn [mret G_ret getv]. unfold getv. rewrite Hn.
  unfold close_graph. now rewrite Hf.
Qed.

(** ** The start of the parser *)

(** The variables when the parser starts, whose registers are all free. *)
Definition fresh_registers : registers := mk_registers (replicate 16 false) 0 (-1) (-1).

Definition link_env (dlt fddipad snaplen netmask : Z) (rfile swapped : bool) : genv :=
  let '(lt, macpl, nl, nosnap) := default (0, 0, 0, 0) (linktype_offsets dlt fddipad) in
  mk_genv dlt fddipad
    (mk_link 0 (linktype_off_mac dlt) macpl (one_of dlt dlt_802_11) lt nl nosnap)
    (linktype_atm dlt) (linktype_ss7 dlt) (mk_encap false neg1 neg1 0) fresh_registers
    false snaplen netmask rfile swapped.

Lemma fresh_idle : idle fresh_registers.
Proof. split; [split; [reflexivity|vm_compute; split; [intros [=]|reflexivity]]|reflexivity]. Qed.

Section Compiler.
Context (dlt fddipad snaplen netmask : Z) (rfile swapped : bool).

Definition start_state (e : genv) : gstate := mk_gstate e ∅ 0.

Lemma init_run {A} (k : G A) : is_Some (linktype_offsets dlt fddipad) ->
  (_ ← init_regs; _ ← init_linktype dlt fddipad; k) (start_state (start_env netmask snaplen rfile swapped)) =
  k (start_state (link_env dlt fddipad snaplen netmask rfile swapped)).
Proof.
  intros [[[[lt macpl] nl] nosnap] Hx]. cbv [mbind G_bind]. unfold init_regs, setv, start_state. cbn [gs_env gs_heap gs_addr].
  unfold init_linktype, link_env. rewrite Hx. reflexivity.
Qed.

(** An expression the generator makes into a test of [f] is compiled into a program that
    decides [f]. *)
Lemma made_compiles rounds (m : G nat) f n :
  snaplen <> 0 -> is_Some (linktype_offsets dlt fddipad) -> one_of dlt dlt_802_11 = false -> n < 2 ^ 30 ->
  makes (link_env dlt fddipad snaplen netmask rfile swapped) m f n ->
  exists code,
    pcap_compile_filter rounds false true dlt fddipad snaplen netmask rfile swapped (b ← m; mret (Some b)) =
      Some (Result (Compiled code)) /\
    forall p w mem, packet_ok p w -> Z.of_nat (List.length mem) = BPF_MEMWORDS ->
      exists k, forall fuel, (k <= fuel)%nat ->
        bpf_filter fuel mem (Some code) p w (Z.of_nat (List.length p)) =
        Return (match f p w with Some true => u32 snaplen | _ => 0 end).
Proof.
  intros Hs Hx Hd Hn Hm. set (E := link_env dlt fddipad snaplen netmask rfile swapped) in *.
  assert (g_regs E = fresh_registers) as Hregs by (subst E; unfold link_env; destruct Hx as [[[[? ?] ?] ?] ->]; reflexivity).
  assert (linktype E = dlt /\ GenState.snaplen E = snaplen) as [Hdlt Hsnap]
    by (subst E; unfold link_env; destruct Hx as [[[[? ?] ?] ?] ->]; done).
  destruct (Hm fresh_registers fresh_idle) as (r' & _ & T). rewrite <- Hregs, with_own_regs in T.
  destruct (T [] (start_state E) eq_refl) as (b & s & L & Hrun & HE & -> & Hinv); [exact heap_inv_empty|].
  destruct (finished_program (gs_heap s) b f n [] snaplen Hinv) as (B & root & h & HB & HBh & Hfp & code & h2 & Hcode & Hp);
    [cbn; lia|].
  exists code. split; [|exact Hp]. unfold pcap_compile_filter. cbn [negb].
  assert ((snaplen =? 0) = false) as -> by now apply Z.eqb_neq.
  unfold gen_program. change (mk_gstate (start_env netmask snaplen rfile swapped) ∅ 0) with (start_state (start_env netmask snaplen rfile swapped)).
  rewrite init_run by done. fold E. cbv [mbind G_bind]. rewrite Hrun. cbn [mret G_ret].
  rewrite (gen_finish_parse_run s b B root h snaplen); [|now rewrite HE, <- Hdlt in *|done|done|now rewrite HE|done].
  cbn [andb gs_heap gs_env]. unfold compile_graph. rewrite Hcode. reflexivity.
Qed.
End Compiler.

(** ** The families of link-layer types *)

Section Family.
Context (dlt fddipad snaplen netmask : Z) (rfile swapped : bool).
Context (Hdlt : one_of dlt families = true) (Hpad : 0 <= fddipad < 2 ^ 16).
Abbreviation E := (link_env dlt fddipad snaplen netmask rfile swapped).

Ltac family_cases :=
  destruct (one_of_cases _ _ Hdlt) as [<-|[<-|[<-|[<-|[<-|[<-|[<-|[<-|[<-|[<-|[<-|[<-|[]]]]]]]]]]]]].
Lemma family_linktype : linktype E = dlt.
Proof. now family_cases. Qed.

Lemma family_802_11 : one_of dlt dlt_802_11 = false.
Proof. now family_cases. Qed.

(** Where the headers are. *)
Lemma family_offsets : exists lt macpl nl nosnap, linktype_offsets dlt fddipad = Some (lt, macpl, nl, nosnap) /\
  (dlt = DLT_RAW \/ 0 <= lt < 2 ^ 17) /\ 0 <= macpl < 2 ^ 17 /\ 0 <= nl < 64.
Proof.
  assert (0 <= u32 (13 + fddipad) < 2 ^ 17) by (rewrite u32_id by lia; lia).
  family_cases; (do 4 eexists; split; [reflexivity|]); (split; [first [right; lia|left; reflexivity]|lia]).
Qed.

Lemma family_link : exists lt macpl nl nosnap, g_link E = mk_link 0 (linktype_off_mac dlt) macpl false lt nl nosnap /\
  (dlt = DLT_RAW \/ 0 <= lt < 2 ^ 17) /\ 0 <= macpl < 2 ^ 17 /\ 0 <= nl < 64.
Proof.
  destruct family_offsets as (lt & macpl & nl & nosnap & Hx & ?). exists lt, macpl, nl, nosnap. split; [|done].
  unfold link_env. rewrite Hx, family_802_11. reflexivity.
Qed.

#[local] Instance family_plain : PlainLink E.
Proof.
  destruct family_link as (lt & macpl & nl & nosnap & Hl & _ & Hm & Hn).
  split; [split|..]; rewrite ?Hl; cbn [off_ll off_macpl off_nl off_macpl_is_variable]; [done| |lia..].
  rewrite family_linktype. now family_cases.
Qed.

#[local] Instance family_no_encap : NoEncap E.
Proof. now family_cases. Qed.

#[local] Instance family_small : SmallType E.
Proof.
  destruct family_link as (lt & macpl & nl & nosnap & Hl & Ht & _). intros Hraw. rewrite family_linktype in Hraw.
  rewrite Hl. cbn [off_linktype]. destruct Ht; [contradiction|lia].
Qed.

#[local] Instance family_tests : LinkTests E.
Proof.
  assert (TCEq (one_of (linktype E) families) true) by (rewrite family_linktype, Hdlt; constructor). apply _.
Qed.
End Family.

(** ** [pcap_compile] *)

Section Filters.
Context (getservbyname : string -> string -> option Z) (getprotobyname getnetbyname : string -> option Z).
Context (getaddrinfo : string -> list addrinfo) (ether_hostton : string -> option (list byte)).

(** What a filter makes of a packet: the whole of it, or nothing. *)
Definition accepts (snaplen : Z) (v : option bool) : outcome :=
  Return (match v with Some true => u32 snaplen | _ => 0 end).

(** [code] decides [f], on every packet and every link to its scratch memory. *)
Definition runs (code : list bpf_insn) (snaplen : Z) (f : fpred) : Prop :=
  forall p w mem, packet_ok p w -> Z.of_nat (List.length mem) = BPF_MEMWORDS ->
    exists k, forall fuel, (k <= fuel)%nat ->
      bpf_filter fuel mem (Some code) p w (Z.of_nat (List.length p)) = accepts snaplen (f p w).

Abbreviation prog := (gen_prog getservbyname getprotobyname getnetbyname getaddrinfo ether_hostton).

Lemma expr_compiles rounds dlt fddipad snaplen netmask rfile swapped e f :
  one_of dlt families = true -> 0 <= fddipad < 2 ^ 16 -> snaplen <> 0 ->
  expr_pred (link_env dlt fddipad snaplen netmask rfile swapped) getservbyname getnetbyname getaddrinfo e = Some f ->
  expr_cost getaddrinfo e < 2 ^ 30 ->
  exists code,
    pcap_compile_filter rounds false true dlt fddipad snaplen netmask rfile swapped (prog (Some e)) =
      Some (Result (Compiled code)) /\ runs code snaplen f.
Proof.
  intros Hd Hpad Hs He Hc. pose proof (family_tests dlt fddipad snaplen netmask rfile swapped Hd Hpad).
  pose proof (family_no_encap dlt fddipad snaplen netmask rfile swapped Hd Hpad).
  apply (made_compiles dlt fddipad snaplen netmask rfile swapped rounds _ f (expr_cost getaddrinfo e)); [done| | |done|].
  - destruct (family_offsets dlt fddipad Hd Hpad) as (? & ? & ? & ? & -> & _). eauto.
  - now apply family_802_11.
  - apply (expr_makes (link_env dlt fddipad snaplen netmask rfile swapped)); assumption.
Qed.
End Filters.

(** * Filters for hosts and ports, read on Ethernet frames

    The predicates of GenSem.v follow the tests the generator makes. Here two of the filters
    in most use, compiled for Ethernet, against a description of the frames they select that
    is written from the layout of the headers: [host] with an IPv4 address, and [port] with a
    transport protocol. A field outside the captured part of the frame has no value, and the
    frame is not selected for it. *)


(** ** The frames *)

(** A field of the captured part of a frame holds a value. *)
Definition has (sz : bpf_size) (p : list byte) (k v : Z) : bool :=
  match extract sz p k with Some a => a =? v | None => false end.

(** Source, destination, both or either. *)
Definition directed (dir : Z) (src dst : bool) : bool :=
  if dir =? Q_SRC then src else if dir =? Q_DST then dst
  else if dir =? Q_AND then src && dst else src || dst.

(** The type of an Ethernet II frame is at 12; addresses of an IPv4 header at 26 and 30, of
    an ARP or RARP packet at 28 and 38. *)
Definition frame_host (a dir : Z) (p : list byte) : bool :=
  (has SzH p 12 0x0800 && directed dir (has SzW p 26 a) (has SzW p 30 a)) ||
  ((has SzH p 12 0x0806 || has SzH p 12 0x8035) && directed dir (has SzW p 28 a) (has SzW p 38 a)).

(** The transport header of IPv4 is after the options, and only in the first fragment. *)
Definition first_fragment (p : list byte) : bool :=
  match extract SzH p 20 with Some v => (v &&& 0x1fff) =? 0 | None => false end.
Definition transport4 (p : list byte) : Z :=
  14 + 4 * (match extract SzB p 14 with Some b => b mod 16 | None => 0 end).

Definition frame_port (t port dir : Z) (p : list byte) : bool :=
  (has SzH p 12 0x0800 && has SzB p 23 t && first_fragment p &&
   directed dir (has SzH p (transport4 p) port) (has SzH p (transport4 p + 2) port)) ||
  (has SzH p 12 0x86dd && has SzB p 20 t && directed dir (has SzH p 54 port) (has SzH p 56 port)).

(** ** The predicates *)

Definition holds (f : fpred) (p : list byte) (w : Z) : bool :=
  match f p w with Some b => b | None => false end.

Lemma holds_accepts f p w n : accepts n (f p w) = Return (if holds f p w then u32 n else 0).
Proof. unfold holds, accepts. now destruct (f p w) as [[]|]. Qed.

Lemma holds_and f g p w : holds (p_and f g) p w = holds f p w && holds g p w.
Proof. unfold holds, p_and. now destruct (f p w) as [[]|]. Qed.

(** A test that could not be made ends the program, so the second must fail as well. *)
Lemma holds_or f g p w : (f p w = None -> holds g p w = false) -> holds (p_or f g) p w = holds f p w || holds g p w.
Proof. unfold holds, p_or. destruct (f p w) as [[]|]; [done..|]. intros H. now rewrite H. Qed.

Lemma holds_dir dir src dst p w : (src p w = None -> holds dst p w = false) ->
  holds (p_dir dir src dst) p w = directed dir (holds src p w) (holds dst p w).
Proof.
  intros H. unfold p_dir, directed. destruct (dir =? Q_SRC); [done|]. destruct (dir =? Q_DST); [done|].
  destruct (dir =? Q_AND); [apply holds_and|now apply holds_or].
Qed.

Lemma directed_false dir : directed dir false false = false.
Proof. unfold directed. now repeat case_match. Qed.

Lemma extract_beyond sz sz' p k k' : extract sz p k = None -> 0 <= k ->
  k + Z.of_nat (size_bytes sz) <= k' + Z.of_nat (size_bytes sz') -> extract sz' p k' = None.
Proof.
  unfold extract. rewrite !bytes_at_Some. intros H Hk Hle.
  destruct (Z.leb_spec 0 k); [|lia]. cbn [andb] in H.
  destruct (Z.leb_spec (k + Z.of_nat (size_bytes sz)) (Z.of_nat (List.length p))); [discriminate H|].
  destruct (Z.leb_spec (k' + Z.of_nat (size_bytes sz')) (Z.of_nat (List.length p))); [lia|].
  now rewrite andb_false_r.
Qed.

Lemma has_beyond sz sz' p k k' v : extract sz p k = None -> 0 <= k ->
  k + Z.of_nat (size_bytes sz) <= k' + Z.of_nat (size_bytes sz') -> has sz' p k' v = false.
Proof. intros H H0 H1. unfold has. now rewrite (extract_beyond _ sz' _ _ k' H). Qed.

Section Ethernet.
Context (fddipad snaplen netmask : Z) (rfile swapped : bool).
Abbreviation E := (link_env DLT_EN10MB fddipad snaplen netmask rfile swapped).

Definition tested_types : list Z := [ETHERTYPE_IP; ETHERTYPE_ARP; ETHERTYPE_REVARP; ETHERTYPE_IPV6].

Lemma ether_type_test t p w : one_of t tested_types = true -> lt_pred E t p w = (fun a => a =? t) <$> extract SzH p 12.
Proof. intros Ht. now destruct (one_of_cases _ _ Ht) as [<-|[<-|[<-|[<-|[]]]]]. Qed.

(** A test of frames of one type. *)
Lemma typed_at t f p w : one_of t tested_types = true ->
  p_and (lt_pred E t) f p w =
  match extract SzH p 12 with Some a => if a =? t then f p w else Some false | None => None end.
Proof. intros Ht. unfold p_and. rewrite ether_type_test by done. destruct (extract SzH p 12) as [a|]; [cbn; now destruct (a =? t)|done]. Qed.

Lemma typed_dir t dir f g p w : one_of t tested_types = true ->
  p_dir dir (p_and (lt_pred E t) f) (p_and (lt_pred E t) g) p w =
  match extract SzH p 12 with Some a => if a =? t then p_dir dir f g p w else Some false | None => None end.
Proof.
  intros Ht. pose proof (typed_at t f p w Ht) as Hf. pose proof (typed_at t g p w Ht) as Hg. revert Hf Hg. unfold p_dir.
  destruct (dir =? Q_SRC); [done|]. destruct (dir =? Q_DST); [done|].
  generalize (p_and (lt_pred E t) f) (p_and (lt_pred E t) g). intros f' g' Hf Hg.
  destruct (dir =? Q_AND); unfold p_and, p_or; rewrite Hf, Hg; destruct (extract SzH p 12) as [a|]; [|done| |done];
    now destruct (a =? t).
Qed.

(** ** [host] *)

Lemma address_at a offset p w : 0 <= a < 2 ^ 32 ->
  p_masked E OR_NET SzW offset a 0xffffffff p w = (fun x => x =? a) <$> extract SzW p (14 + offset).
Proof.
  intros Ha. unfold p_masked, p_field. change (hdr E OR_NET SzW offset p w) with (extract SzW p (14 + offset)).
  destruct (extract SzW p (14 + offset)) as [x|] eqn:Ex; [|done]. cbn. now rewrite land_all by exact (extract_range _ _ _ _ Ex).
Qed.

Lemma host_type_holds a et dir s d p w : 0 <= a < 2 ^ 32 -> one_of et tested_types = true -> 0 <= s <= d ->
  p_host_proto E a 0xffffffff et dir s d p w =
  match extract SzH p 12 with
  | Some t => if t =? et then p_dir dir (p_masked E OR_NET SzW s a 0xffffffff) (p_masked E OR_NET SzW d a 0xffffffff) p w
              else Some false
  | None => None
  end /\
  holds (p_dir dir (p_masked E OR_NET SzW s a 0xffffffff) (p_masked E OR_NET SzW d a 0xffffffff)) p w =
  directed dir (has SzW p (14 + s) a) (has SzW p (14 + d) a).
Proof.
  intros Ha He Hsd. split; [now apply typed_dir|]. rewrite holds_dir.
  - unfold holds, has. rewrite !address_at by done. now destruct (extract SzW p (14 + s)), (extract SzW p (14 + d)).
  - unfold holds. rewrite !address_at by done. destruct (extract SzW p (14 + s)) eqn:Es; [done|]. intros _.
    now rewrite (extract_beyond SzW SzW p _ (14 + d) Es) by lia.
Qed.

Lemma host_frames a dir p w : 0 <= a < 2 ^ 32 ->
  holds (p_host E a 0xffffffff Q_DEFAULT dir) p w = frame_host a dir p.
Proof.
  intros Ha. unfold p_host. cbn [Z.eqb Pos.eqb Q_DEFAULT Q_IP Q_ARP Q_RARP].
  destruct (host_type_holds a ETHERTYPE_IP dir 12 16 p w Ha eq_refl ltac:(lia)) as [H1 D1].
  destruct (host_type_holds a ETHERTYPE_ARP dir 14 24 p w Ha eq_refl ltac:(lia)) as [H2 D2].
  destruct (host_type_holds a ETHERTYPE_REVARP dir 14 24 p w Ha eq_refl ltac:(lia)) as [H3 _].
  unfold frame_host. change (26) with (14 + 12). change 30 with (14 + 16). change 28 with (14 + 14). change 38 with (14 + 24).
  rewrite <- D1, <- D2. unfold holds at 1, p_or. rewrite H1, H2, H3. unfold has, ETHERTYPE_IP, ETHERTYPE_ARP, ETHERTYPE_REVARP.
  destruct (extract SzH p 12) as [t|]; [|done].
  destruct (Z.eqb_spec t 0x0800) as [->|N1]; cbn [Z.eqb Pos.eqb andb orb].
  { clear; unfold holds; now destruct (p_dir dir _ _ p w) as [[]|]. }
  destruct (Z.eqb_spec t 0x0806) as [->|N2]; cbn [Z.eqb Pos.eqb andb orb].
  { clear; unfold holds; now destruct (p_dir dir _ _ p w) as [[]|]. }
  destruct (Z.eqb_spec t 0x8035) as [->|N3]; cbn [andb orb]; [|done]. clear; unfold holds; now destruct (p_dir dir _ _ p w) as [[]|].
Qed.
(** ** [port] *)

Lemma hl_bytes b : ip_hl b = 4 * (b mod 16).
Proof. unfold ip_hl. change 0xf with (Z.ones 4). rewrite Z.land_ones, Z.shiftl_mul_pow2 by lia. change (2 ^ 4) with 16. lia. Qed.

Lemma port4_at off port p w : p_port_is E OR_TRAN_IPV4 off port p w =
  match extract SzB p 14 with
  | Some b => (fun x => x =? port) <$> extract SzH p (14 + off + 4 * (b mod 16))
  | None => None
  end.
Proof.
  unfold p_port_is, p_is, hdr. change (pos_net E 0) with 14. change (pos_net E off) with (14 + off).
  destruct (extract SzB p 14) as [b|]; [|done]. cbn [mbind option_bind]. now rewrite hl_bytes.
Qed.

Lemma is_has sz off v p w : holds (p_is E OR_NET sz off v) p w = has sz p (14 + off) v.
Proof. unfold holds, has, p_is. change (hdr E OR_NET sz off p w) with (extract sz p (14 + off)). now destruct (extract sz p (14 + off)). Qed.

Lemma fragment_holds p w : holds (p_first_fragment E) p w = first_fragment p.
Proof.
  unfold holds, p_first_fragment, p_not, p_set, first_fragment.
  change (hdr E OR_NET SzH 6 p w) with (extract SzH p 20). destruct (extract SzH p 20) as [v|]; [|done]. cbn. apply negb_involutive.
Qed.

Lemma op4_holds port dir t p w :
  holds (p_portop E (fun off => p_port_is E OR_TRAN_IPV4 off port) dir t) p w =
  has SzB p 23 t && first_fragment p && directed dir (has SzH p (transport4 p) port) (has SzH p (transport4 p + 2) port).
Proof.
  unfold p_portop. rewrite !holds_and, is_has, fragment_holds. change (14 + 9) with 23. unfold transport4.
  destruct (extract SzB p 14) as [b|] eqn:Eb.
  - f_equal. pose proof (Z.mod_pos_bound b 16 ltac:(lia)). rewrite holds_dir.
    + unfold holds, has. rewrite !port4_at, Eb.
      replace (14 + 0 + 4 * (b mod 16)) with (14 + 4 * (b mod 16)) by lia.
      replace (14 + 2 + 4 * (b mod 16)) with (14 + 4 * (b mod 16) + 2) by lia.
      now destruct (extract SzH p (14 + 4 * (b mod 16))), (extract SzH p (14 + 4 * (b mod 16) + 2)).
    + unfold holds. rewrite !port4_at, Eb. destruct (extract SzH p (14 + 0 + 4 * (b mod 16))) eqn:Es; [done|]. intros _.
      now rewrite (extract_beyond SzH SzH p _ (14 + 2 + 4 * (b mod 16)) Es) by lia.
  - now rewrite (has_beyond SzB SzB p 14 23 t Eb) by (cbn; lia).
Qed.

Lemma op6_holds port dir t p w :
  holds (p_portop6 E (fun off => p_port_is E OR_TRAN_IPV6 off port) dir t) p w =
  has SzB p 20 t && directed dir (has SzH p 54 port) (has SzH p 56 port).
Proof.
  assert (forall off, p_port_is E OR_TRAN_IPV6 off port p w = (fun x => x =? port) <$> extract SzH p (54 + off)) as H.
  { intros off. unfold p_port_is, p_is. change (hdr E OR_TRAN_IPV6 SzH off p w) with (extract SzH p (14 + (40 + off))).
    now replace (14 + (40 + off)) with (54 + off) by lia. }
  unfold p_portop6. rewrite holds_and, is_has. change (14 + 6) with 20. f_equal. rewrite holds_dir.
  - unfold holds, has. rewrite !H. change (54 + 0) with 54. change (54 + 2) with 56. now destruct (extract SzH p 54), (extract SzH p 56).
  - unfold holds. rewrite !H. destruct (extract SzH p (54 + 0)) eqn:Es; [done|]. intros _.
    now rewrite (extract_beyond SzH SzH p _ (54 + 2) Es) by lia.
Qed.

Lemma port_frames t port dir p w : one_of t [IPPROTO_UDP; IPPROTO_TCP; IPPROTO_SCTP] = true ->
  holds (p_port_either E port t dir) p w = frame_port t port dir p.
Proof.
  intros Ht. unfold p_port_either, p_port6, p_port, p_transport.
  assert ((t =? PROTO_UNDEF) = false) as -> by now destruct (one_of_cases _ _ Ht) as [<-|[<-|[<-|[]]]].
  pose proof (op4_holds port dir t p w) as H4. pose proof (op6_holds port dir t p w) as H6. revert H4 H6.
  generalize (p_portop E (fun off => p_port_is E OR_TRAN_IPV4 off port) dir t) (p_portop6 E (fun off => p_port_is E OR_TRAN_IPV6 off port) dir t).
  intros f4 f6 H4 H6. unfold frame_port. rewrite <- !andb_assoc in *. rewrite <- H4, <- H6. clear H4 H6.
  unfold holds at 1, p_or. rewrite !typed_at by done. unfold has, ETHERTYPE_IP, ETHERTYPE_IPV6, holds.
  destruct (extract SzH p 12) as [a|]; [|done].
  destruct (Z.eqb_spec a 0x86dd) as [->|]; [cbn; now destruct (f6 p w) as [[]|]|].
  destruct (Z.eqb_spec a 0x0800) as [->|]; [cbn; now destruct (f4 p w) as [[]|]|done].
Qed.
End Ethernet.
