(* ===== verification/GenTheorems.v ===== *)
(** * What the filter compiler does

    The properties of [pcap_compile] with the code generator in it: any filter with a
    meaning, compiled, decides it; hosts, ports and protocols on Ethernet, against the layout
    of the headers; and the scratch registers of arithmetic expressions. *)
From stdpp Require Import base numbers list gmap.
From Stdlib Require Import Strings.Byte Strings.String.
From S2P Require Import Prelude BpfInsn BpfFilter BpfFilterProofs Icode Gencode GencodeFilter Layout LayoutProofs LayoutConvert LayoutLoop Compile LinkType GenConst GenState Names GenLoad GenLink GenHost GenPort GenArth GenMisc GenName GenFinish GenExpr GenLogic GenTriple GenLoadProofs GenLinkProofs GenTestProofs GenArithProofs GenSem GenCompile.
Open Scope Z_scope.

(** ** Running out of registers *)

Definition out_of_registers : string := "too many registers needed to evaluate expression".

Lemma find_reg_none n used cur : nfree used = 0%nat -> find_reg n used cur = None.
Proof.
  intros Hf. assert (forall i : nat, default true (used !! i) = true) as Hall.
  { intros i. destruct (used !! i) as [[]|] eqn:Ei; [done| |done]. apply nfree_insert in Ei. lia. }
  revert cur; induction n as [|n IH]; intros cur; [done|]. cbn [find_reg]. now rewrite Hall.
Qed.

(** The function ends with that message, whatever else is on the heap. *)
Definition fails_full {A} (E : genv) (m : G A) : Prop := forall R s,
  gs_env s = E -> heap_inv (gs_heap s) R -> m s = GError out_of_registers.

Lemma fails_alloc {B} E r (k : Z -> G B) : nfree (regused r) = 0%nat -> fails_full (with_regs r E) (alloc_reg ≫= k).
Proof.
  intros Hf R s Hs _. cbv [mbind G_bind]. unfold alloc_reg. cbv [mbind G_bind getv]. rewrite Hs. cbn [g_regs with_regs].
  now rewrite find_reg_none.
Qed.

Lemma fails_first {A B} E (m : G A) (k : A -> G B) : fails_full E m -> fails_full E (m ≫= k).
Proof. intros Hm R s Hs Hi. cbv [mbind G_bind]. now rewrite (Hm R s Hs Hi). Qed.

Lemma fails_next {A B} E E1 (m : G A) (k : A -> G B) Q :
  triple E [] m E1 Q -> (forall x, fails_full E1 (k x)) -> fails_full E (m ≫= k).
Proof.
  intros Hm Hk R s Hs Hi. destruct (Hm R s Hs Hi) as (x & s1 & L1 & Hrun & Hs1 & _ & Hi1).
  cbv [mbind G_bind]. rewrite Hrun. now apply (Hk x (L1 ++ R)%list).
Qed.

Section Exhausted.
Context `{LP : LinkPred} (E : genv) `{!LinkTests E}.

(** [arith_need] is exact: with fewer registers free the expression is refused. *)
Lemma arith_exhausted a : arith_ok a = true -> forall r, regs_ok r -> (nfree (regused r) < arith_need a)%nat ->
  fails_full (with_regs r E) (gen_arith a).
Proof.
  induction a as [n| |pname index IH size|code a0 IH0 a1 IH1|a IH]; intros Ha r Hr Hn; cbn [arith_need] in Hn; cbn [gen_arith].
  - apply fails_alloc. lia.
  - apply fails_alloc. lia.
  - assert (arith_ok index = true) as Hi by (cbn [arith_ok] in Ha; rewrite !andb_true_iff in Ha; tauto).
    destruct (decide (nfree (regused r) < arith_need index)%nat); [now apply fails_first, IH|].
    destruct (arith_generated E index Hi r Hr ltac:(lia)) as (n1 & r1 & T1 & H1). pose proof (nfree_takes _ _ _ T1).
    eapply fails_next; [exact H1|]. intros x. apply fails_alloc. lia.
  - assert (arith_ok a0 = true /\ arith_ok a1 = true) as [H0 H1] by (cbn [arith_ok] in Ha; rewrite !andb_true_iff in Ha; tauto).
    destruct (decide (nfree (regused r) < arith_need a0)%nat); [now apply fails_first, IH0|].
    destruct (arith_generated E a0 H0 r Hr ltac:(lia)) as (n1 & r1 & T1 & G1). pose proof (nfree_takes _ _ _ T1).
    eapply fails_next; [exact G1|]. intros x. apply fails_first, IH1; [done|exact (tk_ok _ _ _ T1)|lia].
  - now apply fails_first, IH.
Qed.

Lemma relation_exhausted code reversed a0 a1 r : arith_ok a0 = true -> arith_ok a1 = true ->
  regs_ok r -> (nfree (regused r) < arith_need a0 `max` S (arith_need a1))%nat ->
  fails_full (with_regs r E) (x0 ← gen_arith a0; x1 ← gen_arith a1; gen_relation code x0 x1 reversed).
Proof.
  intros H0 H1 Hr Hn. destruct (decide (nfree (regused r) < arith_need a0)%nat); [now apply fails_first, arith_exhausted|].
  destruct (arith_generated E a0 H0 r Hr ltac:(lia)) as (n1 & r1 & T1 & G1). pose proof (nfree_takes _ _ _ T1).
  eapply fails_next; [exact G1|]. intros x. apply fails_first, arith_exhausted; [done|exact (tk_ok _ _ _ T1)|lia].
Qed.
End Exhausted.

(** ** Ethernet types and service access points *)



(** ** Compiling *)

Section Compiling.
Context (getservbyname : string -> string -> option Z) (getprotobyname getnetbyname : string -> option Z).
Context (getaddrinfo : string -> list addrinfo) (ether_hostton : string -> option (list byte)).
Context (rounds : nat) (fddipad snaplen netmask : Z) (rfile swapped : bool).

(** [pcap_compile] without optimization, for a handle of a link-layer type. *)
Definition compile (dlt : Z) (e : expr) : option program_result :=
  pcap_compile_filter rounds false true dlt fddipad snaplen netmask rfile swapped
    (gen_prog getservbyname getprotobyname getnetbyname getaddrinfo ether_hostton (Some e)).

(** The program made for [e] returns the snapshot length for the packets [sel] selects, and 0
    for the others. *)
Definition selects (dlt : Z) (e : expr) (sel : list byte -> Z -> bool) : Prop :=
  exists code, compile dlt e = Some (Result (Compiled code)) /\
    forall p w mem, packet_ok p w -> Z.of_nat (List.length mem) = BPF_MEMWORDS ->
      exists k, forall fuel, (k <= fuel)%nat ->
        bpf_filter fuel mem (Some code) p w (Z.of_nat (List.length p)) =
        Return (if sel p w then u32 snaplen else 0).

Lemma compiled_selects dlt e f sel :
  one_of dlt families = true -> 0 <= fddipad < 2 ^ 16 -> snaplen <> 0 ->
  expr_pred (link_env dlt fddipad snaplen netmask rfile swapped) getservbyname getnetbyname getaddrinfo e = Some f ->
  expr_cost getaddrinfo e < 2 ^ 30 ->
  (forall p w, packet_ok p w -> holds f p w = sel p w) -> selects dlt e sel.
Proof.
  intros Hd Hpad Hs He Hc Hsel.
  destruct (expr_compiles getservbyname getprotobyname getnetbyname getaddrinfo ether_hostton rounds dlt fddipad snaplen netmask
    rfile swapped e f Hd Hpad Hs He Hc) as (code & Hcode & Hrun).
  exists code. split; [exact Hcode|]. intros p w mem Hp Hm. destruct (Hrun p w mem Hp Hm) as (k & Hk). exists k. intros fuel Hf.
  now rewrite (Hk fuel Hf), holds_accepts, Hsel.
Qed.

(** C1: [pcap_compile], generator included: for every link-layer type of the families, every
    filter that has a meaning compiles, and on every packet [bpf_filter] runs the program to
    its end and returns the snapshot length exactly when the meaning holds. *)
Theorem filter_compiles_correctly dlt e f :
  one_of dlt families = true -> 0 <= fddipad < 2 ^ 16 -> snaplen <> 0 ->
  expr_pred (link_env dlt fddipad snaplen netmask rfile swapped) getservbyname getnetbyname getaddrinfo e = Some f ->
  expr_cost getaddrinfo e < 2 ^ 30 ->
  selects dlt e (holds f).
Proof. intros Hd Hpad Hs He Hc. now apply (compiled_selects dlt e f). Qed.

(** C7: [host a.b.c.d] on Ethernet selects the IPv4 frames whose source or destination (as
    the direction says) is the address, and the ARP and RARP frames with it as the sender's
    or target's protocol address; nothing else, and no frame too short to tell. *)
Theorem host_filter_on_ethernet s a dir :
  0 <= fddipad < 2 ^ 16 -> snaplen <> 0 -> __pcap_atoin s = (32, a) -> dir_ok dir = true ->
  selects DLT_EN10MB (EPrim (PHid s (mk_qual Q_HOST Q_DEFAULT dir))) (fun p _ => frame_host a dir p).
Proof.
  intros Hpad Hs Ha Hdir. pose proof (atoin_range s) as Hr. rewrite Ha in Hr. cbn [snd] in Hr.
  eapply compiled_selects; [reflexivity|done|done| |cbn; lia|intros p w _; apply (host_frames fddipad snaplen netmask rfile swapped); exact Hr].
  cbn [expr_pred prim_pred q_addr]. rewrite Ha. unfold num_pred, net_pred. cbn -[link_env u32 p_host dir_ok]. rewrite Hdir.
  unfold promote. change (32 - 32) with 0. rewrite !Z.shiftl_0_r, u32_id by lia. reflexivity.
Qed.

(** C6: [tcp port n] and its like on Ethernet select the IPv4 frames of the transport
    protocol that are first fragments and have the port at its place after the IPv4 options,
    and the IPv6 frames with the protocol next to the fixed header and the port after it. *)
Theorem port_filter_on_ethernet proto t n dir :
  0 <= fddipad < 2 ^ 16 -> snaplen <> 0 -> transport_of proto = Some t -> t <> PROTO_UNDEF ->
  is_port n = true -> dir_ok dir = true ->
  selects DLT_EN10MB (EPrim (PNum n (mk_qual Q_PORT proto dir))) (fun p _ => frame_port t n dir p).
Proof.
  intros Hpad Hs Ht Hne Hn Hdir. pose proof Hn as Hr. unfold is_port in Hr.
  assert (one_of t [IPPROTO_UDP; IPPROTO_TCP; IPPROTO_SCTP] = true) as Ho.
  { pose proof (transport_of_ok _ _ Ht) as H. destruct (one_of_cases _ _ H) as [<-|[<-|[<-|[<-|[]]]]]; done. }
  eapply compiled_selects; [reflexivity|done|done| |cbn; lia|intros p w _; now apply (port_frames fddipad snaplen netmask rfile swapped)].
  cbn [expr_pred prim_pred]. unfold num_pred. cbn [q_addr q_proto q_dir]. rewrite Ht, Hdir, u32_id, Hn by lia. reflexivity.
Qed.


(** C9: registers run out exactly when the 16 scratch words are not enough: a comparison of
    well-formed expressions that need more at one time is refused with the message that says
    so (one that needs no more has a meaning, and compiles). *)
Theorem too_many_registers dlt code reversed a0 a1 :
  one_of dlt families = true -> 0 <= fddipad < 2 ^ 16 -> snaplen <> 0 ->
  arith_ok a0 = true -> arith_ok a1 = true -> (16 < arith_need a0 `max` S (arith_need a1))%nat ->
  compile dlt (EPrim (PRelation code reversed a0 a1)) = Some (Message out_of_registers).
Proof.
  intros Hd Hpad Hs H0 H1 Hn. pose proof (family_tests dlt fddipad snaplen netmask rfile swapped Hd Hpad) as Ht.
  set (E := link_env dlt fddipad snaplen netmask rfile swapped) in *.
  assert (is_Some (linktype_offsets dlt fddipad)) as Hx
    by (destruct (family_offsets dlt fddipad Hd Hpad) as (? & ? & ? & ? & -> & _); eauto).
  assert (with_regs fresh_registers E = E) as HE by (subst E; unfold link_env; destruct Hx as [[[[? ?] ?] ?] ->]; reflexivity).
  pose proof (relation_exhausted E code reversed a0 a1 fresh_registers H0 H1 (proj1 fresh_idle) Hn [] (start_state E)) as Hf.
  rewrite HE in Hf. specialize (Hf eq_refl heap_inv_empty).
  unfold compile, pcap_compile_filter. cbn [negb]. assert ((snaplen =? 0) = false) as -> by now apply Z.eqb_neq.
  unfold gen_program. change (mk_gstate (start_env netmask snaplen rfile swapped) ∅ 0) with (start_state (start_env netmask snaplen rfile swapped)).
  rewrite init_run by done. fold E. cbn [gen_prog gen_expr gen_prim]. revert Hf. cbv [mbind G_bind]. intros Hf. now rewrite Hf.
Qed.
End Compiling.

(** ** Witnesses *)

Definition no_services : string -> string -> option Z := fun _ _ => None.
Definition no_name : string -> option Z := fun _ => None.
Definition no_addresses : string -> list addrinfo := fun _ => [].
Definition no_ethers : string -> option (list byte) := fun _ => None.

Definition compile_sample : Z -> expr -> option program_result :=
  compile no_services no_name no_name no_addresses no_ethers 0 0 96 0 false false.
Definition selects_sample : Z -> expr -> (list byte -> Z -> bool) -> Prop :=
  selects no_services no_name no_name no_addresses no_ethers 0 0 96 0 false false.

(** [tcp[13] & 3 != 0 and host 10.0.0.1] *)
Definition flags : arith := AOp BPF_AND (ALoad Q_TCP (ANum 13) 1) (ANum 3).
Definition syn_or_fin : expr :=
  EAnd (EPrim (PRelation BPF_JEQ true flags (ANum 0))) (EPrim (PHid "10.0.0.1" (mk_qual Q_HOST Q_DEFAULT Q_DEFAULT))).

Lemma filter_compiles_correctly_witness :
  exists f, expr_pred (link_env DLT_EN10MB 0 96 0 false false) no_services no_name no_addresses syn_or_fin = Some f /\
    selects_sample DLT_EN10MB syn_or_fin (holds f).
Proof.
  eexists. split; [reflexivity|]. unfold selects_sample.
  eapply filter_compiles_correctly; [reflexivity|lia|lia|reflexivity|vm_compute; reflexivity].
Defined.

Lemma host_filter_on_ethernet_witness :
  selects_sample DLT_EN10MB (EPrim (PHid "10.0.0.1" (mk_qual Q_HOST Q_DEFAULT Q_SRC))) (fun p _ => frame_host 0x0a000001 Q_SRC p).
Proof. apply host_filter_on_ethernet; [lia|lia|vm_compute; reflexivity|reflexivity]. Defined.

Lemma port_filter_on_ethernet_witness :
  selects_sample DLT_EN10MB (EPrim (PNum 80 (mk_qual Q_PORT Q_TCP Q_DST))) (fun p _ => frame_port IPPROTO_TCP 80 Q_DST p).
Proof. apply port_filter_on_ethernet; [lia|lia|reflexivity|discriminate|reflexivity|reflexivity]. Defined.


(** [1 + (1 + (... + 1)) = 0], nested to the right [n] times *)
Fixpoint sum_right (n : nat) : arith :=
  match n with O => ANum 1 | S n => AOp BPF_ADD (ANum 1) (sum_right n) end.

Lemma too_many_registers_witness :
  compile_sample DLT_RAW (EPrim (PRelation BPF_JEQ false (sum_right 16) (ANum 0))) = Some (Message out_of_registers).
Proof. apply too_many_registers; [reflexivity|lia|lia|vm_compute; reflexivity|reflexivity|vm_compute; lia]. Defined.

(** ** Programs *)

Definition code_of (e : expr) : list bpf_insn :=
  match compile_sample DLT_EN10MB e with Some (Result (Compiled code)) => code | _ => [] end.

(** [ip] *)
Example ip_code : code_of (EPrim (PProto Q_IP)) =
  [mk_insn 40 0 0 12; mk_insn 21 0 1 0x0800; mk_insn 6 0 0 96; mk_insn 6 0 0 0].
Proof. vm_compute. reflexivity. Qed.

(** [gen_byteop] with [&]: the byte is not loaded, and the test is on whatever the
    accumulator holds. *)
Example byteop_and_reads_no_byte : code_of (EPrim (PByte 0 38 1)) =
  [mk_insn 84 0 0 1; mk_insn 21 0 1 0; mk_insn 6 0 0 0; mk_insn 6 0 0 96].
Proof. vm_compute. reflexivity. Qed.

(** The program loads the type of the frame. *)
Definition reads_type (code : list bpf_insn) : bool := existsb (fun i => (i_code i =? 40) && (i_k i =? 12)) code.

(** [tcp[0] + 1 = 5] tests that the packet is TCP, and [1 + tcp[0] = 5] does not. *)
Example second_operand_unchecked :
  let load := ALoad Q_TCP (ANum 0) 1 in
  reads_type (code_of (EPrim (PRelation BPF_JEQ false (AOp BPF_ADD load (ANum 1)) (ANum 5)))) = true /\
  reads_type (code_of (EPrim (PRelation BPF_JEQ false (AOp BPF_ADD (ANum 1) load) (ANum 5)))) = false.
Proof. split; vm_compute; reflexivity. Qed.

(** The message for [esp proto] names [ah]. *)
Example esp_proto_message :
  compile_sample DLT_EN10MB (EPrim (PNum 50 (mk_qual Q_PROTO Q_ESP Q_DEFAULT))) = Some (Message "'ah proto' is bogus").
Proof. vm_compute. reflexivity. Qed.
