(* ===== verification/Iface.v ===== *)
(** * The list of network interfaces (inet.c)

    The list [pcap_findalldevs] builds, its entries and their addresses, with the memory they
    are made of: every [malloc] and [strdup] may fail, gives a block of its own, and every
    [free] must be of a block that is in use. [None] is undefined behaviour: a block freed
    twice or never allocated, or a read outside of an object. The build is the one for Linux:
    [IFF_LOOPBACK] is there, [SIOCGIFDESCR] is not. *)
From stdpp Require Import base numbers list gmap.
From Stdlib Require Import Strings.Byte Strings.String Strings.Ascii.
From S2P Require Import Prelude BpfInsn Datalink EtherEnt Names.
Open Scope Z_scope.

(** ** Memory *)

(** The number of the next allocation, and the blocks in use. *)
Record memory := mk_memory { mem_next : nat; mem_live : gset nat }.

(** What the functions ask of the system: whether an allocation succeeds, by its number, and
    whether [pcap_open_live] opens an interface. *)
Record if_host := mk_if_host { h_malloc : nat -> bool; h_open : string -> bool }.

(** The monad: the memory, and undefined behaviour. *)
Definition IM (A : Type) : Type := memory -> option (A * memory).
#[export] Instance IM_ret : MRet IM := fun A a m => Some (a, m).
#[export] Instance IM_bind : MBind IM := fun A B k c m =>
  match c m with Some (a, m') => k a m' | None => None end.
Definition undefined {A} : IM A := fun _ => None.

(** ** The entries *)

(** Each with the number of its block; the fields in [option] may be null pointers. *)
Record sa_copy := mk_sa { sa_block : nat; sa_bytes : list byte }.
Record c_text := mk_text { t_block : nat; t_string : string }.
Record pcap_addr := mk_pcap_addr {
  pa_block : nat; pa_addr : option sa_copy; pa_netmask : option sa_copy;
  pa_broadaddr : option sa_copy; pa_dstaddr : option sa_copy }.
Record pcap_if := mk_pcap_if {
  pi_block : nat; pi_name : c_text; pi_description : option c_text;
  pi_addresses : list pcap_addr; pi_flags : Z }.

Definition if_name (d : pcap_if) : string := t_string (pi_name d).

Definition PCAP_IF_LOOPBACK := 1.
Definition IFF_UP := 1.
Definition IFF_BROADCAST := 2.
Definition IFF_LOOPBACK := 8.
Definition IFF_POINTOPOINT := 16.

Definition is_loopback (d : pcap_if) : bool := negb ((pi_flags d &&& PCAP_IF_LOOPBACK) =? 0).
Definition ISLOOPBACK (flags : Z) : bool := negb ((flags &&& IFF_LOOPBACK) =? 0).

(** ** The order of the list *)

Definition INT_MAX := 2 ^ 31 - 1.

(** The first digit and what follows it. *)
Fixpoint from_digit (s : string) : string :=
  match s with
  | String c s' => if isdigit (ascii_Z c) then s else from_digit s'
  | EmptyString => s
  end.

(** [get_instance(name)]. [atoi] gives the low 32 bits of the nearest [long]. *)
Definition get_instance (name : string) : Z :=
  if String.eqb name "any" then INT_MAX
  else let s := from_digit name in
       if starts_with_digit s then s32 (Z.min (fst (scan_digits 0 s)) (2 ^ 63 - 1)) else 0.

(** The new entry goes before [next]. *)
Definition goes_before (cur next : pcap_if) : bool :=
  (negb (is_loopback cur) && is_loopback next) ||
  ((get_instance (if_name cur) <? get_instance (if_name next)) && (negb (is_loopback cur) || is_loopback next)).

(** The loop that looks for the place, and the insertion there. *)
Fixpoint insert_if (cur : pcap_if) (devs : list pcap_if) : list pcap_if :=
  match devs with
  | [] => [cur]
  | next :: rest => if goes_before cur next then cur :: devs else next :: insert_if cur rest
  end.

Definition find_if (name : string) (devs : list pcap_if) : option pcap_if :=
  List.find (fun d => String.eqb name (if_name d)) devs.

(** ** The operations *)

Section Operations.
Context (host : if_host).

(** [malloc], of any size: the new block, or a null pointer. *)
Definition malloc : IM (option nat) := fun m =>
  let n := mem_next m in
  if h_malloc host n then Some (Some n, mk_memory (S n) ({[n]} ∪ mem_live m))
  else Some (None, mk_memory (S n) (mem_live m)).

Definition free (b : nat) : IM unit := fun m =>
  if decide (b ∈ mem_live m) then Some (tt, mk_memory (mem_next m) (mem_live m ∖ {[b]})) else None.

Fixpoint free_all (bs : list nat) : IM unit :=
  match bs with [] => mret tt | b :: bs => _ ← free b; free_all bs end.

Definition strdup (s : string) : IM (option c_text) :=
  b ← malloc; mret ((fun b => mk_text b s) <$> b).

(** [dup_sockaddr(sa, sa_length)]: [sa_length] bytes are read. *)
Definition dup_sockaddr (sa : list byte) (sa_length : nat) : IM (option sa_copy) :=
  b ← malloc;
  match b with
  | None => mret None
  | Some b => if (sa_length <=? List.length sa)%nat then mret (Some (mk_sa b (take sa_length sa))) else undefined
  end.

(** What [add_or_find_if] returns: -1, or 0 with [*curdev_ret] null or an entry, by its
    block. *)
Inductive find_result := FindError | NotOpened | Found (p : nat).

Definition add_or_find_if (alldevs : list pcap_if) (name : string) (flags : Z) (description : option string)
    : IM (find_result * list pcap_if) :=
  match find_if name alldevs with
  | Some curdev => mret (Found (pi_block curdev), alldevs)
  | None =>
      if negb (h_open host name) then mret (NotOpened, alldevs)
      else
        b ← malloc;
        match b with
        | None => mret (FindError, alldevs)
        | Some b =>
            n ← strdup name;
            match n with
            | None => _ ← free b; mret (FindError, alldevs)
            | Some n =>
                d ← match description with
                    | Some d => d ← strdup d; mret (Some <$> d)
                    | None => mret (Some None)
                    end;
                match d with
                | None => _ ← free (t_block n); _ ← free b; mret (FindError, alldevs)
                | Some d =>
                    let curdev := mk_pcap_if b n d [] (if ISLOOPBACK flags then PCAP_IF_LOOPBACK else 0) in
                    mret (Found b, insert_if curdev alldevs)
                end
            end
        end
  end.

(** A socket address that may be a null pointer, and its size, copied; [undo] is freed when
    there is no memory. *)
Definition dup_field (sa : option (list byte * nat)) (undo : list nat) : IM (option (option sa_copy)) :=
  match sa with
  | Some (sa, len) =>
      c ← dup_sockaddr sa len;
      match c with
      | Some c => mret (Some (Some c))
      | None => _ ← free_all undo; mret None
      end
  | None => mret (Some None)
  end.

Definition sa_blocks (c : option sa_copy) : list nat := match c with Some c => [sa_block c] | None => [] end.

(** The new address goes to the end of the list of the entry at [p]. *)
Definition append_addr (p : nat) (a : pcap_addr) (devs : list pcap_if) : list pcap_if :=
  map (fun d => if (pi_block d =? p)%nat
                then mk_pcap_if (pi_block d) (pi_name d) (pi_description d) (pi_addresses d ++ [a]) (pi_flags d)
                else d) devs.

(** [add_addr_to_iflist]: 0 ([true]) or -1. *)
Definition add_addr_to_iflist (alldevs : list pcap_if) (name : string) (flags : Z)
    (addr netmask broadaddr dstaddr : option (list byte * nat)) : IM (bool * list pcap_if) :=
  '(r, alldevs) ← add_or_find_if alldevs name flags None;
  match r with
  | FindError => mret (false, alldevs)
  | NotOpened => mret (true, alldevs)
  | Found curdev =>
      b ← malloc;
      match b with
      | None => mret (false, alldevs)
      | Some b =>
          a ← dup_field addr [b];
          match a with
          | None => mret (false, alldevs)
          | Some a =>
              n ← dup_field netmask (sa_blocks a ++ [b])%list;
              match n with
              | None => mret (false, alldevs)
              | Some n =>
                  br ← dup_field broadaddr (sa_blocks n ++ sa_blocks a ++ [b])%list;
                  match br with
                  | None => mret (false, alldevs)
                  | Some br =>
                      d ← dup_field dstaddr (sa_blocks br ++ sa_blocks n ++ sa_blocks a ++ [b])%list;
                      match d with
                      | None => mret (false, alldevs)
                      | Some d => mret (true, append_addr curdev (mk_pcap_addr b a n br d) alldevs)
                      end
                  end
              end
          end
      end
  end.

(** [pcap_add_if] *)
Definition pcap_add_if (devlist : list pcap_if) (name : string) (flags : Z) (description : option string)
    : IM (bool * list pcap_if) :=
  '(r, devlist) ← add_or_find_if devlist name flags description;
  mret (match r with FindError => false | _ => true end, devlist).

(** The blocks of an address, and of an entry, in the order they are freed. *)
Definition addr_blocks (a : pcap_addr) : list nat :=
  (sa_blocks (pa_addr a) ++ sa_blocks (pa_netmask a) ++ sa_blocks (pa_broadaddr a) ++ sa_blocks (pa_dstaddr a) ++
   [pa_block a])%list.
Definition if_blocks (d : pcap_if) : list nat :=
  (List.concat (map addr_blocks (pi_addresses d)) ++ [t_block (pi_name d)] ++
   match pi_description d with Some t => [t_block t] | None => [] end ++ [pi_block d])%list.

(** [pcap_freealldevs] *)
Fixpoint pcap_freealldevs (alldevs : list pcap_if) : IM unit :=
  match alldevs with
  | [] => mret tt
  | d :: alldevs => _ ← free_all (if_blocks d); pcap_freealldevs alldevs
  end.
End Operations.
