(* ===== verification/IfaceScan.v ===== *)
(** * Finding the interfaces (fad-getad.c, pcap-linux.c, pcap.c, inet.c)

    The sources of the list of interfaces: [getifaddrs], the directory /sys/class/net, the
    file /proc/net/dev, and the capture sources that are no network interfaces. What the
    system answers is an argument; a socket address is its bytes. *)
From stdpp Require Import base numbers list gmap.
From Stdlib Require Import Strings.Byte Strings.String Strings.Ascii.
From S2P Require Import Prelude BpfInsn BpfImage Datalink EtherEnt Names Iface.
Open Scope Z_scope.

(** ** Strings *)

Fixpoint str_take (n : nat) (s : string) : string :=
  match n, s with S n, String c s => String c (str_take n s) | _, _ => EmptyString end.
Fixpoint all_digits (s : string) : bool :=
  match s with String c s => isdigit (ascii_Z c) && all_digits s | EmptyString => true end.
(** [strstr(s, sub) != NULL] *)
Definition strstr (s sub : string) : bool := match String.index 0 sub s with Some _ => true | None => false end.

(** ** [getifaddrs] (fad-getad.c) *)

Record ifaddrs := mk_ifaddrs {
  ifa_name : string; ifa_flags : Z;
  ifa_addr : option (list byte); ifa_netmask : option (list byte);
  ifa_broadaddr : option (list byte); ifa_dstaddr : option (list byte) }.

Definition AF_INET := 2.
Definition AF_INET6 := 10.
Definition AF_PACKET := 17.

(** [SA_LEN(addr)]: by the family, in the first two bytes. *)
Definition family_len (sa_family : Z) : nat :=
  if sa_family =? AF_INET then 16 else if sa_family =? AF_INET6 then 28 else if sa_family =? AF_PACKET then 20 else 16.
Definition get_sa_len (addr : list byte) : IM nat :=
  if (List.length addr <? 2)%nat then undefined else mret (family_len (le_val (take 2 addr))).

Definition sized (sa : option (list byte)) : IM (option (list byte * nat)) :=
  match sa with Some sa => n ← get_sa_len sa; mret (Some (sa, n)) | None => mret None end.

(** A name that ends in a colon and a number, without them. *)
Definition strip_alias (name : string) : string :=
  match split_char 58 name with
  | Some (before, after) => if all_digits after then before else name
  | None => name
  end.

(** What opening a directory or file comes to. *)
Inductive opened (A : Type) := NotThere | OpenFails | Opened (a : A).
Arguments NotThere {A}.
Arguments OpenFails {A}.
Arguments Opened {A} _.

Section Finding.
Context (host : if_host).

Definition has_flag (flags bit : Z) : bool := negb ((flags &&& bit) =? 0).

(** The call of [add_addr_to_iflist] for an entry. The netmask is taken to be as long as the
    address. *)
Definition add_ifaddrs (devlist : list pcap_if) (ifa : ifaddrs) : IM (bool * list pcap_if) :=
  addr ← sized (ifa_addr ifa);
  let netmask := match addr, ifa_netmask ifa with Some (_, addr_size), Some m => Some (m, addr_size) | _, _ => None end in
  broadaddr ← sized (if has_flag (ifa_flags ifa) IFF_BROADCAST then ifa_broadaddr ifa else None);
  dstaddr ← sized (if has_flag (ifa_flags ifa) IFF_POINTOPOINT then ifa_dstaddr ifa else None);
  add_addr_to_iflist host devlist (strip_alias (ifa_name ifa)) (ifa_flags ifa) addr netmask broadaddr dstaddr.

Fixpoint ifaddrs_loop (ifas : list ifaddrs) (devlist : list pcap_if) : IM (bool * list pcap_if) :=
  match ifas with
  | [] => mret (true, devlist)
  | ifa :: ifas =>
      if negb (has_flag (ifa_flags ifa) IFF_UP) then ifaddrs_loop ifas devlist
      else
        '(ok, devlist) ← add_ifaddrs devlist ifa;
        if (ok : bool) then ifaddrs_loop ifas devlist else mret (false, devlist)
  end.

(** [pcap_findalldevs_interfaces]: the list, or [None] for -1. *)
Definition pcap_findalldevs_interfaces (getifaddrs : option (list ifaddrs)) : IM (option (list pcap_if)) :=
  match getifaddrs with
  | None => mret None
  | Some ifap =>
      '(ok, devlist) ← ifaddrs_loop ifap [];
      if (ok : bool) then mret (Some devlist) else _ ← pcap_freealldevs devlist; mret None
  end.

(** ** Linux (pcap-linux.c) *)

(** What [ioctl(fd, SIOCGIFFLAGS, ...)] says of a name. *)
Inductive flags_answer := IfFlags (flags : Z) | IfENXIO | IfENODEV | IfError.

(** An entry of /sys/class/net: its name, whether it is a plain file, and whether there is an
    ifindex in it. *)
Record dirent := mk_dirent { d_name : string; d_regular : bool; d_ifindex : bool }.

Definition isascii (c : Ascii.ascii) : bool := ascii_Z c <? 128.

(** The digits at the start of a string, and the rest. *)
Fixpoint span_digits (s : string) : string * string :=
  match s with
  | String c s' => if isascii c && isdigit (ascii_Z c) then let '(d, r) := span_digits s' in (String c d, r)
                   else (EmptyString, s)
  | EmptyString => (EmptyString, s)
  end.

(** The name of an interface: up to a blank; at a colon, the digits from there on are added
    when another colon follows them. *)
Fixpoint interface_name (s : string) : string :=
  match s with
  | String c s' =>
      if isascii c && negb (isspace (ascii_Z c)) then
        if ascii_Z c =? 58 then
          let '(digits, rest) := span_digits s in
          match rest with
          | String c _ => if ascii_Z c =? 58 then digits else EmptyString
          | EmptyString => EmptyString
          end
        else String c (interface_name s')
      else EmptyString
  | EmptyString => EmptyString
  end.

Section Scan.
Context (flags_of : string -> flags_answer).

(** The rest of a round of both loops, for a name: [None] is to go on with the list as it
    was. [gone] says whether ENODEV is no error either. *)
Definition scan_name (gone : bool) (name : string) (devlist : list pcap_if) : IM (bool * list pcap_if) :=
  match flags_of (str_take 16 name) with
  | IfENXIO => mret (true, devlist)
  | IfENODEV => mret (gone, devlist)
  | IfError => mret (false, devlist)
  | IfFlags f => if negb (has_flag f IFF_UP) then mret (true, devlist) else pcap_add_if host devlist name (u32 f) None
  end.

Fixpoint sys_class_net_loop (es : list dirent) (devlist : list pcap_if) : IM (bool * list pcap_if) :=
  match es with
  | [] => mret (true, devlist)
  | e :: es =>
      if String.eqb (d_name e) "." || String.eqb (d_name e) ".." then sys_class_net_loop es devlist
      else if d_regular e then sys_class_net_loop es devlist
      else if negb (d_ifindex e) then sys_class_net_loop es devlist
      else
        '(ok, devlist) ← scan_name true (interface_name (d_name e)) devlist;
        if (ok : bool) then sys_class_net_loop es devlist else mret (false, devlist)
  end.

(** [scan_sys_class_net]: 1, 0 when there is no such directory, or -1. [read_error] says how
    reading the directory ended. *)
Definition scan_sys_class_net (dir : opened (list dirent)) (socket_ok read_error : bool) (devlist : list pcap_if)
    : IM (Z * list pcap_if) :=
  match dir with
  | NotThere => mret (0, devlist)
  | OpenFails => mret (-1, devlist)
  | Opened es =>
      if negb socket_ok then mret (-1, devlist)
      else
        '(ok, devlist) ← sys_class_net_loop es devlist;
        mret (if negb ok || read_error then -1 else 1, devlist)
  end.

Definition newline_char : Ascii.ascii := Ascii.ascii_of_nat 10.
Fixpoint skip_ascii_blanks (s : string) : string :=
  match s with
  | String c s' => if isascii c && isspace (ascii_Z c) then skip_ascii_blanks s' else s
  | EmptyString => s
  end.
Definition blank_line (s : string) : bool :=
  match s with EmptyString => true | String c _ => Ascii.eqb c newline_char end.

Fixpoint proc_net_dev_loop (lines : list string) (devlist : list pcap_if) : IM (bool * list pcap_if) :=
  match lines with
  | [] => mret (true, devlist)
  | line :: lines =>
      let p := skip_ascii_blanks line in
      if blank_line p then proc_net_dev_loop lines devlist
      else
        '(ok, devlist) ← scan_name false (interface_name p) devlist;
        if (ok : bool) then proc_net_dev_loop lines devlist else mret (false, devlist)
  end.

(** [scan_proc_net_dev]: 0 ([true]) or -1; the first two lines are headers. *)
Definition scan_proc_net_dev (file : opened (list string)) (socket_ok read_error : bool) (devlist : list pcap_if)
    : IM (bool * list pcap_if) :=
  match file with
  | NotThere => mret (true, devlist)
  | OpenFails => mret (false, devlist)
  | Opened lines =>
      if negb socket_ok then mret (false, devlist)
      else
        '(ok, devlist) ← proc_net_dev_loop (drop 2 lines) devlist;
        mret (ok && negb read_error, devlist)
  end.

Definition any_descr : string := "Pseudo-device that captures on all interfaces".

(** [pcap_platform_finddevs] *)
Definition pcap_platform_finddevs (sys : opened (list dirent)) (proc : opened (list string)) (socket_ok read_error : bool)
    (alldevs : list pcap_if) : IM (bool * list pcap_if) :=
  '(ret, alldevs) ← scan_sys_class_net sys socket_ok read_error alldevs;
  if ret =? -1 then mret (false, alldevs)
  else
    '(ok, alldevs) ← (if ret =? 0 then scan_proc_net_dev proc socket_ok read_error alldevs else mret (true, alldevs));
    if (ok : bool) then pcap_add_if host alldevs "any" 0 (Some any_descr) else mret (false, alldevs).
End Scan.

(** ** Capture sources that are no network interfaces *)

(** What creating a socket of a special family comes to. *)
Inductive socket_answer := SocketOk | FamilyUnsupported | SocketError.

(** [snprintf(buf, n, ...)] *)
Definition snprintf (n : nat) (s : string) : string := str_take (n - 1) s.

(** [bt_findalldevs] (pcap-bt-linux.c): the adapters the ioctl lists, by their numbers. *)
Fixpoint bt_loop (i : Z) (ids : list Z) (alldevs : list pcap_if) : IM (bool * list pcap_if) :=
  match ids with
  | [] => mret (true, alldevs)
  | id :: ids =>
      '(ok, alldevs) ← pcap_add_if host alldevs (snprintf 20 ("bluetooth" ++ print_d id)) 0
        (Some (snprintf 30 ("Bluetooth adapter number " ++ print_d i)));
      if (ok : bool) then bt_loop (i + 1) ids alldevs else mret (false, alldevs)
  end.

Definition bt_findalldevs (sock : socket_answer) (adapters : option (list Z)) (alldevs : list pcap_if)
    : IM (bool * list pcap_if) :=
  match sock with
  | FamilyUnsupported => mret (true, alldevs)
  | SocketError => mret (false, alldevs)
  | SocketOk =>
      dev_list ← malloc host;
      match dev_list with
      | None => mret (false, alldevs)
      | Some dev_list =>
          '(ok, alldevs) ← match adapters with Some ids => bt_loop 0 ids alldevs | None => mret (false, alldevs) end;
          _ ← free dev_list;
          mret (ok, alldevs)
      end
  end.

(** Two sources of fixed names. *)
Definition two_sources (n1 d1 n2 d2 : string) (alldevs : list pcap_if) : IM (bool * list pcap_if) :=
  '(ok, alldevs) ← pcap_add_if host alldevs n1 0 (Some d1);
  if (ok : bool) then pcap_add_if host alldevs n2 0 (Some d2) else mret (false, alldevs).

(** [netfilter_findalldevs] (pcap-netfilter-linux.c) *)
Definition netfilter_findalldevs (sock : socket_answer) (alldevs : list pcap_if) : IM (bool * list pcap_if) :=
  match sock with
  | FamilyUnsupported => mret (true, alldevs)
  | SocketError => mret (false, alldevs)
  | SocketOk => two_sources "nflog" "Linux netfilter log (NFLOG) interface"
                  "nfqueue" "Linux netfilter queue (NFQUEUE) interface" alldevs
  end.

(** [dbus_findalldevs] (pcap-dbus.c), [can_findalldevs] (pcap-can-linux.c) *)
Definition dbus_findalldevs : list pcap_if -> IM (bool * list pcap_if) :=
  two_sources "dbus-system" "D-Bus system bus" "dbus-session" "D-Bus session bus".
Definition can_findalldevs (alldevs : list pcap_if) : IM (bool * list pcap_if) := mret (true, alldevs).

(** [qnf_platform_finddevs] (pcap-gap16g.c): that the entry could not be added is no error. *)
Definition qnf_platform_finddevs (alldevs : list pcap_if) : IM (bool * list pcap_if) :=
  '(_, alldevs) ← pcap_add_if host alldevs "nac0" 0 (Some "nac0");
  mret (true, alldevs).

(** [usb_dev_add] (pcap-usb-linux.c) *)
Definition usb_dev_add (alldevs : list pcap_if) (n : Z) : IM (bool * list pcap_if) :=
  pcap_add_if host alldevs (snprintf 10 ("usbmon" ++ print_d n)) 0 (Some (snprintf 30 ("USB bus number " ++ print_d n))).

(** What [sscanf(s, "%d", &n)] comes to: the number, 0 for no match, or the end of the string
    before it, where it returns -1 and leaves [n]. *)
Inductive scanned := Number (n : Z) | NoMatch | NoInput.
Definition sscanf_d (s : string) : scanned :=
  match scan_d s with
  | Some (n, _) => Number (s32 n)
  | None => match skip_blanks s with EmptyString => NoInput | _ => NoMatch end
  end.

Definition after_usb (name : string) : option string :=
  match name with
  | String a (String b (String c s)) => if String.eqb (String a (String b (String c EmptyString))) "usb" then Some s else None
  | _ => None
  end.

(** The loop over /sys/bus/usb/devices. A number that was not read is used all the same when
    the name ends there. *)
Fixpoint usb_sys_loop (names : list string) (alldevs : list pcap_if) : IM (bool * list pcap_if) :=
  match names with
  | [] => mret (true, alldevs)
  | name :: names =>
      match after_usb name with
      | None => usb_sys_loop names alldevs
      | Some s =>
          match sscanf_d s with
          | NoMatch => usb_sys_loop names alldevs
          | NoInput => undefined
          | Number n =>
              '(ok, alldevs) ← usb_dev_add alldevs n;
              if (ok : bool) then usb_sys_loop names alldevs else mret (false, alldevs)
          end
      end
  end.

(** The digits a name ends in: [None] when it does not end in one. The loop that looks for
    their start reads the character before the name when there are only digits. *)
Fixpoint last_digits (s : string) : option (string * bool (* all of it *)) :=
  match s with
  | EmptyString => None
  | String c s' =>
      match last_digits s' with
      | Some (d, true) => if isdigit (ascii_Z c) then Some (String c d, true) else Some (d, false)
      | Some (d, false) => Some (d, false)
      | None => match s' with
                | EmptyString => if isdigit (ascii_Z c) then Some (String c EmptyString, true) else None
                | _ => None
                end
      end
  end.

(** The loop over /proc/bus/usb. *)
Fixpoint usb_proc_loop (names : list string) (alldevs : list pcap_if) : IM (bool * list pcap_if) :=
  match names with
  | [] => mret (true, alldevs)
  | name :: names =>
      match last_digits name with
      | None => usb_proc_loop names alldevs
      | Some (_, true) => undefined
      | Some (d, false) =>
          match sscanf_d d with
          | Number n =>
              '(ok, alldevs) ← usb_dev_add alldevs n;
              if (ok : bool) then usb_proc_loop names alldevs else mret (false, alldevs)
          | _ => usb_proc_loop names alldevs
          end
      end
  end.

(** [usb_findalldevs], given what the two directories hold, if they can be opened. *)
Definition usb_findalldevs (sys proc : option (list string)) (alldevs : list pcap_if) : IM (bool * list pcap_if) :=
  match sys, proc with
  | Some names, _ => usb_sys_loop names alldevs
  | None, Some names => usb_proc_loop names alldevs
  | None, None => mret (true, alldevs)
  end.

(** ** All of them (pcap.c) *)

(** A step that adds to the list: 0 ([true]) or -1. *)
Definition finder : Type := list pcap_if -> IM (bool * list pcap_if).

Fixpoint sources_loop (capture_source_types : list finder) (alldevs : list pcap_if) : IM (option (list pcap_if)) :=
  match capture_source_types with
  | [] => mret (Some alldevs)
  | findalldevs_op :: ops =>
      '(ok, alldevs) ← findalldevs_op alldevs;
      if (ok : bool) then sources_loop ops alldevs else _ ← pcap_freealldevs alldevs; mret None
  end.

(** [pcap_findalldevs]: the list, or [None] for -1. *)
Definition pcap_findalldevs (getifaddrs : option (list ifaddrs)) (platform : finder) (capture_source_types : list finder)
    : IM (option (list pcap_if)) :=
  r ← pcap_findalldevs_interfaces getifaddrs;
  match r with
  | None => mret None
  | Some alldevs =>
      '(ok, alldevs) ← platform alldevs;
      if (ok : bool) then sources_loop capture_source_types alldevs
      else _ ← pcap_freealldevs alldevs; mret None
  end.

(** [pcap_lookupdev] (inet.c): the name, in a buffer of 17 bytes, or a null pointer. *)
Definition pcap_lookupdev (find : IM (option (list pcap_if))) : IM (option string) :=
  r ← find;
  match r with
  | None => mret None
  | Some alldevs =>
      let ret := match alldevs with
                 | [] => None
                 | d :: _ => if is_loopback d then None else Some (str_take 16 (if_name d))
                 end in
      _ ← pcap_freealldevs alldevs;
      mret ret
  end.
End Finding.

(** ** The network of an interface (inet.c) *)

Definition IN_CLASSA (a : Z) : bool := (a &&& 0x80000000) =? 0.
Definition IN_CLASSB (a : Z) : bool := (a &&& 0xc0000000) =? 0x80000000.
Definition IN_CLASSC (a : Z) : bool := (a &&& 0xe0000000) =? 0xc0000000.

Inductive net_result := NetError (fmt : string) | Net (netp maskp : Z).

(** What the two ioctls give: [s_addr], the address as it lies in memory, or an error. *)
Inductive addr_answer := IfAddr (s_addr : Z) | IfNoAddr | IfAddrError.

(** [pcap_lookupnet]. [special] are the parts of names of devices without an address. *)
Definition pcap_lookupnet (special : list string) (socket_ok : bool) (addr_of mask_of : string -> addr_answer)
    (device : option string) : net_result :=
  match device with
  | None => Net 0 0
  | Some device =>
      if String.eqb device "any" || existsb (strstr device) special then Net 0 0
      else if negb socket_ok then NetError "socket: %s"
      else
        match addr_of (str_take 16 device) with
        | IfNoAddr => NetError "%s: no IPv4 address assigned"
        | IfAddrError => NetError "SIOCGIFADDR: %s: %s"
        | IfAddr netp =>
            match mask_of (str_take 16 device) with
            | IfAddr maskp =>
                if maskp =? 0 then
                  if IN_CLASSA netp then Net (netp &&& 0xff000000) 0xff000000
                  else if IN_CLASSB netp then Net (netp &&& 0xffff0000) 0xffff0000
                  else if IN_CLASSC netp then Net (netp &&& 0xffffff00) 0xffffff00
                  else NetError "inet class for 0x%x unknown"
                else Net (netp &&& maskp) maskp
            | _ => NetError "SIOCGIFNETMASK: %s: %s"
            end
        end
  end.
