(* ===== verification/IfaceProofs.v ===== *)
(** * The list of interfaces: order, names and memory

    The list is sorted (interfaces that are no loopback first, by instance number, in the
    order they were found), names each interface once, and owns its blocks: whatever
    allocations fail, nothing is freed twice and nothing is left behind. *)
From stdpp Require Import base numbers list gmap sorting.
From Stdlib Require Import Strings.Byte Strings.String Strings.Ascii.
From S2P Require Import Prelude BpfInsn Datalink EtherEnt Names Iface IfaceScan.
Open Scope Z_scope.

(** ** The order *)

(** Where an entry belongs: loopback interfaces behind all others. *)
Definition rank (d : pcap_if) : Z := (if is_loopback d then 2 ^ 33 else 0) + get_instance (if_name d).

Lemma get_instance_range name : - 2 ^ 31 <= get_instance name < 2 ^ 31.
Proof.
  unfold get_instance, INT_MAX. destruct (String.eqb name "any"); [lia|].
  destruct (starts_with_digit _); [apply s32_range|lia].
Qed.

Lemma goes_before_rank cur next : goes_before cur next = (rank cur <? rank next).
Proof.
  unfold goes_before, rank. pose proof (get_instance_range (if_name cur)). pose proof (get_instance_range (if_name next)).
  destruct (is_loopback cur), (is_loopback next); cbn [negb andb orb]; rewrite ?andb_false_r, ?andb_true_r, ?orb_true_r, ?orb_false_r; lia.
Qed.

Definition in_order (devs : list pcap_if) : Prop := StronglySorted (fun d e => rank d <= rank e) devs.

Lemma filter_none {A} (P : A -> Prop) `{!forall x, Decision (P x)} l : Forall (fun x => ~ P x) l -> filter P l = [].
Proof. induction 1; [done|]. now rewrite filter_cons_False. Qed.
Lemma filter_whole {A} (P : A -> Prop) `{!forall x, Decision (P x)} l : Forall P l -> filter P l = l.
Proof. induction 1 as [|x l Hx _ IH]; [done|]. now rewrite filter_cons_True, IH. Qed.

(** The place of a new entry: behind those of the same rank. *)
Lemma insert_place cur devs : in_order devs ->
  insert_if cur devs = (filter (fun d => rank d <= rank cur) devs ++ [cur] ++ filter (fun d => rank cur < rank d) devs)%list.
Proof.
  induction 1 as [|d devs Hs IH Hd]; [done|]. cbn [insert_if]. rewrite goes_before_rank.
  destruct (Z.ltb_spec (rank cur) (rank d)).
  - assert (filter (fun d => rank d <= rank cur) (d :: devs) = []) as ->.
    { apply filter_none. constructor; [lia|]. eapply Forall_impl; [exact Hd|]. cbn. lia. }
    assert (filter (fun d => rank cur < rank d) (d :: devs) = d :: devs) as ->; [|done].
    apply filter_whole. constructor; [lia|]. eapply Forall_impl; [exact Hd|]. cbn. lia.
  - rewrite (filter_cons_True _ d), (filter_cons_False _ d) by lia. cbn [app]. now rewrite IH.
Qed.

Lemma insert_perm cur devs : insert_if cur devs ≡ₚ cur :: devs.
Proof.
  induction devs as [|d devs IH]; [done|]. cbn [insert_if]. destruct (goes_before cur d); [done|].
  rewrite IH. apply perm_swap.
Qed.

Lemma insert_in_order cur devs : in_order devs -> in_order (insert_if cur devs).
Proof.
  induction 1 as [|d devs Hs IH Hd]; [repeat constructor|]. cbn [insert_if]. rewrite goes_before_rank.
  destruct (Z.ltb_spec (rank cur) (rank d)).
  - constructor; [now constructor|]. constructor; [lia|]. eapply Forall_impl; [exact Hd|]. cbn. lia.
  - constructor; [done|]. rewrite insert_perm. now constructor.
Qed.

(** ** The list *)

Section Listed.
Context (host : if_host).

Record well_listed (devs : list pcap_if) : Prop := {
  wl_order : in_order devs;
  wl_names : NoDup (map if_name devs);
  wl_open : Forall (fun d => h_open host (if_name d) = true) devs
}.

Lemma listed_nil : well_listed [].
Proof. split; constructor. Qed.

Lemma find_if_none name devs : find_if name devs = None -> name ∉ map if_name devs.
Proof.
  unfold find_if. intros H Hin. apply list_elem_of_In, in_map_iff in Hin as (d & <- & Hd).
  pose proof (List.find_none _ _ H d Hd) as Hf. cbn in Hf. now rewrite String.eqb_refl in Hf.
Qed.

Lemma listed_insert cur devs : well_listed devs -> find_if (if_name cur) devs = None -> h_open host (if_name cur) = true ->
  well_listed (insert_if cur devs).
Proof.
  intros [Ho Hn Hf] Hx Hc. split.
  - now apply insert_in_order.
  - rewrite (insert_perm cur devs). cbn [map]. constructor; [now apply find_if_none|done].
  - rewrite (insert_perm cur devs). now constructor.
Qed.
End Listed.

(** Appending an address changes neither names nor places. *)
Lemma append_addr_name p a devs : map if_name (append_addr p a devs) = map if_name devs.
Proof. unfold append_addr. rewrite map_map. apply map_ext. intros d. now destruct (_ =? _)%nat. Qed.

Lemma listed_append host p a devs : well_listed host devs -> well_listed host (append_addr p a devs).
Proof.
  intros [Ho Hn Hf]. split.
  - unfold append_addr. clear -Ho. induction Ho as [|d devs Hs IH Hd]; cbn [map]; constructor; [exact IH|].
    apply Forall_map. eapply Forall_impl; [exact Hd|]. intros e He. cbn beta. unfold rank, is_loopback, if_name in *.
    now destruct (pi_block d =? p)%nat, (pi_block e =? p)%nat.
  - now rewrite append_addr_name.
  - unfold append_addr. apply Forall_map. eapply Forall_impl; [exact Hf|]. intros d. now destruct (_ =? _)%nat.
Qed.

(** ** Memory *)

(** The blocks of a list. *)
Definition blocks_of (devs : list pcap_if) : list nat := List.concat (map if_blocks devs).

(** The blocks in use are those of [base], which are not ours, and [bs], each once. *)
Record owned (base : gset nat) (bs : list nat) (m : memory) : Prop := {
  ow_live : mem_live m = base ∪ list_to_set bs;
  ow_nodup : NoDup bs;
  ow_base : base ## list_to_set bs;
  ow_next : forall b, b ∈ mem_live m -> (b < mem_next m)%nat
}.

Section Uses.
(** When behaviour may be undefined. *)
Context (U : Prop).

(** Run with the blocks [bs], the function has no undefined behaviour but when [U], and [Q]
    holds of its result and the blocks it leaves. *)
Definition uses {A} (bs : list nat) (c : IM A) (Q : A -> list nat -> Prop) : Prop :=
  forall base m, owned base bs m ->
  match c m with Some (a, m') => exists bs', Q a bs' /\ owned base bs' m' | None => U end.

Lemma owned_perm base bs bs' m : bs ≡ₚ bs' -> owned base bs m -> owned base bs' m.
Proof.
  intros HP [Hl Hn Hb Hx]. split; [|now rewrite <- HP| |done].
  - rewrite Hl. f_equal. now rewrite HP.
  - now rewrite <- HP.
Qed.

Lemma uses_ret {A} bs bs' (a : A) (Q : A -> list nat -> Prop) : bs ≡ₚ bs' -> Q a bs' -> uses bs (mret a) Q.
Proof. intros HP HQ base m Ho. cbv [mret IM_ret]. exists bs'. split; [done|]. now apply (owned_perm _ bs). Qed.

Lemma uses_undefined {A} bs (Q : A -> list nat -> Prop) : U -> uses bs undefined Q.
Proof. intros HU base m Ho. exact HU. Qed.

Lemma uses_bind {A B} bs (c : IM A) Q1 (k : A -> IM B) Q2 :
  uses bs c Q1 -> (forall a bs1, Q1 a bs1 -> uses bs1 (k a) Q2) -> uses bs (c ≫= k) Q2.
Proof.
  intros Hc Hk base m Ho. specialize (Hc base m Ho). cbv [mbind IM_bind].
  destruct (c m) as [[a m1]|]; [|exact Hc]. destruct Hc as (bs1 & HQ & Ho1). exact (Hk a bs1 HQ base m1 Ho1).
Qed.

Lemma uses_ret_bind {A B} bs (a : A) (k : A -> IM B) Q : uses bs (k a) Q -> uses bs (mret a ≫= k) Q.
Proof. done. Qed.

Lemma uses_assoc {A B C} bs (c : IM A) (k : A -> IM B) (k' : B -> IM C) Q :
  uses bs (c ≫= fun a => k a ≫= k') Q -> uses bs ((c ≫= k) ≫= k') Q.
Proof.
  intros H base m Ho. specialize (H base m Ho). revert H. cbv [mbind IM_bind]. now destruct (c m) as [[]|].
Qed.

Lemma uses_weaken {A} bs (c : IM A) (Q Q' : A -> list nat -> Prop) :
  uses bs c Q -> (forall a bs', Q a bs' -> Q' a bs') -> uses bs c Q'.
Proof.
  intros Hc HQ base m Ho. specialize (Hc base m Ho). destruct (c m) as [[a m']|]; [|exact Hc].
  destruct Hc as (bs' & ? & ?). exists bs'. auto.
Qed.

Lemma uses_perm {A} bs bs' (c : IM A) Q : bs ≡ₚ bs' -> uses bs' c Q -> uses bs c Q.
Proof. intros HP Hc base m Ho. apply Hc. now apply (owned_perm _ bs). Qed.

(** Other blocks stay. *)
Lemma uses_frame {A} bs R (c : IM A) Q :
  uses bs c Q -> uses (bs ++ R)%list c (fun a bs' => exists bs1, bs' = (bs1 ++ R)%list /\ Q a bs1).
Proof.
  intros Hc base m [Hl Hn Hb Hx]. apply NoDup_app in Hn as (N1 & N2 & N3).
  assert (owned (base ∪ list_to_set R) bs m) as Ho.
  { split; [rewrite Hl, list_to_set_app_L; set_solver|done| |done]. rewrite list_to_set_app_L in Hb. set_solver. }
  specialize (Hc _ m Ho). destruct (c m) as [[a m']|]; [|exact Hc]. destruct Hc as (bs' & HQ & [Hl' Hn' Hb' Hx']).
  exists (bs' ++ R)%list. split; [eauto|]. split.
  - rewrite Hl', list_to_set_app_L. set_solver.
  - apply NoDup_app. split; [done|]. split; [set_solver|done].
  - rewrite list_to_set_app_L in *. set_solver.
  - done.
Qed.

Section Memory.
Context (host : if_host).

Lemma mem_alloc_bind {B} bs (k : option nat -> IM B) Q :
  (forall b, uses (b :: bs) (k (Some b)) Q) -> uses bs (k None) Q -> uses bs (malloc host ≫= k) Q.
Proof.
  intros H1 H0 base m [Hl Hn Hb Hx]. cbv [mbind IM_bind]. unfold malloc.
  assert (mem_next m ∉ mem_live m) as Hfresh by (intros Hin; apply Hx in Hin; lia).
  destruct (h_malloc host (mem_next m)).
  - apply (H1 (mem_next m) base). rewrite Hl in Hfresh. split; cbn [mem_live mem_next].
    + rewrite Hl. set_solver.
    + constructor; set_solver.
    + set_solver.
    + intros b [->%elem_of_singleton|Hin]%elem_of_union; [lia|]. apply Hx in Hin. lia.
  - apply (H0 base). split; cbn [mem_live mem_next]; try done. intros b Hin. apply Hx in Hin. lia.
Qed.

Lemma mem_free_bind {B} b bs bs' (k : unit -> IM B) Q :
  bs ≡ₚ b :: bs' -> uses bs' (k tt) Q -> uses bs (free b ≫= k) Q.
Proof.
  intros HP Hk base m Ho. apply (owned_perm _ _ _ _ HP) in Ho as [Hl Hn Hb Hx]. cbv [mbind IM_bind]. unfold free.
  apply NoDup_cons in Hn as [N1 N2]. cbn in *. rewrite decide_True by set_solver.
  apply (Hk base). split; cbn [mem_live mem_next]; [rewrite Hl; set_solver|done|set_solver|set_solver].
Qed.

Lemma mem_free_all_bind {B} l bs bs' (k : unit -> IM B) Q :
  bs ≡ₚ (l ++ bs')%list -> uses bs' (k tt) Q -> uses bs (free_all l ≫= k) Q.
Proof.
  revert bs; induction l as [|b l IH]; intros bs HP Hk; [now apply (uses_perm _ bs')|].
  cbn [free_all]. apply uses_assoc, (mem_free_bind b bs (l ++ bs')%list); [exact HP|now apply IH].
Qed.

Lemma freealldevs_bind {B} devs bs bs' (k : unit -> IM B) Q :
  bs ≡ₚ (blocks_of devs ++ bs')%list -> uses bs' (k tt) Q -> uses bs (pcap_freealldevs devs ≫= k) Q.
Proof.
  revert bs; induction devs as [|d devs IH]; intros bs HP Hk; [now apply (uses_perm _ bs')|].
  cbn [pcap_freealldevs]. apply uses_assoc, (mem_free_all_bind _ _ (blocks_of devs ++ bs')%list); [|now apply IH].
  rewrite HP. unfold blocks_of. cbn [map List.concat]. now rewrite app_assoc.
Qed.

Lemma mem_strdup_bind {B} s bs (k : option c_text -> IM B) Q :
  (forall b, uses (b :: bs) (k (Some (mk_text b s))) Q) -> uses bs (k None) Q -> uses bs (strdup host s ≫= k) Q.
Proof.
  intros H1 H0. unfold strdup. apply uses_assoc, mem_alloc_bind; [intros b; apply (H1 b)|exact H0].
Qed.
End Memory.

(** ** The operations *)

Section Operations.
Context (host : if_host).

(** A list, the blocks it is made of, and that it is in order. *)
Definition lists (devs : list pcap_if) (bs : list nat) : Prop := bs = blocks_of devs /\ well_listed host devs.
Definition gives_list (r : bool * list pcap_if) (bs : list nat) : Prop := lists (snd r) bs.

Lemma blocks_perm devs devs' : devs ≡ₚ devs' -> blocks_of devs ≡ₚ blocks_of devs'.
Proof. intros HP. unfold blocks_of. rewrite <- !flat_map_concat_map. now rewrite HP. Qed.

(** What [add_or_find_if] leaves: the list as it was, or with the entry it returns in it. *)
Definition find_post (devs : list pcap_if) (name : string) (r : find_result * list pcap_if) (bs : list nat) : Prop :=
  lists (snd r) bs /\
  match fst r with
  | Found p => exists d, d ∈ snd r /\ pi_block d = p /\ if_name d = name
  | NotOpened => h_open host name = false /\ snd r = devs
  | FindError => snd r = devs
  end.

Lemma find_failed devs name bs : well_listed host devs -> bs ≡ₚ blocks_of devs ->
  uses bs (mret (FindError, devs)) (find_post devs name).
Proof. intros Hw HP. eapply uses_ret; [exact HP|]. done. Qed.

(** The new entry. *)
Lemma find_new devs name fl b n d bs : well_listed host devs -> find_if name devs = None -> h_open host name = true ->
  bs ≡ₚ ((match d with Some t => [t_block t] | None => [] end) ++ n :: b :: blocks_of devs)%list ->
  uses bs (mret (Found b, insert_if (mk_pcap_if b (mk_text n name) d [] fl) devs)) (find_post devs name).
Proof.
  intros Hw Ef Eo HP. set (cur := mk_pcap_if b (mk_text n name) d [] fl).
  eapply uses_ret; [|split; [split; [reflexivity|]|]]; cbn [fst snd].
  - rewrite HP, (blocks_perm _ _ (insert_perm cur devs)). unfold blocks_of. cbn.
    destruct d as [t|]; cbn [app]; [apply perm_swap|done].
  - now apply listed_insert.
  - exists cur. split; [|done]. rewrite (insert_perm cur devs). now left.
Qed.

Lemma add_or_find_uses devs name flags description : well_listed host devs ->
  uses (blocks_of devs) (add_or_find_if host devs name flags description) (find_post devs name).
Proof.
  intros Hw. unfold add_or_find_if. destruct (find_if name devs) as [d|] eqn:Ef.
  { apply (uses_ret _ (blocks_of devs)); [done|]. split; [done|]. cbn [fst snd]. unfold find_if in Ef.
    apply List.find_some in Ef as [Hd Hn]. apply String.eqb_eq in Hn. exists d. split; [now apply list_elem_of_In|done]. }
  destruct (h_open host name) eqn:Eo; cbn [negb]; [|now apply (uses_ret _ (blocks_of devs))].
  apply mem_alloc_bind; [intros b|now apply find_failed].
  apply mem_strdup_bind; [intros n|apply (mem_free_bind _ _ (blocks_of devs)); [done|now apply find_failed]].
  destruct description as [s|]; [|apply uses_ret_bind; now apply find_new].
  apply uses_assoc, mem_strdup_bind; [intros t|]; apply uses_ret_bind; cbn; [now apply find_new|].
  apply (mem_free_bind _ _ (b :: blocks_of devs)); [done|]. apply (mem_free_bind _ _ (blocks_of devs)); [done|]. now apply find_failed.
Qed.
(** An address that can be copied: a null pointer, or enough bytes. *)
Definition sa_ok (sa : option (list byte * nat)) : Prop :=
  match sa with Some (sa, len) => (len <= List.length sa)%nat | None => True end.

Lemma dup_field_bind {B} sa undo bs bs' (k : option (option sa_copy) -> IM B) Q :
  sa_ok sa -> bs ≡ₚ (undo ++ bs')%list ->
  (forall c, uses (sa_blocks c ++ bs)%list (k (Some c)) Q) -> uses bs' (k None) Q ->
  uses bs (dup_field host sa undo ≫= k) Q.
Proof.
  intros Hsa HP H1 H0. destruct sa as [[sa len]|]; [|exact (H1 None)]. cbn [dup_field sa_ok] in *.
  unfold dup_sockaddr. apply uses_assoc, uses_assoc, mem_alloc_bind.
  - intros b. rewrite (proj2 (Nat.leb_le _ _) Hsa). exact (H1 (Some (mk_sa b (take len sa)))).
  - apply uses_ret_bind, uses_assoc, (mem_free_all_bind _ _ bs'); [exact HP|exact H0].
Qed.

Lemma uses_nodup {A} bs (c : IM A) Q : (NoDup bs -> uses bs c Q) -> uses bs c Q.
Proof. intros H base m Ho. apply H; [exact (ow_nodup _ _ _ Ho)|done]. Qed.

Lemma append_other p a devs : p ∉ blocks_of devs -> append_addr p a devs = devs.
Proof.
  unfold blocks_of, append_addr. induction devs as [|d devs IH]; [done|]. cbn [map List.concat]. rewrite not_elem_of_app.
  intros [Hd Hr]. rewrite IH by done. destruct (Nat.eqb_spec (pi_block d) p) as [<-|]; [|done].
  exfalso. apply Hd. unfold if_blocks. rewrite !elem_of_app. right. right. right. now left.
Qed.

Lemma append_blocks d a devs : d ∈ devs -> NoDup (blocks_of devs) ->
  blocks_of (append_addr (pi_block d) a devs) ≡ₚ (addr_blocks a ++ blocks_of devs)%list.
Proof.
  unfold blocks_of. induction devs as [|e devs IH]; [intros []%not_elem_of_nil|].
  intros Hin Hn; cbn [map List.concat] in Hn; apply NoDup_app in Hn as (N1 & N2 & N3).
  apply elem_of_cons in Hin as [<-|Hd].
  - cbn [append_addr map List.concat]. rewrite Nat.eqb_refl. fold (append_addr (pi_block d) a devs). rewrite append_other.
    + unfold if_blocks. cbn [pi_addresses pi_name pi_description pi_block]. rewrite map_app, List.concat_app. cbn [map List.concat].
      rewrite app_nil_r, <- !app_assoc. rewrite !(Permutation_app_comm (List.concat (map addr_blocks (pi_addresses d)))).
      now rewrite <- !app_assoc.
    + apply N2. unfold if_blocks. rewrite !elem_of_app. right. right. right. now left.
  - cbn [append_addr map List.concat]. fold (append_addr (pi_block d) a devs). destruct (Nat.eqb_spec (pi_block e) (pi_block d)) as [Heq|].
    + exfalso. apply (N2 (pi_block e)); [unfold if_blocks; rewrite !elem_of_app; right; right; right; now left|].
      rewrite Heq, <- flat_map_concat_map. apply list_elem_of_In, in_flat_map. exists d. split; [now apply list_elem_of_In|].
      unfold if_blocks. rewrite !in_app_iff. right. right. right. now left.
    + rewrite IH by done. rewrite !app_assoc. now rewrite (Permutation_app_comm (if_blocks e)).
Qed.

Lemma add_addr_uses devs name flags addr netmask broadaddr dstaddr : well_listed host devs ->
  sa_ok addr -> sa_ok netmask -> sa_ok broadaddr -> sa_ok dstaddr ->
  uses (blocks_of devs) (add_addr_to_iflist host devs name flags addr netmask broadaddr dstaddr) gives_list.
Proof.
  intros Hw Ha Hn Hb Hd. unfold add_addr_to_iflist. eapply uses_bind; [now apply add_or_find_uses|].
  intros [r devs1] bs ([-> Hw1] & Hr). cbn [fst snd] in *.
  assert (forall ok, uses (blocks_of devs1) (mret (ok, devs1)) gives_list) as Hsame by (intros ok; now apply (uses_ret _ (blocks_of devs1))).
  destruct r as [| |p]; [apply Hsame..|]. destruct Hr as (d & Hin & <- & _).
  apply mem_alloc_bind; [intros b|apply Hsame].
  apply (dup_field_bind addr _ _ (blocks_of devs1)); [done|done|intros a|apply Hsame].
  apply (dup_field_bind netmask _ _ (blocks_of devs1)); [done|now rewrite <- app_assoc|intros n|apply Hsame].
  apply (dup_field_bind broadaddr _ _ (blocks_of devs1)); [done|now rewrite <- !app_assoc|intros br|apply Hsame].
  apply (dup_field_bind dstaddr _ _ (blocks_of devs1)); [done|now rewrite <- !app_assoc|intros ds|apply Hsame].
  apply uses_nodup. intros HN. eapply uses_ret; [|split; [reflexivity|now apply listed_append]].
  cbn [snd]. rewrite append_blocks; [|done|].
  - unfold addr_blocks. cbn [pa_addr pa_netmask pa_broadaddr pa_dstaddr pa_block]. rewrite <- !app_assoc.
    rewrite !(Permutation_app_swap_app _ (sa_blocks a)), !(Permutation_app_swap_app _ (sa_blocks n)), !(Permutation_app_swap_app _ (sa_blocks br)).
    cbn [app]. done.
  - do 4 apply NoDup_app in HN as (_ & _ & HN). now apply NoDup_cons in HN as [_ HN].
Qed.

Lemma add_if_uses devs name flags description : well_listed host devs ->
  uses (blocks_of devs) (pcap_add_if host devs name flags description) gives_list.
Proof.
  intros Hw. unfold pcap_add_if. eapply uses_bind; [now apply add_or_find_uses|]. intros [r devs1] bs ([-> Hw1] & _).
  now apply (uses_ret _ (blocks_of devs1)).
Qed.
(** ** The sources *)

(** A source keeps the list in order, and its memory. *)
Definition good_finder (f : finder) : Prop := forall devs, well_listed host devs -> uses (blocks_of devs) (f devs) gives_list.

Lemma gives_bind {B} bs c (k : bool * list pcap_if -> IM B) Q : uses bs c gives_list ->
  (forall ok devs, well_listed host devs -> uses (blocks_of devs) (k (ok, devs)) Q) -> uses bs (c ≫= k) Q.
Proof. intros Hc Hk. eapply uses_bind; [exact Hc|]. intros [ok devs] bs1 [-> Hw]. now apply Hk. Qed.

Lemma gives_ret ok devs : well_listed host devs -> uses (blocks_of devs) (mret (ok, devs)) gives_list.
Proof. intros Hw. now apply (uses_ret _ (blocks_of devs)). Qed.

(** Goes on when the step before it succeeded. *)
Lemma gives_next bs c (f : finder) : uses bs c gives_list -> good_finder f ->
  uses bs ('(ok, devs) ← c; if (ok : bool) then f devs else mret (false, devs)) gives_list.
Proof. intros Hc Hf. apply (gives_bind _ _ _ _ Hc). intros [] devs Hw; [now apply Hf|now apply gives_ret]. Qed.

Definition sockaddr_ok (sa : option (list byte)) : bool :=
  match sa with
  | Some sa => (2 <=? List.length sa)%nat && (List.length sa =? family_len (le_val (take 2 sa)))%nat
  | None => true
  end.

(** Every socket address has the size of its family, and the netmask of an address is at
    least as long as that. *)
Definition ifaddrs_ok (ifa : ifaddrs) : bool :=
  sockaddr_ok (ifa_addr ifa) && sockaddr_ok (ifa_broadaddr ifa) && sockaddr_ok (ifa_dstaddr ifa) &&
  match ifa_addr ifa, ifa_netmask ifa with Some a, Some m => (List.length a <=? List.length m)%nat | _, _ => true end.

Lemma sized_run {B} sa bs (k : option (list byte * nat) -> IM B) Q : sockaddr_ok sa = true ->
  uses bs (k ((fun sa => (sa, List.length sa)) <$> sa)) Q -> uses bs (sized sa ≫= k) Q.
Proof.
  intros Hs Hk. destruct sa as [sa|]; [|exact Hk]. cbn [sockaddr_ok sized] in *. apply andb_prop in Hs as [H2 Hl].
  unfold get_sa_len. apply Nat.leb_le in H2. apply Nat.eqb_eq in Hl. apply uses_assoc.
  destruct (Nat.ltb_spec (List.length sa) 2); [lia|]. apply uses_ret_bind, uses_ret_bind. now rewrite <- Hl.
Qed.

Lemma add_ifaddrs_uses ifa : ifaddrs_ok ifa = true -> good_finder (fun devs => add_ifaddrs host devs ifa).
Proof.
  intros Hok devs Hw. unfold ifaddrs_ok in Hok. rewrite !andb_true_iff in Hok. destruct Hok as [[[H1 H2] H3] H4].
  unfold add_ifaddrs. apply sized_run; [done|]. cbn zeta.
  apply sized_run; [now destruct (has_flag _ IFF_BROADCAST)|]. apply sized_run; [now destruct (has_flag _ IFF_POINTOPOINT)|].
  apply add_addr_uses; [done|..].
  - destruct (ifa_addr ifa); cbn; [lia|done].
  - destruct (ifa_addr ifa), (ifa_netmask ifa); cbn; try done. now apply Nat.leb_le.
  - destruct (if has_flag _ IFF_BROADCAST then _ else _); cbn; [lia|done].
  - destruct (if has_flag _ IFF_POINTOPOINT then _ else _); cbn; [lia|done].
Qed.

Lemma ifaddrs_loop_uses ifas : forallb ifaddrs_ok ifas = true -> good_finder (ifaddrs_loop host ifas).
Proof.
  induction ifas as [|ifa ifas IH]; intros Hok devs Hw; cbn [ifaddrs_loop]; [now apply gives_ret|].
  cbn [forallb] in Hok. apply andb_prop in Hok as [H1 H2]. destruct (has_flag _ IFF_UP); cbn [negb]; [|now apply IH].
  apply gives_next; [now apply add_ifaddrs_uses|now apply IH].
Qed.

(** A list, or nothing and no memory. *)
Definition gives_option (r : option (list pcap_if)) (bs : list nat) : Prop :=
  match r with Some devs => lists devs bs | None => bs = [] end.

Lemma free_and_fail devs : uses (blocks_of devs) (_ ← pcap_freealldevs devs; mret None) gives_option.
Proof. apply (freealldevs_bind _ _ []); [now rewrite app_nil_r|]. now apply (uses_ret _ []). Qed.

Lemma interfaces_uses getifaddrs :
  match getifaddrs with Some ifas => forallb ifaddrs_ok ifas = true | None => True end ->
  uses [] (pcap_findalldevs_interfaces host getifaddrs) gives_option.
Proof.
  intros Hok. destruct getifaddrs as [ifas|]; [|now apply (uses_ret _ [])]. cbn [pcap_findalldevs_interfaces].
  eapply gives_bind; [exact (ifaddrs_loop_uses ifas Hok [] (listed_nil host))|]. intros [] devs Hw; [|apply free_and_fail].
  now apply (uses_ret _ (blocks_of devs)).
Qed.

Lemma scan_name_good flags_of gone name : good_finder (scan_name host flags_of gone name).
Proof.
  intros devs Hw. unfold scan_name. destruct (flags_of _); try now apply gives_ret.
  destruct (has_flag _ _); [now apply add_if_uses|now apply gives_ret].
Qed.

Lemma sys_loop_good flags_of es : good_finder (sys_class_net_loop host flags_of es).
Proof.
  induction es as [|e es IH]; intros devs Hw; cbn [sys_class_net_loop]; [now apply gives_ret|].
  repeat (case_match; [now apply IH|]). apply gives_next; [now apply scan_name_good|exact IH].
Qed.

Lemma proc_loop_good flags_of lines : good_finder (proc_net_dev_loop host flags_of lines).
Proof.
  induction lines as [|l lines IH]; intros devs Hw; cbn [proc_net_dev_loop]; [now apply gives_ret|].
  cbn zeta. case_match; [now apply IH|]. apply gives_next; [now apply scan_name_good|exact IH].
Qed.

Lemma platform_good flags_of sys proc socket_ok read_error :
  good_finder (pcap_platform_finddevs host flags_of sys proc socket_ok read_error).
Proof.
  intros devs Hw. unfold pcap_platform_finddevs.
  apply (uses_bind _ _ (fun r bs => lists (snd r) bs)).
  - unfold scan_sys_class_net. destruct sys as [| |es]; [now apply (uses_ret _ (blocks_of devs))..|].
    destruct socket_ok; cbn [negb]; [|now apply (uses_ret _ (blocks_of devs))].
    eapply gives_bind; [now apply sys_loop_good|]. intros ok devs1 Hw1. now apply (uses_ret _ (blocks_of devs1)).
  - intros [ret devs1] bs [-> Hw1]. cbn [snd] in *. destruct (ret =? -1); [now apply gives_ret|].
    apply (gives_next _ _ (fun devs => pcap_add_if host devs "any" 0 (Some any_descr)));
      [|intros devs2 Hw2; now apply add_if_uses].
    destruct (ret =? 0); [|now apply gives_ret]. unfold scan_proc_net_dev. destruct proc as [| |lines]; [now apply gives_ret..|].
    destruct socket_ok; cbn [negb]; [|now apply gives_ret].
    eapply gives_bind; [now apply proc_loop_good|]. intros ok devs2 Hw2. now apply gives_ret.
Qed.
Lemma bt_loop_good i ids : good_finder (bt_loop host i ids).
Proof.
  revert i; induction ids as [|id ids IH]; intros i devs Hw; cbn [bt_loop]; [now apply gives_ret|].
  apply gives_next; [now apply add_if_uses|apply IH].
Qed.

Lemma bt_good sock adapters : good_finder (bt_findalldevs host sock adapters).
Proof.
  intros devs Hw. unfold bt_findalldevs. destruct sock; [|now apply gives_ret..].
  apply mem_alloc_bind; [intros b|now apply gives_ret]. apply (uses_perm _ (blocks_of devs ++ [b])%list); [apply Permutation_cons_append|].
  eapply uses_bind; [apply uses_frame with (Q := gives_list)|].
  - destruct adapters as [ids|]; [now apply bt_loop_good|now apply gives_ret].
  - intros [ok devs1] bs (bs1 & -> & [-> Hw1]). apply (mem_free_bind _ _ (blocks_of devs1)); [symmetry; apply Permutation_cons_append|].
    now apply gives_ret.
Qed.

Lemma two_sources_good n1 d1 n2 d2 : good_finder (two_sources host n1 d1 n2 d2).
Proof.
  intros devs Hw. unfold two_sources. apply (gives_next _ _ (fun devs => pcap_add_if host devs n2 0 (Some d2)));
    [now apply add_if_uses|intros devs1 Hw1; now apply add_if_uses].
Qed.

Lemma netfilter_good sock : good_finder (netfilter_findalldevs host sock).
Proof. intros devs Hw. destruct sock; [now apply two_sources_good|now apply gives_ret..]. Qed.

Lemma can_good : good_finder can_findalldevs.
Proof. intros devs Hw. now apply gives_ret. Qed.

Lemma qnf_good : good_finder (qnf_platform_finddevs host).
Proof.
  intros devs Hw. unfold qnf_platform_finddevs. eapply gives_bind; [now apply add_if_uses|]. intros ok devs1 Hw1. now apply gives_ret.
Qed.

(** The names the loops over the USB directories can read. *)
Definition usb_sys_ok (name : string) : bool :=
  match after_usb name with Some s => match sscanf_d s with NoInput => false | _ => true end | None => true end.
Definition usb_proc_ok (name : string) : bool := match last_digits name with Some (_, true) => false | _ => true end.
Definition usb_ok (sys proc : option (list string)) : bool :=
  match sys, proc with
  | Some names, _ => forallb usb_sys_ok names
  | None, Some names => forallb usb_proc_ok names
  | None, None => true
  end.

Lemma usb_sys_good names : (forallb usb_sys_ok names = false -> U) -> good_finder (usb_sys_loop host names).
Proof.
  induction names as [|name names IH]; intros HU devs Hw; cbn [usb_sys_loop]; [now apply gives_ret|].
  cbn [forallb] in HU. unfold usb_sys_ok at 1 in HU.
  destruct (after_usb name) as [s|]; [|now apply IH]. destruct (sscanf_d s) as [n| |]; [|now apply IH|now apply uses_undefined, HU].
  apply gives_next; [now apply add_if_uses|now apply IH].
Qed.

Lemma usb_proc_good names : (forallb usb_proc_ok names = false -> U) -> good_finder (usb_proc_loop host names).
Proof.
  induction names as [|name names IH]; intros HU devs Hw; cbn [usb_proc_loop]; [now apply gives_ret|].
  cbn [forallb] in HU. unfold usb_proc_ok at 1 in HU.
  destruct (last_digits name) as [[d []]|]; [now apply uses_undefined, HU| |now apply IH]. destruct (sscanf_d d) as [n| |]; [|now apply IH..].
  apply gives_next; [now apply add_if_uses|now apply IH].
Qed.

Lemma usb_good sys proc : (usb_ok sys proc = false -> U) -> good_finder (usb_findalldevs host sys proc).
Proof.
  intros HU devs Hw. destruct sys as [names|]; [now apply usb_sys_good|].
  destruct proc as [names|]; [now apply usb_proc_good|now apply gives_ret].
Qed.

Lemma sources_uses ops : Forall good_finder ops -> forall devs, well_listed host devs ->
  uses (blocks_of devs) (sources_loop ops devs) gives_option.
Proof.
  induction 1 as [|op ops Hop _ IH]; intros devs Hw; cbn [sources_loop]; [now apply (uses_ret _ (blocks_of devs))|].
  eapply gives_bind; [now apply Hop|]. intros [] devs1 Hw1; [now apply IH|apply free_and_fail].
Qed.

Lemma findalldevs_uses getifaddrs platform ops :
  match getifaddrs with Some ifas => forallb ifaddrs_ok ifas = true | None => True end ->
  good_finder platform -> Forall good_finder ops ->
  uses [] (pcap_findalldevs host getifaddrs platform ops) gives_option.
Proof.
  intros Hg Hp Ho. unfold pcap_findalldevs. eapply uses_bind; [now apply interfaces_uses|].
  intros [devs|] bs HQ; [|now apply (uses_ret _ bs)]. destruct HQ as [-> Hw].
  eapply gives_bind; [now apply Hp|]. intros [] devs1 Hw1; [now apply sources_uses|apply free_and_fail].
Qed.

(** The device that is returned, of a list. *)
Definition looked_up (devs : list pcap_if) (ret : option string) : Prop :=
  match ret with
  | Some name => exists d, d ∈ devs /\ is_loopback d = false /\ name = str_take 16 (if_name d) /\ Forall (fun e => rank d <= rank e) devs
  | None => Forall (fun d => is_loopback d = true) devs
  end.

Lemma first_looked_up devs : in_order devs ->
  looked_up devs match devs with [] => None | d :: _ => if is_loopback d then None else Some (str_take 16 (if_name d)) end.
Proof.
  destruct 1 as [|d devs _ Hd]; [constructor|]. destruct (is_loopback d) eqn:El; cbn [looked_up].
  - constructor; [done|]. eapply Forall_impl; [exact Hd|]. cbn. intros e He. unfold rank in He. rewrite El in He.
    destruct (is_loopback e); [done|]. pose proof (get_instance_range (if_name d)). pose proof (get_instance_range (if_name e)). lia.
  - exists d. split; [now left|]. split; [done|]. split; [done|]. constructor; [lia|exact Hd].
Qed.

End Operations.
End Uses.

(** ** [pcap_findalldevs] and [pcap_lookupdev] *)

(** What the system answers to the sources of a build for Linux. *)
Record answers := mk_answers {
  an_ifaddrs : option (list ifaddrs); an_flags : string -> flags_answer;
  an_sys : opened (list dirent); an_proc : opened (list string); an_socket : bool; an_read_error : bool;
  an_bt : socket_answer; an_adapters : option (list Z);
  an_usb_sys : option (list string); an_usb_proc : option (list string); an_netfilter : socket_answer }.

Definition find_all (host : if_host) (a : answers) : IM (option (list pcap_if)) :=
  pcap_findalldevs host (an_ifaddrs a)
    (pcap_platform_finddevs host (an_flags a) (an_sys a) (an_proc a) (an_socket a) (an_read_error a))
    [bt_findalldevs host (an_bt a) (an_adapters a); can_findalldevs; usb_findalldevs host (an_usb_sys a) (an_usb_proc a);
     netfilter_findalldevs host (an_netfilter a); dbus_findalldevs host; qnf_platform_finddevs host].

(** Socket addresses are whole; and no name in the USB directories is misread. *)
Definition addresses_ok (a : answers) : bool :=
  match an_ifaddrs a with Some ifas => forallb ifaddrs_ok ifas | None => true end.
Definition usb_names_ok (a : answers) : bool := usb_ok (an_usb_sys a) (an_usb_proc a).
Definition answers_ok (a : answers) : bool := addresses_ok a && usb_names_ok a.

(** Every block in use was allocated before. *)
Definition memory_ok (m : memory) : Prop := forall b, b ∈ mem_live m -> (b < mem_next m)%nat.

Lemma owned_nothing m : memory_ok m -> owned (mem_live m) [] m.
Proof. intros Hm. split; [set_solver|constructor|set_solver|done]. Qed.

Lemma find_all_uses host a : addresses_ok a = true -> uses (usb_names_ok a = false) [] (find_all host a) (gives_option host).
Proof.
  intros Hok. apply findalldevs_uses.
  - unfold addresses_ok in Hok. now destruct (an_ifaddrs a).
  - apply platform_good.
  - repeat constructor; [apply bt_good|apply can_good|now apply usb_good|apply netfilter_good|apply two_sources_good|apply qnf_good].
Qed.

(** The list, freed, leaves the memory as it was. *)
Lemma free_found devs base m : owned base (blocks_of devs) m ->
  exists m', pcap_freealldevs devs m = Some (tt, m') /\ mem_live m' = base.
Proof.
  intros Ho. assert (uses False (blocks_of devs) (pcap_freealldevs devs ≫= mret) (fun _ bs => bs = [])) as H.
  { apply (freealldevs_bind _ _ _ []); [now rewrite app_nil_r|]. now apply (uses_ret _ _ []). }
  specialize (H base m Ho). cbv [mbind IM_bind mret IM_ret] in H.
  destruct (pcap_freealldevs devs m) as [[[] m']|]; [|done]. destruct H as (bs & -> & Ho').
  exists m'. split; [done|]. rewrite (ow_live _ _ _ Ho'). set_solver.
Qed.

Lemma findalldevs_memory host a m : addresses_ok a = true -> memory_ok m ->
  match find_all host a m with
  | None => usb_names_ok a = false
  | Some (None, m1) => mem_live m1 = mem_live m
  | Some (Some devs, m1) => well_listed host devs /\
      exists m2, pcap_freealldevs devs m1 = Some (tt, m2) /\ mem_live m2 = mem_live m
  end.
Proof.
  intros Hok Hm. pose proof (find_all_uses host a Hok _ m (owned_nothing m Hm)) as H.
  destruct (find_all host a m) as [[[devs|] m1]|]; [| |exact H]; destruct H as (bs & HQ & Ho).
  - destruct HQ as [-> Hw]. split; [done|]. now apply free_found.
  - cbn in HQ. subst bs. rewrite (ow_live _ _ _ Ho). set_solver.
Qed.

(** C10: [pcap_findalldevs], whatever the system answers and whichever allocations fail, frees
    nothing twice and leaks nothing: on an error the memory is as before, and otherwise
    [pcap_freealldevs] of the list makes it so. The list is sorted, interfaces that are no
    loopback first and then by instance number, names each interface once, and only those
    that can be opened. Undefined behaviour comes from one thing only, a name in the USB
    directories that is misread: one of digits alone in /proc/bus/usb (there, the normal
    ones), or usb with no number in sysfs. Of the socket addresses the system returns it is
    assumed that they have the size of their family. *)
Theorem interfaces_found host a m : addresses_ok a = true -> memory_ok m ->
  match find_all host a m with
  | None => usb_names_ok a = false
  | Some (None, m1) => mem_live m1 = mem_live m
  | Some (Some devs, m1) => well_listed host devs /\
      exists m2, pcap_freealldevs devs m1 = Some (tt, m2) /\ mem_live m2 = mem_live m
  end.
Proof. apply findalldevs_memory. Qed.

(** C17: when the socket addresses are whole and no USB name is misread, [pcap_lookupdev] returns the name of the interface with the lowest instance number
    among those that are no loopback, cut to 16 characters, and a null pointer exactly when
    there is none or the list could not be made; it gives back all of its memory. *)
Theorem lookupdev_picks_first host a m : answers_ok a = true -> memory_ok m ->
  exists r m1 ret m2, find_all host a m = Some (r, m1) /\ pcap_lookupdev (find_all host a) m = Some (ret, m2) /\
    mem_live m2 = mem_live m /\
    match r with Some devs => looked_up devs ret | None => ret = None end.
Proof.
  intros Hok Hm. apply andb_prop in Hok as [Hok Husb]. pose proof (findalldevs_memory host a m Hok Hm) as H.
  unfold pcap_lookupdev. cbv [mbind IM_bind]. destruct (find_all host a m) as [[r m1]|]; [|congruence].
  exists r, m1. destruct r as [devs|].
  - destruct H as (Hw & m2 & E2 & Hl). cbn zeta. rewrite E2.
    do 2 eexists. split; [done|]. split; [reflexivity|]. split; [done|]. apply first_looked_up, (wl_order _ _ Hw).
  - exists None, m1. split; [done|]. split; [reflexivity|]. now split.
Qed.

(** ** Witnesses *)

Definition inet_sample : list byte := map z2b [2; 0; 0; 0; 10; 0; 0; 1; 0; 0; 0; 0; 0; 0; 0; 0].
Definition answers_sample : answers :=
  mk_answers (Some [mk_ifaddrs "lo" (IFF_UP + IFF_LOOPBACK) None None None None;
                    mk_ifaddrs "eth1" IFF_UP (Some inet_sample) (Some inet_sample) None None;
                    mk_ifaddrs "eth0:1" IFF_UP None None None None])
    (fun _ => IfFlags IFF_UP) (Opened [mk_dirent "wlan0" false true]) NotThere true false
    SocketOk (Some [0]) (Some ["usb1"%string]) None FamilyUnsupported.
(** The twelfth allocation fails. *)
Definition host_sample : if_host := mk_if_host (fun n => negb (n =? 11)%nat) (fun name => negb (String.eqb name "nac0")).
Definition all_memory : if_host := mk_if_host (fun _ => true) (h_open host_sample).

Definition names_found (host : if_host) : option (list string) :=
  match find_all host answers_sample (mk_memory 0 ∅) with Some (Some devs, _) => Some (map if_name devs) | _ => None end.
Example names_sample :
  names_found all_memory = Some ["eth0"; "wlan0"; "bluetooth0"; "dbus-system"; "dbus-session"; "eth1"; "usbmon1"; "any"; "lo"]%string /\
  names_found host_sample = None.
Proof. split; vm_compute; reflexivity. Qed.

Lemma interfaces_found_witness :
  addresses_ok answers_sample = true /\ memory_ok (mk_memory 0 ∅) /\
  match find_all host_sample answers_sample (mk_memory 0 ∅) with
  | None => usb_names_ok answers_sample = false
  | Some (None, m1) => mem_live m1 = mem_live (mk_memory 0 ∅)
  | Some (Some devs, m1) => well_listed host_sample devs /\
      exists m2, pcap_freealldevs devs m1 = Some (tt, m2) /\ mem_live m2 = mem_live (mk_memory 0 ∅)
  end.
Proof.
  assert (memory_ok (mk_memory 0 ∅)) as Hm by (intros b []%not_elem_of_empty).
  split; [vm_compute; reflexivity|]. split; [exact Hm|]. apply interfaces_found; [vm_compute; reflexivity|exact Hm].
Defined.

Lemma lookupdev_picks_first_witness :
  exists r m1 ret m2, find_all all_memory answers_sample (mk_memory 0 ∅) = Some (r, m1) /\
    pcap_lookupdev (find_all all_memory answers_sample) (mk_memory 0 ∅) = Some (ret, m2) /\
    mem_live m2 = mem_live (mk_memory 0 ∅) /\
    match r with Some devs => looked_up devs ret | None => ret = None end.
Proof. apply lookupdev_picks_first; [vm_compute; reflexivity|intros b []%not_elem_of_empty]. Defined.

(** ** Names and networks *)

(** The digits behind a colon are never taken for the number of an alias. *)
Lemma interface_name_no_alias : interface_name "eth0:1: 0 0" = "eth0"%string.
Proof. vm_compute. reflexivity. Qed.

(** The default mask of 10.0.0.200, an address of class A, is 0.255.255.255: the class is
    looked for in the last octet, and the mask is that of class C with its bytes reversed. *)
Lemma lookupnet_default_mask : pcap_lookupnet [] true (fun _ => IfAddr 0xc800000a) (fun _ => IfAddr 0) (Some "eth0"%string) =
  Net 0xc8000000 0xffffff00.
Proof. vm_compute. reflexivity. Qed.

(** An entry of the USB directory named usb leaves the number unread; one of digits only makes
    the loop read the character before its name. *)
Lemma usb_names_misread : usb_findalldevs all_memory (Some ["usb"%string]) None [] (mk_memory 0 ∅) = None /\
  usb_findalldevs all_memory None (Some ["001"%string]) [] (mk_memory 0 ∅) = None.
Proof. split; vm_compute; reflexivity. Qed.
