(* ===== verification/LinuxFilter.v ===== *)
(** * Linux: handles, link-layer types, and filters in the kernel (pcap-linux.c)

    The part of a handle the packet socket and its ring work with, the link-layer type of an
    interface, and [pcap_setfilter]: the program is installed in the handle, rewritten for
    the kernel, and attached to the socket when the kernel can run it. What the system calls
    answer is an argument. The build has packet sockets, TPACKET_V3 and VLAN tags in
    auxiliary data. *)
From stdpp Require Import base numbers list.
From Stdlib Require Import Strings.Byte Strings.String.
From S2P Require Import Prelude BpfInsn BpfFilter LinkType Pcap Savefile GenConst GenState.
Open Scope Z_scope.

(** ** The handle *)

(** The packet the ring of TPACKET_V3 is at: the one with this number in the block, and how
    many are left in it. *)
Record block_position := mk_position { bp_current : option nat; bp_left : Z }.

(** [pcap_t] and, of its private data ([struct pcap_linux]), what the functions below use.
    [l_offset] and [l_cc] are [offset] and [cc] of the handle: the current frame and their
    number, when there is a ring. *)
Record linux_handle := mk_linux {
  l_p : pcap_t; l_offset : Z; l_cc : Z; l_direction : Z; l_msg : option string;
  packets_read : Z;
  filter_in_userland : bool; blocks_to_filter_in_userland : Z;
  l_timeout : Z; sock_packet : bool; cooked : bool; ifindex : Z; lo_ifindex : Z;
  vlan_offset : Z; tp_version : Z; tp_hdrlen : Z; l_block : block_position }.

Definition set_l_p (v : pcap_t) (h : linux_handle) : linux_handle :=
  mk_linux v (l_offset h) (l_cc h) (l_direction h) (l_msg h) (packets_read h) (filter_in_userland h)
    (blocks_to_filter_in_userland h) (l_timeout h) (sock_packet h) (cooked h) (ifindex h) (lo_ifindex h) (vlan_offset h)
    (tp_version h) (tp_hdrlen h) (l_block h).
Definition set_l_offset (v : Z) (h : linux_handle) : linux_handle :=
  mk_linux (l_p h) v (l_cc h) (l_direction h) (l_msg h) (packets_read h) (filter_in_userland h)
    (blocks_to_filter_in_userland h) (l_timeout h) (sock_packet h) (cooked h) (ifindex h) (lo_ifindex h) (vlan_offset h)
    (tp_version h) (tp_hdrlen h) (l_block h).
Definition set_l_direction (v : Z) (h : linux_handle) : linux_handle :=
  mk_linux (l_p h) (l_offset h) (l_cc h) v (l_msg h) (packets_read h) (filter_in_userland h)
    (blocks_to_filter_in_userland h) (l_timeout h) (sock_packet h) (cooked h) (ifindex h) (lo_ifindex h) (vlan_offset h)
    (tp_version h) (tp_hdrlen h) (l_block h).
Definition set_l_msg (v : string) (h : linux_handle) : linux_handle :=
  mk_linux (l_p h) (l_offset h) (l_cc h) (l_direction h) (Some v) (packets_read h) (filter_in_userland h)
    (blocks_to_filter_in_userland h) (l_timeout h) (sock_packet h) (cooked h) (ifindex h) (lo_ifindex h) (vlan_offset h)
    (tp_version h) (tp_hdrlen h) (l_block h).
Definition set_packets_read (v : Z) (h : linux_handle) : linux_handle :=
  mk_linux (l_p h) (l_offset h) (l_cc h) (l_direction h) (l_msg h) v (filter_in_userland h)
    (blocks_to_filter_in_userland h) (l_timeout h) (sock_packet h) (cooked h) (ifindex h) (lo_ifindex h) (vlan_offset h)
    (tp_version h) (tp_hdrlen h) (l_block h).
Definition set_userland (v : bool) (b : Z) (h : linux_handle) : linux_handle :=
  mk_linux (l_p h) (l_offset h) (l_cc h) (l_direction h) (l_msg h) (packets_read h) v b
    (l_timeout h) (sock_packet h) (cooked h) (ifindex h) (lo_ifindex h) (vlan_offset h)
    (tp_version h) (tp_hdrlen h) (l_block h).
Definition set_l_timeout (v : Z) (h : linux_handle) : linux_handle :=
  mk_linux (l_p h) (l_offset h) (l_cc h) (l_direction h) (l_msg h) (packets_read h) (filter_in_userland h)
    (blocks_to_filter_in_userland h) v (sock_packet h) (cooked h) (ifindex h) (lo_ifindex h) (vlan_offset h)
    (tp_version h) (tp_hdrlen h) (l_block h).
Definition set_l_block (v : block_position) (h : linux_handle) : linux_handle :=
  mk_linux (l_p h) (l_offset h) (l_cc h) (l_direction h) (l_msg h) (packets_read h) (filter_in_userland h)
    (blocks_to_filter_in_userland h) (l_timeout h) (sock_packet h) (cooked h) (ifindex h) (lo_ifindex h) (vlan_offset h)
    (tp_version h) (tp_hdrlen h) v.

(** ** Link-layer types *)

Definition DLT_EN3MB := 2.
Definition DLT_PRONET := 4.
Definition DLT_CHAOS := 5.
Definition DLT_FC_2 := 224.
Definition DLT_FC_2_WITH_FRAME_DELIMS := 225.

(** The ARPHRD_ values, of <linux/if_arp.h> or as the code defines them. *)
Definition ARPHRD_ETHER := 1.
Definition ARPHRD_EETHER := 2.
Definition ARPHRD_AX25 := 3.
Definition ARPHRD_PRONET := 4.
Definition ARPHRD_CHAOS := 5.
Definition ARPHRD_IEEE802 := 6.
Definition ARPHRD_ARCNET := 7.
Definition ARPHRD_DLCI := 15.
Definition ARPHRD_ATM := 19.
Definition ARPHRD_METRICOM := 23.
Definition ARPHRD_SLIP := 256.
Definition ARPHRD_CSLIP := 257.
Definition ARPHRD_SLIP6 := 258.
Definition ARPHRD_CSLIP6 := 259.
Definition ARPHRD_ADAPT := 264.
Definition ARPHRD_CAN := 280.
Definition ARPHRD_PPP := 512.
Definition ARPHRD_CISCO := 513.
Definition ARPHRD_RAWHDLC := 518.
Definition ARPHRD_TUNNEL := 768.
Definition ARPHRD_FRAD := 770.
Definition ARPHRD_LOOPBACK := 772.
Definition ARPHRD_LOCALTLK := 773.
Definition ARPHRD_FDDI := 774.
Definition ARPHRD_SIT := 776.
Definition ARPHRD_IRDA := 783.
Definition ARPHRD_FCPP := 784.
Definition ARPHRD_FCAL := 785.
Definition ARPHRD_FCPL := 786.
Definition ARPHRD_FCFABRIC := 787.
Definition ARPHRD_IEEE802_TR := 800.
Definition ARPHRD_IEEE80211 := 801.
Definition ARPHRD_IEEE80211_PRISM := 802.
Definition ARPHRD_IEEE80211_RADIOTAP := 803.
Definition ARPHRD_IEEE802154 := 804.
Definition ARPHRD_LAPD := 8445.
Definition ARPHRD_NONE := 0xFFFE.

(** What a type of interface comes to: the link-layer type (-1 for none), the offset when it
    is set, and the list of types when there is one. *)
Record arphrd_result := mk_arphrd { ar_linktype : Z; ar_offset : option Z; ar_dlt_list : option (list Z) }.
Definition just_dlt (dlt : Z) : option arphrd_result := Some (mk_arphrd dlt None None).

(** [map_arphrd_to_dlt]. [list_ok]: the list of two types can be allocated. [None]: a third
    type is stored behind the end of that list. *)
Definition map_arphrd_to_dlt (list_ok : bool) (arptype : Z) (cooked_ok : bool) : option arphrd_result :=
  if arptype =? ARPHRD_ETHER
  then Some (mk_arphrd DLT_EN10MB (Some 2) (if list_ok then Some [DLT_EN10MB; DLT_DOCSIS] else None))
  else if one_of arptype [ARPHRD_METRICOM; ARPHRD_LOOPBACK] then Some (mk_arphrd DLT_EN10MB (Some 2) None)
  else if arptype =? ARPHRD_EETHER then just_dlt DLT_EN3MB
  else if arptype =? ARPHRD_AX25 then just_dlt DLT_AX25_KISS
  else if arptype =? ARPHRD_PRONET then just_dlt DLT_PRONET
  else if arptype =? ARPHRD_CHAOS then just_dlt DLT_CHAOS
  else if arptype =? ARPHRD_CAN then just_dlt DLT_CAN_SOCKETCAN
  else if one_of arptype [ARPHRD_IEEE802_TR; ARPHRD_IEEE802] then Some (mk_arphrd DLT_IEEE802 (Some 2) None)
  else if arptype =? ARPHRD_ARCNET then just_dlt DLT_ARCNET_LINUX
  else if arptype =? ARPHRD_FDDI then Some (mk_arphrd DLT_FDDI (Some 3) None)
  else if arptype =? ARPHRD_ATM then just_dlt (if cooked_ok then DLT_LINUX_SLL else -1)
  else if arptype =? ARPHRD_IEEE80211 then just_dlt DLT_IEEE802_11
  else if arptype =? ARPHRD_IEEE80211_PRISM then just_dlt DLT_PRISM_HEADER
  else if arptype =? ARPHRD_IEEE80211_RADIOTAP then just_dlt DLT_IEEE802_11_RADIO
  else if arptype =? ARPHRD_PPP then just_dlt (if cooked_ok then DLT_LINUX_SLL else DLT_RAW)
  else if arptype =? ARPHRD_CISCO then just_dlt DLT_C_HDLC
  else if one_of arptype [ARPHRD_TUNNEL; ARPHRD_SIT; ARPHRD_CSLIP; ARPHRD_SLIP6; ARPHRD_CSLIP6; ARPHRD_ADAPT;
                          ARPHRD_SLIP; ARPHRD_RAWHDLC; ARPHRD_DLCI] then just_dlt DLT_RAW
  else if arptype =? ARPHRD_FRAD then just_dlt DLT_FRELAY
  else if arptype =? ARPHRD_LOCALTLK then just_dlt DLT_LTALK
  else if arptype =? 18 then just_dlt DLT_IP_OVER_FC
  else if one_of arptype [ARPHRD_FCPP; ARPHRD_FCAL; ARPHRD_FCPL; ARPHRD_FCFABRIC]
  then if list_ok then None else just_dlt DLT_FC_2
  else if arptype =? ARPHRD_IRDA then just_dlt DLT_LINUX_IRDA
  else if arptype =? ARPHRD_LAPD then just_dlt DLT_LINUX_LAPD
  else if arptype =? ARPHRD_NONE then just_dlt DLT_RAW
  else if arptype =? ARPHRD_IEEE802154 then just_dlt DLT_IEEE802_15_4_NOFCS
  else just_dlt (-1).

(** ** Programs for the kernel *)

Definition SLL_HDR_LEN := 16.
(** Of <linux/filter.h>: fields of a packet that are not in it. *)
Definition SKF_AD_OFF := -0x1000.
Definition SKF_AD_PROTOCOL := 0.
Definition SKF_AD_PKTTYPE := 4.

Definition set_k (k : Z) (i : bpf_insn) : bpf_insn := mk_insn (i_code i) (i_jt i) (i_jf i) k.

(** [fix_offset(p)]: [None] for -1. *)
Definition fix_offset (p : bpf_insn) : option bpf_insn :=
  if SLL_HDR_LEN <=? i_k p then Some (set_k (i_k p - SLL_HDR_LEN) p)
  else if i_k p =? 0 then Some (set_k (u32 (SKF_AD_OFF + SKF_AD_PKTTYPE)) p)
  else if i_k p =? 14 then Some (set_k (u32 (SKF_AD_OFF + SKF_AD_PROTOCOL)) p)
  else if 0 <? s32 (i_k p) then None
  else Some p.

(** One round of the loop of [fix_program]. *)
Definition fix_insn (cooked is_mmapped : bool) (p : bpf_insn) : option bpf_insn :=
  let class := BPF_CLASS (i_code p) in
  let mode := BPF_MODE (i_code p) in
  if class =? BPF_RET then
    if negb is_mmapped && (mode =? BPF_K) && negb (i_k p =? 0) then Some (set_k 65535 p) else Some p
  else if one_of class [BPF_LD; BPF_LDX] then
    if one_of mode [BPF_ABS; BPF_IND; BPF_MSH] && cooked then fix_offset p else Some p
  else Some p.

Fixpoint fix_insns (cooked is_mmapped : bool) (f : list bpf_insn) : option (list bpf_insn) :=
  match f with
  | [] => Some []
  | p :: f => p ← fix_insn cooked is_mmapped p; f ← fix_insns cooked is_mmapped f; Some (p :: f)
  end.

(** What [fix_program] returns: -1, 0, or 1 with the program. *)
Inductive fixed := FixError | FixPunt | FixOk (f : list bpf_insn).
Definition fix_program (malloc_ok cooked is_mmapped : bool) (fcode : list bpf_insn) : fixed :=
  if negb malloc_ok then FixError
  else match fix_insns cooked is_mmapped fcode with Some f => FixOk f | None => FixPunt end.

(** ** The filter of the socket *)

(** What the system calls of [set_kernel_filter] answer. [ks_drained]: the last [recv] failed
    with EAGAIN. *)
Record kernel_answers := mk_kernel_answers {
  ks_total : bool; ks_nonblocking : bool; ks_drained : bool; ks_attach : bool; ks_detach : bool }.

Definition total_insn : bpf_insn := mk_insn (BPF_RET ||| BPF_K) 0 0 0.

(** [reset_kernel_filter]: the program on the socket, [None] for none. *)
Definition reset_kernel_filter (ks : kernel_answers) (k : option (list bpf_insn)) : option (list bpf_insn) :=
  if ks_detach ks then None else k.

(** [set_kernel_filter]: 0, -1 or -2, and the program on the socket. *)
Definition set_kernel_filter (ks : kernel_answers) (fcode : list bpf_insn) (k : option (list bpf_insn))
    : Z * option (list bpf_insn) :=
  let k := if ks_total ks then Some [total_insn] else k in
  if ks_total ks && ks_nonblocking ks && negb (ks_drained ks) then (-2, reset_kernel_filter ks k)
  else if ks_attach ks then (0, Some fcode)
  else (-1, if ks_total ks then reset_kernel_filter ks k else k).

(** [pcap_setfilter_linux_common(handle, filter, is_mmapped)]: the status, the handle and the
    program on the socket. *)
Definition pcap_setfilter_linux_common `{Alloc} (malloc_ok : bool) (ks : kernel_answers) (h : linux_handle)
    (filter : option (list bpf_insn)) (is_mmapped : bool) (k : option (list bpf_insn))
    : Z * linux_handle * option (list bpf_insn) :=
  match filter with
  | None => (-1, set_l_msg "setfilter: No filter specified" h, k)
  | Some filter =>
      let '(st, p) := install_bpf_program (l_p h) filter in
      let h := set_l_p p h in
      if st <? 0 then (-1, h, k)
      else
        let h := set_userland true (blocks_to_filter_in_userland h) h in
        let fcode := default [] (p_fcode (l_p h)) in
        let punt := (0, h, reset_kernel_filter ks k) in
        if 65535 <? Z.of_nat (List.length fcode) then punt
        else
          match fix_program malloc_ok (cooked h) is_mmapped fcode with
          | FixError => (-1, set_l_msg "malloc: %s" h, k)
          | FixPunt => punt
          | FixOk f =>
              let '(err, k) := set_kernel_filter ks f k in
              if err =? 0 then (0, set_userland false (blocks_to_filter_in_userland h) h, k)
              else if err =? -2 then (-1, set_l_msg "recv: %s" h, reset_kernel_filter ks k)
              else (0, h, reset_kernel_filter ks k)
          end
  end.

(** [pcap_setfilter_linux] *)
Definition pcap_setfilter_linux `{Alloc} (malloc_ok : bool) (ks : kernel_answers) (h : linux_handle)
    (filter : option (list bpf_insn)) (k : option (list bpf_insn)) : Z * linux_handle * option (list bpf_insn) :=
  pcap_setfilter_linux_common malloc_ok ks h filter false k.

(** [pcap_setdirection_linux], [pcap_set_datalink_linux] *)
Definition pcap_setdirection_linux (h : linux_handle) (d : Z) : Z * linux_handle :=
  if negb (sock_packet h) then (0, set_l_direction d h)
  else (-1, set_l_msg "Setting direction is not supported on SOCK_PACKET sockets" h).
Definition pcap_set_datalink_linux (h : linux_handle) (dlt : Z) : Z * linux_handle :=
  (0, set_l_p (set_p_linktype dlt (l_p h)) h).
