(* ===== verification/LinuxRing.v ===== *)
(** * Linux: reading packets from the socket and from the ring (pcap-linux.c)

    The frames the kernel shares with the library, the waiting for one, the handling of a
    packet in a frame, the three reading functions ([pcap_read_linux_mmap_v1], [_v2], [_v3])
    and [pcap_setfilter_linux_mmap]; and [pcap_read_packet], without a ring.

    The kernel is an argument: [kernel t] is what it does to the ring before the code looks
    at it for the [t]-th time, [poll t] what a [poll] at that time answers. *)
From stdpp Require Import base numbers list.
From Stdlib Require Import Strings.Byte Strings.String.
From S2P Require Import Prelude BpfInsn BpfFilter LinkType Pcap Savefile GenState LinuxFilter.
Open Scope Z_scope.

(** ** Frames *)

(** [struct sockaddr_ll]; [sll_protocol] is in network byte order. *)
Record sockaddr_ll := mk_sll {
  sll_ifindex : Z; sll_pkttype : Z; sll_hatype : Z; sll_halen : Z; sll_addr : list byte; sll_protocol : Z }.

(** A frame: the header of TPACKET_V1, V2 or of a packet of V3, the address after it, and the
    bytes of the whole frame, in which [tp_mac] is an offset. [tp_frac] is [tp_usec] (V1) or
    [tp_nsec]. *)
Record frame := mk_frame {
  tp_status : Z; tp_len : Z; tp_mac : Z; tp_snaplen : Z; tp_sec : Z; tp_frac : Z; tp_vlan_tci : Z;
  tp_sll : sockaddr_ll; tp_bytes : list byte }.
Definition set_tp_status (v : Z) (f : frame) : frame :=
  mk_frame v (tp_len f) (tp_mac f) (tp_snaplen f) (tp_sec f) (tp_frac f) (tp_vlan_tci f) (tp_sll f) (tp_bytes f).
Definition set_tp_bytes (v : list byte) (f : frame) : frame :=
  mk_frame (tp_status f) (tp_len f) (tp_mac f) (tp_snaplen f) (tp_sec f) (tp_frac f) (tp_vlan_tci f) (tp_sll f) v.

(** A block of TPACKET_V3: [b_packets] are the headers one reaches from
    [offset_to_first_pkt] by [tp_next_offset]; [b_num_pkts] is how many the kernel says. *)
Record block3 := mk_block { b_status : Z; b_num_pkts : Z; b_packets : list frame }.
Definition set_b_status (v : Z) (b : block3) : block3 := mk_block v (b_num_pkts b) (b_packets b).
Definition set_b_packets (v : list frame) (b : block3) : block3 := mk_block (b_status b) (b_num_pkts b) v.

Definition TP_STATUS_KERNEL := 0.
Definition TP_STATUS_USER := 1.
Definition TP_STATUS_VLAN_VALID := 16.
Definition TPACKET_V1 := 0.
Definition TPACKET_V2 := 1.
Definition TPACKET_V3 := 2.
Definition TPACKET_ALIGN (x : Z) : Z := Z.land (x + 15) (-16).
Definition sizeof_sockaddr_ll := 20.
Definition SLL_ADDRLEN := 8.
Definition VLAN_TAG_LEN := 4.
Definition ETH_P_8021Q := 0x8100.
Definition PACKET_HOST := 0.
Definition PACKET_BROADCAST := 1.
Definition PACKET_MULTICAST := 2.
Definition PACKET_OTHERHOST := 3.
Definition PACKET_OUTGOING := 4.
Definition PCAP_D_INOUT := 0.
Definition PCAP_D_IN := 1.
Definition PCAP_D_OUT := 2.

(** The bytes of a 16-bit number in network order. *)
Definition htons_bytes (z : Z) : list byte := rev (le_bytes 2 z).

(** [n] bytes at [i], and [bs] written there: [None] outside the block. *)
Definition peek (b : list byte) (i n : Z) : option (list byte) :=
  if (0 <=? i) && (0 <=? n) && (i + n <=? Z.of_nat (List.length b))
  then Some (take (Z.to_nat n) (drop (Z.to_nat i) b)) else None.
Definition poke (b : list byte) (i : Z) (bs : list byte) : option (list byte) :=
  if (0 <=? i) && (i + Z.of_nat (List.length bs) <=? Z.of_nat (List.length b))
  then Some (take (Z.to_nat i) b ++ bs ++ drop (Z.to_nat i + List.length bs) b) else None.

(** ** What a packet needs before it is handed on *)

(** [linux_check_direction] *)
Definition linux_check_direction (h : linux_handle) (sll : sockaddr_ll) : bool :=
  if sll_pkttype sll =? PACKET_OUTGOING then
    if sll_ifindex sll =? lo_ifindex h then false
    else negb (l_direction h =? PCAP_D_IN)
  else negb (l_direction h =? PCAP_D_OUT).

(** [map_packet_type_to_sll_type], in network byte order. *)
Definition map_packet_type_to_sll_type (pkttype : Z) : list byte :=
  if pkttype =? PACKET_HOST then htons_bytes 0
  else if pkttype =? PACKET_BROADCAST then htons_bytes 1
  else if pkttype =? PACKET_MULTICAST then htons_bytes 2
  else if pkttype =? PACKET_OTHERHOST then htons_bytes 3
  else if pkttype =? PACKET_OUTGOING then htons_bytes 4
  else htons_bytes (-1).

(** The [struct sll_header] of a packet, [addr] the eight bytes of its address. *)
Definition sll_header (sll : sockaddr_ll) (addr : list byte) : list byte :=
  map_packet_type_to_sll_type (sll_pkttype sll) ++ htons_bytes (sll_hatype sll) ++ htons_bytes (sll_halen sll)
    ++ addr ++ htons_bytes (sll_protocol sll).

(** The tag inserted in the frame [b] at [vlan_offset] of the packet at [bp]; the bytes before
    it move back. *)
Definition insert_vlan_tag (b : list byte) (bp vlan_offset tci : Z) : option (list byte * Z) :=
  let bp := bp - VLAN_TAG_LEN in
  front ← peek b (bp + VLAN_TAG_LEN) vlan_offset;
  b ← poke b bp front;
  b ← poke b (bp + vlan_offset) (htons_bytes ETH_P_8021Q ++ htons_bytes tci);
  Some (b, bp).

(** A packet of a frame as the callback gets it, once the filter and the direction have
    passed: [PkBad] is the -1 for a frame without room for the header of cooked mode, [None]
    an access outside the frame. [PkOk] also has the bytes of the frame. *)
Inductive made_packet := PkBad | PkOk (hdr : pcap_pkthdr) (d : list byte) (b : list byte).
Definition build_sll_header (h : linux_handle) (f : frame) : option (option (list byte * Z)) :=
  let bp := tp_mac f - SLL_HDR_LEN in
  if bp <? TPACKET_ALIGN (tp_hdrlen h) + sizeof_sockaddr_ll then Some None
  else b ← poke (tp_bytes f) bp (sll_header (tp_sll f) (sll_addr (tp_sll f))); Some (Some (b, bp)).
Definition make_packet (h : linux_handle) (f : frame) (tp_usec : Z) (tp_vlan_tci_valid : bool) : option made_packet :=
  st ← (if cooked h then build_sll_header h f else Some (Some (tp_bytes f, tp_mac f)));
  match st with
  | None => Some PkBad
  | Some (b, bp) =>
      let more := if cooked h then SLL_HDR_LEN else 0 in
      let caplen := u32 (tp_snaplen f + more) in
      let len := u32 (tp_len f + more) in
      let tagged := tp_vlan_tci_valid && negb (vlan_offset h =? -1) && (u32 (vlan_offset h) <=? tp_snaplen f) in
      t ← (if tagged then insert_vlan_tag b bp (vlan_offset h) (tp_vlan_tci f) else Some (b, bp));
      let '(b, bp) := t : list byte * Z in
      let more := if tagged then VLAN_TAG_LEN else 0 in
      let caplen := u32 (caplen + more) in
      let len := u32 (len + more) in
      let caplen := if u32 (p_snapshot (l_p h)) <? caplen then u32 (p_snapshot (l_p h)) else caplen in
      d ← peek b bp caplen;
      Some (PkOk (mk_pkthdr (tp_sec f) tp_usec caplen len) d b)
  end.

(** ** Waiting *)

(** What [poll] answers; in [PollEvents], whether there is a hang-up, an error (with what the
    [recv] that follows says: [None] for no error, else whether it is ENETDOWN) and an invalid
    request. *)
Inductive poll_answer :=
| PollEintr | PollError | PollTimeout
| PollEvents (hup : bool) (err : option (option bool)) (nval : bool).

Definition set_l_break (v : bool) (h : linux_handle) : linux_handle := set_l_p (set_p_break_loop v (l_p h)) h.

(** [pcap_getnonblock_mmap], [pcap_setnonblock_mmap] *)
Definition pcap_getnonblock_mmap (h : linux_handle) : bool := l_timeout h <? 0.
Definition pcap_setnonblock_mmap (h : linux_handle) (nonblock : bool) : Z * linux_handle :=
  (0, if nonblock then (if 0 <=? l_timeout h then set_l_timeout (Z.lnot (l_timeout h)) h else h)
      else (if l_timeout h <? 0 then set_l_timeout (Z.lnot (l_timeout h)) h else h)).

(** The timeout [poll] gets, in milliseconds: -1 for ever, 0 not at all. *)
Definition poll_timeout (h : linux_handle) : Z :=
  if l_timeout h =? 0 then (if tp_version h =? TPACKET_V3 then 1 else -1)
  else if 0 <? l_timeout h then l_timeout h
  else 0.

(** What one round of the loop of [pcap_wait_for_frames_mmap] does with an answer: an error
    message; the end of the loop without a look at [break_loop]; or a look at it and, when the
    call was interrupted, another round. *)
Inductive poll_step := PollFails (msg : string) | PollContinue | PollLook (again : bool).
Definition poll_round (a : poll_answer) : poll_step :=
  match a with
  | PollError => PollFails "can't poll on packet socket: %s"
  | PollEintr => PollLook true
  | PollTimeout => PollLook false
  | PollEvents hup err nval =>
      if hup then PollFails "Hangup on packet socket"
      else match err with
           | Some None => PollContinue
           | Some (Some true) => PollFails "The interface went down"
           | Some (Some false) => PollFails "Error condition on packet socket: %s"
           | None => if nval then PollFails "Invalid polling request on packet socket" else PollLook false
           end
  end.

(** The loop: [poll t timeout] is the answer, and whether [pcap_breakloop] has been called
    (by a signal handler) when it comes. [None]: still waiting after [fuel] interrupted calls. *)
Fixpoint poll_loop (poll : nat -> Z -> poll_answer * bool) (fuel t : nat) (h : linux_handle)
    : option (Z * linux_handle * nat) :=
  match fuel with
  | O => None
  | S fuel =>
      let '(a, brk) := poll t (poll_timeout h) in
      let h := if brk then set_l_break true h else h in
      match poll_round a with
      | PollFails msg => Some (PCAP_ERROR, set_l_msg msg h, S t)
      | PollContinue => Some (0, h, S t)
      | PollLook again =>
          if p_break_loop (l_p h) then Some (PCAP_ERROR_BREAK, set_l_break false h, S t)
          else if again then poll_loop poll fuel (S t) h
          else Some (0, h, S t)
      end
  end.

(** ** The ring *)

(** The frames, or the blocks of TPACKET_V3, and where the kernel puts the next one. The code
    reads and writes the blocks; the position is the kernel's own. *)
Record ring (A : Type) := mk_ring { rg_blocks : list A; rg_next : nat }.
Arguments mk_ring {A}. Arguments rg_blocks {A}. Arguments rg_next {A}.
Definition get_block {A} (rg : ring A) (i : Z) : option A := at_Z (rg_blocks rg) i.
Definition put_block {A} (rg : ring A) (i : Z) (f : A) : ring A :=
  mk_ring (<[Z.to_nat i := f]> (rg_blocks rg)) (rg_next rg).

(** The status in a frame or a block, as [pcap_get_ring_frame] compares it. *)
Definition status_of (tp_status : Z) : Z := if tp_status =? 0 then TP_STATUS_KERNEL else TP_STATUS_USER.

(** [pcap_wait_for_frames_mmap]: at once when the current block is ready. [None]: no answer
    within the fuel (or a position outside the ring). *)
Definition pcap_wait_for_frames_mmap {A} (kernel : nat -> ring A -> ring A) (poll : nat -> Z -> poll_answer * bool)
    (status : A -> Z) (fuel t : nat) (h : linux_handle) (rg : ring A) : option (Z * linux_handle * ring A * nat) :=
  let rg := kernel t rg in
  f ← get_block rg (l_offset h);
  if status_of (status f) =? TP_STATUS_USER then Some (0, h, rg, S t)
  else '(ret, h, t) ← poll_loop poll fuel (S t) h; Some (ret, h, rg, t).

(** ** Handling a packet *)

(** What handling a packet comes to: the status, the handle, the callback's state and the
    bytes of the frame; an access outside the frame; a filter that does not return. *)
Inductive handled (U : Type) :=
| Handled (ret : Z) (h : linux_handle) (u : U) (b : list byte)
| HandledOutside
| HandledFilter (o : outcome).
Arguments Handled {U}. Arguments HandledOutside {U}. Arguments HandledFilter {U}.

(** A call that reads: the status, the handle, the ring, the callback's state and how often
    the code has looked; or one of the above; or [RingWaiting], not done after the fuel. *)
Inductive ring_result (A U : Type) :=
| RingRet (ret : Z) (h : linux_handle) (rg : ring A) (u : U) (t : nat)
| RingOutside
| RingFilter (o : outcome)
| RingWaiting.
Arguments RingRet {A U}. Arguments RingOutside {A U}. Arguments RingFilter {A U}. Arguments RingWaiting {A U}.

Definition PACKET_COUNT_IS_UNLIMITED (count : Z) : bool := count <=? 0.

(** A frame or block handed back: the count of those to be filtered in userland, and the next
    position. *)
Definition count_block (h : linux_handle) : linux_handle :=
  if 0 <? blocks_to_filter_in_userland h then
    let b := blocks_to_filter_in_userland h - 1 in
    set_userland (if b =? 0 then false else filter_in_userland h) b h
  else h.
Definition next_block (h : linux_handle) : linux_handle :=
  let o := l_offset h + 1 in set_l_offset (if l_cc h <=? o then 0 else o) h.

(** The blocks of the ring [pcap_setfilter_linux_mmap] finds free, walking back from
    [offset]; the position wraps below 0. *)
Definition walk_back (cc offset : Z) : Z := if offset - 1 <? 0 then cc - 1 else offset - 1.
Fixpoint count_free (status : Z -> Z) (cc : Z) (fuel : nat) (offset n : Z) : Z :=
  match fuel with
  | O => n
  | S fuel =>
      let offset := walk_back cc offset in
      if status offset =? TP_STATUS_KERNEL then count_free status cc fuel offset (n + 1) else n
  end.

(** [pcap_setfilter_linux_mmap], [status] what the blocks of the ring say. *)
Definition pcap_setfilter_linux_mmap `{Alloc} (malloc_ok : bool) (ks : kernel_answers) (status : Z -> Z)
    (h : linux_handle) (filter : option (list bpf_insn)) (k : option (list bpf_insn))
    : Z * linux_handle * option (list bpf_insn) :=
  let '(ret, h, k) := pcap_setfilter_linux_common malloc_ok ks h filter true k in
  if ret <? 0 then (ret, h, k)
  else if filter_in_userland h then (ret, h, k)
  else
    let n := count_free status (l_cc h) (Z.to_nat (l_cc h)) (walk_back (l_cc h) (l_offset h)) 0 in
    let n := if negb (n =? 0) then n - 1 else n in
    (ret, set_userland true (l_cc h - n) h, k).

Section Read.
Context (filter_fuel : nat) (mem : list Z).
Context {U : Type} (callback : U -> pcap_pkthdr -> list byte -> U * bool).

(** The program in userland, on the packet in a frame: [inr true] to go on. *)
Definition userland_accepts (h : linux_handle) (d : list byte) (wirelen caplen : Z) : sum outcome bool :=
  if filter_in_userland h
  then accepts filter_fuel mem (l_p h) (mk_pkthdr 0 0 caplen wirelen) d
  else inr true.

(** [pcap_handle_packet_mmap]; [tp_usec] and [tp_vlan_tci_valid] are what the callers take
    from the header of the frame. *)
Definition pcap_handle_packet_mmap (h : linux_handle) (u : U) (f : frame) (tp_usec : Z) (tp_vlan_tci_valid : bool)
    : handled U :=
  if u32 (p_bufsize (l_p h)) <? u32 (tp_mac f + tp_snaplen f)
  then Handled (-1) (set_l_msg "corrupted frame on kernel ring mac offset %d + caplen %d > frame len %d" h) u (tp_bytes f)
  else
    match userland_accepts h (drop (Z.to_nat (tp_mac f)) (tp_bytes f)) (tp_len f) (tp_snaplen f) with
    | inl o => HandledFilter o
    | inr false => Handled 0 h u (tp_bytes f)
    | inr true =>
        if negb (linux_check_direction h (tp_sll f)) then Handled 0 h u (tp_bytes f)
        else
          match make_packet h f tp_usec tp_vlan_tci_valid with
          | None => HandledOutside
          | Some PkBad => Handled (-1) (set_l_msg "cooked-mode frame doesn't have room for sll header" h) u (tp_bytes f)
          | Some (PkOk hdr d b) =>
              let (u, brk) := callback u hdr d in
              Handled 1 (if (brk : bool) then set_l_break true h else h) u b
          end
    end.

(** What the versions take from the header of a frame. *)
Definition tp_usec_of (h : linux_handle) (f : frame) : Z :=
  if opt_tstamp_precision (p_opt (l_p h)) =? PCAP_TSTAMP_PRECISION_NANO then tp_frac f else tp_frac f / 1000.
Definition vlan_tci_valid (f : frame) : bool :=
  negb (tp_vlan_tci f =? 0) || negb (Z.land (tp_status f) TP_STATUS_VLAN_VALID =? 0).
Definition handle_v1 (h : linux_handle) (u : U) (f : frame) : handled U :=
  pcap_handle_packet_mmap h u f (tp_frac f) false.
Definition handle_v2 (h : linux_handle) (u : U) (f : frame) : handled U :=
  pcap_handle_packet_mmap h u f (tp_usec_of h f) (vlan_tci_valid f).

(** ** Frames one by one: versions 1 and 2 *)

Section Frames.
Context (kernel : nat -> ring frame -> ring frame) (poll : nat -> Z -> poll_answer * bool).
Context (handle : linux_handle -> U -> frame -> handled U).

(** The loop over the frames. *)
Fixpoint frames_loop (fuel t : nat) (max_packets pkts : Z) (h : linux_handle) (rg : ring frame) (u : U) : ring_result frame U :=
  match fuel with
  | O => RingWaiting
  | S fuel =>
      if (pkts <? max_packets) || PACKET_COUNT_IS_UNLIMITED max_packets then
        let rg := kernel t rg in
        match get_block rg (l_offset h) with
        | None => RingOutside
        | Some f =>
            if negb (status_of (tp_status f) =? TP_STATUS_USER) then RingRet pkts h rg u (S t)
            else
              match handle h u f with
              | HandledOutside => RingOutside
              | HandledFilter o => RingFilter o
              | Handled ret h u b =>
                  if ret <? 0 then RingRet ret h (put_block rg (l_offset h) (set_tp_bytes b f)) u (S t)
                  else
                    let pkts := if ret =? 1 then s32 (pkts + 1) else pkts in
                    let h := if ret =? 1 then set_packets_read (u32 (packets_read h + 1)) h else h in
                    let rg := put_block rg (l_offset h) (set_tp_status TP_STATUS_KERNEL (set_tp_bytes b f)) in
                    let h := next_block (count_block h) in
                    if p_break_loop (l_p h) then RingRet PCAP_ERROR_BREAK (set_l_break false h) rg u (S t)
                    else frames_loop fuel (S t) max_packets pkts h rg u
              end
        end
      else RingRet pkts h rg u t
  end.

Definition read_frames (fuel t : nat) (max_packets : Z) (h : linux_handle) (rg : ring frame) (u : U)
    : ring_result frame U :=
  match pcap_wait_for_frames_mmap kernel poll tp_status fuel t h rg with
  | None => RingWaiting
  | Some (ret, h, rg, t) =>
      if negb (ret =? 0) then RingRet ret h rg u t else frames_loop fuel t max_packets 0 h rg u
  end.
End Frames.

(** [pcap_read_linux_mmap_v1], [pcap_read_linux_mmap_v2] *)
Definition pcap_read_linux_mmap_v1 (kernel : nat -> ring frame -> ring frame) (poll : nat -> Z -> poll_answer * bool)
    (fuel t : nat) (h : linux_handle) (max_packets : Z) (rg : ring frame) (u : U) : ring_result frame U :=
  read_frames kernel poll handle_v1 fuel t max_packets h rg u.
Definition pcap_read_linux_mmap_v2 (kernel : nat -> ring frame -> ring frame) (poll : nat -> Z -> poll_answer * bool)
    (fuel t : nat) (h : linux_handle) (max_packets : Z) (rg : ring frame) (u : U) : ring_result frame U :=
  read_frames kernel poll handle_v2 fuel t max_packets h rg u.

(** ** Blocks of packets: version 3 *)

(** One packet of the block [b], the one the handle is at. After it the handle is at the next
    one; at none after an error. [inr]: the packet as it is now, and the count. *)
Definition step_v3 (h : linux_handle) (b : block3) (u : U) (pkts : Z)
    : ring_result block3 U + (Z * linux_handle * block3 * U * Z) :=
  match bp_current (l_block h) with
  | None => inl RingOutside
  | Some i =>
      match b_packets b !! i with
      | None => inl RingOutside
      | Some f =>
          match handle_v2 h u f with
          | HandledOutside => inl RingOutside
          | HandledFilter o => inl (RingFilter o)
          | Handled ret h u d =>
              let b := set_b_packets (<[i := set_tp_bytes d f]> (b_packets b)) b in
              if ret <? 0 then inr (ret, set_l_block (mk_position None (bp_left (l_block h))) h, b, u, pkts)
              else
                let pkts := if ret =? 1 then s32 (pkts + 1) else pkts in
                let h := if ret =? 1 then set_packets_read (u32 (packets_read h + 1)) h else h in
                inr (0, set_l_block (mk_position (Some (S i)) (bp_left (l_block h) - 1)) h, b, u, pkts)
          end
      end
  end.

(** [while (packets_to_read--)] *)
Fixpoint packets_v3 (n : nat) (h : linux_handle) (b : block3) (u : U) (pkts : Z)
    : ring_result block3 U + (Z * linux_handle * block3 * U * Z) :=
  match n with
  | O => inr (0, h, b, u, pkts)
  | S n =>
      match step_v3 h b u pkts with
      | inl r => inl r
      | inr (ret, h, b, u, pkts) => if ret <? 0 then inr (ret, h, b, u, pkts) else packets_v3 n h b u pkts
      end
  end.

Section Blocks.
Context (kernel : nat -> ring block3 -> ring block3) (poll : nat -> Z -> poll_answer * bool).

(** Entering the block at [offset]. *)
Definition enter_block (h : linux_handle) (b : block3) : linux_handle :=
  set_l_block (mk_position (Some 0%nat) (s32 (b_num_pkts b))) h.

(** The outer loop. A negative count of packets runs out of the block. *)
Fixpoint blocks_loop (fuel t : nat) (max_packets pkts : Z) (h : linux_handle) (rg : ring block3) (u : U)
    : ring_result block3 U :=
  match fuel with
  | O => RingWaiting
  | S fuel =>
      if negb ((pkts <? max_packets) || PACKET_COUNT_IS_UNLIMITED max_packets) then RingRet pkts h rg u t
      else
        let fresh := match bp_current (l_block h) with None => true | Some _ => false end in
        let rg := if fresh then kernel t rg else rg in
        match get_block rg (l_offset h) with
        | None => RingOutside
        | Some b =>
            if fresh && negb (status_of (b_status b) =? TP_STATUS_USER) then RingRet pkts h rg u (S t)
            else
              let h := if fresh then enter_block h b else h in
              let left := bp_left (l_block h) in
              let packets_to_read :=
                if negb (PACKET_COUNT_IS_UNLIMITED max_packets) && (max_packets <? left) then max_packets else left in
              if packets_to_read <? 0 then RingOutside
              else
                match packets_v3 (Z.to_nat packets_to_read) h b u pkts with
                | inl r => r
                | inr (ret, h, b, u, pkts) =>
                    if ret <? 0 then RingRet ret h (put_block rg (l_offset h) b) u (S t)
                    else
                      let done := bp_left (l_block h) <=? 0 in
                      let b := if done then set_b_status TP_STATUS_KERNEL b else b in
                      let rg := put_block rg (l_offset h) b in
                      let h := if done
                               then set_l_block (mk_position None (bp_left (l_block h))) (next_block (count_block h))
                               else h in
                      if p_break_loop (l_p h) then RingRet PCAP_ERROR_BREAK (set_l_break false h) rg u (S t)
                      else blocks_loop fuel (S t) max_packets pkts h rg u
                end
        end
  end.

(** [pcap_read_linux_mmap_v3] *)
Definition pcap_read_linux_mmap_v3 (fuel t : nat) (h : linux_handle) (max_packets : Z) (rg : ring block3) (u : U)
    : ring_result block3 U :=
  let waited :=
    match bp_current (l_block h) with
    | None => pcap_wait_for_frames_mmap kernel poll b_status fuel t h rg
    | Some _ => Some (0, h, rg, t)
    end in
  match waited with
  | None => RingWaiting
  | Some (ret, h, rg, t) =>
      if negb (ret =? 0) then RingRet ret h rg u t
      else
        let rg := kernel t rg in
        match get_block rg (l_offset h) with
        | None => RingOutside
        | Some b =>
            if negb (status_of (b_status b) =? TP_STATUS_USER) then RingRet 0 h rg u (S t)
            else blocks_loop fuel (S t) max_packets 0 h rg u
        end
  end.
End Blocks.

(** ** One packet from the socket *)

(** The answers to [recvmsg]: EINTR, during which a signal handler may call [pcap_breakloop];
    an error; or a packet, with the sender, the length it has without truncation, and the
    auxiliary data of the right type and size, each [tp_vlan_tci] and [tp_status]. *)
Record message := mk_message {
  m_from : sockaddr_ll; m_data : list byte; m_len : Z; m_aux : list (Z * Z) }.
Inductive recv_answer := RecvEintr (brk : bool) | RecvEagain | RecvEnetdown | RecvError | RecvMsg (m : message).

(** The loop around [recvmsg]: [inl] the return when [break_loop] is set. *)
Fixpoint recv_loop (recvs : list recv_answer) (h : linux_handle) : option (linux_handle + linux_handle * recv_answer) :=
  if p_break_loop (l_p h) then Some (inl (set_l_break false h))
  else match recvs with
       | [] => None
       | RecvEintr brk :: recvs => recv_loop recvs (if brk then set_l_break true h else h)
       | a :: _ => Some (inr (h, a))
       end.

(** The header of cooked mode, in the buffer [b] at [bp]: of a short address the rest of the
    field is left as it was. *)
Definition fill_sll_header (b : list byte) (bp : Z) (from : sockaddr_ll) : option (list byte) :=
  old ← peek b (bp + 6) SLL_ADDRLEN;
  let n := Z.to_nat (if SLL_ADDRLEN <? sll_halen from then SLL_ADDRLEN else sll_halen from) in
  poke b bp (sll_header from (take n (sll_addr from) ++ drop n old)).

(** The loop over the auxiliary data: the buffer, where the packet starts, and its length. *)
Fixpoint aux_loop (h : linux_handle) (iov_len : Z) (aux : list (Z * Z)) (b : list byte) (bp packet_len : Z)
    : option (list byte * Z * Z) :=
  match aux with
  | [] => Some (b, bp, packet_len)
  | (tci, status) :: aux =>
      if (tci =? 0) && (Z.land status TP_STATUS_VLAN_VALID =? 0) then aux_loop h iov_len aux b bp packet_len
      else
        let len := if iov_len <? packet_len then iov_len else packet_len in
        if u32 len <? u32 (vlan_offset h) then Some (b, bp, packet_len)
        else '(b, bp) ← insert_vlan_tag b bp (vlan_offset h) tci;
             aux_loop h iov_len aux b bp (packet_len + VLAN_TAG_LEN)
  end.

(** Where [recvmsg] stores, and how much; the buffer once it has. *)
Definition iov_offset (h : linux_handle) : Z := if cooked h then SLL_HDR_LEN else 0.
Definition iov_len (h : linux_handle) : Z := p_bufsize (l_p h) - iov_offset h.
Definition recv_into (h : linux_handle) (m : message) : option (list byte) :=
  poke (p_buffer (l_p h)) (l_offset h + iov_offset h) (take (Z.to_nat (iov_len h)) (m_data m)).

(** The packet of a message made in the buffer: the buffer, where the packet starts, and its
    length; [None] for an access outside the buffer. *)
Definition receive (h : linux_handle) (m : message) (b : list byte) : option (list byte * Z * Z) :=
  let bp := l_offset h in
  b ← (if cooked h then fill_sll_header b bp (m_from m) else Some b);
  let packet_len := if cooked h then m_len m + SLL_HDR_LEN else m_len m in
  if negb (vlan_offset h =? -1) then aux_loop h (iov_len h) (m_aux m) b bp packet_len
  else Some (b, bp, packet_len).

(** The end of [pcap_read_packet]: the filter, the time stamp ([None]: the call fails) and the
    callback. *)
Definition deliver_packet (h : linux_handle) (u : U) (ts : option (Z * Z)) (b : list byte) (bp packet_len : Z) : handled U :=
  let caplen := if p_snapshot (l_p h) <? packet_len then p_snapshot (l_p h) else packet_len in
  match userland_accepts h (drop (Z.to_nat bp) b) packet_len caplen with
  | inl o => HandledFilter o
  | inr false => Handled 0 h u b
  | inr true =>
      match ts with
      | None =>
          Handled PCAP_ERROR
            (set_l_msg (if opt_tstamp_precision (p_opt (l_p h)) =? PCAP_TSTAMP_PRECISION_NANO
                        then "SIOCGSTAMPNS: %s" else "SIOCGSTAMP: %s") h) u b
      | Some (sec, usec) =>
          let h := set_packets_read (u32 (packets_read h + 1)) h in
          match peek b bp caplen with
          | None => HandledOutside
          | Some d =>
              let (u, brk) := callback u (mk_pkthdr sec usec caplen packet_len) d in
              Handled 1 (if (brk : bool) then set_l_break true h else h) u b
          end
      end
  end.

(** [pcap_read_packet]: [None] when the answers end in an interrupted call. The bytes of the
    result are those of the buffer. *)
Definition pcap_read_packet (recvs : list recv_answer) (ts : option (Z * Z)) (h : linux_handle) (u : U)
    : option (handled U) :=
  r ← recv_loop recvs h;
  Some match r with
       | inl h => Handled PCAP_ERROR_BREAK h u (p_buffer (l_p h))
       | inr (h, a) =>
           match a with
           | RecvEintr _ | RecvEagain => Handled 0 h u (p_buffer (l_p h))
           | RecvEnetdown => Handled PCAP_ERROR (set_l_msg "The interface went down" h) u (p_buffer (l_p h))
           | RecvError => Handled PCAP_ERROR (set_l_msg "recvfrom: %s" h) u (p_buffer (l_p h))
           | RecvMsg m =>
               match recv_into h m with
               | None => HandledOutside
               | Some b =>
                   if negb (sock_packet h) &&
                      ((negb (ifindex h =? -1) && negb (sll_ifindex (m_from m) =? ifindex h))
                       || negb (linux_check_direction h (m_from m)))
                   then Handled 0 h u b
                   else match receive h m b with
                        | None => HandledOutside
                        | Some (b, bp, packet_len) => deliver_packet h u ts b bp packet_len
                        end
               end
           end
       end.

(** [pcap_read_linux]: one packet, whatever [max_packets]. *)
Definition pcap_read_linux (recvs : list recv_answer) (ts : option (Z * Z)) (h : linux_handle) (max_packets : Z) (u : U)
    : option (handled U) := pcap_read_packet recvs ts h u.

End Read.
