(* ===== verification/LinuxProofs.v ===== *)
(** * Linux: the ring and the filters

    The frames of the ring from the position of the handle on: first those the kernel has
    filled, then those it may fill ([ring_at]). What the code does to them - reading one and
    handing it back, counting the free ones, the kernel filling more - is proved on that list,
    and from it that a read hands the packets on in order, and that a filter put in the kernel
    leaves no packet of the old one unchecked. *)
From stdpp Require Import base numbers list list_misc.
From Stdlib Require Import Strings.Byte Strings.String.
From S2P Require Import Prelude BpfInsn BpfFilter LinkType Pcap Savefile GenState LinuxFilter LinuxRing.
Open Scope Z_scope.

(** ** The ring as a list *)

Section Ring.
Context {A : Type} (status : A -> Z).

Definition is_user (f : A) : Prop := status_of (status f) = TP_STATUS_USER.
Definition is_kernel (f : A) : Prop := status_of (status f) = TP_STATUS_KERNEL.

(** From the position of the handle on, the blocks are [us], filled, and [ks], free, and the
    kernel fills the first of [ks] next. *)
Record ring_at (h : linux_handle) (rg : ring A) (us ks : list A) : Prop := {
  ra_cc : l_cc h = Z.of_nat (List.length (rg_blocks rg));
  ra_offset : 0 <= l_offset h < l_cc h;
  ra_list : rotate (Z.to_nat (l_offset h)) (rg_blocks rg) = us ++ ks;
  ra_next : rg_next rg = rotate_nat_add (Z.to_nat (l_offset h)) (List.length us) (List.length (rg_blocks rg));
  ra_user : Forall is_user us;
  ra_kernel : Forall is_kernel ks }.

(** The kernel fills the block it is at, if it is free, and otherwise drops the packet (packet
    sockets' documentation of the receive ring). *)
Definition ring_put (rg : ring A) (f : A) : ring A :=
  match rg_blocks rg !! rg_next rg with
  | Some g =>
      if status_of (status g) =? TP_STATUS_KERNEL
      then mk_ring (<[rg_next rg := f]> (rg_blocks rg)) (S (rg_next rg) mod List.length (rg_blocks rg))%nat
      else rg
  | None => rg
  end.

(** All the kernel ever does is to fill blocks, with something that satisfies [P]. *)
Definition fills (P : A -> Prop) (kernel : nat -> ring A -> ring A) : Prop :=
  forall t rg, exists new, Forall (fun f => is_user f /\ P f) new /\ kernel t rg = fold_left ring_put new rg.

(** The kernel that puts [arrivals] into the ring, whatever they are at each time and state of
    it; and what has ever arrived. *)
Definition kernel_adds (arrivals : nat -> ring A -> list A) (t : nat) (rg : ring A) : ring A :=
  fold_left ring_put (arrivals t rg) rg.
Definition arrived (arrivals : nat -> ring A -> list A) (f : A) : Prop := exists t rg, f ∈ arrivals t rg.

Lemma adds_fills (P : A -> Prop) arrivals : (forall t rg, Forall is_user (arrivals t rg)) ->
  (forall f, arrived arrivals f -> P f) -> fills P (kernel_adds arrivals).
Proof.
  intros Hu HP t rg. exists (arrivals t rg). split; [|reflexivity]. apply Forall_forall. intros f Hf. split.
  - specialize (Hu t rg). rewrite Forall_forall in Hu. now apply Hu.
  - apply HP. now exists t, rg.
Qed.

Lemma ring_at_length h rg us ks : ring_at h rg us ks ->
  List.length (rg_blocks rg) = (List.length us + List.length ks)%nat.
Proof. intros H. rewrite <- length_app, <- (ra_list _ _ _ _ H). now rewrite length_rotate. Qed.

(** Block [i] from the position of the handle on. *)
Lemma ring_at_block h rg us ks i : ring_at h rg us ks -> (i < List.length (rg_blocks rg))%nat ->
  (us ++ ks) !! i = get_block rg ((l_offset h + Z.of_nat i) mod l_cc h).
Proof.
  intros H Hi. rewrite <- (ra_list _ _ _ _ H), lookup_rotate_r by exact Hi.
  unfold get_block, at_Z, rotate_nat_add. rewrite (ra_cc _ _ _ _ H).
  pose proof (ra_offset _ _ _ _ H).  rewrite Z2Nat.id by lia.
  destruct (Z.ltb_spec ((l_offset h + Z.of_nat i) mod Z.of_nat (List.length (rg_blocks rg))) 0) as [Hn|]; [|reflexivity].
  pose proof (Z.mod_pos_bound (l_offset h + Z.of_nat i) (Z.of_nat (List.length (rg_blocks rg)))). lia.
Qed.

Lemma ring_at_head h rg us ks : ring_at h rg us ks -> get_block rg (l_offset h) = head (us ++ ks).
Proof.
  intros H. pose proof (ra_offset _ _ _ _ H). pose proof (ra_cc _ _ _ _ H).
  rewrite head_lookup, (ring_at_block _ _ _ _ 0 H) by lia. rewrite Z.add_0_r, Z.mod_small by lia. reflexivity.
Qed.

Lemma rotate_nat_add_full off n : (off < n)%nat -> rotate_nat_add off n n = off.
Proof.
  intros H. unfold rotate_nat_add. rewrite <- Z.add_mod_idemp_r by lia.
  rewrite Z_mod_same_full, Z.add_0_r, Z.mod_small by lia. lia.
Qed.

Lemma ring_put_at h rg us ks f : ring_at h rg us ks -> is_user f ->
  match ks with
  | [] => ring_put rg f = rg
  | _ :: ks => ring_at h (ring_put rg f) (us ++ [f]) ks
  end.
Proof.
  intros H Hf. pose proof (ring_at_length _ _ _ _ H) as Hl.
  destruct H as [Hc Ho Hr Hn Hu Hk].
  assert (Hoff : (Z.to_nat (l_offset h) < List.length (rg_blocks rg))%nat) by lia.
  destruct ks as [|g ks].
  - unfold ring_put. destruct us as [|g us]; [simpl in Hl; lia|].
    assert (Hg : rg_blocks rg !! rg_next rg = Some g).
    { rewrite Hn. simpl in Hl |- *. rewrite Hl, Nat.add_0_r, rotate_nat_add_full by lia.
      rewrite <- (rotate_nat_add_0 (Z.to_nat (l_offset h)) (List.length (rg_blocks rg))), <- lookup_rotate_r by lia.
      now rewrite Hr. }
    rewrite Hg. inversion Hu as [|? ? Hgu ?]; subst. unfold is_user in Hgu. now rewrite Hgu.
  - assert (Hg : rg_blocks rg !! rg_next rg = Some g).
    { rewrite Hn, <- lookup_rotate_r by (simpl in Hl; lia). rewrite Hr. now rewrite list_lookup_middle. }
    inversion Hk as [|? ? Hgk Hks]; subst. unfold ring_put. rewrite Hg. unfold is_kernel in Hgk. rewrite Hgk. simpl.
    constructor; simpl; rewrite ?length_insert; auto.
    + rewrite Hn, rotate_insert_l by (simpl in Hl; lia). rewrite Hr.
      rewrite insert_app_r_alt by lia. rewrite Nat.sub_diag. simpl. now rewrite <- app_assoc.
    + rewrite Hn, length_app. simpl. rewrite Nat.add_1_r, rotate_nat_add_S by lia. reflexivity.
    + apply Forall_app; auto.
Qed.

Lemma fold_put_at new : forall h rg us ks, ring_at h rg us ks -> Forall is_user new ->
  exists n, (n <= List.length ks)%nat /\ ring_at h (fold_left ring_put new rg) (us ++ take n new) (drop n ks).
Proof.
  induction new as [|f new IH]; intros h rg us ks H Hn; simpl.
  - exists 0%nat. rewrite app_nil_r, drop_0. split; [lia|exact H].
  - inversion Hn as [|? ? Hf Hns]; subst. pose proof (ring_put_at _ _ _ _ f H Hf) as Hp.
    destruct ks as [|g ks].
    + rewrite Hp. destruct (IH _ _ _ _ H Hns) as (n & Hn' & Hr). exists n. simpl in Hn'.
      assert (n = 0%nat) as -> by lia. split; [simpl; lia|]. exact Hr.
    + destruct (IH _ _ _ _ Hp Hns) as (n & Hn' & Hr). exists (S n). simpl. split; [lia|].
      rewrite <- app_assoc in Hr. exact Hr.
Qed.

Lemma fills_at P kernel t h rg us ks : fills P kernel -> ring_at h rg us ks ->
  exists new ks', Forall P new /\ ring_at h (kernel t rg) (us ++ new) ks'.
Proof.
  intros HK H. destruct (HK t rg) as (new & Hn & ->).
  destruct (fold_put_at new h rg us ks H) as (n & _ & Hr).
  { eapply Forall_impl; [exact Hn|]. now intros f [? _]. }
  exists (take n new), (drop n ks). split; [|exact Hr].
  apply Forall_take. eapply Forall_impl; [exact Hn|]. now intros f [_ ?].
Qed.

(** Handing the current block back. *)
Lemma rotate_nat_add_next off i n : (off < n)%nat ->
  rotate_nat_add (S off mod n)%nat i n = rotate_nat_add off (S i) n.
Proof.
  intros H. rewrite <- rotate_nat_add_add_mod. unfold rotate_nat_add. do 2 f_equal. lia.
Qed.

Lemma next_block_offset h : 0 <= l_offset h < l_cc h -> 
  Z.to_nat (l_offset (next_block h)) = (S (Z.to_nat (l_offset h)) mod Z.to_nat (l_cc h))%nat.
Proof.
  intros H. unfold next_block, set_l_offset. simpl. destruct (Z.leb_spec (l_cc h) (l_offset h + 1)).
  - replace (S _) with (Z.to_nat (l_cc h)) by lia. rewrite Nat.Div0.mod_same. reflexivity.
  - rewrite Nat.mod_small by lia. lia.
Qed.

Lemma rotate_next (l rest : list A) f g off : (off < List.length l)%nat -> rotate off l = f :: rest ->
  rotate (S off mod List.length l) (<[off := g]> l) = rest ++ [g].
Proof.
  intros Ho Hr. assert (Hl : List.length l = S (List.length rest)).
  { rewrite <- (length_rotate l off). now rewrite Hr. }
  apply list_eq_same_length with (n := List.length l);
    [rewrite length_app; simpl; lia|now rewrite length_rotate, length_insert|].
  intros i x y Hi. rewrite lookup_rotate_r by (rewrite length_insert; lia).
  rewrite length_insert, rotate_nat_add_next by lia.
  destruct (decide (i = List.length rest)) as [->|Hne].
  - rewrite list_lookup_middle by reflexivity. intros Hx [= <-].
    rewrite <- Hl, rotate_nat_add_full in Hx by lia.
    rewrite list_lookup_insert_eq in Hx by lia. now inversion Hx.
  - rewrite (lookup_app_l rest) by lia.
    rewrite list_lookup_insert_ne.
    + rewrite <- lookup_rotate_r by lia. rewrite Hr. simpl. congruence.
    + intros He. assert (S i = 0)%nat; [|lia].
      rewrite <- (rotate_nat_sub_add off (List.length l) (S i)) by lia. rewrite <- He.
      apply rotate_nat_sub_0. lia.
Qed.

Lemma release_at h rg f g us ks : ring_at h rg (f :: us) ks -> is_kernel g ->
  ring_at (next_block h) (put_block rg (l_offset h) g) us (ks ++ [g]).
Proof.
  intros H Hg. destruct H as [Hc Ho Hr Hn Hu Hk].
  inversion Hu as [|? ? Hf Hus]; subst.
  pose proof (next_block_offset h Ho) as Hno. rewrite Hc, Nat2Z.id in Hno.
  constructor; try assumption.
  - unfold put_block. simpl. rewrite length_insert. exact Hc.
  - unfold next_block, set_l_offset. simpl. destruct (Z.leb_spec (l_cc h) (l_offset h + 1)); lia.
  - rewrite Hno, app_assoc. apply rotate_next with (f := f); [lia|exact Hr].
  - unfold put_block. cbn [rg_next rg_blocks]. rewrite length_insert, Hno, rotate_nat_add_next by lia. exact Hn.
  - apply Forall_app; auto.
Qed.

(** Another content for the current block. *)
Lemma update_at h rg f g us ks : ring_at h rg (f :: us) ks -> is_user g -> ring_at h (put_block rg (l_offset h) g) (g :: us) ks.
Proof.
  intros [Hc Ho Hr Hn Hu Hk] Hg. inversion Hu as [|? ? Hf Hus]; subst.
  constructor; unfold put_block; cbn [rg_blocks rg_next]; rewrite ?length_insert; auto.
  rewrite <- (rotate_nat_add_0 (Z.to_nat (l_offset h)) (List.length (rg_blocks rg))) at 2 by lia.
  rewrite rotate_insert_l by lia. now rewrite Hr.
Qed.

End Ring.

(** ** Packets of frames *)

(** A handle without what reading changes; and what reading changes of the filters. *)
Definition core (h : linux_handle) : linux_handle :=
  set_userland true 0 (set_l_offset 0 (set_packets_read 0 (set_l_break false (set_l_msg "" h)))).
Definition userland (h : linux_handle) : bool * Z := (filter_in_userland h, blocks_to_filter_in_userland h).

Lemma core_count h : core (count_block h) = core h.
Proof. unfold count_block. now destruct (0 <? _). Qed.
Lemma core_next h : core (next_block h) = core h.
Proof. reflexivity. Qed.
Lemma userland_count h h' : userland h = userland h' -> userland (count_block h) = userland (count_block h').
Proof. unfold userland, count_block. intros [= H1 H2]. rewrite H2. destruct (0 <? _); simpl; now rewrite H1, ?H2. Qed.
Lemma userland_counted n h h' : userland h = userland h' ->
  userland (Nat.iter n count_block h) = userland (Nat.iter n count_block h').
Proof. intros H. induction n as [|n IH]; [exact H|]. now apply userland_count. Qed.
Lemma counted_comm n h : Nat.iter n count_block (count_block h) = count_block (Nat.iter n count_block h).
Proof. induction n as [|n IH]; [reflexivity|]. simpl. now rewrite IH. Qed.
Lemma core_cc h h' : core h = core h' -> l_cc h = l_cc h'.
Proof. intros H. exact (f_equal l_cc H). Qed.

Lemma set_l_break_same h : p_break_loop (l_p h) = false -> set_l_break false h = h.
Proof.
  destruct h as [p]. simpl. intros Hb. unfold set_l_break, set_l_p. simpl. f_equal.
  destruct p. simpl in *. now subst.
Qed.

Lemma ring_at_same {A} (status : A -> Z) h h' rg us ks : l_cc h = l_cc h' -> l_offset h = l_offset h' ->
  ring_at status h rg us ks -> ring_at status h' rg us ks.
Proof. intros Hc Ho [? ? ? ? ? ?]. constructor; rewrite <- ?Hc, <- ?Ho; assumption. Qed.

Definition delivered := list (pcap_pkthdr * list byte).
(** A callback that records what it gets; [brk] says when it calls [pcap_breakloop]. *)
Definition recorder (brk : delivered -> bool) (u : delivered) (hdr : pcap_pkthdr) (d : list byte) : delivered * bool :=
  (u ++ [(hdr, d)], brk (u ++ [(hdr, d)])).

(** Calls one after the other, each with its [max_packets], whatever they return. *)
Fixpoint read_calls {A} (read : nat -> linux_handle -> Z -> ring A -> delivered -> ring_result A delivered)
    (cnts : list Z) (t : nat) (h : linux_handle) (rg : ring A) (u : delivered)
    : option (linux_handle * ring A * delivered * nat) :=
  match cnts with
  | [] => Some (h, rg, u, t)
  | cnt :: cnts =>
      match read t h cnt rg u with
      | RingRet _ h rg u t => read_calls read cnts t h rg u
      | _ => None
      end
  end.

Lemma read_calls_ext {A} (read read' : nat -> linux_handle -> Z -> ring A -> delivered -> ring_result A delivered) cnts : (forall t h cnt rg u, read t h cnt rg u = read' t h cnt rg u) ->
  forall t h rg u, read_calls read cnts t h rg u = read_calls read' cnts t h rg u.
Proof.
  intros He. induction cnts as [|cnt cnts IH]; intros t h rg u; simpl; [reflexivity|].
  rewrite He. destruct (read' _ _ _ _ _); auto.
Qed.

Section Frames.
Context (filter_fuel : nat) (mem : list Z) (brk : delivered -> bool).
(** What the version of the ring takes from a frame. *)
Context (usec : linux_handle -> frame -> Z) (vlan : frame -> bool).
Hypothesis usec_core : forall h f, usec h f = usec (core h) f.

Definition handle_frame (h : linux_handle) (u : delivered) (f : frame) : handled delivered :=
  pcap_handle_packet_mmap filter_fuel mem (recorder brk) h u f (usec h f) (vlan f).

(** The program of the handle accepts the packet of [f]. *)
Definition accepted (h : linux_handle) (f : frame) : bool :=
  match accepts filter_fuel mem (l_p h) (mk_pkthdr 0 0 (tp_snaplen f) (tp_len f))
          (drop (Z.to_nat (tp_mac f)) (tp_bytes f)) with
  | inr b => b
  | inl _ => false
  end.

(** What is handed on of [f], with or without a filter in userland, and of frames one after
    the other. *)
Definition frame_packet (filter : bool) (h : linux_handle) (f : frame) : delivered :=
  if (negb filter || accepted h f) && linux_check_direction h (tp_sll f) then
    match make_packet h f (usec h f) (vlan f) with Some (PkOk hdr d _) => [(hdr, d)] | _ => [] end
  else [].
Fixpoint frame_packets (h : linux_handle) (us : list frame) : delivered :=
  match us with
  | [] => []
  | f :: us => frame_packet (filter_in_userland h) h f ++ frame_packets (count_block h) us
  end.

Lemma frame_packet_core b h f : frame_packet b h f = frame_packet b (core h) f.
Proof. unfold frame_packet. rewrite usec_core. reflexivity. Qed.

Lemma frame_packets_ext us : forall h h', core h = core h' -> userland h = userland h' ->
  frame_packets h us = frame_packets h' us.
Proof.
  induction us as [|f us IH]; intros h h' Hc Hu; [reflexivity|]. simpl.
  f_equal.
  - rewrite (frame_packet_core _ h), (frame_packet_core _ h'), Hc. now injection Hu as -> _.
  - apply IH; [now rewrite !core_count|now apply userland_count].
Qed.

Lemma frame_packets_app us us' h :
  frame_packets h (us ++ us') = frame_packets h us ++ frame_packets (Nat.iter (List.length us) count_block h) us'.
Proof.
  revert h. induction us as [|f us IH]; intros h; [reflexivity|]. simpl.
  now rewrite IH, <- app_assoc, counted_comm.
Qed.

(** Handling a frame: an error leaves all as it was, but for the message; otherwise the packet
    of the frame is handed on and counted. *)
Lemma handle_frame_spec h u f ret h' u' b : handle_frame h u f = Handled ret h' u' b ->
  core h' = core h /\ userland h' = userland h /\ l_offset h' = l_offset h /\
  if ret <? 0 then u' = u /\ b = tp_bytes f
  else let pk := frame_packet (filter_in_userland h) h f in u' = u ++ pk /\ ret = Z.of_nat (List.length pk).
Proof.
  unfold handle_frame, pcap_handle_packet_mmap, userland_accepts, frame_packet, accepted.
  destruct (u32 (p_bufsize _) <? _); [intros [= <- <- <- <-]; simpl; auto|].
  assert (Hgo : forall pass, 
    (if negb (linux_check_direction h (tp_sll f)) then Handled 0 h u (tp_bytes f) else
     match make_packet h f (usec h f) (vlan f) with
     | None => HandledOutside
     | Some PkBad => Handled (-1) (set_l_msg "cooked-mode frame doesn't have room for sll header" h) u (tp_bytes f)
     | Some (PkOk hdr d b) =>
         let (u, brk) := recorder brk u hdr d in
         Handled 1 (if (brk : bool) then set_l_break true h else h) u b
     end) = Handled ret h' u' b ->
    pass = true ->
    core h' = core h /\ userland h' = userland h /\ l_offset h' = l_offset h /\
    if ret <? 0 then u' = u /\ b = tp_bytes f
    else let pk := if pass && linux_check_direction h (tp_sll f) then
                     match make_packet h f (usec h f) (vlan f) with Some (PkOk hdr d _) => [(hdr, d)] | _ => [] end
                   else [] in
         u' = u ++ pk /\ ret = Z.of_nat (List.length pk)).
  { intros pass Hr ->. simpl. destruct (linux_check_direction h _); simpl in Hr |- *.
    - destruct (make_packet _ _ _ _) as [[|hdr d b']|]; [| |discriminate].
      + injection Hr as <- <- <- <-. simpl. auto.
      + injection Hr as <- <- <- <-. destruct (brk _); simpl; auto.
    - injection Hr as <- <- <- <-. simpl. rewrite app_nil_r. auto. }
  destruct (filter_in_userland h); simpl; [|intros Hr; exact (Hgo true Hr eq_refl)].
  destruct (accepts _ _ _ _ _) as [o|[]]; [discriminate|intros Hr; exact (Hgo true Hr eq_refl)|].
  intros [= <- <- <- <-]. simpl. rewrite app_nil_r. auto.
Qed.

(** The bytes a frame is left with: its own, or what making the packet wrote. *)
Lemma handle_frame_bytes h u f ret h' u' b : handle_frame h u f = Handled ret h' u' b ->
  b = tp_bytes f \/ exists hdr d, make_packet h f (usec h f) (vlan f) = Some (PkOk hdr d b).
Proof.
  unfold handle_frame, pcap_handle_packet_mmap. destruct (_ <? _); [intros [= _ _ _ <-]; auto|].
  destruct (userland_accepts _ _ _ _ _ _) as [|[]]; [discriminate| |intros [= _ _ _ <-]; auto].
  destruct (negb _); [intros [= _ _ _ <-]; auto|].
  destruct (make_packet _ _ _ _) as [[|hdr d b']|]; [intros [= _ _ _ <-]; auto| |discriminate].
  cbn [recorder]. intros [= _ _ _ <-]. eauto.
Qed.

(** ** Reading *)

(** From one state of reading to a later one: the kernel has added [new] frames, each with
    [P], and [done] have been handed back, in order, their packets on the way. *)
Record reads (P : frame -> Prop) (h h' : linux_handle) (us us' : list frame) (u u' : delivered) : Prop := {
  rd_core : core h' = core h;
  rd_frames : exists new done, Forall P new /\ us ++ new = done ++ us' /\
    userland h' = userland (Nat.iter (List.length done) count_block h) /\ u' = u ++ frame_packets h done }.

Lemma reads_refl P h h' us u : core h' = core h -> userland h' = userland h -> reads P h h' us us u u.
Proof.
  intros Hc Hu. split; [exact Hc|]. exists [], []. rewrite !app_nil_r. auto.
Qed.

Lemma reads_trans P h h1 h2 us us1 us2 u u1 u2 :
  reads P h h1 us us1 u u1 -> reads P h1 h2 us1 us2 u1 u2 -> reads P h h2 us us2 u u2.
Proof.
  intros [Hc1 (new1 & done1 & Hn1 & He1 & Hu1 & ->)] [Hc2 (new2 & done2 & Hn2 & He2 & Hu2 & ->)].
  split; [congruence|]. exists (new1 ++ new2), (done1 ++ done2).
  split; [now apply Forall_app|]. split; [rewrite app_assoc, He1, <- app_assoc, He2; now rewrite app_assoc|].
  split.
  - rewrite Hu2, length_app, Nat.add_comm, Nat.iter_add. now apply userland_counted.
  - rewrite frame_packets_app, <- app_assoc. do 2 f_equal. apply frame_packets_ext; [|exact Hu1].
    rewrite Hc1. clear. induction done1 as [|f d IH]; [reflexivity|]. simpl. now rewrite core_count.
Qed.

Lemma reads_more P h us new u : Forall P new -> reads P h h us (us ++ new) u u.
Proof.
  intros Hn. split; [reflexivity|]. exists new, []. rewrite app_nil_r. auto.
Qed.

Lemma reads_one P h h' f us u u' : core h' = core h -> userland h' = userland (count_block h) ->
  u' = u ++ frame_packet (filter_in_userland h) h f -> reads P h h' (f :: us) us u u'.
Proof.
  intros Hc Hu ->. split; [exact Hc|]. exists [], [f]. simpl. rewrite !app_nil_r. auto.
Qed.

Lemma put_same {A} (status : A -> Z) h rg f us ks : ring_at status h rg (f :: us) ks -> put_block rg (l_offset h) f = rg.
Proof.
  intros H. pose proof (ring_at_head _ _ _ _ _ H) as Hh. unfold get_block, at_Z in Hh. simpl in Hh.
  destruct (_ <? _); [discriminate|]. unfold put_block. rewrite list_insert_id by exact Hh. now destruct rg.
Qed.

Lemma set_tp_bytes_same f : set_tp_bytes (tp_bytes f) f = f.
Proof. now destruct f. Qed.

Lemma handed_back_kernel b f : is_kernel tp_status (set_tp_status TP_STATUS_KERNEL (set_tp_bytes b f)).
Proof. reflexivity. Qed.

(** One frame handled in the loop, the kernel having had its turn. *)
Lemma frame_step P h rg f us ks u ret h1 u1 b : ring_at tp_status h rg (f :: us) ks ->
  handle_frame h u f = Handled ret h1 u1 b ->
  if ret <? 0
  then ring_at tp_status h1 (put_block rg (l_offset h1) (set_tp_bytes b f)) (f :: us) ks /\
       reads P h h1 (f :: us) (f :: us) u u1
  else forall n, let h2 := next_block (count_block (set_packets_read n h1)) in
       let g := set_tp_status TP_STATUS_KERNEL (set_tp_bytes b f) in
       (forall brk, ring_at tp_status (set_l_break brk h2) (put_block rg (l_offset h1) g) us (ks ++ [g])) /\
       (forall brk, reads P h (set_l_break brk h2) (f :: us) us u u1).
Proof.
  intros Hr Hh. destruct (handle_frame_spec _ _ _ _ _ _ _ Hh) as (Hc & Hu & Ho & Hret).
  pose proof (core_cc _ _ Hc) as Hcc.
  destruct (ret <? 0).
  - destruct Hret as [-> ->]. rewrite set_tp_bytes_same, Ho, (put_same _ _ _ _ _ _ Hr).
    split; [|now apply reads_refl]. now apply ring_at_same with (h := h).
  - destruct Hret as [-> _]. intros n h2 g. rewrite Ho.
    assert (Hcn : l_cc (count_block (set_packets_read n h1)) = l_cc h /\
                  l_offset (count_block (set_packets_read n h1)) = l_offset h).
    { unfold count_block. destruct (0 <? _); simpl; auto. }
    split; intros brk'.
    + apply ring_at_same with (h := next_block h).
      1,2: unfold h2, next_block; simpl; destruct Hcn as [Hc1 Hc2]; rewrite ?Hc1, ?Hc2; reflexivity.
      apply release_at with (f := f); [exact Hr|apply handed_back_kernel].
    + apply reads_one; [|unfold userland at 1; simpl|reflexivity].
      * unfold h2. change (core (count_block (set_packets_read n h1)) = core h). rewrite core_count. exact Hc.
      * fold (userland (count_block (set_packets_read n h1))). now apply userland_count.
Qed.

Section Loop.
Context (P : frame -> Prop) (kernel : nat -> ring frame -> ring frame) (Hk : fills tp_status P kernel).

Lemma frames_loop_reads max fuel : forall t pkts h rg u us ks ret h' rg' u' t',
  ring_at tp_status h rg us ks ->
  frames_loop kernel handle_frame fuel t max pkts h rg u = RingRet ret h' rg' u' t' ->
  exists us' ks', ring_at tp_status h' rg' us' ks' /\ reads P h h' us us' u u'.
Proof.
  induction fuel as [|fuel IH]; intros t pkts h rg u us ks ret h' rg' u' t' Hr; simpl; [discriminate|].
  destruct (_ || _); [|intros [= <- <- <- <- <-]; exists us, ks; split; [exact Hr|now apply reads_refl]].
  destruct (fills_at _ _ _ t _ _ _ _ Hk Hr) as (new & ks1 & Hn & Hr1).
  pose proof (reads_more P h us new u Hn) as Hmore.
  pose proof (ring_at_head _ _ _ _ _ Hr1) as Hh. rewrite Hh.
  destruct (us ++ new) as [|f us1] eqn:Eus; simpl.
  - destruct ks1 as [|f ks1]; [discriminate|]. simpl.
    pose proof (ra_kernel _ _ _ _ _ Hr1) as Hks. inversion Hks as [|? ? Hf _]; subst.
    unfold is_kernel in Hf. rewrite Hf. intros [= <- <- <- <- <-]. eauto.
  - pose proof (ra_user _ _ _ _ _ Hr1) as Hus. inversion Hus as [|? ? Hf _]; subst.
    unfold is_user in Hf. rewrite Hf. simpl.
    destruct (handle_frame h u f) as [ret1 h1 u1 b| |o] eqn:Eh; try discriminate.
    pose proof (frame_step P _ _ _ _ _ _ _ _ _ _ Hr1 Eh) as Hs.
    destruct (ret1 <? 0) eqn:Eret.
    + intros [= <- <- <- <- <-]. destruct Hs as [Hs1 Hs2]. eexists _, _. split; [exact Hs1|].
      eapply reads_trans; eassumption.
    + assert (Hh2 : exists m, (if ret1 =? 1 then set_packets_read (u32 (packets_read h1 + 1)) h1 else h1) =
                              set_packets_read m h1).
      { destruct (ret1 =? 1); [now eexists|exists (packets_read h1); now destruct h1]. }
      destruct Hh2 as (m & ->). destruct (Hs m) as [Hs1 Hs2].
      destruct (p_break_loop _) eqn:Eb.
      * intros [= <- <- <- <- <-]. eexists _, _. split; [apply (Hs1 false)|].
        eapply reads_trans; [exact Hmore|]. apply (Hs2 false).
      * intros Hl. specialize (Hs1 false). specialize (Hs2 false).
        rewrite (set_l_break_same (next_block (count_block (set_packets_read m h1))) Eb) in Hs1, Hs2.
        destruct (IH _ _ _ _ _ _ _ _ _ _ _ _ Hs1 Hl) as (us' & ks' & Hr' & Hrd).
        exists us', ks'. split; [exact Hr'|]. eapply reads_trans; [exact Hmore|]. eapply reads_trans; eassumption.
Qed.

Lemma poll_loop_same poll fuel : forall t h ret h' t', poll_loop poll fuel t h = Some (ret, h', t') ->
  core h' = core h /\ userland h' = userland h /\ l_offset h' = l_offset h.
Proof.
  induction fuel as [|fuel IH]; intros t h ret h' t'; simpl; [discriminate|].
  destruct (poll _ _) as [a sig]. set (h0 := if sig then set_l_break true h else h).
  assert (H0 : core h0 = core h /\ userland h0 = userland h /\ l_offset h0 = l_offset h) by (now destruct sig).
  clearbody h0. destruct H0 as (H1 & H2 & H3).
  destruct (poll_round a) as [msg| |again]; [intros [= <- <- <-]; auto..|].
  destruct (p_break_loop _); [intros [= <- <- <-]; auto|].
  destruct again; [|intros [= <- <- <-]; auto].
  intros Hl%IH. destruct Hl as (Hl1 & Hl2 & Hl3). repeat split; congruence.
Qed.

Lemma read_frames_reads poll max fuel t h rg u us ks ret h' rg' u' t' :
  ring_at tp_status h rg us ks ->
  read_frames kernel poll handle_frame fuel t max h rg u = RingRet ret h' rg' u' t' ->
  exists us' ks', ring_at tp_status h' rg' us' ks' /\ reads P h h' us us' u u'.
Proof.
  intros Hr. unfold read_frames, pcap_wait_for_frames_mmap.
  destruct (fills_at _ _ _ t _ _ _ _ Hk Hr) as (new & ks1 & Hn & Hr1).
  pose proof (reads_more P h us new u Hn) as Hmore.
  destruct (get_block _ _) as [f|]; [|discriminate]. simpl.
  assert (Hgo : forall h1 ret1 t1, core h1 = core h -> userland h1 = userland h -> l_offset h1 = l_offset h ->
    (if negb (ret1 =? 0) then RingRet ret1 h1 (kernel t rg) u t1
     else frames_loop kernel handle_frame fuel t1 max 0 h1 (kernel t rg) u) = RingRet ret h' rg' u' t' ->
    exists us' ks', ring_at tp_status h' rg' us' ks' /\ reads P h h' us us' u u').
  { intros h1 ret1 t1 Hc Hu Ho Hl.
    assert (Hr2 : ring_at tp_status h1 (kernel t rg) (us ++ new) ks1)
      by (apply ring_at_same with (h := h); [symmetry; now apply core_cc|auto|assumption]).
    pose proof (reads_trans _ _ _ _ _ _ _ _ _ _ Hmore (reads_refl P h h1 (us ++ new) u Hc Hu)) as Hrd.
    destruct (ret1 =? 0); simpl in Hl.
    - destruct (frames_loop_reads _ _ _ _ _ _ _ _ _ _ _ _ _ _ Hr2 Hl) as (us' & ks' & Hr' & Hrd').
      exists us', ks'. split; [exact Hr'|]. eapply reads_trans; eassumption.
    - injection Hl as <- <- <- <- <-. eauto. }
  destruct (status_of (tp_status f) =? TP_STATUS_USER); [apply Hgo; reflexivity|].
  destruct (poll_loop _ _ _ _) as [[[ret1 h1] t1]|] eqn:Ep; [|discriminate].
  destruct (poll_loop_same _ _ _ _ _ _ _ Ep) as (Hc & Hu & Ho). now apply Hgo.
Qed.

Lemma read_calls_reads poll fuel cnts : forall t h rg u us ks h' rg' u' t',
  ring_at tp_status h rg us ks ->
  read_calls (fun t h cnt rg u => read_frames kernel poll handle_frame fuel t cnt h rg u) cnts t h rg u
    = Some (h', rg', u', t') ->
  exists us' ks', ring_at tp_status h' rg' us' ks' /\ reads P h h' us us' u u'.
Proof.
  induction cnts as [|cnt cnts IH]; intros t h rg u us ks h' rg' u' t' Hr; simpl.
  - intros [= <- <- <- <-]. exists us, ks. split; [exact Hr|now apply reads_refl].
  - destruct (read_frames _ _ _ _ _ _ _ _ _) as [ret h1 rg1 u1 t1| | |] eqn:E; try discriminate.
    destruct (read_frames_reads _ _ _ _ _ _ _ _ _ _ _ _ _ _ Hr E) as (us1 & ks1 & Hr1 & Hrd1).
    intros Hc. destruct (IH _ _ _ _ _ _ _ _ _ _ Hr1 Hc) as (us' & ks' & Hr' & Hrd').
    exists us', ks'. split; [exact Hr'|]. eapply reads_trans; eassumption.
Qed.

End Loop.

End Frames.
