(* ===== verification/LinuxTheorems.v ===== *)
(** * Linux: what reading from the ring promises

    Packets in order and each once, with the filter that is due; a new filter in the kernel;
    no access outside a frame; programs rewritten for the kernel; and two ways in which the
    code does not keep what it promises. *)
From stdpp Require Import base numbers list list_misc.
From Stdlib Require Import Strings.Byte Strings.String.
From S2P Require Import Prelude BpfInsn BpfFilter BpfFilterProofs LinkType Pcap SfPcap Savefile GenState LinuxFilter LinuxRing LinuxProofs.
Open Scope Z_scope.

(** ** What the versions 1 and 2 take from a frame *)

Definition usec_of (v2 : bool) (h : linux_handle) (f : frame) : Z := if v2 then tp_usec_of h f else tp_frac f.
Definition vlan_of (v2 : bool) (f : frame) : bool := v2 && vlan_tci_valid f.
(** The reading function of a version. *)
Definition mmap_read (v2 : bool) (filter_fuel : nat) (mem : list Z) (brk : delivered -> bool) :=
  if v2 then pcap_read_linux_mmap_v2 filter_fuel mem (recorder brk)
  else pcap_read_linux_mmap_v1 filter_fuel mem (recorder brk).

Lemma usec_of_core v2 h f : usec_of v2 h f = usec_of v2 (core h) f.
Proof. now destruct v2. Qed.

Lemma mmap_read_frames v2 filter_fuel mem brk kernel poll fuel t h max rg u :
  mmap_read v2 filter_fuel mem brk kernel poll fuel t h max rg u
  = read_frames kernel poll (handle_frame filter_fuel mem brk (usec_of v2) (vlan_of v2)) fuel t max h rg u.
Proof. now destruct v2. Qed.

(** ** Frames still to be filtered *)

Section Covered.
Context {A : Type} (P : A -> Prop).

(** Each block, at its turn, is filtered in userland or has [P]. *)
Fixpoint covered (h : linux_handle) (us : list A) : Prop :=
  match us with
  | [] => True
  | f :: us => (filter_in_userland h = true \/ P f) /\ covered (count_block h) us
  end.

Lemma covered_always us : forall h, filter_in_userland h = true -> blocks_to_filter_in_userland h <= 0 -> covered h us.
Proof.
  induction us as [|f us IH]; intros h Hu Hb; simpl; [exact I|].
  replace (count_block h) with h; [auto|].
  unfold count_block. destruct (Z.ltb_spec 0 (blocks_to_filter_in_userland h)); [lia|reflexivity].
Qed.

Lemma covered_all us : forall h, Forall P us -> covered h us.
Proof. induction us as [|f us IH]; intros h Hp; simpl; [exact I|]. inversion Hp; subst. auto. Qed.

Lemma covered_rest us : forall h, filter_in_userland h = true ->
  Forall P (drop (Z.to_nat (blocks_to_filter_in_userland h)) us) -> covered h us.
Proof.
  induction us as [|f us IH]; intros h Hu Hd; simpl; [exact I|]. split; [auto|].
  destruct (Z.ltb_spec 0 (blocks_to_filter_in_userland h)) as [Hb|Hb].
  - replace (Z.to_nat _) with (S (Z.to_nat (blocks_to_filter_in_userland h - 1))) in Hd by lia. simpl in Hd.
    unfold count_block. destruct (Z.ltb_spec 0 (blocks_to_filter_in_userland h)); [|lia].
    destruct (Z.eqb_spec (blocks_to_filter_in_userland h - 1) 0) as [He|He].
    + rewrite He in Hd |- *. now apply covered_all.
    + now apply IH.
  - apply covered_all. replace (Z.to_nat _) with 0%nat in Hd by lia. now inversion Hd.
Qed.

Lemma covered_ext us : forall h h', userland h = userland h' -> covered h us -> covered h' us.
Proof.
  induction us as [|f us IH]; intros h h' Hu; simpl; [auto|]. intros [Hc Hcs]. split.
  - now injection Hu as <- _.
  - now apply IH with (h := count_block h); [apply userland_count|].
Qed.
End Covered.

(** ** The blocks found free *)

Lemma walk_back_mod cc o : 0 <= o < cc -> walk_back cc o = (o - 1) mod cc.
Proof.
  intros H. unfold walk_back. destruct (Z.ltb_spec (o - 1) 0).
  - assert (o = 0) as -> by lia. rewrite <- (Z.mod_add (0 - 1) 1 cc), Z.mod_small by lia. lia.
  - rewrite Z.mod_small by lia. lia.
Qed.

Lemma count_free_spec status cc fuel : forall o n, 0 <= o < cc ->
  let r := count_free status cc fuel o n in
  n <= r <= n + Z.of_nat fuel /\ forall j, 1 <= j <= r - n -> status ((o - j) mod cc) = TP_STATUS_KERNEL.
Proof.
  induction fuel as [|fuel IH]; intros o n Ho r; [split; [subst r; simpl; lia|subst r; simpl; intros; lia]|].
  subst r. simpl. rewrite walk_back_mod by exact Ho.
  destruct (Z.eqb_spec (status ((o - 1) mod cc)) TP_STATUS_KERNEL) as [Hs|Hs]; [|split; [lia|intros; lia]].
  assert (Ho' : 0 <= (o - 1) mod cc < cc) by (apply Z.mod_pos_bound; lia).
  destruct (IH _ (n + 1) Ho') as [Hr Hall]. split; [lia|]. intros j Hj.
  destruct (decide (j = 1)) as [->|Hne]; [exact Hs|].
  rewrite <- (Hall (j - 1)) by lia. f_equal. rewrite Zminus_mod_idemp_l. f_equal. lia.
Qed.

(** What the blocks of the ring say. *)
Definition ring_status {A} (status : A -> Z) (rg : ring A) (o : Z) : Z :=
  match get_block rg o with Some f => status_of (status f) | None => TP_STATUS_KERNEL end.

Lemma ring_status_user {A} (status : A -> Z) h rg us ks i : ring_at status h rg us ks -> 0 <= i < Z.of_nat (List.length us) ->
  ring_status status rg ((l_offset h + i) mod l_cc h) = TP_STATUS_USER.
Proof.
  intros H Hi. pose proof (ring_at_length _ _ _ _ _ H) as Hl. unfold ring_status.
  replace i with (Z.of_nat (Z.to_nat i)) by lia.
  rewrite <- (ring_at_block _ _ _ _ _ _ H) by lia. rewrite lookup_app_l by lia.
  destruct (lookup_lt_is_Some_2 us (Z.to_nat i)) as [f Hf]; [lia|]. rewrite Hf.
  exact (Forall_lookup_1 _ _ _ _ (ra_user _ _ _ _ _ H) Hf).
Qed.

(** The blocks to be filtered in userland are at least those the kernel has filled. *)
Definition blocks_counted (status : Z -> Z) (h : linux_handle) : Z :=
  let n := count_free status (l_cc h) (Z.to_nat (l_cc h)) (walk_back (l_cc h) (l_offset h)) 0 in
  l_cc h - (if negb (n =? 0) then n - 1 else n).

Lemma blocks_counted_enough {A} (status : A -> Z) h rg us ks : ring_at status h rg us ks ->
  Z.of_nat (List.length us) <= blocks_counted (ring_status status rg) h /\ 0 < blocks_counted (ring_status status rg) h.
Proof.
  intros H. pose proof (ring_at_length _ _ _ _ _ H) as Hl. pose proof (ra_cc _ _ _ _ _ H) as Hcc.
  pose proof (ra_offset _ _ _ _ _ H) as Ho. unfold blocks_counted.
  rewrite walk_back_mod by exact Ho.
  assert (Ho' : 0 <= (l_offset h - 1) mod l_cc h < l_cc h) by (apply Z.mod_pos_bound; lia).
  destruct (count_free_spec (ring_status status rg) (l_cc h) (Z.to_nat (l_cc h)) _ 0 Ho') as [Hr Hfree].
  set (n := count_free _ _ _ _ _) in *. clearbody n.
  destruct (Z.eqb_spec n 0) as [->|Hn]; simpl; [lia|]. split; [|lia].
  destruct (Z.le_gt_cases (Z.of_nat (List.length us)) (l_cc h - (n - 1))) as [|Hgt]; [assumption|exfalso].
  assert (Hk : forall j, 1 <= j <= n -> ring_status status rg ((l_offset h + (l_cc h - 1 - j)) mod l_cc h) = TP_STATUS_KERNEL).
  { intros j Hj. rewrite <- (Hfree j) by lia. f_equal. rewrite Zminus_mod_idemp_l.
    rewrite <- (Z.mod_add (l_offset h - 1 - j) 1) by lia. f_equal. lia. }
  set (j := Z.min n (l_cc h - 1)).
  assert (Hu : ring_status status rg ((l_offset h + (l_cc h - 1 - j)) mod l_cc h) = TP_STATUS_USER)
    by (eapply ring_status_user; [exact H|lia]).
  rewrite Hk in Hu by lia. discriminate.
Qed.

(** ** Installing a filter *)

Section Install.
Context `{Alloc} (malloc_ok : bool) (ks : kernel_answers).

Lemma install_program p prog p' : install_bpf_program p prog = (0, p') -> p_fcode p' = Some prog.
Proof.
  unfold install_bpf_program. destruct (negb _); [discriminate|]. destruct (malloc _); [|discriminate].
  now intros [= <-].
Qed.

(** What a successful call leaves: the new program, and where it is run. *)
Lemma setfilter_common_spec h prog k mm h1 k1 : ks_detach ks = true ->
  pcap_setfilter_linux_common malloc_ok ks h (Some prog) mm k = (0, h1, k1) ->
  p_fcode (l_p h1) = Some prog /\ l_cc h1 = l_cc h /\ l_offset h1 = l_offset h /\
  blocks_to_filter_in_userland h1 = blocks_to_filter_in_userland h /\
  (filter_in_userland h1 = true /\ k1 = None \/
   filter_in_userland h1 = false /\ fix_program malloc_ok (cooked h) mm prog = FixOk (default [] k1) /\ k1 <> None).
Proof.
  intros Hd. unfold pcap_setfilter_linux_common.
  destruct (install_bpf_program (l_p h) prog) as [st p'] eqn:Ei.
  destruct (Z.ltb_spec st 0) as [|Hst]; [discriminate|].
  assert (st = 0) as ->.
  { unfold install_bpf_program in Ei. destruct (negb _); [now injection Ei as <- _|].
    destruct (malloc _); injection Ei as <- _; lia. }
  apply install_program in Ei. simpl. rewrite Ei. simpl. unfold reset_kernel_filter. rewrite Hd.
  destruct (65535 <? _); [intros [= <- <-]; simpl; auto 10|].
  destruct (fix_program _ _ _ _) as [| |f] eqn:Ef; [discriminate|intros [= <- <-]; simpl; auto 10|].
  unfold set_kernel_filter, reset_kernel_filter. rewrite Hd.
  destruct (ks_total ks && ks_nonblocking ks && _); simpl; [discriminate|].
  destruct (ks_attach ks); simpl; intros [= <- <-]; simpl; auto 10.
Qed.

(** What a successful call leaves: the ring as it was, the new program, and a filter in
    userland - for good if the program did not get into the kernel, and otherwise for at
    least the blocks the kernel has filled. *)
Lemma setfilter_mmap_spec {A} (status : A -> Z) h rg us kb prog k h1 k1 : ks_detach ks = true ->
  ring_at status h rg us kb ->
  pcap_setfilter_linux_mmap malloc_ok ks (ring_status status rg) h (Some prog) k = (0, h1, k1) ->
  (k1 <> None \/ blocks_to_filter_in_userland h <= 0) ->
  p_fcode (l_p h1) = Some prog /\ ring_at status h1 rg us kb /\ filter_in_userland h1 = true /\
  match k1 with
  | Some kp => fix_program malloc_ok (cooked h) true prog = FixOk kp /\
      0 < blocks_to_filter_in_userland h1 /\ Z.of_nat (List.length us) <= blocks_to_filter_in_userland h1
  | None => blocks_to_filter_in_userland h1 <= 0
  end.
Proof.
  intros Hd Hr. unfold pcap_setfilter_linux_mmap.
  destruct (pcap_setfilter_linux_common _ _ _ _ _ _) as [[st h0] k0] eqn:E.
  destruct (Z.ltb_spec st 0); [intros [= -> -> ->]; lia|].
  destruct (filter_in_userland h0) eqn:Eu.
  - intros [= -> -> ->] Hk. destruct (setfilter_common_spec _ _ _ _ _ _ Hd E) as (Hf & Hc & Ho & Hb & Hcase).
    split; [exact Hf|]. split; [now apply ring_at_same with (h := h)|]. split; [exact Eu|].
    destruct Hcase as [[_ ->]|[Hn _]]; [|congruence]. rewrite Hb. now destruct Hk.
  - intros [= -> <- ->] _. destruct (setfilter_common_spec _ _ _ _ _ _ Hd E) as (Hf & Hc & Ho & Hb & Hcase).
    split; [exact Hf|]. assert (Hr0 : ring_at status h0 rg us kb) by now apply ring_at_same with (h := h).
    split; [now apply ring_at_same with (h := h0)|]. split; [reflexivity|].
    destruct Hcase as [[Ht _]|(_ & Hfix & Hn)]; [congruence|]. destruct k1 as [kp|]; [|contradiction].
    split; [exact Hfix|]. destruct (blocks_counted_enough _ _ _ _ _ Hr0) as [Hge Hpos].
    unfold blocks_counted in Hge, Hpos. split; assumption.
Qed.
End Install.

(** ** A new filter *)

Section Packets.
Context (v2 : bool) (filter_fuel : nat) (mem : list Z).
#[local] Abbreviation packets := (frame_packets filter_fuel mem (usec_of v2) (vlan_of v2)).
#[local] Abbreviation packet := (frame_packet filter_fuel mem (usec_of v2) (vlan_of v2)).

(** How many of the frames the filter in userland sees. *)
Definition to_filter (h : linux_handle) (us : list frame) : nat :=
  if filter_in_userland h
  then if 0 <? blocks_to_filter_in_userland h then Z.to_nat (blocks_to_filter_in_userland h) else List.length us
  else 0%nat.
(** The packets of frames: the first [n] filtered, the others not. *)
Definition packets_from (n : nat) (h : linux_handle) (us : list frame) : delivered :=
  List.concat (packet true h <$> take n us) ++ List.concat (packet false h <$> drop n us).

Lemma packet_count b h f : packet b (count_block h) f = packet b h f.
Proof. rewrite (frame_packet_core _ _ _ _ (usec_of_core v2)), core_count. symmetry. apply frame_packet_core, usec_of_core. Qed.

Lemma packets_from_count n h us : packets_from n (count_block h) us = packets_from n h us.
Proof.
  unfold packets_from. f_equal; f_equal; apply list_fmap_ext; intros; apply packet_count.
Qed.

Lemma packets_split us : forall h, packets h us = packets_from (to_filter h us) h us.
Proof.
  induction us as [|f us IH]; intros h; simpl.
  - unfold packets_from. now rewrite take_nil, drop_nil.
  - rewrite IH, packets_from_count. unfold to_filter. destruct (filter_in_userland h) eqn:Eu.
    + destruct (Z.ltb_spec 0 (blocks_to_filter_in_userland h)) as [Hb|Hb].
      * replace (Z.to_nat (blocks_to_filter_in_userland h))
          with (S (Z.to_nat (blocks_to_filter_in_userland h - 1))) by lia.
        assert (Hn : (if filter_in_userland (count_block h)
                      then if 0 <? blocks_to_filter_in_userland (count_block h)
                           then Z.to_nat (blocks_to_filter_in_userland (count_block h)) else List.length us
                      else 0%nat) = Z.to_nat (blocks_to_filter_in_userland h - 1)).
        { unfold count_block. destruct (Z.ltb_spec 0 (blocks_to_filter_in_userland h)); [|lia]. simpl. rewrite Eu.
          destruct (Z.eqb_spec (blocks_to_filter_in_userland h - 1) 0) as [->|]; [reflexivity|].
          destruct (Z.ltb_spec 0 (blocks_to_filter_in_userland h - 1)); [reflexivity|lia]. }
        rewrite Hn. unfold packets_from. simpl. now rewrite <- app_assoc.
      * unfold count_block. destruct (Z.ltb_spec 0 (blocks_to_filter_in_userland h)); [lia|].
        rewrite Eu. destruct (Z.ltb_spec 0 (blocks_to_filter_in_userland h)); [lia|].
        unfold packets_from. simpl. now rewrite <- app_assoc.
    + replace (filter_in_userland (count_block h)) with false; [reflexivity|].
      unfold count_block. destruct (0 <? _); [|auto]. simpl. rewrite Eu. now destruct (_ =? 0).
Qed.
End Packets.

(** C11: once pcap_setfilter_linux_mmap has succeeded - and, if the program did not get into the
    kernel, no count of blocks was left from an earlier filter - later calls, however many
    they are and whatever arrives in the ring meanwhile, go through the frames that were in
    the ring and those that arrive, in order, and hand on exactly their packets. All of the
    old frames, and perhaps some of the new, are filtered by the new program, on the packet as
    the kernel left it (in cooked mode without the header that is put in front); the others
    come through the kernel, which has the program made from the new one. When the kernel did
    not take it, every frame is filtered. *)
Theorem mmap_new_filter_only `{Alloc} v2 malloc_ok ks h rg us free prog k h1 k1 arrivals poll brk filter_fuel mem fuel
    cnts t h2 rg2 pks t2 :
  ks_detach ks = true -> ring_at tp_status h rg us free ->
  pcap_setfilter_linux_mmap malloc_ok ks (ring_status tp_status rg) h (Some prog) k = (0, h1, k1) ->
  (k1 <> None \/ blocks_to_filter_in_userland h <= 0) ->
  (forall t rg, Forall (is_user tp_status) (arrivals t rg)) ->
  read_calls (fun t h cnt rg u => mmap_read v2 filter_fuel mem brk (kernel_adds tp_status arrivals) poll fuel t h cnt rg u)
    cnts t h1 rg [] = Some (h2, rg2, pks, t2) ->
  p_fcode (l_p h1) = Some prog /\
  match k1 with Some kp => fix_program malloc_ok (cooked h) true prog = FixOk kp | None => True end /\
  exists new gone left free2 n,
    Forall (arrived arrivals) new /\ us ++ new = gone ++ left /\ ring_at tp_status h2 rg2 left free2 /\
    pks = packets_from v2 filter_fuel mem n h1 gone /\
    (List.length us <= n)%nat /\ (k1 = None -> List.length gone <= n)%nat.
Proof.
  intros Hd Hr Hset Hk Hu Hread.
  destruct (setfilter_mmap_spec _ _ _ _ _ _ _ _ _ _ _ Hd Hr Hset Hk) as (Hprog & Hr1 & Hon & Hcount).
  split; [exact Hprog|]. split; [now destruct k1|].
  pose proof (adds_fills tp_status (arrived arrivals) arrivals Hu (fun f H => H)) as Hf.
  rewrite (read_calls_ext _ _ _ (fun t h cnt rg u => mmap_read_frames v2 _ _ _ _ _ _ t h cnt rg u)) in Hread.
  assert (Hrd : exists left free2, ring_at tp_status h2 rg2 left free2 /\
            reads filter_fuel mem (usec_of v2) (vlan_of v2) (arrived arrivals) h1 h2 us left [] pks)
    by (eapply read_calls_reads; [apply usec_of_core|exact Hf|exact Hr1|exact Hread]).
  destruct Hrd as (left & free2 & Hr2 & [_ (new & gone & Hnew & He & _ & ->)]).
  simpl. rewrite packets_split. set (m := to_filter h1 gone).
  exists new, gone, left, free2, (Nat.max m (List.length us)). split; [exact Hnew|]. split; [exact He|]. split; [exact Hr2|].
  assert (Hm : (List.length us <= m \/ m = List.length gone)%nat /\ (k1 = None -> m = List.length gone)).
  { unfold m, to_filter. rewrite Hon. destruct k1 as [kp|].
    - destruct Hcount as (_ & Hpos & Hge). destruct (Z.ltb_spec 0 (blocks_to_filter_in_userland h1)); [|lia].
      split; [left; lia|discriminate].
    - destruct (Z.ltb_spec 0 (blocks_to_filter_in_userland h1)); [lia|auto]. }
  clearbody m. destruct Hm as [Hm Hall]. split; [|split; [lia|intros Hn; rewrite (Hall Hn); lia]].
  destruct Hm as [Hm| ->]; [now rewrite Nat.max_l|].
  unfold packets_from. now rewrite !(take_ge gone), !(drop_ge gone) by lia.
Qed.

(** ** A new filter on blocks of packets *)

Section Blocks.
Context (filter_fuel : nat) (mem : list Z) (brk : delivered -> bool).
(** The handle the program was set on, the blocks that were filled then and what has arrived
    since; [lax] when that has come through the kernel's filter. *)
Context (h0 : linux_handle) (old : list block3) (arrivals : nat -> ring block3 -> list block3) (lax : Prop).

(** Making a packet writes in front of it into the frame; after an error a block is read from
    its start again. [d] may be the bytes of [f] then. *)
Inductive rewritten (h : linux_handle) (f : frame) : list byte -> Prop :=
| rw_none : rewritten h f (tp_bytes f)
| rw_made d hdr pk b : rewritten h f d ->
    make_packet h (set_tp_bytes d f) (usec_of true h f) (vlan_of true f) = Some (PkOk hdr pk b) -> rewritten h f b.

(** A packet of a frame of one of the blocks, with or without a filter in userland. *)
Definition from_blocks (filter : bool) (h : linux_handle) (S : block3 -> Prop) (pk : pcap_pkthdr * list byte) : Prop :=
  exists b f d, S b /\ f ∈ b_packets b /\ rewritten h f d /\
    pk ∈ frame_packet filter_fuel mem (usec_of true) (vlan_of true) filter h (set_tp_bytes d f).

Definition old_or_new (b : block3) : Prop := b ∈ old \/ arrived arrivals b.
Definition good (pk : pcap_pkthdr * list byte) : Prop :=
  from_blocks true h0 old_or_new pk \/ lax /\ from_blocks false h0 (arrived arrivals) pk.

(** A block whose frames have been gone through. *)
Definition touched (b0 b : block3) : Prop :=
  Forall2 (fun f0 f => exists d, rewritten h0 f0 d /\ f = set_tp_bytes d f0) (b_packets b0) (b_packets b).
Definition origin (S : block3 -> Prop) (b : block3) : Prop := exists b0, S b0 /\ touched b0 b.
Abbreviation is_new := (origin (arrived arrivals)).
Definition unfiltered (b : block3) : Prop := lax /\ is_new b.

Lemma touched_refl b : touched b b.
Proof.
  unfold touched. apply Forall_Forall2_diag, Forall_forall. intros f _. exists (tp_bytes f). split; [constructor|].
  now rewrite set_tp_bytes_same.
Qed.

Lemma origin_refl (S : block3 -> Prop) b : S b -> origin S b.
Proof. intros Hb. exists b. split; [exact Hb|apply touched_refl]. Qed.

(** Without the position in a block too. *)
Definition core3 (h : linux_handle) : linux_handle := set_l_block (mk_position None 0) (core h).

Lemma core3_cc h h' : core3 h = core3 h' -> l_cc h = l_cc h'.
Proof. intros H. exact (f_equal l_cc H). Qed.

Lemma frame_packet_core3 filter h f : core3 h = core3 h0 ->
  frame_packet filter_fuel mem (usec_of true) (vlan_of true) filter h f
  = frame_packet filter_fuel mem (usec_of true) (vlan_of true) filter h0 f.
Proof.
  intros Hc. change (frame_packet filter_fuel mem (usec_of true) (vlan_of true) filter h f)
    with (frame_packet filter_fuel mem (usec_of true) (vlan_of true) filter (core3 h) f). now rewrite Hc.
Qed.

Lemma make_packet_core3 h f usec vlan : core3 h = core3 h0 -> make_packet h f usec vlan = make_packet h0 f usec vlan.
Proof.
  intros Hc. change (make_packet h f usec vlan) with (make_packet (core3 h) f usec vlan). now rewrite Hc.
Qed.

Lemma usec_core3 h f : core3 h = core3 h0 -> usec_of true h f = usec_of true h0 f.
Proof. intros Hc. change (usec_of true h f) with (usec_of true (core3 h) f). now rewrite Hc. Qed.

(** A frame handled: its packet, if it is handed on, and its bytes. *)
Lemma handle_v2_good h u f0 d0 ret h' u' d (S : block3 -> Prop) b0 filter :
  core3 h = core3 h0 -> S b0 -> f0 ∈ b_packets b0 -> rewritten h0 f0 d0 -> filter = filter_in_userland h ->
  handle_v2 filter_fuel mem (recorder brk) h u (set_tp_bytes d0 f0) = Handled ret h' u' d ->
  core h' = core h /\ userland h' = userland h /\ l_offset h' = l_offset h /\ rewritten h0 f0 d /\
  exists new, u' = u ++ new /\ Forall (from_blocks filter h0 S) new.
Proof.
  intros Hc HS Hf Hw -> E. set (f := set_tp_bytes d0 f0) in E.
  destruct (handle_frame_spec filter_fuel mem brk (usec_of true) (vlan_of true) h u f ret h' u' d E) as (H1 & H2 & H3 & H4).
  split; [exact H1|]. split; [exact H2|]. split; [exact H3|]. split.
  - destruct (handle_frame_bytes filter_fuel mem brk (usec_of true) (vlan_of true) h u f ret h' u' d E) as [->|(hdr & pk & Hm)].
    + exact Hw.
    + apply rw_made with d0 hdr pk; [exact Hw|]. rewrite <- Hm. rewrite (make_packet_core3 h) by exact Hc.
      now rewrite <- (usec_core3 h) by exact Hc.
  - destruct (ret <? 0).
    + destruct H4 as [-> _]. exists []. rewrite app_nil_r. auto.
    + destruct H4 as [-> _]. eexists. split; [reflexivity|]. rewrite frame_packet_core3 by exact Hc.
      apply Forall_forall. intros pk Hpk. now exists b0, f0, d0.
Qed.

(** What handling packets of the block [b] keeps and hands on. *)
Record handles (h h' : linux_handle) (b b' : block3) (u u' : delivered) : Prop := {
  hd_core : core3 h' = core3 h; hd_userland : userland h' = userland h; hd_offset : l_offset h' = l_offset h;
  hd_status : b_status b' = b_status b; hd_touched : forall b0, touched b0 b -> touched b0 b';
  hd_new : exists new, u' = u ++ new /\ Forall good new }.

Lemma handles_refl h b u : handles h h b b u u.
Proof. split; auto. exists []. rewrite app_nil_r. auto. Qed.

Lemma handles_trans h h1 h2 b b1 b2 u u1 u2 :
  handles h h1 b b1 u u1 -> handles h1 h2 b1 b2 u1 u2 -> handles h h2 b b2 u u2.
Proof.
  intros [C1 U1 O1 S1 P1 (n1 & -> & G1)] [C2 U2 O2 S2 P2 (n2 & -> & G2)].
  split; [congruence..|auto|]. exists (n1 ++ n2). rewrite app_assoc. split; [reflexivity|].
  now apply Forall_app.
Qed.

Lemma handles_origin h h' b b' u u' (S : block3 -> Prop) : handles h h' b b' u u' -> origin S b -> origin S b'.
Proof. intros Hh (b0 & Hb & Ht). exists b0. split; [exact Hb|]. now apply (hd_touched _ _ _ _ _ _ Hh). Qed.

(** Packets of a block are good when they are filtered or the block is new. *)
Lemma step_v3_handles h b u pkts ret h' b' u' pkts' : core3 h = core3 h0 -> origin old_or_new b ->
  (filter_in_userland h = true \/ unfiltered b) ->
  step_v3 filter_fuel mem (recorder brk) h b u pkts = inr (ret, h', b', u', pkts') -> handles h h' b b' u u'.
Proof.
  intros Hc Ho Hf. unfold step_v3. destruct (bp_current _) as [i|]; [|discriminate].
  destruct (b_packets b !! i) as [f|] eqn:Ef; [|discriminate].
  destruct (handle_v2 _ _ _ _ _ _) as [r h1 u1 d| |] eqn:E; [|discriminate..].
  assert (Hany : forall (S : block3 -> Prop) b0, S b0 -> touched b0 b ->
    core h1 = core h /\ userland h1 = userland h /\ l_offset h1 = l_offset h /\
    touched b0 (set_b_packets (<[i := set_tp_bytes d f]> (b_packets b)) b) /\
    exists new, u1 = u ++ new /\ Forall (from_blocks (filter_in_userland h) h0 S) new).
  { intros S b0 HS Ht. destruct (Forall2_lookup_r _ _ _ _ _ Ht Ef) as (f0 & Hf0 & d0 & Hw & ->).
    destruct (handle_v2_good h u f0 d0 r h1 u1 d S b0 _ Hc HS (list_elem_of_lookup_2 _ _ _ Hf0) Hw eq_refl E)
      as (C & U & O & Hw' & N).
    repeat (split; [assumption|]). split; [|exact N].
    unfold touched. cbn [set_b_packets b_packets]. rewrite <- (list_insert_id _ _ _ Hf0).
    apply Forall2_insert; [exact Ht|]. now exists d. }
  assert (Hset : forall b0, touched b0 b -> touched b0 (set_b_packets (<[i := set_tp_bytes d f]> (b_packets b)) b)).
  { intros b0 Ht. now destruct (Hany (fun _ => True) b0 I Ht) as (_ & _ & _ & ? & _). }
  assert (Hgood : exists new, u1 = u ++ new /\ Forall good new).
  { destruct Hf as [Hf|[Hlax (b0 & HS & Ht)]].
    - destruct Ho as (b0 & HS & Ht). destruct (Hany _ b0 HS Ht) as (_ & _ & _ & _ & new & -> & Hn).
      exists new. split; [reflexivity|]. eapply Forall_impl; [exact Hn|]. rewrite Hf. now left.
    - destruct (filter_in_userland h) eqn:Eu.
      + destruct Ho as (b1 & HS1 & Ht1). destruct (Hany _ b1 HS1 Ht1) as (_ & _ & _ & _ & new & -> & Hn).
        exists new. split; [reflexivity|]. eapply Forall_impl; [exact Hn|]. now left.
      + destruct (Hany _ b0 HS Ht) as (_ & _ & _ & _ & new & -> & Hn).
        exists new. split; [reflexivity|]. eapply Forall_impl; [exact Hn|]. now right. }
  destruct Ho as (b0 & HS & Ht). destruct (Hany _ b0 HS Ht) as (C & U & O & _ & _).
  assert (C3 : core3 h1 = core3 h) by (unfold core3; now rewrite C).
  destruct (r <? 0); intros [= <- <- <- <- <-];
    (split; [exact C3||(destruct (r =? 1); exact C3)|exact U||(destruct (r =? 1); exact U)|
             exact O||(destruct (r =? 1); exact O)|reflexivity|exact Hset|exact Hgood]).
Qed.

Lemma packets_v3_handles n : forall h b u pkts ret h' b' u' pkts', core3 h = core3 h0 -> origin old_or_new b ->
  (filter_in_userland h = true \/ unfiltered b) ->
  packets_v3 filter_fuel mem (recorder brk) n h b u pkts = inr (ret, h', b', u', pkts') -> handles h h' b b' u u'.
Proof.
  induction n as [|n IH]; intros h b u pkts ret h' b' u' pkts' Hc Ho Hf; simpl; [intros [= <- <- <- <- <-]; apply handles_refl|].
  destruct (step_v3 _ _ _ _ _ _ _) as [|[[[[r h1] b1] u1] p1]] eqn:E; [discriminate|].
  pose proof (step_v3_handles _ _ _ _ _ _ _ _ _ Hc Ho Hf E) as Hs.
  destruct (r <? 0); [now intros [= <- <- <- <- <-]|]. intros Hr.
  eapply handles_trans; [exact Hs|]. eapply IH; [| | |exact Hr].
  - rewrite (hd_core _ _ _ _ _ _ Hs). exact Hc.
  - now apply (handles_origin _ _ _ _ _ _ _ Hs).
  - destruct Hf as [Hu|[Hl Hn]]; [left|right; split; [exact Hl|now apply (handles_origin _ _ _ _ _ _ _ Hs)]].
    pose proof (hd_userland _ _ _ _ _ _ Hs) as Hue. injection Hue as -> _. exact Hu.
Qed.

(** Neither function returns for the caller. *)
Lemma packets_v3_stops n : forall h b u pkts r, packets_v3 filter_fuel mem (recorder brk) n h b u pkts = inl r ->
  match r with RingRet _ _ _ _ _ => False | _ => True end.
Proof.
  induction n as [|n IH]; intros h b u pkts r; simpl; [discriminate|].
  destruct (step_v3 _ _ _ _ _ _ _) as [r'|[[[[r' h1] b1] u1] p1]] eqn:E.
  - intros [= <-]. unfold step_v3 in E. destruct (bp_current _); [|now injection E as <-].
    destruct (_ !! _); [|now injection E as <-]. destruct (handle_v2 _ _ _ _ _ _); [|injection E as <-; exact I..].
    now destruct (_ <? 0).
  - destruct (r' <? 0); [discriminate|apply IH].
Qed.

Context (kernel_users : forall t rg, Forall (is_user b_status) (arrivals t rg)) (poll : nat -> Z -> poll_answer * bool).
#[local] Abbreviation kernel := (kernel_adds b_status arrivals).

(** Between calls: the filled blocks, and those that may come, are filtered in userland or new;
    each is one of the old or of those that arrived, and what has been handed on is good. *)
Definition v3_inv (h : linux_handle) (rg : ring block3) (u : delivered) (us : list block3) : Prop :=
  (exists ks, ring_at b_status h rg us ks) /\ (forall new, Forall is_new new -> covered unfiltered h (us ++ new)) /\
  Forall (origin old_or_new) us /\ core3 h = core3 h0 /\ Forall good u.

Lemma v3_inv_same h h' rg u us : core3 h' = core3 h -> userland h' = userland h -> l_offset h' = l_offset h ->
  v3_inv h rg u us -> v3_inv h' rg u us.
Proof.
  intros Hc Hu Ho ([ks Hr] & Hcov & Hor & Hc0 & Hg). split; [|split; [|split; [exact Hor|split; [congruence|exact Hg]]]].
  - exists ks. apply ring_at_same with (h := h); [symmetry; now apply core3_cc|auto|exact Hr].
  - intros new Hn. apply covered_ext with (h := h); [auto|now apply Hcov].
Qed.

Lemma v3_inv_kernel t h rg u us : v3_inv h rg u us -> exists new, v3_inv h (kernel t rg) u (us ++ new).
Proof.
  intros ([ks Hr] & Hcov & Hor & Hc0 & Hg).
  pose proof (adds_fills b_status (arrived arrivals) arrivals kernel_users (fun b H => H)) as Hfills.
  destruct (fills_at _ _ _ t _ _ _ _ Hfills Hr) as (new & ks' & Hn & Hr').
  exists new. split; [eauto|]. split; [|split; [|auto]].
  - intros new' Hn'. rewrite <- app_assoc. apply Hcov. apply Forall_app. split; [|exact Hn'].
    eapply Forall_impl; [exact Hn|]. apply origin_refl.
  - apply Forall_app. split; [exact Hor|]. eapply Forall_impl; [exact Hn|]. intros b Hb. apply origin_refl. now right.
Qed.

Lemma v3_inv_head h rg u us b : v3_inv h rg u us -> get_block rg (l_offset h) = Some b ->
  match us with [] => status_of (b_status b) = TP_STATUS_KERNEL | b' :: _ => b' = b end.
Proof.
  intros ([ks Hr] & _) Hb. rewrite (ring_at_head _ _ _ _ _ Hr) in Hb.
  destruct us as [|b' us]; [|simpl in Hb; congruence]. destruct ks as [|b' ks]; [discriminate|]. injection Hb as ->.
  pose proof (ra_kernel _ _ _ _ _ Hr) as Hk. now inversion Hk.
Qed.

(** The packets of the current block handled: it is kept or handed back. *)
Lemma v3_inv_handled h h' rg b b' u u' us : v3_inv h rg u (b :: us) -> handles h h' b b' u u' ->
  v3_inv h' (put_block rg (l_offset h') b') u' (b' :: us) /\
  v3_inv (next_block (count_block h')) (put_block rg (l_offset h') (set_b_status TP_STATUS_KERNEL b')) u' us.
Proof.
  intros ([ks Hr] & Hcov & Hor & Hc0 & Hg) Hh. pose proof Hh as [C U O S _ (new & -> & Gn)].
  assert (Hr' : ring_at b_status h' rg (b :: us) ks)
    by (apply ring_at_same with (h := h); [symmetry; now apply core3_cc|auto|exact Hr]).
  assert (Hg' : Forall good (u ++ new)) by now apply Forall_app.
  assert (Hub : is_user b_status b') by
    (unfold is_user; rewrite S; pose proof (ra_user _ _ _ _ _ Hr) as Hu; now inversion Hu).
  apply Forall_cons in Hor. destruct Hor as [Hob Hor]. split.
  - split; [exists ks; now apply update_at with (f := b)|]. split; [|split; [|split; [congruence|exact Hg']]].
    + intros new' Hn'. destruct (Hcov new' Hn') as [Hc1 Hcov']. split.
      * destruct Hc1 as [Hc1|[Hl Hn1]]; [left; now injection U as -> _|right; split; [exact Hl|]].
        now apply (handles_origin _ _ _ _ _ _ _ Hh).
      * apply covered_ext with (h := count_block h); [symmetry; now apply userland_count|exact Hcov'].
    + constructor; [now apply (handles_origin _ _ _ _ _ _ _ Hh)|exact Hor].
  - assert (Hcn : l_cc (count_block h') = l_cc h' /\ l_offset (count_block h') = l_offset h')
      by (unfold count_block; destruct (0 <? _); simpl; auto).
    split; [|split; [|split; [exact Hor|split; [|exact Hg']]]].
    + eexists. apply ring_at_same with (h := next_block h').
      1,2: unfold next_block; simpl; destruct Hcn as [Hc1 Hc2]; rewrite ?Hc1, ?Hc2; reflexivity.
      apply release_at with (f := b); [exact Hr'|reflexivity].
    + intros new' Hn'. destruct (Hcov new' Hn') as [_ Hcov'].
      apply covered_ext with (h := count_block h); [|exact Hcov']. symmetry. now apply userland_count.
    + unfold core3. rewrite core_next, core_count. exact (eq_trans C Hc0).
Qed.

(** One round of the outer loop on the block [b], the handle being in it. *)
Lemma v3_round h rg b u us n pkts r h1 b1 u1 p1 : v3_inv h rg u (b :: us) ->
  packets_v3 filter_fuel mem (recorder brk) n h b u pkts = inr (r, h1, b1, u1, p1) ->
  v3_inv h1 (put_block rg (l_offset h1) b1) u1 (b1 :: us) /\
  v3_inv (next_block (count_block h1)) (put_block rg (l_offset h1) (set_b_status TP_STATUS_KERNEL b1)) u1 us.
Proof.
  intros Hi E. apply v3_inv_handled with (h := h) (b := b) (u := u); [exact Hi|].
  destruct Hi as (_ & Hcov & Hor & Hc0 & _). destruct (Hcov [] ltac:(constructor)) as [Hc _].
  apply Forall_cons in Hor. destruct Hor as [Hob _].
  exact (packets_v3_handles _ _ _ _ _ _ _ _ _ _ Hc0 Hob Hc E).
Qed.

Lemma blocks_loop_inv max fuel : forall t pkts h rg u us ret h' rg' u' t',
  v3_inv h rg u us -> (bp_current (l_block h) = None \/ us <> []) ->
  blocks_loop filter_fuel mem (recorder brk) kernel fuel t max pkts h rg u = RingRet ret h' rg' u' t' ->
  exists us', v3_inv h' rg' u' us'.
Proof.
  induction fuel as [|fuel IH]; intros t pkts h rg u us ret h' rg' u' t' Hi Hcur; simpl; [discriminate|].
  destruct (negb _); [intros [= <- <- <- <- <-]; eauto|].
  set (fresh := match bp_current (l_block h) with None => true | Some _ => false end).
  assert (Hk : exists us1, v3_inv h (if fresh then kernel t rg else rg) u us1 /\ (fresh = true \/ us1 <> [])).
  { unfold fresh. destruct (bp_current _) eqn:E; [|destruct (v3_inv_kernel t _ _ _ _ Hi) as [new Hn]; eauto].
    destruct Hcur as [|Hne]; [congruence|eauto]. }
  clearbody fresh. destruct Hk as (us1 & Hi1 & Hne). set (rg1 := if fresh then kernel t rg else rg) in *. clearbody rg1.
  destruct (get_block rg1 (l_offset h)) as [b|] eqn:Eb; [|discriminate].
  pose proof (v3_inv_head _ _ _ _ _ Hi1 Eb) as Hh.
  destruct (fresh && negb _) eqn:Est; [intros [= <- <- <- <- <-]; eauto|].
  destruct us1 as [|b' us1].
  { destruct Hne as [->|Hne]; [|contradiction]. rewrite Hh in Est. discriminate. }
  subst b'. set (h1 := if fresh then enter_block h b else h).
  assert (Hi2 : v3_inv h1 rg1 u (b :: us1)) by (unfold h1; destruct fresh; [now apply v3_inv_same with (h := h)|exact Hi1]).
  replace (l_offset h) with (l_offset h1) by (unfold h1; now destruct fresh). clearbody h1.
  set (n := if negb _ && _ then max else _). destruct (n <? 0); [discriminate|].
  destruct (packets_v3 _ _ _ _ _ _ _ _) as [r|[[[[r h2] b2] u2] p2]] eqn:E.
  { intros ->. apply packets_v3_stops in E. contradiction. }
  destruct (v3_round _ _ _ _ _ _ _ _ _ _ _ _ Hi2 E) as [Hkeep Hback].
  destruct (r <? 0); [intros [= <- <- <- <- <-]; eauto|].
  destruct (bp_left (l_block h2) <=? 0).
  - destruct (p_break_loop _).
    + intros [= <- <- <- <- <-]. exists us1. now apply v3_inv_same with (h := next_block (count_block h2)).
    + apply IH with (us := us1); [|now left]. now apply v3_inv_same with (h := next_block (count_block h2)).
  - destruct (p_break_loop _).
    + intros [= <- <- <- <- <-]. exists (b2 :: us1). now apply v3_inv_same with (h := h2).
    + apply IH with (us := b2 :: us1); [exact Hkeep|now right].
Qed.

Lemma wait_inv fuel t h rg u us ret h1 rg1 t1 : v3_inv h rg u us ->
  pcap_wait_for_frames_mmap kernel poll b_status fuel t h rg = Some (ret, h1, rg1, t1) ->
  (exists us', v3_inv h1 rg1 u us') /\ l_block h1 = l_block h.
Proof.
  intros Hi. unfold pcap_wait_for_frames_mmap. destruct (v3_inv_kernel t _ _ _ _ Hi) as [new Hn].
  destruct (get_block _ _); [|discriminate]. simpl. destruct (_ =? _); [intros [= <- <- <- <-]; eauto|].
  destruct (poll_loop _ _ _ _) as [[[r h2] t2]|] eqn:Ep; [|discriminate]. intros [= <- <- <- <-].
  destruct (poll_loop_same _ _ _ _ _ _ _ Ep) as (C & U & O). split.
  - eexists. apply v3_inv_same with (h := h); [unfold core3; now rewrite C|exact U|exact O|exact Hn].
  - exact (f_equal l_block C).
Qed.

Lemma read_v3_inv fuel t h max rg u us ret h' rg' u' t' : v3_inv h rg u us ->
  pcap_read_linux_mmap_v3 filter_fuel mem (recorder brk) kernel poll fuel t h max rg u = RingRet ret h' rg' u' t' ->
  exists us', v3_inv h' rg' u' us'.
Proof.
  intros Hi. unfold pcap_read_linux_mmap_v3.
  set (w := match bp_current (l_block h) with None => _ | Some _ => _ end).
  assert (Hw : forall ret h1 rg1 t1, w = Some (ret, h1, rg1, t1) -> exists us', v3_inv h1 rg1 u us').
  { intros r h1 rg1 t1. unfold w. destruct (bp_current _); [intros [= <- <- <- <-]; eauto|].
    intros E. exact (proj1 (wait_inv _ _ _ _ _ _ _ _ _ _ Hi E)). }
  clearbody w. destruct w as [[[[r h1] rg1] t1]|]; [|discriminate].
  destruct (Hw _ _ _ _ eq_refl) as [us1 Hi1]. destruct (negb _); [intros [= <- <- <- <- <-]; eauto|].
  destruct (v3_inv_kernel t1 _ _ _ _ Hi1) as [new Hn].
  destruct (get_block _ _) as [b|] eqn:Eb; [|discriminate].
  pose proof (v3_inv_head _ _ _ _ _ Hn Eb) as Hh.
  destruct (status_of (b_status b) =? TP_STATUS_USER) eqn:Es; simpl; [|intros [= <- <- <- <- <-]; eauto].
  apply blocks_loop_inv with (us := us1 ++ new); [exact Hn|right].
  intros He. rewrite He in Hh. rewrite Hh in Es. discriminate.
Qed.

Lemma calls_v3_inv fuel cnts : forall t h rg u us h' rg' u' t', v3_inv h rg u us ->
  read_calls (fun t h cnt rg u => pcap_read_linux_mmap_v3 filter_fuel mem (recorder brk) kernel poll fuel t h cnt rg u)
    cnts t h rg u = Some (h', rg', u', t') -> exists us', v3_inv h' rg' u' us'.
Proof.
  induction cnts as [|cnt cnts IH]; intros t h rg u us h' rg' u' t' Hi; cbn [read_calls]; [intros [= <- <- <- <-]; eauto|].
  destruct (pcap_read_linux_mmap_v3 _ _ _ _ _ _ _ _ _ _ _) as [r h1 rg1 u1 t1| | |] eqn:E; try discriminate.
  destruct (read_v3_inv _ _ _ _ _ _ _ _ _ _ _ _ Hi E) as [us1 Hi1]. apply IH with (us := us1). exact Hi1.
Qed.
End Blocks.

(** C12: the same for the blocks of TPACKET_V3, however a call ends within a block and whether the
    next one goes on in it or, after an error, starts it again. Once pcap_setfilter_linux_mmap
    has succeeded - and, if the program did not get into the kernel, no count of blocks was
    left from an earlier filter - every packet later calls hand on is that of a frame of a
    block that was filled then or has arrived since, and the new program accepts it as the
    kernel left it; only when the program is in the kernel may it, instead, be that of a block
    which has arrived since, and so has passed the program made from the new one. *)
Theorem mmap_v3_new_filter_only `{Alloc} malloc_ok ks h rg us free prog k h1 k1 arrivals poll brk filter_fuel mem fuel
    cnts t h2 rg2 pks t2 :
  ks_detach ks = true -> ring_at b_status h rg us free ->
  pcap_setfilter_linux_mmap malloc_ok ks (ring_status b_status rg) h (Some prog) k = (0, h1, k1) ->
  (k1 <> None \/ blocks_to_filter_in_userland h <= 0) ->
  (forall t rg, Forall (is_user b_status) (arrivals t rg)) ->
  read_calls (fun t h cnt rg u =>
      pcap_read_linux_mmap_v3 filter_fuel mem (recorder brk) (kernel_adds b_status arrivals) poll fuel t h cnt rg u)
    cnts t h1 rg [] = Some (h2, rg2, pks, t2) ->
  p_fcode (l_p h1) = Some prog /\
  match k1 with Some kp => fix_program malloc_ok (cooked h) true prog = FixOk kp | None => True end /\
  Forall (fun pk => from_blocks filter_fuel mem true h1 (fun b => b ∈ us \/ arrived arrivals b) pk \/
                    k1 <> None /\ from_blocks filter_fuel mem false h1 (arrived arrivals) pk) pks.
Proof.
  intros Hd Hr Hset Hk Hu Hread.
  destruct (setfilter_mmap_spec _ _ _ _ _ _ _ _ _ _ _ Hd Hr Hset Hk) as (Hprog & Hr1 & Hon & Hcount).
  split; [exact Hprog|]. split; [now destruct k1|].
  assert (Hi : v3_inv filter_fuel mem h1 us arrivals (k1 <> None) h1 rg [] us).
  { split; [eauto|]. split; [|split; [|split; [reflexivity|constructor]]].
    - intros new Hn. destruct k1 as [kp|]; [|now apply covered_always].
      destruct Hcount as (_ & _ & Hge). apply covered_rest; [exact Hon|]. rewrite drop_app_ge by lia.
      apply Forall_drop. eapply Forall_impl; [exact Hn|]. intros b Hb. split; [discriminate|exact Hb].
    - apply Forall_forall. intros b Hb. apply origin_refl. now left. }
  destruct (calls_v3_inv filter_fuel mem brk h1 us arrivals (k1 <> None) Hu poll _ _ _ _ _ _ _ _ _ _ _ Hi Hread)
    as [us' (_ & _ & _ & _ & Hg)]. exact Hg.
Qed.

(** ** What is handed on *)

Section Order.
Context (v2 : bool) (filter_fuel : nat) (mem : list Z).
#[local] Abbreviation packet_made h f := (make_packet h f (usec_of v2 h f) (vlan_of v2 f)).
#[local] Abbreviation packets := (frame_packets filter_fuel mem (usec_of v2) (vlan_of v2)).
#[local] Abbreviation packet := (frame_packet filter_fuel mem (usec_of v2) (vlan_of v2)).

(** A frame whose packet can be handed on: its lengths fit, the filter returns, there is room. *)
Definition frame_ready (h : linux_handle) (f : frame) : Prop :=
  (u32 (p_bufsize (l_p h)) <? u32 (tp_mac f + tp_snaplen f)) = false /\
  (exists b, accepts filter_fuel mem (l_p h) (mk_pkthdr 0 0 (tp_snaplen f) (tp_len f))
               (drop (Z.to_nat (tp_mac f)) (tp_bytes f)) = inr b) /\
  exists hdr d b, packet_made h f = Some (PkOk hdr d b).

Lemma frame_ready_core h h' f : core h = core h' -> frame_ready h f -> frame_ready h' f.
Proof.
  intros Hc. unfold frame_ready.
  change (accepts filter_fuel mem (l_p h)) with (accepts filter_fuel mem (l_p (core h))).
  change (accepts filter_fuel mem (l_p h')) with (accepts filter_fuel mem (l_p (core h'))).
  change (p_bufsize (l_p h)) with (p_bufsize (l_p (core h))).
  change (p_bufsize (l_p h')) with (p_bufsize (l_p (core h'))).
  change (packet_made h f) with (make_packet (core h) f (usec_of v2 h f) (vlan_of v2 f)).
  change (packet_made h' f) with (make_packet (core h') f (usec_of v2 h' f) (vlan_of v2 f)).
  rewrite (usec_of_core v2 h), (usec_of_core v2 h'), Hc. auto.
Qed.

Lemma handle_ready h u f : frame_ready h f ->
  exists b, handle_frame filter_fuel mem (fun _ => false) (usec_of v2) (vlan_of v2) h u f
    = let pk := packet (filter_in_userland h) h f in Handled (Z.of_nat (List.length pk)) h (u ++ pk) b.
Proof.
  intros (Hfit & [acc Hacc] & (hdr & d & b & Hmk)).
  unfold handle_frame, pcap_handle_packet_mmap, userland_accepts, frame_packet, accepted. rewrite Hfit, Hacc, Hmk.
  assert (Hnil : Handled 0 h u (tp_bytes f) = Handled (Z.of_nat 0) h (u ++ []) (tp_bytes f)) by now rewrite app_nil_r.
  destruct (filter_in_userland h); simpl; [destruct acc; simpl|];
    [destruct (linux_check_direction h _); simpl; [now exists b|eauto]|eauto|
     destruct (linux_check_direction h _); simpl; [now exists b|eauto]].
Qed.

Context (kernel : nat -> ring frame -> ring frame) (Hquiet : forall t rg, kernel t rg = rg).

(** The loop over [us] when nothing is added. *)
Lemma frames_loop_quiet us : forall fuel t max pkts h rg u free,
  ring_at tp_status h rg us free -> Forall (frame_ready h) us -> p_break_loop (l_p h) = false -> max <= 0 ->
  (List.length us < fuel)%nat -> 0 <= pkts -> pkts + Z.of_nat (List.length us) < 2 ^ 31 ->
  exists h' rg' t' free', frames_loop kernel (handle_frame filter_fuel mem (fun _ => false) (usec_of v2) (vlan_of v2))
      fuel t max pkts h rg u
    = RingRet (pkts + Z.of_nat (List.length (packets h us))) h' rg' (u ++ packets h us) t' /\
    ring_at tp_status h' rg' [] free'.
Proof.
  induction us as [|f us IH]; intros fuel t max pkts h rg u free Hr Hall Hb Hmax Hfuel Hp Hbound;
    (destruct fuel as [|fuel]; [simpl in Hfuel; lia|]); simpl;
    (assert (Hu : PACKET_COUNT_IS_UNLIMITED max = true) by (unfold PACKET_COUNT_IS_UNLIMITED; lia));
    rewrite Hu, orb_true_r, Hquiet, (ring_at_head _ _ _ _ _ Hr).
  - destruct free as [|f free]; simpl.
    + pose proof (ring_at_length _ _ _ _ _ Hr) as Hl. pose proof (ra_offset _ _ _ _ _ Hr).
      pose proof (ra_cc _ _ _ _ _ Hr). simpl in Hl. lia.
    + pose proof (ra_kernel _ _ _ _ _ Hr) as Hk. inversion Hk as [|? ? Hf _]; subst.
      unfold is_kernel in Hf. rewrite Hf. simpl. rewrite Z.add_0_r, app_nil_r. eauto 10.
  - simpl. pose proof (ra_user _ _ _ _ _ Hr) as Hus. inversion Hus as [|? ? Hf _]; subst.
    unfold is_user in Hf. rewrite Hf. simpl. inversion Hall as [|? ? Hfr Hall']; subst.
    destruct (handle_ready h u f Hfr) as (b & Eh). simpl in Eh. rewrite Eh.
    set (pk := packet (filter_in_userland h) h f) in *.
    assert (Hpk : (List.length pk <= 1)%nat).
    { subst pk. unfold frame_packet. destruct (_ && _); [|simpl; lia].
      destruct (packet_made h f) as [[]|]; simpl; lia. }
    destruct (Z.ltb_spec (Z.of_nat (List.length pk)) 0); [lia|].
    pose proof (frame_step _ _ _ _ _ (fun _ => True) _ _ _ _ _ _ _ _ _ _ Hr Eh) as Hs.
    destruct (Z.ltb_spec (Z.of_nat (List.length pk)) 0); [lia|].
    simpl in Hfuel, Hbound.
    assert (Hm : exists m, (if Z.of_nat (List.length pk) =? 1 then set_packets_read (u32 (packets_read h + 1)) h else h)
                           = set_packets_read m h).
    { destruct (_ =? 1); [now eexists|exists (packets_read h); now destruct h]. }
    destruct Hm as (m & ->). destruct (Hs m) as [Hr' Hrd]. specialize (Hr' false). specialize (Hrd false).
    set (h2 := next_block (count_block (set_packets_read m h))) in *.
    assert (Hb2 : p_break_loop (l_p h2) = false).
    { subst h2. unfold next_block, count_block. destruct (0 <? _); exact Hb. }
    change (p_break_loop (l_p (count_block (set_packets_read m h)))) with (p_break_loop (l_p h2)).
    rewrite Hb2. rewrite set_l_break_same in Hr', Hrd by exact Hb2.
    assert (Hc2 : core h2 = core h) by exact (rd_core _ _ _ _ _ _ _ _ _ _ _ Hrd).
    assert (Hpkts : (if Z.of_nat (List.length pk) =? 1 then s32 (pkts + 1) else pkts) = pkts + Z.of_nat (List.length pk)).
    { destruct (Z.eqb_spec (Z.of_nat (List.length pk)) 1) as [->|]; [apply s32_id; lia|lia]. }
    rewrite Hpkts.
    destruct (IH fuel (S t) max (pkts + Z.of_nat (List.length pk)) h2 _ (u ++ pk) _ Hr') as (h' & rg' & t' & free' & E & Hr2);
      [|exact Hb2|exact Hmax|lia|lia|lia|].
    { eapply Forall_impl; [exact Hall'|]. intros g. now apply frame_ready_core. }
    assert (Hps : packets h2 us = packets (count_block h) us).
    { apply frame_packets_ext with (1 := usec_of_core v2); [now rewrite core_count|].
      unfold h2. change (userland (count_block (set_packets_read m h)) = userland (count_block h)).
      now apply userland_count. }
    rewrite Hps in E. exists h', rg', t', free'. split; [|exact Hr2].
    etransitivity; [exact E|]. rewrite length_app, Nat2Z.inj_add, Z.add_assoc, app_assoc. reflexivity.
Qed.
End Order.

(** C13: reading the ring without a limit, while the kernel adds nothing: the call returns, hands
    on the packets of the filled frames in the order of the ring, those of the first blocks
    counted for it filtered in userland and the others as they are (all of them filtered when
    filtering is in userland for good, none when it is in the kernel), returns their number,
    and leaves every frame to the kernel. *)
Theorem mmap_read_in_order v2 filter_fuel mem kernel poll h rg us free max fuel t u :
  (forall t rg, kernel t rg = rg) ->
  ring_at tp_status h rg us free -> us <> [] -> Forall (frame_ready v2 filter_fuel mem h) us ->
  p_break_loop (l_p h) = false -> max <= 0 -> (List.length us < fuel)%nat -> Z.of_nat (List.length us) < 2 ^ 31 ->
  let pks := packets_from v2 filter_fuel mem (to_filter h us) h us in
  exists h' rg' t', mmap_read v2 filter_fuel mem (fun _ => false) kernel poll fuel t h max rg u
    = RingRet (Z.of_nat (List.length pks)) h' rg' (u ++ pks) t' /\ Forall (is_kernel tp_status) (rg_blocks rg').
Proof.
  intros Hq Hr Hne Hall Hb Hmax Hfuel Hlen pks. rewrite mmap_read_frames. unfold read_frames, pcap_wait_for_frames_mmap.
  rewrite Hq, (ring_at_head _ _ _ _ _ Hr). destruct us as [|f us]; [contradiction|]. simpl.
  pose proof (ra_user _ _ _ _ _ Hr) as Hu. inversion Hu as [|? ? Hf _]; subst. unfold is_user in Hf. rewrite Hf. simpl.
  destruct (frames_loop_quiet v2 filter_fuel mem kernel Hq (f :: us) fuel (S t) max 0 h rg u free Hr Hall Hb Hmax Hfuel)
    as (h' & rg' & t' & free' & E & Hr'); [lia|lia|].
  rewrite packets_split, Z.add_0_l in E. exists h', rg', t'. split; [exact E|].
  pose proof (ra_kernel _ _ _ _ _ Hr') as Hk. rewrite <- (ra_list _ _ _ _ _ Hr' : _ = free') in Hk.
  apply Forall_forall. intros g Hg. rewrite Forall_forall in Hk. apply Hk. now apply elem_of_rotate.
Qed.

(** ** The packet made of a frame *)

Lemma peek_app (pre a c : list byte) i : i = Z.of_nat (List.length pre) ->
  peek (pre ++ a ++ c) i (Z.of_nat (List.length a)) = Some a.
Proof.
  intros ->. unfold peek. rewrite !length_app, !Nat2Z.id.
  replace ((0 <=? _) && (0 <=? _) && (_ <=? _)) with true by lia.
  now rewrite drop_app_length, take_app_length.
Qed.

Lemma poke_app (pre x y c : list byte) i : i = Z.of_nat (List.length pre) -> List.length x = List.length y ->
  poke (pre ++ x ++ c) i y = Some (pre ++ y ++ c).
Proof.
  intros -> Hl. unfold poke. rewrite !length_app, Nat2Z.id.
  replace ((0 <=? _) && (_ <=? _)) with true by lia.
  rewrite take_app_length, <- drop_drop, drop_app_length, <- Hl, drop_app_length. reflexivity.
Qed.

Definition vlan_tag (tci : Z) : list byte := htons_bytes ETH_P_8021Q ++ htons_bytes tci.

Lemma insert_vlan_tag_spec (pre x a c : list byte) bp n tci : List.length x = 4%nat ->
  bp = Z.of_nat (List.length pre) + 4 -> n = Z.of_nat (List.length a) ->
  insert_vlan_tag (pre ++ x ++ a ++ c) bp n tci = Some (pre ++ a ++ vlan_tag tci ++ c, Z.of_nat (List.length pre)).
Proof.
  intros Hx -> ->. unfold insert_vlan_tag, VLAN_TAG_LEN.
  rewrite (app_assoc pre x). rewrite peek_app by (rewrite length_app; lia). simpl. rewrite <- app_assoc.
  set (y := take (List.length a) (x ++ a)). set (z := drop (List.length a) (x ++ a)).
  assert (Hyz : x ++ a ++ c = y ++ z ++ c) by (rewrite (app_assoc x), (app_assoc y); unfold y, z; now rewrite take_drop).
  assert (Hy : List.length y = List.length a) by (unfold y; rewrite length_take, length_app; lia).
  assert (Hz : List.length z = 4%nat) by (unfold z; rewrite length_drop, length_app; lia).
  rewrite Hyz, poke_app by (exact Hy || lia). simpl.
  rewrite (app_assoc pre a). rewrite (poke_app (pre ++ a) z) by (rewrite ?length_app; simpl; lia). simpl.
  rewrite <- !app_assoc. do 2 f_equal. lia.
Qed.

(** A frame as the kernel leaves it: its bytes are those of the block, the packet lies in it
    behind the room the options of the ring ask for. *)
Record frame_sane (h : linux_handle) (f : frame) : Prop := {
  fs_mac : 4 <= tp_mac f; fs_snap : 0 <= tp_snaplen f; fs_len : 0 <= tp_len f < 2 ^ 32 - 2 ^ 16;
  fs_end : tp_mac f + tp_snaplen f <= Z.of_nat (List.length (tp_bytes f));
  fs_size : Z.of_nat (List.length (tp_bytes f)) = p_bufsize (l_p h); fs_small : p_bufsize (l_p h) < 2 ^ 31;
  fs_addr : List.length (sll_addr (tp_sll f)) = 8%nat }.

(** The packet as it should be: behind the header of cooked mode, if any, the packet of the
    frame, and the tag the kernel took out put back at [vlan_offset]. *)
Definition tag_due (h : linux_handle) (vlan_valid : bool) (f : frame) : bool :=
  vlan_valid && negb (vlan_offset h =? -1) && (u32 (vlan_offset h) <=? tp_snaplen f).
Definition whole_packet (h : linux_handle) (vlan_valid : bool) (f : frame) : list byte :=
  let pkt := take (Z.to_nat (tp_snaplen f)) (drop (Z.to_nat (tp_mac f)) (tp_bytes f)) in
  let pkt := if cooked h then sll_header (tp_sll f) (sll_addr (tp_sll f)) ++ pkt else pkt in
  if tag_due h vlan_valid f
  then take (Z.to_nat (vlan_offset h)) pkt ++ vlan_tag (tp_vlan_tci f) ++ drop (Z.to_nat (vlan_offset h)) pkt
  else pkt.
Definition added (h : linux_handle) (vlan_valid : bool) (f : frame) : Z :=
  (if cooked h then SLL_HDR_LEN else 0) + (if tag_due h vlan_valid f then VLAN_TAG_LEN else 0).

Lemma length_sll_header sll : List.length (sll_addr sll) = 8%nat -> List.length (sll_header sll (sll_addr sll)) = 16%nat.
Proof.
  intros Ha. unfold sll_header, map_packet_type_to_sll_type. rewrite !length_app, Ha.
  repeat (destruct (_ =? _); [reflexivity|]). reflexivity.
Qed.

(** A frame split: what is before the 16 bytes in front of the packet, those, the packet, and
    what is behind it. *)
Lemma frame_split f n : 0 <= n <= tp_mac f -> 0 <= tp_snaplen f ->
  tp_mac f + tp_snaplen f <= Z.of_nat (List.length (tp_bytes f)) ->
  exists pre x c, tp_bytes f = pre ++ x ++ take (Z.to_nat (tp_snaplen f)) (drop (Z.to_nat (tp_mac f)) (tp_bytes f)) ++ c /\
    Z.of_nat (List.length pre) = tp_mac f - n /\ Z.of_nat (List.length x) = n /\
    Z.of_nat (List.length (take (Z.to_nat (tp_snaplen f)) (drop (Z.to_nat (tp_mac f)) (tp_bytes f)))) = tp_snaplen f.
Proof.
  intros Hn Hs Hl. exists (take (Z.to_nat (tp_mac f - n)) (tp_bytes f)),
    (take (Z.to_nat n) (drop (Z.to_nat (tp_mac f - n)) (tp_bytes f))),
    (drop (Z.to_nat (tp_snaplen f)) (drop (Z.to_nat (tp_mac f)) (tp_bytes f))).
  rewrite take_drop. split.
  - rewrite <- (take_drop (Z.to_nat (tp_mac f - n)) (tp_bytes f)) at 1. f_equal.
    rewrite <- (take_drop (Z.to_nat n) (drop _ _)) at 1. f_equal. rewrite drop_drop. f_equal. lia.
  - rewrite !length_take, !length_drop. lia.
Qed.

(** The header of cooked mode, where there is room. *)
Definition sll_room (h : linux_handle) (f : frame) : bool :=
  negb (tp_mac f - SLL_HDR_LEN <? TPACKET_ALIGN (tp_hdrlen h) + sizeof_sockaddr_ll).

Lemma TPACKET_ALIGN_nonneg x : 0 <= x -> 0 <= TPACKET_ALIGN x.
Proof. intros H. unfold TPACKET_ALIGN. apply Z.land_nonneg. lia. Qed.

(** After the first step: the bytes of the frame with the packet so far, and where it is. *)
Lemma first_step h f : frame_sane h f -> 0 <= tp_hdrlen h ->
  let pkt := take (Z.to_nat (tp_snaplen f)) (drop (Z.to_nat (tp_mac f)) (tp_bytes f)) in
  let whole := if cooked h then sll_header (tp_sll f) (sll_addr (tp_sll f)) ++ pkt else pkt in
  let more := if cooked h then SLL_HDR_LEN else 0 in
  (cooked h = true -> sll_room h f = true) ->
  exists pre x c, List.length x = 4%nat /\ Z.of_nat (List.length whole) = tp_snaplen f + more /\
    (if cooked h then build_sll_header h f else Some (Some (tp_bytes f, tp_mac f)))
      = Some (Some (pre ++ x ++ whole ++ c, Z.of_nat (List.length pre) + 4)).
Proof.
  intros [Hmac Hsnap Hlen Hend Hsize Hsmall Haddr] Hhdr pkt whole more Hroom. unfold whole, more, pkt. clear whole more pkt.
  destruct (cooked h).
  - specialize (Hroom eq_refl). unfold sll_room, SLL_HDR_LEN, sizeof_sockaddr_ll in Hroom.
    pose proof (TPACKET_ALIGN_nonneg _ Hhdr).
    destruct (Z.ltb_spec (tp_mac f - 16) (TPACKET_ALIGN (tp_hdrlen h) + 20)); [discriminate|].
    destruct (frame_split f 20) as (pre & x & c & Hb & Hp & Hx & Hpk); [lia|lia|lia|].
    exists pre, (take 4 x), c. rewrite length_app, length_sll_header by exact Haddr.
    split; [rewrite length_take; lia|]. split; [unfold SLL_HDR_LEN; lia|].
    unfold build_sll_header, SLL_HDR_LEN, sizeof_sockaddr_ll. destruct (Z.ltb_spec (tp_mac f - 16) (TPACKET_ALIGN (tp_hdrlen h) + 20)); [lia|].
    rewrite Hb at 1. rewrite <- (take_drop 4 x) at 1. rewrite <- (app_assoc (take 4 x)), (app_assoc pre).
    rewrite poke_app.
    + simpl. rewrite <- !app_assoc. do 3 f_equal. lia.
    + rewrite length_app, length_take. lia.
    + rewrite length_drop, length_sll_header by exact Haddr. lia.
  - destruct (frame_split f 4) as (pre & x & c & Hb & Hp & Hx & Hpk); [lia|lia|lia|].
    exists pre, x, c. split; [lia|]. split; [lia|]. rewrite <- Hb. do 3 f_equal. lia.
Qed.

Lemma peek_cut (pre w c : list byte) i n : i = Z.of_nat (List.length pre) -> 0 <= n ->
  peek (pre ++ w ++ c) i (Z.min (Z.of_nat (List.length w)) n) = Some (take (Z.to_nat n) w).
Proof.
  intros Hi Hn. rewrite <- (take_drop (Z.to_nat n) w) at 1. rewrite <- app_assoc.
  replace (Z.min _ _) with (Z.of_nat (List.length (take (Z.to_nat n) w))) by (rewrite length_take; lia).
  now apply peek_app.
Qed.

Lemma cut_length sn l : 0 <= sn < 2 ^ 31 -> 0 <= l < 2 ^ 32 ->
  (if u32 sn <? u32 l then u32 sn else u32 l) = Z.min l sn.
Proof. intros Hs Hl. rewrite !u32_id by lia. destruct (Z.ltb_spec sn l); lia. Qed.

(** C15: the packet of a frame the kernel left, on every combination of cooked mode and VLAN
    tags: without room for the header of cooked mode it is an error; otherwise no access is
    outside the frame, and what is handed on is the packet of the frame behind that header,
    with the tag the kernel took out put back at [vlan_offset], cut at the snapshot length,
    with the time of the frame and the length it had on the wire with what was added. *)
Theorem mmap_packet_contents h f tp_usec vlan_valid : frame_sane h f -> 0 <= tp_hdrlen h ->
  is_s32 (vlan_offset h) = true -> 0 <= p_snapshot (l_p h) < 2 ^ 31 ->
  if cooked h && negb (sll_room h f) then make_packet h f tp_usec vlan_valid = Some PkBad
  else
    let whole := whole_packet h vlan_valid f in
    Z.of_nat (List.length whole) = tp_snaplen f + added h vlan_valid f /\
    exists b, make_packet h f tp_usec vlan_valid
      = Some (PkOk (mk_pkthdr (tp_sec f) tp_usec (Z.min (Z.of_nat (List.length whole)) (p_snapshot (l_p h)))
                      (tp_len f + added h vlan_valid f))
                   (take (Z.to_nat (p_snapshot (l_p h))) whole) b).
Proof.
  intros Hs Hhdr Hvo Hsn. apply andb_prop in Hvo. destruct (cooked h && negb (sll_room h f)) eqn:Ebad.
  { apply andb_prop in Ebad. destruct Ebad as [Hc Hr]. unfold make_packet. rewrite Hc. unfold build_sll_header.
    unfold sll_room in Hr. rewrite negb_involutive in Hr. now rewrite Hr. }
  destruct (first_step h f Hs Hhdr) as (pre & x & c & Hx & Hl & E).
  { intros Hc. rewrite Hc in Ebad. now destruct (sll_room h f). }
  destruct Hs as [Hmac Hsnap Hlen Hend Hsize Hsmall Haddr].
  unfold make_packet, whole_packet, added. fold (tag_due h vlan_valid f). rewrite E. cbn [mbind option_bind].
  set (w := if cooked h then _ else _ : list byte) in *. set (more := if cooked h then SLL_HDR_LEN else 0) in *.
  assert (Hmore : 0 <= more <= 16) by (unfold more, SLL_HDR_LEN; destruct (cooked h); lia).
  clearbody w more.
  destruct (tag_due h vlan_valid f) eqn:Et.
  - unfold tag_due in Et. apply andb_prop in Et. destruct Et as [_ Et].
    assert (Hv : 0 <= vlan_offset h <= tp_snaplen f).
    { unfold u32 in Et. destruct (Z.leb_spec 0 (vlan_offset h)) as [|Hneg]; [rewrite Z.mod_small in Et; lia|].
      rewrite <- (Z.mod_add _ 1), Z.mod_small in Et by lia. lia. }
    set (a := take (Z.to_nat (vlan_offset h)) w). set (r := drop (Z.to_nat (vlan_offset h)) w).
    assert (Hw : w = a ++ r) by (symmetry; apply take_drop).
    assert (Ha : Z.of_nat (List.length a) = vlan_offset h) by (unfold a; rewrite length_take; lia).
    assert (Hall : Z.of_nat (List.length (a ++ vlan_tag (tp_vlan_tci f) ++ r)) = tp_snaplen f + (more + VLAN_TAG_LEN)).
    { rewrite Hw, length_app in Hl. rewrite !length_app. change (List.length (vlan_tag _)) with 4%nat. unfold VLAN_TAG_LEN. lia. }
    split; [exact Hall|]. 
    assert (Hwc : w ++ c = a ++ r ++ c) by (now rewrite app_assoc, <- Hw). rewrite Hwc.
    rewrite insert_vlan_tag_spec by (exact Hx || lia). cbn [mbind option_bind].
    rewrite u32_add_l, cut_length by (unfold VLAN_TAG_LEN; lia).
    replace (tp_snaplen f + more + VLAN_TAG_LEN) with (Z.of_nat (List.length (a ++ vlan_tag (tp_vlan_tci f) ++ r))) by lia.
    rewrite (app_assoc (vlan_tag _) r c), (app_assoc a (_ ++ r) c), peek_cut by lia. cbn [mbind option_bind].
    eexists. repeat f_equal. rewrite u32_add_l, u32_id by (unfold VLAN_TAG_LEN; lia). lia.
  - split; [lia|]. cbn [mbind option_bind]. rewrite u32_add_l, Z.add_0_r, cut_length, <- Hl by lia.
    rewrite (app_assoc pre x), peek_cut by (rewrite ?length_app; lia). cbn [mbind option_bind].
    eexists. repeat f_equal. rewrite u32_add_l, u32_id by lia. lia.
Qed.

(** ** Programs for the kernel *)

(** Two outcomes that agree on whether the packet is accepted. *)
Definition same_verdict (a b : outcome) : Prop :=
  match a, b with Return v, Return v' => v = 0 <-> v' = 0 | _, _ => a = b end.

Lemma fix_insns_at mm f : forall f' pc, fix_insns false mm f = Some f' ->
  match at_Z f pc, at_Z f' pc with
  | None, None => True
  | Some i, Some i' => i' = i \/ BPF_CLASS (i_code i) = BPF_RET /\ i_k i <> 0 /\ i' = set_k 65535 i
  | _, _ => False
  end.
Proof.
  unfold at_Z. intros f' pc. destruct (pc <? 0); [auto|]. generalize (Z.to_nat pc). clear pc. revert f'.
  induction f as [|p f IH]; intros f' n; simpl; [now intros [= <-]|].
  assert (Hi : exists p', fix_insn false mm p = Some p' /\ (p' = p \/ BPF_CLASS (i_code p) = BPF_RET /\ i_k p <> 0 /\ p' = set_k 65535 p)).
  { unfold fix_insn. destruct (Z.eqb_spec (BPF_CLASS (i_code p)) BPF_RET) as [Hc|_].
    - destruct mm; simpl; [eauto|]. destruct (_ =? BPF_K); simpl; [|eauto].
      destruct (Z.eqb_spec (i_k p) 0); simpl; eauto 10.
    - destruct (one_of _ _); rewrite ?andb_false_r; eauto. }
  destruct Hi as (p' & -> & Hp'). simpl. destruct (fix_insns false mm f) as [g|] eqn:E; [|discriminate].
  intros [= <-]. destruct n as [|n]; simpl; [exact Hp'|]. now apply IH.
Qed.

Lemma exec_ret p wirelen buflen i r : BPF_CLASS (i_code i) = BPF_RET -> i_k i <> 0 ->
  match exec_insn p wirelen buflen i r, exec_insn p wirelen buflen (set_k 65535 i) r with
  | Stop a, Stop b => same_verdict a b
  | _, _ => False
  end.
Proof.
  intros Hc Hk. unfold exec_insn. cbn [set_k i_code].
  destruct (decode_op (i_code i)) as [o|] eqn:Ed; [|reflexivity].
  rewrite (decode_op_Some _ _ Ed) in Hc.
  destruct o as [| |[]|[]| | | | | | | | | | |[] []|[] []| | |]; try discriminate Hc; simpl; tauto || lia.
Qed.

(** C16: the program made for the kernel outside cooked mode decides as the one it is made from:
    on every packet and with every bound both accept, both reject, or both end the same other
    way; and making it cannot fail but for memory. Only the length to keep may change. *)
Theorem fix_program_decides_same mm prog fuel mem pkt wirelen buflen :
  exists f, fix_program true false mm prog = FixOk f /\
  same_verdict (bpf_filter fuel mem (Some prog) pkt wirelen buflen) (bpf_filter fuel mem (Some f) pkt wirelen buflen).
Proof.
  assert (Hf : exists f, fix_insns false mm prog = Some f).
  { induction prog as [|p prog [f IH]]; [now exists []|]. simpl. rewrite IH. unfold fix_insn.
    destruct (_ =? _); [destruct (_ && _); eauto|]. destruct (one_of _ _); rewrite ?andb_false_r; eauto. }
  destruct Hf as [f Hf]. exists f. unfold fix_program. rewrite Hf. split; [reflexivity|]. cbn [bpf_filter].
  enough (Hrun : forall fuel pc r, same_verdict (run fuel prog pkt wirelen buflen pc r) (run fuel f pkt wirelen buflen pc r))
    by apply Hrun. clear fuel. intros fuel.
  induction fuel as [|fuel IH]; intros pc r; [reflexivity|]. simpl.
  pose proof (fix_insns_at mm prog f pc Hf) as Hat.
  destruct (at_Z prog pc) as [i|], (at_Z f pc) as [i'|]; [|contradiction|contradiction|reflexivity].
  destruct Hat as [->|(Hc & Hk & ->)].
  - destruct (exec_insn _ _ _ _ _) as [d r'|o]; [apply IH|]. destruct o; simpl; tauto.
  - pose proof (exec_ret pkt wirelen buflen i r Hc Hk) as He.
    destruct (exec_insn _ _ _ i _), (exec_insn _ _ _ (set_k _ _) _); try contradiction. exact He.
Qed.

(** ** A ring of two frames *)

Definition sample_sll : sockaddr_ll := mk_sll 2 PACKET_HOST 1 6 (replicate 8 x00) 0x800.
Definition sample_frame (sec : Z) (pkt : list byte) : frame :=
  mk_frame TP_STATUS_USER 60 80 15 sec 5000 0 sample_sll (replicate 80 x00 ++ pkt ++ replicate 65 x00).
Definition free_frame : frame := mk_frame TP_STATUS_KERNEL 0 0 0 0 0 0 sample_sll (replicate 160 x00).
Definition frame_arp : list byte := replicate 12 x00 ++ [x08; x06; x00].

Definition sample_handle : linux_handle :=
  mk_linux (set_p_bufsize 160 (set_p_snapshot 96 (pcap_alloc_pcap_t PrivNone)))
    0 2 PCAP_D_INOUT None 0 false 0 0 false false 2 1 12 TPACKET_V2 32 (mk_position None 0).
(** A kernel that takes every program, and one that refuses those of the caller. *)
Definition takes : kernel_answers := mk_kernel_answers true true true true true.
Definition refuses : kernel_answers := mk_kernel_answers true true true false true.
Definition sample_poll (t : nat) (timeout : Z) : poll_answer * bool := (PollTimeout, false).
Definition scratch : list Z := replicate 16 0.
Definition prog_none : list bpf_insn := [BPF_STMT (encode_op RET_K) 0].

(** What arrives at the first look, and the kernel that puts it in the ring. *)
Definition at_first {A} (new : list A) (t : nat) (rg : ring A) : list A := match t with O => new | S _ => [] end.
Definition arriving {A} (status : A -> Z) (new : list A) : nat -> ring A -> ring A := kernel_adds status (at_first new).

Lemma at_first_users {A} (status : A -> Z) new : Forall (is_user status) new ->
  forall t rg, Forall (is_user status) (at_first new t rg).
Proof. intros Hn [|t] rg; [exact Hn|constructor]. Qed.

(** The ring with an old packet of another protocol in it. *)
Definition sample_ring : ring frame := mk_ring [sample_frame 1 frame_arp; free_frame] 1.

Lemma sample_ring_at : ring_at tp_status sample_handle sample_ring [sample_frame 1 frame_arp] [free_frame].
Proof. constructor; try reflexivity; [simpl; lia|repeat constructor..]. Qed.

(** Set to [prog_ip]; the old packet, of ARP, is not handed on, the new one is. *)
Definition sample_set := pcap_setfilter_linux_mmap (H := zeroing_malloc) true takes (ring_status tp_status sample_ring) sample_handle
  (Some prog_ip) None.
#[local] Abbreviation sample_reads := (read_calls
  (fun t h cnt rg u => mmap_read true 10 scratch (fun _ => false)
     (arriving tp_status [sample_frame 7 frame_ip]) sample_poll 5 t h cnt rg u) [1; -1] 0 sample_set.1.2 sample_ring []).

Example sample_reads_new :
  (fun '(_, _, u, _) => u) <$> sample_reads = Some [(mk_pkthdr 7 5 15 60, frame_ip)].
Proof. vm_compute. reflexivity. Qed.

Lemma mmap_new_filter_only_witness :
  exists h2 rg2 t2, sample_reads = Some (h2, rg2, [(mk_pkthdr 7 5 15 60, frame_ip)], t2) /\
  p_fcode (l_p sample_set.1.2) = Some prog_ip /\
  match sample_set.2 with Some kp => fix_program true false true prog_ip = FixOk kp | None => True end /\
  exists new gone left free2 n,
    Forall (arrived (at_first [sample_frame 7 frame_ip])) new /\ [sample_frame 1 frame_arp] ++ new = gone ++ left /\
    ring_at tp_status h2 rg2 left free2 /\
    [(mk_pkthdr 7 5 15 60, frame_ip)] = packets_from true 10 scratch n sample_set.1.2 gone /\
    (1 <= n)%nat /\ (sample_set.2 = None -> List.length gone <= n)%nat.
Proof.
  destruct sample_reads as [[[[h2 rg2] u2] t2]|] eqn:E; [|vm_compute in E; discriminate].
  assert (Hu : u2 = [(mk_pkthdr 7 5 15 60, frame_ip)]).
  { pose proof sample_reads_new as Hn. rewrite E in Hn. simpl in Hn. now injection Hn. }
  rewrite <- Hu. exists h2, rg2, t2. split; [reflexivity|].
  apply (mmap_new_filter_only (H := zeroing_malloc) true true takes sample_handle sample_ring
           [sample_frame 1 frame_arp] [free_frame] prog_ip None sample_set.1.2 sample_set.2
           (at_first [sample_frame 7 frame_ip]) sample_poll (fun _ => false) 10 scratch 5 [1; -1] 0 h2 rg2 u2 t2).
  - reflexivity.
  - exact sample_ring_at.
  - vm_compute. reflexivity.
  - left. vm_compute. discriminate.
  - apply at_first_users. repeat constructor.
  - exact E.
Defined.

Lemma mmap_read_in_order_witness :
  exists h' rg' t', mmap_read true 10 scratch (fun _ => false) (fun _ rg => rg) sample_poll 5 0 sample_handle (-1) sample_ring []
    = RingRet 1 h' rg' [(mk_pkthdr 1 5 15 60, frame_arp)] t' /\ Forall (is_kernel tp_status) (rg_blocks rg').
Proof.
  apply (mmap_read_in_order true 10 scratch (fun _ rg => rg) sample_poll sample_handle sample_ring
           [sample_frame 1 frame_arp] [free_frame] (-1) 5 0 []).
  - reflexivity.
  - exact sample_ring_at.
  - discriminate.
  - constructor; [|constructor]. split; [reflexivity|]. split; [exists true; reflexivity|].
    eexists _, _, _. vm_compute. reflexivity.
  - reflexivity.
  - lia.
  - simpl. lia.
  - simpl. lia.
Defined.

(** A tagged packet in cooked mode. *)
Definition sample_cooked : linux_handle :=
  mk_linux (set_p_bufsize 160 (set_p_snapshot 96 (pcap_alloc_pcap_t PrivNone)))
    0 2 PCAP_D_INOUT None 0 false 0 0 false true 2 1 14 TPACKET_V2 32 (mk_position None 0).

Lemma mmap_packet_contents_witness :
  Z.of_nat (List.length (whole_packet sample_cooked true (sample_frame 7 frame_ip))) = 35 /\
  exists b, make_packet sample_cooked (sample_frame 7 frame_ip) 5 true
    = Some (PkOk (mk_pkthdr 7 5 35 80) (take 96 (whole_packet sample_cooked true (sample_frame 7 frame_ip))) b).
Proof.
  apply (mmap_packet_contents sample_cooked (sample_frame 7 frame_ip) 5 true).
  - constructor; vm_compute; (reflexivity || congruence || split; congruence).
  - simpl. lia.
  - reflexivity.
  - simpl. lia.
Defined.

(** The same with blocks: one of two old packets, and a new one with one packet. *)
Definition sample_v3 : linux_handle :=
  mk_linux (set_p_bufsize 160 (set_p_snapshot 96 (pcap_alloc_pcap_t PrivNone)))
    0 2 PCAP_D_INOUT None 0 false 0 0 false false 2 1 12 TPACKET_V3 48 (mk_position None 0).
Definition free_block : block3 := mk_block TP_STATUS_KERNEL 0 [].
Definition sample_blocks : ring block3 :=
  mk_ring [mk_block TP_STATUS_USER 2 [sample_frame 1 frame_arp; sample_frame 2 frame_arp]; free_block] 1.
Definition arrived_block : block3 := mk_block TP_STATUS_USER 1 [sample_frame 7 frame_ip].

Definition sample_set3 := pcap_setfilter_linux_mmap (H := zeroing_malloc) true takes (ring_status b_status sample_blocks)
  sample_v3 (Some prog_ip) None.
#[local] Abbreviation sample_reads3 := (read_calls
  (fun t h cnt rg u => pcap_read_linux_mmap_v3 10 scratch (recorder (fun _ => false)) (arriving b_status [arrived_block])
     sample_poll 5 t h cnt rg u) [1; -1] 0 sample_set3.1.2 sample_blocks []).

Example sample_reads3_new : (fun '(_, _, u, _) => u) <$> sample_reads3 = Some [(mk_pkthdr 7 5 15 60, frame_ip)].
Proof. vm_compute. reflexivity. Qed.

Lemma mmap_v3_new_filter_only_witness :
  p_fcode (l_p sample_set3.1.2) = Some prog_ip /\
  match sample_set3.2 with Some kp => fix_program true false true prog_ip = FixOk kp | None => True end /\
  Forall (fun pk =>
      from_blocks 10 scratch true sample_set3.1.2
        (fun b => b ∈ take 1 (rg_blocks sample_blocks) \/ arrived (at_first [arrived_block]) b) pk \/
      sample_set3.2 <> None /\ from_blocks 10 scratch false sample_set3.1.2 (arrived (at_first [arrived_block])) pk)
    [(mk_pkthdr 7 5 15 60, frame_ip)].
Proof.
  destruct sample_reads3 as [[[[h2 rg2] u2] t2]|] eqn:E; [|vm_compute in E; discriminate].
  assert (Hu : u2 = [(mk_pkthdr 7 5 15 60, frame_ip)]).
  { pose proof sample_reads3_new as Hn. rewrite E in Hn. simpl in Hn. now injection Hn. }
  rewrite <- Hu.
  apply (mmap_v3_new_filter_only (H := zeroing_malloc) true takes sample_v3 sample_blocks
           [mk_block TP_STATUS_USER 2 [sample_frame 1 frame_arp; sample_frame 2 frame_arp]] [free_block]
           prog_ip None sample_set3.1.2 sample_set3.2
           (at_first [arrived_block]) sample_poll (fun _ => false) 10 scratch 5 [1; -1] 0 h2 rg2 u2 t2).
  - reflexivity.
  - constructor; try reflexivity; [simpl; lia|repeat constructor..].
  - vm_compute. reflexivity.
  - left. vm_compute. discriminate.
  - apply at_first_users. repeat constructor.
  - exact E.
Defined.

(** ** What the code does not keep *)

(** The count of blocks left by a filter that went into the kernel is not taken back when
    the next filter is run in userland: once that many blocks have been read the filter is
    turned off, and a program that rejects every packet lets packets through. *)
Theorem mmap_stale_block_count :
  let empty := mk_ring [free_frame; free_frame] 0 in
  let kernel := arriving tp_status [sample_frame 1 frame_arp; sample_frame 2 frame_ip] in
  exists h1 k1 h2 h3 rg t,
    pcap_setfilter_linux_mmap (H := zeroing_malloc) true takes (ring_status tp_status empty) sample_handle (Some prog_ip) None = (0, h1, k1) /\
    pcap_setfilter_linux_mmap (H := zeroing_malloc) true refuses (ring_status tp_status empty) h1 (Some prog_none) k1 = (0, h2, None) /\
    p_fcode (l_p h2) = Some prog_none /\ filter_in_userland h2 = true /\
    mmap_read true 10 scratch (fun _ => false) kernel sample_poll 5 0 h2 (-1) empty []
      = RingRet 1 h3 rg [(mk_pkthdr 2 5 15 60, frame_ip)] t.
Proof.
  intros empty kernel. eexists _, _, _, _, _, _.
  split; [vm_compute; reflexivity|]. split; [vm_compute; reflexivity|].
  split; [vm_compute; reflexivity|]. split; [vm_compute; reflexivity|]. vm_compute. reflexivity.
Qed.

(** In cooked mode the program, which is for packets with the header of that mode, is run in
    userland before the header is put in front: one for IP drops a packet of IP. *)
Definition prog_cooked_ip : list bpf_insn :=
  [BPF_STMT (encode_op (LD_ABS SzH)) 14; BPF_JUMP (encode_op (JCOND JEQ SrcK)) 0x800 0 1;
   BPF_STMT (encode_op RET_K) 65535; BPF_STMT (encode_op RET_K) 0].
Theorem mmap_cooked_filter_without_header :
  let rg := mk_ring [sample_frame 1 frame_ip; free_frame] 1 in
  exists h1 h2 rg2 t,
    pcap_setfilter_linux_mmap (H := zeroing_malloc) true refuses (ring_status tp_status rg) sample_cooked (Some prog_cooked_ip) None = (0, h1, None) /\
    bpf_filter 10 scratch (Some prog_cooked_ip) (whole_packet h1 false (sample_frame 1 frame_ip)) 76 31 = Return 65535 /\
    mmap_read true 10 scratch (fun _ => false) (fun _ rg => rg) sample_poll 5 0 h1 (-1) rg [] = RingRet 0 h2 rg2 [] t.
Proof.
  intros rg. eexists _, _, _, _. split; [vm_compute; reflexivity|]. split; [vm_compute; reflexivity|]. vm_compute. reflexivity.
Qed.

Definition sample_block (n : nat) : block3 := mk_block TP_STATUS_USER (Z.of_nat n) (replicate n (sample_frame 3 frame_ip)).

(** With TPACKET_V3 a call may hand on more packets than it was asked for: the packets taken
    from each block are bounded by [max_packets] and not by what is left of it, so a call for
    3 packets on blocks of 2 and 3 hands on 5. *)
Theorem mmap_v3_exceeds_count :
  exists h rg u t,
    pcap_read_linux_mmap_v3 10 scratch (recorder (fun _ => false)) (fun _ rg => rg) sample_poll 10 0
      sample_handle 3 (mk_ring [sample_block 2; sample_block 3] 0) [] = RingRet 5 h rg u t /\ List.length u = 5%nat.
Proof. eexists _, _, _, _. split; [vm_compute; reflexivity|reflexivity]. Qed.
