(* ===== verification/BufRead.v ===== *)
(** * Other systems: buffers of packets (pcap-bpf.c, pcap-pf.c, pcap-nit.c, pcap-snit.c, dlpisubs.c, pcap-dlpi.c)

    The kernels of these systems hand over a buffer of packets, each behind a header, and the
    reading functions walk it, across calls. Their loops are one shape; what they take from a
    header, and what they do when they are interrupted, is a [reader]. The layouts of the
    headers belong to the systems and are arguments, as are the answers of the calls that
    fill the buffer. *)
From stdpp Require Import base numbers list.
From Stdlib Require Import Strings.Byte Strings.String.
From S2P Require Import Prelude BpfInsn BpfFilter LinkType Pcap SfPcap Savefile GenConst LinuxFilter LinuxRing LinuxProofs.
Open Scope Z_scope.

(** ** The handle *)

(** The counters of the private data; a system uses those it has. *)
Record buf_stats := mk_stats {
  st_recv : Z; st_drop : Z; TotPkts : Z; TotAccepted : Z; TotDrops : Z; TotMissed : Z; OrigMissed : Z }.

(** [cc], [bp] (an offset in [buffer]) and [offset] of the handle, and [filtering_in_kernel]. *)
Record buf_handle := mk_buf {
  b_p : pcap_t; b_cc : Z; b_bp : Z; b_offset : Z; filtering_in_kernel : bool; b_msg : option string; b_stats : buf_stats }.

Definition set_b_p (v : pcap_t) (h : buf_handle) : buf_handle :=
  mk_buf v (b_cc h) (b_bp h) (b_offset h) (filtering_in_kernel h) (b_msg h) (b_stats h).
Definition set_b_cc (v : Z) (h : buf_handle) : buf_handle :=
  mk_buf (b_p h) v (b_bp h) (b_offset h) (filtering_in_kernel h) (b_msg h) (b_stats h).
Definition set_b_bp (v : Z) (h : buf_handle) : buf_handle :=
  mk_buf (b_p h) (b_cc h) v (b_offset h) (filtering_in_kernel h) (b_msg h) (b_stats h).
Definition set_in_kernel (v : bool) (h : buf_handle) : buf_handle :=
  mk_buf (b_p h) (b_cc h) (b_bp h) (b_offset h) v (b_msg h) (b_stats h).
Definition set_b_msg (v : string) (h : buf_handle) : buf_handle :=
  mk_buf (b_p h) (b_cc h) (b_bp h) (b_offset h) (filtering_in_kernel h) (Some v) (b_stats h).
Definition set_b_stats (v : buf_stats) (h : buf_handle) : buf_handle :=
  mk_buf (b_p h) (b_cc h) (b_bp h) (b_offset h) (filtering_in_kernel h) (b_msg h) v.
Definition set_b_break (v : bool) (h : buf_handle) : buf_handle := set_b_p (set_p_break_loop v (b_p h)) h.

(** ** Headers *)

(** What a loop takes from a header: where the packet is and its lengths as the filter gets
    them, then as the callback does, and how far the next header is. *)
Record bpf_found := mk_found {
  fo_sec : Z; fo_usec : Z; fo_data : Z; fo_wirelen : Z; fo_buflen : Z;
  fo_pass : Z; fo_len : Z; fo_caplen : Z; fo_inc : Z }.

Inductive bpf_record_at :=
| AtPacket (r : bpf_found) (st : buf_stats)
| AtSkip (st : buf_stats)             (* [continue], the position unchanged *)
| AtError (msg : string)
| AtOutside.

(** A reading function: what it finds at a position with some bytes left, given the snapshot
    length; what it counts of a packet accepted; whether a position behind the end of the
    buffer is set back to it; whether the position is kept when it is interrupted before the
    first packet. *)
Record reader := mk_reader {
  rd_at : Z -> buf_stats -> list byte -> Z -> Z -> bpf_record_at;
  rd_accepted : buf_stats -> buf_stats;
  rd_clamps : bool; rd_keeps : bool }.

(** pcap-bpf.c: [struct bpf_hdr]. *)
Record bpf_hdr := mk_bpf_hdr { bh_sec : Z; bh_usec : Z; bh_caplen : Z; bh_datalen : Z; bh_hdrlen : Z }.
Definition BPF_WORDALIGN (align x : Z) : Z := Z.land (x + (align - 1)) (Z.lnot (align - 1)).
Definition bpf_at (align : Z) (hdr : list byte -> Z -> option bpf_hdr) (snap : Z) (st : buf_stats)
    (buf : list byte) (bp left : Z) : bpf_record_at :=
  match hdr buf bp with
  | None => AtOutside
  | Some b =>
      let caplen := s32 (bh_caplen b) in
      let datap := bp + bh_hdrlen b in
      AtPacket (mk_found (bh_sec b) (bh_usec b) datap (bh_datalen b) caplen datap (bh_datalen b) caplen
                  (BPF_WORDALIGN align (caplen + bh_hdrlen b))) st
  end.
Definition bpf_reader (align : Z) (hdr : list byte -> Z -> option bpf_hdr) : reader :=
  mk_reader (bpf_at align hdr) (fun st => st) true true.

(** pcap-pf.c: [struct enstamp]. *)
Record enstamp := mk_enstamp {
  ens_sec : Z; ens_usec : Z; ens_stamplen : Z; ens_count : Z; ens_dropped : Z; ens_ifoverflows : Z }.
Definition pf_at (sizeof_enstamp : Z) (ENALIGN : Z -> Z) (pad : Z) (stamp : list byte -> Z -> option enstamp) (snap : Z)
    (st : buf_stats) (buf : list byte) (bp left : Z) : bpf_record_at :=
  if left <? sizeof_enstamp then AtError "pf short read (%d)"
  else match stamp buf bp with
       | None => AtOutside
       | Some sp =>
           if negb (ens_stamplen sp =? sizeof_enstamp) then AtError "pf short stamplen (%d)"
           else
             let p := bp + ens_stamplen sp in
             let buflen := if snap <? ens_count sp then snap else ens_count sp in
             let missed := ens_ifoverflows sp in
             AtPacket (mk_found (ens_sec sp) (ens_usec sp) p (ens_count sp) buflen (p + pad) (u32 (ens_count sp - pad)) (buflen - pad)
                         (ENALIGN (buflen + ens_stamplen sp)))
               (mk_stats (st_recv st) (st_drop st) (u64 (TotPkts st + 1)) (TotAccepted st) (u64 (TotDrops st + ens_dropped sp)) missed
                  (if OrigMissed st <? 0 then missed else OrigMissed st))
       end.
Definition pf_accepted (st : buf_stats) : buf_stats :=
  mk_stats (st_recv st) (st_drop st) (TotPkts st) (u64 (TotAccepted st + 1)) (TotDrops st) (TotMissed st) (OrigMissed st).
Definition pf_reader (sizeof_enstamp : Z) (ENALIGN : Z -> Z) (pad : Z) (stamp : list byte -> Z -> option enstamp) : reader :=
  mk_reader (pf_at sizeof_enstamp ENALIGN pad stamp) pf_accepted false false.

Definition count_recv (st : buf_stats) : buf_stats :=
  mk_stats (u32 (st_recv st + 1)) (st_drop st) (TotPkts st) (TotAccepted st) (TotDrops st) (TotMissed st) (OrigMissed st).
Definition set_drop (v : Z) (st : buf_stats) : buf_stats :=
  mk_stats (st_recv st) v (TotPkts st) (TotAccepted st) (TotDrops st) (TotMissed st) (OrigMissed st).

(** pcap-nit.c: [struct nit_hdr]. *)
Inductive nit_state := NIT_CATCH | NIT_NOMBUF | NIT_NOCLUSTER | NIT_NOSPACE | NIT_SEQNO | NIT_OTHER (state : Z).
Record nit_hdr := mk_nit_hdr {
  nh_state : nit_state; nh_sec : Z; nh_usec : Z; nh_wirelen : Z; nh_datalen : Z; nh_dropped : Z }.
Definition nit_at (sizeof_nit_hdr : Z) (hdr : list byte -> Z -> option nit_hdr) (snap : Z) (st : buf_stats)
    (buf : list byte) (bp left : Z) : bpf_record_at :=
  match hdr buf bp with
  | None => AtOutside
  | Some nh =>
      let cp := bp + sizeof_nit_hdr in
      match nh_state nh with
      | NIT_NOMBUF | NIT_NOCLUSTER | NIT_NOSPACE => AtSkip (set_drop (nh_dropped nh) st)
      | NIT_SEQNO => AtSkip st
      | NIT_OTHER _ => AtError "bad nit state %d"
      | NIT_CATCH =>
          let caplen := if snap <? nh_wirelen nh then snap else nh_wirelen nh in
          AtPacket (mk_found (nh_sec nh) (nh_usec nh) cp (nh_wirelen nh) caplen cp (nh_wirelen nh) caplen
                      (Z.land (sizeof_nit_hdr + nh_datalen nh + 3) (-4))) (count_recv st)
      end
  end.
Definition nit_reader (sizeof_nit_hdr : Z) (hdr : list byte -> Z -> option nit_hdr) : reader :=
  mk_reader (nit_at sizeof_nit_hdr hdr) (fun st => st) false false.

(** pcap-snit.c: the four headers before a packet, together [sizeof_hdrs] bytes. *)
Record snit_hdrs := mk_snit { nhb_totlen : Z; nh_tsec : Z; nh_tusec : Z; nh_drops : Z; nh_pktlen : Z }.
Definition snit_at (sizeof_hdrs : Z) (hdrs : list byte -> Z -> option snit_hdrs) (snap : Z) (st : buf_stats)
    (buf : list byte) (bp left : Z) : bpf_record_at :=
  match hdrs buf bp with
  | None => AtOutside
  | Some n =>
      let cp := bp + sizeof_hdrs in
      let caplen := if snap <? nh_pktlen n then snap else nh_pktlen n in
      AtPacket (mk_found (nh_tsec n) (nh_tusec n) cp (nh_pktlen n) caplen cp (nh_pktlen n) caplen (nhb_totlen n))
        (set_drop (nh_drops n) (count_recv st))
  end.
Definition snit_reader (sizeof_hdrs : Z) (hdrs : list byte -> Z -> option snit_hdrs) : reader :=
  mk_reader (snit_at sizeof_hdrs hdrs) (fun st => st) false false.

(** dlpisubs.c, with bufmod: [struct sb_hdr]. *)
Record sb_hdr := mk_sb_hdr { sbh_sec : Z; sbh_usec : Z; sbh_drops : Z; sbh_totlen : Z; sbh_origlen : Z; sbh_msglen : Z }.
Definition dlpi_at (sizeof_sb_hdr : Z) (hdr : list byte -> Z -> option sb_hdr) (snap : Z) (st : buf_stats)
    (buf : list byte) (bp left : Z) : bpf_record_at :=
  match hdr buf bp with
  | None => AtOutside
  | Some sb =>
      let pk := bp + sizeof_sb_hdr in
      AtPacket (mk_found (sbh_sec sb) (sbh_usec sb) pk (sbh_origlen sb) (sbh_msglen sb) pk (sbh_origlen sb)
                  (if snap <? sbh_msglen sb then snap else sbh_msglen sb) (sbh_totlen sb))
        (count_recv (set_drop (sbh_drops sb) st))
  end.
Definition dlpi_reader (sizeof_sb_hdr : Z) (hdr : list byte -> Z -> option sb_hdr) : reader :=
  mk_reader (dlpi_at sizeof_sb_hdr hdr) (fun st => st) false false.

(** ** The loop *)

Inductive buf_result (U : Type) :=
| BufRet (ret : Z) (h : buf_handle) (u : U)
| BufOutside
| BufFilter (o : outcome)
| BufLoops.                            (* not done after the fuel *)
Arguments BufRet {U}. Arguments BufOutside {U}. Arguments BufFilter {U}. Arguments BufLoops {U}.

Section Loop.
Context (filter_fuel : nat) (mem : list Z).
Context {U : Type} (callback : U -> pcap_pkthdr -> list byte -> U * bool).
Context (rd : reader).

(** The filter: only when the kernel does not. *)
Definition buf_accepts (h : buf_handle) (r : bpf_found) : sum outcome bool :=
  if filtering_in_kernel h then inr true
  else accepts filter_fuel mem (b_p h) (mk_pkthdr 0 0 (fo_buflen r) (fo_wirelen r))
         (drop (Z.to_nat (fo_data r)) (p_buffer (b_p h))).

(** The position kept for the next call. *)
Definition keep_position (bp ep : Z) (h : buf_handle) : buf_handle :=
  set_b_cc (if rd_clamps rd && (ep - bp <? 0) then 0 else ep - bp) (set_b_bp bp h).

Fixpoint buffer_loop (fuel : nat) (cnt n bp ep : Z) (h : buf_handle) (u : U) : buf_result U :=
  match fuel with
  | O => BufLoops
  | S fuel =>
      if ep <=? bp then BufRet n (set_b_cc 0 h) u
      else if p_break_loop (b_p h) then
        let kept := if rd_keeps rd || negb (n =? 0) then keep_position bp ep h else h in
        if n =? 0 then BufRet PCAP_ERROR_BREAK (set_b_break false kept) u else BufRet n kept u
      else
        match rd_at rd (p_snapshot (b_p h)) (b_stats h) (p_buffer (b_p h)) bp (ep - bp) with
        | AtOutside => BufOutside
        | AtError msg => BufRet (-1) (set_b_msg msg h) u
        | AtSkip st => buffer_loop fuel cnt n bp ep (set_b_stats st h) u
        | AtPacket r st =>
            let h := set_b_stats st h in
            match buf_accepts h r with
            | inl o => BufFilter o
            | inr false => buffer_loop fuel cnt n (bp + fo_inc r) ep h u
            | inr true =>
                match peek (p_buffer (b_p h)) (fo_pass r) (fo_caplen r) with
                | None => BufOutside
                | Some d =>
                    let (u, brk) := callback u (mk_pkthdr (fo_sec r) (fo_usec r) (fo_caplen r) (fo_len r)) d in
                    let h := set_b_stats (rd_accepted rd (b_stats h)) h in
                    let h := if (brk : bool) then set_b_break true h else h in
                    let n := s32 (n + 1) in
                    let bp := bp + fo_inc r in
                    if (cnt <=? n) && negb (PACKET_COUNT_IS_UNLIMITED cnt)
                    then BufRet n (keep_position bp ep h) u
                    else buffer_loop fuel cnt n bp ep h u
                end
            end
        end
  end.

(** ** The reading functions *)

(** The answers of [read] or [getmsg]: interrupted, with a signal handler that may call
    [pcap_breakloop]; nothing there; the device gone; the file offset overflown and set back
    (pcap-pf.c); another error; data. *)
Inductive read_answer := ReadEintr (brk : bool) | ReadWouldBlock | ReadGone | ReadOverflow | ReadError | ReadData (d : list byte).

(** The data in the buffer, at [at_]. *)
Definition store_read (at_ : Z) (d : list byte) (h : buf_handle) : option buf_handle :=
  b ← poke (p_buffer (b_p h)) at_ d; Some (set_b_p (set_p_buffer b (b_p h)) h).

(** Either the return of the reading function, or the position and the end of the data. *)
Definition filled : Type := (Z * buf_handle) + (buf_handle * Z * Z).
Definition fill_with (at_ : Z) (d : list byte) (h : buf_handle) : option filled :=
  h ← store_read at_ d h; Some (inr (h, at_, at_ + Z.of_nat (List.length d))).

(** [pcap_read_bpf], to the loop: [None] for an access outside the buffer, or no answer left. *)
Fixpoint bpf_fill (reads : list read_answer) (h : buf_handle) : option filled :=
  if p_break_loop (b_p h) then Some (inl (PCAP_ERROR_BREAK, set_b_break false h))
  else if negb (b_cc h =? 0) then Some (inr (h, b_bp h, b_bp h + b_cc h))
  else
    match reads with
    | [] => None
    | ReadEintr brk :: reads => bpf_fill reads (if brk then set_b_break true h else h)
    | ReadWouldBlock :: _ => Some (inl (0, h))
    | ReadGone :: _ => Some (inl (PCAP_ERROR, set_b_msg "The interface went down" h))
    | ReadOverflow :: _ | ReadError :: _ => Some (inl (PCAP_ERROR, set_b_msg "read: %s" h))
    | ReadData d :: _ => fill_with 0 d h
    end.

(** [pcap_read_nit], [pcap_read_snit], to the loop. *)
Definition nit_fill (reads : list read_answer) (h : buf_handle) : option filled :=
  if negb (b_cc h =? 0) then Some (inr (h, b_bp h, b_bp h + b_cc h))
  else
    match reads with
    | [] => None
    | ReadWouldBlock :: _ => Some (inl (0, h))
    | ReadData d :: _ => fill_with 0 d h
    | _ => Some (inl (-1, set_b_msg "pcap_read: %s" h))
    end.

(** [pcap_read_pf], to the loop. *)
Fixpoint pf_fill (reads : list read_answer) (h : buf_handle) : option filled :=
  if negb (b_cc h =? 0) then Some (inr (h, b_bp h, b_bp h + b_cc h))
  else
    match reads with
    | [] => None
    | ReadWouldBlock :: _ => Some (inl (0, h))
    | ReadOverflow :: reads => pf_fill reads h
    | ReadData d :: _ => fill_with (b_offset h) d h
    | _ => Some (inl (-1, set_b_msg "pf read: %s" h))
    end.

(** [pcap_read_dlpi], to [pcap_process_pkts]; an empty message is passed over. *)
Fixpoint dlpi_getmsg (reads : list read_answer) (h : buf_handle) : option filled :=
  if p_break_loop (b_p h) then Some (inl (-2, set_b_break false h))
  else
    match reads with
    | [] => None
    | ReadEintr brk :: reads => dlpi_getmsg reads (if brk then set_b_break true h else h)
    | ReadWouldBlock :: _ => Some (inl (0, h))
    | ReadData [] :: reads => dlpi_getmsg reads h
    | ReadData d :: _ => fill_with (b_offset h) d h
    | _ => Some (inl (-1, set_b_msg "%s" h))
    end.

(** [pcap_read_libdlpi], to [pcap_process_pkts]: every failure but an interrupted call is an
    error. *)
Fixpoint libdlpi_recv (reads : list read_answer) (h : buf_handle) : option filled :=
  if p_break_loop (b_p h) then Some (inl (-2, set_b_break false h))
  else
    match reads with
    | [] => None
    | ReadEintr brk :: reads => libdlpi_recv reads (if brk then set_b_break true h else h)
    | ReadData [] :: reads => libdlpi_recv reads h
    | ReadData d :: _ => fill_with (b_offset h) d h
    | _ => Some (inl (-1, set_b_msg "dlpi_recv" h))
    end.
Definition libdlpi_fill (reads : list read_answer) (h : buf_handle) : option filled :=
  if negb (b_cc h =? 0) then Some (inr (h, b_bp h, b_bp h + b_cc h)) else libdlpi_recv reads h.
Definition dlpi_fill (reads : list read_answer) (h : buf_handle) : option filled :=
  if negb (b_cc h =? 0) then Some (inr (h, b_bp h, b_bp h + b_cc h)) else dlpi_getmsg reads h.

Definition read_filled (fuel : nat) (cnt : Z) (f : option filled) (u : U) : buf_result U :=
  match f with
  | None => BufOutside
  | Some (inl (ret, h)) => BufRet ret h u
  | Some (inr (h, bp, ep)) => buffer_loop fuel cnt 0 bp ep h u
  end.
End Loop.

Section Readers.
Context (filter_fuel : nat) (mem : list Z) {U : Type} (callback : U -> pcap_pkthdr -> list byte -> U * bool).

Definition pcap_read_bpf (align : Z) (hdr : list byte -> Z -> option bpf_hdr) (reads : list read_answer)
    (fuel : nat) (h : buf_handle) (cnt : Z) (u : U) : buf_result U :=
  read_filled filter_fuel mem callback (bpf_reader align hdr) fuel cnt (bpf_fill reads h) u.
Definition pcap_read_pf (sizeof_enstamp : Z) (ENALIGN : Z -> Z) (pad : Z) (stamp : list byte -> Z -> option enstamp)
    (reads : list read_answer) (fuel : nat) (h : buf_handle) (cnt : Z) (u : U) : buf_result U :=
  read_filled filter_fuel mem callback (pf_reader sizeof_enstamp ENALIGN pad stamp) fuel cnt (pf_fill reads h) u.
Definition pcap_read_nit (sizeof_nit_hdr : Z) (hdr : list byte -> Z -> option nit_hdr) (reads : list read_answer)
    (fuel : nat) (h : buf_handle) (cnt : Z) (u : U) : buf_result U :=
  read_filled filter_fuel mem callback (nit_reader sizeof_nit_hdr hdr) fuel cnt (nit_fill reads h) u.
Definition pcap_read_snit (sizeof_hdrs : Z) (hdrs : list byte -> Z -> option snit_hdrs) (reads : list read_answer)
    (fuel : nat) (h : buf_handle) (cnt : Z) (u : U) : buf_result U :=
  read_filled filter_fuel mem callback (snit_reader sizeof_hdrs hdrs) fuel cnt (nit_fill reads h) u.
(** [pcap_process_pkts] on the [len] bytes at [bufp]. *)
Definition pcap_process_pkts (sizeof_sb_hdr : Z) (hdr : list byte -> Z -> option sb_hdr) (fuel : nat) (h : buf_handle)
    (u : U) (count bufp len : Z) : buf_result U :=
  buffer_loop filter_fuel mem callback (dlpi_reader sizeof_sb_hdr hdr) fuel count 0 bufp (bufp + len) h u.
Definition pcap_read_dlpi (sizeof_sb_hdr : Z) (hdr : list byte -> Z -> option sb_hdr) (reads : list read_answer)
    (fuel : nat) (h : buf_handle) (cnt : Z) (u : U) : buf_result U :=
  match dlpi_fill reads h with
  | None => BufOutside
  | Some (inl (ret, h)) => BufRet ret h u
  | Some (inr (h, bp, ep)) => pcap_process_pkts sizeof_sb_hdr hdr fuel h u cnt bp (ep - bp)
  end.
Definition pcap_read_libdlpi (sizeof_sb_hdr : Z) (hdr : list byte -> Z -> option sb_hdr) (reads : list read_answer)
    (fuel : nat) (h : buf_handle) (count : Z) (u : U) : buf_result U :=
  match libdlpi_fill reads h with
  | None => BufOutside
  | Some (inl (ret, h)) => BufRet ret h u
  | Some (inr (h, bp, ep)) => pcap_process_pkts sizeof_sb_hdr hdr fuel h u count bp (ep - bp)
  end.
End Readers.

(** ** Filters and counters *)

(** What the kernel says to BIOCSETF. *)
Inductive setf_answer := SetfOk | SetfEinval | SetfError.

(** [pcap_setfilter_bpf] *)
Definition pcap_setfilter_bpf `{Alloc} (answer : setf_answer) (h : buf_handle) (fp : list bpf_insn) : Z * buf_handle :=
  let h := set_b_p (set_p_fcode None (b_p h)) h in
  match answer with
  | SetfOk => (0, set_b_cc 0 (set_in_kernel true h))
  | SetfError => (-1, set_b_msg "BIOCSETF: %s" h)
  | SetfEinval =>
      let '(st, p) := install_bpf_program (b_p h) fp in
      let h := set_b_p p h in
      if st <? 0 then (-1, h) else (0, set_in_kernel false h)
  end.

(** [pcap_stats_nit], [pcap_stats_snit], [pcap_stats_dlpi]: packets received and dropped. *)
Definition pcap_stats_nit (h : buf_handle) : Z * Z := (st_recv (b_stats h), st_drop (b_stats h)).
Definition pcap_stats_snit (h : buf_handle) : Z * Z := (st_recv (b_stats h), st_drop (b_stats h)).
Definition pcap_stats_dlpi (h : buf_handle) : Z * Z :=
  (u32 (st_recv (b_stats h) + st_drop (b_stats h)), st_drop (b_stats h)).

(** [pcap_stats_pf]: accepted, dropped, and missed by the interface during this run. *)
Definition pcap_stats_pf (h : buf_handle) : Z * Z * Z :=
  (u32 (TotAccepted (b_stats h)), u32 (TotDrops (b_stats h)), u32 (TotMissed (b_stats h) - OrigMissed (b_stats h))).

(** [pcap_setfilter_pf]; [version_ok]: the kernel's interpreter has the right version. *)
Definition pcap_setfilter_pf `{Alloc} (version_ok setf_ok : bool) (h : buf_handle) (fp : list bpf_insn) : Z * buf_handle :=
  if version_ok then
    if setf_ok then (0, set_b_cc 0 (set_in_kernel true h)) else (-1, set_b_msg "BIOCSETF: %s" h)
  else
    let '(st, p) := install_bpf_program (b_p h) fp in
    let h := set_b_p p h in
    if st <? 0 then (-1, h) else (0, set_in_kernel false h).

(** [pcap_process_mactype]: the handle with the link-layer type of a DLPI interface. *)
Inductive mactype := DL_CSMACD | DL_ETHER | DL_FDDI | DL_TPR | DL_IPATM | DL_UNKNOWN (mac : Z).
Definition mac_found (dlt off : Z) (dlts : list Z) (h : buf_handle) : Z * buf_handle :=
  let p := set_p_linktype dlt (b_p h) in
  (0, mk_buf (match dlts with [] => p | _ => set_p_dlt_list dlts p end) (b_cc h) (b_bp h) off (filtering_in_kernel h)
        (b_msg h) (b_stats h)).
Definition pcap_process_mactype (solaris list_ok : bool) (h : buf_handle) (m : mactype) : Z * buf_handle :=
  let unknown := (-1, set_b_msg "unknown mactype %u" h) in
  match m with
  | DL_CSMACD | DL_ETHER => mac_found DLT_EN10MB 2 (if list_ok then [DLT_EN10MB; DLT_DOCSIS] else []) h
  | DL_FDDI => mac_found DLT_FDDI 3 [] h
  | DL_TPR => mac_found DLT_IEEE802 2 [] h
  | DL_IPATM => if solaris then mac_found DLT_SUNATM 0 [] h else unknown
  | DL_UNKNOWN _ => unknown
  end.

(** ** Each packet of a buffer once *)

Section Once.
Context (filter_fuel : nat) (mem : list Z) (brk : delivered -> bool) (rd : reader).

(** The records of a buffer, one behind the other from [bp] to [ep]. *)
Inductive records (snap : Z) (buf : list byte) : Z -> Z -> list bpf_found -> Prop :=
| records_end bp ep : ep <= bp -> records snap buf bp ep []
| records_next bp ep r rs : bp < ep ->
    (forall st, exists st', rd_at rd snap st buf bp (ep - bp) = AtPacket r st') ->
    records snap buf (bp + fo_inc r) ep rs -> records snap buf bp ep (r :: rs).

(** What the walk does not change. *)
Definition walk_view (h : buf_handle) : option (list bpf_insn) * list byte * Z * bool :=
  (p_fcode (b_p h), p_buffer (b_p h), p_snapshot (b_p h), filtering_in_kernel h).

(** The filter returns for the record, and its packet lies in the buffer. *)
Definition record_ready (h : buf_handle) (r : bpf_found) : Prop :=
  (exists b, buf_accepts filter_fuel mem h r = inr b) /\ exists d, peek (p_buffer (b_p h)) (fo_pass r) (fo_caplen r) = Some d.

(** What is handed on of records. *)
Definition handed_one (h : buf_handle) (r : bpf_found) : delivered :=
  match buf_accepts filter_fuel mem h r, peek (p_buffer (b_p h)) (fo_pass r) (fo_caplen r) with
  | inr true, Some d => [(mk_pkthdr (fo_sec r) (fo_usec r) (fo_caplen r) (fo_len r), d)]
  | _, _ => []
  end.
Definition handed (h : buf_handle) (rs : list bpf_found) : delivered := List.concat (handed_one h <$> rs).

Lemma buf_accepts_view h h' r : walk_view h = walk_view h' -> buf_accepts filter_fuel mem h r = buf_accepts filter_fuel mem h' r.
Proof. unfold walk_view, buf_accepts, accepts. intros [= H1 H2 _ H3]. now rewrite H1, H2, H3. Qed.

Lemma handed_one_view h h' r : walk_view h = walk_view h' -> handed_one h r = handed_one h' r.
Proof.
  intros H. unfold handed_one. rewrite (buf_accepts_view _ _ r H). injection H as _ H _ _. now rewrite H.
Qed.

Lemma handed_view h h' rs : walk_view h = walk_view h' -> handed h rs = handed h' rs.
Proof. intros H. unfold handed. f_equal. apply list_fmap_ext. intros. now apply handed_one_view. Qed.

Lemma ready_view h h' r : walk_view h = walk_view h' -> record_ready h r -> record_ready h' r.
Proof.
  intros H. unfold record_ready. rewrite (buf_accepts_view _ _ r H). injection H as _ H _ _. now rewrite H.
Qed.

(** A position kept is one from which the same records follow. *)
Lemma keep_position_records snap buf bp ep h rs : records snap buf bp ep rs ->
  let h' := keep_position rd bp ep h in records snap buf (b_bp h') (b_bp h' + b_cc h') rs.
Proof.
  intros Hr h'. subst h'. unfold keep_position. simpl. destruct (rd_clamps rd); simpl.
  - destruct (Z.ltb_spec (ep - bp) 0).
    + inversion Hr; subst; [|lia]. apply records_end. lia.
    + now replace (bp + (ep - bp)) with ep by lia.
  - now replace (bp + (ep - bp)) with ep by lia.
Qed.

(** How a walk ends: the records are split into those gone through and the rest, which follow
    from the position kept; the packets of the former have been handed on and counted from
    [n]; it ends with the records, at the count, or because of [pcap_breakloop]. *)
Record walked (cnt n : Z) (h : buf_handle) (u : delivered) (rs : list bpf_found) (ret : Z) (h' : buf_handle) (u' : delivered)
    (gone rest : list bpf_found) : Prop := {
  wk_split : rs = gone ++ rest;
  wk_view : walk_view h' = walk_view h;
  wk_handed : u' = u ++ handed h gone;
  wk_rest : records (p_snapshot (b_p h)) (p_buffer (b_p h)) (b_bp h') (b_bp h' + b_cc h') rest;
  wk_ret : ret = n + Z.of_nat (List.length (handed h gone)) \/
           ret = PCAP_ERROR_BREAK /\ n + Z.of_nat (List.length (handed h gone)) = 0;
  wk_count : 0 < cnt -> n + Z.of_nat (List.length (handed h gone)) <= cnt;
  wk_why : rest = [] \/ 0 < cnt /\ ret = cnt \/ ret = PCAP_ERROR_BREAK \/ p_break_loop (b_p h') = true }.

Lemma handed_one_length h r : (List.length (handed_one h r) <= 1)%nat.
Proof. unfold handed_one. destruct (buf_accepts _ _ _ _) as [|[]]; simpl; try lia. destruct (peek _ _ _); simpl; lia. Qed.

Lemma walked_next cnt n h h1 u r rs ret h' u' gone rest : walk_view h1 = walk_view h ->
  walked cnt (n + Z.of_nat (List.length (handed_one h r))) h1 (u ++ handed_one h r) rs ret h' u' gone rest ->
  walked cnt n h u (r :: rs) ret h' u' (r :: gone) rest.
Proof.
  intros Hv [Hs Hw Hh Hr Hret Hc Hy].
  assert (Hg : handed h (r :: gone) = handed_one h r ++ handed h1 gone) by (rewrite (handed_view _ _ _ Hv); reflexivity).
  assert (Hl : n + Z.of_nat (List.length (handed h (r :: gone)))
             = n + Z.of_nat (List.length (handed_one h r)) + Z.of_nat (List.length (handed h1 gone)))
    by (rewrite Hg, length_app; lia).
  split; rewrite ?Hl; auto.
  - now rewrite Hs.
  - congruence.
  - now rewrite Hh, Hg, app_assoc.
  - injection Hv as _ Hb Hsn _. now rewrite Hb, Hsn in Hr.
Qed.

Hypothesis keeps : rd_keeps rd = true.

Lemma buffer_loop_walks rs : forall fuel cnt n bp ep h u,
  records (p_snapshot (b_p h)) (p_buffer (b_p h)) bp ep rs -> Forall (record_ready h) rs ->
  (List.length rs < fuel)%nat -> 0 <= n -> n + Z.of_nat (List.length rs) < 2 ^ 31 -> (0 < cnt -> n < cnt) ->
  exists ret h' u' gone rest,
    buffer_loop filter_fuel mem (recorder brk) rd fuel cnt n bp ep h u = BufRet ret h' u' /\
    walked cnt n h u rs ret h' u' gone rest.
Proof.
  induction rs as [|r rs IH]; intros fuel cnt n bp ep h u Hr Hall Hfuel Hn Hb Hc;
    (destruct fuel as [|fuel]; [simpl in Hfuel; lia|]); inversion Hr as [? ? Hend|? ? ? ? Hlt Hat Hrest]; subst; simpl.
  - destruct (Z.leb_spec ep bp); [|lia]. eexists _, _, _, [], []. split; [reflexivity|].
    split; simpl; rewrite ?app_nil_r; auto; try lia. apply records_end. lia.
  - destruct (Z.leb_spec ep bp); [lia|].
    destruct (p_break_loop (b_p h)) eqn:Eb.
    { rewrite keeps. simpl. assert (Hk := keep_position_records _ _ _ _ h _ Hr).
      destruct (Z.eqb_spec n 0) as [->|Hne]; (eexists _, _, _, [], (r :: rs); split; [reflexivity|]);
        (split; simpl; rewrite ?app_nil_r; auto; try lia); unfold PCAP_ERROR_BREAK; auto; try lia.
      all: unfold keep_position in Hk |- *; simpl in Hk |- *; auto. }
    destruct (Hat (b_stats h)) as [st Est]. rewrite Est. inversion Hall as [|? ? Hrd Hall']; subst.
    set (h1 := set_b_stats st h) in *. assert (Hv1 : walk_view h1 = walk_view h) by reflexivity.
    destruct (ready_view _ _ _ (eq_sym Hv1) Hrd) as [[b Eacc] [d Ed]].
    assert (Hall1 : forall h2, walk_view h2 = walk_view h -> Forall (record_ready h2) rs).
    { intros h2 Hv. eapply Forall_impl; [exact Hall'|]. intros r'. now apply ready_view. }
    simpl in Hfuel, Hb. rewrite Eacc.
    assert (Hone : handed_one h r = if b then [(mk_pkthdr (fo_sec r) (fo_usec r) (fo_caplen r) (fo_len r), d)] else []).
    { rewrite <- (handed_one_view _ _ r Hv1). unfold handed_one. rewrite Eacc, Ed. now destruct b. }
    destruct b.
    + change (p_buffer (b_p h1)) with (p_buffer (b_p h)) in Ed |- *. rewrite Ed.
      cbn [recorder]. set (u1 := u ++ _). rewrite s32_id by lia.
      set (h2 := set_b_stats _ h1). set (h3 := if brk u1 then set_b_break true h2 else h2).
      assert (Hv3 : walk_view h3 = walk_view h) by (unfold h3; now destruct (brk u1)).
      destruct ((cnt <=? n + 1) && _) eqn:Ecnt.
      * unfold PACKET_COUNT_IS_UNLIMITED in Ecnt. assert (n + 1 = cnt) by lia.
        eexists _, _, _, [r], rs. split; [reflexivity|].
        assert (Hk := keep_position_records _ _ _ _ h3 _ Hrest).
        assert (Hg : handed h [r] = [(mk_pkthdr (fo_sec r) (fo_usec r) (fo_caplen r) (fo_len r), d)])
          by (unfold handed; simpl; now rewrite app_nil_r, Hone).
        split; rewrite ?Hg; simpl; auto; try lia.
      * unfold PACKET_COUNT_IS_UNLIMITED in Ecnt.
        destruct (IH fuel cnt (n + 1) (bp + fo_inc r) ep h3 u1) as (ret & h' & u' & gone & rest & E & W).
        -- injection Hv3 as _ H2 H3 _. now rewrite H2, H3.
        -- now apply Hall1.
        -- lia.
        -- lia.
        -- lia.
        -- lia.
        -- exists ret, h', u', (r :: gone), rest. split; [exact E|].
           apply walked_next with (h1 := h3); [exact Hv3|]. now rewrite Hone.
    + destruct (IH fuel cnt n (bp + fo_inc r) ep h1 u) as (ret & h' & u' & gone & rest & E & W);
        [exact Hrest|now apply Hall1|lia|lia|lia|exact Hc|].
      exists ret, h', u', (r :: gone), rest. split; [exact E|].
      apply walked_next with (h1 := h1); [exact Hv1|]. rewrite Hone. simpl. now rewrite Z.add_0_r, app_nil_r.
Qed.
End Once.

(** C14: pcap_read_bpf goes through the packets of its buffer in order and each once, however the
    calls divide it: a call ends and hands on the packets of the records it has gone through
    that pass the filter, at most [cnt] of them, and from the position it keeps the remaining
    records, and only those, follow; it stops short only at the count or for
    pcap_breakloop, also when that is called before the first packet. *)
Theorem read_bpf_each_once filter_fuel mem brk align hdr reads fuel h cnt u h0 bp ep rs :
  bpf_fill reads h = Some (inr (h0, bp, ep)) ->
  records (bpf_reader align hdr) (p_snapshot (b_p h0)) (p_buffer (b_p h0)) bp ep rs ->
  Forall (record_ready filter_fuel mem h0) rs ->
  (List.length rs < fuel)%nat -> Z.of_nat (List.length rs) < 2 ^ 31 ->
  exists ret h' u' gone rest,
    pcap_read_bpf filter_fuel mem (recorder brk) align hdr reads fuel h cnt u = BufRet ret h' u' /\
    walked filter_fuel mem (bpf_reader align hdr) cnt 0 h0 u rs ret h' u' gone rest.
Proof.
  intros Hfill Hr Hall Hfuel Hlen. unfold pcap_read_bpf, read_filled. rewrite Hfill.
  apply buffer_loop_walks; auto; lia.
Qed.

(** A notice of pcap-nit.c (a count of dropped packets or a sequence number) holds the loop for
    ever: [continue] goes back without moving the position. *)
Theorem nit_notice_stuck {U} filter_fuel mem (callback : U -> pcap_pkthdr -> list byte -> U * bool) size hdr nh fuel
    cnt n bp ep h u :
  bp < ep -> p_break_loop (b_p h) = false -> hdr (p_buffer (b_p h)) bp = Some nh ->
  match nh_state nh with NIT_NOMBUF | NIT_NOCLUSTER | NIT_NOSPACE | NIT_SEQNO => True | _ => False end ->
  buffer_loop filter_fuel mem callback (nit_reader size hdr) fuel cnt n bp ep h u = BufLoops.
Proof.
  intros Hlt Hb Hh Hs. revert h Hb Hh. induction fuel as [|fuel IH]; intros h Hb Hh; [reflexivity|]. simpl.
  destruct (Z.leb_spec ep bp); [lia|]. rewrite Hb. unfold nit_at. rewrite Hh.
  destruct (nh_state nh); try contradiction; apply IH; assumption.
Qed.

(** When BIOCSETF fails for another reason than the program, pcap_setfilter_bpf returns an error,
    and a program that was run in userland is gone: every packet is accepted. *)
Theorem setfilter_bpf_error_accepts_all `{Alloc} filter_fuel mem h fp r : filtering_in_kernel h = false ->
  let '(st, h') := pcap_setfilter_bpf SetfError h fp in st = -1 /\ buf_accepts filter_fuel mem h' r = inr true.
Proof. intros Hk. simpl. unfold buf_accepts, accepts. simpl. now rewrite Hk. Qed.

(** ** A buffer of two packets *)

(** A header of 18 bytes, as on a system with 32-bit time stamps. *)
Definition sample_hdr (b : list byte) (i : Z) : option bpf_hdr :=
  w ← peek b i 18;
  Some (mk_bpf_hdr (le_val (take 4 w)) (le_val (take 4 (drop 4 w))) (le_val (take 4 (drop 8 w)))
          (le_val (take 4 (drop 12 w))) (le_val (drop 16 w))).
Definition sample_record (sec : Z) (pkt : list byte) : list byte :=
  le_bytes 4 sec ++ le_bytes 4 0 ++ le_bytes 4 15 ++ le_bytes 4 60 ++ le_bytes 2 18 ++ pkt ++ replicate 3 x00.
Definition pkt_arp : list byte := replicate 12 x00 ++ [x08; x06; x00].
Definition pkt_ip : list byte := replicate 12 x00 ++ [x08; x00; x45].
Definition sample_prog : list bpf_insn :=
  [ BPF_STMT (encode_op (LD_ABS SzH)) 12; BPF_JUMP (encode_op (JCOND JEQ SrcK)) 0x800 0 1;
    BPF_STMT (encode_op RET_K) 65535; BPF_STMT (encode_op RET_K) 0 ].
Definition sample_buf : buf_handle :=
  mk_buf (set_p_fcode (Some sample_prog) (set_p_bufsize 200 (set_p_buffer (replicate 200 x00) (pcap_alloc_pcap_t PrivNone))))
    0 0 0 false None (mk_stats 0 0 0 0 0 0 0).
Definition sample_found (sec bp : Z) : bpf_found := mk_found sec 0 (bp + 18) 60 15 (bp + 18) 60 15 36.
Definition sample_data : list read_answer :=
  [ReadEintr false; ReadData (sample_record 1 pkt_arp ++ sample_record 2 pkt_ip ++ sample_record 3 pkt_ip)].
Definition sample_filled : buf_handle :=
  match bpf_fill sample_data sample_buf with Some (inr (h, _, _)) => h | _ => sample_buf end.

(** Asked for one packet: the first record is rejected, the second handed on, the third left. *)
Example sample_read_one :
  match pcap_read_bpf 10 (replicate 16 0) (recorder (fun _ => false)) 4 sample_hdr sample_data 5 sample_buf 1 [] with
  | BufRet ret h' u' => ret = 1 /\ u' = [(mk_pkthdr 2 0 15 60, pkt_ip)] /\ b_bp h' = 72 /\ b_cc h' = 36
  | _ => False
  end.
Proof. vm_compute. auto. Qed.

Lemma read_bpf_each_once_witness :
  exists ret h' u' gone rest,
    pcap_read_bpf 10 (replicate 16 0) (recorder (fun _ => false)) 4 sample_hdr sample_data 5 sample_buf 1 [] = BufRet ret h' u' /\
    walked 10 (replicate 16 0) (bpf_reader 4 sample_hdr) 1 0 sample_filled [] [sample_found 1 0; sample_found 2 36; sample_found 3 72]
      ret h' u' gone rest.
Proof.
  apply (read_bpf_each_once 10 (replicate 16 0) (fun _ => false) 4 sample_hdr sample_data 5 sample_buf 1 [] sample_filled 0 108).
  - vm_compute. reflexivity.
  - apply records_next; [lia|intros st; exists st; vm_compute; reflexivity|].
    apply records_next; [vm_compute; reflexivity|intros st; exists st; vm_compute; reflexivity|].
    apply records_next; [vm_compute; reflexivity|intros st; exists st; vm_compute; reflexivity|].
    apply records_end. vm_compute. discriminate.
  - repeat constructor; (eexists; vm_compute; reflexivity).
  - simpl. lia.
  - simpl. lia.
Defined.
