(* ===== verification/NacState.v ===== *)
(** * The state of a card stream (gap16g/include/nactypes.h, gap16g/lib/nacapi.c)

    A card has an entry in [herd] with the properties of its streams. The card itself, the
    clock and the memory mappings are not under the library's control: what a register
    reads as, what time it is and where a mapping goes are functions of everything the
    library has done before, the history. The functions are parameters, in [world]. *)
From stdpp Require Import base numbers list gmap.
From Stdlib Require Import Strings.Byte.
From S2P Require Import Prelude.
Open Scope Z_scope.

(** ** Constants (nacapi.h, nac_stream.h, nacreg.h) *)

Definition NUM_STREAM : Z := 1.
Definition nac_record_size : Z := 16.
Definition SAFETY_WINDOW : Z := 128.
Definition RFT_SIZE : Z := 8 * (1 * 1024 * 1024).
Definition OVERLAP_FWD : Z := 0.
Definition COPY_FWD : Z := 1.

Definition STREAM_REG_DIFF_0x40 : Z := 0x40.
Definition DMA_CTL_REG : Z := 0x80000.
Definition HOST_ADDR_LO_REG : Z := 0x80004.
Definition BUF_BOTTOM_LO_REG : Z := 0x8000c.
Definition LIMIT_PTR_LO_REG : Z := 0x80014.
Definition RECORD_PTR_LO_REG : Z := 0x80020.
Definition DROP_CNT_REG : Z := 0x80028.
Definition TX_DMA_CTL_REG : Z := 0x80200.
Definition TX_HOST_ADDR_LO_REG : Z := 0x80204.
Definition TX_BUF_BOTTOM_LO_REG : Z := 0x8020c.
Definition TX_LIMIT_PTR_LO_REG : Z := 0x80214.
Definition TX_RECORD_PTR_LO_REG : Z := 0x8021c.

Definition EBADF : Z := 9.
Definition EAGAIN : Z := 11.
Definition EBUSY : Z := 16.
Definition EINVAL : Z := 22.
Definition ENOTTY : Z := 25.

(** The bits of [dma_ctl_reg_t]. *)
Definition addr_load : Z := 2.
Definition status_clear : Z := 4.
Definition dma_pause_n : Z := 8.

(** ** Data *)

Record timeval := mk_timeval { t_sec : Z; t_usec : Z }.
Record timespec := mk_timespec { ts_sec : Z; ts_nsec : Z }.

(** [nacpbm_stream_t]: the register offsets of a stream. It is allocated when the stream is
    configured and freed when it is detached; the pointer is not reset. *)
Record nacpbm_stream := mk_pbm {
  dma_buf_start : Z;
  dma_buf_end : Z;
  record_ptr : Z;
  limit_ptr : Z;
  drop_cnt : Z;
  dma_ctl_reg : Z
}.

Inductive pbm_ptr := PbmNull | PbmLive (b : nacpbm_stream) | PbmFreed.

(** [stream_t]. [s_buf] is the address of the mapping, which shows the buffer of [s_size]
    bytes and then its first [s_extra] bytes again. [s_ring] holds what the host has written
    to the buffer. *)
Record stream_t := mk_stream {
  s_buf : option Z;
  s_size : Z;
  s_offset : Z;
  s_processed : Z;
  s_pbm : pbm_ptr;
  s_phyaddr : Z;
  s_mindata : Z;
  s_maxwait : timeval;
  s_poll : timespec;
  s_extra : Z;
  s_free_space : Z;
  s_last_top : Z;
  s_last_bottom : Z;
  s_first_time : bool;
  s_attached : bool;
  s_started : bool;
  s_ring : gmap Z byte
}.

Definition set_s_buf (v : option Z) (s : stream_t) : stream_t :=
  mk_stream v (s_size s) (s_offset s) (s_processed s) (s_pbm s) (s_phyaddr s) (s_mindata s)
    (s_maxwait s) (s_poll s) (s_extra s) (s_free_space s) (s_last_top s) (s_last_bottom s)
    (s_first_time s) (s_attached s) (s_started s) (s_ring s).
Definition set_s_size (v : Z) (s : stream_t) : stream_t :=
  mk_stream (s_buf s) v (s_offset s) (s_processed s) (s_pbm s) (s_phyaddr s) (s_mindata s)
    (s_maxwait s) (s_poll s) (s_extra s) (s_free_space s) (s_last_top s) (s_last_bottom s)
    (s_first_time s) (s_attached s) (s_started s) (s_ring s).
Definition set_s_offset (v : Z) (s : stream_t) : stream_t :=
  mk_stream (s_buf s) (s_size s) v (s_processed s) (s_pbm s) (s_phyaddr s) (s_mindata s)
    (s_maxwait s) (s_poll s) (s_extra s) (s_free_space s) (s_last_top s) (s_last_bottom s)
    (s_first_time s) (s_attached s) (s_started s) (s_ring s).
Definition set_s_processed (v : Z) (s : stream_t) : stream_t :=
  mk_stream (s_buf s) (s_size s) (s_offset s) v (s_pbm s) (s_phyaddr s) (s_mindata s)
    (s_maxwait s) (s_poll s) (s_extra s) (s_free_space s) (s_last_top s) (s_last_bottom s)
    (s_first_time s) (s_attached s) (s_started s) (s_ring s).
Definition set_s_pbm (v : pbm_ptr) (s : stream_t) : stream_t :=
  mk_stream (s_buf s) (s_size s) (s_offset s) (s_processed s) v (s_phyaddr s) (s_mindata s)
    (s_maxwait s) (s_poll s) (s_extra s) (s_free_space s) (s_last_top s) (s_last_bottom s)
    (s_first_time s) (s_attached s) (s_started s) (s_ring s).
Definition set_s_phyaddr (v : Z) (s : stream_t) : stream_t :=
  mk_stream (s_buf s) (s_size s) (s_offset s) (s_processed s) (s_pbm s) v (s_mindata s)
    (s_maxwait s) (s_poll s) (s_extra s) (s_free_space s) (s_last_top s) (s_last_bottom s)
    (s_first_time s) (s_attached s) (s_started s) (s_ring s).
Definition set_s_mindata (v : Z) (s : stream_t) : stream_t :=
  mk_stream (s_buf s) (s_size s) (s_offset s) (s_processed s) (s_pbm s) (s_phyaddr s) v
    (s_maxwait s) (s_poll s) (s_extra s) (s_free_space s) (s_last_top s) (s_last_bottom s)
    (s_first_time s) (s_attached s) (s_started s) (s_ring s).
Definition set_s_maxwait (v : timeval) (s : stream_t) : stream_t :=
  mk_stream (s_buf s) (s_size s) (s_offset s) (s_processed s) (s_pbm s) (s_phyaddr s)
    (s_mindata s) v (s_poll s) (s_extra s) (s_free_space s) (s_last_top s) (s_last_bottom s)
    (s_first_time s) (s_attached s) (s_started s) (s_ring s).
Definition set_s_poll (v : timespec) (s : stream_t) : stream_t :=
  mk_stream (s_buf s) (s_size s) (s_offset s) (s_processed s) (s_pbm s) (s_phyaddr s)
    (s_mindata s) (s_maxwait s) v (s_extra s) (s_free_space s) (s_last_top s) (s_last_bottom s)
    (s_first_time s) (s_attached s) (s_started s) (s_ring s).
Definition set_s_extra (v : Z) (s : stream_t) : stream_t :=
  mk_stream (s_buf s) (s_size s) (s_offset s) (s_processed s) (s_pbm s) (s_phyaddr s)
    (s_mindata s) (s_maxwait s) (s_poll s) v (s_free_space s) (s_last_top s) (s_last_bottom s)
    (s_first_time s) (s_attached s) (s_started s) (s_ring s).
Definition set_s_free_space (v : Z) (s : stream_t) : stream_t :=
  mk_stream (s_buf s) (s_size s) (s_offset s) (s_processed s) (s_pbm s) (s_phyaddr s)
    (s_mindata s) (s_maxwait s) (s_poll s) (s_extra s) v (s_last_top s) (s_last_bottom s)
    (s_first_time s) (s_attached s) (s_started s) (s_ring s).
Definition set_s_last_top (v : Z) (s : stream_t) : stream_t :=
  mk_stream (s_buf s) (s_size s) (s_offset s) (s_processed s) (s_pbm s) (s_phyaddr s)
    (s_mindata s) (s_maxwait s) (s_poll s) (s_extra s) (s_free_space s) v (s_last_bottom s)
    (s_first_time s) (s_attached s) (s_started s) (s_ring s).
Definition set_s_last_bottom (v : Z) (s : stream_t) : stream_t :=
  mk_stream (s_buf s) (s_size s) (s_offset s) (s_processed s) (s_pbm s) (s_phyaddr s)
    (s_mindata s) (s_maxwait s) (s_poll s) (s_extra s) (s_free_space s) (s_last_top s) v
    (s_first_time s) (s_attached s) (s_started s) (s_ring s).
Definition set_s_first_time (v : bool) (s : stream_t) : stream_t :=
  mk_stream (s_buf s) (s_size s) (s_offset s) (s_processed s) (s_pbm s) (s_phyaddr s)
    (s_mindata s) (s_maxwait s) (s_poll s) (s_extra s) (s_free_space s) (s_last_top s)
    (s_last_bottom s) v (s_attached s) (s_started s) (s_ring s).
Definition set_s_attached (v : bool) (s : stream_t) : stream_t :=
  mk_stream (s_buf s) (s_size s) (s_offset s) (s_processed s) (s_pbm s) (s_phyaddr s)
    (s_mindata s) (s_maxwait s) (s_poll s) (s_extra s) (s_free_space s) (s_last_top s)
    (s_last_bottom s) (s_first_time s) v (s_started s) (s_ring s).
Definition set_s_started (v : bool) (s : stream_t) : stream_t :=
  mk_stream (s_buf s) (s_size s) (s_offset s) (s_processed s) (s_pbm s) (s_phyaddr s)
    (s_mindata s) (s_maxwait s) (s_poll s) (s_extra s) (s_free_space s) (s_last_top s)
    (s_last_bottom s) (s_first_time s) (s_attached s) v (s_ring s).
Definition set_s_ring (v : gmap Z byte) (s : stream_t) : stream_t :=
  mk_stream (s_buf s) (s_size s) (s_offset s) (s_processed s) (s_pbm s) (s_phyaddr s)
    (s_mindata s) (s_maxwait s) (s_poll s) (s_extra s) (s_free_space s) (s_last_top s)
    (s_last_bottom s) (s_first_time s) (s_attached s) (s_started s) v.

(** [sheep_t] and the part of [nacinf_t] that is used. *)
Record sheep := mk_sheep {
  opened : bool;
  streams : list stream_t;
  phy_addr : Z;
  buf_size : Z;
  num_stream : Z;
  msu_config : bool
}.

Definition set_streams (l : list stream_t) (s : sheep) : sheep :=
  mk_sheep (opened s) l (phy_addr s) (buf_size s) (num_stream s) (msu_config s).
Definition set_config (n : Z) (c : bool) (s : sheep) : sheep :=
  mk_sheep (opened s) (streams s) (phy_addr s) (buf_size s) n c.

(** ** The world *)

Inductive io_event :=
| RegRead (reg val : Z)
| RegWrite (reg val : Z)
| Slept
| Clock
| Mapped (at_ : Z)
| Allocated
| SystemCall.

Abbreviation history := (list io_event).

(** [w_call] says whether an open, clone or ioctl call succeeds, and [w_info] what the card
    says of its buffer: its physical address and size. [w_map] is [None] when [mmap] fails; [w_byte h i o] is the byte at offset [o] of the
    buffer of stream [i]; [w_shutdown] is the flag a signal sets. *)
Record world := mk_world {
  w_reg : history -> Z -> Z;
  w_clock : history -> timeval;
  w_map : history -> Z -> option Z;
  w_malloc : history -> bool;
  w_call : history -> bool;
  w_info : history -> Z * Z;
  w_byte : history -> Z -> Z -> byte;
  w_shutdown : history -> bool
}.

(** ** State and results *)

(** The newest event is the first of [n_hist]. *)
Record nst := mk_nst { n_hist : history; n_sheep : sheep; n_errno : Z }.

(** [NHang]: the model has stopped waiting for the card. [NFault]: a null or freed pointer,
    an index outside a table or an address outside a mapping. [NExit]: [exit]. *)
Inductive nres (A : Type) :=
| NDone (a : A) (s : nst)
| NHang
| NFault
| NExit.
Arguments NDone {A} a s.
Arguments NHang {A}.
Arguments NFault {A}.
Arguments NExit {A}.

Definition nac (A : Type) : Type := nst -> nres A.

#[export] Instance nac_ret : MRet nac := fun A a s => NDone a s.
#[export] Instance nac_bind : MBind nac := fun A B f m s =>
  match m s with
  | NDone a s' => f a s'
  | NHang => NHang
  | NFault => NFault
  | NExit => NExit
  end.

Definition fault {A} : nac A := fun _ => NFault.
Definition hang {A} : nac A := fun _ => NHang.
Definition exit_1 {A} : nac A := fun _ => NExit.
Definition get : nac nst := fun s => NDone s s.
Definition get_sheep : nac sheep := fun s => NDone (n_sheep s) s.
Definition ofoption {A} (o : option A) : nac A := match o with Some a => mret a | None => fault end.

(** [errno = e; return a] *)
Definition fail_with {A} (e : Z) (a : A) : nac A := fun s => NDone a (mk_nst (n_hist s) (n_sheep s) e).

Definition log (e : io_event) : nac unit := fun s => NDone tt (mk_nst (e :: n_hist s) (n_sheep s) (n_errno s)).
Definition put_sheep (x : sheep) : nac unit := fun s => NDone tt (mk_nst (n_hist s) x (n_errno s)).

(** [herd[nacfd].stream[i]], read and written. *)
Definition get_stream (i : Z) : nac stream_t := x ← get_sheep; ofoption (at_Z (streams x) i).
Definition upd_stream (i : Z) (f : stream_t -> stream_t) : nac unit :=
  s ← get_stream i; x ← get_sheep; put_sheep (set_streams (<[Z.to_nat i := f s]> (streams x)) x).

(** [stream->pbm->...] *)
Definition get_pbm (i : Z) : nac nacpbm_stream :=
  s ← get_stream i; match s_pbm s with PbmLive b => mret b | _ => fault end.

Section World.
Context (w : world).

(** [reg_read] and [reg_write] (nacapi.c). *)
Definition reg_read (reg : Z) : nac Z :=
  s ← get; let v := u32 (w_reg w (n_hist s) reg) in _ ← log (RegRead reg v); mret v.
Definition reg_write (reg v : Z) : nac unit := log (RegWrite reg (u32 v)).

Definition gettimeofday : nac timeval := s ← get; _ ← log Clock; mret (w_clock w (n_hist s)).
Definition nanosleep : nac unit := log Slept.

(** [mmap] of so many bytes. *)
Definition mmap (n : Z) : nac (option Z) :=
  s ← get; let r := w_map w (n_hist s) n in _ ← log (Mapped (default 0 r)); mret r.
Definition malloc : nac bool := s ← get; _ ← log Allocated; mret (w_malloc w (n_hist s)).
Definition system_call : nac bool := s ← get; _ ← log SystemCall; mret (w_call w (n_hist s)).

(** A byte of the buffer of stream [i], through its mapping. *)
Definition load_byte (i a : Z) : nac byte :=
  st ← get_stream i;
  b ← ofoption (s_buf st);
  let o := a - b in
  if (0 <=? o) && (o <? s_size st + s_extra st) then
    s ← get; mret (w_byte w (n_hist s) i (if o <? s_size st then o else o - s_size st))
  else fault.
End World.

(** Bytes stored in the ring from offset [o] on. *)
Fixpoint write_ring (size o : Z) (bs : list byte) (m : gmap Z byte) : gmap Z byte :=
  match bs with
  | [] => m
  | b :: bs' => write_ring size (o + 1) bs' (<[(if o <? size then o else o - size) := b]> m)
  end.

(** [memcpy] to the address [a] in the mapping of stream [i]. *)
Definition store_bytes (i a : Z) (bs : list byte) : nac unit :=
  st ← get_stream i;
  b ← ofoption (s_buf st);
  let o := a - b in
  if (0 <=? o) && (o + Z.of_nat (length bs) <=? s_size st + s_extra st)
  then upd_stream i (fun s => set_s_ring (write_ring (s_size s) o bs (s_ring s)) s)
  else fault.
