(* ===== verification/NacName.v ===== *)
(** * Card names (gap16g/lib/nac_stream.c)

    [nac_parse_name] takes a name such as /dev/nac0:3, nac0:3 or 0:3 apart, in a copy of at
    most 16 characters. *)
From stdpp Require Import base numbers list strings.
From Stdlib Require Import Strings.String Strings.Ascii.
From S2P Require Import Prelude BpfImage NacState.
Open Scope Z_scope.

Definition isdigit (c : ascii) : bool := (48 <=? Z.of_nat (nat_of_ascii c)) && (Z.of_nat (nat_of_ascii c) <=? 57).
Definition digit_val (c : ascii) : Z := Z.of_nat (nat_of_ascii c) - 48.

(** ** [strtok] *)

Definition is_delim (delims : string) (c : ascii) : bool := existsb (Ascii.eqb c) (list_ascii_of_string delims).

Fixpoint skip_delims (delims s : string) : string :=
  match s with
  | String c s' => if is_delim delims c then skip_delims delims s' else s
  | EmptyString => s
  end.

(** The characters before the first delimiter, and those behind it if there is one. *)
Fixpoint token (delims s : string) : string * option string :=
  match s with
  | EmptyString => (EmptyString, None)
  | String c s' => if is_delim delims c then (EmptyString, Some s') else let (t, r) := token delims s' in (String c t, r)
  end.

(** [Some None] is a null pointer; otherwise the token and what is left. [None]: the string
    is not terminated and read past its end. *)
Definition strtok (delims : string) (terminated : bool) (s : string) : option (option (string * string)) :=
  let s := skip_delims delims s in
  match s with
  | EmptyString => if terminated then Some None else None
  | _ =>
      match token delims s with
      | (t, Some r) => Some (Some (t, r))
      | (t, None) => if terminated then Some (Some (t, EmptyString)) else None
      end
  end.

(** ** [nac_parse_name] *)

(** [strstr] finds [pat]. *)
Definition contains (pat s : string) : bool := match String.index 0 pat s with Some _ => true | None => false end.

(** The digits [atoi] reads; [None] when the value is not an [int]. *)
Fixpoint atoi_from (acc : Z) (s : string) : Z :=
  match s with
  | String c s' => if isdigit c then atoi_from (acc * 10 + digit_val c) s' else acc
  | EmptyString => acc
  end.
Definition atoi (s : string) : option Z := let v := atoi_from 0 s in if is_s32 v then Some v else None.

(** The character [n] places before the end. *)
Definition from_end (n : nat) (s : string) : option ascii := String.get (String.length s - n) s.

(** The number at the end of the device's name, two digits at most. *)
Definition device_number (device : string) : option Z :=
  match from_end 1 device with
  | Some c =>
      if isdigit c then
        Some (digit_val c + (if (2 <=? String.length device)%nat then
                match from_end 2 device with Some d => if isdigit d then 10 * digit_val d else 0 | None => 0 end else 0))
      else None
  | None => None
  end.

(** The name has the form it begins like; a name that begins with neither '/' nor 'd' is not
    looked at. *)
Definition device_ok (device : string) : bool :=
  match device with
  | String "/" _ => contains "/dev/nac" device
  | String "d" _ => contains "nac" device
  | _ => true
  end.

Definition explicit_stream (rest : option (string * string)) : option Z :=
  match rest with
  | Some (String c s, _) => if isdigit c then atoi (String c s) else Some 0
  | _ => Some 0
  end.

(** The status, [errno] if it is set, the buffer if it is written and the stream number; an
    argument that is wrong leaves the last two alone. *)
Inductive parsed :=
| Parsed (buffer : string) (stream_number : Z)
| BadName
| BadArgument.

Definition nac_parse_name (name : string) (buflen : Z) : option parsed :=
  if buflen =? 0 then None
  else if buflen <? 16 then Some BadArgument
  else
    let tokbuf := String.substring 0 16 name in
    let terminated := (String.length name <? 16)%nat in
    let default := Some (Parsed "/dev/nac0" 0) in
    if (String.length name =? 0)%nat then default
    else
      match strtok (String ":" (String "010" EmptyString)) terminated tokbuf with
      | None => None
      | Some None => default
      | Some (Some (device, rest)) =>
          if negb (device_ok device) then Some BadName
          else
            match device_number device with
            | None => Some BadName
            | Some n =>
                let buffer := ("/dev/nac" ++ print_u 10 n)%string in
                match strtok (String " " (String "009" (String ":" (String "010" EmptyString)))) terminated rest with
                | None => None
                | Some r => match explicit_stream r with Some k => Some (Parsed buffer k) | None => None end
                end
            end
      end.

(** ** The forms the code supports *)

Definition name_forms : list string := ["/dev/nac"; "nac"; ""]%string.

Definition form_ok (form : string) (n k : nat) : bool :=
  let number := print_u 10 (Z.of_nat n) in
  match nac_parse_name (form ++ number ++ ":" ++ print_u 10 (Z.of_nat k))%string 16 with
  | Some (Parsed b s) => (b =? "/dev/nac" ++ number)%string && (s =? Z.of_nat k)
  | _ => false
  end.

Lemma forms_checked : forallb (fun form => forallb (fun n => forallb (form_ok form n) (seq 0 32)) (seq 0 100)) name_forms = true.
Proof. vm_compute. reflexivity. Qed.

Lemma parse_buflen name b : 16 <= b -> nac_parse_name name b = nac_parse_name name 16.
Proof.
  intros H. unfold nac_parse_name. destruct (Z.eqb_spec b 0); [lia|]. destruct (Z.ltb_spec b 16); [lia|]. reflexivity.
Qed.

(** Each of the forms /dev/nacN:S, nacN:S and N:S, for every device number of up to two
    digits and every stream, gives the device's file and the stream. A name that begins with
    neither '/' nor 'd' is not compared with "nac": eth5 gives /dev/nac5. *)
Theorem nac_parse_name_forms form n k buflen :
  In form name_forms -> 0 <= n < 100 -> 0 <= k < 32 -> 16 <= buflen ->
  nac_parse_name (form ++ print_u 10 n ++ ":" ++ print_u 10 k)%string buflen = Some (Parsed ("/dev/nac" ++ print_u 10 n)%string k) /\
  nac_parse_name "eth5" buflen = Some (Parsed "/dev/nac5" 0).
Proof.
  intros Hf Hn Hk Hb. split; rewrite parse_buflen by done; [|reflexivity].
  pose proof forms_checked as H. rewrite forallb_forall in H. specialize (H form Hf). rewrite forallb_forall in H.
  specialize (H (Z.to_nat n)). rewrite forallb_forall in H. specialize (H ltac:(apply in_seq; lia) (Z.to_nat k)).
  unfold form_ok in H. rewrite !Z2Nat.id in H by lia.
  assert (In (Z.to_nat k) (seq 0 32)) as Hin by (apply in_seq; lia). specialize (H Hin).
  destruct (nac_parse_name _ 16) as [[b s| |]|]; try discriminate H. apply andb_true_iff in H as [E1%String.eqb_eq E2%Z.eqb_eq]. congruence.
Qed.

Lemma nac_parse_name_forms_witness :
  nac_parse_name "nac12:3" 16 = Some (Parsed "/dev/nac12" 3).
Proof. apply (nac_parse_name_forms "nac" 12 3 16); [right; now left|lia|lia|lia]. Defined.
