(* ===== verification/NacStream.v ===== *)
(** * Streams of a card (gap16g/lib/nac_stream.c)

    A receive stream is a ring the card fills from [record_ptr] on and the host empties up
    to [limit_ptr]; a transmit stream is the reverse. A stream is attached (its ring is
    mapped, twice in a row), started, stopped and detached. Where the code waits for the
    card, [patience] bounds the turns of the loop. *)
From stdpp Require Import base numbers list gmap.
From Stdlib Require Import Strings.Byte.
From S2P Require Import Prelude NacState.
Open Scope Z_scope.

(** ** Time *)

Definition timerisset (t : timeval) : bool := negb ((t_sec t =? 0) && (t_usec t =? 0)).
Definition time_after (a b : timeval) : bool :=
  if t_sec a =? t_sec b then t_usec b <? t_usec a else t_sec b <? t_sec a.
Definition timeradd (a b : timeval) : timeval :=
  let u := t_usec a + t_usec b in
  if 1000000 <=? u then mk_timeval (t_sec a + t_sec b + 1) (u - 1000000) else mk_timeval (t_sec a + t_sec b) u.

(** [NAC_TIMEVAL_TO_TIMESPEC] *)
Definition to_timespec (t : timeval) : timespec := mk_timespec (t_sec t) (t_usec t * 1000).

Definition nacapi_mindata : Z := nac_record_size.
Definition nacapi_maxwait : timeval := mk_timeval 0 0.
Definition nacapi_poll : timespec := mk_timespec 0 (1 * 1000 * 1000).

Section Stream.
Context (w : world) (patience : nat).

(** ** Guards and small steps *)

Definition if_opened {A} (bad : A) (k : nac A) : nac A :=
  x ← get_sheep; if opened x then k else fail_with EBADF bad.
Definition if_attached {A} (i : Z) (bad : A) (k : nac A) : nac A :=
  if_opened bad (s ← get_stream i; if s_attached s then k else fail_with EINVAL bad).

(** The pause bit cleared; the value written. *)
Definition dma_pause (b : nacpbm_stream) : nac Z :=
  v ← reg_read w (dma_ctl_reg b);
  let v := Z.land v (Z.lnot dma_pause_n) in
  _ ← reg_write (dma_ctl_reg b) v; mret v.

(** ** Life of a receive stream *)

Definition init_poll (s : stream_t) : stream_t :=
  set_s_poll nacapi_poll (set_s_maxwait nacapi_maxwait (set_s_mindata nacapi_mindata s)).

(** The ring mapped twice in a row; the second and third call map over the first. *)
Definition map_stream (size extra : Z) : nac (option Z) :=
  sp ← mmap w (u32 (size + extra));
  match sp with
  | None => mret None
  | Some a =>
      p ← mmap w size;
      match p with
      | None => mret None
      | Some _ => ep ← mmap w extra; mret (match ep with Some _ => Some a | None => None end)
      end
  end.

Definition attached_at (a extra phy : Z) (s : stream_t) : stream_t :=
  set_s_started false (set_s_attached true (set_s_phyaddr phy (set_s_first_time true
    (set_s_free_space 0 (set_s_offset 0 (set_s_buf (Some a) (set_s_extra extra s))))))).

Definition nac_attach_stream (i flags extra_window_size : Z) : nac Z :=
  if_opened (-1) (
    x ← get_sheep;
    s ← get_stream i;
    let size := s32 (s_size s) in
    _ ← upd_stream i init_poll;
    let extra := if extra_window_size =? 0 then u32 size else extra_window_size in
    if size <? s32 extra then fail_with EINVAL (-1)
    else
      p ← map_stream size extra;
      match p with
      | None => mret (-1)
      | Some a => _ ← upd_stream i (attached_at a extra (u32 (phy_addr x + i * size))); mret 0
      end).

Definition set_poll_params (mindata : Z) (maxwait poll : timeval) (s : stream_t) : stream_t :=
  set_s_poll (to_timespec poll) (set_s_maxwait maxwait (set_s_mindata mindata s)).

Definition nac_set_stream_poll (i mindata : Z) (maxwait poll : timeval) : nac Z :=
  if_attached i (-1) (_ ← upd_stream i (set_poll_params mindata maxwait poll); mret 0).

(** The register offsets are read before the guards. *)
Definition nac_start_stream (i : Z) : nac Z :=
  s ← get_stream i;
  b ← get_pbm i;
  if_attached i (-1) (
    if s_started s then fail_with EBUSY (-1)
    else
      _ ← reg_write (limit_ptr b) (s_phyaddr s + s_size s);
      _ ← reg_read w (limit_ptr b);
      _ ← reg_read w (record_ptr b);
      _ ← reg_write (dma_ctl_reg b) dma_pause_n;
      _ ← upd_stream i (set_s_started true);
      mret 0).

Definition nac_stop_stream (i : Z) : nac Z :=
  if_attached i (-1) (
    s ← get_stream i;
    if negb (s_started s) then fail_with EINVAL (-1)
    else
      b ← get_pbm i;
      _ ← dma_pause b;
      _ ← upd_stream i (set_s_started false);
      mret 0).

Definition unstarted (s : stream_t) : stream_t := set_s_attached false (set_s_started false s).

(** [s_buf] and [s_pbm] keep their dangling values. *)
Definition nac_detach_stream (i : Z) : nac Z :=
  if_opened (-1) (
    s ← get_stream i;
    _ ← (match s_buf s with
         | None => mret tt
         | Some _ => b ← get_pbm i; _ ← dma_pause b; upd_stream i (set_s_pbm PbmFreed)
         end);
    _ ← upd_stream i unstarted;
    mret 0).

Definition nac_get_bufsize (i : Z) : nac Z := s ← get_stream i; mret (s32 (s_size s)).
Definition nac_get_drop_cnt (i : Z) : nac Z := b ← get_pbm i; reg_read w (drop_cnt b).

(** ** Receiving *)

Definition align_128 (a : Z) : Z := Z.land a (Z.lnot 0x7f).

(** [WRSAFE] *)
Definition wrsafe (size x : Z) : Z := if x - SAFETY_WINDOW <=? 0 then size else x - SAFETY_WINDOW.

(** Bytes between [bottom] and [offset] around the ring, as an [uint32_t]. *)
Definition available (size bottom offset : Z) : Z :=
  u32 (if bottom <=? offset then offset - bottom else size - bottom + offset).

Definition poll_sleep (s : stream_t) : nac unit :=
  if negb (ts_sec (s_poll s) =? 0) || negb (ts_nsec (s_poll s) =? 0) then nanosleep else mret tt.

(** Until there are [mindata] bytes or the time is over. *)
Fixpoint wait_mindata (turns : nat) (s : stream_t) (b : nacpbm_stream) (buf bottom offset : Z) (now expire : timeval)
  : nac Z :=
  if s_mindata s <=? available (s_size s) bottom offset then mret offset
  else if timerisset (s_maxwait s) && time_after now expire then mret offset
  else
    match turns with
    | O => hang
    | S turns' =>
        _ ← poll_sleep s;
        r ← reg_read w (record_ptr b);
        now ← (if timerisset (s_maxwait s) then gettimeofday w else mret now);
        wait_mindata turns' s b buf bottom (r - s_phyaddr s + buf) now expire
    end.

(** The position returned, from that of the card. *)
Definition top_of (s : stream_t) (buf bottom offset : Z) : Z :=
  let offset := if offset <? bottom then offset + s_size s else offset in
  let offset := Z.min offset (buf + s_size s + s_extra s) in
  if SAFETY_WINDOW <=? offset - bottom then offset - SAFETY_WINDOW else offset.

(** [bottom] of the next call. *)
Definition wrap_bottom (s : stream_t) (buf : Z) (bottom : option Z) : Z :=
  let bottom := default buf bottom in
  if buf + s_size s <? bottom then bottom - s_size s else bottom.

(** The result, null for failure, and [*bottom] after the call. *)
Definition nac_advance_stream (i : Z) (bottom : option Z) : nac (option Z * option Z) :=
  s ← get_stream i;
  if_attached i (None, bottom) (
    buf ← ofoption (s_buf s);
    now ← (if timerisset (s_maxwait s) then gettimeofday w else mret (mk_timeval 0 0));
    let expire := timeradd now (s_maxwait s) in
    let bottom := wrap_bottom s buf bottom in
    let aligned := align_128 bottom in
    b ← get_pbm i;
    r ← reg_read w (record_ptr b);
    let offset := u32 (r - s_phyaddr s) + buf in
    v ← dma_pause b;
    _ ← reg_write (limit_ptr b) (s_phyaddr s + wrsafe (s_size s) (aligned - buf));
    _ ← reg_write (dma_ctl_reg b) (Z.lor v dma_pause_n);
    offset ← wait_mindata patience s b buf aligned offset now expire;
    mret (Some (top_of s buf aligned offset), Some bottom)).

(** [ntohs] of the two bytes at [a]. *)
Definition load_be16 (i a : Z) : nac Z :=
  hi ← load_byte w i a; lo ← load_byte w i (a + 1); mret (b2z hi * 256 + b2z lo).

(** The fields [rlen] and [wlen] of [erf_record_t]. *)
Definition erf_rlen (i a : Z) : nac Z := load_be16 i (a + 10).
Definition erf_wlen (i a : Z) : nac Z := load_be16 i (a + 14).

Definition first_record (s : stream_t) : stream_t :=
  set_s_processed 0 (set_s_free_space 0 (set_s_first_time false (set_s_offset 0 s))).

(** Advance when [enough] fails; null when [enough] still fails. *)
Definition refill (i next : Z) (enough : stream_t -> bool) : nac (option Z) :=
  '(top, next') ← nac_advance_stream i (Some next);
  match top, next' with
  | Some top, Some next =>
      _ ← upd_stream i (fun s => set_s_free_space (s32 (top - next)) (set_s_processed 0 s));
      s ← get_stream i;
      if enough s then mret (Some next) else fail_with EAGAIN None
  | _, _ => mret None
  end.

(** [n] bytes more stay inside the second mapping. *)
Definition in_window (n : Z) (s : stream_t) : bool := u32 (s_processed s + n) <=? s_extra s.

(** [free_space] is signed; compared with [rlen] it is converted to unsigned. *)
Definition holds_record (rlen : Z) (s : stream_t) : bool := rlen <=? u32 (s_free_space s).

Definition nac_get_next_record (i : Z) : nac (option Z) :=
  s ← get_stream i;
  if_attached i None (
    buf ← ofoption (s_buf s);
    _ ← (if s_first_time s then upd_stream i first_record else mret tt);
    s ← get_stream i;
    let next := buf + s_offset s in
    next ← (if (nac_record_size <=? s_free_space s) && in_window nac_record_size s then mret (Some next)
            else refill i next (fun s => nac_record_size <=? s_free_space s));
    match next with
    | None => mret None
    | Some next =>
        rlen ← erf_rlen i next;
        s ← get_stream i;
        next ← (if holds_record rlen s && in_window rlen s then mret (Some next)
                else refill i next (holds_record rlen));
        match next with
        | None => mret None
        | Some next =>
            _ ← upd_stream i (fun s => set_s_offset (u32 (next + rlen - buf)) (set_s_free_space (s32 (s_free_space s - rlen))
                                 (set_s_processed (u32 (s_processed s + rlen)) s)));
            mret (Some next)
        end
    end).
End Stream.
