(* ===== verification/NacTx.v ===== *)
(** * Transmit streams of a card (gap16g/lib/nac_stream.c)

    The host writes records to the ring and moves [limit_ptr]; the card reads them and moves
    [record_ptr]. There are two ways to send: [nac_tx_stream_copy_bytes] copies into the
    ring in one or two pieces, and [nac_tx_get_stream_space] hands out an address of the
    double mapping to write at, which [nac_tx_stream_commit_bytes] then sends. *)
From stdpp Require Import base numbers list gmap.
From Stdlib Require Import Strings.Byte.
From S2P Require Import Prelude NacState NacStream.
Open Scope Z_scope.

Section Tx.
Context (w : world) (patience : nat).

(** ** Life of a transmit stream *)

(** A message is printed and -1 returned; [errno] stays. *)
Definition if_tx {A} (i : Z) (bad : A) (k : nac A) : nac A := if i <? NUM_STREAM then mret bad else k.

(** Attached to the ring of the receive stream, when packets are forwarded in place. *)
Definition attached_overlap (extra : Z) (s : stream_t) : stream_t :=
  set_s_started false (set_s_attached true (set_s_first_time true (set_s_free_space 0 (set_s_offset 0 (set_s_extra extra s))))).

Definition nac_tx_attach_stream (i flags extra_window_size : Z) : nac Z :=
  if_opened (-1) (if_tx i (-1) (
    x ← get_sheep;
    s ← get_stream i;
    let size := s32 (s_size s) in
    _ ← upd_stream i init_poll;
    let extra := if extra_window_size =? 0 then u32 size else extra_window_size in
    if size <? s32 extra then fail_with EINVAL (-1)
    else if flags =? OVERLAP_FWD then _ ← upd_stream i (attached_overlap extra); mret 0
    else
      p ← map_stream w size extra;
      match p with
      | None => mret (-1)
      | Some a => _ ← upd_stream i (attached_at a extra (u32 (phy_addr x + i * size))); mret 0
      end)).

Definition nac_tx_set_stream_poll (i mindata : Z) (maxwait poll : timeval) : nac Z :=
  if_attached i (-1) (if_tx i (-1) (_ ← upd_stream i (set_poll_params mindata maxwait poll); mret 0)).

Definition nac_tx_start_stream (i : Z) : nac Z :=
  s ← get_stream i;
  b ← get_pbm i;
  if_attached i (-1) (
    if s_started s then fail_with EBUSY (-1)
    else if_tx i (-1) (
      _ ← reg_write (limit_ptr b) (s_phyaddr s);
      _ ← reg_read w (limit_ptr b);
      _ ← reg_read w (record_ptr b);
      _ ← reg_write (dma_ctl_reg b) dma_pause_n;
      _ ← upd_stream i (set_s_started true);
      mret 0)).

(** Until the card has sent everything. *)
Fixpoint wait_sent (turns : nat) (b : nacpbm_stream) (rcd limit : Z) : nac unit :=
  if rcd =? limit then mret tt
  else
    match turns with
    | O => hang
    | S turns' => rcd ← reg_read w (record_ptr b); _ ← nanosleep; wait_sent turns' b rcd limit
    end.

Definition nac_tx_stop_stream (i : Z) : nac Z :=
  if_attached i (-1) (
    s ← get_stream i;
    if negb (s_started s) then fail_with EINVAL (-1)
    else if_tx i (-1) (
      b ← get_pbm i;
      rcd ← reg_read w (record_ptr b);
      limit ← reg_read w (limit_ptr b);
      _ ← wait_sent patience b rcd limit;
      _ ← dma_pause w b;
      _ ← upd_stream i (set_s_started false);
      mret 0)).

(** [munmap] is skipped for a stream that shares the receive ring. *)
Definition nac_tx_detach_stream (i flags : Z) : nac Z :=
  if_opened (-1) (if_tx i (-1) (
    s ← get_stream i;
    _ ← (match s_buf s with
         | None => mret tt
         | Some _ => b ← get_pbm i; _ ← dma_pause w b; upd_stream i (set_s_pbm PbmFreed)
         end);
    _ ← upd_stream i unstarted;
    mret 0)).

(** ** Sending *)

(** The stream is not one of those that transmit. *)
Definition not_tx (i : Z) : bool := (i <? NUM_STREAM) || (NUM_STREAM * 2 - 1 <? i).

Definition set_free (top free : Z) (s : stream_t) : stream_t := set_s_free_space free (set_s_last_top top s).

(** Space by the card's pointers, [SAFETY_WINDOW] bytes kept back. *)
Definition copy_space (size top bottom : Z) : Z :=
  let free := s32 (top - (bottom + SAFETY_WINDOW)) in if free <? 0 then s32 (free + size) else free.

Fixpoint wait_copy_space (turns : nat) (i n : Z) : nac unit :=
  s ← get_stream i;
  if s32 n <=? s_free_space s then mret tt
  else
    match turns with
    | O => hang
    | S turns' =>
        b ← get_pbm i;
        top ← reg_read w (record_ptr b);
        bottom ← reg_read w (limit_ptr b);
        _ ← upd_stream i (fun s => set_free top (copy_space (s_size s) top bottom) (set_s_last_bottom bottom s));
        _ ← nanosleep;
        wait_copy_space turns' i n
    end.

(** [n] bytes of the ring of stream [i], from its start. *)
Fixpoint load_bytes (i a : Z) (n : nat) : nac (list byte) :=
  match n with
  | O => mret []
  | S n' => b ← load_byte w i a; bs ← load_bytes i (a + 1) n'; mret (b :: bs)
  end.

(** The bytes to send: those at [orig], or those of the receive stream when it is null. *)
Definition orig_bytes (i : Z) (orig : option (list byte)) (n : Z) : nac (list byte) :=
  match orig with
  | Some bs => if Z.of_nat (length bs) <? n then fault else mret (take (Z.to_nat n) bs)
  | None => r ← get_stream (i - NUM_STREAM); a ← ofoption (s_buf r); load_bytes (i - NUM_STREAM) a (Z.to_nat n)
  end.

Definition nac_tx_stream_copy_bytes (i : Z) (orig : option (list byte)) (size : Z) : nac Z :=
  if_attached i (-1) (
    s ← get_stream i;
    if s_size s <? size then fail_with EINVAL (-1)
    else if not_tx i then fail_with ENOTTY (-1)
    else
      _ ← wait_copy_space patience i size;
      let written := s32 size in
      _ ← upd_stream i (fun s => set_s_free_space (s32 (s_free_space s - written)) s);
      s ← get_stream i;
      buf ← ofoption (s_buf s);
      bs ← orig_bytes i orig written;
      let remaining := s32 (s_size s - s_offset s) in
      _ ← (if written <=? remaining then store_bytes i (buf + s_offset s) bs
           else if remaining <? 0 then fault
           else
             _ ← store_bytes i (buf + s_offset s) (take (Z.to_nat remaining) bs);
             store_bytes i buf (drop (Z.to_nat remaining) bs));
      let offset := u32 (s_offset s + written) in
      let offset := if s_size s <=? offset then u32 (offset - s_size s) else offset in
      let bottom := u32 (s_phyaddr s + offset) in
      _ ← upd_stream i (fun s => set_s_last_bottom bottom (set_s_offset offset s));
      b ← get_pbm i;
      _ ← reg_write (limit_ptr b) bottom;
      mret written).

Definition tx_space (size top bottom : Z) : Z :=
  let free := s32 (top - bottom) in if free <=? 0 then s32 (free + size) else free.

Fixpoint wait_space (turns : nat) (i n : Z) : nac unit :=
  s ← get_stream i;
  if n <=? s_free_space s then mret tt
  else
    match turns with
    | O => hang
    | S turns' =>
        b ← get_pbm i;
        top ← reg_read w (record_ptr b);
        _ ← upd_stream i (fun s => set_free top (tx_space (s_size s) top (s_last_bottom s)) s);
        _ ← nanosleep;
        wait_space turns' i n
    end.

(** The sum in the loop's condition is an [int]; its overflow is undefined. *)
Definition nac_tx_get_stream_space (i size : Z) : nac (option Z) :=
  if_attached i None (
    if size =? 0 then fail_with EINVAL None
    else if not_tx i then fail_with ENOTTY None
    else
      b ← get_pbm i;
      bottom ← reg_read w (limit_ptr b);
      _ ← upd_stream i (set_s_last_bottom bottom);
      if 2 ^ 31 <=? s32 size + 2048 then fault
      else
        _ ← wait_space patience i (s32 size + 2048);
        _ ← upd_stream i (fun s => set_s_free_space (s32 (s_free_space s - size)) s);
        s ← get_stream i;
        buf ← ofoption (s_buf s);
        mret (Some (buf + s_offset s))).

Definition nac_tx_stream_commit_bytes (i size : Z) : nac (option Z) :=
  if_attached i None (
    s ← get_stream i;
    if s_size s <? size then fail_with EINVAL None
    else if not_tx i then fail_with ENOTTY None
    else
      let offset := u32 (s_offset s + size) in
      let offset := if s_size s <? offset then u32 (offset - s_size s) else offset in
      let bottom := u32 (s_phyaddr s + offset) in
      _ ← upd_stream i (fun s => set_s_last_bottom bottom (set_s_offset offset s));
      b ← get_pbm i;
      _ ← reg_write (limit_ptr b) bottom;
      buf ← ofoption (s_buf s);
      mret (Some (buf + offset))).

(** ** Forwarding from a receive ring *)

(** [nac_advance_stream] for packets that are sent from the ring they came in: the limit
    follows the record pointer of the transmit stream, not [*bottom]. *)
Definition nac_inline_advance_stream (i : Z) (bottom : option Z) : nac (option Z * option Z) :=
  s ← get_stream i;
  tx ← get_pbm (i + NUM_STREAM);
  sent ← reg_read w (record_ptr tx);
  if NUM_STREAM <=? i then mret (None, bottom)
  else if_attached i (None, bottom) (
    buf ← ofoption (s_buf s);
    now ← (if timerisset (s_maxwait s) then gettimeofday w else mret (mk_timeval 0 0));
    let expire := timeradd now (s_maxwait s) in
    let bottom := wrap_bottom s buf bottom in
    let aligned := align_128 (u32 (sent - s_phyaddr s) + buf) in
    b ← get_pbm i;
    r ← reg_read w (record_ptr b);
    let offset := u32 (r - s_phyaddr s) + buf in
    v ← dma_pause w b;
    _ ← reg_write (limit_ptr b) (s_phyaddr s + wrsafe (s_size s) (aligned - buf));
    _ ← reg_write (dma_ctl_reg b) (Z.lor v dma_pause_n);
    offset ← wait_mindata w patience s b buf bottom offset now expire;
    let offset := if offset <? bottom then offset + s_size s else offset in
    mret (Some (Z.min offset (buf + s_size s + s_extra s)), Some bottom)).

(** One packet from a receive ring. *)

(** [rec] is the memory at [bottom]; the port goes to bits 4 and 5 of its byte 15. *)
Definition set_out_port (rec : list byte) (number : Z) : list byte :=
  alter (fun b => z2b (Z.lor (Z.land (b2z b) 0xcf) (Z.shiftl number 4))) 15%nat rec.

(** The new [*orig_ptr], and the record as it is left. *)
Definition nac_tx_memcpy (i : Z) (cp_org : option Z) (rec : option (list byte)) (out_port : Z)
  : nac (option (Z * list byte)) :=
  match rec, cp_org with
  | Some rec, Some a =>
      let number := u8 out_port in
      if 3 <? number then mret None
      else
        hi ← ofoption (rec !! 10%nat);
        lo ← ofoption (rec !! 11%nat);
        _ ← ofoption (rec !! 15%nat);
        let rlen := b2z hi * 256 + b2z lo in
        let rec := set_out_port rec number in
        if Z.of_nat (length rec) <? rlen then fault
        else _ ← store_bytes i a (take (Z.to_nat rlen) rec); mret (Some (a + rlen, rec))
  | _, _ => mret None
  end.
End Tx.

(** ** Flow table *)

Definition STRATEGY_LIST_MAX : Z := 1024.
Definition FLOWTABLE_MAX_NUM : Z := 4194304.

(** The table after the call, [None] where the code returns -1; [Some None] is a store
    outside the table. *)
Definition nac_write_flowtable (table : list byte) (entry policy_id hash2 : Z) : option (option (list byte)) :=
  if STRATEGY_LIST_MAX <=? policy_id then None
  else if FLOWTABLE_MAX_NUM <=? entry then None
  else if 0x3f <? hash2 then None
  else
    let tmp := u16 (Z.lor (Z.shiftl (Z.land hash2 0x3f) 10) policy_id) in
    let at_ := Z.to_nat (entry * 2) in
    Some (if (at_ + 1 <? length table)%nat
          then Some (<[(at_ + 1)%nat := z2b (tmp mod 256)]> (<[at_ := z2b (tmp / 256)]> table))
          else None).
