(* ===== verification/NacConfig.v ===== *)
(** * Configuring the DMA windows of a card (gap16g/lib/nac_stream.c, gap16g/lib/nacapi.c)

    The card's buffer is divided among the streams: each gets a window of physical
    addresses, written to its registers, and a block with the offsets of these registers.
    The flow table has a window of its own. *)
From stdpp Require Import base numbers list gmap.
From S2P Require Import Prelude NacState NacStream.
Open Scope Z_scope.

Definition RFT_DMA_CTL_REG : Z := 0x50300.
Definition RFT_HOST_ADDR_LO_REG : Z := 0x50304.
Definition RFT_BUF_BOTTOM_LO_REG : Z := 0x5030c.
Definition RFT_LIMIT_PTR_LO_REG : Z := 0x50314.
Definition RFT_RECORD_PTR_LO_REG : Z := 0x50320.
Definition BYPASS_EN_AND_CAP_START : Z := 0x90028.
Definition BYPASS_CRL : Z := 0x60058.
Definition TIMER_INTERVAL_ADDR : Z := 0x60044.

Section Config.
Context (w : world) (patience : nat).

(** ** nacapi.c *)

Definition nac_set_timer_interval (time_ms : Z) : nac Z :=
  if time_ms <=? 0 then mret (-1) else _ ← reg_write TIMER_INTERVAL_ADDR (time_ms * 100000); mret 0.

Definition bypass_switch_on : nac Z := _ ← reg_write BYPASS_CRL 1; mret 0.
Definition bypass_switch_off : nac Z := _ ← reg_write BYPASS_CRL 2; mret 0.

Definition rewrite_reg (reg : Z) (f : Z -> Z) : nac Z := v ← reg_read w reg; _ ← reg_write reg (f v); mret 0.

Definition capture_start : nac Z := rewrite_reg BYPASS_EN_AND_CAP_START (fun v => Z.lor v 0x1ff).
Definition capture_stop : nac Z := rewrite_reg BYPASS_EN_AND_CAP_START (fun v => Z.land v 0xfffffe00).
Definition capture_start_stream (i : Z) : nac Z :=
  rewrite_reg BYPASS_EN_AND_CAP_START (fun v => Z.lor (Z.lor v (Z.shiftl 1 (i + 1))) 1).
Definition capture_stop_stream (i : Z) : nac Z :=
  rewrite_reg BYPASS_EN_AND_CAP_START (fun v => Z.lor (Z.land v (Z.land 0xffffffff (Z.lnot (Z.shiftl 1 (i + 1))))) 1).

(** ** nac_stream.c *)

Definition clear_card_buf (i : Z) : nac Z :=
  if NUM_STREAM <=? i then mret (-1)
  else rewrite_reg (DMA_CTL_REG + i * STREAM_REG_DIFF_0x40) (fun v => Z.lor v 0x4).

Definition nac_clear_buf (i : Z) : nac unit :=
  b ← get_pbm i;
  _ ← reg_write (dma_ctl_reg b) 0;
  _ ← nanosleep;
  _ ← reg_write (dma_ctl_reg b) status_clear;
  _ ← nanosleep;
  reg_write (dma_ctl_reg b) 0.

Definition rx_pbm (i : Z) : nacpbm_stream :=
  mk_pbm (HOST_ADDR_LO_REG + i * STREAM_REG_DIFF_0x40) (BUF_BOTTOM_LO_REG + i * STREAM_REG_DIFF_0x40)
    (RECORD_PTR_LO_REG + i * STREAM_REG_DIFF_0x40) (LIMIT_PTR_LO_REG + i * STREAM_REG_DIFF_0x40)
    (DROP_CNT_REG + i * STREAM_REG_DIFF_0x40) (DMA_CTL_REG + i * STREAM_REG_DIFF_0x40).

(** [drop_cnt] is not set for a stream that transmits; what it holds is not used. *)
Definition tx_pbm (i : Z) : nacpbm_stream :=
  mk_pbm (TX_HOST_ADDR_LO_REG + i * STREAM_REG_DIFF_0x40) (TX_BUF_BOTTOM_LO_REG + i * STREAM_REG_DIFF_0x40)
    (TX_RECORD_PTR_LO_REG + i * STREAM_REG_DIFF_0x40) (TX_LIMIT_PTR_LO_REG + i * STREAM_REG_DIFF_0x40)
    0 (TX_DMA_CTL_REG + i * STREAM_REG_DIFF_0x40).

Definition rft_pbm : nacpbm_stream :=
  mk_pbm RFT_HOST_ADDR_LO_REG RFT_BUF_BOTTOM_LO_REG RFT_RECORD_PTR_LO_REG RFT_LIMIT_PTR_LO_REG 0 RFT_DMA_CTL_REG.

(** A new block for stream [i], and its size. *)
Definition new_pbm (i : Z) (b : nacpbm_stream) (size : Z) : nac bool :=
  ok ← malloc w;
  if (ok : bool) then _ ← upd_stream i (fun s => set_s_size (u32 size) (set_s_pbm (PbmLive b) s)); mret true
  else mret false.

(** The two ends of a window, each read back for a message. *)
Definition set_window (reg_start reg_end start end_ : Z) : nac unit :=
  _ ← reg_write reg_start start;
  _ ← reg_read w reg_start;
  _ ← reg_write reg_end end_;
  _ ← reg_read w reg_end;
  mret tt.

(** A loop over [i = 0 .. n-1] that stops at a failed allocation. *)
Fixpoint for_streams (n : nat) (i : Z) (body : Z -> nac bool) : nac bool :=
  match n with
  | O => mret true
  | S n' => ok ← body i; if (ok : bool) then for_streams n' (i + 1) body else mret false
  end.

Definition reset_config : nac unit := x ← get_sheep; put_sheep (set_config 1 false x).

(** *** [nac_inline_msu_configure] *)

Definition inline_rx (phy size i : Z) : nac bool :=
  ok ← new_pbm i (rx_pbm i) size;
  if negb ok then mret false
  else
    _ ← reg_write (dma_ctl_reg (rx_pbm i)) 0;
    _ ← nanosleep;
    _ ← set_window (dma_buf_start (rx_pbm i)) (dma_buf_end (rx_pbm i)) (phy + i * size) (phy + size + i * size);
    _ ← reg_write (dma_ctl_reg (rx_pbm i)) (Z.lor addr_load status_clear);
    mret true.

(** In the overlapping mode the end of the window goes to the register of the receive
    stream. *)
Definition inline_tx (phy size flags i : Z) : nac bool :=
  let b := tx_pbm i in
  ok ← new_pbm (i + NUM_STREAM) b size;
  if negb ok then mret false
  else
    _ ← reg_write (dma_ctl_reg b) 0;
    _ ← nanosleep;
    _ ← (if flags =? OVERLAP_FWD then
           rx ← get_pbm i;
           _ ← reg_write (dma_buf_start b) (phy + i * size);
           _ ← reg_read w (dma_buf_start b);
           _ ← reg_write (dma_buf_end rx) (phy + size + i * size);
           _ ← reg_read w (dma_buf_end b);
           mret tt
         else
           set_window (dma_buf_start b) (dma_buf_end b) (phy + (i + NUM_STREAM) * size) (phy + size + (i + NUM_STREAM) * size));
    _ ← reg_write (dma_ctl_reg b) (Z.lor addr_load status_clear);
    mret true.

(** The size of a stream's part of the buffer. *)
Definition inline_size (total flags : Z) : Z :=
  s32 (if flags =? OVERLAP_FWD then total / NUM_STREAM else total / (NUM_STREAM * 2)).

Definition nac_inline_msu_configure (num flags : Z) : nac Z :=
  if (num <=? 0) || (NUM_STREAM <? num) then _ ← reset_config; exit_1
  else
    x ← get_sheep;
    if negb (opened x) then fault
    else
      let size := inline_size (buf_size x) flags in
      ok ← for_streams (Z.to_nat num) 0 (inline_rx (phy_addr x) size);
      if negb ok then exit_1
      else
        ok ← for_streams (Z.to_nat num) 0 (inline_tx (phy_addr x) size flags);
        if negb ok then exit_1 else mret 0.

(** *** [nac_msu_configure] *)

Definition msu_rx (phy size i : Z) : nac bool :=
  ok ← new_pbm i (rx_pbm i) size;
  if negb ok then mret false
  else
    _ ← set_window (dma_buf_start (rx_pbm i)) (dma_buf_end (rx_pbm i)) (phy + i * size) (phy + size + i * size);
    _ ← reg_write (dma_ctl_reg (rx_pbm i)) (Z.lor addr_load status_clear);
    mret true.

(** The window of the flow table: stopped, loaded, filled up to its start, started. *)
Definition start_rft (phy size n : Z) : nac unit :=
  _ ← reg_write RFT_DMA_CTL_REG 0;
  _ ← reg_write RFT_DMA_CTL_REG addr_load;
  _ ← reg_write RFT_HOST_ADDR_LO_REG (phy + n * size);
  _ ← reg_write RFT_BUF_BOTTOM_LO_REG (phy + n * size + RFT_SIZE);
  _ ← reg_read w RFT_HOST_ADDR_LO_REG;
  _ ← reg_read w RFT_BUF_BOTTOM_LO_REG;
  _ ← reg_write RFT_LIMIT_PTR_LO_REG (phy + n * size);
  reg_write RFT_DMA_CTL_REG dma_pause_n.

(** The part of each stream; the subtraction and the division are unsigned. *)
Definition msu_size (total n : Z) : Z := s32 (u32 (total - RFT_SIZE) / n).

Definition nac_msu_configure (num : Z) : nac Z :=
  if (num <=? 0) || (8 <? num) || (num =? 3) then _ ← reset_config; mret (-1)
  else
    x ← get_sheep;
    _ ← capture_stop;
    if negb (opened x) then fault
    else
      let size := msu_size (buf_size x) num in
      ok ← for_streams (Z.to_nat num) 0 (msu_rx (phy_addr x) size);
      if negb ok then mret (-1)
      else
        ok ← new_pbm num rft_pbm RFT_SIZE;
        if negb ok then mret (-1)
        else
          _ ← start_rft (phy_addr x) size num;
          x ← get_sheep;
          _ ← put_sheep (set_config (u32 num) true x);
          mret 0.

(** *** Several processes *)

Definition nac_link_config (num : Z) : nac Z :=
  x ← get_sheep; _ ← put_sheep (set_config (u32 num) (msu_config x) x); mret 0.

Definition each (n : nat) (body : Z -> nac unit) : nac unit :=
  _ ← for_streams n 0 (fun i => _ ← body i; mret true); mret tt.

Definition proc_window (phy size i : Z) : nac unit :=
  _ ← set_window (dma_buf_start (rx_pbm i)) (dma_buf_end (rx_pbm i)) (phy + i * size) (phy + size + i * size);
  reg_write (dma_ctl_reg (rx_pbm i)) (Z.lor addr_load status_clear).

Definition nac_proc_init (num : Z) : nac Z :=
  x ← get_sheep;
  if (num <=? 0) || (NUM_STREAM <? num) || (num =? 3) then _ ← reset_config; mret (-1)
  else
    _ ← capture_stop;
    _ ← each (Z.to_nat num) (fun i => _ ← clear_card_buf i; mret tt);
    if negb (opened x) then fault
    else
      let size := msu_size (buf_size x) num in
      _ ← each (Z.to_nat num) (proc_window (phy_addr x) size);
      _ ← start_rft (phy_addr x) size NUM_STREAM;
      _ ← each (Z.to_nat num) (fun i => _ ← clear_card_buf i; mret tt);
      x ← get_sheep;
      _ ← put_sheep (set_config (u32 num) (msu_config x) x);
      mret 0.

(** A division by 0 streams is undefined. *)
Definition nac_proc_config (num i : Z) : nac Z :=
  x ← get_sheep;
  if negb (opened x) || (num =? 0) then fault
  else
    ok ← new_pbm i (rx_pbm i) (msu_size (buf_size x) (u32 num));
    if negb ok then mret (-1)
    else _ ← reg_write (dma_ctl_reg (rx_pbm i)) (Z.lor addr_load status_clear); mret 0.

Definition nac_proc_rft_config (num : Z) : nac Z :=
  x ← get_sheep;
  if negb (opened x) || (num =? 0) then fault
  else ok ← new_pbm (u32 num) rft_pbm RFT_SIZE; mret (if (ok : bool) then 0 else -1).

(** *** The flow table's stream *)

Definition rft_num : Z := NUM_STREAM * 2.

Definition rft_attached_at (a phy : Z) (s : stream_t) : stream_t :=
  set_s_started false (set_s_attached true (set_s_phyaddr phy (set_s_offset 0 (set_s_extra 0 (set_s_buf (Some a) s))))).

Definition nac_rft_attach_stream : nac Z :=
  if_opened (-1) (
    x ← get_sheep;
    let size := msu_size (buf_size x) rft_num in
    _ ← upd_stream rft_num (fun s => init_poll (set_s_size RFT_SIZE s));
    sp ← mmap w RFT_SIZE;
    match sp with
    | None => mret (-1)
    | Some a =>
        p ← mmap w RFT_SIZE;
        match p with
        | None => mret (-1)
        | Some _ => _ ← upd_stream rft_num (rft_attached_at a (u32 (phy_addr x + rft_num * size))); mret 0
        end
    end).

Definition nac_rft_init : nac (option Z) := if_attached rft_num None (s ← get_stream rft_num; mret (s_buf s)).

(** Until the record and the limit pointer are equal, or until they differ. *)
Fixpoint wait_rft (turns : nat) (until_equal : bool) (record limit : Z) : nac unit :=
  if Bool.eqb (limit =? record) until_equal then mret tt
  else
    match turns with
    | O => hang
    | S turns' =>
        record ← reg_read w RFT_RECORD_PTR_LO_REG;
        limit ← reg_read w RFT_LIMIT_PTR_LO_REG;
        _ ← nanosleep;
        wait_rft turns' until_equal record limit
    end.

Definition move_rft_limit (b : nacpbm_stream) (limit : Z) (until_equal : bool) : nac unit :=
  _ ← reg_write (limit_ptr b) limit;
  record ← reg_read w RFT_RECORD_PTR_LO_REG;
  limit ← reg_read w RFT_LIMIT_PTR_LO_REG;
  wait_rft patience until_equal record limit.

Definition nac_rft_start : nac Z :=
  x ← get_sheep;
  b ← get_pbm rft_num;
  if negb (opened x) then fault
  else
    let start := phy_addr x + rft_num * u32 (msu_size (buf_size x) rft_num) in
    _ ← move_rft_limit b (start + RFT_SIZE / 2) false;
    _ ← move_rft_limit b (start + RFT_SIZE) true;
    _ ← nanosleep;
    _ ← upd_stream rft_num (set_s_started true);
    mret 0.
End Config.

(** ** Opening a card (nacapi.c) *)

Definition NAC_STREAM_MAX : Z := 32.

(** An entry of [herd] set to zeros. *)
Definition zero_stream : stream_t :=
  mk_stream None 0 0 0 PbmNull 0 0 (mk_timeval 0 0) (mk_timespec 0 0) 0 0 0 0 false false false ∅.
Definition zero_sheep : sheep := mk_sheep false (replicate (Z.to_nat NAC_STREAM_MAX) zero_stream) 0 0 0 false.

Section Open.
Context (w : world).

Definition set_info (info : Z * Z) (x : sheep) : sheep :=
  mk_sheep true (streams x) (u32 info.1) (u32 info.2) (num_stream x) (msu_config x).

(** A descriptor that is not that of a standard stream. *)
Definition card_fd : Z := 3.

(** The device, its clone for the registers, its description and the mapping of the
    registers. A failed entry is set to zeros, since its descriptor is positive; an entry
    left by an earlier use of the descriptor keeps its streams. *)
Definition nac_open : nac Z :=
  ok ← system_call w;
  if negb ok then mret (-1)
  else
    ok ← system_call w;
    if negb ok then _ ← put_sheep zero_sheep; mret (-1)
    else
      ok ← system_call w;
      if negb ok then _ ← put_sheep zero_sheep; mret (-1)
      else
        s ← get;
        _ ← put_sheep (set_info (w_info w (n_hist s)) (n_sheep s));
        iom ← mmap w 0;
        match iom with
        | None => _ ← put_sheep zero_sheep; mret (-1)
        | Some _ => mret card_fd
        end.

(** The clone is closed, the registers unmapped and the entry zeroed. *)
Definition nac_close : nac Z :=
  if_opened (-1) (_ ← put_sheep zero_sheep; ok ← system_call w; mret (if (ok : bool) then 0 else -1)).
End Open.
