(* ===== verification/Qnf.v ===== *)
(** * Capture on a card (pcap-gap16g.c)

    The capture module: a handle for a card "nacN" opens it, gives one stream to receiving
    and one to sending, and reads packets directly from the ring the card fills. *)
From stdpp Require Import base numbers list gmap strings.
From Stdlib Require Import Strings.String Strings.Ascii Strings.Byte.
From S2P Require Import Prelude BpfInsn BpfFilter LinkType UsbHeader Pcap SfPcap Savefile Datalink PcapApi.
From S2P Require Import NacState NacName NacStream NacTx NacConfig.
Open Scope Z_scope.

Definition NAC_RECORD_LEN : Z := 16.
Definition MIN_BUFFER_SIZE : Z := 64 * 1024.
Definition SEND_PACKET_UNIT : Z := 1600.

(** [struct pcap_qnf] *)
Record pcap_qnf := mk_qnf {
  rx_stream : Z;
  tx_stream : Z;
  rx_start : bool;
  rx_attach : bool;
  tx_start : bool;
  tx_attach : bool;
  qnf_mem_top : option Z;
  qnf_mem_bottom : option Z;
  ps_recv : Z;
  ps_drop : Z;
  use_bpf : Z;
  q_mindata : Z;
  q_maxwait : timeval;
  q_poll : timeval
}.

Definition set_rx (start attach : bool) (q : pcap_qnf) : pcap_qnf :=
  mk_qnf (rx_stream q) (tx_stream q) start attach (tx_start q) (tx_attach q) (qnf_mem_top q) (qnf_mem_bottom q)
    (ps_recv q) (ps_drop q) (use_bpf q) (q_mindata q) (q_maxwait q) (q_poll q).
Definition set_tx (start attach : bool) (q : pcap_qnf) : pcap_qnf :=
  mk_qnf (rx_stream q) (tx_stream q) (rx_start q) (rx_attach q) start attach (qnf_mem_top q) (qnf_mem_bottom q)
    (ps_recv q) (ps_drop q) (use_bpf q) (q_mindata q) (q_maxwait q) (q_poll q).
Definition set_mem (top bottom : option Z) (q : pcap_qnf) : pcap_qnf :=
  mk_qnf (rx_stream q) (tx_stream q) (rx_start q) (rx_attach q) (tx_start q) (tx_attach q) top bottom
    (ps_recv q) (ps_drop q) (use_bpf q) (q_mindata q) (q_maxwait q) (q_poll q).
Definition set_stat (recv drop : Z) (q : pcap_qnf) : pcap_qnf :=
  mk_qnf (rx_stream q) (tx_stream q) (rx_start q) (rx_attach q) (tx_start q) (tx_attach q) (qnf_mem_top q)
    (qnf_mem_bottom q) recv drop (use_bpf q) (q_mindata q) (q_maxwait q) (q_poll q).
Definition set_use_bpf (v : Z) (q : pcap_qnf) : pcap_qnf :=
  mk_qnf (rx_stream q) (tx_stream q) (rx_start q) (rx_attach q) (tx_start q) (tx_attach q) (qnf_mem_top q)
    (qnf_mem_bottom q) (ps_recv q) (ps_drop q) v (q_mindata q) (q_maxwait q) (q_poll q).
Definition set_params (rx tx mindata : Z) (maxwait poll : timeval) (q : pcap_qnf) : pcap_qnf :=
  mk_qnf rx tx (rx_start q) (rx_attach q) (tx_start q) (tx_attach q) (qnf_mem_top q) (qnf_mem_bottom q)
    (ps_recv q) (ps_drop q) (use_bpf q) mindata maxwait poll.

(** Private data of a new handle: zeros. *)
Definition zero_qnf : pcap_qnf :=
  mk_qnf 0 0 false false false false None None 0 0 0 0 (mk_timeval 0 0) (mk_timeval 0 0).

(** ** Names and creation *)

Definition qnf_parser_name (source : string) : Z :=
  match source with
  | String a (String b (String c (String d EmptyString))) =>
      if (String a (String b (String c EmptyString)) =? "nac")%string && isdigit d then 0 else -1
  | _ => -1
  end.

(** [*is_ours] and the handle. *)
Definition qnf_create (alloc_ok : bool) (source : string) : bool * option (pcap_t * pcap_qnf) :=
  if negb (qnf_parser_name source =? 0) then (false, None)
  else
    match pcap_create_common alloc_ok source with
    | None => (false, None)
    | Some p => (true, Some (p, zero_qnf))
    end.

Section Qnf.
Context (w : world) (patience : nat).

(** ** Activation *)

(** -1 and the handle without its receive stream. *)
Definition rx_attach_fail (q : pcap_qnf) : nac (Z * pcap_qnf) :=
  _ ← nac_detach_stream w (rx_stream q); mret (-1, set_rx (rx_start q) false q).
Definition tx_attach_fail (q : pcap_qnf) : nac (Z * pcap_qnf) :=
  _ ← nac_tx_detach_stream w (tx_stream q) COPY_FWD; rx_attach_fail (set_tx (tx_start q) false q).

Definition qnf_stream_config_tx (q : pcap_qnf) : nac (Z * pcap_qnf) :=
  st ← nac_tx_attach_stream w (tx_stream q) COPY_FWD 0;
  if negb (st =? 0) then tx_attach_fail q
  else
    let q := set_tx (tx_start q) true q in
    st ← nac_tx_set_stream_poll (tx_stream q) (q_mindata q) (q_maxwait q) (q_poll q);
    if st <? 0 then tx_attach_fail q
    else
      st ← nac_tx_start_stream w (tx_stream q);
      if st <? 0 then tx_attach_fail q else mret (0, set_tx true true q).

Definition qnf_stream_config (q : pcap_qnf) : nac (Z * pcap_qnf) :=
  st ← nac_attach_stream w (rx_stream q) 0 0;
  if st <? 0 then rx_attach_fail q
  else
    let q := set_rx (rx_start q) true q in
    st ← nac_set_stream_poll (rx_stream q) (q_mindata q) (q_maxwait q) (q_poll q);
    if st <? 0 then rx_attach_fail q
    else
      st ← nac_start_stream w (rx_stream q);
      if st <? 0 then rx_attach_fail q else qnf_stream_config_tx (set_rx true true q).

Definition qnf_card_config : nac Z := st ← nac_inline_msu_configure w NUM_STREAM COPY_FWD; mret (if st <? 0 then -1 else 0).

(** The waiting times of a handle; [opt_timeout] is in milliseconds. *)
Definition qnf_params (o : pcap_opt) (q : pcap_qnf) : pcap_qnf :=
  let mindata := if opt_immediate o =? 0 then MIN_BUFFER_SIZE else 0 in
  let maxwait := if 0 <? opt_timeout o then mk_timeval (opt_timeout o / 1000) (opt_timeout o mod 1000 * 1000)
                 else mk_timeval 0 (10 * 1000) in
  set_params 0 (0 + NUM_STREAM) mindata maxwait (mk_timeval 0 50) q.

Definition activated_handle (p : pcap_t) : pcap_t :=
  let o := set_opt_tstamp_type 2 (set_opt_tstamp_precision PCAP_TSTAMP_PRECISION_MICRO (set_opt_promisc 1 (p_opt p))) in
  set_p_activated true (set_p_ops OpsLive (set_p_opt o (set_p_swapped false (set_p_oldstyle true
    (set_p_linktype DLT_EN10MB (set_p_bufsize 0 p)))))).

(** The device name is built in 32 bytes. *)
Definition qnf_active (p : pcap_t) (q : pcap_qnf) : nac (Z * pcap_t * pcap_qnf) :=
  if (26 <? Z.of_nat (String.length (opt_source (p_opt p)))) then fault
  else
    fd ← nac_open w;
    if fd <? 0 then mret (-1, p, q)
    else
      let q := qnf_params (p_opt p) q in
      st ← qnf_card_config;
      if st <? 0 then mret (-1, p, q)
      else
        '(st, q) ← qnf_stream_config q;
        if st <? 0 then mret (-1, p, q)
        else mret (0, activated_handle p, set_stat 0 0 (set_mem None None q)).

(** ** Closing *)

Definition qnf_stream_close (q : pcap_qnf) : nac pcap_qnf :=
  _ ← nac_stop_stream w (rx_stream q);
  _ ← nac_detach_stream w (rx_stream q);
  _ ← nac_tx_stop_stream w patience (tx_stream q);
  _ ← nac_tx_detach_stream w (tx_stream q) COPY_FWD;
  mret (set_rx false false q).

(** The descriptor is closed without [nac_close]. *)
Definition qnf_platform_close (q : pcap_qnf) : nac pcap_qnf := q ← qnf_stream_close q; _ ← system_call w; mret q.

(** ** Reading *)

Section Read.
Context (filter_fuel : nat) (mem : list Z).
(** The callback gets the header and the address of the data; it may break the loop. *)
Context {U : Type} (callback : U -> pcap_pkthdr -> Z -> U * bool).

Record read_state := mk_read { rd_p : pcap_t; rd_q : pcap_qnf; rd_u : U; rd_processed : Z }.

Definition deliver (h : pcap_pkthdr) (a : Z) (x : read_state) : read_state :=
  let q := set_stat (u32 (ps_recv (rd_q x) + 1)) (ps_drop (rd_q x)) (rd_q x) in
  let (u, brk) := callback (rd_u x) h a in
  mk_read (if (brk : bool) then pcap_breakloop (rd_p x) else rd_p x) q u (u64 (rd_processed x + 1)).

(** The packet is longer than the snapshot length, or the filter decides; the filter is
    given [rlen] bytes from behind the record header. *)
Definition qnf_packet (h : pcap_pkthdr) (a : Z) (x : read_state) : nac read_state :=
  if u32 (p_snapshot (rd_p x)) <? len h then mret x
  else
    match p_fcode (rd_p x) with
    | None => mret (deliver h a x)
    | Some f =>
        bs ← load_bytes w (rx_stream (rd_q x)) a (Z.to_nat (caplen h));
        match bpf_filter filter_fuel mem (Some f) bs (len h) (caplen h) with
        | Return v => mret (if v =? 0 then x else deliver h a x)
        | _ => fault
        end
    end.

Definition set_bottom (bottom : Z) (x : read_state) : read_state :=
  mk_read (rd_p x) (set_mem (qnf_mem_top (rd_q x)) (Some bottom) (rd_q x)) (rd_u x) (rd_processed x).

(** The records between [bottom] and [top]. *)
Fixpoint qnf_records (turns : nat) (cnt top bottom : Z) (x : read_state) : nac (Z * read_state) :=
  if top - bottom <=? NAC_RECORD_LEN then mret (s32 (rd_processed x), x)
  else
    match turns with
    | O => hang
    | S turns' =>
        wlen ← erf_wlen w (rx_stream (rd_q x)) bottom;
        rlen ← erf_rlen w (rx_stream (rd_q x)) bottom;
        if top - bottom <? rlen then mret (s32 (rd_processed x), x)
        else
          ts ← gettimeofday w;
          x ← qnf_packet (mk_pkthdr (t_sec ts) (t_usec ts) rlen wlen) (bottom + NAC_RECORD_LEN) x;
          let x := set_bottom (bottom + rlen) x in
          if rd_processed x =? u64 cnt then mret (cnt, x)
          else qnf_records turns' cnt top (bottom + rlen) x
    end.

(** Until the card has delivered more than a record header: the two ends, or what the
    function returns. *)
Fixpoint qnf_wait (turns : nat) (x : read_state) : nac (Z * read_state + Z * Z * read_state) :=
  '(top, bottom) ← nac_advance_stream w patience (rx_stream (rd_q x)) (qnf_mem_bottom (rd_q x));
  let x := mk_read (rd_p x) (set_mem top bottom (rd_q x)) (rd_u x) (rd_processed x) in
  match top with
  | None => mret (inl (-1, x))
  | Some top =>
      s ← get;
      if w_shutdown w (n_hist s)
      then mret (inl (-2, mk_read (set_p_break_loop false (rd_p x)) (rd_q x) (rd_u x) (rd_processed x)))
      else
        bottom ← ofoption bottom;
        if top - bottom <=? NAC_RECORD_LEN then
          match turns with O => hang | S turns' => qnf_wait turns' x end
        else mret (inr (top, bottom, x))
  end.

Definition qnf_read (p : pcap_t) (q : pcap_qnf) (cnt : Z) (u : U) : nac (Z * read_state) :=
  let x := mk_read p q u 0 in
  if cnt =? 0 then mret (-2, x)
  else
    r ← qnf_wait patience x;
    match r with
    | inl r => mret r
    | inr (top, bottom, x) => qnf_records patience cnt top bottom x
    end.
End Read.

(** ** Sending *)

Definition be16 (v : Z) : list byte := [z2b (v / 256); z2b (v mod 256)].

(** [erf_record_t]: [junk] is what the 20 bytes of the variable held before its two lengths
    were set. *)
Definition erf_header (junk : list byte) (rlen wlen : Z) : list byte :=
  take 10 junk ++ be16 (u16 rlen) ++ take 2 (drop 12 junk) ++ be16 (u16 wlen) ++ take 4 (drop 16 junk).

Definition overlay (l : list byte) (o : nat) (bs : list byte) : list byte := take o l ++ bs ++ drop (o + List.length bs) l.

(** What [qnf_inject] sends for [size] bytes of [buf]. *)
Definition inject_packet (junk buf : list byte) (size : Z) : list byte :=
  let packet := replicate (Z.to_nat SEND_PACKET_UNIT) x00 in
  overlay (overlay packet 0 (erf_header junk SEND_PACKET_UNIT size)) (Z.to_nat NAC_RECORD_LEN) (take (Z.to_nat size) buf).

Definition qnf_inject (junk : list byte) (q : pcap_qnf) (buf : list byte) (size : Z) : nac Z :=
  let size := if 1514 <? size then 1514 else size in
  ok ← malloc w;
  if negb ok then mret (-1)
  else if Z.of_nat (List.length buf) <? size then fault
  else
    cp_org ← nac_tx_get_stream_space w patience (tx_stream q) SEND_PACKET_UNIT;
    match cp_org with
    | None => mret (-1)
    | Some a =>
        _ ← store_bytes (tx_stream q) a (inject_packet junk buf size);
        r ← nac_tx_stream_commit_bytes (tx_stream q) SEND_PACKET_UNIT;
        mret (match r with None => -1 | Some _ => size end)
    end.

(** ** Other operations *)

Definition qnf_setfilter `{Alloc} (p : pcap_t) (q : pcap_qnf) (fp : option (list bpf_insn)) : Z * pcap_t * pcap_qnf :=
  match fp with
  | None => (-1, p, q)
  | Some fp => let (st, p) := install_bpf_program p fp in if st <? 0 then (-1, p, q) else (0, p, set_use_bpf 0 q)
  end.

Definition qnf_set_datalink (p : pcap_t) (dlt : Z) : Z * pcap_t := (0, set_p_linktype dlt p).
Definition qnf_get_datalink (p : pcap_t) : Z := p_linktype p.

(** [nonblock_ok]: [pcap_setnonblock_fd] succeeds. *)
Definition qnf_setnonblock (nonblock_ok : bool) (q : pcap_qnf) (nonblock : bool) : nac Z :=
  if negb nonblock_ok then mret (-1)
  else
    let mindata := if nonblock then 0 else 128 in
    st ← nac_set_stream_poll (rx_stream q) mindata (mk_timeval 0 (1 * 10)) (mk_timeval 0 1);
    mret (if st <? 0 then -1 else 0).

(** The statistics, and the handle that has them. *)
Definition qnf_get_stats (q : pcap_qnf) : nac (Z * (Z * Z) * pcap_qnf) :=
  d ← nac_get_drop_cnt w (rx_stream q);
  let q := set_stat (ps_recv q) d q in
  mret (0, (ps_recv q, ps_drop q), q).
End Qnf.
