(* ===== verification/NacProofs.v ===== *)
(** * Reasoning about streams

    [nwp m Q s]: from [s], [m] ends in [Q] or is still waiting for the card; it neither
    leaves a table or mapping, nor uses a block that is not allocated, nor exits. Then what
    [nac_advance_stream] returns, and when it returns. *)
From stdpp Require Import base numbers list gmap.
From Stdlib Require Import Strings.Byte.
From S2P Require Import Prelude NacState NacStream NacTx.
Open Scope Z_scope.

(** ** Weakest preconditions *)

Definition nwp {A} (m : nac A) (Q : A -> nst -> Prop) (s : nst) : Prop :=
  match m s with NDone a s' => Q a s' | NHang => True | NFault | NExit => False end.

Section Nwp.
Context {A B : Type} (Q : A -> nst -> Prop) (R : B -> nst -> Prop).

Lemma nwp_bind (m : nac A) (f : A -> nac B) s : nwp m (fun a s' => nwp (f a) R s') s -> nwp (a ← m; f a) R s.
Proof. unfold nwp, mbind, nac_bind. destruct (m s); auto. Qed.

Lemma nwp_ret (a : A) s : Q a s -> nwp (mret a) Q s.
Proof. auto. Qed.

Lemma nwp_hang s : nwp hang Q s.
Proof. exact I. Qed.

Lemma nwp_fail_with e (a : A) s : Q a (mk_nst (n_hist s) (n_sheep s) e) -> nwp (fail_with e a) Q s.
Proof. auto. Qed.

Lemma nwp_mono (Q' : A -> nst -> Prop) (m : nac A) s : nwp m Q s -> (forall a s', Q a s' -> Q' a s') -> nwp m Q' s.
Proof. unfold nwp. destruct (m s); auto. Qed.
End Nwp.

(** Some events more. *)
Definition later (h : history) (s s' : nst) : Prop := s' = mk_nst (h ++ n_hist s) (n_sheep s) (n_errno s).

Lemma nwp_ofoption {A} (o : option A) a (Q : A -> nst -> Prop) s : o = Some a -> Q a s -> nwp (ofoption o) Q s.
Proof. intros ->. auto. Qed.

Lemma nwp_get (Q : nst -> nst -> Prop) s : Q s s -> nwp get Q s.
Proof. auto. Qed.

Lemma nwp_get_sheep (Q : sheep -> nst -> Prop) s : Q (n_sheep s) s -> nwp get_sheep Q s.
Proof. auto. Qed.

Lemma nwp_put_sheep x (Q : unit -> nst -> Prop) s : Q tt (mk_nst (n_hist s) x (n_errno s)) -> nwp (put_sheep x) Q s.
Proof. auto. Qed.

Definition add_event (e : io_event) (s : nst) : nst := mk_nst (e :: n_hist s) (n_sheep s) (n_errno s).

Lemma nwp_reg_read w reg (Q : Z -> nst -> Prop) s :
  (forall v, 0 <= v < 2 ^ 32 -> Q v (add_event (RegRead reg v) s)) -> nwp (reg_read w reg) Q s.
Proof. intros H. apply (H (u32 (w_reg w (n_hist s) reg))). apply u32_range. Qed.

Lemma nwp_reg_write reg v (Q : unit -> nst -> Prop) s : Q tt (add_event (RegWrite reg (u32 v)) s) -> nwp (reg_write reg v) Q s.
Proof. auto. Qed.

Lemma nwp_clock w (Q : timeval -> nst -> Prop) s : Q (w_clock w (n_hist s)) (add_event Clock s) -> nwp (gettimeofday w) Q s.
Proof. auto. Qed.

Lemma nwp_nanosleep (Q : unit -> nst -> Prop) s : Q tt (add_event Slept s) -> nwp nanosleep Q s.
Proof. auto. Qed.

Lemma nwp_malloc w (Q : bool -> nst -> Prop) s : (forall b, Q b (add_event Allocated s)) -> nwp (malloc w) Q s.
Proof. intros H. apply H. Qed.

Lemma nwp_system_call w (Q : bool -> nst -> Prop) s : (forall b, Q b (add_event SystemCall s)) -> nwp (system_call w) Q s.
Proof. intros H. apply H. Qed.

Lemma nwp_mmap w n (Q : option Z -> nst -> Prop) s : (forall o, Q o (add_event (Mapped (default 0 o)) s)) -> nwp (mmap w n) Q s.
Proof. intros H. apply H. Qed.

(** Stream [i] of the card. *)
Definition at_stream (i : Z) (st : nst) (s : stream_t) : Prop := at_Z (streams (n_sheep st)) i = Some s.
Definition with_stream (i : Z) (s : stream_t) (st : nst) : nst :=
  mk_nst (n_hist st) (set_streams (<[Z.to_nat i := s]> (streams (n_sheep st))) (n_sheep st)) (n_errno st).

Lemma at_with_stream i s s' st : at_stream i st s -> at_stream i (with_stream i s' st) s'.
Proof.
  unfold at_stream, at_Z. cbn [with_stream n_sheep set_streams streams]. destruct (i <? 0); [done|]. intros H.
  apply list_lookup_insert_eq. now apply lookup_lt_Some in H.
Qed.

Lemma at_with_stream_ne i j s s' st : 0 <= i -> i <> j -> at_stream j st s -> at_stream j (with_stream i s' st) s.
Proof.
  unfold at_stream, at_Z. cbn [with_stream n_sheep set_streams streams]. destruct (Z.ltb_spec j 0); [done|]. intros Hi Hne H'.
  rewrite list_lookup_insert_ne by lia. done.
Qed.

Lemma with_stream_twice i s s' st : with_stream i s (with_stream i s' st) = with_stream i s st.
Proof. unfold with_stream. cbn [n_hist n_sheep n_errno set_streams streams opened phy_addr buf_size num_stream msu_config].
  unfold set_streams. cbn. now rewrite list_insert_insert_eq. Qed.

Lemma opened_with_stream i s st : opened (n_sheep (with_stream i s st)) = opened (n_sheep st).
Proof. done. Qed.

Lemma nwp_get_stream i s (Q : stream_t -> nst -> Prop) st : at_stream i st s -> Q s st -> nwp (get_stream i) Q st.
Proof. unfold at_stream, nwp, get_stream, mbind, nac_bind, get_sheep, ofoption. intros ->. auto. Qed.

Lemma nwp_upd_stream i f s (Q : unit -> nst -> Prop) st : at_stream i st s -> Q tt (with_stream i (f s) st) -> nwp (upd_stream i f) Q st.
Proof. intros H HQ. unfold upd_stream. apply nwp_bind, (nwp_get_stream i s); done. Qed.

Lemma nwp_get_pbm i s b (Q : nacpbm_stream -> nst -> Prop) st :
  at_stream i st s -> s_pbm s = PbmLive b -> Q b st -> nwp (get_pbm i) Q st.
Proof. intros H E HQ. unfold get_pbm. apply nwp_bind, (nwp_get_stream i s); [done|]. rewrite E. exact HQ. Qed.

Lemma nwp_opened {A} (bad : A) k Q st : opened (n_sheep st) = true -> nwp k Q st -> nwp (if_opened bad k) Q st.
Proof. intros H HQ. unfold if_opened. apply nwp_bind, nwp_get_sheep. now rewrite H. Qed.

Lemma nwp_attached {A} i (bad : A) k Q st s :
  opened (n_sheep st) = true -> at_stream i st s -> s_attached s = true -> nwp k Q st -> nwp (if_attached i bad k) Q st.
Proof.
  intros Ho H E HQ. unfold if_attached. apply nwp_opened; [done|]. apply nwp_bind, (nwp_get_stream i s); [done|]. now rewrite E.
Qed.

(** Step through card code. *)
Ltac nstep :=
  match goal with
  | |- nwp (_ ← _; _) _ _ => apply nwp_bind
  | |- nwp (mbind _ _) _ _ => apply nwp_bind
  | |- nwp (mret _) _ _ => apply nwp_ret
  | |- nwp hang _ _ => apply nwp_hang
  | |- nwp (fail_with _ _) _ _ => apply nwp_fail_with
  | |- nwp get _ _ => apply nwp_get
  | |- nwp get_sheep _ _ => apply nwp_get_sheep
  | |- nwp (put_sheep _) _ _ => apply nwp_put_sheep
  | |- nwp (reg_read _ _) _ _ => apply nwp_reg_read; let v := fresh "rv" in let H := fresh "Hrv" in intros v H
  | |- nwp (reg_write _ _) _ _ => apply nwp_reg_write
  | |- nwp (gettimeofday _) _ _ => apply nwp_clock
  | |- nwp nanosleep _ _ => apply nwp_nanosleep
  | |- nwp (malloc _) _ _ => apply nwp_malloc; intros ?
  | |- nwp (system_call _) _ _ => apply nwp_system_call; intros ?
  | |- nwp (mmap _ _) _ _ => apply nwp_mmap; intros ?
  end.

(** ** The position of the card *)

Section Advance.
Context (w : world) (patience : nat).

Definition only_events (st st' : nst) : Prop := n_sheep st' = n_sheep st /\ n_errno st' = n_errno st.

Lemma only_events_refl st : only_events st st.
Proof. done. Qed.

Lemma only_events_add e st st' : only_events (add_event e st) st' -> only_events st st'.
Proof. done. Qed.

Lemma at_only_events i st st' s : only_events st st' -> at_stream i st s -> at_stream i st' s.
Proof. unfold at_stream. now intros [-> _]. Qed.

Lemma nwp_dma_pause b (Q : Z -> nst -> Prop) st : (forall v st', only_events st st' -> Q v st') -> nwp (dma_pause w b) Q st.
Proof. intros H. unfold dma_pause. do 5 nstep. now apply H. Qed.

Lemma nwp_wait_mindata turns s b buf bottom offset now expire (Q : Z -> nst -> Prop) st :
  (forall v st', only_events st st' -> Q v st') -> nwp (wait_mindata w turns s b buf bottom offset now expire) Q st.
Proof.
  revert offset now st. induction turns as [|n IH]; intros offset now st H; cbn [wait_mindata].
  - destruct (_ <=? _); [now apply H|]. destruct (_ && _); [now apply H|]. nstep.
  - destruct (_ <=? _); [now apply H|]. destruct (_ && _); [now apply H|]. nstep.
    assert (forall st', only_events st st' -> nwp (r ← reg_read w (record_ptr b);
       now ← (if timerisset (s_maxwait s) then gettimeofday w else mret now);
       wait_mindata w n s b buf bottom (r - s_phyaddr s + buf) now expire) Q st') as Hrest.
    { intros st' He. do 3 nstep. destruct (timerisset _); [nstep|nstep]; apply IH; intros v st'' He'; apply H;
        destruct He, He'; split; cbn in *; congruence. }
    unfold poll_sleep. destruct (_ || _); nstep; now apply Hrest.
Qed.

(** What is returned lies at most at the end of the mapping, and short of it by the safety
    window unless the ring holds less than that. *)
Lemma top_of_bound s buf bottom offset :
  let top := top_of s buf bottom offset in
  top <= buf + s_size s + s_extra s - SAFETY_WINDOW \/ top < bottom + SAFETY_WINDOW.
Proof.
  unfold top_of. cbv zeta. set (o := Z.min _ _). assert (o <= buf + s_size s + s_extra s) by (unfold o; lia).
  destruct (Z.leb_spec SAFETY_WINDOW (o - bottom)); lia.
Qed.

Lemma align_128_le a : a - 128 < align_128 a <= a.
Proof.
  unfold align_128. assert (Z.land a (Z.lnot 0x7f) = a - a mod 128) as ->.
  { change 0x7f with (Z.ones 7). rewrite <- Z.ldiff_land, Z.ldiff_ones_r by lia.
    rewrite Z.shiftr_div_pow2, Z.shiftl_mul_pow2 by lia. change (2 ^ 7) with 128. rewrite Z.mod_eq by lia. lia. }
  pose proof (Z.mod_pos_bound a 128 ltac:(lia)). lia.
Qed.

Lemma wrap_bottom_range s buf bottom :
  0 <= s_size s -> (forall b, bottom = Some b -> buf <= b <= buf + 2 * s_size s) -> buf <= wrap_bottom s buf bottom <= buf + s_size s.
Proof.
  intros Hs Hb. unfold wrap_bottom. destruct bottom as [b|]; cbn [from_option id].
  - specialize (Hb b eq_refl). destruct (Z.ltb_spec (buf + s_size s) b); lia.
  - destruct (Z.ltb_spec (buf + s_size s) buf); lia.
Qed.

Lemma nwp_advance i s b buf bottom (Q : option Z * option Z -> nst -> Prop) st :
  opened (n_sheep st) = true -> at_stream i st s -> s_attached s = true -> s_pbm s = PbmLive b -> s_buf s = Some buf ->
  (forall top st', only_events st st' ->
     top <= buf + s_size s + s_extra s - SAFETY_WINDOW \/ top < wrap_bottom s buf bottom + SAFETY_WINDOW ->
     Q (Some top, Some (wrap_bottom s buf bottom)) st') ->
  nwp (nac_advance_stream w patience i bottom) Q st.
Proof.
  intros Ho Hs Ha Hp Hb HQ. unfold nac_advance_stream. nstep. apply (nwp_get_stream i s); [done|].
  apply (nwp_attached i _ _ _ _ s); try done. nstep. apply (nwp_ofoption _ buf); [done|]. nstep.
  assert (forall now st', only_events st st' -> nwp (
    b ← get_pbm i; r ← reg_read w (record_ptr b);
    v ← dma_pause w b;
    _ ← reg_write (limit_ptr b) (s_phyaddr s + wrsafe (s_size s) (align_128 (wrap_bottom s buf bottom) - buf));
    _ ← reg_write (dma_ctl_reg b) (Z.lor v dma_pause_n);
    offset ← wait_mindata w patience s b buf (align_128 (wrap_bottom s buf bottom)) (u32 (r - s_phyaddr s) + buf) now
       (timeradd now (s_maxwait s));
    mret (Some (top_of s buf (align_128 (wrap_bottom s buf bottom)) offset), Some (wrap_bottom s buf bottom))) Q st') as Hrest.
  { intros now st' He. nstep. apply (nwp_get_pbm i s b); [now apply (at_only_events _ st)|done|]. do 2 nstep. nstep.
    apply nwp_dma_pause. intros v' st2 He2. do 2 nstep. do 2 nstep. nstep. apply nwp_wait_mindata. intros o st3 He3. nstep.
    apply HQ.
    - destruct He, He2, He3. split; cbn in *; congruence.
    - pose proof (top_of_bound s buf (align_128 (wrap_bottom s buf bottom)) o) as Htop. cbv zeta in Htop.
      pose proof (align_128_le (wrap_bottom s buf bottom)). lia. }
  destruct (timerisset _); nstep; now apply Hrest.
Qed.
End Advance.
