(* ===== verification/NacTheorems.v ===== *)
(** * What the streams of a card promise (gap16g/lib/nac_stream.c)

    The two ways of sending leave the same stream. Waiting for space ends when the card
    makes space. The windows of the streams lie side by side in the card's buffer. The
    fields of a stream keep to their C types. A flow table entry is found again. *)
From stdpp Require Import base numbers list gmap.
From Stdlib Require Import Strings.Byte.
From S2P Require Import Prelude NacState NacStream NacTx NacConfig NacProofs.
Open Scope Z_scope.

(** ** Two ways of sending *)

Lemma write_ring_app size o l1 l2 m : write_ring size o (l1 ++ l2) m = write_ring size (o + Z.of_nat (length l1)) l2 (write_ring size o l1 m).
Proof.
  revert o m. induction l1 as [|b l1 IH]; intros o m; cbn [app write_ring length]; [now rewrite Z.add_0_r|].
  rewrite IH. f_equal. lia.
Qed.

(** Past the end of the ring the second mapping shows its beginning. *)
Lemma write_ring_wrap size o l m :
  0 <= o -> o + Z.of_nat (length l) <= size -> write_ring size (size + o) l m = write_ring size o l m.
Proof.
  revert o m. induction l as [|b l IH]; intros o m H0 Hl; cbn [write_ring length] in *; [done|].
  destruct (Z.ltb_spec (size + o) size); [lia|]. destruct (Z.ltb_spec o size); [|lia].
  replace (size + o - size) with o by lia. rewrite <- Z.add_assoc. apply IH; lia.
Qed.

(** *** Runs that end *)

Lemma run_bind {A B} (m : nac A) (f : A -> nac B) a st st' r : m st = NDone a st' -> f a st' = r -> mbind f m st = r.
Proof. intros E <-. unfold mbind, nac_bind. now rewrite E. Qed.

Lemma run_get_stream i s st : at_stream i st s -> get_stream i st = NDone s st.
Proof. unfold at_stream, get_stream, mbind, nac_bind, get_sheep, ofoption. now intros ->. Qed.

Lemma run_upd_stream i f s st : at_stream i st s -> upd_stream i f st = NDone tt (with_stream i (f s) st).
Proof. intros H. unfold upd_stream. eapply run_bind; [exact (run_get_stream _ _ _ H)|done]. Qed.

Lemma run_get_pbm i s b st : at_stream i st s -> s_pbm s = PbmLive b -> get_pbm i st = NDone b st.
Proof. intros H E. unfold get_pbm. eapply run_bind; [exact (run_get_stream _ _ _ H)|]. now rewrite E. Qed.

Lemma run_attached {A} i (bad : A) k s st :
  opened (n_sheep st) = true -> at_stream i st s -> s_attached s = true -> if_attached i bad k st = k st.
Proof.
  intros Ho H E. unfold if_attached, if_opened. eapply run_bind; [done|]. rewrite Ho. eapply run_bind; [exact (run_get_stream _ _ _ H)|].
  now rewrite E.
Qed.

Lemma run_reg_read w reg st : reg_read w reg st = NDone (u32 (w_reg w (n_hist st) reg)) (add_event (RegRead reg (u32 (w_reg w (n_hist st) reg))) st).
Proof. done. Qed.

(** Stream [i] of a card that is attached for sending. *)
Record sender (i : Z) (b : nacpbm_stream) (a : Z) (s : stream_t) (st : nst) : Prop := {
  sn_opened : opened (n_sheep st) = true;
  sn_index : not_tx i = false;
  sn_at : at_stream i st s;
  sn_attached : s_attached s = true;
  sn_pbm : s_pbm s = PbmLive b;
  sn_buf : s_buf s = Some a;
  sn_size : 0 < s_size s < 2 ^ 31;
  sn_extra : s_extra s = s_size s;
  sn_offset : 0 <= s_offset s <= s_size s
}.

Lemma sender_index i b a s st : sender i b a s st -> 0 <= i.
Proof. intros [_ Hi _ _ _ _ _ _ _]. unfold not_tx, NUM_STREAM in Hi. apply orb_false_iff in Hi as [?%Z.ltb_ge _]. lia. Qed.

(** A change that keeps what [sender] is about. *)
Lemma sender_with i b a s s' st :
  sender i b a s st -> s_attached s' = s_attached s -> s_pbm s' = s_pbm s -> s_buf s' = s_buf s -> s_size s' = s_size s ->
  s_extra s' = s_extra s -> s_offset s' = s_offset s -> sender i b a s' (with_stream i s' st).
Proof.
  intros Hs E1 E2 E3 E4 E5 E6. pose proof (sender_index _ _ _ _ _ Hs). destruct Hs. split; rewrite ?E1, ?E2, ?E3, ?E4, ?E5, ?E6; try done.
  now apply (at_with_stream i s).
Qed.

Lemma run_store i b a s o bs st :
  sender i b a s st -> 0 <= o -> o + Z.of_nat (length bs) <= 2 * s_size s ->
  store_bytes i (a + o) bs st = NDone tt (with_stream i (set_s_ring (write_ring (s_size s) o bs (s_ring s)) s) st).
Proof.
  intros Hs H0 Hl. unfold store_bytes. eapply run_bind; [apply run_get_stream, Hs|]. rewrite (sn_buf _ _ _ _ _ Hs). eapply run_bind; [done|].
  replace (a + o - a) with o by lia. rewrite (sn_extra _ _ _ _ _ Hs).
  destruct (Z.leb_spec 0 o); [|lia]. destruct (Z.leb_spec (o + Z.of_nat (length bs)) (s_size s + s_size s)); [|lia].
  cbn [andb]. now rewrite (run_upd_stream i _ s) by apply Hs.
Qed.

(** The two pieces of [nac_tx_stream_copy_bytes] are one store past the end of the ring. *)
Lemma run_pieces i b a s bs st :
  sender i b a s st -> Z.of_nat (length bs) <= s_size s ->
  (if Z.of_nat (length bs) <=? s_size s - s_offset s then store_bytes i (a + s_offset s) bs
   else if s_size s - s_offset s <? 0 then fault
   else _ ← store_bytes i (a + s_offset s) (take (Z.to_nat (s_size s - s_offset s)) bs);
        store_bytes i a (drop (Z.to_nat (s_size s - s_offset s)) bs)) st =
  NDone tt (with_stream i (set_s_ring (write_ring (s_size s) (s_offset s) bs (s_ring s)) s) st).
Proof.
  intros Hs Hl. pose proof (sn_offset _ _ _ _ _ Hs). destruct (Z.leb_spec (Z.of_nat (length bs)) (s_size s - s_offset s)).
  { apply (run_store i b); [done|lia..]. }
  destruct (Z.ltb_spec (s_size s - s_offset s) 0); [lia|]. set (k := Z.to_nat (s_size s - s_offset s)).
  assert (length (take k bs) = k) as Hk by (rewrite length_take; lia).
  eapply run_bind; [apply (run_store i b a s); [done|lia|lia]|]. set (s1 := set_s_ring _ s).
  assert (sender i b a s1 (with_stream i s1 st)) as Hs1 by now apply (sender_with i b a s).
  rewrite <- (Z.add_0_r a) at 1. rewrite (run_store i b a s1) by (done || (rewrite length_drop; change (s_size s1) with (s_size s); lia)).
  rewrite with_stream_twice. do 2 f_equal. unfold s1, set_s_ring. cbn. f_equal.
  rewrite <- (take_drop k bs) at 3. rewrite write_ring_app, Hk.
  replace (s_offset s + Z.of_nat k) with (s_size s + 0) by lia. rewrite write_ring_wrap; [done|lia|rewrite length_drop; lia].
Qed.

Section Send.
Context (w : world) (patience : nat).

(** A packet sent in place: space, a store of the packet, and the commit. *)
Definition send_in_place (i n : Z) (bs : list byte) : nac (option Z) :=
  p ← nac_tx_get_stream_space w patience i n;
  match p with
  | None => mret None
  | Some a => _ ← store_bytes i a bs; nac_tx_stream_commit_bytes i n
  end.

(** The stream after [n] bytes, and the limit the card is given. *)
Definition next_offset (s : stream_t) (n : Z) : Z :=
  if s_size s <=? s_offset s + n then s_offset s + n - s_size s else s_offset s + n.
Definition sent (s : stream_t) (n : Z) (bs : list byte) : stream_t :=
  set_s_last_bottom (u32 (s_phyaddr s + next_offset s n)) (set_s_offset (next_offset s n)
    (set_s_ring (write_ring (s_size s) (s_offset s) bs (s_ring s)) (set_s_free_space (s32 (s_free_space s - n)) s))).

Context (i : Z) (b : nacpbm_stream) (a : Z) (s : stream_t) (st : nst) (n : Z) (bs : list byte).
Context (Hs : sender i b a s st) (Hn : 0 < n <= s_size s) (Hbs : Z.of_nat (length bs) = n).

Lemma run_copy :
  n <= s_free_space s < 2 ^ 31 ->
  nac_tx_stream_copy_bytes w patience i (Some bs) n st =
  NDone n (add_event (RegWrite (limit_ptr b) (u32 (u32 (s_phyaddr s + next_offset s n)))) (with_stream i (sent s n bs) st)).
Proof.
  intros Hf. pose proof (sn_size _ _ _ _ _ Hs). pose proof (sn_offset _ _ _ _ _ Hs). unfold nac_tx_stream_copy_bytes.
  rewrite (run_attached i _ _ s) by apply Hs. eapply run_bind; [apply run_get_stream, Hs|].
  destruct (Z.ltb_spec (s_size s) n); [lia|]. rewrite (sn_index _ _ _ _ _ Hs).
  assert (s32 n = n) as En by (apply s32_id; lia).
  assert (wait_copy_space w patience i n st = NDone tt st) as Ew.
  { destruct patience; cbn [wait_copy_space]; (eapply run_bind; [apply run_get_stream, Hs|]); rewrite En;
      (destruct (Z.leb_spec n (s_free_space s)); [done|lia]). }
  eapply run_bind; [exact Ew|]. cbv zeta. rewrite En. eapply run_bind; [apply (run_upd_stream i _ s), Hs|].
  set (s1 := set_s_free_space (s32 (s_free_space s - n)) s). assert (sender i b a s1 (with_stream i s1 st)) as Hs1 by now apply (sender_with i b a s).
  eapply run_bind; [apply run_get_stream, Hs1|]. change (s_buf s1) with (s_buf s). rewrite (sn_buf _ _ _ _ _ Hs).
  eapply run_bind; [done|]. eapply (run_bind _ _ bs _ (with_stream i s1 st)).
  { unfold orig_bytes. rewrite Hbs, Z.ltb_irrefl, <- Hbs, Nat2Z.id, take_ge by lia. done. }
  change (s_size s1) with (s_size s). change (s_offset s1) with (s_offset s). rewrite (s32_id (s_size s - s_offset s)) by lia.
  set (s2 := set_s_ring (write_ring (s_size s) (s_offset s) bs (s_ring s)) s1).
  eapply (run_bind _ _ tt _ (with_stream i s2 st)).
  - pose proof (run_pieces i b a s1 bs (with_stream i s1 st) Hs1 ltac:(cbn; lia)) as Hp.
    rewrite Hbs, with_stream_twice in Hp. exact Hp.
  - assert (u32 (s_offset s + n) = s_offset s + n) as -> by (apply u32_id; lia).
    assert ((if s_size s <=? s_offset s + n then u32 (s_offset s + n - s_size s) else s_offset s + n) = next_offset s n) as ->.
    { unfold next_offset. destruct (Z.leb_spec (s_size s) (s_offset s + n)); [rewrite u32_id by lia|]; done. }
    assert (at_stream i (with_stream i s2 st) s2) as Hs2 by (apply (at_with_stream i s), Hs).
    eapply run_bind; [exact (run_upd_stream i _ s2 _ Hs2)|]. rewrite with_stream_twice.
    eapply run_bind; [apply (run_get_pbm i (sent s n bs)); [apply (at_with_stream i s), Hs|apply Hs]|]. done.
Qed.

(** The stream before the packet is stored: the limit is read again. *)
Definition refreshed : stream_t := set_s_last_bottom (u32 (w_reg w (n_hist st) (limit_ptr b))) s.
Definition asked : nst := add_event (RegRead (limit_ptr b) (u32 (w_reg w (n_hist st) (limit_ptr b)))) st.

Lemma sender_asked : sender i b a refreshed (with_stream i refreshed asked).
Proof. apply (sender_with i b a s); try done. destruct Hs. now split. Qed.

Lemma run_get_space :
  n + 2048 <= s_free_space s < 2 ^ 31 ->
  nac_tx_get_stream_space w patience i n st =
  NDone (Some (a + s_offset s)) (with_stream i (set_s_free_space (s32 (s_free_space s - n)) refreshed) asked).
Proof.
  intros Hf. pose proof (sn_size _ _ _ _ _ Hs). unfold nac_tx_get_stream_space.
  rewrite (run_attached i _ _ s) by apply Hs. destruct (Z.eqb_spec n 0); [lia|]. rewrite (sn_index _ _ _ _ _ Hs).
  eapply run_bind; [apply (run_get_pbm i s b); apply Hs|]. eapply run_bind; [apply run_reg_read|]. fold asked.
  eapply run_bind; [apply (run_upd_stream i _ s), Hs|]. fold refreshed. rewrite s32_id by lia.
  destruct (Z.leb_spec (2 ^ 31) (n + 2048)); [lia|]. pose proof sender_asked as Ha.
  assert (wait_space w patience i (n + 2048) (with_stream i refreshed asked) = NDone tt (with_stream i refreshed asked)) as Ew.
  { destruct patience; cbn [wait_space]; (eapply run_bind; [apply run_get_stream, Ha|]); change (s_free_space refreshed) with (s_free_space s);
      (destruct (Z.leb_spec (n + 2048) (s_free_space s)); [done|lia]). }
  eapply run_bind; [exact Ew|]. eapply run_bind; [apply (run_upd_stream i _ refreshed), Ha|]. rewrite with_stream_twice.
  eapply run_bind; [apply run_get_stream, (at_with_stream i s), Hs|].
  cbn [s_buf set_s_free_space refreshed set_s_last_bottom s_offset]. rewrite (sn_buf _ _ _ _ _ Hs). done.
Qed.

Lemma run_commit t st1 :
  sender i b a t st1 -> n <= s_size t -> s_offset t + n <> s_size t ->
  nac_tx_stream_commit_bytes i n st1 =
  let t' := set_s_last_bottom (u32 (s_phyaddr t + next_offset t n)) (set_s_offset (next_offset t n) t) in
  NDone (Some (a + next_offset t n)) (add_event (RegWrite (limit_ptr b) (u32 (u32 (s_phyaddr t + next_offset t n)))) (with_stream i t' st1)).
Proof.
  intros Ht Hnt Hne. pose proof (sn_size _ _ _ _ _ Ht). pose proof (sn_offset _ _ _ _ _ Ht). unfold nac_tx_stream_commit_bytes.
  rewrite (run_attached i _ _ t) by apply Ht. eapply run_bind; [apply run_get_stream, Ht|].
  destruct (Z.ltb_spec (s_size t) n); [lia|]. rewrite (sn_index _ _ _ _ _ Ht). cbv zeta.
  assert (u32 (s_offset t + n) = s_offset t + n) as -> by (apply u32_id; lia).
  assert ((if s_size t <? s_offset t + n then u32 (s_offset t + n - s_size t) else s_offset t + n) = next_offset t n) as ->.
  { unfold next_offset. destruct (Z.leb_spec (s_size t) (s_offset t + n)), (Z.ltb_spec (s_size t) (s_offset t + n)); try lia.
    now rewrite u32_id by lia. }
  eapply run_bind; [apply (run_upd_stream i _ t), Ht|]. eapply run_bind.
  { apply (run_get_pbm i (set_s_last_bottom (u32 (s_phyaddr t + next_offset t n)) (set_s_offset (next_offset t n) t)) b);
      [apply (at_with_stream i t), Ht|apply Ht]. }
  eapply run_bind; [done|]. rewrite (sn_buf _ _ _ _ _ Ht). done.
Qed.

Lemma run_in_place :
  n + 2048 <= s_free_space s < 2 ^ 31 -> s_offset s + n <> s_size s ->
  send_in_place i n bs st =
  NDone (Some (a + next_offset s n)) (add_event (RegWrite (limit_ptr b) (u32 (u32 (s_phyaddr s + next_offset s n)))) (with_stream i (sent s n bs) asked)).
Proof.
  intros Hf Hne. pose proof (sn_offset _ _ _ _ _ Hs). unfold send_in_place. eapply run_bind; [now apply run_get_space|].
  set (t := set_s_free_space _ refreshed).
  assert (sender i b a t (with_stream i t asked)) as Ht.
  { rewrite <- (with_stream_twice i t refreshed). apply (sender_with i b a refreshed); [exact sender_asked|done..]. }
  eapply run_bind; [apply (run_store i b a t _ bs _ Ht); change (s_size t) with (s_size s); lia|].
  set (t2 := set_s_ring _ t). rewrite with_stream_twice.
  assert (sender i b a t2 (with_stream i t2 asked)) as Ht2.
  { rewrite <- (with_stream_twice i t2 t). now apply (sender_with i b a t). }
  rewrite (run_commit t2 _ Ht2); [|change (s_size t2) with (s_size s); lia|exact Hne]. cbv zeta. rewrite with_stream_twice. done.
Qed.
End Send.

(** C29: Copying a packet into the ring in one or two pieces, and storing it at the address
    handed out and committing it, leave the same card, the same bytes in the ring included,
    and give it the same limit, when there is space and the packet does not end exactly at
    the end of the ring. *)
Theorem tx_paths_agree w patience i b a s st n bs :
  sender i b a s st -> 0 < n <= s_size s -> Z.of_nat (length bs) = n -> n + 2048 <= s_free_space s < 2 ^ 31 ->
  s_offset s + n <> s_size s ->
  exists st1 st2, nac_tx_stream_copy_bytes w patience i (Some bs) n st = NDone n st1 /\
    (exists p, send_in_place w patience i n bs st = NDone (Some p) st2) /\
    n_sheep st1 = n_sheep st2 /\ head (n_hist st1) = head (n_hist st2) /\ at_stream i st1 (sent s n bs).
Proof.
  intros Hs Hn Hbs Hf Hne. do 2 eexists. split; [apply (run_copy w patience i b a s); [done..|lia]|].
  split; [eexists; now apply (run_in_place w patience i b a s)|]. split; [done|]. split; [done|].
  apply (at_with_stream i s), Hs.
Qed.

(** A stream at address 0x7f0000000000 with 4 KB, 3900 of them free, the next byte at 3800. *)
Definition tx_world : world :=
  mk_world (fun h r => if r =? TX_RECORD_PTR_LO_REG then (if (length h <? 5)%nat then 0x3040 else 0x3000) else 0x3000) (fun _ => mk_timeval 0 0)
    (fun _ _ => Some 0x7f0000000000) (fun _ => true) (fun _ => true) (fun _ => (0x1000, 0x2000)) (fun _ _ _ => x00) (fun _ => false).
Definition tx_stream_of (offset free : Z) : stream_t :=
  mk_stream (Some 0x7f0000000000) 0x1000 offset 0 (PbmLive (tx_pbm 0)) 0x2000 16 (mk_timeval 0 0) (mk_timespec 0 0) 0x1000 free 0 0
    true true true ∅.
Definition tx_nst (offset free : Z) : nst :=
  mk_nst [] (mk_sheep true [tx_stream_of offset free; tx_stream_of offset free] 0x1000 0x2000 1 false) 0.

Lemma tx_sender offset free :
  0 <= offset <= 0x1000 -> sender 1 (tx_pbm 0) 0x7f0000000000 (tx_stream_of offset free) (tx_nst offset free).
Proof. intros H. split; try done; cbn; lia. Qed.

Lemma tx_paths_agree_witness :
  exists st1 st2, nac_tx_stream_copy_bytes tx_world 3 1 (Some (replicate 500 x07)) 500 (tx_nst 3800 3900) = NDone 500 st1 /\
    (exists p, send_in_place tx_world 3 1 500 (replicate 500 x07) (tx_nst 3800 3900) = NDone (Some p) st2) /\
    n_sheep st1 = n_sheep st2 /\ head (n_hist st1) = head (n_hist st2) /\
    at_stream 1 st1 (sent (tx_stream_of 3800 3900) 500 (replicate 500 x07)).
Proof.
  apply (tx_paths_agree tx_world 3 1 (tx_pbm 0) 0x7f0000000000).
  - apply tx_sender. lia.
  - cbn. lia.
  - reflexivity.
  - cbn. lia.
  - cbn. lia.
Defined.

(** ** Waiting for space *)

Section Wait.
Context (w : world).

(** The history after [k] polls of the register. *)
Definition polled (reg : Z) (k : nat) (h : history) : history :=
  Nat.iter k (fun h => Slept :: RegRead reg (u32 (w_reg w h reg)) :: h) h.

Lemma polled_S reg k h : polled reg (S k) h = polled reg k (Slept :: RegRead reg (u32 (w_reg w h reg)) :: h).
Proof. unfold polled. now rewrite Nat.iter_succ_r. Qed.

(** The space the card's register shows. *)
Definition shown_space (b : nacpbm_stream) (s : stream_t) (h : history) : Z :=
  tx_space (s_size s) (u32 (w_reg w h (record_ptr b))) (s_last_bottom s).

(** One poll. *)
Definition poll_stream (b : nacpbm_stream) (s : stream_t) (h : history) : stream_t :=
  set_free (u32 (w_reg w h (record_ptr b))) (shown_space b s h) s.
Definition poll_state (i : Z) (b : nacpbm_stream) (s : stream_t) (st : nst) : nst :=
  add_event Slept (with_stream i (poll_stream b s (n_hist st)) (add_event (RegRead (record_ptr b) (u32 (w_reg w (n_hist st) (record_ptr b)))) st)).

Lemma run_poll turns i b a s st n :
  sender i b a s st -> s_free_space s < n -> wait_space w (S turns) i n st = wait_space w turns i n (poll_state i b s st).
Proof.
  intros Hs Hlt. pose proof (sn_at _ _ _ _ _ Hs) as Hat. cbn [wait_space]. eapply run_bind; [exact (run_get_stream i s st Hat)|].
  destruct (Z.leb_spec n (s_free_space s)); [lia|]. eapply run_bind; [exact (run_get_pbm i s b st Hat (sn_pbm _ _ _ _ _ Hs))|].
  eapply run_bind; [apply run_reg_read|]. eapply run_bind; [apply (run_upd_stream i _ s); exact Hat|]. done.
Qed.

Lemma sender_polled i b a s st : sender i b a s st -> sender i b a (poll_stream b s (n_hist st)) (poll_state i b s st).
Proof.
  intros Hs. assert (sender i b a (poll_stream b s (n_hist st)) (with_stream i (poll_stream b s (n_hist st)) st)) as H by
    now apply (sender_with i b a s). destruct H. now split.
Qed.

Lemma wait_enough turns i b a s st n : sender i b a s st -> n <= s_free_space s -> wait_space w turns i n st = NDone tt st.
Proof.
  intros Hs Hle. destruct turns; cbn [wait_space]; (eapply run_bind; [exact (run_get_stream i s st (sn_at _ _ _ _ _ Hs))|]);
    (destruct (Z.leb_spec n (s_free_space s)); [done|lia]).
Qed.

Lemma run_wait_space k turns i b a s st n :
  sender i b a s st -> (k < turns)%nat -> n <= shown_space b s (polled (record_ptr b) k (n_hist st)) ->
  exists t st', wait_space w turns i n st = NDone tt st' /\ sender i b a t st' /\ s_offset t = s_offset s /\
    n <= s_free_space t /\ (length (n_hist st') <= length (n_hist st) + 2 * S k)%nat.
Proof.
  revert turns s st. induction k as [|k IH]; intros turns s st Hs Hk Hn; (destruct turns as [|turns]; [lia|]);
    (destruct (Z.le_gt_cases n (s_free_space s)) as [Hle|Hlt];
     [rewrite (wait_enough _ i b a s st n Hs Hle); exists s, st; repeat split; try done; apply Hs || lia|]);
    rewrite (run_poll turns i b a s st n Hs Hlt); pose proof (sender_polled i b a s st Hs) as Hp.
  - rewrite (wait_enough _ i b a _ _ n Hp Hn). do 2 eexists. split; [done|]. split; [exact Hp|]. split; [done|]. split; [exact Hn|cbn; lia].
  - destruct (IH turns _ _ Hp ltac:(lia)) as (t & st' & E1 & E2 & E3 & E4 & E5).
    { rewrite polled_S in Hn. exact Hn. }
    exists t, st'. split; [exact E1|]. split; [exact E2|]. split; [exact E3|]. split; [exact E4|]. cbn in E5. lia.
Qed.
End Wait.

(** C30: [nac_tx_get_stream_space] returns the address of the next free byte as soon as the
    card's record pointer shows enough space: when it does at poll [k], after at most
    [k + 1] polls. *)
Theorem get_stream_space_returns w patience i b a s st n k :
  sender i b a s st -> 0 < n -> n + 2048 < 2 ^ 31 -> (k < patience)%nat ->
  n + 2048 <= shown_space w b (refreshed w b s st) (polled w (record_ptr b) k (n_hist (asked w b st))) ->
  exists st', nac_tx_get_stream_space w patience i n st = NDone (Some (a + s_offset s)) st' /\
    (length (n_hist st') <= length (n_hist st) + 1 + 2 * S k)%nat.
Proof.
  intros Hs Hn Hn31 Hk Hsp. unfold nac_tx_get_stream_space.
  rewrite (run_attached i _ _ s) by apply Hs. destruct (Z.eqb_spec n 0); [lia|]. rewrite (sn_index _ _ _ _ _ Hs).
  pose proof (sender_asked w i b a s st Hs) as Ha.
  destruct (run_wait_space w k patience i b a _ _ (n + 2048) Ha Hk Hsp) as (t & st' & Ew & Ht & Eo & Hfree & Hlen).
  exists (with_stream i (set_s_free_space (s32 (s_free_space t - n)) t) st'). split; [|cbn in *; lia].
  eapply run_bind; [apply (run_get_pbm i s b); apply Hs|]. eapply run_bind; [apply run_reg_read|].
  eapply run_bind; [apply (run_upd_stream i _ s), Hs|]. rewrite s32_id by lia. destruct (Z.leb_spec (2 ^ 31) (n + 2048)); [lia|].
  eapply run_bind; [exact Ew|]. eapply run_bind; [apply (run_upd_stream i _ t), Ht|].
  eapply run_bind; [apply run_get_stream, (at_with_stream i t), Ht|]. cbn [s_buf set_s_free_space s_offset].
  rewrite (sn_buf _ _ _ _ _ Ht), Eo. done.
Qed.

Lemma get_stream_space_returns_witness :
  exists st', nac_tx_get_stream_space tx_world 5 1 1600 (tx_nst 64 0) = NDone (Some (0x7f0000000000 + 64)) st' /\
    (length (n_hist st') <= 0 + 1 + 2 * 3)%nat.
Proof.
  apply (get_stream_space_returns tx_world 5 1 (tx_pbm 0) 0x7f0000000000 (tx_stream_of 64 0) (tx_nst 64 0) 1600 2).
  - apply tx_sender. lia.
  - lia.
  - lia.
  - lia.
  - vm_compute. discriminate.
Defined.

(** ** The windows of the streams *)

Section Windows.
Context (w : world) (Hmalloc : forall h, w_malloc w h = true).

(** The registers written, in order. *)
Definition written (st : nst) : list (Z * Z) :=
  omap (fun e => match e with RegWrite r v => Some (r, v) | _ => None end) (rev (n_hist st)).

Lemma written_event e st :
  written (add_event e st) = written st ++ match e with RegWrite r v => [(r, v)] | _ => [] end.
Proof. unfold written. cbn [add_event n_hist rev]. rewrite omap_app. destruct e; done. Qed.

(** What configuring a stream leaves: the stream with its size and block, the writes. *)
Definition configures (i : Z) (s' : stream_t) (ws : list (Z * Z)) (m : nac bool) (st : nst) : Prop :=
  exists st', m st = NDone true st' /\ written st' = written st ++ ws /\ n_sheep st' = n_sheep (with_stream i s' st).

Definition part (b : nacpbm_stream) (size : Z) (s : stream_t) : stream_t := set_s_size (u32 size) (set_s_pbm (PbmLive b) s).

Lemma run_new_pbm i b size s st :
  at_stream i st s -> new_pbm w i b size st = NDone true (with_stream i (part b size s) (add_event Allocated st)).
Proof.
  intros Hat. unfold new_pbm. eapply (run_bind (malloc w) _ true _ (add_event Allocated st)).
  { unfold malloc, mbind, nac_bind, get, log. cbn. now rewrite Hmalloc. }
  eapply run_bind; [apply (run_upd_stream i _ s); exact Hat|]. done.
Qed.

Lemma inline_rx_configures phy size i s st :
  at_stream i st s ->
  configures i (part (rx_pbm i) size s)
    [(DMA_CTL_REG + i * STREAM_REG_DIFF_0x40, 0); (HOST_ADDR_LO_REG + i * STREAM_REG_DIFF_0x40, u32 (phy + i * size));
     (BUF_BOTTOM_LO_REG + i * STREAM_REG_DIFF_0x40, u32 (phy + size + i * size)); (DMA_CTL_REG + i * STREAM_REG_DIFF_0x40, 6)]
    (inline_rx w phy size i) st.
Proof.
  intros Hat. unfold configures, inline_rx. eexists. split.
  { eapply run_bind; [now apply (run_new_pbm i _ _ s)|]. cbn [negb]. unfold set_window. repeat (eapply run_bind; [reflexivity|]). reflexivity. }
  split; [|done]. unfold written. cbn [n_hist with_stream add_event log rev]. rewrite <- !app_assoc, !omap_app. done.
Qed.

(** The window of the transmit stream that follows receive stream [i], and the register its
    end is written to. *)
Definition tx_start_at (flags phy size i : Z) : Z := if flags =? OVERLAP_FWD then phy + i * size else phy + (i + NUM_STREAM) * size.
Definition tx_end_reg (flags i : Z) : Z :=
  (if flags =? OVERLAP_FWD then BUF_BOTTOM_LO_REG else TX_BUF_BOTTOM_LO_REG) + i * STREAM_REG_DIFF_0x40.

Lemma inline_tx_configures phy size flags i r s st :
  0 <= i -> at_stream i st r -> s_pbm r = PbmLive (rx_pbm i) -> at_stream (i + NUM_STREAM) st s ->
  configures (i + NUM_STREAM) (part (tx_pbm i) size s)
    [(TX_DMA_CTL_REG + i * STREAM_REG_DIFF_0x40, 0); (TX_HOST_ADDR_LO_REG + i * STREAM_REG_DIFF_0x40, u32 (tx_start_at flags phy size i));
     (tx_end_reg flags i, u32 (size + tx_start_at flags phy size i)); (TX_DMA_CTL_REG + i * STREAM_REG_DIFF_0x40, 6)]
    (inline_tx w phy size flags i) st.
Proof.
  intros Hi Hr Hp Hat. unfold configures, inline_tx, tx_end_reg, tx_start_at.
  assert (at_stream i (with_stream (i + NUM_STREAM) (part (tx_pbm i) size s) (add_event Allocated st)) r) as Hr'.
  { apply at_with_stream_ne; [unfold NUM_STREAM; lia|unfold NUM_STREAM; lia|exact Hr]. }
  destruct (flags =? OVERLAP_FWD).
  - eexists. split.
    { eapply run_bind; [now apply (run_new_pbm _ _ _ s)|]. cbn [negb]. do 2 (eapply run_bind; [reflexivity|]).
      eapply run_bind; [eapply run_bind; [apply (run_get_pbm i r (rx_pbm i)); [exact Hr'|exact Hp]|]|].
      { repeat (eapply run_bind; [reflexivity|]). reflexivity. }
      eapply run_bind; [reflexivity|]. reflexivity. }
    split; [|done]. unfold written. cbn [n_hist with_stream add_event log rev]. rewrite <- !app_assoc, !omap_app.
    replace (size + (phy + i * size)) with (phy + size + i * size) by lia. done.
  - eexists. split.
    { eapply run_bind; [now apply (run_new_pbm _ _ _ s)|]. cbn [negb]. unfold set_window. repeat (eapply run_bind; [reflexivity|]). reflexivity. }
    split; [|done]. unfold written. cbn [n_hist with_stream add_event log rev]. rewrite <- !app_assoc, !omap_app.
    replace (size + (phy + (i + NUM_STREAM) * size)) with (phy + size + (i + NUM_STREAM) * size) by lia. done.
Qed.
End Windows.

(** The writes that load the windows of the one receive and the one transmit stream. *)
Definition window_writes (flags phy size : Z) : list (Z * Z) :=
  [(DMA_CTL_REG, 0); (HOST_ADDR_LO_REG, phy); (BUF_BOTTOM_LO_REG, phy + size); (DMA_CTL_REG, 6);
   (TX_DMA_CTL_REG, 0); (TX_HOST_ADDR_LO_REG, tx_start_at flags phy size 0);
   (tx_end_reg flags 0, tx_start_at flags phy size 0 + size); (TX_DMA_CTL_REG, 6)].

Lemma part_size flags total :
  0 <= total < 2 ^ 31 ->
  let size := if flags =? OVERLAP_FWD then total else total / 2 in
  inline_size total flags = size /\ 0 <= size <= total /\ (flags <> OVERLAP_FWD -> size + size <= total).
Proof.
  intros H. unfold inline_size. change (total / NUM_STREAM) with (total / 1). change (NUM_STREAM * 2) with 2. rewrite Z.div_1_r.
  pose proof (Z.mul_div_le total 2 ltac:(lia)). pose proof (Z.div_pos total 2 ltac:(lia) ltac:(lia)).
  destruct (Z.eqb_spec flags OVERLAP_FWD); (split; [apply s32_id; lia|]); split; lia.
Qed.

(** C39: Configuring a card for receiving and sending writes exactly these registers in this
    order. Copying, each stream has half of the buffer, one behind the other and within it.
    Overlapping, both have the whole buffer, and the end of the transmit window goes to the
    receive stream's register instead of its own. *)
Theorem inline_msu_configure_windows w flags st r s :
  (forall h, w_malloc w h = true) -> opened (n_sheep st) = true -> at_stream 0 st r -> at_stream 1 st s ->
  0 <= phy_addr (n_sheep st) -> 0 <= buf_size (n_sheep st) < 2 ^ 31 -> phy_addr (n_sheep st) + buf_size (n_sheep st) < 2 ^ 32 ->
  let phy := phy_addr (n_sheep st) in
  let total := buf_size (n_sheep st) in
  let size := if flags =? OVERLAP_FWD then total else total / 2 in
  exists st', nac_inline_msu_configure w 1 flags st = NDone 0 st' /\
    written st' = written st ++ window_writes flags phy size /\
    (flags <> OVERLAP_FWD -> tx_start_at flags phy size 0 = phy + size /\ phy + size + size <= phy + total) /\
    (flags = OVERLAP_FWD -> TX_BUF_BOTTOM_LO_REG ∉ (window_writes flags phy size).*1).
Proof.
  intros Hm Ho Hr Hs Hphy Htot Hsum phy total size.
  destruct (part_size flags total Htot) as (Es & Hz & Hz2). fold size in Es, Hz, Hz2. clearbody size. change (0 <= phy) in Hphy. change (phy + total < 2 ^ 32) in Hsum. change (0 <= total < 2 ^ 31) in Htot.
  assert (0 <= tx_start_at flags phy size 0 /\ tx_start_at flags phy size 0 + size <= phy + total) as [Ht0 Ht1].
  { unfold tx_start_at, NUM_STREAM. destruct (Z.eqb_spec flags OVERLAP_FWD); lia. }
  destruct (inline_rx_configures w Hm phy size 0 r st Hr) as (st1 & E1 & W1 & S1).
  assert (at_stream 0 st1 (part (rx_pbm 0) size r)) as Hr1 by (unfold at_stream; rewrite S1; now apply (at_with_stream 0 r)).
  assert (at_stream 1 st1 s) as Hs1 by (unfold at_stream; rewrite S1; now apply at_with_stream_ne).
  destruct (inline_tx_configures w Hm phy size flags 0 _ s st1 ltac:(lia) Hr1 eq_refl Hs1) as (st2 & E2 & W2 & S2).
  exists st2. split.
  { unfold nac_inline_msu_configure. change ((1 <=? 0) || (NUM_STREAM <? 1)) with false. cbv iota. eapply run_bind; [reflexivity|].
    rewrite Ho. cbn [negb]. fold phy total. rewrite Es. change (Z.to_nat 1) with 1%nat. cbn [for_streams].
    eapply run_bind; [eapply run_bind; [exact E1|reflexivity]|]. cbn [negb].
    eapply run_bind; [eapply run_bind; [exact E2|reflexivity]|]. reflexivity. }
  split; [|split].
  - rewrite W2, W1, <- app_assoc. f_equal. unfold window_writes. cbn [app]. rewrite !Z.mul_0_l, !Z.add_0_r, !u32_id by lia.
    unfold tx_end_reg. rewrite Z.mul_0_l, Z.add_0_r, (Z.add_comm size). done.
  - intros Hf. unfold tx_start_at. destruct (Z.eqb_spec flags OVERLAP_FWD); [done|]. unfold NUM_STREAM. lia.
  - intros ->. apply (bool_decide_unpack _). vm_compute. exact I.
Qed.

Lemma inline_msu_configure_windows_witness :
  exists st', nac_inline_msu_configure tx_world 1 OVERLAP_FWD (tx_nst 0 0) = NDone 0 st' /\
    written st' = window_writes OVERLAP_FWD 0x1000 0x2000.
Proof.
  destruct (inline_msu_configure_windows tx_world OVERLAP_FWD (tx_nst 0 0) (tx_stream_of 0 0) (tx_stream_of 0 0)
    ltac:(reflexivity) eq_refl eq_refl eq_refl ltac:(cbn; lia) ltac:(cbn; lia) ltac:(cbn; lia)) as (st' & E & W & _).
  exists st'. split; [exact E|]. exact W.
Defined.

(** ** The flow table *)

(** Entry [entry]: the hash and the policy of its two bytes. *)
Definition read_flowtable (table : list byte) (entry : Z) : option (Z * Z) :=
  hi ← table !! Z.to_nat (entry * 2);
  lo ← table !! Z.to_nat (entry * 2 + 1);
  let v := b2z hi * 256 + b2z lo in
  Some (Z.shiftr v 10, Z.land v 0x3ff).

Lemma u16_bytes v : 0 <= v < 2 ^ 16 -> b2z (z2b (v / 256)) * 256 + b2z (z2b (v mod 256)) = v.
Proof.
  intros H. pose proof (Z.mod_pos_bound v 256 ltac:(lia)). pose proof (Z.div_pos v 256 ltac:(lia) ltac:(lia)).
  pose proof (Z.div_lt_upper_bound v 256 256 ltac:(lia) ltac:(lia)). rewrite !b2z_z2b. unfold u8. rewrite !Z.mod_small by lia.
  pose proof (Z.div_mod v 256 ltac:(lia)). lia.
Qed.

Lemma land_below a b n : 0 <= n -> 0 <= b < 2 ^ n -> Z.land (Z.shiftl a n) b = 0.
Proof.
  intros Hn Hb. apply Z.bits_inj'. intros k Hk. rewrite Z.land_spec, Z.shiftl_spec, Z.bits_0 by lia.
  destruct (Z.lt_ge_cases k n); [now rewrite Z.testbit_neg_r by lia|].
  rewrite <- (Z.mod_small b (2 ^ n)) by lia. rewrite Z.mod_pow2_bits_high by lia. apply andb_false_r.
Qed.

Lemma flow_value policy hash :
  0 <= policy < 2 ^ 10 -> 0 <= hash < 2 ^ 6 -> Z.lor (Z.shiftl (Z.land hash 0x3f) 10) policy = hash * 2 ^ 10 + policy.
Proof.
  intros Hp Hh. change 0x3f with (Z.ones 6). rewrite Z.land_ones, (Z.mod_small hash) by lia.
  rewrite <- (Z.shiftl_mul_pow2 hash 10) by lia. rewrite <- Z.add_lor_land, land_below by lia. lia.
Qed.

Lemma flow_fields policy hash :
  0 <= policy < 2 ^ 10 -> 0 <= hash -> Z.shiftr (hash * 2 ^ 10 + policy) 10 = hash /\ Z.land (hash * 2 ^ 10 + policy) 0x3ff = policy.
Proof.
  intros Hp Hh. split.
  - rewrite Z.shiftr_div_pow2 by lia. symmetry. apply (Z.div_unique _ _ _ policy); lia.
  - change 0x3ff with (Z.ones 10). rewrite Z.land_ones by lia. symmetry. apply (Z.mod_unique _ _ hash); lia.
Qed.

(** C40: An entry written to the flow table reads back as the hash and the policy it was given,
    and the other entries stay. It is refused when the entry, the policy or the hash is out
    of range, and never written outside the table. *)
Theorem flowtable_roundtrip table entry policy hash :
  Z.of_nat (length table) = 2 * FLOWTABLE_MAX_NUM -> 0 <= entry -> 0 <= policy -> 0 <= hash ->
  match nac_write_flowtable table entry policy hash with
  | None => STRATEGY_LIST_MAX <= policy \/ FLOWTABLE_MAX_NUM <= entry \/ 0x3f < hash
  | Some None => False
  | Some (Some table') => read_flowtable table' entry = Some (hash, policy) /\
      forall e, 0 <= e -> e <> entry -> read_flowtable table' e = read_flowtable table e
  end.
Proof.
  intros Hlen He Hp Hh. unfold nac_write_flowtable, STRATEGY_LIST_MAX, FLOWTABLE_MAX_NUM in *.
  destruct (Z.leb_spec 1024 policy); [auto|]. destruct (Z.leb_spec 4194304 entry); [auto|]. destruct (Z.ltb_spec 0x3f hash); [auto|].
  rewrite flow_value by lia. unfold u16. rewrite (Z.mod_small (hash * 2 ^ 10 + policy)) by lia.
  destruct (Nat.ltb_spec (Z.to_nat (entry * 2) + 1) (length table)); [|lia]. set (v := hash * 2 ^ 10 + policy).
  assert (Z.to_nat (entry * 2 + 1) = (Z.to_nat (entry * 2) + 1)%nat) as E1 by lia. unfold read_flowtable. split.
  - rewrite E1. set (k := Z.to_nat (entry * 2)) in *.
    assert (forall l : list byte, (<[(k + 1)%nat := z2b (v mod 256)]> l) !! k = l !! k) as Ek by (intros l; apply list_lookup_insert_ne; lia).
    rewrite Ek, !list_lookup_insert_eq by (rewrite ?length_insert; lia). cbn [mbind option_bind]. rewrite u16_bytes by (unfold v; lia).
    unfold v. destruct (flow_fields policy hash) as [-> ->]; [lia..|]. done.
  - intros e Hpos Hne. rewrite !list_lookup_insert_ne by lia. done.
Qed.

Definition empty_table : list byte := replicate (Z.to_nat (2 * FLOWTABLE_MAX_NUM)) x00.

Lemma length_empty_table : Z.of_nat (length empty_table) = 2 * FLOWTABLE_MAX_NUM.
Proof. unfold empty_table. rewrite length_replicate. apply Z2Nat.id. vm_compute. discriminate. Qed.

Lemma flowtable_roundtrip_witness :
  match nac_write_flowtable empty_table 3 700 33 with
  | None => STRATEGY_LIST_MAX <= 700 \/ FLOWTABLE_MAX_NUM <= 3 \/ 0x3f < 33
  | Some None => False
  | Some (Some table') => read_flowtable table' 3 = Some (33, 700) /\
      forall e, 0 <= e -> e <> 3 -> read_flowtable table' e = read_flowtable empty_table e
  end.
Proof. apply (flowtable_roundtrip empty_table 3 700 33 length_empty_table); lia. Defined.
