(* ===== verification/QnfProofs.v ===== *)
(** * A session with a card (pcap-gap16g.c)

    From activation to closing, whatever the card answers, the operations of the capture
    module stay inside the stream table and the mappings and use no block of register
    offsets that is not allocated. *)
From stdpp Require Import base numbers list gmap strings.
From Stdlib Require Import Strings.String Strings.Byte.
From S2P Require Import Prelude BpfInsn BpfFilter LinkType UsbHeader Pcap SfPcap Savefile Datalink PcapApi.
From S2P Require Import NacState NacStream NacTx NacConfig Qnf NacProofs.
Open Scope Z_scope.

(** ** Streams in use *)

(** A stream that is attached and started, its ring mapped twice in full. *)
Record live (s : stream_t) : Prop := {
  lv_attached : s_attached s = true;
  lv_started : s_started s = true;
  lv_pbm : exists b, s_pbm s = PbmLive b;
  lv_buf : exists a, s_buf s = Some a;
  lv_size : SEND_PACKET_UNIT <= s_size s < 2 ^ 31;
  lv_extra : s_extra s = s_size s;
  lv_offset : 0 <= s_offset s <= s_size s
}.

Lemma live_change s s' :
  s_attached s' = s_attached s -> s_started s' = s_started s -> s_pbm s' = s_pbm s -> s_buf s' = s_buf s -> s_size s' = s_size s ->
  s_extra s' = s_extra s -> s_offset s' = s_offset s -> live s -> live s'.
Proof. intros E1 E2 E3 E4 E5 E6 E7 [? ? ? ? ? ? ?]. split; rewrite ?E1, ?E2, ?E3, ?E4, ?E5, ?E6, ?E7; assumption. Qed.

Lemma live_offset o s : 0 <= o <= s_size s -> live s -> live (set_s_offset o s).
Proof. intros Ho []. split; assumption. Qed.

Create HintDb live.
#[export] Hint Extern 3 (live _) => (match goal with H : live ?s |- _ => apply (live_change s); [reflexivity..|exact H] end) : live.

(** The handle receives on stream 0 and sends on stream 1; the position to read from is in
    the mapping. *)
Record session (q : pcap_qnf) (st : nst) : Prop := {
  ss_opened : opened (n_sheep st) = true;
  ss_rx : rx_stream q = 0;
  ss_tx : tx_stream q = 1;
  ss_rx_live : exists s, at_stream 0 st s /\ live s /\
    forall b a, qnf_mem_bottom q = Some b -> s_buf s = Some a -> a <= b <= a + 2 * s_size s;
  ss_tx_live : exists s, at_stream 1 st s /\ live s
}.

Lemma session_events q st st' : only_events st st' -> session q st -> session q st'.
Proof.
  intros [E _] [Ho H1 H2 (s & Hs & ?) (s' & Hs' & ?)]. unfold at_stream in *. rewrite <- E in *. split; eauto.
Qed.

Lemma session_event q e st : session q st -> session q (add_event e st).
Proof. now apply session_events. Qed.
#[export] Hint Resolve session_event : live.

(** A change of the transmit stream. *)
Lemma session_tx q st s s' : session q st -> at_stream 1 st s -> live s' -> session q (with_stream 1 s' st).
Proof.
  intros [Ho H1 H2 (s0 & Hs0 & ?) _] Hs Hl. split; try done.
  - exists s0. split; [now apply at_with_stream_ne|done].
  - exists s'. split; [now apply (at_with_stream 1 s)|done].
Qed.

Lemma session_rx q st s s' :
  session q st -> at_stream 0 st s -> live s' -> s_buf s' = s_buf s -> s_size s' = s_size s -> session q (with_stream 0 s' st).
Proof.
  intros [Ho H1 H2 (s0 & Hs0 & Hl0 & Hb) (s1 & Hs1 & ?)] Hs Hl Eb Es. assert (s0 = s) as -> by (unfold at_stream in *; congruence).
  split; try done.
  - exists s'. split; [now apply (at_with_stream 0 s)|]. split; [done|]. rewrite Eb, Es. exact Hb.
  - exists s1. split; [now apply at_with_stream_ne|done].
Qed.

Section Session.
Context (w : world) (patience : nat).

(** ** Reading *)

Section Read.
Context (filter_fuel : nat) (mem : list Z) {U : Type} (callback : U -> pcap_pkthdr -> Z -> U * bool).

(** The program installed, if any, returns a value on every packet. *)
Definition filter_returns (p : pcap_t) : Prop :=
  forall f bs wirelen buflen, p_fcode p = Some f -> exists v, bpf_filter filter_fuel mem (Some f) bs wirelen buflen = Return v.

(** A stretch [a .. a + n - 1] of the mapping of the receive stream. *)
Definition in_mapping (a n : Z) (st : nst) : Prop :=
  exists s b, at_stream 0 st s /\ s_buf s = Some b /\ b <= a /\ a + n <= b + s_size s + s_extra s.

Lemma in_mapping_events a n st st' : only_events st st' -> in_mapping a n st -> in_mapping a n st'.
Proof. intros He (s & b & Hs & ?). exists s, b. split; [now apply (at_only_events 0 st)|done]. Qed.

Lemma in_mapping_part a n b m st : in_mapping a n st -> a <= b -> b + m <= a + n -> in_mapping b m st.
Proof. intros (s & c & ? & ? & ? & ?) ? ?. exists s, c. split; [done|]. split; [done|]. lia. Qed.

Lemma nwp_load_byte a (Q : byte -> nst -> Prop) st : in_mapping a 1 st -> (forall v, Q v st) -> nwp (load_byte w 0 a) Q st.
Proof.
  intros (s & b & Hs & Hb & H1 & H2) HQ. unfold load_byte. nstep. apply (nwp_get_stream 0 s); [done|]. nstep.
  apply (nwp_ofoption _ b); [done|]. destruct (Z.leb_spec 0 (a - b)); [|lia].
  destruct (Z.ltb_spec (a - b) (s_size s + s_extra s)); [|lia]. cbn. nstep. nstep. nstep. apply HQ.
Qed.

Lemma nwp_load_be16 a (Q : Z -> nst -> Prop) st :
  in_mapping a 2 st -> (forall v, 0 <= v < 2 ^ 16 -> Q v st) -> nwp (load_be16 w 0 a) Q st.
Proof.
  intros Hm HQ. unfold load_be16. nstep. apply nwp_load_byte; [apply (in_mapping_part a 2); [done|lia..]|].
  intros hi. nstep. apply nwp_load_byte; [apply (in_mapping_part a 2); [done|lia..]|]. intros lo. nstep. apply HQ.
  pose proof (b2z_range hi). pose proof (b2z_range lo). lia.
Qed.

Lemma nwp_load_bytes n a (Q : list byte -> nst -> Prop) st :
  in_mapping a (Z.of_nat n) st -> (forall bs, Q bs st) -> nwp (load_bytes w 0 a n) Q st.
Proof.
  revert a Q. induction n as [|n IH]; intros a Q Hm HQ; cbn [load_bytes]; [nstep; apply HQ|]. nstep.
  apply nwp_load_byte; [apply (in_mapping_part a (Z.of_nat (S n))); [done|lia..]|]. intros b. nstep.
  apply IH; [apply (in_mapping_part a (Z.of_nat (S n))); [done|lia..]|]. intros bs. nstep. apply HQ.
Qed.

(** What a step of the loop keeps. *)
Definition same_session (x x' : @read_state U) : Prop :=
  p_fcode (rd_p x') = p_fcode (rd_p x) /\ rx_stream (rd_q x') = rx_stream (rd_q x) /\ tx_stream (rd_q x') = tx_stream (rd_q x) /\
  qnf_mem_bottom (rd_q x') = qnf_mem_bottom (rd_q x).

Lemma deliver_same h a x : same_session x (deliver callback h a x).
Proof. unfold deliver. destruct (callback _ _ _) as [u [|]]; done. Qed.

Lemma nwp_packet h a x (Q : @read_state U -> nst -> Prop) st :
  filter_returns (rd_p x) -> rx_stream (rd_q x) = 0 -> 0 <= caplen h -> in_mapping a (caplen h) st ->
  (forall x', same_session x x' -> Q x' st) -> nwp (qnf_packet w filter_fuel mem callback h a x) Q st.
Proof.
  intros Hf Hrx Hc Hm HQ. unfold qnf_packet. destruct (_ <? _); [nstep; now apply HQ|].
  destruct (p_fcode (rd_p x)) as [f|] eqn:Ef; [|nstep; apply HQ, deliver_same]. rewrite Hrx. nstep. apply nwp_load_bytes.
  { now rewrite Z2Nat.id. }
  intros bs. destruct (Hf f bs (len h) (caplen h) Ef) as [v ->]. nstep. destruct (v =? 0); apply HQ; [done|apply deliver_same].
Qed.

(** The bottom the handle keeps after the loop is between the two ends. *)
Lemma nwp_records turns cnt top bottom x st :
  filter_returns (rd_p x) -> rx_stream (rd_q x) = 0 -> qnf_mem_bottom (rd_q x) = Some bottom ->
  in_mapping bottom (top - bottom + NAC_RECORD_LEN) st ->
  nwp (qnf_records w filter_fuel mem callback turns cnt top bottom x)
    (fun r st' => only_events st st' /\ p_fcode (rd_p r.2) = p_fcode (rd_p x) /\ rx_stream (rd_q r.2) = rx_stream (rd_q x) /\
       tx_stream (rd_q r.2) = tx_stream (rd_q x) /\ exists b, qnf_mem_bottom (rd_q r.2) = Some b /\ bottom <= b <= Z.max bottom top) st.
Proof.
  revert bottom x st. induction turns as [|n IH]; intros bottom x st Hf Hrx Hb Hm; cbn [qnf_records];
    (destruct (Z.leb_spec (top - bottom) NAC_RECORD_LEN); [nstep; repeat (split; [done|]); exists bottom; split; [done|lia]|]); [nstep|].
  unfold erf_wlen, erf_rlen. rewrite Hrx. unfold NAC_RECORD_LEN in *. nstep.
  apply nwp_load_be16; [eapply in_mapping_part; [exact Hm|lia..]|]. intros wlen Hw. nstep.
  apply nwp_load_be16; [eapply in_mapping_part; [exact Hm|lia..]|]. intros rlen Hr.
  destruct (Z.ltb_spec (top - bottom) rlen) as [|Hle]; [nstep; repeat (split; [done|]); exists bottom; split; [done|lia]|].
  nstep. nstep. nstep. set (ts := w_clock w (n_hist st)).
  apply nwp_packet; [done..|cbn; lia| |].
  { apply (in_mapping_events _ _ st); [done|]. eapply in_mapping_part; [exact Hm|cbn; lia..]. }
  intros x' (E1 & E2 & E3 & E4). cbn [set_bottom rd_p rd_q rd_processed set_mem rx_stream qnf_mem_bottom].
  destruct (_ =? u64 cnt).
  - nstep. cbn. split; [done|]. split; [done|]. split; [congruence|]. split; [congruence|]. exists (bottom + rlen). split; [done|lia].
  - eapply nwp_mono; [apply IH|].
    + unfold filter_returns in *. cbn. now rewrite E1.
    + cbn. congruence.
    + done.
    + apply (in_mapping_events _ _ st); [done|]. eapply in_mapping_part; [exact Hm|lia..].
    + intros [r x2] st2 (He & F1 & F2 & F3 & b & Eb & Hb2). cbn in *. split; [done|]. split; [congruence|].
      split; [congruence|]. split; [congruence|]. exists b. split; [done|lia].
Qed.

Lemma nwp_wait turns x st (Q : (Z * @read_state U + Z * Z * @read_state U) -> nst -> Prop) :
  session (rd_q x) st ->
  (forall n x' st', session (rd_q x') st' -> p_fcode (rd_p x') = p_fcode (rd_p x) -> Q (inl (n, x')) st') ->
  (forall top bottom x' st', session (rd_q x') st' -> p_fcode (rd_p x') = p_fcode (rd_p x) ->
     qnf_mem_bottom (rd_q x') = Some bottom -> in_mapping bottom (top - bottom + NAC_RECORD_LEN) st' ->
     NAC_RECORD_LEN < top - bottom -> Q (inr (top, bottom, x')) st') ->
  nwp (qnf_wait w patience turns x) Q st.
Proof.
  intros Hs HQ1 HQ2. revert x st Hs HQ1 HQ2. induction turns as [|n IH]; intros x st Hs HQ1 HQ2; cbn [qnf_wait].
  all: pose proof Hs as [Ho Hrx Htx (s & Hat & Hl & Hb) Htl]; pose proof Hl as [La _ [b Lp] [a Lb] Lsz Lex _].
  all: nstep; rewrite Hrx; apply (nwp_advance w patience 0 s b a); [done..|]; intros top st' He Htop.
  all: pose proof (wrap_bottom_range s a (qnf_mem_bottom (rd_q x)) ltac:(unfold SEND_PACKET_UNIT in *; lia) (fun c Hc => Hb c a Hc Lb)) as Hwr.
  all: set (bot := wrap_bottom s a (qnf_mem_bottom (rd_q x))) in *; set (x' := mk_read (rd_p x) _ _ _).
  all: assert (session (rd_q x') st') as Hs' by
    (apply (session_events _ st); [done|]; split; try done; exists s; split; [done|]; split; [done|]; cbn; intros c d [= <-] Hd;
     assert (d = a) as -> by congruence; lia).
  all: nstep; nstep; destruct (w_shutdown w (n_hist st')); [nstep; apply HQ1; [exact Hs'|done]|].
  all: cbn [ofoption]; nstep; nstep; destruct (Z.leb_spec (top - bot) NAC_RECORD_LEN).
  1, 2: nstep || idtac.
  - apply HQ2; try done. exists s, a. split; [now apply (at_only_events 0 st)|]. split; [done|].
    unfold NAC_RECORD_LEN, SAFETY_WINDOW, SEND_PACKET_UNIT in *. lia.
  - apply IH; [done|..]; intros; [apply HQ1|apply HQ2]; done.
  - nstep. apply HQ2; try done. exists s, a. split; [now apply (at_only_events 0 st)|]. split; [done|].
    unfold NAC_RECORD_LEN, SAFETY_WINDOW, SEND_PACKET_UNIT in *. lia.
Qed.

Lemma nwp_read p q cnt u st :
  session q st -> filter_returns p ->
  nwp (qnf_read w patience filter_fuel mem callback p q cnt u)
    (fun r st' => session (rd_q r.2) st' /\ p_fcode (rd_p r.2) = p_fcode p) st.
Proof.
  intros Hs Hf. unfold qnf_read. destruct (cnt =? 0); [nstep; done|]. nstep. apply nwp_wait; [done| |].
  - intros n x st' Hs' Ef. nstep. done.
  - intros top bottom x st' Hs' Ef Eb Hm Hlt. eapply nwp_mono; [apply nwp_records|].
    + unfold filter_returns in *. cbn in Ef. now rewrite Ef.
    + apply Hs'.
    + done.
    + done.
    + intros [n x2] st2 (He & F1 & F2 & F3 & b & Fb & Hb). cbn in *. split; [|congruence].
      apply (session_events _ st'); [done|]. destruct Hs' as [Ho H1 H2 (s & Hat & Hl & Hbs) Htl]. split; try congruence.
      exists s. split; [done|]. split; [done|]. intros c d Ec Ed. assert (c = b) as -> by congruence.
      destruct Hm as (s' & d' & Hat' & Ed' & Hm1 & Hm2). assert (s' = s) as -> by (unfold at_stream in *; congruence).
      assert (d' = d) as -> by congruence. pose proof (lv_extra _ Hl). unfold NAC_RECORD_LEN in *. lia.
Qed.
End Read.

(** ** Sending *)

(** Only the accounting of the transmit stream changes. *)
Definition tx_keeps (q : pcap_qnf) (Q : nst -> Prop) : Prop := forall st, session q st -> Q st.

Lemma nwp_upd_tx q f st (Q : unit -> nst -> Prop) :
  session q st -> (forall s, live s -> live (f s)) -> tx_keeps q (Q tt) -> nwp (upd_stream 1 f) Q st.
Proof.
  intros Hs Hf HQ. destruct (ss_tx_live _ _ Hs) as (s & Hat & Hl). apply (nwp_upd_stream 1 f s); [done|].
  apply HQ, (session_tx q st s); auto.
Qed.

Lemma nwp_wait_space q turns n st (Q : unit -> nst -> Prop) :
  session q st -> tx_keeps q (Q tt) -> nwp (wait_space w turns 1 n) Q st.
Proof.
  revert st. induction turns as [|m IH]; intros st Hs HQ; cbn [wait_space];
    destruct (ss_tx_live _ _ Hs) as (s & Hat & Hl); nstep; apply (nwp_get_stream 1 s); try done;
    (destruct (_ <=? _); [nstep; now apply HQ|]); [nstep|].
  destruct (lv_pbm _ Hl) as [b Hb]. nstep. apply (nwp_get_pbm 1 s b); [done..|]. nstep. nstep. nstep.
  apply (nwp_upd_tx q); [auto with live|intros; unfold set_free; auto with live|].
  intros st' Hs'. nstep. nstep. apply IH; auto with live.
Qed.

(** The address returned is that of the next free byte of the ring. *)
Lemma nwp_get_space q size st (Q : option Z -> nst -> Prop) :
  session q st -> 0 < size <= SEND_PACKET_UNIT ->
  (forall st' s a, session q st' -> at_stream 1 st' s -> s_buf s = Some a -> Q (Some (a + s_offset s)) st') ->
  nwp (nac_tx_get_stream_space w patience 1 size) Q st.
Proof.
  intros Hs Hsz HQ. unfold nac_tx_get_stream_space. destruct (ss_tx_live _ _ Hs) as (s & Hat & Hl).
  apply (nwp_attached 1 _ _ _ _ s); [apply Hs|done|apply Hl|]. destruct (Z.eqb_spec size 0); [lia|].
  change (not_tx 1) with false. cbv iota. destruct (lv_pbm _ Hl) as [b Hb]. nstep. apply (nwp_get_pbm 1 s b); [done..|].
  nstep. nstep. nstep. apply (nwp_upd_tx q); [auto with live|auto with live|]. intros st1 Hs1.
  assert (s32 size = size) as -> by (apply s32_id; unfold SEND_PACKET_UNIT in *; lia).
  destruct (Z.leb_spec (2 ^ 31) (size + 2048)); [unfold SEND_PACKET_UNIT in *; lia|]. nstep. apply (nwp_wait_space q); [done|].
  intros st2 Hs2. nstep. apply (nwp_upd_tx q); [done|auto with live|]. intros st3 Hs3.
  destruct (ss_tx_live _ _ Hs3) as (s3 & Hat3 & Hl3). destruct (lv_buf _ Hl3) as [a Ha]. nstep. apply (nwp_get_stream 1 s3); [done|].
  nstep. apply (nwp_ofoption _ a); [done|]. nstep. now apply HQ.
Qed.

Lemma nwp_store q st s a bs (Q : unit -> nst -> Prop) :
  session q st -> at_stream 1 st s -> s_buf s = Some a -> Z.of_nat (List.length bs) <= SEND_PACKET_UNIT -> tx_keeps q (Q tt) ->
  nwp (store_bytes 1 (a + s_offset s) bs) Q st.
Proof.
  intros Hs Hat Ha Hbs HQ. unfold store_bytes. nstep. apply (nwp_get_stream 1 s); [done|]. nstep. apply (nwp_ofoption _ a); [done|].
  destruct (ss_tx_live _ _ Hs) as (s' & Hat' & Hl). assert (s' = s) as -> by (unfold at_stream in *; congruence).
  pose proof (lv_offset _ Hl). pose proof (lv_extra _ Hl). pose proof (lv_size _ Hl).
  destruct (Z.leb_spec 0 (a + s_offset s - a)); [|lia].
  destruct (Z.leb_spec (a + s_offset s - a + Z.of_nat (List.length bs)) (s_size s + s_extra s)); [|lia]. cbn [andb].
  apply (nwp_upd_tx q); [done|auto with live|done].
Qed.

(** The new offset, when the stream has been given [n] bytes more. *)
Lemma commit_offset s n : live s -> 0 <= n <= s_size s ->
  let o := u32 (s_offset s + n) in 0 <= (if s_size s <? o then u32 (o - s_size s) else o) <= s_size s.
Proof.
  intros Hl Hn. pose proof (lv_offset _ Hl). pose proof (lv_size _ Hl). cbv zeta.
  rewrite (u32_id (s_offset s + n)) by lia. destruct (Z.ltb_spec (s_size s) (s_offset s + n)); [rewrite u32_id by lia; lia|lia].
Qed.

Lemma nwp_commit q st (Q : option Z -> nst -> Prop) :
  session q st -> (forall st' r, session q st' -> Q (Some r) st') -> nwp (nac_tx_stream_commit_bytes 1 SEND_PACKET_UNIT) Q st.
Proof.
  intros Hs HQ. unfold nac_tx_stream_commit_bytes. destruct (ss_tx_live _ _ Hs) as (s & Hat & Hl).
  apply (nwp_attached 1 _ _ _ _ s); [apply Hs|done|apply Hl|]. nstep. apply (nwp_get_stream 1 s); [done|].
  pose proof (lv_size _ Hl). destruct (Z.ltb_spec (s_size s) SEND_PACKET_UNIT); [lia|]. change (not_tx 1) with false. cbv iota zeta.
  pose proof (commit_offset s SEND_PACKET_UNIT Hl ltac:(unfold SEND_PACKET_UNIT in *; lia)) as Ho. cbv zeta in Ho.
  set (o := if s_size s <? _ then _ else _) in *. nstep. apply (nwp_upd_stream 1 _ s); [done|].
  set (s' := set_s_last_bottom _ _). assert (live s') as Hl' by (apply (live_change (set_s_offset o s)); try done; now apply live_offset).
  assert (session q (with_stream 1 s' st)) as Hs' by now apply (session_tx q st s).
  destruct (lv_pbm _ Hl') as [b Hb]. nstep. apply (nwp_get_pbm 1 s' b); [now apply (at_with_stream 1 s)|done|]. nstep. nstep. nstep.
  destruct (lv_buf _ Hl) as [a Ha]. apply (nwp_ofoption _ a); [done|]. nstep. apply HQ. auto with live.
Qed.

Lemma length_overlay l o bs : (o + List.length bs <= List.length l)%nat -> List.length (overlay l o bs) = List.length l.
Proof. intros H. unfold overlay. rewrite !length_app, length_take, length_drop. lia. Qed.

Lemma length_erf_header junk rlen wlen : (List.length (erf_header junk rlen wlen) <= 20)%nat.
Proof.
  assert (forall v, List.length (be16 v) = 2%nat) as E by done.
  unfold erf_header. rewrite !length_app, !length_take, !length_drop, !E. lia.
Qed.

Lemma length_inject_packet junk buf size : size <= 1514 -> Z.of_nat (List.length (inject_packet junk buf size)) = SEND_PACKET_UNIT.
Proof.
  intros Hs. pose proof (length_erf_header junk SEND_PACKET_UNIT size) as Hh. unfold inject_packet. cbv zeta.
  set (packet := replicate _ _). assert (List.length packet = 1600%nat) as Hp by apply length_replicate.
  assert (List.length (overlay packet 0 (erf_header junk SEND_PACKET_UNIT size)) = 1600%nat) as H1 by (rewrite length_overlay; lia).
  rewrite length_overlay, H1; [done|]. rewrite H1, length_take. change (Z.to_nat NAC_RECORD_LEN) with 16%nat. lia.
Qed.

Lemma nwp_inject q junk buf size st :
  session q st -> Z.min size 1514 <= Z.of_nat (List.length buf) ->
  nwp (qnf_inject w patience junk q buf size) (fun r st' => session q st' /\ (r = -1 \/ r = Z.min size 1514)) st.
Proof.
  intros Hs Hb. unfold qnf_inject. assert ((if 1514 <? size then 1514 else size) = Z.min size 1514) as ->.
  { destruct (Z.ltb_spec 1514 size); lia. }
  cbv zeta. set (n := Z.min size 1514) in *. nstep. nstep. assert (session q (add_event Allocated st)) as Hs0 by auto with live.
  destruct (negb _); [nstep; auto|]. destruct (Z.ltb_spec (Z.of_nat (List.length buf)) n); [lia|].
  rewrite (ss_tx _ _ Hs). nstep. apply (nwp_get_space q); [done|unfold SEND_PACKET_UNIT; lia|]. intros st1 s a Hs1 Hat Ha. cbv iota.
  nstep. apply (nwp_store q); [done..|rewrite length_inject_packet; lia|]. intros st2 Hs2. nstep. apply (nwp_commit q); [done|].
  intros st3 r Hs3. nstep. auto.
Qed.

(** ** The other operations *)

Lemma nwp_setnonblock q ok nonblock st :
  session q st -> nwp (qnf_setnonblock ok q nonblock) (fun _ st' => session q st') st.
Proof.
  intros Hs. unfold qnf_setnonblock. destruct (negb ok); [nstep; done|]. rewrite (ss_rx _ _ Hs).
  destruct (ss_rx_live _ _ Hs) as (s & Hat & Hl & _). unfold nac_set_stream_poll. nstep.
  apply (nwp_attached 0 _ _ _ _ s); [apply Hs|done|apply Hl|]. nstep. apply (nwp_upd_stream 0 _ s); [done|]. nstep. nstep.
  apply (session_rx q st s); try done. unfold set_poll_params. auto with live.
Qed.

Lemma session_stat r d q st : session q st -> session (set_stat r d q) st.
Proof. intros [? ? ? ? ?]. now split. Qed.

Lemma nwp_stats q st : session q st -> nwp (qnf_get_stats w q) (fun r st' => session r.2 st') st.
Proof.
  intros Hs. unfold qnf_get_stats, nac_get_drop_cnt. rewrite (ss_rx _ _ Hs). destruct (ss_rx_live _ _ Hs) as (s & Hat & Hl & _).
  destruct (lv_pbm _ Hl) as [b Hb]. nstep. nstep. apply (nwp_get_pbm 0 s b); [done..|]. nstep. nstep.
  apply session_stat. auto with live.
Qed.
End Session.
