(* ===== verification/QnfSession.v ===== *)
(** * From activation to closing (pcap-gap16g.c)

    The streams are configured, attached and started in order; where a step fails what was
    attached is detached. Then any calls, then closing. *)
From stdpp Require Import base numbers list gmap strings.
From Stdlib Require Import Strings.String Strings.Byte.
From S2P Require Import Prelude BpfInsn BpfFilter LinkType UsbHeader Pcap SfPcap Savefile Datalink PcapApi.
From S2P Require Import NacState NacStream NacTx NacConfig Qnf NacProofs QnfProofs.
Open Scope Z_scope.

(** ** One stream changes *)

Definition stream_change (i : Z) (s' : stream_t) (st st' : nst) : Prop :=
  opened (n_sheep st') = opened (n_sheep st) /\ at_stream i st' s' /\
  forall j t, j <> i -> at_stream j st t -> at_stream j st' t.

Lemma change_events i s st st' : at_stream i st s -> only_events st st' -> stream_change i s st st'.
Proof. intros Hs [E _]. unfold stream_change, at_stream in *. rewrite E. auto. Qed.

Lemma change_with i s s' st : 0 <= i -> at_stream i st s -> stream_change i s' st (with_stream i s' st).
Proof.
  intros Hi Hs. split; [done|]. split; [now apply (at_with_stream i s)|]. intros j t Hj. now apply at_with_stream_ne.
Qed.

Lemma change_trans i s s' st st1 st2 : stream_change i s st st1 -> stream_change i s' st1 st2 -> stream_change i s' st st2.
Proof. intros (H1 & _ & H3) (H4 & H5 & H6). split; [congruence|]. auto. Qed.

Lemma change_event i s e st st' : stream_change i s (add_event e st) st' -> stream_change i s st st'.
Proof. done. Qed.

Lemma change_event_r i s e st st' : stream_change i s st st' -> stream_change i s st (add_event e st').
Proof. done. Qed.

Lemma change_at i s st st' : stream_change i s st st' -> at_stream i st' s.
Proof. intros (_ & H & _). exact H. Qed.

Lemma change_opened i s st st' : stream_change i s st st' -> opened (n_sheep st) = true -> opened (n_sheep st') = true.
Proof. intros (H & _) ?. congruence. Qed.

Lemma change_errno i s st st' e : stream_change i s st st' -> stream_change i s st (mk_nst (n_hist st') (n_sheep st') e).
Proof. done. Qed.

(** ** Stages of a stream *)

(** It has its part of the buffer. *)
Record configured (s : stream_t) : Prop := {
  cf_pbm : exists b, s_pbm s = PbmLive b;
  cf_size : SEND_PACKET_UNIT <= s_size s < 2 ^ 31
}.

(** It is mapped, and not started. *)
Record mapped (s : stream_t) : Prop := {
  mp_config : configured s;
  mp_attached : s_attached s = true;
  mp_started : s_started s = false;
  mp_buf : exists a, s_buf s = Some a;
  mp_extra : s_extra s = s_size s;
  mp_offset : s_offset s = 0
}.

Lemma live_configured s : live s -> configured s.
Proof. intros []. now split. Qed.

Section Steps.
Context (w : world) (patience : nat).

Lemma nwp_map_stream size extra (Q : option Z -> nst -> Prop) st :
  (forall o st', only_events st st' -> Q o st') -> nwp (map_stream w size extra) Q st.
Proof.
  intros H. unfold map_stream. nstep. nstep. case_match; [|nstep; now apply H]. nstep. nstep. case_match; [|nstep; now apply H].
  nstep. nstep. nstep. now apply H.
Qed.

(** What attaching gives: the stream, mapped, or -1. *)
Definition attach_post (i : Z) (st : nst) (r : Z) (st' : nst) : Prop :=
  exists s', stream_change i s' st st' /\ configured s' /\ (r = 0 /\ mapped s' \/ r = -1).

(** The common part of the two attach functions, without overlapping. *)
Lemma nwp_attach_body i s phy (k : nac Z) st :
  0 <= i -> at_stream i st s -> configured s ->
  k = (_ ← upd_stream i init_poll;
       let extra := if 0 =? 0 then u32 (s32 (s_size s)) else 0 in
       if s32 (s_size s) <? s32 extra then fail_with EINVAL (-1)
       else p ← map_stream w (s32 (s_size s)) extra;
            match p with
            | None => mret (-1)
            | Some a => _ ← upd_stream i (attached_at a extra phy); mret 0
            end) ->
  nwp k (attach_post i st) st.
Proof.
  intros Hi Hs [Hp Hz] ->. unfold SEND_PACKET_UNIT in *. rewrite s32_id by lia. cbn [Z.eqb]. rewrite u32_id, s32_id by lia.
  rewrite Z.ltb_irrefl. set (s1 := init_poll s). nstep. apply (nwp_upd_stream i _ s); [done|]. cbv zeta. nstep.
  assert (stream_change i s1 st (with_stream i s1 st)) as H1 by now apply (change_with i s).
  assert (configured s1) as Hc1 by (split; [exact Hp|exact Hz]).
  apply nwp_map_stream. intros o st2 He.
  assert (stream_change i s1 st st2) as H2.
  { apply (change_trans i s1 s1 _ (with_stream i s1 st)); [exact H1|]. apply change_events; [now apply (change_at i s1 st)|exact He]. }
  destruct o as [a|]; [|nstep; exists s1; auto]. nstep. apply (nwp_upd_stream i _ s1); [now apply (change_at i s1 st)|]. nstep.
  set (s2 := attached_at a _ _ s1). exists s2. split; [apply (change_trans i s1 s2 _ st2); [done|apply (change_with i s1); [done|now apply (change_at i s1 st)]]|].
  assert (configured s2) as Hc2 by (split; [exact Hp|exact Hz]). split; [done|]. left. split; [done|]. split; try done. now exists a.
Qed.

Lemma nwp_attach i s flags st :
  0 <= i -> opened (n_sheep st) = true -> at_stream i st s -> configured s -> nwp (nac_attach_stream w i flags 0) (attach_post i st) st.
Proof.
  intros Hi Ho Hs Hc. unfold nac_attach_stream. apply nwp_opened; [done|]. nstep. nstep. nstep. apply (nwp_get_stream i s); [done|].
  now apply (nwp_attach_body i s (u32 (phy_addr (n_sheep st) + i * s32 (s_size s)))).
Qed.

Lemma nwp_tx_attach i s st :
  NUM_STREAM <= i -> opened (n_sheep st) = true -> at_stream i st s -> configured s ->
  nwp (nac_tx_attach_stream w i COPY_FWD 0) (attach_post i st) st.
Proof.
  intros Hi Ho Hs Hc. unfold nac_tx_attach_stream, if_tx. apply nwp_opened; [done|]. destruct (Z.ltb_spec i NUM_STREAM); [lia|].
  nstep. nstep. nstep. apply (nwp_get_stream i s); [done|].
  apply (nwp_attach_body i s (u32 (phy_addr (n_sheep st) + i * s32 (s_size s)))); unfold NUM_STREAM in *; try done. lia.
Qed.

(** Polling parameters are set. *)
Definition poll_post (i : Z) (st : nst) (r : Z) (st' : nst) : Prop := r = 0 /\ exists s', stream_change i s' st st' /\ mapped s'.

Lemma nwp_poll_body i s mindata maxwait poll st :
  0 <= i -> at_stream i st s -> mapped s ->
  nwp (_ ← upd_stream i (set_poll_params mindata maxwait poll); mret 0) (poll_post i st) st.
Proof.
  intros Hi Hs [[Hp Hz] ? ? ? ? ?]. nstep. apply (nwp_upd_stream i _ s); [done|]. nstep. split; [done|].
  eexists. split; [now apply (change_with i s)|]. now repeat split.
Qed.

Lemma nwp_set_poll i s mindata maxwait poll st :
  0 <= i -> opened (n_sheep st) = true -> at_stream i st s -> mapped s ->
  nwp (nac_set_stream_poll i mindata maxwait poll) (poll_post i st) st.
Proof.
  intros Hi Ho Hs Hm. unfold nac_set_stream_poll. apply (nwp_attached i _ _ _ _ s); [done..|apply Hm|]. now apply (nwp_poll_body i s).
Qed.

Lemma nwp_tx_set_poll i s mindata maxwait poll st :
  NUM_STREAM <= i -> opened (n_sheep st) = true -> at_stream i st s -> mapped s ->
  nwp (nac_tx_set_stream_poll i mindata maxwait poll) (poll_post i st) st.
Proof.
  intros Hi Ho Hs Hm. unfold nac_tx_set_stream_poll, if_tx. apply (nwp_attached i _ _ _ _ s); [done..|apply Hm|].
  destruct (Z.ltb_spec i NUM_STREAM); [lia|]. apply (nwp_poll_body i s); unfold NUM_STREAM in *; try done. lia.
Qed.

(** A started stream is live. *)
Definition start_post (i : Z) (st : nst) (r : Z) (st' : nst) : Prop := r = 0 /\ exists s', stream_change i s' st st' /\ live s'.

Lemma mapped_start s : mapped s -> live (set_s_started true s).
Proof. intros [[Hp Hz] ? ? ? ? Ho]. split; try done. cbn. unfold SEND_PACKET_UNIT in *. lia. Qed.

Lemma nwp_start_body i s b limit st :
  0 <= i -> at_stream i st s -> mapped s ->
  nwp (_ ← reg_write (limit_ptr b) limit; _ ← reg_read w (limit_ptr b); _ ← reg_read w (record_ptr b);
       _ ← reg_write (dma_ctl_reg b) dma_pause_n; _ ← upd_stream i (set_s_started true); mret 0) (start_post i st) st.
Proof.
  intros Hi Hs Hm. do 9 nstep. apply (nwp_upd_stream i _ s); [done|]. nstep. split; [done|]. exists (set_s_started true s).
  split; [|now apply mapped_start]. apply (change_trans i s _ _ (add_event (RegWrite (dma_ctl_reg b) (u32 dma_pause_n))
    (add_event (RegRead (record_ptr b) rv0) (add_event (RegRead (limit_ptr b) rv) (add_event (RegWrite (limit_ptr b) (u32 limit)) st))))).
  - now apply change_events.
  - now apply (change_with i s).
Qed.

Lemma nwp_start i s st :
  0 <= i -> opened (n_sheep st) = true -> at_stream i st s -> mapped s -> nwp (nac_start_stream w i) (start_post i st) st.
Proof.
  intros Hi Ho Hs Hm. unfold nac_start_stream. destruct (cf_pbm _ (mp_config _ Hm)) as [b Hb]. nstep. apply (nwp_get_stream i s); [done|].
  nstep. apply (nwp_get_pbm i s b); [done..|]. apply (nwp_attached i _ _ _ _ s); [done..|apply Hm|]. rewrite (mp_started _ Hm).
  now apply (nwp_start_body i s).
Qed.

Lemma nwp_tx_start i s st :
  NUM_STREAM <= i -> opened (n_sheep st) = true -> at_stream i st s -> mapped s -> nwp (nac_tx_start_stream w i) (start_post i st) st.
Proof.
  intros Hi Ho Hs Hm. unfold nac_tx_start_stream, if_tx. destruct (cf_pbm _ (mp_config _ Hm)) as [b Hb]. nstep.
  apply (nwp_get_stream i s); [done|]. nstep. apply (nwp_get_pbm i s b); [done..|]. apply (nwp_attached i _ _ _ _ s); [done..|apply Hm|].
  rewrite (mp_started _ Hm). destruct (Z.ltb_spec i NUM_STREAM); [lia|]. apply (nwp_start_body i s); unfold NUM_STREAM in *; try done. lia.
Qed.

(** A detached stream. *)
Definition detach_post (i : Z) (st : nst) (r : Z) (st' : nst) : Prop :=
  r = 0 /\ exists s', stream_change i s' st st' /\ s_attached s' = false /\ s_started s' = false.

Lemma nwp_detach_body i s st :
  0 <= i -> at_stream i st s -> configured s ->
  nwp (s ← get_stream i;
       _ ← (match s_buf s with
            | None => mret tt
            | Some _ => b ← get_pbm i; _ ← dma_pause w b; upd_stream i (set_s_pbm PbmFreed)
            end);
       _ ← upd_stream i unstarted; mret 0) (detach_post i st) st.
Proof.
  intros Hi Hs [[b Hb] _]. nstep. apply (nwp_get_stream i s); [done|].
  assert (forall st' s', stream_change i s' st st' -> nwp (_ ← upd_stream i unstarted; mret 0) (detach_post i st) st') as Hrest.
  { intros st' s' Hc. nstep. apply (nwp_upd_stream i _ s'); [now apply (change_at i _ st)|]. nstep. split; [done|]. exists (unstarted s').
    split; [|done]. apply (change_trans i s' _ _ st'); [done|]. apply (change_with i s'); [done|now apply (change_at i _ st)]. }
  nstep. destruct (s_buf s); [|nstep; apply (Hrest st s); now apply change_events].
  nstep. apply (nwp_get_pbm i s b); [done..|]. nstep. apply nwp_dma_pause. intros v st' He.
  pose proof (change_events i s st st' Hs He) as Hc. apply (nwp_upd_stream i _ s); [now apply (change_at i _ st)|].
  apply (Hrest _ (set_s_pbm PbmFreed s)). apply (change_trans i s _ _ st'); [done|]. apply (change_with i s); [done|now apply (change_at i _ st)].
Qed.

Lemma nwp_detach i s st :
  0 <= i -> opened (n_sheep st) = true -> at_stream i st s -> configured s -> nwp (nac_detach_stream w i) (detach_post i st) st.
Proof. intros Hi Ho Hs Hc. unfold nac_detach_stream. apply nwp_opened; [done|]. now apply (nwp_detach_body i s). Qed.

Lemma nwp_tx_detach i s flags st :
  NUM_STREAM <= i -> opened (n_sheep st) = true -> at_stream i st s -> configured s ->
  nwp (nac_tx_detach_stream w i flags) (detach_post i st) st.
Proof.
  intros Hi Ho Hs Hc. unfold nac_tx_detach_stream, if_tx. apply nwp_opened; [done|]. destruct (Z.ltb_spec i NUM_STREAM); [lia|].
  apply (nwp_detach_body i s); unfold NUM_STREAM in *; try done. lia.
Qed.

(** Stopped, a stream still has its part of the buffer. *)
Definition stop_post (i : Z) (st : nst) (r : Z) (st' : nst) : Prop := r = 0 /\ exists s', stream_change i s' st st' /\ configured s'.

Lemma nwp_stop_body i s b (Q : Z -> nst -> Prop) st :
  0 <= i -> at_stream i st s -> configured s -> (forall r st', stop_post i st r st' -> Q r st') ->
  nwp (_ ← dma_pause w b; _ ← upd_stream i (set_s_started false); mret 0) Q st.
Proof.
  intros Hi Hs [Hp Hz] HQ. nstep. apply nwp_dma_pause. intros v st' He. pose proof (change_events i s st st' Hs He) as Hc.
  nstep. apply (nwp_upd_stream i _ s); [now apply (change_at i _ st)|]. nstep. apply HQ. split; [done|]. exists (set_s_started false s).
  split; [|now split]. apply (change_trans i s _ _ st'); [done|]. apply (change_with i s); [done|now apply (change_at i _ st)].
Qed.

Lemma nwp_stop i s st :
  0 <= i -> opened (n_sheep st) = true -> at_stream i st s -> live s -> nwp (nac_stop_stream w i) (stop_post i st) st.
Proof.
  intros Hi Ho Hs Hl. unfold nac_stop_stream. apply (nwp_attached i _ _ _ _ s); [done..|apply Hl|]. nstep.
  apply (nwp_get_stream i s); [done|]. rewrite (lv_started _ Hl). destruct (lv_pbm _ Hl) as [b Hb]. cbn [negb]. nstep.
  apply (nwp_get_pbm i s b); [done..|]. apply (nwp_stop_body i s); auto using live_configured.
Qed.

Lemma nwp_wait_sent turns b rcd limit (Q : unit -> nst -> Prop) st :
  (forall st', only_events st st' -> Q tt st') -> nwp (wait_sent w turns b rcd limit) Q st.
Proof.
  revert rcd st. induction turns as [|n IH]; intros rcd st H; cbn [wait_sent]; (destruct (_ =? _); [nstep; now apply H|]); [nstep|].
  nstep. nstep. nstep. nstep. apply IH. intros st' He. apply H. destruct He. now split.
Qed.

Lemma nwp_tx_stop i s st :
  NUM_STREAM <= i -> opened (n_sheep st) = true -> at_stream i st s -> live s ->
  nwp (nac_tx_stop_stream w patience i) (stop_post i st) st.
Proof.
  intros Hi Ho Hs Hl. unfold nac_tx_stop_stream, if_tx. apply (nwp_attached i _ _ _ _ s); [done..|apply Hl|]. nstep.
  apply (nwp_get_stream i s); [done|]. rewrite (lv_started _ Hl). destruct (lv_pbm _ Hl) as [b Hb]. cbn [negb].
  destruct (Z.ltb_spec i NUM_STREAM); [lia|]. nstep. apply (nwp_get_pbm i s b); [done..|]. do 4 nstep. nstep.
  apply nwp_wait_sent. intros st' He.
  assert (only_events st st') as He' by (destruct He; now split).
  pose proof (at_only_events i _ _ _ He' Hs) as Hs'.
  apply (nwp_stop_body i s); [unfold NUM_STREAM in *; lia|done|now apply live_configured|].
  intros r st2 (Hr & s2 & Hc & Hcf). split; [done|]. exists s2. split; [|done].
  apply (change_trans i s s2 _ st'); [now apply change_events|done].
Qed.
End Steps.

(** ** Activation *)

Section Activation.
Context (w : world) (patience : nat).
Context (Hmalloc : forall h, w_malloc w h = true) (Hinfo : forall h, 2 * SEND_PACKET_UNIT <= u32 (w_info w h).2).

Lemma nwp_malloc_ok (Q : bool -> nst -> Prop) st : Q true (add_event Allocated st) -> nwp (malloc w) Q st.
Proof. intros H. unfold nwp, malloc, mbind, nac_bind, get, log. cbn. rewrite Hmalloc. exact H. Qed.

(** Stream [i] gets its part of the buffer. *)
Definition config_post (i : Z) (st : nst) (ok : bool) (st' : nst) : Prop :=
  ok = true /\ exists s', stream_change i s' st st' /\ configured s'.

Lemma config_post_events i st st1 st2 : config_post i st true st1 -> only_events st1 st2 -> config_post i st true st2.
Proof.
  intros (_ & s' & Hc & Hcf) He. split; [done|]. exists s'. split; [|done]. apply (change_trans i s' s' _ st1); [done|].
  apply change_events; [now apply (change_at i _ st)|done].
Qed.

Lemma nwp_new_pbm i b size s (Q : bool -> nst -> Prop) st :
  0 <= i -> SEND_PACKET_UNIT <= size < 2 ^ 31 -> at_stream i st s -> (forall st', config_post i st true st' -> Q true st') ->
  nwp (new_pbm w i b size) Q st.
Proof.
  intros Hi Hz Hs HQ. unfold new_pbm. nstep. apply nwp_malloc_ok. nstep. apply (nwp_upd_stream i _ s); [done|]. nstep. apply HQ.
  split; [done|]. eexists. split.
  - apply (change_trans i s _ _ (add_event Allocated st)); [now apply change_events|now apply (change_with i s)].
  - split; [now exists b|]. unfold SEND_PACKET_UNIT in *. cbn. rewrite u32_id by lia. lia.
Qed.

Lemma nwp_set_window r1 r2 a b (Q : unit -> nst -> Prop) st : (forall st', only_events st st' -> Q tt st') -> nwp (set_window w r1 r2 a b) Q st.
Proof. intros H. unfold set_window. do 9 nstep. now apply H. Qed.

Lemma nwp_inline_rx phy size i s st :
  0 <= i -> SEND_PACKET_UNIT <= size < 2 ^ 31 -> at_stream i st s -> nwp (inline_rx w phy size i) (config_post i st) st.
Proof.
  intros Hi Hz Hs. unfold inline_rx. nstep. apply (nwp_new_pbm i _ _ s); [done..|]. intros st1 H1. cbn [negb]. do 4 nstep.
  nstep. apply nwp_set_window. intros st2 He. do 3 nstep. apply (config_post_events i st st1); [done|]. destruct He. now split.
Qed.

Lemma nwp_inline_tx phy size i s st :
  0 <= i -> SEND_PACKET_UNIT <= size < 2 ^ 31 -> at_stream (i + NUM_STREAM) st s ->
  nwp (inline_tx w phy size COPY_FWD i) (config_post (i + NUM_STREAM) st) st.
Proof.
  intros Hi Hz Hs. unfold inline_tx. nstep. apply (nwp_new_pbm _ _ _ s); [unfold NUM_STREAM; lia|done..|]. intros st1 H1. cbn [negb].
  change (COPY_FWD =? OVERLAP_FWD) with false. do 4 nstep.
  nstep. apply nwp_set_window. intros st2 He. do 3 nstep. apply (config_post_events _ st st1); [done|]. destruct He. now split.
Qed.

(** Every entry of the card has two streams at least. *)
Definition two_streams (st : nst) : Prop := (exists s, at_stream 0 st s) /\ (exists s, at_stream 1 st s).

(** Both streams have their part. *)
Record staged (q : pcap_qnf) (st : nst) : Prop := {
  sg_opened : opened (n_sheep st) = true;
  sg_rx : rx_stream q = 0;
  sg_tx : tx_stream q = 1;
  sg_rx_cf : exists s, at_stream 0 st s /\ configured s;
  sg_tx_cf : exists s, at_stream 1 st s /\ configured s
}.

Lemma inline_size_range total : 2 * SEND_PACKET_UNIT <= total < 2 ^ 32 -> SEND_PACKET_UNIT <= inline_size total COPY_FWD < 2 ^ 31.
Proof.
  intros H. unfold inline_size, SEND_PACKET_UNIT in *. change (COPY_FWD =? OVERLAP_FWD) with false. change (NUM_STREAM * 2) with 2.
  pose proof (Z.div_le_lower_bound total 2 1600 ltac:(lia) ltac:(lia)). pose proof (Z.div_lt_upper_bound total 2 (2 ^ 31) ltac:(lia) ltac:(lia)).
  rewrite s32_id; lia.
Qed.

Lemma nwp_card_config q st :
  opened (n_sheep st) = true -> 2 * SEND_PACKET_UNIT <= buf_size (n_sheep st) < 2 ^ 32 -> two_streams st ->
  rx_stream q = 0 -> tx_stream q = 1 -> nwp (qnf_card_config w) (fun r st' => r = 0 /\ staged q st') st.
Proof.
  intros Ho Hz [[s0 H0] [s1 H1]] Hrx Htx. unfold qnf_card_config, nac_inline_msu_configure. nstep.
  change ((NUM_STREAM <=? 0) || (NUM_STREAM <? NUM_STREAM)) with false. cbv iota. nstep. nstep. rewrite Ho. cbn [negb]. cbv zeta.
  apply inline_size_range in Hz. set (size := inline_size _ _) in *. change (Z.to_nat NUM_STREAM) with 1%nat. cbn [for_streams].
  nstep. nstep. eapply nwp_mono; [now apply (nwp_inline_rx _ _ 0 s0)|]. intros ? st1 (-> & t0 & Hc0 & Hcf0). nstep. cbn [negb].
  nstep. nstep. destruct Hc0 as (E0 & Hat0 & Hne0). pose proof (Hne0 1 s1 ltac:(lia) H1) as H1'.
  eapply nwp_mono; [now apply (nwp_inline_tx _ _ 0 s1)|]. intros ? st2 (-> & t1 & (E1 & Hat1 & Hne1) & Hcf1). nstep. cbn [negb].
  nstep. nstep. split; [done|]. split; [congruence|done..| |].
  - exists t0. split; [|done]. apply Hne1; [unfold NUM_STREAM; lia|done].
  - exists t1. now split.
Qed.

Lemma nwp_open st :
  two_streams st ->
  nwp (nac_open w) (fun r st' => r = -1 \/
    r = card_fd /\ opened (n_sheep st') = true /\ 2 * SEND_PACKET_UNIT <= buf_size (n_sheep st') < 2 ^ 32 /\ two_streams st') st.
Proof.
  intros Ht. assert (forall s, nwp (_ ← put_sheep zero_sheep; mret (-1)) (fun r st' => r = -1 \/
    r = card_fd /\ opened (n_sheep st') = true /\ 2 * SEND_PACKET_UNIT <= buf_size (n_sheep st') < 2 ^ 32 /\ two_streams st') s) as Hfail.
  { intros s. do 3 nstep. auto. }
  unfold nac_open. nstep. nstep. destruct (negb _); [nstep; auto|]. nstep. nstep. destruct (negb _); [apply Hfail|].
  nstep. nstep. destruct (negb _); [apply Hfail|]. nstep. nstep. nstep. nstep. nstep. nstep. case_match; [|apply Hfail].
  nstep. right. split; [done|]. split; [done|]. split; [|done].
  cbn. split; [apply Hinfo|apply u32_range].
Qed.

(** The change of one of the two streams. *)
Lemma staged_rx q st st' s : staged q st -> stream_change 0 s st st' -> configured s -> staged q st'.
Proof.
  intros [Ho H1 H2 _ (t & Ht & ?)] (E & Hs & Hne) Hc. split; [congruence|done..|now exists s|]. exists t. split; [|done]. now apply Hne.
Qed.

Lemma staged_tx q st st' s : staged q st -> stream_change 1 s st st' -> configured s -> staged q st'.
Proof.
  intros [Ho H1 H2 (t & Ht & ?) _] (E & Hs & Hne) Hc. split; [congruence|done..| |now exists s]. exists t. split; [|done]. now apply Hne.
Qed.

Lemma staged_set_rx q st a b : staged q st -> staged (set_rx a b q) st.
Proof. intros []. now split. Qed.

Lemma staged_set_tx q st a b : staged q st -> staged (set_tx a b q) st.
Proof. intros []. now split. Qed.

Definition failed (r : Z * pcap_qnf) (st : nst) : Prop := r.1 = -1.

Lemma nwp_rx_fail q st : staged q st -> nwp (rx_attach_fail w q) failed st.
Proof.
  intros [Ho H1 H2 (s & Hs & Hc) _]. unfold rx_attach_fail. rewrite H1. nstep.
  eapply nwp_mono; [now apply (nwp_detach w 0 s)|]. intros. now nstep.
Qed.

Lemma nwp_tx_fail q st : staged q st -> nwp (tx_attach_fail w q) failed st.
Proof.
  intros [Ho H1 H2 (s0 & Hs0 & Hc0) (s & Hs & Hc)]. unfold tx_attach_fail. rewrite H2. nstep.
  eapply nwp_mono; [now apply (nwp_tx_detach w 1 s)|]. intros r st' (_ & s' & (E & Hs' & Hne) & _).
  unfold rx_attach_fail. cbn [rx_stream set_tx]. rewrite H1. nstep.
  eapply nwp_mono; [apply (nwp_detach w 0 s0); [done|congruence|now apply Hne|done]|]. intros. now nstep.
Qed.

(** Both streams in use, or -1. *)
Definition config_done (r : Z * pcap_qnf) (st : nst) : Prop :=
  r.1 = -1 \/ r.1 = 0 /\ opened (n_sheep st) = true /\ rx_stream r.2 = 0 /\ tx_stream r.2 = 1 /\
    (exists s, at_stream 0 st s /\ live s) /\ (exists s, at_stream 1 st s /\ live s).

Lemma nwp_failed (m : nac (Z * pcap_qnf)) st : nwp m failed st -> nwp m config_done st.
Proof. intros H. eapply nwp_mono; [exact H|]. now left. Qed.

Lemma nwp_config_tx q st s0 :
  staged q st -> at_stream 0 st s0 -> live s0 -> nwp (qnf_stream_config_tx w q) config_done st.
Proof.
  intros Hg H0 Hl0. unfold qnf_stream_config_tx. pose proof Hg as [Ho H1 H2 _ (s & Hs & Hc)]. rewrite H2. nstep.
  eapply nwp_mono; [now apply (nwp_tx_attach w 1 s)|]. intros r st1 (s1 & Hch & Hc1 & Hr).
  pose proof (staged_tx _ _ _ _ Hg Hch Hc1) as Hg1. destruct Hr as [[-> Hm] | ->]; [|now apply nwp_failed, nwp_tx_fail].
  cbn [Z.eqb negb tx_stream set_tx]. rewrite H2. nstep.
  eapply nwp_mono; [apply (nwp_tx_set_poll 1 s1); [done|apply Hg1|now apply (change_at 1 _ st)|done]|].
  intros r st2 (-> & s2 & Hch2 & Hm2). cbn [Z.ltb Z.compare]. nstep.
  pose proof (staged_tx _ _ _ _ Hg1 Hch2 (mp_config _ Hm2)) as Hg2.
  eapply nwp_mono; [apply (nwp_tx_start w 1 s2); [done|apply Hg2|now apply (change_at 1 _ st1)|done]|].
  intros r st3 (-> & s3 & Hch3 & Hl3). cbn [Z.ltb Z.compare]. nstep. right. split; [done|].
  pose proof (staged_tx _ _ _ _ Hg2 Hch3 (live_configured _ Hl3)) as Hg3. split; [apply Hg3|]. split; [done|]. split; [done|].
  split; [|exists s3; split; [now apply (change_at 1 _ st2)|done]].
  exists s0. split; [|done]. apply Hch3, Hch2, Hch; done.
Qed.

Lemma nwp_stream_config q st : staged q st -> nwp (qnf_stream_config w q) config_done st.
Proof.
  intros Hg. unfold qnf_stream_config. pose proof Hg as [Ho H1 H2 (s & Hs & Hc) _]. rewrite H1. nstep.
  eapply nwp_mono; [now apply (nwp_attach w 0 s)|]. intros r st1 (s1 & Hch & Hc1 & Hr).
  pose proof (staged_rx _ _ _ _ Hg Hch Hc1) as Hg1. destruct Hr as [[-> Hm] | ->]; [|now apply nwp_failed, nwp_rx_fail].
  cbn [Z.ltb Z.compare rx_stream set_rx]. rewrite H1. nstep.
  eapply nwp_mono; [apply (nwp_set_poll 0 s1); [done|apply Hg1|now apply (change_at 0 _ st)|done]|].
  intros r st2 (-> & s2 & Hch2 & Hm2). cbn [Z.ltb Z.compare]. nstep.
  pose proof (staged_rx _ _ _ _ Hg1 Hch2 (mp_config _ Hm2)) as Hg2.
  eapply nwp_mono; [apply (nwp_start w 0 s2); [done|apply Hg2|now apply (change_at 0 _ st1)|done]|].
  intros r st3 (-> & s3 & Hch3 & Hl3). cbn [Z.ltb Z.compare].
  pose proof (staged_rx _ _ _ _ Hg2 Hch3 (live_configured _ Hl3)) as Hg3.
  apply (nwp_config_tx _ _ s3); [now apply staged_set_rx, staged_set_rx|now apply (change_at 0 _ st2)|done].
Qed.

(** Activation fails, or begins a session. *)
Lemma nwp_active p q st :
  two_streams st -> Z.of_nat (String.length (opt_source (p_opt p))) <= 26 ->
  nwp (qnf_active w p q) (fun r st' => r.1.1 = -1 \/ r.1.1 = 0 /\ session r.2 st' /\ p_fcode r.1.2 = p_fcode p) st.
Proof.
  intros Ht Hn. unfold qnf_active. destruct (Z.ltb_spec 26 (Z.of_nat (String.length (opt_source (p_opt p))))); [lia|].
  nstep. eapply nwp_mono; [now apply nwp_open|]. intros r st1 [-> | (-> & Ho & Hz & Ht1)]; cbn [Z.ltb Z.compare card_fd]; [nstep; auto|].
  cbn [Z.ltb Z.compare]. nstep. eapply nwp_mono; [now apply (nwp_card_config (qnf_params (p_opt p) q))|]. intros r st2 [-> Hg].
  cbn [Z.ltb Z.compare]. nstep. eapply nwp_mono; [now apply nwp_stream_config|]. intros [r q'] st3 Hd. cbn [fst snd].
  destruct Hd as [E | (E & Ho3 & E1 & E2 & (s0 & H0 & Hl0) & H1)]; cbn [fst snd] in *; subst r; cbn [Z.ltb Z.compare]; nstep; [auto|].
  right. split; [done|]. split; [|done]. split; try done. exists s0. split; [done|]. split; [done|]. cbn. congruence.
Qed.

(** ** Closing *)

Lemma nwp_close q st : session q st -> nwp (qnf_platform_close w patience q) (fun _ _ => True) st.
Proof.
  intros [Ho H1 H2 (s0 & Hs0 & Hl0 & _) (s1 & Hs1 & Hl1)]. unfold qnf_platform_close, qnf_stream_close. rewrite H1, H2. nstep. nstep.
  eapply nwp_mono; [now apply (nwp_stop w 0 s0)|]. intros r st1 (_ & t0 & (E1 & Ha1 & N1) & Hc0). nstep.
  eapply nwp_mono; [apply (nwp_detach w 0 t0); [done|congruence|done..]|]. intros r2 st2 (_ & u0 & (E2 & Ha2 & N2) & _). nstep.
  eapply nwp_mono; [apply (nwp_tx_stop w patience 1 s1); [done|congruence|now apply N2, N1|done]|].
  intros r3 st3 (_ & t1 & (E3 & Ha3 & N3) & Hc1). nstep.
  eapply nwp_mono; [apply (nwp_tx_detach w 1 t1); [done|congruence|done..]|]. intros. repeat nstep. done.
Qed.
End Activation.
