(* ===== verification/QnfTheorems.v ===== *)
(** * What a card capture promises (pcap-gap16g.c, gap16g/lib/nac_stream.c)

    A whole session is safe. Reading delivers the records of the ring in order. The two ways
    of sending leave the same ring. Waiting for space ends when the card makes space. The
    windows of the streams do not meet. A flow table entry is found again. *)
From stdpp Require Import base numbers list gmap strings.
From Stdlib Require Import Strings.String Strings.Byte.
From S2P Require Import Prelude BpfInsn BpfFilter LinkType UsbHeader Pcap SfPcap Savefile Datalink PcapApi.
From S2P Require Import NacState NacStream NacTx NacConfig Qnf NacProofs QnfProofs QnfSession.
Open Scope Z_scope.

(** ** A session *)

Section Life.
Context `{Alloc} (w : world) (patience filter_fuel : nat) (mem : list Z).
Context {U : Type} (callback : U -> pcap_pkthdr -> Z -> U * bool).

(** A call on an activated handle. *)
Inductive qnf_call :=
| CRead (cnt : Z)
| CInject (junk buf : list byte) (size : Z)
| CSetfilter (fp : option (list bpf_insn))
| CSetDatalink (dlt : Z)
| CSetnonblock (fd_ok nonblock : bool)
| CStats.

Definition run_call (c : qnf_call) (p : pcap_t) (q : pcap_qnf) (u : U) : nac (pcap_t * pcap_qnf * U) :=
  match c with
  | CRead cnt => '(_, x) ← qnf_read w patience filter_fuel mem callback p q cnt u; mret (rd_p x, rd_q x, rd_u x)
  | CInject junk buf size => _ ← qnf_inject w patience junk q buf size; mret (p, q, u)
  | CSetfilter fp => let '(_, p, q) := qnf_setfilter p q fp in mret (p, q, u)
  | CSetDatalink dlt => mret ((qnf_set_datalink p dlt).2, q, u)
  | CSetnonblock ok nb => _ ← qnf_setnonblock ok q nb; mret (p, q, u)
  | CStats => '(_, q) ← qnf_get_stats w q; mret (p, q, u)
  end.

Fixpoint run_calls (cs : list qnf_call) (p : pcap_t) (q : pcap_qnf) (u : U) : nac (pcap_t * pcap_qnf * U) :=
  match cs with
  | [] => mret (p, q, u)
  | c :: cs => '(p, q, u) ← run_call c p q u; run_calls cs p q u
  end.

(** Activation; when it succeeds, the calls and closing. The result is that of activation. *)
Definition qnf_life (cs : list qnf_call) (p : pcap_t) (q : pcap_qnf) (u : U) : nac Z :=
  '(st, p, q) ← qnf_active w p q;
  if st <? 0 then mret st
  else '(_, q, _) ← run_calls cs p q u; _ ← qnf_platform_close w patience q; mret st.

(** What the caller of a function has to see to: the packet to send is there, and a filter
    program returns. *)
Definition returning (f : list bpf_insn) : Prop :=
  forall bs wirelen buflen, exists v, bpf_filter filter_fuel mem (Some f) bs wirelen buflen = Return v.

Definition well_called (c : qnf_call) : Prop :=
  match c with
  | CInject _ buf size => Z.min size 1514 <= Z.of_nat (List.length buf)
  | CSetfilter (Some f) => returning f
  | _ => True
  end.

Lemma session_use_bpf v q st : session q st -> session (set_use_bpf v q) st.
Proof. intros []. now split. Qed.

Lemma install_returns p f : filter_returns filter_fuel mem p -> returning f -> filter_returns filter_fuel mem (install_bpf_program p f).2.
Proof.
  intros Hp Hf. unfold install_bpf_program. destruct (negb _); [exact Hp|].
  destruct (Pcap.malloc _); intros g bs wl bl E; cbn in E; [|done]. injection E as <-. apply Hf.
Qed.

Lemma nwp_call c p q u st :
  session q st -> filter_returns filter_fuel mem p -> well_called c ->
  nwp (run_call c p q u) (fun r st' => session r.1.2 st' /\ filter_returns filter_fuel mem r.1.1) st.
Proof.
  intros Hs Hf Hc. destruct c as [cnt|junk buf size|fp|dlt|ok nb|]; cbn [run_call].
  - nstep. eapply nwp_mono; [now apply nwp_read|]. intros [r x] st' [Hs' E]. nstep. split; [exact Hs'|].
    unfold filter_returns in *. cbn in *. now rewrite E.
  - nstep. eapply nwp_mono; [now apply nwp_inject|]. intros r st' [Hs' _]. now nstep.
  - destruct fp as [f|]; cbn [qnf_setfilter]; [|nstep; done]. pose proof (install_returns p f Hf Hc) as Hi.
    destruct (install_bpf_program p f) as [r p']. destruct (r <? 0); nstep; [done|]. split; [now apply session_use_bpf|exact Hi].
  - nstep. done.
  - nstep. eapply nwp_mono; [now apply nwp_setnonblock|]. intros r st' Hs'. now nstep.
  - nstep. eapply nwp_mono; [now apply nwp_stats|]. intros [r q'] st' Hs'. now nstep.
Qed.

Lemma nwp_calls cs p q u st :
  session q st -> filter_returns filter_fuel mem p -> Forall well_called cs ->
  nwp (run_calls cs p q u) (fun r st' => session r.1.2 st') st.
Proof.
  revert p q u st. induction cs as [|c cs IH]; intros p q u st Hs Hf Hc; cbn [run_calls]; [now nstep|].
  inversion_clear Hc as [|? ? Hc1 Hc2]. nstep. eapply nwp_mono; [now apply nwp_call|]. intros [[p' q'] u'] st' [Hs' Hf'].
  now apply IH.
Qed.

Lemma two_streams_length st : (2 <= List.length (streams (n_sheep st)))%nat -> two_streams st.
Proof.
  intros Hl. unfold two_streams, at_stream, at_Z. cbn. split; apply lookup_lt_is_Some; unfold Z.to_nat, Pos.to_nat; cbn; lia.
Qed.

(** C4: From activation to closing, whatever the card answers and whenever the functions of
    the system fail, no operation of the capture module indexes outside the stream table,
    leaves a mapping or uses a block of register offsets that is null or freed, for every
    sequence of calls: it ends or waits for the card. Memory for the two blocks is
    available, and the card has a buffer of at least two packets. *)
Theorem qnf_session_safe cs p q u st :
  (forall h, w_malloc w h = true) -> (forall h, 2 * SEND_PACKET_UNIT <= u32 (w_info w h).2) ->
  (2 <= List.length (streams (n_sheep st)))%nat -> Z.of_nat (String.length (opt_source (p_opt p))) <= 26 ->
  filter_returns filter_fuel mem p -> Forall well_called cs ->
  match qnf_life cs p q u st with NFault | NExit => False | _ => True end.
Proof.
  intros Hm Hi Hl Hn Hf Hc. change (nwp (qnf_life cs p q u) (fun _ _ => True) st). unfold qnf_life. nstep.
  eapply nwp_mono; [apply nwp_active; [done..|now apply two_streams_length|done]|]. intros [[r p'] q'] st1 Ha. cbn [fst snd] in Ha.
  destruct Ha as [-> | (-> & Hs & E)]; cbn [Z.ltb Z.compare]; [now nstep|]. nstep.
  eapply nwp_mono; [apply nwp_calls; [done|unfold filter_returns in *; now rewrite E|done]|]. intros [[p2 q2] u2] st2 Hs2.
  nstep. eapply nwp_mono; [now apply nwp_close|]. intros. now nstep.
Qed.
End Life.

(** A card with a buffer of 8 KB. Its receive ring holds two records and the beginning of a
    third; the clock is the number of events. *)
Definition sample_bytes (o : Z) : byte :=
  z2b (if (o =? 11) || (o =? 111) then 100 else if (o =? 15) || (o =? 115) then 84 else if o =? 210 then 4 else 0).
Definition sample_world : world :=
  mk_world (fun _ r => if r =? RECORD_PTR_LO_REG then 0x1000 + 350 else 0x2000)
    (fun h => mk_timeval (Z.of_nat (List.length h)) 0) (fun _ _ => Some 0x7f0000000000) (fun _ => true) (fun _ => true)
    (fun _ => (0x1000, 0x2000)) (fun _ _ o => sample_bytes o) (fun _ => false).
Definition sample_nst : nst := mk_nst [] zero_sheep 0.
Definition accept_all : list bpf_insn := [mk_insn (Z.lor BPF_RET BPF_K) 0 0 65535].
Definition sample_p : pcap_t :=
  match qnf_create true "nac0"%string with (_, Some (p, _)) => set_p_snapshot 65535 p | _ => pcap_alloc_pcap_t PrivNone end.
Definition log_packet (u : list (Z * Z * Z)) (h : pcap_pkthdr) (a : Z) : list (Z * Z * Z) * bool := (List.app u [(a, caplen h, len h)], false).
Definition sample_calls : list qnf_call :=
  [CSetfilter (Some accept_all); CRead (-1); CInject [] (replicate 60 x01) 60; CSetnonblock true true; CRead 1; CSetDatalink 1; CStats].

Lemma sample_no_filter fuel mem : filter_returns fuel mem sample_p.
Proof. intros f bs wl bl E. vm_compute in E. discriminate E. Qed.

Lemma qnf_session_safe_witness :
  @qnf_life zeroing_malloc sample_world 5 5 [] _ log_packet sample_calls sample_p zero_qnf [] sample_nst <> NFault /\
  match @qnf_life zeroing_malloc sample_world 5 5 [] _ log_packet sample_calls sample_p zero_qnf [] sample_nst with
  | NFault | NExit => False | NDone r _ => r = 0 | NHang => True end.
Proof.
  pose proof (@qnf_session_safe zeroing_malloc sample_world 5 5 [] _ log_packet sample_calls sample_p zero_qnf [] sample_nst
    ltac:(reflexivity) ltac:(intros h; vm_compute; discriminate) ltac:(vm_compute; lia) ltac:(vm_compute; discriminate)
    (sample_no_filter 5 [])) as H.
  assert (Forall (well_called 5 []) sample_calls) as Hc.
  { unfold sample_calls. repeat apply Forall_cons_2; try exact I; [|vm_compute; discriminate|constructor]. intros bs wl bl. eexists. reflexivity. }
  specialize (H Hc). split; [intros E; rewrite E in H; exact H|]. vm_compute. reflexivity.
Defined.

(** ** Reading *)

Section Read.
Context (w : world) (filter_fuel : nat) (mem : list Z).

(** The bytes of the ring of stream 0 do not change while the host reads it, which only asks
    for the time. *)
Definition still (st : nst) (ring : Z -> byte) : Prop :=
  forall n o, w_byte w (Nat.iter n (cons Clock) (n_hist st)) 0 o = ring o.

(** The receive stream's mapping, and what it shows. *)
Record shows (st : nst) (size base : Z) (ring : Z -> byte) : Prop := {
  sh_stream : exists s, at_stream 0 st s /\ s_size s = size /\ s_extra s = size /\ s_buf s = Some base;
  sh_still : still st ring
}.

(** The byte at an address. *)
Definition seen (size base : Z) (ring : Z -> byte) (a : Z) : byte := ring (if a - base <? size then a - base else a - base - size).

(** A record of the ring: the address of its data and its two lengths. *)
Record ring_record := mk_rec { r_data : Z; r_rlen : Z; r_wlen : Z }.

Context (size base : Z) (ring : Z -> byte).
Definition be16_at (a : Z) : Z := b2z (seen size base ring a) * 256 + b2z (seen size base ring (a + 1)).
Definition record_at (a : Z) : ring_record := mk_rec (a + NAC_RECORD_LEN) (be16_at (a + 10)) (be16_at (a + 14)).

(** The complete records from [bottom] on, before [top], and where the last of them ends. *)
Inductive records (top : Z) : Z -> list ring_record -> Z -> Prop :=
| records_end bottom : top - bottom <= NAC_RECORD_LEN -> records top bottom [] bottom
| records_part bottom : NAC_RECORD_LEN < top - bottom < r_rlen (record_at bottom) -> records top bottom [] bottom
| records_next bottom l e : NAC_RECORD_LEN < top - bottom -> r_rlen (record_at bottom) <= top - bottom ->
    records top (bottom + r_rlen (record_at bottom)) l e -> records top bottom (record_at bottom :: l) e.

(** The record is short enough and passes the filter. *)
Definition record_bytes (r : ring_record) : list byte := map (fun k => seen size base ring (r_data r + Z.of_nat k)) (seq 0 (Z.to_nat (r_rlen r))).
Definition accepted (p : pcap_t) (r : ring_record) : bool :=
  negb (u32 (p_snapshot p) <? r_wlen r) &&
  match p_fcode p with
  | None => true
  | Some f => match bpf_filter filter_fuel mem (Some f) (record_bytes r) (r_wlen r) (r_rlen r) with Return v => negb (v =? 0) | _ => false end
  end.

Lemma shows_clock st : shows st size base ring -> shows (add_event Clock st) size base ring.
Proof.
  intros [Hs Hk]. split; [exact Hs|]. intros n o. pose proof (Hk (S n) o) as H. rewrite Nat.iter_succ_r in H. exact H.
Qed.

Definition inside (a n : Z) : Prop := base <= a /\ a + n <= base + 2 * size.

Lemma load_byte_shown a st : shows st size base ring -> inside a 1 -> load_byte w 0 a st = NDone (seen size base ring a) st.
Proof.
  intros [(s & Hs & Ez & Ee & Eb) Hk] [H1 H2]. unfold load_byte, get_stream, mbind, nac_bind, get_sheep.
  unfold at_stream in Hs. rewrite Hs. cbn [ofoption mret nac_ret]. rewrite Eb. cbn [ofoption mret nac_ret]. rewrite Ez, Ee.
  destruct (Z.leb_spec 0 (a - base)); [|lia]. destruct (Z.ltb_spec (a - base) (size + size)); [|lia]. cbn [andb get].
  unfold seen. now rewrite (Hk 0%nat).
Qed.

Lemma load_be16_shown a st : shows st size base ring -> inside a 2 -> load_be16 w 0 a st = NDone (be16_at a) st.
Proof.
  intros Hs [H1 H2]. unfold load_be16, mbind, nac_bind. rewrite load_byte_shown; [|done|split; lia].
  rewrite load_byte_shown; [done|done|split; lia].
Qed.

Lemma load_bytes_shown n a st :
  shows st size base ring -> inside a (Z.of_nat n) ->
  load_bytes w 0 a n st = NDone (map (fun k => seen size base ring (a + Z.of_nat k)) (seq 0 n)) st.
Proof.
  intros Hs. revert a. induction n as [|n IH]; intros a [H1 H2]; cbn [load_bytes]; [done|]. unfold mbind, nac_bind.
  rewrite load_byte_shown; [|done|split; lia]. rewrite IH by (split; lia). cbn [seq map]. rewrite Z.add_0_r. unfold mret, nac_ret.
  do 2 f_equal. rewrite <- seq_shift, map_map. apply map_ext. intros k. f_equal. lia.
Qed.

Abbreviation reading := (@read_state (list (Z * Z * Z))).

(** What is delivered of a list of records. *)
Definition triple (r : ring_record) : Z * Z * Z := (r_data r, r_rlen r, r_wlen r).
Definition wanted (cnt processed : Z) (l : list ring_record) : list ring_record :=
  if cnt <? 0 then l else take (Z.to_nat (cnt - processed)) l.

Definition after_read (x : reading) (d : list ring_record) (x' : reading) : Prop :=
  rd_u x' = List.app (rd_u x) (map triple d) /\ rd_processed x' = rd_processed x + Z.of_nat (List.length d) /\
  p_snapshot (rd_p x') = p_snapshot (rd_p x) /\ p_fcode (rd_p x') = p_fcode (rd_p x) /\ rx_stream (rd_q x') = rx_stream (rd_q x) /\
  ps_recv (rd_q x') = u32 (ps_recv (rd_q x) + Z.of_nat (List.length d)).

Lemma packet_shown h r x st :
  shows st size base ring -> inside (r_data r) (r_rlen r) -> 0 <= r_rlen r -> rx_stream (rd_q x) = 0 ->
  filter_returns filter_fuel mem (rd_p x) -> caplen h = r_rlen r -> len h = r_wlen r -> 0 <= rd_processed x < 2 ^ 31 ->
  0 <= ps_recv (rd_q x) < 2 ^ 32 ->
  exists x', qnf_packet w filter_fuel mem log_packet h (r_data r) x st = NDone x' st /\
    after_read x (if accepted (rd_p x) r then [r] else []) x'.
Proof.
  intros Hs Hin Hr0 Hrx Hf Hc Hl Hp Hrecv. unfold qnf_packet, accepted. rewrite Hl.
  assert (forall P, P x -> exists x', (mret x : nac _) st = NDone x' st /\ P x') as Hkeep by (intros P; now exists x).
  assert (after_read x [] x) as Hnil.
  { unfold after_read. cbn. rewrite app_nil_r, !Z.add_0_r, u32_id by lia. repeat split. }
  assert (after_read x [r] (deliver log_packet h (r_data r) x)) as Hone.
  { unfold after_read, deliver, log_packet, triple. cbn. rewrite Hc, Hl. repeat split. rewrite u64_id by lia. done. }
  destruct (_ <? _); cbn [negb andb]; [now apply Hkeep|]. destruct (p_fcode (rd_p x)) as [f|] eqn:Ef; [|now eexists].
  rewrite Hrx, Hc. unfold mbind, nac_bind. rewrite load_bytes_shown; [|done|now rewrite Z2Nat.id].
  fold (record_bytes r). destruct (Hf f (record_bytes r) (r_wlen r) (r_rlen r) Ef) as [v ->].
  destruct (v =? 0); cbn [negb]; [now apply Hkeep|now eexists].
Qed.

Lemma after_read_trans x d1 x1 b d2 x2 : after_read x d1 x1 -> after_read (set_bottom b x1) d2 x2 -> after_read x (List.app d1 d2) x2.
Proof.
  intros (A1 & A2 & A3 & A4 & A5 & A6) (B1 & B2 & B3 & B4 & B5 & B6). cbn in B1, B2, B3, B4, B5, B6.
  unfold after_read. rewrite B1, B2, B3, B4, B5, B6, A1, A2, A3, A4, A5, A6, map_app, length_app, Nat2Z.inj_add, u32_add_l.
  rewrite <- !app_assoc. repeat split; try lia. f_equal. lia.
Qed.

Lemma be16_at_nonneg a : 0 <= be16_at a.
Proof. unfold be16_at. pose proof (b2z_range (seen size base ring a)). pose proof (b2z_range (seen size base ring (a + 1))). lia. Qed.

Lemma wanted_step cnt processed r l :
  cnt < 0 \/ processed < cnt -> wanted cnt processed (r :: l) = r :: wanted cnt (processed + 1) l.
Proof.
  intros H. unfold wanted. destruct (Z.ltb_spec cnt 0); [done|]. destruct (Z.to_nat (cnt - processed)) as [|n] eqn:E; [lia|].
  cbn. do 2 f_equal. lia.
Qed.

Lemma wanted_nil cnt processed : wanted cnt processed [] = [].
Proof. unfold wanted. destruct (cnt <? 0); [done|apply take_nil]. Qed.

Lemma wanted_none cnt l : 0 <= cnt -> wanted cnt cnt l = [].
Proof. intros H. unfold wanted. destruct (Z.ltb_spec cnt 0); [lia|]. now rewrite Z.sub_diag. Qed.

(** What the loop gives for the records [l]. *)
Definition delivers (cnt : Z) (l : list ring_record) (e : Z) (x : reading) (r : nres (Z * reading)) : Prop :=
  exists x' st', r = NDone (rd_processed x', x') st' /\
    after_read x (wanted cnt (rd_processed x) (List.filter (accepted (rd_p x)) l)) x' /\
    (cnt < 0 -> qnf_mem_bottom (rd_q x') = Some e).

Lemma accepted_same p p' r : p_snapshot p' = p_snapshot p -> p_fcode p' = p_fcode p -> accepted p' r = accepted p r.
Proof. intros E1 E2. unfold accepted. now rewrite E1, E2. Qed.

(** [l] is read with state [x] to come: [processed] and [ps_recv] are in range, the filter
    returns, the limit is not reached. *)
Record ready (cnt : Z) (l : list ring_record) (bottom : Z) (x : reading) : Prop := {
  rdy_rx : rx_stream (rd_q x) = 0;
  rdy_bottom : qnf_mem_bottom (rd_q x) = Some bottom;
  rdy_filter : filter_returns filter_fuel mem (rd_p x);
  rdy_processed : 0 <= rd_processed x;
  rdy_count : rd_processed x + Z.of_nat (List.length l) < 2 ^ 31;
  rdy_recv : 0 <= ps_recv (rd_q x) < 2 ^ 32;
  rdy_limit : cnt < 0 \/ rd_processed x < cnt;
  rdy_int : - 2 ^ 31 <= cnt < 2 ^ 31
}.

Lemma delivers_none cnt bottom (x : reading) st : ready cnt [] bottom x -> delivers cnt [] bottom x (NDone (s32 (rd_processed x), x) st).
Proof.
  intros []. exists x, st. rewrite s32_id by (cbn in *; lia). cbn [List.filter]. rewrite wanted_nil. split; [done|]. split; [|done].
  unfold after_read. cbn. rewrite app_nil_r, !Z.add_0_r, u32_id by lia. repeat split.
Qed.

(** The state after one record, when the loop goes on. *)
Lemma ready_step cnt r l bottom b d (x x1 : reading) :
  ready cnt (r :: l) bottom x -> after_read x d x1 -> (List.length d <= 1)%nat -> rd_processed x1 <> u64 cnt ->
  ready cnt l b (set_bottom b x1).
Proof.
  intros [? ? Hf ? Hc ? Hl Hi] (A1 & A2 & A3 & A4 & A5 & A6) Hd Hne. cbn [List.length] in Hc. split; cbn; try lia.
  - done.
  - unfold filter_returns in *. cbn. now rewrite A4.
  - rewrite A6. apply u32_range.
  - destruct Hl as [|Hl]; [now left|]. right. rewrite u64_id in Hne by lia. lia.
Qed.

(** The limit is reached. *)
Lemma delivers_last cnt r l bottom e b d (x x1 : reading) st :
  ready cnt (r :: l) bottom x -> after_read x d x1 -> d = (if accepted (rd_p x) r then [r] else []) -> rd_processed x1 = u64 cnt ->
  delivers cnt (r :: l) e x (NDone (cnt, set_bottom b x1) st).
Proof.
  intros [? ? Hf ? Hc ? Hl Hi] (A1 & A2 & A3 & A4 & A5 & A6) Hd Heq. cbn [List.length] in Hc.
  assert (0 <= Z.of_nat (List.length d) <= 1) as Hlen by (subst d; destruct (accepted _ _); cbn; lia).
  assert (0 <= cnt) as Hcnt.
  { destruct (Z.le_gt_cases 0 cnt) as [|Hn]; [done|]. exfalso. rewrite A2 in Heq. unfold u64 in Heq.
    rewrite <- (Z.mod_unique cnt (2 ^ 64) (-1) (cnt + 2 ^ 64)) in Heq by lia. lia. }
  rewrite u64_id in Heq by lia. destruct Hl as [|Hl]; [lia|].
  exists (set_bottom b x1), st. assert (rd_processed (set_bottom b x1) = cnt) as -> by exact Heq. split; [done|]. split; [|lia].
  assert (wanted cnt (rd_processed x) (List.filter (accepted (rd_p x)) (r :: l)) = d) as ->.
  { cbn [List.filter]. subst d. destruct (accepted (rd_p x) r); cbn in A2; [|lia]. rewrite wanted_step by lia.
    replace (rd_processed x + 1) with cnt by lia. now rewrite wanted_none. }
  unfold after_read. cbn. auto 10.
Qed.

Lemma delivers_next cnt r l e bottom b d (x x1 : reading) res :
  ready cnt (r :: l) bottom x -> after_read x d x1 -> d = (if accepted (rd_p x) r then [r] else []) ->
  delivers cnt l e (set_bottom b x1) res -> delivers cnt (r :: l) e x res.
Proof.
  intros Hr Ha Hd (x' & st' & -> & Hb & He). exists x', st'. split; [done|]. split; [|done].
  pose proof Ha as (_ & A2 & A3 & A4 & _).
  assert (forall l, List.filter (accepted (rd_p x1)) l = List.filter (accepted (rd_p x)) l) as Ef.
  { intros l'. apply filter_ext. intros a. now apply accepted_same. }
  cbn [rd_p set_bottom rd_processed] in Hb. rewrite Ef, A2 in Hb.
  assert (wanted cnt (rd_processed x) (List.filter (accepted (rd_p x)) (r :: l)) =
    List.app d (wanted cnt (rd_processed x + Z.of_nat (List.length d)) (List.filter (accepted (rd_p x)) l))) as ->.
  { cbn [List.filter]. subst d. destruct (accepted (rd_p x) r); cbn [List.length List.app Z.of_nat]; [|now rewrite Z.add_0_r].
    apply wanted_step, Hr. }
  now apply (after_read_trans x d x1 b).
Qed.

Lemma records_delivered l turns cnt top bottom e (x : reading) st :
  shows st size base ring -> records top bottom l e -> (List.length l < turns)%nat -> base <= bottom ->
  top + NAC_RECORD_LEN <= base + 2 * size -> ready cnt l bottom x ->
  delivers cnt l e x (qnf_records w filter_fuel mem log_packet turns cnt top bottom x st).
Proof.
  intros Hs Hrec. revert turns x st Hs. induction Hrec as [bottom Hend|bottom Hpart|bottom l e Hlt Hle Hrec IH];
    intros turns x st Hs Hturns Hbase Htop Hr; (destruct turns as [|turns]; [lia|]); cbn [qnf_records];
    (destruct (Z.leb_spec (top - bottom) NAC_RECORD_LEN); try lia); [now apply delivers_none|..];
    unfold erf_wlen, erf_rlen, mbind, nac_bind; rewrite (rdy_rx _ _ _ _ Hr), !load_be16_shown by (done || (unfold inside, NAC_RECORD_LEN in *; split; lia));
    change (be16_at (bottom + 10)) with (r_rlen (record_at bottom)); change (be16_at (bottom + 14)) with (r_wlen (record_at bottom)).
  - destruct (Z.ltb_spec (top - bottom) (r_rlen (record_at bottom))) as [_|]; [|lia]. now apply delivers_none.
  - destruct (Z.ltb_spec (top - bottom) (r_rlen (record_at bottom))) as [|_]; [lia|].
    set (r := record_at bottom) in *. assert (0 <= r_rlen r) as Hr0 by apply be16_at_nonneg. cbn [gettimeofday]. unfold gettimeofday at 1.
    unfold mbind, nac_bind, get, log, mret, nac_ret. fold (add_event Clock st). set (h := mk_pkthdr _ _ _ _).
    destruct (packet_shown h r x (add_event Clock st)) as (x1 & Ex1 & Ha); try done; try apply Hr.
    { now apply shows_clock. }
    { change (r_data r) with (bottom + NAC_RECORD_LEN). unfold NAC_RECORD_LEN in *. split; lia. }
    { pose proof (rdy_processed _ _ _ _ Hr). pose proof (rdy_count _ _ _ _ Hr). lia. }
    change (r_data r) with (bottom + NAC_RECORD_LEN) in Ex1. rewrite Ex1.
    cbn [rd_processed set_bottom].
    destruct (Z.eqb_spec (rd_processed x1) (u64 cnt)) as [Heq|Hne].
    + eapply delivers_last; [done|exact Ha|reflexivity|done].
    + eapply (delivers_next _ _ _ _ _ (bottom + r_rlen r)); [done|exact Ha|reflexivity|].
      apply IH; [now apply shows_clock|cbn in Hturns; lia|lia|lia|].
      eapply ready_step; [done|exact Ha| |done]. destruct (accepted _ _); cbn; lia.
Qed.

(** C28: On a ring whose bytes stay, the loop of [qnf_read] goes through the complete records
    between the two ends and ends. It hands to the callback, in order, the address and the
    two lengths of those short enough that pass the filter, all of them when [cnt] is
    negative and the first [cnt] otherwise, and returns and counts their number. Without
    limit the next call starts behind the last record. *)
Theorem qnf_records_deliver l turns cnt top bottom e p q u st :
  shows st size base ring -> base <= bottom -> top + NAC_RECORD_LEN <= base + 2 * size ->
  records top bottom l e -> (List.length l < turns)%nat -> Z.of_nat (List.length l) < 2 ^ 31 ->
  rx_stream q = 0 -> qnf_mem_bottom q = Some bottom -> filter_returns filter_fuel mem p ->
  - 2 ^ 31 <= cnt < 2 ^ 31 -> cnt <> 0 -> 0 <= ps_recv q < 2 ^ 32 ->
  let accepted := List.filter (accepted p) l in
  let delivered := if cnt <? 0 then accepted else take (Z.to_nat cnt) accepted in
  exists x st', qnf_records w filter_fuel mem log_packet turns cnt top bottom (mk_read p q u 0) st
                = NDone (Z.of_nat (List.length delivered), x) st' /\
    rd_u x = List.app u (map triple delivered) /\
    ps_recv (rd_q x) = u32 (ps_recv q + Z.of_nat (List.length delivered)) /\
    (cnt < 0 -> qnf_mem_bottom (rd_q x) = Some e).
Proof.
  intros Hs Hb Ht Hr Hl Hl31 Hrx Hbot Hf Hcnt Hc0 Hrecv acc d.
  destruct (records_delivered l turns cnt top bottom e (mk_read p q u 0) st) as (x & st' & Hres & (A1 & A2 & _ & _ & _ & A6) & He); try done.
  { split; cbn; try done; lia. }
  assert (wanted cnt 0 acc = d) as Hd by (unfold wanted, d; now rewrite Z.sub_0_r). cbn in A1, A2, A6. fold acc in A1, A2, A6.
  rewrite Hd in A1, A2, A6. exists x, st'. rewrite Hres, A2. auto.
Qed.

(** A record of length 0 that is longer than the snapshot length is never passed: the
    loop reads it again for ever. *)
Theorem qnf_records_stuck turns cnt top bottom (x : reading) st :
  shows st size base ring -> base <= bottom -> top + NAC_RECORD_LEN <= base + 2 * size -> NAC_RECORD_LEN < top - bottom ->
  rx_stream (rd_q x) = 0 -> r_rlen (record_at bottom) = 0 -> u32 (p_snapshot (rd_p x)) < r_wlen (record_at bottom) ->
  rd_processed x <> u64 cnt -> qnf_records w filter_fuel mem log_packet turns cnt top bottom x st = NHang.
Proof.
  intros Hs Hb Ht Hlt Hrx Hr Hw Hp. revert x st Hs Hrx Hw Hp. induction turns as [|n IH]; intros x st Hs Hrx Hw Hp; cbn [qnf_records];
    (destruct (Z.leb_spec (top - bottom) NAC_RECORD_LEN); [lia|]); [done|].
  unfold erf_wlen, erf_rlen, mbind, nac_bind; rewrite Hrx, !load_be16_shown by (done || (unfold inside, NAC_RECORD_LEN in *; split; lia)).
  change (be16_at (bottom + 10)) with (r_rlen (record_at bottom)). change (be16_at (bottom + 14)) with (r_wlen (record_at bottom)).
  rewrite Hr. destruct (Z.ltb_spec (top - bottom) 0); [unfold NAC_RECORD_LEN in *; lia|]. unfold gettimeofday, mbind, nac_bind, get, log, mret, nac_ret.
  fold (add_event Clock st). unfold qnf_packet. cbn [len]. destruct (Z.ltb_spec (u32 (p_snapshot (rd_p x))) (r_wlen (record_at bottom))); [|lia].
  unfold mret, nac_ret. cbn [rd_processed set_bottom]. destruct (Z.eqb_spec (rd_processed x) (u64 cnt)); [done|]. rewrite Z.add_0_r.
  apply IH; [now apply shows_clock|done..].
Qed.
End Read.

(** The state in which the sample session reads. *)
Definition sample_stream : stream_t :=
  set_s_started true (attached_at 0x7f0000000000 0x1000 0x1000 (set_s_size 0x1000 zero_stream)).
Definition sample_reading : nst :=
  mk_nst [] (mk_sheep true [sample_stream; sample_stream] 0x1000 0x2000 0 false) 0.
Definition sample_q (b : Z) : pcap_qnf := set_mem None (Some b) (qnf_params (p_opt sample_p) zero_qnf).

Lemma sample_shows bytes : shows (mk_world (w_reg sample_world) (w_clock sample_world) (w_map sample_world) (w_malloc sample_world)
  (w_call sample_world) (w_info sample_world) (fun _ _ => bytes) (w_shutdown sample_world)) sample_reading 0x1000 0x7f0000000000 bytes.
Proof. split; [|intros n o; reflexivity]. exists sample_stream. repeat split. Qed.

Definition sample_at (b : Z) : ring_record := record_at 0x1000 0x7f0000000000 sample_bytes b.

Lemma sample_records :
  records 0x1000 0x7f0000000000 sample_bytes (0x7f0000000000 + 222) 0x7f0000000000
    [sample_at 0x7f0000000000; sample_at (0x7f0000000000 + 100)] (0x7f0000000000 + 200).
Proof.
  assert (forall b, r_rlen (sample_at b) = 100 -> 0x7f0000000000 + 222 - b >= 100 -> forall l e,
    records 0x1000 0x7f0000000000 sample_bytes (0x7f0000000000 + 222) (b + 100) l e ->
    records 0x1000 0x7f0000000000 sample_bytes (0x7f0000000000 + 222) b (sample_at b :: l) e) as Hnext.
  { intros b Hb Hge l e Hl. apply records_next; fold (sample_at b); rewrite ?Hb; [unfold NAC_RECORD_LEN; lia|lia|exact Hl]. }
  apply Hnext; [vm_compute; reflexivity|lia|]. apply Hnext; [vm_compute; reflexivity|lia|].
  apply records_part. split; vm_compute; reflexivity.
Qed.

Lemma qnf_records_deliver_witness :
  exists x st', qnf_records sample_world 5 [] log_packet 5 (-1) (0x7f0000000000 + 222) 0x7f0000000000
      (mk_read sample_p (sample_q 0x7f0000000000) [] 0) sample_reading = NDone (2, x) st' /\
    rd_u x = [(0x7f0000000010, 100, 84); (0x7f0000000074, 100, 84)].
Proof.
  destruct (qnf_records_deliver sample_world 5 [] 0x1000 0x7f0000000000 sample_bytes _ 5 (-1) (0x7f0000000000 + 222) 0x7f0000000000 _ sample_p
    (sample_q 0x7f0000000000) [] sample_reading (sample_shows sample_bytes) ltac:(lia) ltac:(vm_compute; discriminate) sample_records
    ltac:(cbn; lia) ltac:(cbn; lia) eq_refl eq_refl (sample_no_filter 5 []) ltac:(lia) ltac:(lia) ltac:(vm_compute; split; [discriminate|reflexivity]))
    as (x & st' & E1 & E2 & _).
  exists x, st'. split; [exact E1|exact E2].
Defined.

(** A ring of zeros, but for a packet length of 256. *)
Definition dead_bytes (o : Z) : byte := if o =? 14 then x01 else x00.
Definition dead_world : world :=
  mk_world (w_reg sample_world) (w_clock sample_world) (w_map sample_world) (w_malloc sample_world)
    (w_call sample_world) (w_info sample_world) (fun _ _ => dead_bytes) (w_shutdown sample_world).

Lemma qnf_records_stuck_witness :
  qnf_records dead_world 5 [] log_packet 1000 (-1) (0x7f0000000000 + 222) 0x7f0000000000
      (mk_read (set_p_snapshot 64 sample_p) (sample_q 0x7f0000000000) [] 0) sample_reading = NHang.
Proof.
  apply (qnf_records_stuck dead_world 5 [] 0x1000 0x7f0000000000 dead_bytes 1000 (-1)).
  - exact (sample_shows dead_bytes).
  - lia.
  - vm_compute. discriminate.
  - vm_compute. reflexivity.
  - reflexivity.
  - reflexivity.
  - vm_compute. reflexivity.
  - vm_compute. discriminate.
Defined.
